(* ===== verification/_CoqProject ===== *)
-Q . S2P
Prelude.v
Cancellation.v
Text.v
Net.v
NetFacts.v
Environment.v
Config.v
Programs.v
JsonRpc.v
Framing.v
Server.v
ServerFacts.v
Instances.v
InstanceFacts.v
Database.v
RowFacts.v
Repositories.v
ComputeRepository.v
Invariant.v
RepositoryFacts.v
LifecycleFacts.v
ComputeFacts.v
Persistence.v
Codecs.v
Migrations.v
PersistenceProperties.v
Effects.v
NodeConfig.v
NodeAgent.v
NodeSemantics.v
NodeFacts.v
NodeRequests.v
NodeHealthy.v
NodeProperties.v
NodeTransport.v
Redaction.v
AgentServer.v
MessageCodecs.v
R2Credentials.v
ConfigProperties.v
NodeProcess.v
FramingProperties.v
AgentProperties.v
ProtocolProperties.v
LocalCompute.v
LocalHost.v
LocalHostProperties.v
AkamaiCompute.v
AkamaiClient.v
Reconciliation.v
Semantics.v
ManagerFacts.v
ReconcileFacts.v
PassFacts.v
DataSafety.v
System.v
World.v
SystemProperties.v
Traces.v
AkamaiProperties.v
ReconcileProperties.v
Application.v
ApplicationFacts.v
ApplicationProperties.v
ClientProtocol.v
ClientRpc.v
UnixSocket.v
ClientProperties.v
SocketProperties.v
Listeners.v
ListenerProperties.v
Sessions.v
R2Properties.v
RpcClient.v
CommandLine.v
CommandLineProperties.v
Bootstrap.v
CertificateAuthority.v
ControlPlane.v
ControlPlaneProperties.v
