(* ===== verification/Prelude.v ===== *)
(** * Verification of the Minecraft server control plane

    The repository is a control plane that keeps Minecraft servers in the state
    their owners asked for (crates/mcserver-control-plane, with the command-line client
    mcserverctl), a node agent that runs one server on one machine
    (crates/mcserver-node-agent), and the messages between them
    (crates/mcserver-protocol). This library models all three and proves what
    their users depend on: data that a server process wrote is never discarded
    before a snapshot of it is recorded, at most one instance of a server is
    active, stale instances cannot publish, requests are applied to the generation
    they name, secrets and machines of one server stay out of reach of the others,
    and the processes start, serve and end in order.

    ** Parts of the program and where they are modelled

    Paths are relative to src/crates/mcserver-control-plane/src/ unless they begin
    with the name of another crate.

    The database and what is in it:
    - domain/server.rs, domain/time.rs: [Server]. [Server] is a record, a method
      on [&mut self] returns its [Result] and the server it leaves behind.
      Facts and claims: [ServerFacts].
    - domain/server_instance.rs, domain/compute_instance.rs: [Instances], with
      the checks of [rehydrate] in the order of the code; [InstanceFacts] says
      exactly what they accept.
    - migrations/*.sql: [Database]. A table is a finite map from the primary key
      to the remaining columns; the [CHECK]s are boolean functions on rows, the
      unique constraints are tests on insertion. The decoders of rows are here
      too. [RowFacts]: well-formed rows satisfy the [CHECK]s and decode.
    - infrastructure/server_repository.rs, server_instance_repository.rs,
      snapshot_repository.rs: [Repositories];
      infrastructure/compute_instance_repository.rs: [ComputeRepository]. A
      method is a function from the database to an answer and a database; a
      statement and a transaction are atomic, a failed transaction rolls back.
      [Invariant] is the invariant of the database; [RepositoryFacts],
      [LifecycleFacts] and [ComputeFacts] show that each write keeps it;
      [Persistence] makes the writes the transitions of a state machine
      ([db_step], [reachable]) and states what only grows ([grows]);
      [PersistenceProperties] holds the claims.
    - migrations/*.sql as [connect_database] (infrastructure/database.rs) runs them:
      [Migrations], with SQLite's reading and writing of JSON as a parameter and
      the databases of earlier releases as data of their own.

    The worker, the managers of machines and the services:
    - infrastructure/compute.rs, local_compute.rs, akamai_compute.rs,
      reconciliation.rs, application/*.rs are asynchronous. [Programs] makes a
      function a tree of operations and continuations, written with [let!] for
      [.await] and [let?] for [.await?], with its traces; [Effects] lists the
      operations these functions ask of the outside world ([op]: clock, random
      ids, the database, agents, local processes, the cloud provider).
      [LocalCompute], [AkamaiCompute], [Reconciliation] and [Application] are the
      functions, one definition each, with the parts of the longest ones named.
      [LocalHost] is what local_compute.rs does on its host for these operations:
      processes, signals, metadata, Podman and the reaping of orphans;
      [LocalHostProperties] holds its claims. [AkamaiClient] is the HTTP client of
      akamai_compute.rs, which carries out the operations on the provider.
    - [Semantics] runs a [prog]: before each operation other tasks may write to
      the database, a database operation may fail before or after it took
      effect, and every other operation may be answered with anything of its
      type. [Traces] relates an operation to what was observed before it.
    - [ManagerFacts], [ReconcileFacts], [PassFacts], [DataSafety] and [System]
      lead to the claims of [SystemProperties] about histories of the whole
      control plane, whose steps are the passes of the worker, the recovery of
      machines at the start, and the writes of all other tasks; [AkamaiProperties], [ReconcileProperties] and
      [ApplicationProperties] hold the claims about the cloud provider, the
      worker and the client requests ([ApplicationFacts]).
    - infrastructure/r2_temporary_credentials.rs: [R2Credentials], [R2Properties];
      infrastructure/akamai_bootstrap.rs: [Bootstrap], with a
      reader of the shell words, of the here-document and of the environment file
      that the script writes; infrastructure/agent_certificate_authority.rs:
      [CertificateAuthority]. These files, [RpcClient], [Sessions], [NodeProcess],
      [Cancellation] and [Redaction] hold their own claims.

    Connections:
    - crates/mcserver-protocol/src/json_rpc.rs: [JsonRpc]; the line framing that all
      connections share: [Framing], [FramingProperties]; client.rs of the protocol:
      [ClientProtocol]. Text, numbers and addresses: [Text], [Net], [NetFacts].
    - interface/client_rpc.rs: [ClientRpc], [ClientProperties];
      interface/unix_socket.rs: [UnixSocket], [SocketProperties]; client.rs:
      [RpcClient]; bin/mcserverctl.rs: [CommandLine],
      [CommandLineProperties].
    - agent/server.rs: [AgentServer] is a connection from its first message on,
      [AgentProperties] its claims; [Listeners] and [ListenerProperties] are the
      loops that accept connections (those of unix_socket.rs too), with the
      handshake and the tasks of the connections; agent/registry.rs:
      [Sessions], the calls of agents through the registry
      and the channels, and the queue of reconciliation.rs.

    The node agent (crates/mcserver-node-agent/src/):
    - config.rs: [NodeConfig]; executor.rs: [NodeAgent]; transport.rs:
      [NodeTransport]; its [connect], main.rs and cancellation.rs:
      [NodeProcess].
    - [NodeSemantics] says what commands and file-system calls do to a node;
      [NodeFacts], [NodeRequests] and [NodeHealthy] lead to the claims of
      [NodeProperties]; [ProtocolProperties] joins the two ends of the protocol.

    The processes:
    - config.rs: [Config] over [Environment], [ConfigProperties] (of both
      processes); main.rs: [ControlPlane], [ControlPlaneProperties]; shutdown.rs:
      [Cancellation], threads that interleave on a token. [Redaction] is what the
      [Debug] implementations show.

    [World] evaluates programs in a cooperative world, and [Codecs] and
    [MessageCodecs] are concrete encodings; the witnesses of the claims use them.

    ** What the theorems show

    - Data safety ([SystemProperties]): a terminated instance whose data was
      prepared has a recorded snapshot; after a start request, whatever can
      discard data happens only once the data is published; every pass acts for
      the one instance it read as active, with its fencing token; every run of
      the worker's loop is such a history.
    - Persistence ([PersistenceProperties]): one active instance with the largest
      token, lineage of snapshots, atomic and fenced publication, fenced creation
      of instances, compare-and-swap updates, permanence of history and names,
      one-time enrollment; a [CHECK] refuses only texts and certificates that the
      code does not control, and no read fails to decode; an upgrade keeps every
      column ([Migrations]).
    - The node ([NodeProperties], [ProtocolProperties]): the state file never says
      more than the disk holds, whatever is interrupted; stale requests are refused;
      a snapshot that is answered, or found by an inspection and not known before
      the last start, is the data, and another node restores it.
    - The worker ([ReconcileProperties]): what its outcomes mean, at most 32
      passes per turn, which servers its loop gives turns to and for when it
      schedules them, bounds of the delays, and the evaluation of a whole
      lifecycle.
    - Requests ([ApplicationProperties], [ClientProperties], [SocketProperties],
      [RpcClient], [CommandLineProperties]): answers of the services under
      concurrent writes and failures, of JSON-RPC over the socket, of the client
      library and of the commands, each stated on top of the one before.
    - Agents ([AgentProperties], [ListenerProperties], [Sessions]): who
      is registered and with which certificate, sessions that stay in step, a
      bounded number of connections served independently, calls that are
      answered by the right session at most once.
    - Machines ([AkamaiProperties], [AkamaiClient], [LocalHostProperties]): machines
      are created only within the policy, only owned machines are deleted, listings
      of the provider are complete, its token stays with it, reaping spares what is
      in use, signals follow a look that showed the recorded process.
    - Secrets ([R2Properties], [CertificateAuthority], [Bootstrap],
      [NodeProcess], [Redaction]): credentials open the path of a repository, and
      only one server's storage when the services chose it, certificates name one compute instance, what a machine is started with is
      accepted by its agent, connections are private, logs show no secret.
    - Processes ([ConfigProperties], [ControlPlaneProperties], [Cancellation],
      [NodeProcess]): accepted configurations are consistent, nothing is served
      before the checks, the shutdown is orderly, no cancellation is missed.
    - The domain ([ServerFacts]): the server's invariant over histories,
      generations, archiving, names, resolution of data.

    ** Parameters and bounds

    Text of UUIDs and JSON of specifications come from third-party crates: the
    class [Codec] (operations) and [CodecLaws] (parsing inverts printing, and
    what is printed is valid JSON); the JSON of messages is behind [JsonText],
    [Serialize] and [Deserialize]. [Codecs] and [MessageCodecs] show that the
    laws can hold; [Migrations] has the JSON of a specification field by field.
    The text of an error's cause, the iteration order of a [HashMap], URL parsing
    ([UrlLaws]), rustls, base64 and lossy UTF-8 are parameters. Integers are [Z]
    kept at their width by the code's own checks ([u64_checked_add],
    [i64_try_from], saturating operations); times are milliseconds, durations and
    instants nanoseconds.

    Recursion is structural. The 32 transitions of a turn and the 3 attempts of a
    request are the code's own bounds, and the decimal printer has 20 digits of
    fuel, enough for a [u64]. Loops that the code runs for as long as the other
    side likes take fuel: a session of commands, a client's frames, reconnections
    and requests of a node agent return [None] when it is used up, and their
    theorems hold for every fuel, or (reading of frames, a client's messages)
    with the fuel that the input needs. The loops that wait for a process take
    the rounds that fit into their timeout and ask for [HostForever] beyond, which
    is shown to happen only when the clock stands still; a listing of the provider
    takes as many pages as its fuel and asks for [HttpForever] beyond, which is
    shown to happen only when the provider reported more pages; draining services
    takes as many rounds as there are services. The listeners, the registry and
    the cancellation tokens have no bound: they are step relations or lists of
    events.

    ** Not modelled

    SQLite connections and pooling; the text that [Debug] implementations are
    rendered to; the interior of TLS, Podman, restic and openssl, which are
    operations. A crash of the control plane between two passes is a history;
    a crash within a pass is not distinguished from operations that fail. Logging
    has no effect on state. *)
From stdpp Require Export base tactics option list strings gmap fin_maps.
From Stdlib Require Export ZArith Lia.

#[global] Open Scope Z_scope.

(** ** Machine integers *)

(** Largest value of Rust's [u16], [u32], [u64] and [i64]. *)
Definition u16_max : Z := 65535.
Definition u32_max : Z := 4294967295.
Definition u64_max : Z := 18446744073709551615.
Definition i64_max : Z := 9223372036854775807.

(** [u64::checked_add]. *)
Definition u64_checked_add (a b : Z) : option Z :=
  if a + b <=? u64_max then Some (a + b) else None.

(** [u32::saturating_add] and [u32::saturating_sub]. *)
Definition u32_saturating_add (a b : Z) : Z := Z.min (a + b) u32_max.
Definition u32_saturating_sub (a b : Z) : Z := Z.max (a - b) 0.

(** [i64::saturating_sub]. *)
Definition i64_saturating_sub (a b : Z) : Z :=
  Z.max (- i64_max - 1) (Z.min (a - b) i64_max).

(** [i64::try_from] on an unsigned value. *)
Definition i64_try_from (a : Z) : option Z :=
  if a <=? i64_max then Some a else None.

(** ** Rust's [Result] and the [?] operator *)

Inductive result (E A : Type) : Type :=
| Ok (a : A)
| Err (e : E).
Arguments Ok {_ _} _.
Arguments Err {_ _} _.

#[global] Instance result_eq_decision {E A} `{EqDecision E, EqDecision A} :
  EqDecision (result E A).
Proof. solve_decision. Defined.

(** The monad of fallible code: [x ← c; k] is Rust's [let x = c?; k]. *)
#[global] Instance result_ret {E} : MRet (result E) := λ A a, Ok a.
#[global] Instance result_bind {E} : MBind (result E) := λ A B f m,
  match m with Ok a => f a | Err e => Err e end.
#[global] Instance result_fmap {E} : FMap (result E) := λ A B f m,
  match m with Ok a => Ok (f a) | Err e => Err e end.

(** [Result::map_err], which is also what [?] does through [From]. *)
Definition map_err {E F A} (f : E → F) (m : result E A) : result F A :=
  match m with Ok a => Ok a | Err e => Err (f e) end.

(** [Option::ok_or]. *)
Definition ok_or {E A} (e : E) (o : option A) : result E A :=
  match o with Some a => Ok a | None => Err e end.

(** [if b { return Err(e) }]. *)
Definition err_if {E} (b : bool) (e : E) : result E unit :=
  if b then Err e else Ok tt.

(** [for x in l { f(x)?; }]. *)
Fixpoint for_each {E A} (f : A → result E unit) (l : list A) : result E unit :=
  match l with
  | [] => Ok tt
  | x :: l' => _ ← f x; for_each f l'
  end.

(** [l.iter().map(f).collect::<Result<Vec<_>, _>>()]. *)
Fixpoint collect_results {E A B} (f : A → result E B) (l : list A) : result E (list B) :=
  match l with
  | [] => Ok []
  | x :: l' => y ← f x; ys ← collect_results f l'; Ok (y :: ys)
  end.

(** [Option<T>.map(f).transpose()] for a fallible [f]. *)
Definition transpose_map {E A B} (f : A → result E B) (o : option A) : result E (option B) :=
  match o with
  | Some a => b ← f a; Ok (Some b)
  | None => Ok None
  end.

Definition is_ok {E A} (m : result E A) : bool :=
  match m with Ok _ => true | Err _ => false end.

Section result_facts.
Context {E : Type}.
Implicit Types e : E.

Lemma bind_ok {A B} (f : A → result E B) (m : result E A) b :
  (x ← m; f x) = Ok b ↔ ∃ a, m = Ok a ∧ f a = Ok b.
Proof. destruct m; unfold mbind, result_bind; naive_solver. Qed.

Lemma bind_err {A B} (f : A → result E B) (m : result E A) e :
  (x ← m; f x) = Err e ↔ m = Err e ∨ ∃ a, m = Ok a ∧ f a = Err e.
Proof. destruct m; unfold mbind, result_bind; naive_solver. Qed.

Lemma err_if_ok b e u : err_if b e = Ok u ↔ b = false.
Proof. destruct b, u; cbn; naive_solver. Qed.

Lemma err_if_err b e e' : err_if b e = Err e' ↔ b = true ∧ e' = e.
Proof. destruct b; cbn; naive_solver. Qed.

Lemma ok_or_ok {A} e (o : option A) a : ok_or e o = Ok a ↔ o = Some a.
Proof. destruct o; cbn; naive_solver. Qed.

Lemma map_err_ok {F A} (f : E → F) (m : result E A) a :
  map_err f m = Ok a ↔ m = Ok a.
Proof. destruct m; cbn; naive_solver. Qed.

Lemma ok_or_err {A} e (o : option A) e' : ok_or e o = Err e' ↔ o = None ∧ e' = e.
Proof. destruct o; cbn; naive_solver. Qed.

Lemma map_err_err {F A} (f : E → F) (m : result E A) (x : F) :
  map_err f m = Err x ↔ ∃ e, m = Err e ∧ x = f e.
Proof. destruct m; cbn; naive_solver. Qed.

Lemma for_each_ok {A} (f : A → result E unit) l u :
  for_each f l = Ok u ↔ Forall (λ x, f x = Ok tt) l.
Proof.
  destruct u. induction l as [|x l IH]; cbn; [split; auto|].
  rewrite bind_ok, Forall_cons, <- IH. split.
  - intros ([] & ? & ?). auto.
  - intros [? ?]. eauto.
Qed.

Lemma for_each_err {A} (f : A → result E unit) l e :
  for_each f l = Err e → ∃ x, x ∈ l ∧ f x = Err e.
Proof.
  induction l as [|x l IH]; cbn; [done|].
  rewrite bind_err. intros [?|(_ & _ & H)].
  - exists x. split; [left|done].
  - destruct (IH H) as (y & ? & ?). exists y. split; [by right|done].
Qed.

Lemma collect_results_ok {A B} (f : A → result E B) l ys :
  collect_results f l = Ok ys ↔ Forall2 (λ x y, f x = Ok y) l ys.
Proof.
  revert ys. induction l as [|x l IH]; intros ys; cbn.
  - split; [intros [= <-]; constructor | by inversion 1].
  - rewrite bind_ok. setoid_rewrite bind_ok. setoid_rewrite IH. split.
    + intros (y & ? & zs & ? & [= <-]). by constructor.
    + inversion 1; subst. eauto 10.
Qed.

Lemma transpose_map_ok {A B} (f : A → result E B) o ob :
  transpose_map f o = Ok ob ↔
  match o with Some a => ∃ b, f a = Ok b ∧ ob = Some b | None => ob = None end.
Proof.
  destruct o; cbn; [rewrite bind_ok|]; naive_solver.
Qed.

Lemma is_ok_ok {A} (m : result E A) : is_ok m = true ↔ ∃ a, m = Ok a.
Proof. destruct m; cbn; naive_solver. Qed.
End result_facts.

(** [inv_res] destructs every hypothesis that says how a chain of [?] came to
    its result, down to the atomic facts. *)
Ltac inv_res_step :=
  match goal with
  | H : Ok _ = Ok _ |- _ => injection H as H; subst
  | H : Err _ = Err _ |- _ => injection H as H; subst
  | H : Ok _ = Err _ |- _ => discriminate H
  | H : Err _ = Ok _ |- _ => discriminate H
  | H : Some _ = Some _ |- _ => injection H as H; subst
  | H : Some _ = None |- _ => discriminate H
  | H : None = Some _ |- _ => discriminate H
  | H : mbind _ _ = Ok _ |- _ => apply bind_ok in H as (? & ? & ?)
  | H : err_if _ _ = Ok _ |- _ => apply err_if_ok in H
  | H : map_err _ _ = Ok _ |- _ => apply map_err_ok in H
  | H : ok_or _ _ = Ok _ |- _ => apply ok_or_ok in H
  | H : for_each _ _ = Ok _ |- _ => apply for_each_ok in H
  | H : (_ || _) = false |- _ => apply orb_false_iff in H as [? ?]
  | H : (_ && _) = true |- _ => apply andb_true_iff in H as [? ?]
  | H : negb _ = false |- _ => apply negb_false_iff in H
  | H : negb _ = true |- _ => apply negb_true_iff in H
  | u : unit |- _ => destruct u
  end.
Ltac inv_res := repeat inv_res_step.

(** [inv_err] finds where a chain of [?] failed. *)
Ltac inv_err_step :=
  match goal with
  | H : mbind _ _ = Err _ |- _ => apply bind_err in H as [H|(? & ? & H)]
  | H : err_if _ _ = Err _ |- _ => apply err_if_err in H as [? ->]
  | H : ok_or _ _ = Err _ |- _ => apply ok_or_err in H as [? ->]
  | H : map_err _ _ = Err _ |- _ => apply map_err_err in H as (? & ? & ->)
  | H : Ok _ = Err _ |- _ => discriminate H
  | H : Err _ = Err _ |- _ => injection H as H; subst
  end.
Ltac inv_err := repeat inv_err_step.

(** [bz] turns boolean comparisons of integers into propositions. *)
Ltac bz :=
  repeat match goal with
  | H : (_ <? _) = true |- _ => apply Z.ltb_lt in H
  | H : (_ <? _) = false |- _ => apply Z.ltb_ge in H
  | H : (_ <=? _) = true |- _ => apply Z.leb_le in H
  | H : (_ <=? _) = false |- _ => apply Z.leb_gt in H
  | H : (_ =? _) = true |- _ => apply Z.eqb_eq in H
  | H : (_ =? _) = false |- _ => apply Z.eqb_neq in H
  | |- (_ <? _) = true => apply Z.ltb_lt
  | |- (_ <? _) = false => apply Z.ltb_ge
  | |- (_ <=? _) = true => apply Z.leb_le
  | |- (_ <=? _) = false => apply Z.leb_gt
  | |- (_ =? _) = true => apply Z.eqb_eq
  | |- (_ =? _) = false => apply Z.eqb_neq
  | |- (_ && _) = true => apply andb_true_iff; split
  end.

(** Lemmas of the development's automation, applied without unfolding. *)
Create HintDb mcserver discriminated.
#[global] Hint Constants Opaque : mcserver.

(** [o.is_some_and(p)]. *)
Definition is_some_and {A} (p : A → bool) (o : option A) : bool :=
  match o with Some a => p a | None => false end.

Definition is_some {A} (o : option A) : bool := match o with Some _ => true | None => false end.
Definition is_none {A} (o : option A) : bool := negb (is_some o).

(** ** Errors of the operating system *)

(** [std::io::Error], by the one kind the code looks at. *)
Inductive io_error := IoNotFound | IoOther (message : string).

(** ** Durations

    A [Duration] is its nanoseconds, a [u64] of seconds and a rest below one
    second. *)
Definition NANOS_PER_SEC : Z := 1000000000.
Definition duration_max : Z := u64_max * NANOS_PER_SEC + (NANOS_PER_SEC - 1).
Definition from_secs (secs : Z) : Z := secs * NANOS_PER_SEC.

(** [Duration::checked_mul]. *)
Definition duration_checked_mul (d n : Z) : option Z :=
  if d * n <=? duration_max then Some (d * n) else None.
(** [Duration::checked_add] and [checked_sub]. *)
Definition duration_checked_add (a b : Z) : option Z :=
  if a + b <=? duration_max then Some (a + b) else None.
Definition duration_checked_sub (a b : Z) : option Z :=
  if b <=? a then Some (a - b) else None.
Definition as_secs (d : Z) : Z := d / NANOS_PER_SEC.
Definition as_millis (d : Z) : Z := d / 1000000.

Lemma elem_of_rev {A} (x : A) l : x ∈ rev l ↔ x ∈ l.
Proof. by rewrite !list_elem_of_In, <- in_rev. Qed.
