(* ===== verification/Cancellation.v ===== *)
(** The tokens that ask the tasks of a process to end
    (crates/mcserver-control-plane/src/shutdown.rs; cancellation.rs of the node agent
    has the same code), as threads that interleave on the shared state of a token. *)
From S2P Require Import Prelude.
#[local] Open Scope nat_scope.

(** [CancellationState], which the clones of a token share. Of [Notify] it is known
    that [notify_waiters] completes every future that [notified] made before: a future
    remembers how many calls it has missed. *)
Record CancellationState := {
  cancelled_flag : bool;
  notify_calls : nat;
}.
Definition CancellationToken_new : CancellationState := {| cancelled_flag := false; notify_calls := 0 |}.

Definition is_cancelled (token : CancellationState) : bool := cancelled_flag token.

(** Where a call of [cancelled] stands: at the head of its loop, with a future, at the
    future's await, or at its end. *)
Inductive waiter := WaitLoop | WaitChecking (notified : nat) | WaitAwaiting (notified : nat) | WaitReturned.

(** The next step of [cancelled], [None] while it is blocked or once it has returned. *)
Definition cancelled_step (token : CancellationState) (w : waiter) : option waiter :=
  match w with
  | WaitLoop => Some (WaitChecking (notify_calls token))
  | WaitChecking notified => Some (if is_cancelled token then WaitReturned else WaitAwaiting notified)
  | WaitAwaiting notified => if decide (notified < notify_calls token) then Some WaitLoop else None
  | WaitReturned => None
  end.

(** Where a call of [cancel] stands: before the swap, before it notifies, at its end. *)
Inductive canceller := CancelSwap | CancelNotify | CancelDone.

Definition cancel_step (token : CancellationState) (c : canceller) :
    option (CancellationState * canceller) :=
  match c with
  | CancelSwap =>
      let swapped := {| cancelled_flag := true; notify_calls := notify_calls token |} in
      Some (swapped, if cancelled_flag token then CancelDone else CancelNotify)
  | CancelNotify =>
      Some ({| cancelled_flag := cancelled_flag token; notify_calls := S (notify_calls token) |}, CancelDone)
  | CancelDone => None
  end.

Inductive thread := Waiter (w : waiter) | Canceller (c : canceller).
Record token_state := { ts_token : CancellationState; ts_threads : list thread }.

(** One step of thread [i], if it is not blocked. *)
Definition step_thread (i : nat) (s : token_state) : token_state :=
  match ts_threads s !! i with
  | Some (Waiter w) =>
      match cancelled_step (ts_token s) w with
      | Some w' => {| ts_token := ts_token s; ts_threads := <[i := Waiter w']> (ts_threads s) |}
      | None => s
      end
  | Some (Canceller c) =>
      match cancel_step (ts_token s) c with
      | Some (token, c') => {| ts_token := token; ts_threads := <[i := Canceller c']> (ts_threads s) |}
      | None => s
      end
  | None => s
  end.
(** The threads step in the order of the schedule. *)
Definition run_schedule (schedule : list nat) (s : token_state) : token_state :=
  foldl (λ s i, step_thread i s) s schedule.

Definition starts (t : thread) : Prop := t = Waiter WaitLoop ∨ t = Canceller CancelSwap.
(** Any calls on the clones of a new token, after any schedule. *)
Definition token_reachable (s : token_state) : Prop :=
  ∃ threads schedule, Forall starts threads ∧
    s = run_schedule schedule {| ts_token := CancellationToken_new; ts_threads := threads |}.
(** A call of [cancel] is past its swap, and none has yet to notify. *)
Definition cancel_completed (s : token_state) : Prop :=
  Canceller CancelDone ∈ ts_threads s ∧ Canceller CancelNotify ∉ ts_threads s.

(** ** The invariant *)

Definition thread_ok (token : CancellationState) (t : thread) : Prop :=
  match t with
  | Waiter (WaitChecking notified) => notified ≤ notify_calls token
  | Waiter (WaitAwaiting notified) => notified = 0
  | Waiter WaitReturned | Canceller CancelDone => cancelled_flag token = true
  | Canceller CancelNotify => cancelled_flag token = true ∧ notify_calls token = 0
  | _ => True
  end.

(** At most one call notifies, and it is the one that cancelled. *)
Record token_ok (s : token_state) : Prop := {
  token_threads : Forall (thread_ok (ts_token s)) (ts_threads s);
  token_fresh : cancelled_flag (ts_token s) = false → notify_calls (ts_token s) = 0;
  token_pending : cancelled_flag (ts_token s) = true → notify_calls (ts_token s) = 0 →
    Canceller CancelNotify ∈ ts_threads s;
  token_once : ∀ i j, ts_threads s !! i = Some (Canceller CancelNotify) →
    ts_threads s !! j = Some (Canceller CancelNotify) → i = j;
  token_cause : cancelled_flag (ts_token s) = true →
    ∃ i c, ts_threads s !! i = Some (Canceller c) ∧ c ≠ CancelSwap;
}.

Lemma starts_ok threads :
  Forall starts threads → token_ok {| ts_token := CancellationToken_new; ts_threads := threads |}.
Proof.
  intros Hs. split; cbn; [|done..| |].
  - eapply Forall_impl; [done|]. by intros t [-> | ->].
  - intros i j Hi%(Forall_lookup_1 _ _ _ _ Hs). by destruct Hi.
  - done.
Qed.

Lemma step_waiter_ok i w w' token threads :
  threads !! i = Some (Waiter w) → cancelled_step token w = Some w' →
  token_ok {| ts_token := token; ts_threads := threads |} →
  token_ok {| ts_token := token; ts_threads := <[i := Waiter w']> threads |}.
Proof.
  intros Hi Hw [Ht Hf Hp Ho Hcause]. cbn in *. pose proof (Forall_lookup_1 _ _ _ _ Ht Hi) as Hok.
  split; cbn; [|done| | |].
  - apply Forall_insert; [done|]. destruct w; cbn in *; simplify_eq; try done.
    + unfold is_cancelled. destruct (cancelled_flag token) eqn:E; [done|].
      cbn. rewrite Hf in Hok by done. lia.
    + by case_decide; simplify_eq.
  - intros Hc Hn. specialize (Hp Hc Hn) as [j Hj]%list_elem_of_lookup.
    apply list_elem_of_lookup. exists j. rewrite list_lookup_insert_ne; [done|]. intros ->. congruence.
  - intros j k Hj Hk. apply list_lookup_insert_Some in Hj as [(_ & ? & _)|[_ Hj]]; [done|].
    apply list_lookup_insert_Some in Hk as [(_ & ? & _)|[_ Hk]]; [done|]. eauto.
  - intros (j & c & Hj & Hc)%Hcause. exists j, c. rewrite list_lookup_insert_ne; [done|]. intros ->. congruence.
Qed.

Lemma step_canceller_ok i c c' token token' threads :
  threads !! i = Some (Canceller c) → cancel_step token c = Some (token', c') →
  token_ok {| ts_token := token; ts_threads := threads |} →
  token_ok {| ts_token := token'; ts_threads := <[i := Canceller c']> threads |}.
Proof.
  intros Hi Hc [Ht Hf Hp Ho Hcause]. cbn in *. pose proof (Forall_lookup_1 _ _ _ _ Ht Hi) as Hok.
  assert (∀ c', c' ≠ CancelSwap →
    ∃ j d, <[i := Canceller c']> threads !! j = Some (Canceller d) ∧ d ≠ CancelSwap) as Hmoved.
  { intros d Hd. exists i, d. split; [|done]. apply list_lookup_insert_eq. by eapply lookup_lt_Some. }
  destruct c; cbn in *; simplify_eq; [destruct (cancelled_flag token) eqn:E|].
  - split; cbn.
    + apply Forall_insert; [|done]. eapply Forall_impl; [done|]. intros t. destruct t as [[]|[]]; cbn; naive_solver.
    + done.
    + intros _ Hn. specialize (Hp eq_refl Hn) as [j Hj]%list_elem_of_lookup.
      apply list_elem_of_lookup. exists j. rewrite list_lookup_insert_ne; [done|]. intros ->. congruence.
    + intros j k [(_ & ? & _)|[_ Hj]]%list_lookup_insert_Some; [done|].
      intros [(_ & ? & _)|[_ Hk]]%list_lookup_insert_Some; [done|]. eauto.
    + intros _. by apply Hmoved.
  - assert (∀ j, threads !! j ≠ Some (Canceller CancelNotify)) as Hno.
    { intros j Hj%(Forall_lookup_1 _ _ _ _ Ht). cbn in Hj. destruct Hj. congruence. }
    split; cbn.
    + apply Forall_insert; [|by rewrite Hf]. eapply Forall_impl; [done|].
      intros t. destruct t as [[]|[]]; cbn; naive_solver.
    + done.
    + intros _ _. apply list_elem_of_lookup. exists i. apply list_lookup_insert_eq. by eapply lookup_lt_Some.
    + intros j k [(-> & _ & _)|[_ Hj]]%list_lookup_insert_Some; [|naive_solver].
      intros [(-> & _ & _)|[_ Hk]]%list_lookup_insert_Some; naive_solver.
    + intros _. by apply Hmoved.
  - destruct Hok as [Hflag Hzero]. split; cbn.
    + apply Forall_lookup. intros j t [(<- & <- & _)|[Hne Hj]]%list_lookup_insert_Some; [done|].
      pose proof (Forall_lookup_1 _ _ _ _ Ht Hj) as Hj'.
      destruct t as [[]|[]]; cbn in *; try done; [lia|]. destruct (Hne (Ho _ _ Hi Hj)).
    + congruence.
    + done.
    + intros j k [(_ & ? & _)|[Hj' Hj]]%list_lookup_insert_Some; [done|].
      intros [(_ & ? & _)|[_ Hk]]%list_lookup_insert_Some; [done|]. eauto.
    + intros _. by apply Hmoved.
Qed.

Lemma step_thread_ok i s : token_ok s → token_ok (step_thread i s).
Proof.
  intros Hs. destruct s as [token threads]. unfold step_thread. cbn.
  destruct (threads !! i) as [[w|c]|] eqn:Hi; [| |done].
  - destruct (cancelled_step token w) as [w'|] eqn:Hw; [|done]. by eapply step_waiter_ok.
  - destruct (cancel_step token c) as [[token' c']|] eqn:Hc; [|done]. by eapply step_canceller_ok.
Qed.

Lemma reachable_token_ok s : token_reachable s → token_ok s.
Proof.
  intros (threads & schedule & Hs & ->). apply starts_ok in Hs.
  revert Hs. generalize {| ts_token := CancellationToken_new; ts_threads := threads |}.
  induction schedule as [|i schedule IH]; intros s Hs; [done|]. by apply IH, step_thread_ok.
Qed.

(** ** Waiting ends *)

(** The token is cancelled, and the notification is out. *)
Definition settled (s : token_state) : Prop :=
  cancelled_flag (ts_token s) = true ∧ 0 < notify_calls (ts_token s).

Lemma completed_settled s : token_ok s → cancel_completed s → settled s.
Proof.
  intros [Ht _ Hp _ _] [[i Hi]%list_elem_of_lookup Hno].
  pose proof (Forall_lookup_1 _ _ _ _ Ht Hi) as Hflag. cbn in Hflag. split; [done|].
  destruct (notify_calls (ts_token s)) eqn:En; [|lia]. by destruct Hno; apply Hp.
Qed.

Lemma step_settled i s : settled s → settled (step_thread i s).
Proof.
  intros [Hf Hn]. unfold settled, step_thread. destruct (ts_threads s !! i) as [[w|[]]|]; cbn; try done.
  - by destruct (cancelled_step (ts_token s) w).
  - split; [done|cbn; lia].
Qed.

(** The steps a waiter has left, once the token is settled. *)
Definition steps_left (w : waiter) : nat :=
  match w with WaitReturned => 0 | WaitChecking _ => 1 | WaitLoop => 2 | WaitAwaiting _ => 3 end.

Lemma own_step i w s :
  token_ok s → settled s → ts_threads s !! i = Some (Waiter w) →
  ∃ w', ts_threads (step_thread i s) !! i = Some (Waiter w') ∧ steps_left w' = pred (steps_left w).
Proof.
  intros [Ht _ _ _ _] [Hf Hn] Hi. pose proof (Forall_lookup_1 _ _ _ _ Ht Hi) as Hok.
  pose proof (lookup_lt_Some _ _ _ Hi) as Hl. unfold step_thread. rewrite Hi.
  destruct w; cbn in *; unfold is_cancelled; rewrite ?Hf; rewrite ?decide_True by lia; cbn;
    rewrite ?list_lookup_insert_eq by done; eauto.
Qed.
Lemma other_step i j w s :
  i ≠ j → ts_threads s !! i = Some (Waiter w) → ts_threads (step_thread j s) !! i = Some (Waiter w).
Proof.
  intros Hne Hi. unfold step_thread. repeat case_match; cbn; try done; by rewrite list_lookup_insert_ne.
Qed.

Lemma waiter_returns i schedule w s :
  token_ok s → settled s → ts_threads s !! i = Some (Waiter w) →
  steps_left w ≤ length (filter (i =.) schedule) →
  ts_threads (run_schedule schedule s) !! i = Some (Waiter WaitReturned).
Proof.
  revert w s. induction schedule as [|j schedule IH]; intros w s Hok Hs Hi.
  { intros Hl. destruct w; cbn in Hl; [lia..|done]. }
  change (run_schedule (j :: schedule) s) with (run_schedule schedule (step_thread j s)).
  pose proof (step_thread_ok j s Hok). pose proof (step_settled j s Hs).
  rewrite filter_cons. case_decide as Hj; [subst j|].
  - destruct (own_step i w s Hok Hs Hi) as (w' & Hi' & Hw). cbn [length]. intros Hl.
    apply (IH w'); [done..|]. lia.
  - intros Hl. apply (IH w); [done..| |done]. by apply other_step.
Qed.

(** C28. A cancellation is never missed: after any interleaving of calls on the clones of
    a token, once [cancel] is done every call of [cancelled], wherever it stood, returns
    within three of its own steps, whatever the other threads do in between; and no
    call of [cancelled] has returned before the token was cancelled. *)
Theorem cancellation_is_never_missed s schedule i w :
  token_reachable s → cancel_completed s → ts_threads s !! i = Some (Waiter w) →
  3 ≤ length (filter (i =.) schedule) →
  ts_threads (run_schedule schedule s) !! i = Some (Waiter WaitReturned) ∧
  ∀ s', token_reachable s' → Waiter WaitReturned ∈ ts_threads s' →
    is_cancelled (ts_token s') = true ∧
    (Canceller CancelNotify ∈ ts_threads s' ∨ Canceller CancelDone ∈ ts_threads s').
Proof.
  intros Hr Hc Hi Hl. split.
  - apply reachable_token_ok in Hr. eapply waiter_returns; [done|by apply completed_settled|done|].
    etrans; [|exact Hl]. destruct w; cbn; lia.
  - intros s' Hs'%reachable_token_ok [j Hj]%list_elem_of_lookup. destruct Hs' as [Ht _ _ _ Hcause].
    pose proof (Forall_lookup_1 _ _ _ _ Ht Hj) as Hflag. split; [done|].
    destruct (Hcause Hflag) as (k & c & Hk & Hck). destruct c; [done|left|right];
      apply list_elem_of_lookup; eauto.
Qed.

(** Two waiters, of which one waits when the token is cancelled and one comes later. *)
Definition example_threads : list thread := [Waiter WaitLoop; Canceller CancelSwap; Waiter WaitLoop].
Definition example_waiting : token_state :=
  run_schedule [0; 0; 1; 1] {| ts_token := CancellationToken_new; ts_threads := example_threads |}.

Lemma cancellation_is_never_missed_witness :
  ts_threads example_waiting !! 0 = Some (Waiter (WaitAwaiting 0)) ∧
  ts_threads (run_schedule [2; 0; 2; 0; 0] example_waiting) !! 0 = Some (Waiter WaitReturned).
Proof.
  split; [reflexivity|].
  apply (cancellation_is_never_missed example_waiting [2; 0; 2; 0; 0] 0 (WaitAwaiting 0)).
  - exists example_threads, [0; 0; 1; 1]. split; [|reflexivity].
    unfold starts. repeat apply Forall_cons_2; auto.
  - split; [right; left|]. intros [[|[|[|k]]] Hk]%list_elem_of_lookup; discriminate Hk.
  - reflexivity.
  - vm_compute. lia.
Defined.
