(* ===== verification/Text.v ===== *)
(** Rust's [String]/[&str] and [u8] predicates as the sources use them.

    A Rust string is a sequence of bytes that is valid UTF-8, so the model is
    [string] (a sequence of bytes); [str_chars] cuts it into the UTF-8
    encodings of its characters the way [str::chars] iterates, and the
    character-level operations ([chars().count()], [trim().is_empty()],
    [chars().take(n)]) go through it. Byte-level operations ([len],
    [as_bytes], [bytes().all(..)], [contains('\0')]) work on the bytes. *)
From S2P Require Import Prelude.
From Stdlib Require Import Ascii.
Export Ascii.AsciiSyntax.
From Stdlib Require String.
#[local] Arguments String.append : simpl nomatch.


(** ** Bytes *)

Definition byte_of (c : ascii) : Z := Z.of_N (N_of_ascii c).

Definition byte_in (lo hi : Z) (c : ascii) : bool :=
  (lo <=? byte_of c) && (byte_of c <=? hi).

(** [u8::is_ascii_lowercase], [u8::is_ascii_digit] and the like. *)
Definition is_ascii_lowercase (c : ascii) : bool := byte_in 97 122 c.
Definition is_ascii_uppercase (c : ascii) : bool := byte_in 65 90 c.
Definition is_ascii_digit (c : ascii) : bool := byte_in 48 57 c.
Definition is_ascii_alphabetic (c : ascii) : bool :=
  is_ascii_lowercase c || is_ascii_uppercase c.
Definition is_ascii_alphanumeric (c : ascii) : bool :=
  is_ascii_alphabetic c || is_ascii_digit c.
Definition is_ascii_hexdigit (c : ascii) : bool :=
  is_ascii_digit c || byte_in 97 102 c || byte_in 65 70 c.

(** [*byte == b'x'] and [matches!(byte, b'x' | ...)]. *)
Definition byte_is (b c : ascii) : bool := Ascii.eqb b c.
Arguments byte_is b%_char c.
Definition byte_among (bs : string) (c : ascii) : bool :=
  existsb (Ascii.eqb c) (String.list_ascii_of_string bs).

Definition bytes_all (p : ascii → bool) (s : string) : bool :=
  forallb p (String.list_ascii_of_string s).

(** [str::len], in bytes. *)
Definition str_len (s : string) : Z := Z.of_nat (String.length s).
Definition str_is_empty (s : string) : bool :=
  match s with EmptyString => true | _ => false end.

(** [value.contains('\0')]: in UTF-8 the byte 0 occurs only as U+0000. *)
Definition str_contains_nul (s : string) : bool :=
  existsb (Ascii.eqb Ascii.zero) (String.list_ascii_of_string s).

Definition str_first_byte (s : string) : option ascii := head (String.list_ascii_of_string s).
Definition str_last_byte (s : string) : option ascii := last (String.list_ascii_of_string s).

(** ** Characters *)

(** How many bytes follow the first byte of a UTF-8 encoded character. *)
Definition utf8_extra (c : ascii) : nat :=
  if byte_of c <? 192 then 0%nat
  else if byte_of c <? 224 then 1%nat
  else if byte_of c <? 240 then 2%nat else 3%nat.

(** [take_bytes n s] splits off (at most) [n] bytes. *)
Fixpoint take_bytes (n : nat) (s : string) : string * string :=
  match n, s with
  | S n', String c s' => let '(a, b) := take_bytes n' s' in (String c a, b)
  | _, _ => (EmptyString, s)
  end.

(** The UTF-8 encodings of the characters of [s], in order. The fuel is the
    byte length, and each character has at least one byte. *)
Fixpoint str_chars_fuel (fuel : nat) (s : string) : list string :=
  match fuel, s with
  | S fuel', String c s' =>
      let '(a, b) := take_bytes (utf8_extra c) s' in
      String c a :: str_chars_fuel fuel' b
  | _, _ => []
  end.
Definition str_chars (s : string) : list string := str_chars_fuel (String.length s) s.

(** [value.chars().count()]. *)
Definition str_char_count (s : string) : Z := Z.of_nat (length (str_chars s)).

(** The code point of one encoded character. *)
Definition char_code (ch : string) : Z :=
  match String.list_ascii_of_string ch with
  | [] => 0
  | c :: rest =>
      let lead := match length rest with
                  | 0%nat => byte_of c
                  | 1%nat => Z.land (byte_of c) 31
                  | 2%nat => Z.land (byte_of c) 15
                  | _ => Z.land (byte_of c) 7
                  end in
      fold_left (λ acc b, Z.lor (Z.shiftl acc 6) (Z.land (byte_of b) 63)) rest lead
  end.

(** [char::is_whitespace]: the Unicode [White_Space] property. *)
Definition char_is_whitespace (ch : string) : bool :=
  let n := char_code ch in
  ((9 <=? n) && (n <=? 13)) || (n =? 32) || (n =? 133) || (n =? 160)
  || (n =? 5760) || ((8192 <=? n) && (n <=? 8202)) || (n =? 8232) || (n =? 8233)
  || (n =? 8239) || (n =? 8287) || (n =? 12288).

(** [value.trim().is_empty()]: every character is white space. *)
Definition str_is_blank (s : string) : bool := forallb char_is_whitespace (str_chars s).

(** [value.chars().take(n).collect::<String>()]. *)
Definition str_take_chars (n : nat) (s : string) : string :=
  fold_right String.append EmptyString (take n (str_chars s)).

(** [value.trim()]. *)
Fixpoint drop_whitespace (chars : list string) : list string :=
  match chars with
  | c :: rest => if char_is_whitespace c then drop_whitespace rest else chars
  | [] => []
  end.
Definition str_trim (s : string) : string :=
  fold_right String.append EmptyString
    (rev (drop_whitespace (rev (drop_whitespace (str_chars s))))).

(** [value.trim_start()]. *)
Definition str_trim_start (s : string) : string :=
  fold_right String.append EmptyString (drop_whitespace (str_chars s)).

(** [value.split_whitespace()]: the word so far, and the words after it. *)
Fixpoint words_of (chars : list string) (word : string) : list string :=
  match chars with
  | [] => match word with EmptyString => [] | _ => [word] end
  | c :: rest =>
      if char_is_whitespace c
      then match word with EmptyString => words_of rest EmptyString | _ => word :: words_of rest EmptyString end
      else words_of rest (String.append word c)
  end.
Definition str_split_whitespace (s : string) : list string := words_of (str_chars s) EmptyString.

(** [value.to_ascii_lowercase()] and [a.eq_ignore_ascii_case(b)]. *)
Definition ascii_lowercase (c : Ascii.ascii) : Ascii.ascii :=
  if is_ascii_uppercase c then Ascii.ascii_of_N (Z.to_N (byte_of c + 32)) else c.
Fixpoint to_ascii_lowercase (s : string) : string :=
  match s with
  | EmptyString => EmptyString
  | String c s => String (ascii_lowercase c) (to_ascii_lowercase s)
  end.
Definition eq_ignore_ascii_case (a b : string) : bool :=
  String.eqb (to_ascii_lowercase a) (to_ascii_lowercase b).

(** [str::from_utf8] succeeds: well-formed UTF-8 (Unicode, table 3-7). *)
Definition utf8_tail (low high : Z) (c : Ascii.ascii) : bool :=
  (low <=? byte_of c) && (byte_of c <=? high).
Fixpoint utf8_valid (s : string) : bool :=
  match s with
  | EmptyString => true
  | String c rest =>
      let b := byte_of c in
      if b <? 128 then utf8_valid rest
      else if (194 <=? b) && (b <=? 223) then
        match rest with
        | String c1 rest => utf8_tail 128 191 c1 && utf8_valid rest
        | _ => false
        end
      else if (224 <=? b) && (b <=? 239) then
        match rest with
        | String c1 (String c2 rest) =>
            utf8_tail (if b =? 224 then 160 else 128) (if b =? 237 then 159 else 191) c1
            && utf8_tail 128 191 c2 && utf8_valid rest
        | _ => false
        end
      else if (240 <=? b) && (b <=? 244) then
        match rest with
        | String c1 (String c2 (String c3 rest)) =>
            utf8_tail (if b =? 240 then 144 else 128) (if b =? 244 then 143 else 191) c1
            && utf8_tail 128 191 c2 && utf8_tail 128 191 c3 && utf8_valid rest
        | _ => false
        end
      else false
  end.

(** ** Decimal numbers *)

(** [u64]'s [Display]: at most 20 decimal digits, the last one first. *)
Definition digit_char (d : Z) : Ascii.ascii := Ascii.ascii_of_N (Z.to_N (48 + d)).
Fixpoint decimal (fuel : nat) (n : Z) (rest : string) : string :=
  match fuel with
  | 0%nat => rest
  | S fuel' =>
      let rest := String (digit_char (n mod 10)) rest in
      if n <? 10 then rest else decimal fuel' (n / 10) rest
  end.
Definition u64_to_string (n : Z) : string := decimal 20 n EmptyString.

(** [str::parse::<u64>]: decimal digits, optionally after a plus sign. *)
Fixpoint parse_digits (acc : Z) (s : list Ascii.ascii) : option Z :=
  match s with
  | [] => Some acc
  | c :: s' =>
      if is_ascii_digit c then
        let acc := acc * 10 + (byte_of c - 48) in
        if acc <=? u64_max then parse_digits acc s' else None
      else None
  end.
Definition parse_u64 (s : string) : option Z :=
  match String.list_ascii_of_string s with
  | [] => None
  | c :: rest =>
      if byte_is "+" c then
        match rest with [] => None | _ => parse_digits 0 rest end
      else parse_digits 0 (c :: rest)
  end.

(** ** Facts *)

Lemma string_app_assoc (a b c : string) : String.append a (String.append b c) = String.append (String.append a b) c.
Proof. induction a; cbn; congruence. Qed.

Lemma take_bytes_app n s a b : take_bytes n s = (a, b) → String.append a b = s.
Proof.
  revert s a b. induction n as [|n IH]; intros [|c s] a b; cbn; try (intros [= <- <-]; done).
  destruct (take_bytes n s) as [a' b'] eqn:E. intros [= <- <-]. cbn. f_equal. eauto.
Qed.

Lemma take_bytes_length n s a b :
  take_bytes n s = (a, b) → (String.length b ≤ String.length s)%nat.
Proof.
  revert s a b. induction n as [|n IH]; intros [|c s] a b; cbn; try (intros [= <- <-]; cbn; lia).
  destruct (take_bytes n s) as [a' b'] eqn:E. intros [= <- <-]. apply IH in E. lia.
Qed.

Lemma str_chars_fuel_mono n m s :
  (String.length s ≤ n)%nat → (String.length s ≤ m)%nat →
  str_chars_fuel n s = str_chars_fuel m s.
Proof.
  revert m s. induction n as [|n IH]; intros [|m] [|c s]; cbn; try lia; try done.
  intros Hn Hm. destruct (take_bytes _ s) as [a b] eqn:E.
  apply take_bytes_length in E. f_equal. apply IH; lia.
Qed.

Lemma str_chars_cons c s :
  str_chars (String c s) =
  let '(a, b) := take_bytes (utf8_extra c) s in String c a :: str_chars b.
Proof.
  unfold str_chars at 1. cbn. destruct (take_bytes _ s) as [a b] eqn:E.
  apply take_bytes_length in E. f_equal. apply str_chars_fuel_mono; lia.
Qed.

(** Induction on the characters of a string. *)
Lemma str_chars_ind (P : string → Prop) :
  P EmptyString →
  (∀ c s a b, take_bytes (utf8_extra c) s = (a, b) → P b → P (String c s)) →
  ∀ s, P s.
Proof.
  intros H0 HS s. remember (String.length s) as n eqn:Hn.
  assert (Hle : (String.length s ≤ n)%nat) by lia. clear Hn. revert s Hle.
  induction n as [|n IH]; intros [|c s]; cbn; intros Hle; try lia; try done.
  destruct (take_bytes (utf8_extra c) s) as [a b] eqn:E.
  eapply HS; [done|]. apply IH. apply take_bytes_length in E. lia.
Qed.

(** Cutting a string into characters loses nothing. *)
Lemma str_chars_concat s : fold_right String.append EmptyString (str_chars s) = s.
Proof.
  induction s as [|c s a b E IH] using str_chars_ind; [done|].
  rewrite str_chars_cons, E. cbn. rewrite IH. f_equal. by eapply take_bytes_app.
Qed.

Lemma take_bytes_fits n s a b :
  take_bytes n s = (a, b) → b = EmptyString ∨ String.length a = n.
Proof.
  revert s a b. induction n as [|n IH]; intros [|c s] a b; cbn; try (intros [= <- <-]; auto).
  destruct (take_bytes n s) as [a' b'] eqn:E. intros [= <- <-].
  destruct (IH _ _ _ E) as [?|<-]; auto.
Qed.

Lemma take_bytes_exact n a b : String.length a = n → take_bytes n (String.append a b) = (a, b).
Proof.
  revert a. induction n as [|n IH]; intros [|c a]; cbn; try done.
  intros [= H]. by rewrite (IH a).
Qed.

Lemma take_bytes_short n a : (String.length a ≤ n)%nat → take_bytes n a = (a, EmptyString).
Proof.
  revert a. induction n as [|n IH]; intros [|c a]; cbn; try done; try lia.
  intros ?. rewrite IH by lia. done.
Qed.

Lemma string_app_nil_r a : String.append a EmptyString = a.
Proof. induction a; cbn; congruence. Qed.

Lemma take_bytes_le n s a b : take_bytes n s = (a, b) → (String.length a ≤ n)%nat.
Proof.
  revert s a b. induction n as [|n IH]; intros [|c s] a b; cbn; try (intros [= <- <-]; cbn; lia).
  destruct (take_bytes n s) as [a' b'] eqn:E. intros [= <- <-]. apply IH in E. cbn. lia.
Qed.

(** A prefix of the characters is itself cut into exactly those characters. *)
Lemma str_chars_take n s : str_chars (str_take_chars n s) = take n (str_chars s).
Proof.
  unfold str_take_chars. revert n.
  induction s as [|c s a b E IH] using str_chars_ind; intros n; [by destruct n|].
  rewrite str_chars_cons, E. destruct n as [|n]; [done|]. cbn [take fold_right].
  change (String.append (String c a) ?r) with (String c (String.append a r)).
  rewrite str_chars_cons.
  destruct (take_bytes_fits _ _ _ _ E) as [->|Hlen].
  - replace (take n (str_chars "")) with (@nil string) by by destruct n. cbn.
    rewrite string_app_nil_r, take_bytes_short by eauto using take_bytes_le.
    done.
  - rewrite take_bytes_exact by done. f_equal. apply IH.
Qed.

(** Truncation to [n] characters leaves at most [n] of them. *)
Lemma str_take_chars_count n s : str_char_count (str_take_chars n s) ≤ Z.of_nat n.
Proof. unfold str_char_count. rewrite str_chars_take, length_take. lia. Qed.

Lemma str_take_chars_id n s :
  str_char_count s ≤ Z.of_nat n → str_take_chars n s = s.
Proof.
  unfold str_char_count, str_take_chars. intros H.
  rewrite take_ge by lia. apply str_chars_concat.
Qed.

Lemma str_contains_nul_app a b :
  str_contains_nul (String.append a b) = str_contains_nul a || str_contains_nul b.
Proof.
  unfold str_contains_nul. induction a as [|c a IH]; cbn; [done|].
  by rewrite IH, orb_assoc.
Qed.

Lemma str_take_chars_prefix n s : ∃ t, String.append (str_take_chars n s) t = s.
Proof.
  exists (fold_right String.append EmptyString (drop n (str_chars s))).
  rewrite <- (str_chars_concat s) at 3. unfold str_take_chars.
  generalize (str_chars s). intros l. revert n. induction l as [|x l IH]; intros [|n]; cbn; try done.
  by rewrite <- string_app_assoc, IH.
Qed.

Lemma str_take_chars_nul n s :
  str_contains_nul s = false → str_contains_nul (str_take_chars n s) = false.
Proof.
  destruct (str_take_chars_prefix n s) as [t Ht]. rewrite <- Ht at 1.
  rewrite str_contains_nul_app. intros H. by apply orb_false_iff in H as [? _].
Qed.

Lemma str_is_blank_empty : str_is_blank EmptyString = true.
Proof. done. Qed.

Lemma str_not_blank_nonempty s : str_is_blank s = false → s ≠ EmptyString.
Proof. by intros H ->. Qed.

#[export] Hint Resolve str_take_chars_count str_take_chars_nul : mcserver.
