(* ===== verification/Net.v ===== *)
(** Socket addresses, as the standard library of Rust parses them
    ([SocketAddr::from_str], [IpAddr::from_str]), and the pieces of text the
    configuration cuts ([str::split], [split_once], [rsplit_once]). *)
From S2P Require Import Prelude Text.
From Stdlib Require Import Ascii.
#[local] Open Scope string_scope.
#[local] Open Scope Z_scope.

Inductive IpAddr :=
| V4 (a b c d : Z)
| V6 (segments : list Z).
Record SocketAddr := { sa_ip : IpAddr; sa_port : Z }.

Definition is_loopback (ip : IpAddr) : bool :=
  match ip with
  | V4 a _ _ _ => a =? 127
  | V6 segments => bool_decide (segments = [0; 0; 0; 0; 0; 0; 0; 1])
  end.

(** ** The parser

    A parser takes the bytes that are left and gives its value with what follows;
    [None] leaves the input as it was. *)

Abbreviation parser A := (list Ascii.ascii → option (A * list Ascii.ascii)).

Definition read_given_char (c : Ascii.ascii) : parser unit := λ s,
  match s with
  | d :: s' => if byte_is c d then Some (tt, s') else None
  | [] => None
  end.

(** [char::to_digit]. *)
Definition to_digit (radix : Z) (c : Ascii.ascii) : option Z :=
  let value :=
    if is_ascii_digit c then Some (byte_of c - 48)
    else if is_ascii_lowercase c then Some (byte_of c - 87)
    else if is_ascii_uppercase c then Some (byte_of c - 55)
    else None in
  v ← value; if v <? radix then Some v else None.

(** The digits at the start: their value and number. *)
Fixpoint read_digits (radix : Z) (value : Z) (count : nat) (s : list Ascii.ascii) :
    Z * nat * list Ascii.ascii :=
  match s with
  | [] => (value, count, [])
  | c :: s' =>
      match to_digit radix c with
      | Some d => read_digits radix (value * radix + d) (S count) s'
      | None => (value, count, s)
      end
  end.

(** [read_number]: at most [max_digits] digits, and a value of at most
    [maximum]. *)
Definition read_number (radix : Z) (max_digits : option nat) (allow_zero_prefix : bool)
    (maximum : Z) : parser Z := λ s,
  let '(value, count, rest) := read_digits radix 0 0 s in
  if from_option (λ limit, limit <? count)%nat false max_digits then None
  else if (count =? 0)%nat then None
  else if negb allow_zero_prefix && from_option (byte_is "0") false (head s) && (1 <? count)%nat then None
  else if value <=? maximum then Some (value, rest) else None.

(** [read_separator]: the separator comes before all but the first. *)
Definition read_separator {A} (sep : Ascii.ascii) (index : nat) (inner : parser A) : parser A := λ s,
  if (0 <? index)%nat then '(_, s') ← read_given_char sep s; inner s' else inner s.

Definition read_ipv4_addr : parser (Z * Z * Z * Z) := λ s,
  '(a, s) ← read_number 10 (Some 3%nat) false 255 s;
  '(b, s) ← read_separator "." 1 (read_number 10 (Some 3%nat) false 255) s;
  '(c, s) ← read_separator "." 2 (read_number 10 (Some 3%nat) false 255) s;
  '(d, s) ← read_separator "." 3 (read_number 10 (Some 3%nat) false 255) s;
  Some ((a, b, c, d), s).

(** [read_groups]: the groups read, whether an embedded IPv4 address ended them,
    and what follows. [left] counts the groups that may still come. *)
Fixpoint read_groups (left index : nat) (groups : list Z) (s : list Ascii.ascii) :
    list Z * bool * list Ascii.ascii :=
  match left with
  | 0%nat => (groups, false, s)
  | S left' =>
      let ipv4 := if (0 <? left')%nat then read_separator ":" index read_ipv4_addr s else None in
      match ipv4 with
      | Some ((a, b, c, d), s') => ((groups ++ [a * 256 + b; c * 256 + d])%list, true, s')
      | None =>
          match read_separator ":" index (read_number 16 (Some 4%nat) true 65535) s with
          | Some (g, s') => read_groups left' (S index) (groups ++ [g])%list s'
          | None => (groups, false, s)
          end
      end
  end.

Definition read_ipv6_addr : parser (list Z) := λ s,
  let '(head, head_ipv4, s) := read_groups 8 0 [] s in
  if (length head =? 8)%nat then Some (head, s)
  else if head_ipv4 then None
  else
    '(_, s) ← read_given_char ":" s;
    '(_, s) ← read_given_char ":" s;
    let '(tail, _, s) := read_groups (8 - (length head + 1)) 0 [] s in
    Some ((head ++ repeat 0 (8 - length head - length tail) ++ tail)%list, s).

Definition read_port : parser Z := λ s,
  '(_, s) ← read_given_char ":" s; read_number 10 None true u16_max s.

Definition read_scope_id : parser Z := λ s,
  '(_, s) ← read_given_char "%" s; read_number 10 None true u32_max s.

Definition read_socket_addr_v4 : parser SocketAddr := λ s,
  '((a, b, c, d), s) ← read_ipv4_addr s;
  '(port, s) ← read_port s;
  Some ({| sa_ip := V4 a b c d; sa_port := port |}, s).

Definition read_socket_addr_v6 : parser SocketAddr := λ s,
  '(_, s) ← read_given_char "[" s;
  '(ip, s) ← read_ipv6_addr s;
  let s := match read_scope_id s with Some (_, s') => s' | None => s end in
  '(_, s) ← read_given_char "]" s;
  '(port, s) ← read_port s;
  Some ({| sa_ip := V6 ip; sa_port := port |}, s).

Definition or_else {A} (p q : parser A) : parser A := λ s,
  match p s with Some r => Some r | None => q s end.
Definition parse_with {A} (p : parser A) (s : string) : option A :=
  match p (String.list_ascii_of_string s) with
  | Some (a, []) => Some a
  | _ => None
  end.

Definition parse_socket_addr : string → option SocketAddr :=
  parse_with (or_else read_socket_addr_v4 read_socket_addr_v6).
Definition parse_ip_addr : string → option IpAddr :=
  parse_with (or_else (λ s, '((a, b, c, d), s) ← read_ipv4_addr s; Some (V4 a b c d, s))
    (λ s, '(ip, s) ← read_ipv6_addr s; Some (V6 ip, s))).

(** ** Cutting text *)

(** [value.split(c)]. *)
Fixpoint split_on (c : Ascii.ascii) (s : list Ascii.ascii) (piece : list Ascii.ascii) : list string :=
  match s with
  | [] => [String.string_of_list_ascii (rev piece)]
  | d :: s' =>
      if byte_is c d then String.string_of_list_ascii (rev piece) :: split_on c s' []
      else split_on c s' (d :: piece)
  end.
Definition str_split (c : Ascii.ascii) (s : string) : list string :=
  split_on c (String.list_ascii_of_string s) [].

(** [value.starts_with(prefix)], with what follows it. *)
Fixpoint strip_prefix (prefix s : string) : option string :=
  match prefix, s with
  | EmptyString, _ => Some s
  | String c prefix, String d s => if byte_is c d then strip_prefix prefix s else None
  | _, EmptyString => None
  end.
Definition starts_with (prefix s : string) : bool := is_some (strip_prefix prefix s).

(** [value.split_once(pattern)]. *)
Fixpoint split_once (pattern s : string) : option (string * string) :=
  match strip_prefix pattern s with
  | Some rest => Some (EmptyString, rest)
  | None =>
      match s with
      | EmptyString => None
      | String c s => '(before, after) ← split_once pattern s; Some (String c before, after)
      end
  end.

(** [value.rsplit_once(c)]. *)
Fixpoint rsplit_once (c : Ascii.ascii) (s : string) : option (string * string) :=
  match s with
  | EmptyString => None
  | String d s =>
      match rsplit_once c s with
      | Some (before, after) => Some (String d before, after)
      | None => if byte_is c d then Some (EmptyString, s) else None
      end
  end.

(** [value.contains(pattern)]. *)
Definition str_contains (pattern s : string) : bool := is_some (split_once pattern s).

(** [value.trim_end_matches(..)] and [trim_start_matches(..)] with bytes. *)
Definition trim_end_matches (p : Ascii.ascii → bool) (s : string) : string :=
  let fix drop s := match s with c :: s' => if p c then drop s' else s | [] => [] end in
  String.string_of_list_ascii (rev (drop (rev (String.list_ascii_of_string s)))).
Fixpoint trim_start_matches (p : Ascii.ascii → bool) (s : string) : string :=
  match s with
  | String c s' => if p c then trim_start_matches p s' else s
  | EmptyString => EmptyString
  end.

(** [value.trim_start_matches(pattern)] with a text, which is taken off as often as
    it is there. *)
Fixpoint trim_start_text_fuel (fuel : nat) (pattern s : string) : string :=
  match fuel, strip_prefix pattern s with
  | S fuel, Some rest => trim_start_text_fuel fuel pattern rest
  | _, _ => s
  end.
Definition trim_start_text (pattern s : string) : string :=
  trim_start_text_fuel (String.length s) pattern s.

(** [value.split(..).next()] with bytes: what is before the first of them. *)
Fixpoint take_until (p : Ascii.ascii → bool) (s : string) : string :=
  match s with
  | String c s => if p c then EmptyString else String c (take_until p s)
  | EmptyString => EmptyString
  end.

(** [text.lines()]: an empty last line is none, and a carriage return before a
    newline is dropped. *)
Definition strip_carriage_return (line : string) : string :=
  match String.list_ascii_of_string line with
  | [] => line
  | cs => if from_option (byte_is (Ascii.ascii_of_nat 13)) false (last cs)
          then String.string_of_list_ascii (removelast cs) else line
  end.
Fixpoint ended_lines (pieces : list string) : list string :=
  match pieces with
  | [] => []
  | [piece] => if str_is_empty piece then [] else [piece]
  | piece :: pieces => strip_carriage_return piece :: ended_lines pieces
  end.
Definition str_lines (text : string) : list string :=
  ended_lines (str_split (Ascii.ascii_of_nat 10) text).

(** [str::parse::<u16>] and [usize], and [u32::from_str_radix(_, 8)]. *)
Definition parse_u16 (s : string) : option Z :=
  v ← parse_u64 s; if v <=? u16_max then Some v else None.
Fixpoint parse_octal_digits (acc : Z) (s : list Ascii.ascii) : option Z :=
  match s with
  | [] => Some acc
  | c :: s' =>
      d ← to_digit 8 c;
      let acc := acc * 8 + d in
      if acc <=? u32_max then parse_octal_digits acc s' else None
  end.
Definition parse_octal_u32 (s : string) : option Z :=
  match String.list_ascii_of_string s with
  | [] => None
  | c :: rest =>
      if byte_is "+" c then match rest with [] => None | _ => parse_octal_digits 0 rest end
      else parse_octal_digits 0 (c :: rest)
  end.

(** ** Examples *)

Example parses_loopback :
  parse_socket_addr "127.0.0.1:39001" = Some {| sa_ip := V4 127 0 0 1; sa_port := 39001 |}.
Proof. by vm_compute. Qed.
Example parses_v6 :
  parse_socket_addr "[::1]:80" = Some {| sa_ip := V6 [0; 0; 0; 0; 0; 0; 0; 1]; sa_port := 80 |}
  ∧ parse_ip_addr "::ffff:1.2.3.4" = Some (V6 [0; 0; 0; 0; 0; 65535; 258; 772])
  ∧ parse_ip_addr "1:2:3:4:5:6:7:8" = Some (V6 [1; 2; 3; 4; 5; 6; 7; 8]).
Proof. by vm_compute. Qed.
Example rejects_malformed :
  parse_socket_addr "127.0.0.01:1" = None ∧ parse_socket_addr "1.2.3.4:65536" = None
  ∧ parse_ip_addr "1:2:3:4:5:6:7::8" = None ∧ parse_ip_addr "1.2.3.4::" = None
  ∧ parse_ip_addr "1:2:3:4:5:6:7::" = Some (V6 [1; 2; 3; 4; 5; 6; 7; 0]).
Proof. by vm_compute. Qed.
Example cuts :
  split_once "://" "https://a/b" = Some ("https", "a/b") ∧ rsplit_once ":" "a:b:1" = Some ("a:b", "1")
  ∧ str_split "," "a,,b" = ["a"; EmptyString; "b"] ∧ str_contains ".." "a.b" = false
  ∧ trim_end_matches (byte_is "/") "x//" = "x".
Proof. by vm_compute. Qed.
Example cuts_lines :
  str_lines ("a" ++ String (Ascii.ascii_of_nat 13) (String (Ascii.ascii_of_nat 10) "b"))
    = ["a"; "b"] ∧ str_lines EmptyString = [] ∧ trim_start_text "0o" "0o0o7" = "7".
Proof. by vm_compute. Qed.
