(* ===== verification/NetFacts.v ===== *)
(** Facts about cutting text: splitting, prefixes and what a byte ends. *)
From S2P Require Import Prelude Text Net.
From Stdlib Require Import Ascii.
#[local] Open Scope string_scope.

Lemma byte_is_spec (a b : ascii) : reflect (a = b) (byte_is a b).
Proof. apply Ascii.eqb_spec. Qed.
Lemma byte_is_refl (a : ascii) : byte_is a a = true.
Proof. apply Ascii.eqb_refl. Qed.

Lemma string_app_cons c a b : String c a ++ b = String c (a ++ b).
Proof. reflexivity. Qed.
Lemma string_app_nil a : EmptyString ++ a = a.
Proof. reflexivity. Qed.
#[local] Hint Rewrite string_app_cons string_app_nil : text.
#[local] Ltac text := autorewrite with text; cbn.

(** The byte [c] is not in [s]. *)
Definition lacks (c : ascii) (s : string) : Prop := bytes_all (λ d, negb (byte_is c d)) s = true.

Lemma lacks_cons c d s : lacks c (String d s) ↔ c ≠ d ∧ lacks c s.
Proof.
  unfold lacks, bytes_all. cbn. rewrite andb_true_iff, negb_true_iff.
  destruct (byte_is_spec c d); naive_solver.
Qed.
Lemma bytes_all_app p a b : bytes_all p (a ++ b) = bytes_all p a && bytes_all p b.
Proof.
  induction a as [|c a IH]; [done|]. rewrite string_app_cons.
  unfold bytes_all in *. cbn [String.list_ascii_of_string forallb]. by rewrite IH, andb_assoc.
Qed.
Lemma bytes_all_impl (p q : ascii → bool) s :
  (∀ c, p c = true → q c = true) → bytes_all p s = true → bytes_all q s = true.
Proof.
  intros Hpq. unfold bytes_all. rewrite !forallb_forall. auto.
Qed.
Lemma lacks_app c a b : lacks c (a ++ b) ↔ lacks c a ∧ lacks c b.
Proof. unfold lacks. by rewrite bytes_all_app, andb_true_iff. Qed.

Lemma strip_prefix_app p s : strip_prefix p (p ++ s) = Some s.
Proof. induction p as [|c p IH]; [by destruct s|]. text. by rewrite byte_is_refl. Qed.
Lemma strip_prefix_Some p s r : strip_prefix p s = Some r ↔ s = p ++ r.
Proof.
  split; [|intros ->; apply strip_prefix_app].
  revert s. induction p as [|c p IH]; intros s; [by destruct s; intros [= <-]|].
  destruct s as [|d s]; [done|]. cbn. destruct (byte_is_spec c d) as [<-|]; [|done].
  intros ->%IH. done.
Qed.
Lemma starts_with_spec p s : starts_with p s = true ↔ ∃ r, s = p ++ r.
Proof.
  unfold starts_with. setoid_rewrite <- strip_prefix_Some.
  destruct (strip_prefix p s); cbn; naive_solver.
Qed.

Lemma take_until_lacks c s r : lacks c s → take_until (byte_is c) (s ++ String c r) = s.
Proof.
  induction s as [|d s IH]; text; [by rewrite byte_is_refl|].
  rewrite lacks_cons. intros [Hd Hs]. destruct (byte_is_spec c d); [done|]. by rewrite IH.
Qed.

(** Two texts up to the same byte are the same when what follows is. *)
Lemma until_inj c a b x y :
  lacks c a → lacks c b → a ++ String c x = b ++ String c y → a = b.
Proof.
  intros Ha Hb Heq. rewrite <- (take_until_lacks c a x Ha), Heq. by apply take_until_lacks.
Qed.

Lemma split_on_app c a s piece :
  lacks c a →
  split_on c (String.list_ascii_of_string (a ++ String c s)) piece =
    String.string_of_list_ascii (rev piece ++ String.list_ascii_of_string a) :: str_split c s.
Proof.
  revert piece. induction a as [|d a IH]; intros piece; text.
  - intros _. by rewrite byte_is_refl, app_nil_r.
  - rewrite lacks_cons. intros [Hd Ha]. destruct (byte_is_spec c d); [done|].
    rewrite IH by done. cbn. by rewrite <- app_assoc.
Qed.
Lemma str_split_app c a s : lacks c a → str_split c (a ++ String c s) = a :: str_split c s.
Proof.
  intros Ha. unfold str_split at 1. rewrite split_on_app by done. cbn.
  by rewrite String.string_of_list_ascii_of_string.
Qed.
Lemma split_on_whole c a piece :
  lacks c a →
  split_on c (String.list_ascii_of_string a) piece =
    [String.string_of_list_ascii (rev piece ++ String.list_ascii_of_string a)].
Proof.
  revert piece. induction a as [|d a IH]; intros piece; cbn.
  - intros _. by rewrite app_nil_r.
  - rewrite lacks_cons. intros [Hd Ha]. destruct (byte_is_spec c d); [done|].
    rewrite IH by done. cbn. by rewrite <- app_assoc.
Qed.
Lemma str_split_whole c a : lacks c a → str_split c a = [a].
Proof.
  intros Ha. unfold str_split. rewrite split_on_whole by done. cbn.
  by rewrite String.string_of_list_ascii_of_string.
Qed.

Lemma str_contains_lacks c s : lacks c s → str_contains (String c EmptyString) s = false.
Proof.
  unfold str_contains. induction s as [|d s IH]; [done|]. rewrite lacks_cons. intros [Hd Hs].
  cbn. destruct (byte_is_spec c d); [done|]. specialize (IH Hs).
  by destruct (split_once (String c EmptyString) s) as [[??]|].
Qed.

Lemma str_last_byte_app a c : str_last_byte (a ++ String c EmptyString) = Some c.
Proof.
  unfold str_last_byte. induction a as [|d a IH]; [done|]. text.
  destruct (String.list_ascii_of_string (a ++ String c "")) eqn:E; [|by rewrite <- IH].
  by destruct a.
Qed.

(** ASCII texts have as many characters as bytes. *)
Definition is_ascii (c : ascii) : bool := (byte_of c <? 128)%Z.
Lemma ascii_utf8_extra c : is_ascii c = true → utf8_extra c = 0%nat.
Proof. destruct c as [[] [] [] [] [] [] [] []]; by vm_compute. Qed.
Lemma ascii_char_count s : bytes_all is_ascii s = true → str_char_count s = str_len s.
Proof.
  unfold str_char_count, str_len. intros Hs. f_equal. induction s as [|c s IH]; [done|].
  unfold bytes_all in Hs. cbn in Hs. apply andb_true_iff in Hs as [Hc Hs].
  rewrite str_chars_cons, ascii_utf8_extra by done. cbn. by rewrite IH.
Qed.

Lemma lacks_nul s : lacks Ascii.zero s → str_contains_nul s = false.
Proof.
  unfold str_contains_nul. induction s as [|c s IH]; [done|]. rewrite lacks_cons. intros [Hc Hs].
  cbn [String.list_ascii_of_string existsb]. rewrite IH by done.
  by destruct (Ascii.eqb_spec Ascii.zero c).
Qed.
Lemma str_len_app a b : str_len (a ++ b) = (str_len a + str_len b)%Z.
Proof. unfold str_len. induction a as [|c a IH]; [done|]. text. lia. Qed.
Lemma string_app_inj_r a b s : a ++ s = b ++ s → a = b.
Proof.
  intros He. assert (String.length a = String.length b) as Hl.
  { apply (f_equal str_len) in He. rewrite !str_len_app in He. unfold str_len in He. lia. }
  revert b Hl He. induction a as [|c a IH]; intros [|d b]; cbn; try done.
  intros [= Hl]. rewrite !string_app_cons. intros [= <- He]. by rewrite (IH b).
Qed.
Lemma string_app_inj_l s a b : s ++ a = s ++ b → a = b.
Proof. induction s as [|c s IH]; [done|]. rewrite !string_app_cons. intros [= He]. auto. Qed.

(** ** What a text is made of *)

(** Text that every program can take as it is. *)
Definition plain_byte (c : ascii) : bool := is_ascii_alphanumeric c || byte_among ".:[]%-_/+" c.

Lemma plain_bytes_lack c s : plain_byte c = false → bytes_all plain_byte s = true → lacks c s.
Proof.
  intros Hc. apply bytes_all_impl. intros d Hd. destruct (byte_is_spec c d) as [<-|]; [congruence|done].
Qed.
Lemma plain_bytes_ascii s : bytes_all plain_byte s = true → bytes_all is_ascii s = true.
Proof. apply bytes_all_impl. intros c. by destruct c as [[] [] [] [] [] [] [] []]. Qed.
Lemma ascii_utf8_valid s : bytes_all is_ascii s = true → utf8_valid s = true.
Proof.
  induction s as [|c s IH]; [done|]. unfold bytes_all. cbn [String.list_ascii_of_string forallb].
  intros [Hc Hs]%andb_true_iff. unfold is_ascii in Hc. cbn [utf8_valid]. rewrite Hc. by apply IH.
Qed.

(** A parser that takes only plain bytes. *)
Definition eats {A} (p : parser A) : Prop :=
  ∀ s a s', p s = Some (a, s') → ∃ t, s = (t ++ s')%list ∧ forallb plain_byte t = true.

Lemma forallb_app_true (p : ascii → bool) a b :
  forallb p a = true → forallb p b = true → forallb p (a ++ b) = true.
Proof. rewrite forallb_app. intros -> ->. done. Qed.

Lemma eats_char c : plain_byte c = true → eats (read_given_char c).
Proof.
  intros Hc s a s'. unfold read_given_char. destruct s as [|d s]; [done|].
  destruct (byte_is_spec c d) as [<-|]; [|done]. intros [= _ <-].
  exists [c]. cbn. by rewrite Hc.
Qed.
Lemma eats_bind {A B} (p : parser A) (f : A → parser B) :
  eats p → (∀ a, eats (f a)) → eats (λ s, '(a, s) ← p s; f a s).
Proof.
  intros Hp Hf s b s'. cbn. destruct (p s) as [[a s1]|] eqn:E; [|done]. cbn. intros Hb.
  apply Hp in E as (t1 & -> & H1). apply Hf in Hb as (t2 & -> & H2).
  exists (t1 ++ t2)%list. split; [by rewrite app_assoc|by apply forallb_app_true].
Qed.
Lemma eats_ret {A} (a : A) : eats (λ s, Some (a, s)).
Proof. intros s a' s' [= _ <-]. by exists []. Qed.
Lemma eats_or {A} (p q : parser A) : eats p → eats q → eats (or_else p q).
Proof.
  intros Hp Hq s a s'. unfold or_else. destruct (p s) as [r|] eqn:E; intros Heq; [injection Heq as ->|]; eauto.
Qed.
Lemma to_digit_plain radix c d : to_digit radix c = Some d → plain_byte c = true.
Proof.
  unfold to_digit, plain_byte, is_ascii_alphanumeric, is_ascii_alphabetic.
  destruct (is_ascii_digit c), (is_ascii_lowercase c), (is_ascii_uppercase c); cbn; done.
Qed.
Lemma read_digits_eats radix value count s v n rest :
  read_digits radix value count s = (v, n, rest) →
  ∃ t, s = (t ++ rest)%list ∧ forallb plain_byte t = true.
Proof.
  revert value count. induction s as [|c s IH]; intros value count; cbn; [intros [= _ _ <-]; by exists []|].
  destruct (to_digit radix c) as [d|] eqn:E; [|intros [= _ _ <-]; by exists []].
  intros (t & -> & Ht)%IH. exists (c :: t). cbn. by rewrite (to_digit_plain _ _ _ E).
Qed.
Lemma eats_number radix digits zero maximum : eats (read_number radix digits zero maximum).
Proof.
  intros s a s'. unfold read_number. destruct (read_digits radix 0 0 s) as [[v n] rest] eqn:E.
  repeat case_match; intros Heq; try done. injection Heq as _ <-. by eapply read_digits_eats.
Qed.
Lemma eats_separator {A} c n (p : parser A) : plain_byte c = true → eats p → eats (read_separator c n p).
Proof.
  intros Hc Hp s a s'. unfold read_separator. destruct (_ <? _)%nat; [|apply Hp].
  apply (eats_bind (read_given_char c) (λ _, p)); [by apply eats_char|done].
Qed.
Lemma eats_ipv4 : eats read_ipv4_addr.
Proof.
  unfold read_ipv4_addr.
  repeat (apply eats_bind; [apply eats_number || (apply eats_separator; [done|apply eats_number])|intros ?]).
  apply eats_ret.
Qed.
Lemma read_groups_eats left index groups s gs v4 rest :
  read_groups left index groups s = (gs, v4, rest) →
  ∃ t, s = (t ++ rest)%list ∧ forallb plain_byte t = true.
Proof.
  revert index groups s. induction left as [|left IH]; intros index groups s;
    cbn [read_groups].
  { intros [= _ _ <-]. by exists []. }
  destruct (if (0 <? left)%nat then _ else _) as [[[[[a b] c] d] s1]|] eqn:E.
  - intros [= _ _ <-]. destruct (0 <? left)%nat; [|done].
    by eapply (eats_separator ":" index read_ipv4_addr); [|apply eats_ipv4|].
  - destruct (read_separator ":" index (read_number 16 (Some 4%nat) true 65535) s) as [[g s1]|] eqn:E'.
    + intros Hg. apply IH in Hg as (t2 & -> & H2).
      apply eats_separator in E' as (t1 & -> & H1); [|done|apply eats_number].
      exists (t1 ++ t2)%list. split; [by rewrite app_assoc|by apply forallb_app_true].
    + intros Hg. injection Hg as _ _ <-. by exists [].
Qed.
Lemma eats_ipv6 : eats read_ipv6_addr.
Proof.
  intros s a s'. unfold read_ipv6_addr.
  destruct (read_groups 8 0 [] s) as [[head head_ipv4] s1] eqn:E.
  apply read_groups_eats in E as (t1 & -> & H1).
  destruct (length head =? 8)%nat; [intros [= _ <-]; eauto|]. destruct head_ipv4; [done|].
  intros Ht. assert (∃ t, s1 = (t ++ s')%list ∧ forallb plain_byte t = true) as (t2 & -> & H2).
  { revert Ht. generalize (8 - (length head + 1))%nat. intros left Ht.
    refine (eats_bind (read_given_char ":") (λ _ s, '(_, s) ← read_given_char ":" s;
      let '(tail, _, s) := read_groups left 0 [] s in
      Some ((head ++ repeat 0%Z (8 - length head - length tail) ++ tail)%list, s)) _ _ _ a _ Ht);
      [by apply eats_char|intros _].
    refine (eats_bind (read_given_char ":") (λ _ s, let '(tail, _, s) := read_groups left 0 [] s in
      Some ((head ++ repeat 0%Z (8 - length head - length tail) ++ tail)%list, s)) _ _);
      [by apply eats_char|intros _].
    intros s2 b s3. destruct (read_groups left 0 [] s2) as [[tail ?] s4] eqn:E.
    intros [= _ <-]. by eapply read_groups_eats. }
  exists (t1 ++ t2)%list. split; [by rewrite app_assoc|by apply forallb_app_true].
Qed.
Lemma eats_port : eats read_port.
Proof. apply (eats_bind (read_given_char ":")); [by apply eats_char|intros _; apply eats_number]. Qed.
Lemma eats_scope : eats read_scope_id.
Proof. apply (eats_bind (read_given_char "%")); [by apply eats_char|intros _; apply eats_number]. Qed.
Lemma eats_socket_addr : eats (or_else read_socket_addr_v4 read_socket_addr_v6).
Proof.
  apply eats_or.
  - apply eats_bind; [apply eats_ipv4|]. intros [[[a b] c] d].
    apply eats_bind; [apply eats_port|]. intros port. apply eats_ret.
  - apply (eats_bind (read_given_char "[")); [by apply eats_char|intros _].
    apply eats_bind; [apply eats_ipv6|]. intros ip.
    assert (eats (λ s, '(_, s) ← read_given_char "]" s; '(port, s) ← read_port s;
      Some ({| sa_ip := V6 ip; sa_port := port |}, s))) as He.
    { apply (eats_bind (read_given_char "]")); [by apply eats_char|intros _].
      apply eats_bind; [apply eats_port|]. intros port. apply eats_ret. }
    intros s a s' Hs. destruct (read_scope_id s) as [[scope s1]|] eqn:E; [|by apply (He s a s')].
    apply eats_scope in E as (t1 & -> & H1). apply (He s1 a s') in Hs as (t2 & -> & H2).
    exists (t1 ++ t2)%list. split; [by rewrite app_assoc|by apply forallb_app_true].
Qed.

Lemma socket_addr_plain value address :
  parse_socket_addr value = Some address → bytes_all plain_byte value = true.
Proof.
  unfold parse_socket_addr, parse_with.
  destruct (or_else _ _ _) as [[a [|c rest]]|] eqn:E; [|done..]. intros _.
  apply eats_socket_addr in E as (t & He & Ht). rewrite app_nil_r in He.
  unfold bytes_all. by rewrite He.
Qed.

(** A text is made of its pieces. *)
Lemma split_on_all p c s piece :
  p c = true → forallb (bytes_all p) (split_on c s piece) = true → forallb p s = true.
Proof.
  intros Hc. revert piece. induction s as [|d s IH]; intros piece; [done|]. cbn.
  destruct (byte_is_spec c d) as [<-|]; cbn.
  - intros [_ Hs]%andb_true_iff. rewrite Hc. by apply IH in Hs.
  - intros Hs. rewrite (IH _ Hs), andb_true_r.
    assert (∀ s piece, d ∈ piece → forallb (bytes_all p) (split_on c s piece) = true → p d = true) as Hin.
    { clear -p. induction s as [|e s IH]; intros piece Hd; cbn.
      - rewrite andb_true_r. unfold bytes_all. rewrite String.list_ascii_of_string_of_list_ascii.
        rewrite forallb_forall. intros Hp. apply Hp, list_elem_of_In, elem_of_rev, Hd.
      - destruct (byte_is c e); cbn.
        + intros [Hp _]%andb_true_iff. unfold bytes_all in Hp.
          rewrite String.list_ascii_of_string_of_list_ascii, forallb_forall in Hp.
          apply Hp, list_elem_of_In, elem_of_rev, Hd.
        + apply IH. by right. }
    eapply Hin; [|exact Hs]. by left.
Qed.
Lemma str_split_all p c s :
  p c = true → forallb (bytes_all p) (str_split c s) = true → bytes_all p s = true.
Proof. apply split_on_all. Qed.

Lemma rsplit_once_app c s before after :
  rsplit_once c s = Some (before, after) → s = before ++ String c after.
Proof.
  revert before after. induction s as [|d s IH]; intros before after; [done|]. cbn.
  destruct (rsplit_once c s) as [[b a]|].
  - intros [= <- <-]. rewrite string_app_cons. by rewrite (IH b a).
  - destruct (byte_is_spec c d) as [<-|]; [|done]. by intros [= <- <-].
Qed.

(** ** Decimal numbers *)

Lemma parse_digits_all acc s v : parse_digits acc s = Some v → forallb is_ascii_digit s = true.
Proof.
  revert acc. induction s as [|c s IH]; intros acc; [done|]. cbn.
  destruct (is_ascii_digit c); [|done]. case_match; [|done]. apply IH.
Qed.
Lemma parse_u64_plain s v : parse_u64 s = Some v → bytes_all plain_byte s = true.
Proof.
  assert (∀ l, forallb is_ascii_digit l = true → forallb plain_byte l = true) as Hd.
  { intros l. rewrite !forallb_forall. intros Hl c Hc%Hl. clear -Hc.
    by destruct c as [[] [] [] [] [] [] [] []]. }
  unfold parse_u64, bytes_all. destruct (String.list_ascii_of_string s) as [|c rest]; [done|].
  destruct (byte_is_spec "+" c) as [<-|].
  - destruct rest as [|d rest]; [done|]. intros Hp%parse_digits_all%Hd. cbn in *. done.
  - intros Hp%parse_digits_all%Hd. done.
Qed.

Lemma digit_char_spec d : (0 ≤ d ≤ 9)%Z → is_ascii_digit (digit_char d) = true ∧ byte_of (digit_char d) = (48 + d)%Z.
Proof.
  intros Hd. assert (d ∈ [0; 1; 2; 3; 4; 5; 6; 7; 8; 9]%Z) as Hin.
  { rewrite !elem_of_cons, elem_of_nil. lia. }
  repeat (apply elem_of_cons in Hin as [->|Hin]; [by vm_compute|]). by apply elem_of_nil in Hin.
Qed.
Lemma parse_decimal fuel n rest :
  (1 ≤ fuel)%nat → (0 ≤ n < 10 ^ Z.of_nat fuel)%Z → (n ≤ u64_max)%Z →
  parse_digits 0 (String.list_ascii_of_string (decimal fuel n rest)) =
    parse_digits n (String.list_ascii_of_string rest).
Proof.
  revert n rest. induction fuel as [|fuel IH]; intros n rest Hf Hn Hu; [lia|]. cbn [decimal].
  destruct (digit_char_spec (n mod 10)) as [Hd Hb]; [pose proof (Z.mod_pos_bound n 10); lia|].
  pose proof (Z.div_mod n 10). destruct (Z.ltb_spec n 10).
  - cbn [String.list_ascii_of_string parse_digits]. rewrite Hd, Hb, Z.mod_small by lia.
    replace (0 * 10 + (48 + n - 48))%Z with n by lia. by destruct (Z.leb_spec n u64_max); [|lia].
  - destruct fuel as [|fuel]; [cbn in Hn; lia|]. rewrite IH; [|lia| |].
    + cbn [String.list_ascii_of_string parse_digits]. rewrite Hd, Hb.
      replace (n / 10 * 10 + (48 + n mod 10 - 48))%Z with n by lia.
      by destruct (Z.leb_spec n u64_max); [|lia].
    + split; [apply Z.div_pos; lia|]. apply Z.div_lt_upper_bound; [lia|].
      rewrite (Nat2Z.inj_succ (S fuel)), Z.pow_succ_r in Hn by lia. lia.
    + pose proof (Z.div_le_upper_bound n 10 u64_max). unfold u64_max in *. lia.
Qed.

Lemma decimal_nonempty fuel n rest :
  (1 ≤ fuel)%nat ∨ rest ≠ EmptyString → decimal fuel n rest ≠ EmptyString.
Proof.
  revert n rest. induction fuel as [|fuel IH]; intros n rest Hf; cbn [decimal].
  - destruct Hf; [lia|done].
  - case_match; [done|]. apply IH. by right.
Qed.
Lemma u64_text_round_trip n : (0 ≤ n ≤ u64_max)%Z → parse_u64 (u64_to_string n) = Some n.
Proof.
  intros Hn. assert (parse_digits 0 (String.list_ascii_of_string (u64_to_string n)) = Some n) as Hp.
  { unfold u64_to_string. rewrite parse_decimal; [done|lia|unfold u64_max in Hn; split; [lia|]|lia].
    eapply Z.le_lt_trans; [apply Hn|by vm_compute]. }
  assert (u64_to_string n ≠ EmptyString) as Hne.
  { apply decimal_nonempty. left. lia. }
  pose proof (parse_digits_all _ _ _ Hp) as Hd. unfold parse_u64.
  destruct (u64_to_string n) as [|c s]; [done|]. cbn [String.list_ascii_of_string] in *.
  destruct (byte_is_spec "+" c) as [<-|]; [discriminate Hd|exact Hp].
Qed.
