(* ===== verification/Environment.v ===== *)
(** Process environments ([std::env]) and the text checks that the configuration
    of the control plane and of the node agent have in common. *)
From S2P Require Import Prelude Text Net.
#[local] Open Scope string_scope.
#[local] Open Scope Z_scope.

(** The variables of a process; a value is any sequence of bytes. *)
Abbreviation environment_vars := (string → option string).

Inductive VarError := NotPresent | NotUnicode (value : string).

(** [env::var] and [env::var_os]. *)
Definition env_var (env : environment_vars) (name : string) : result VarError string :=
  match env name with
  | None => Err NotPresent
  | Some value => if utf8_valid value then Ok value else Err (NotUnicode value)
  end.
Definition env_var_os (env : environment_vars) (name : string) : option string := env name.

(** Environments that differ in what is set. *)
Definition with_vars (vars : list (string * string)) (env : environment_vars) : environment_vars :=
  λ name, match List.find (λ '(k, _), String.eqb name k) vars with
          | Some (_, value) => Some value
          | None => env name
          end.

(** [byte.is_ascii_alphanumeric() || matches!(byte, b'.' | b'_' | b'-')]. *)
Definition is_scope_byte (c : Ascii.ascii) : bool := is_ascii_alphanumeric c || byte_among "._-" c.

(** A label of a DNS name. *)
Definition dns_label_ok (label : string) : bool :=
  negb (str_is_empty label
        || (63 <? str_len label)
        || from_option (byte_is "-") false (str_first_byte label)
        || from_option (byte_is "-") false (str_last_byte label)
        || negb (bytes_all (λ c, is_ascii_alphanumeric c || byte_is "-" c) label)).

Definition MAX_SERVER_NAME_CHARS : Z := 253.

(** The condition of [validate_dns_name]. *)
Definition dns_name_ok (value : string) : bool :=
  negb ((MAX_SERVER_NAME_CHARS <? str_len value)
        || from_option (byte_is ".") false (str_first_byte value)
        || from_option (byte_is ".") false (str_last_byte value)
        || negb (forallb dns_label_ok (str_split "." value))).
