(* ===== verification/Config.v ===== *)
(** The control plane's configuration (crates/mcserver-control-plane/src/config.rs),
    read from the environment of its process and the files that name secrets. *)
From S2P Require Import Prelude Text Net Environment.
#[local] Open Scope string_scope.
#[local] Open Scope Z_scope.

(** ** Constants *)

Definition DEFAULT_SOCKET_PATH : string := "/run/mcserver/control-plane.sock".
Definition DEFAULT_DATABASE_URL : string := "sqlite:///var/lib/mcserver/control-plane.db?mode=rwc".
Definition DEFAULT_SOCKET_MODE : Z := 432.  (* 0o660 *)
Definition MAX_SOCKET_MODE : Z := 511.      (* 0o777 *)
Definition DEFAULT_MAX_FRAME_BYTES : Z := 1024 * 1024.
Definition DEFAULT_RECONCILE_INTERVAL_SECONDS : Z := 30.
Definition DEFAULT_RECONCILE_RETRY_SECONDS : Z := 5.
Definition DEFAULT_SHUTDOWN_TIMEOUT_SECONDS : Z := 15.
Definition DEFAULT_AGENT_LISTEN_ADDRESS : string := "127.0.0.1:39001".
Definition DEFAULT_AGENT_COMMAND_TIMEOUT_SECONDS : Z := 900.
Definition DEFAULT_NODE_AGENT_BINARY : string := "mcserver-node-agent".
Definition DEFAULT_NODE_AGENT_ROOT : string := "/var/lib/mcserver/local-agents".
Definition DEFAULT_LOCAL_PROCESS_STOP_TIMEOUT_SECONDS : Z := 10.
Definition DEFAULT_LOCAL_CONTROL_TIMEOUT_SECONDS : Z := 30.
Definition DEFAULT_PODMAN_BINARY : string := "podman".
Definition DEFAULT_LOCAL_SCOPE : string := "default".
Definition DEFAULT_AKAMAI_SCOPE : string := "default".
Definition DEFAULT_AKAMAI_API_BASE_URL : string := "https://api.linode.com/v4".
Definition DEFAULT_AKAMAI_REQUEST_TIMEOUT_SECONDS : Z := 30.
Definition DEFAULT_AKAMAI_REAP_ORPHANS_ON_START : bool := false.
Definition DEFAULT_AKAMAI_LIVE_ENABLED : bool := false.
Definition DEFAULT_AKAMAI_ALLOWED_REGIONS : string := "jp-tyo-3".
Definition DEFAULT_AKAMAI_ALLOWED_IMAGES : string := "linode/debian13".
Definition DEFAULT_AKAMAI_ALLOWED_INSTANCE_TYPES : string := "g6-nanode-1".
Definition DEFAULT_AKAMAI_MAX_ACTIVE_INSTANCES : Z := 1.
Definition DEFAULT_AKAMAI_MAX_INSTANCE_LIFETIME_SECONDS : Z := 12 * 60 * 60.
Definition DEFAULT_CLOUDFLARE_API_BASE_URL : string := "https://api.cloudflare.com/client/v4".
Definition DEFAULT_R2_TEMPORARY_CREDENTIAL_TTL_SECONDS : Z := 13 * 60 * 60.
Definition MAX_R2_TEMPORARY_CREDENTIAL_TTL_SECONDS : Z := 7 * 24 * 60 * 60.
Definition DEFAULT_AGENT_CERTIFICATE_WORK_DIRECTORY : string := "/run/mcserver/agent-pki".
Definition DEFAULT_AGENT_CERTIFICATE_VALIDITY_SECONDS : Z := 2 * 24 * 60 * 60.
Definition AGENT_CERTIFICATE_SHUTDOWN_BUFFER_SECONDS : Z := 60 * 60.
Definition DEFAULT_OPENSSL_BINARY : string := "openssl".
Definition MAX_SCOPE_CHARS : Z := 128.
Definition MAX_AKAMAI_SCOPE_CHARS : Z := 35.
Definition MAX_ADDRESS_CHARS : Z := 512.
Definition MAX_URL_CHARS : Z := 4096.
Definition MAX_SECRET_CHARS : Z := 4096.
Definition MAX_PATH_CHARS : Z := 4096.
Definition MAX_RUNTIME_ENVIRONMENT_BYTES : Z := 64 * 1024.
Definition MAX_RUNTIME_ENVIRONMENT_ENTRIES : Z := 64.
Definition MAX_RUNTIME_ENVIRONMENT_VALUE_CHARS : Z := 16 * 1024.
Definition REQUIRED_REMOTE_RUNTIME_ENVIRONMENT_KEYS : list string := ["AWS_DEFAULT_REGION"].
Definition SHA256_HEX_CHARS : Z := 64.
Definition DEFAULT_REAP_ORPHANS_ON_START : bool := true.

(** ** Data *)

(** Paths are their bytes, [Duration]s their nanoseconds, and a [BTreeSet] the
    list of its elements in order. *)
Record RemoteAgentConfig := {
  ra_listen_address : SocketAddr;
  ra_public_address : string;
  ra_tls_server_name : string;
  ra_tls_certificate : string;
  ra_tls_private_key : string;
  ra_tls_ca_certificate : string;
  ra_client_ca_certificate : string;
  ra_client_ca_private_key : string;
  ra_certificate_work_directory : string;
  ra_certificate_validity : Z;
  ra_openssl_binary : string;
  ra_trust_domain : string;
  ra_node_agent_download_url : string;
  ra_node_agent_sha256 : string;
  ra_max_frame_bytes : Z;
  ra_node_operation_timeout : Z;
}.

Record AkamaiConfig := {
  akamai_api_token : string;
  akamai_api_base_url : string;
  authorized_keys_file : string;
  scope : string;
  akamai_request_timeout : Z;
  akamai_reap_orphans_on_start : bool;
  live_enabled : bool;
  allowed_regions : list string;
  allowed_images : list string;
  allowed_instance_types : list string;
  allowed_firewall_ids : list Z;
  max_active_instances : Z;
  max_instance_lifetime : Z;
  loopback_api : bool;
}.

Record R2Config := {
  r2_api_token : string;
  r2_api_base_url : string;
  r2_account_id : string;
  r2_parent_access_key_id : string;
  r2_bucket : string;
  r2_temporary_credential_ttl : Z;
  r2_runtime_environment_file : string;
  r2_runtime_environment : gmap string string;
  r2_request_timeout : Z;
  r2_loopback_api : bool;
}.

Record Config := {
  cfg_socket_path : string;
  cfg_database_url : string;
  cfg_socket_mode : Z;
  cfg_max_frame_bytes : Z;
  cfg_reconcile_interval : Z;
  cfg_reconcile_retry : Z;
  cfg_shutdown_timeout : Z;
  cfg_agent_listen_address : SocketAddr;
  cfg_agent_command_timeout : Z;
  cfg_node_agent_binary : string;
  cfg_node_agent_root : string;
  cfg_podman_binary : string;
  cfg_local_scope : string;
  cfg_reap_orphans_on_start : bool;
  cfg_local_control_timeout : Z;
  cfg_local_process_stop_timeout : Z;
  cfg_remote_agent : option RemoteAgentConfig;
  cfg_akamai : option AkamaiConfig;
  cfg_r2 : option R2Config;
}.

Module CFE.
(** [ConfigError]. *)
Inductive ConfigError :=
| Environment (name : string) (source : VarError)
| InvalidInteger (name value : string)
| InvalidSocketMode (value : string)
| SocketModeOutOfRange (mode : Z)
| ZeroValue (name : string)
| DurationOutOfRange (name : string)
| MissingValue (name : string)
| BlankValue (name : string)
| NulByte (name : string)
| ValueTooLong (name : string) (maximum : Z)
| InvalidScope (name value : string)
| InvalidProviderIdentifier (name value : string)
| InvalidIdentifierSet (name value : string)
| InvalidPositiveIntegerSet (name value : string)
| InvalidBoolean (name value : string)
| InvalidSocketAddress
| InvalidRemoteSocketAddress
| AgentAddressMustBeLoopback (address : SocketAddr)
| ZeroAgentPort
| ZeroRemoteAgentPort
| InvalidRemotePublicAddress (value : string)
| RemoteAgentListenAddressRequired
| AkamaiTokenRequired
| RemoteAgentRequiredForAkamai
| R2RequiredForAkamai
| AkamaiRequiredForR2
| R2TokenRequired
| ConflictingSecretSources (direct file : string)
| SecretFile (name path : string) (source : io_error)
| RuntimeEnvironmentFile (path : string) (source : io_error)
| RuntimeEnvironmentTooLarge (path : string) (maximum : Z)
| RuntimeEnvironmentEncoding
| InvalidRuntimeEnvironmentLine (line : Z)
| InvalidRuntimeEnvironmentKey (key : string)
| InvalidRuntimeEnvironmentValue (key : string)
| DuplicateRuntimeEnvironmentKey (key : string)
| EmptyRuntimeEnvironment
| TooManyRuntimeEnvironmentEntries (maximum : Z)
| MissingRequiredRuntimeEnvironmentKey (key : string)
| BlankRequiredRuntimeEnvironmentValue (key : string)
| InvalidR2Region
| InvalidTlsServerName (value : string)
| InvalidUrl (name : string)
| HttpsRequired (name : string)
| InvalidAkamaiApiBaseUrl (value : string)
| InvalidR2ApiBaseUrl (value : string)
| InvalidR2AccountId (value : string)
| InvalidR2Bucket (value : string)
| R2CredentialTtlTooLong (maximum : Z)
| R2CredentialTtlTooShort (configured minimum : Z)
| AkamaiScopeTooLong (maximum : Z)
| AgentCertificateValidityTooShort (certificate_validity minimum : Z)
| InvalidSha256 (value : string).
End CFE.
Abbreviation ConfigError := CFE.ConfigError.

(** What of [reqwest::Url] is looked at. *)
Record Url := {
  url_scheme : string;
  url_host : option string;
  url_port : option Z;
  url_path : string;
  url_username : string;
  url_password : option string;
  url_query : option string;
  url_fragment : option string;
}.

(** ** [AkamaiConfig] *)

Definition mutations_enabled (config : AkamaiConfig) : bool :=
  live_enabled config || loopback_api config.

Definition list_contains (l : list string) (v : string) : bool := existsb (String.eqb v) l.

Definition allows_instance_type (config : AkamaiConfig) :=
  list_contains (allowed_instance_types config).
Definition allows_region (config : AkamaiConfig) := list_contains (allowed_regions config).
Definition allows_image (config : AkamaiConfig) := list_contains (allowed_images config).
Definition allows_firewall (config : AkamaiConfig) (v : Z) : bool :=
  existsb (Z.eqb v) (allowed_firewall_ids config).

(** ** Checks of values *)

(** Inserting into a [BTreeSet]. *)
Fixpoint set_insert {A} (compare : A → A → comparison) (a : A) (l : list A) : list A :=
  match l with
  | [] => [a]
  | b :: l' =>
      match compare a b with
      | Lt => a :: l
      | Eq => l
      | Gt => b :: set_insert compare a l'
      end
  end.
Definition collect_set {A} (compare : A → A → comparison) (l : list A) : list A :=
  fold_left (λ set a, set_insert compare a set) l [].

Definition node_operation_timeout (agent_call_timeout : Z) : Z :=
  match duration_checked_sub agent_call_timeout (from_secs 5) with
  | Some d => if negb (d =? 0) then d else from_secs 1
  | None => from_secs 1
  end.

Definition validate_non_blank (name value : string) (maximum : Z) : result ConfigError unit :=
  _ ← err_if (str_is_blank value) (CFE.BlankValue name);
  _ ← err_if (str_contains_nul value) (CFE.NulByte name);
  err_if (maximum <? str_char_count value) (CFE.ValueTooLong name maximum).

Definition is_provider_identifier (value : string) : bool :=
  negb (str_is_empty value) && bytes_all (λ c, is_ascii_alphanumeric c || byte_among "-_/." c) value.

Definition validate_dns_name (value : string) : result ConfigError unit :=
  err_if (negb (dns_name_ok value)) (CFE.InvalidTlsServerName value).

Definition validate_host_port (value : string) : result ConfigError unit :=
  match parse_socket_addr value with
  | Some address => err_if (sa_port address =? 0) CFE.ZeroRemoteAgentPort
  | None =>
      match rsplit_once ":" value with
      | None => Err (CFE.InvalidRemotePublicAddress value)
      | Some (host, port) =>
          _ ← validate_dns_name host;
          port ← ok_or (CFE.InvalidRemotePublicAddress value) (parse_u16 port);
          err_if (port =? 0) CFE.ZeroRemoteAgentPort
      end
  end.

Definition has_explicit_authority (value : string) : bool :=
  match split_once "://" value with
  | Some (_, remainder) => negb (str_is_empty (take_until (byte_among "/?#") remainder))
  | None => false
  end.

Definition validate_r2_bucket_name (value : string) : result ConfigError unit :=
  let valid := (3 <=? str_len value) && (str_len value <=? 63)
    && from_option is_ascii_alphanumeric false (str_first_byte value)
    && from_option is_ascii_alphanumeric false (str_last_byte value)
    && bytes_all (λ c, is_ascii_lowercase c || is_ascii_digit c || byte_among "-." c) value
    && negb (str_contains ".." value) && negb (str_contains ".-" value)
    && negb (str_contains "-." value) in
  if valid then Ok tt else Err (CFE.InvalidR2Bucket value).

Definition parse_socket_mode (value : option string) : result ConfigError Z :=
  mode ← match value with
         | Some value => ok_or (CFE.InvalidSocketMode value) (parse_octal_u32 (trim_start_text "0o" value))
         | None => Ok DEFAULT_SOCKET_MODE
         end;
  _ ← err_if (MAX_SOCKET_MODE <? mode) (CFE.SocketModeOutOfRange mode);
  Ok mode.

(** The boolean texts of [parse_bool]. *)
Definition bool_of_text (value : string) : option bool :=
  if existsb (String.eqb value) ["1"; "true"; "TRUE"; "yes"; "YES"] then Some true
  else if existsb (String.eqb value) ["0"; "false"; "FALSE"; "no"; "NO"] then Some false
  else None.

(** ** URLs *)

Section config.
(** [reqwest::Url::parse]. *)
Variable url_parse : string → option Url.

Definition validate_https_url (name value : string) : result ConfigError unit :=
  url ← ok_or (CFE.InvalidUrl name) (url_parse value);
  _ ← err_if (negb (String.eqb (url_scheme url) "https")) (CFE.HttpsRequired name);
  err_if (negb (has_explicit_authority value) || is_none (url_host url)
          || negb (str_is_empty (url_username url)) || is_some (url_password url)
          || is_some (url_fragment url)) (CFE.InvalidUrl name).

(** [localhost] or a loopback address. *)
Definition host_is_loopback (host : string) : bool :=
  eq_ignore_ascii_case host "localhost"
  || is_some_and is_loopback
       (parse_ip_addr (trim_end_matches (byte_is "]") (trim_start_matches (byte_is "[") host))).

(** [validate_api_base_url] and [validate_r2_api_base_url], with their errors. *)
Definition validate_base_url (invalid : string → ConfigError) (value : string) :
    result ConfigError bool :=
  url ← ok_or (invalid value) (url_parse value);
  _ ← err_if (negb (has_explicit_authority value) || negb (str_is_empty (url_username url))
              || is_some (url_password url) || is_some (url_query url) || is_some (url_fragment url))
        (invalid value);
  host ← ok_or (invalid value) (url_host url);
  let loopback := host_is_loopback host in
  if String.eqb (url_scheme url) "https" then Ok loopback
  else if String.eqb (url_scheme url) "http" && loopback then Ok true
  else Err (invalid value).
Definition validate_api_base_url : string → result ConfigError bool :=
  validate_base_url CFE.InvalidAkamaiApiBaseUrl.
Definition validate_r2_api_base_url : string → result ConfigError bool :=
  validate_base_url CFE.InvalidR2ApiBaseUrl.

(** ** Reading the environment *)

(** The environment, and the contents of the files that can be read. *)
Variable env : environment_vars.
Variable files : string → result io_error string.

Definition optional_string_value (name : string) : result ConfigError (option string) :=
  match env_var env name with
  | Ok value => Ok (Some value)
  | Err NotPresent => Ok None
  | Err source => Err (CFE.Environment name source)
  end.

Definition optional_string (name default : string) : result ConfigError string :=
  value ← optional_string_value name; Ok (from_option id default value).

Definition required_non_blank (name : string) (maximum : Z) : result ConfigError string :=
  value ← optional_string_value name;
  value ← ok_or (CFE.MissingValue name) value;
  _ ← validate_non_blank name value maximum;
  Ok value.

Definition required_path (name : string) : result ConfigError string :=
  required_non_blank name MAX_PATH_CHARS.

Definition env_path_or (name default : string) : string :=
  from_option id default (env_var_os env name).

Definition optional_scope (name default : string) : result ConfigError string :=
  value ← optional_string name default;
  _ ← validate_non_blank name value MAX_SCOPE_CHARS;
  _ ← err_if (negb (bytes_all is_scope_byte value)) (CFE.InvalidScope name value);
  Ok value.

(** The non-empty, trimmed pieces between the commas. *)
Definition comma_separated (raw : string) : list string :=
  List.filter (λ value, negb (str_is_empty value)) (map str_trim (str_split "," raw)).

Definition parse_identifier_set (name default : string) : result ConfigError (list string) :=
  raw ← optional_string name default;
  let values := collect_set String.compare (comma_separated raw) in
  if bool_decide (values = []) || negb (forallb is_provider_identifier values)
  then Err (CFE.InvalidIdentifierSet name raw) else Ok values.

Definition parse_positive_u64_set (name : string) : result ConfigError (list Z) :=
  raw ← required_non_blank name 4096;
  let invalid := Err (CFE.InvalidPositiveIntegerSet name raw) in
  match collect_results (λ value, ok_or tt (parse_u64 value)) (comma_separated raw) with
  | Ok values =>
      let values := collect_set Z.compare values in
      if negb (bool_decide (values = [])) && negb (existsb (Z.eqb 0) values) then Ok values
      else invalid
  | Err _ => invalid
  end.

Definition parse_bool (name : string) (default : bool) : result ConfigError bool :=
  match env_var env name with
  | Ok value => ok_or (CFE.InvalidBoolean name value) (bool_of_text value)
  | Err NotPresent => Ok default
  | Err source => Err (CFE.Environment name source)
  end.

(** The integer both of the following read. *)
Definition env_integer (name : string) (default : Z) : result ConfigError Z :=
  match env_var env name with
  | Ok value => ok_or (CFE.InvalidInteger name value) (parse_u64 value)
  | Err NotPresent => Ok default
  | Err source => Err (CFE.Environment name source)
  end.
Definition parse_positive_usize (name : string) (default : Z) : result ConfigError Z :=
  value ← env_integer name default;
  _ ← err_if (value =? 0) (CFE.ZeroValue name);
  Ok value.
Definition parse_positive_duration (name : string) (default : Z) : result ConfigError Z :=
  seconds ← env_integer name default;
  _ ← err_if (seconds =? 0) (CFE.ZeroValue name);
  Ok (from_secs seconds).

(** ** Secrets and the runtime environment *)

(** [fs::read_to_string]. *)
Definition read_to_string (path : string) : result io_error string :=
  content ← files path;
  if utf8_valid content then Ok content
  else Err (IoOther "stream did not contain valid UTF-8").

Definition read_secret_file (name path : string) : result ConfigError string :=
  value ← map_err (CFE.SecretFile name path) (read_to_string path);
  let value := trim_end_matches
    (λ c, byte_is (Ascii.ascii_of_nat 13) c || byte_is (Ascii.ascii_of_nat 10) c) value in
  _ ← validate_non_blank name value MAX_SECRET_CHARS;
  Ok value.

(** The token of [akamai_config] and [r2_config]: a variable or a file. *)
Definition api_token_from (direct file : string) : result ConfigError (option string) :=
  direct_token ← optional_string_value direct;
  token_file ← optional_string_value file;
  match direct_token, token_file with
  | Some _, Some _ => Err (CFE.ConflictingSecretSources direct file)
  | Some value, None => Ok (Some value)
  | None, Some path => value ← read_secret_file file path; Ok (Some value)
  | None, None => Ok None
  end.

Definition is_runtime_environment_key (key : string) : bool := String.eqb key "AWS_DEFAULT_REGION".

Definition validate_required_runtime_environment (values : gmap string string) :
    result ConfigError unit :=
  _ ← for_each (λ key,
        value ← ok_or (CFE.MissingRequiredRuntimeEnvironmentKey key) (values !! key);
        err_if (str_is_blank value) (CFE.BlankRequiredRuntimeEnvironmentValue key))
      REQUIRED_REMOTE_RUNTIME_ENVIRONMENT_KEYS;
  err_if (negb (bool_decide (values !! "AWS_DEFAULT_REGION" = Some "auto"))) CFE.InvalidR2Region.

(** The loop over the lines; [index] counts from 0. *)
Fixpoint runtime_environment_lines (lines : list string) (index : Z) (values : gmap string string) :
    result ConfigError (gmap string string) :=
  match lines with
  | [] => Ok values
  | raw_line :: lines =>
      let line := trim_end_matches (byte_is (Ascii.ascii_of_nat 13)) raw_line in
      if str_is_blank line || starts_with "#" (str_trim_start line)
      then runtime_environment_lines lines (index + 1) values
      else
        '(key, value) ← ok_or (CFE.InvalidRuntimeEnvironmentLine (index + 1)) (split_once "=" line);
        _ ← err_if (negb (is_runtime_environment_key key)) (CFE.InvalidRuntimeEnvironmentKey key);
        _ ← err_if (str_contains_nul value
                    || (MAX_RUNTIME_ENVIRONMENT_VALUE_CHARS <? str_char_count value))
              (CFE.InvalidRuntimeEnvironmentValue key);
        _ ← err_if (is_some (values !! key)) (CFE.DuplicateRuntimeEnvironmentKey key);
        let values := <[key := value]> values in
        _ ← err_if (MAX_RUNTIME_ENVIRONMENT_ENTRIES <? Z.of_nat (size values))
              (CFE.TooManyRuntimeEnvironmentEntries MAX_RUNTIME_ENVIRONMENT_ENTRIES);
        runtime_environment_lines lines (index + 1) values
  end.

Definition read_runtime_environment (path : string) : result ConfigError (gmap string string) :=
  bytes ← map_err (CFE.RuntimeEnvironmentFile path) (files path);
  _ ← err_if (MAX_RUNTIME_ENVIRONMENT_BYTES <? str_len bytes)
        (CFE.RuntimeEnvironmentTooLarge path MAX_RUNTIME_ENVIRONMENT_BYTES);
  _ ← err_if (negb (utf8_valid bytes)) CFE.RuntimeEnvironmentEncoding;
  values ← runtime_environment_lines (str_lines bytes) 0 ∅;
  _ ← err_if (bool_decide (values = ∅)) CFE.EmptyRuntimeEnvironment;
  _ ← validate_required_runtime_environment values;
  Ok values.

(** ** The parts of the configuration *)

(** [for name in names { if optional_string_value(name)?.is_some() { return Err(error) } }]. *)
Definition reject_set (error : ConfigError) (names : list string) : result ConfigError unit :=
  for_each (λ name, value ← optional_string_value name; err_if (is_some value) error) names.

Definition reject_partial_remote_config : result ConfigError unit :=
  reject_set CFE.RemoteAgentListenAddressRequired [
    "MCSERVER_CONTROL_PLANE_REMOTE_AGENT_PUBLIC_ADDRESS";
    "MCSERVER_CONTROL_PLANE_REMOTE_AGENT_TLS_SERVER_NAME";
    "MCSERVER_CONTROL_PLANE_REMOTE_AGENT_TLS_CERTIFICATE";
    "MCSERVER_CONTROL_PLANE_REMOTE_AGENT_TLS_PRIVATE_KEY";
    "MCSERVER_CONTROL_PLANE_REMOTE_AGENT_TLS_CA_CERTIFICATE";
    "MCSERVER_CONTROL_PLANE_AGENT_CLIENT_CA_CERTIFICATE";
    "MCSERVER_CONTROL_PLANE_AGENT_CLIENT_CA_PRIVATE_KEY";
    "MCSERVER_CONTROL_PLANE_AGENT_CERTIFICATE_WORK_DIRECTORY";
    "MCSERVER_CONTROL_PLANE_AGENT_CERTIFICATE_VALIDITY_SECONDS";
    "MCSERVER_CONTROL_PLANE_AGENT_TRUST_DOMAIN";
    "MCSERVER_CONTROL_PLANE_NODE_AGENT_DOWNLOAD_URL";
    "MCSERVER_CONTROL_PLANE_NODE_AGENT_SHA256"].

Definition remote_agent_config (max_frame_bytes agent_command_timeout : Z) :
    result ConfigError (option RemoteAgentConfig) :=
  listen_value ← optional_string_value "MCSERVER_CONTROL_PLANE_REMOTE_AGENT_LISTEN_ADDRESS";
  match listen_value with
  | None => _ ← reject_partial_remote_config; Ok None
  | Some listen_value =>
      listen_address ← ok_or CFE.InvalidRemoteSocketAddress (parse_socket_addr listen_value);
      _ ← err_if (sa_port listen_address =? 0) CFE.ZeroRemoteAgentPort;
      public_address ← required_non_blank "MCSERVER_CONTROL_PLANE_REMOTE_AGENT_PUBLIC_ADDRESS"
                         MAX_ADDRESS_CHARS;
      _ ← validate_host_port public_address;
      tls_server_name ← required_non_blank "MCSERVER_CONTROL_PLANE_REMOTE_AGENT_TLS_SERVER_NAME"
                          MAX_SERVER_NAME_CHARS;
      _ ← validate_dns_name tls_server_name;
      tls_certificate ← required_path "MCSERVER_CONTROL_PLANE_REMOTE_AGENT_TLS_CERTIFICATE";
      tls_private_key ← required_path "MCSERVER_CONTROL_PLANE_REMOTE_AGENT_TLS_PRIVATE_KEY";
      tls_ca_certificate ← required_path "MCSERVER_CONTROL_PLANE_REMOTE_AGENT_TLS_CA_CERTIFICATE";
      client_ca_certificate ← required_path "MCSERVER_CONTROL_PLANE_AGENT_CLIENT_CA_CERTIFICATE";
      client_ca_private_key ← required_path "MCSERVER_CONTROL_PLANE_AGENT_CLIENT_CA_PRIVATE_KEY";
      let certificate_work_directory :=
        env_path_or "MCSERVER_CONTROL_PLANE_AGENT_CERTIFICATE_WORK_DIRECTORY"
          DEFAULT_AGENT_CERTIFICATE_WORK_DIRECTORY in
      certificate_validity ←
        parse_positive_duration "MCSERVER_CONTROL_PLANE_AGENT_CERTIFICATE_VALIDITY_SECONDS"
          DEFAULT_AGENT_CERTIFICATE_VALIDITY_SECONDS;
      let openssl_binary :=
        env_path_or "MCSERVER_CONTROL_PLANE_OPENSSL_BINARY" DEFAULT_OPENSSL_BINARY in
      trust_domain ← required_non_blank "MCSERVER_CONTROL_PLANE_AGENT_TRUST_DOMAIN"
                       MAX_SERVER_NAME_CHARS;
      _ ← validate_dns_name trust_domain;
      node_agent_download_url ← required_non_blank "MCSERVER_CONTROL_PLANE_NODE_AGENT_DOWNLOAD_URL"
                                  MAX_URL_CHARS;
      _ ← validate_https_url "MCSERVER_CONTROL_PLANE_NODE_AGENT_DOWNLOAD_URL" node_agent_download_url;
      node_agent_sha256 ← required_non_blank "MCSERVER_CONTROL_PLANE_NODE_AGENT_SHA256"
                            SHA256_HEX_CHARS;
      _ ← err_if (negb (str_len node_agent_sha256 =? SHA256_HEX_CHARS)
                  || negb (bytes_all is_ascii_hexdigit node_agent_sha256))
            (CFE.InvalidSha256 node_agent_sha256);
      Ok (Some {|
        ra_listen_address := listen_address; ra_public_address := public_address;
        ra_tls_server_name := tls_server_name; ra_tls_certificate := tls_certificate;
        ra_tls_private_key := tls_private_key; ra_tls_ca_certificate := tls_ca_certificate;
        ra_client_ca_certificate := client_ca_certificate;
        ra_client_ca_private_key := client_ca_private_key;
        ra_certificate_work_directory := certificate_work_directory;
        ra_certificate_validity := certificate_validity; ra_openssl_binary := openssl_binary;
        ra_trust_domain := trust_domain; ra_node_agent_download_url := node_agent_download_url;
        ra_node_agent_sha256 := to_ascii_lowercase node_agent_sha256;
        ra_max_frame_bytes := max_frame_bytes;
        ra_node_operation_timeout := node_operation_timeout agent_command_timeout |})
  end.

Definition akamai_config (remote_agent : option RemoteAgentConfig) :
    result ConfigError (option AkamaiConfig) :=
  api_token ← api_token_from "MCSERVER_AKAMAI_API_TOKEN" "MCSERVER_AKAMAI_API_TOKEN_FILE";
  match api_token with
  | None =>
      _ ← reject_set CFE.AkamaiTokenRequired [
        "MCSERVER_AKAMAI_API_BASE_URL";
        "MCSERVER_AKAMAI_AUTHORIZED_KEYS_FILE";
        "MCSERVER_AKAMAI_SCOPE";
        "MCSERVER_AKAMAI_REQUEST_TIMEOUT_SECONDS";
        "MCSERVER_AKAMAI_REAP_ORPHANS_ON_START";
        "MCSERVER_AKAMAI_LIVE_ENABLED";
        "MCSERVER_AKAMAI_ALLOWED_REGIONS";
        "MCSERVER_AKAMAI_ALLOWED_IMAGES";
        "MCSERVER_AKAMAI_ALLOWED_INSTANCE_TYPES";
        "MCSERVER_AKAMAI_ALLOWED_FIREWALL_IDS";
        "MCSERVER_AKAMAI_MAX_ACTIVE_INSTANCES";
        "MCSERVER_AKAMAI_MAX_INSTANCE_LIFETIME_SECONDS"];
      Ok None
  | Some api_token =>
      _ ← validate_non_blank "MCSERVER_AKAMAI_API_TOKEN" api_token MAX_SECRET_CHARS;
      _ ← err_if (is_none remote_agent) CFE.RemoteAgentRequiredForAkamai;
      api_base_url ← optional_string "MCSERVER_AKAMAI_API_BASE_URL" DEFAULT_AKAMAI_API_BASE_URL;
      loopback_api ← validate_api_base_url api_base_url;
      authorized_keys_file ← required_path "MCSERVER_AKAMAI_AUTHORIZED_KEYS_FILE";
      scope ← optional_scope "MCSERVER_AKAMAI_SCOPE" DEFAULT_AKAMAI_SCOPE;
      _ ← err_if (MAX_AKAMAI_SCOPE_CHARS <? str_char_count scope)
            (CFE.AkamaiScopeTooLong MAX_AKAMAI_SCOPE_CHARS);
      request_timeout ← parse_positive_duration "MCSERVER_AKAMAI_REQUEST_TIMEOUT_SECONDS"
                          DEFAULT_AKAMAI_REQUEST_TIMEOUT_SECONDS;
      reap_orphans_on_start ← parse_bool "MCSERVER_AKAMAI_REAP_ORPHANS_ON_START"
                                DEFAULT_AKAMAI_REAP_ORPHANS_ON_START;
      live_enabled ← parse_bool "MCSERVER_AKAMAI_LIVE_ENABLED" DEFAULT_AKAMAI_LIVE_ENABLED;
      allowed_regions ← parse_identifier_set "MCSERVER_AKAMAI_ALLOWED_REGIONS"
                          DEFAULT_AKAMAI_ALLOWED_REGIONS;
      allowed_images ← parse_identifier_set "MCSERVER_AKAMAI_ALLOWED_IMAGES"
                         DEFAULT_AKAMAI_ALLOWED_IMAGES;
      allowed_instance_types ← parse_identifier_set "MCSERVER_AKAMAI_ALLOWED_INSTANCE_TYPES"
                                 DEFAULT_AKAMAI_ALLOWED_INSTANCE_TYPES;
      allowed_firewall_ids ← parse_positive_u64_set "MCSERVER_AKAMAI_ALLOWED_FIREWALL_IDS";
      max_active_instances ← parse_positive_usize "MCSERVER_AKAMAI_MAX_ACTIVE_INSTANCES"
                               DEFAULT_AKAMAI_MAX_ACTIVE_INSTANCES;
      max_instance_lifetime ← parse_positive_duration "MCSERVER_AKAMAI_MAX_INSTANCE_LIFETIME_SECONDS"
                                DEFAULT_AKAMAI_MAX_INSTANCE_LIFETIME_SECONDS;
      remote_agent ← ok_or CFE.RemoteAgentRequiredForAkamai remote_agent;
      minimum_certificate_validity ←
        ok_or (CFE.DurationOutOfRange "MCSERVER_AKAMAI_MAX_INSTANCE_LIFETIME_SECONDS")
          (duration_checked_add max_instance_lifetime
             (from_secs AGENT_CERTIFICATE_SHUTDOWN_BUFFER_SECONDS));
      _ ← err_if (ra_certificate_validity remote_agent <? minimum_certificate_validity)
            (CFE.AgentCertificateValidityTooShort (ra_certificate_validity remote_agent)
               minimum_certificate_validity);
      Ok (Some {|
        akamai_api_token := api_token;
        akamai_api_base_url := trim_end_matches (byte_is "/") api_base_url;
        authorized_keys_file := authorized_keys_file; scope := scope;
        akamai_request_timeout := request_timeout;
        akamai_reap_orphans_on_start := reap_orphans_on_start; live_enabled := live_enabled;
        allowed_regions := allowed_regions; allowed_images := allowed_images;
        allowed_instance_types := allowed_instance_types;
        allowed_firewall_ids := allowed_firewall_ids;
        max_active_instances := max_active_instances;
        max_instance_lifetime := max_instance_lifetime; loopback_api := loopback_api |})
  end.

(** Whether any of the settings is there; all of them are read. *)
Fixpoint any_set (names : list string) : result ConfigError bool :=
  match names with
  | [] => Ok false
  | name :: names =>
      value ← optional_string_value name;
      rest ← any_set names;
      Ok (is_some value || rest)
  end.

Definition r2_config (akamai : option AkamaiConfig) (agent_command_timeout : Z) :
    result ConfigError (option R2Config) :=
  api_token ← api_token_from "MCSERVER_R2_API_TOKEN" "MCSERVER_R2_API_TOKEN_FILE";
  match api_token with
  | None =>
      partially_configured ← any_set [
        "MCSERVER_R2_API_BASE_URL";
        "MCSERVER_R2_ACCOUNT_ID";
        "MCSERVER_R2_PARENT_ACCESS_KEY_ID";
        "MCSERVER_R2_BUCKET";
        "MCSERVER_R2_TEMPORARY_CREDENTIAL_TTL_SECONDS";
        "MCSERVER_R2_RUNTIME_ENVIRONMENT_FILE";
        "MCSERVER_R2_REQUEST_TIMEOUT_SECONDS"];
      _ ← err_if partially_configured CFE.R2TokenRequired;
      _ ← err_if (is_some akamai) CFE.R2RequiredForAkamai;
      Ok None
  | Some api_token =>
      akamai ← ok_or CFE.AkamaiRequiredForR2 akamai;
      _ ← validate_non_blank "MCSERVER_R2_API_TOKEN" api_token MAX_SECRET_CHARS;
      api_base_url ← optional_string "MCSERVER_R2_API_BASE_URL" DEFAULT_CLOUDFLARE_API_BASE_URL;
      loopback_api ← validate_r2_api_base_url api_base_url;
      account_id ← required_non_blank "MCSERVER_R2_ACCOUNT_ID" 32;
      _ ← err_if (negb (str_len account_id =? 32) || negb (bytes_all is_ascii_hexdigit account_id))
            (CFE.InvalidR2AccountId account_id);
      parent_access_key_id ← required_non_blank "MCSERVER_R2_PARENT_ACCESS_KEY_ID" 256;
      bucket ← required_non_blank "MCSERVER_R2_BUCKET" 63;
      _ ← validate_r2_bucket_name bucket;
      temporary_credential_ttl ←
        parse_positive_duration "MCSERVER_R2_TEMPORARY_CREDENTIAL_TTL_SECONDS"
          DEFAULT_R2_TEMPORARY_CREDENTIAL_TTL_SECONDS;
      _ ← err_if (MAX_R2_TEMPORARY_CREDENTIAL_TTL_SECONDS <? as_secs temporary_credential_ttl)
            (CFE.R2CredentialTtlTooLong (from_secs MAX_R2_TEMPORARY_CREDENTIAL_TTL_SECONDS));
      let shutdown_buffer :=
        Z.max agent_command_timeout (from_secs AGENT_CERTIFICATE_SHUTDOWN_BUFFER_SECONDS) in
      minimum_ttl ← ok_or (CFE.DurationOutOfRange "MCSERVER_R2_TEMPORARY_CREDENTIAL_TTL_SECONDS")
        (duration_checked_add (max_instance_lifetime akamai) shutdown_buffer);
      _ ← err_if (temporary_credential_ttl <? minimum_ttl)
            (CFE.R2CredentialTtlTooShort temporary_credential_ttl minimum_ttl);
      runtime_environment_file ← required_path "MCSERVER_R2_RUNTIME_ENVIRONMENT_FILE";
      runtime_environment ← read_runtime_environment runtime_environment_file;
      request_timeout ← parse_positive_duration "MCSERVER_R2_REQUEST_TIMEOUT_SECONDS"
                          DEFAULT_AKAMAI_REQUEST_TIMEOUT_SECONDS;
      Ok (Some {|
        r2_api_token := api_token; r2_api_base_url := trim_end_matches (byte_is "/") api_base_url;
        r2_account_id := account_id; r2_parent_access_key_id := parent_access_key_id;
        r2_bucket := bucket; r2_temporary_credential_ttl := temporary_credential_ttl;
        r2_runtime_environment_file := runtime_environment_file;
        r2_runtime_environment := runtime_environment; r2_request_timeout := request_timeout;
        r2_loopback_api := loopback_api |})
  end.

(** [Config::from_env]. *)
Definition from_env : result ConfigError Config :=
  let socket_path := env_path_or "MCSERVER_CONTROL_PLANE_SOCKET" DEFAULT_SOCKET_PATH in
  database_url ← optional_string "MCSERVER_CONTROL_PLANE_DATABASE_URL" DEFAULT_DATABASE_URL;
  socket_mode ← optional_string_value "MCSERVER_CONTROL_PLANE_SOCKET_MODE";
  socket_mode ← parse_socket_mode socket_mode;
  max_frame_bytes ← parse_positive_usize "MCSERVER_CONTROL_PLANE_MAX_FRAME_BYTES"
                      DEFAULT_MAX_FRAME_BYTES;
  reconcile_interval ← parse_positive_duration "MCSERVER_CONTROL_PLANE_RECONCILE_INTERVAL_SECONDS"
                         DEFAULT_RECONCILE_INTERVAL_SECONDS;
  reconcile_retry ← parse_positive_duration "MCSERVER_CONTROL_PLANE_RECONCILE_RETRY_SECONDS"
                      DEFAULT_RECONCILE_RETRY_SECONDS;
  shutdown_timeout ← parse_positive_duration "MCSERVER_CONTROL_PLANE_SHUTDOWN_TIMEOUT_SECONDS"
                       DEFAULT_SHUTDOWN_TIMEOUT_SECONDS;
  agent_listen_address ← optional_string "MCSERVER_CONTROL_PLANE_AGENT_LISTEN_ADDRESS"
                           DEFAULT_AGENT_LISTEN_ADDRESS;
  agent_listen_address ← ok_or CFE.InvalidSocketAddress (parse_socket_addr agent_listen_address);
  _ ← err_if (negb (is_loopback (sa_ip agent_listen_address)))
        (CFE.AgentAddressMustBeLoopback agent_listen_address);
  _ ← err_if (sa_port agent_listen_address =? 0) CFE.ZeroAgentPort;
  agent_command_timeout ←
    parse_positive_duration "MCSERVER_CONTROL_PLANE_AGENT_COMMAND_TIMEOUT_SECONDS"
      DEFAULT_AGENT_COMMAND_TIMEOUT_SECONDS;
  let node_agent_binary :=
    env_path_or "MCSERVER_CONTROL_PLANE_NODE_AGENT_BINARY" DEFAULT_NODE_AGENT_BINARY in
  let node_agent_root :=
    env_path_or "MCSERVER_CONTROL_PLANE_NODE_AGENT_ROOT" DEFAULT_NODE_AGENT_ROOT in
  let podman_binary := env_path_or "MCSERVER_CONTROL_PLANE_PODMAN_BINARY" DEFAULT_PODMAN_BINARY in
  local_scope ← optional_scope "MCSERVER_CONTROL_PLANE_LOCAL_SCOPE" DEFAULT_LOCAL_SCOPE;
  reap_orphans_on_start ← parse_bool "MCSERVER_CONTROL_PLANE_REAP_ORPHANS_ON_START"
                            DEFAULT_REAP_ORPHANS_ON_START;
  local_control_timeout ←
    parse_positive_duration "MCSERVER_CONTROL_PLANE_LOCAL_CONTROL_TIMEOUT_SECONDS"
      DEFAULT_LOCAL_CONTROL_TIMEOUT_SECONDS;
  local_process_stop_timeout ←
    parse_positive_duration "MCSERVER_CONTROL_PLANE_LOCAL_PROCESS_STOP_TIMEOUT_SECONDS"
      DEFAULT_LOCAL_PROCESS_STOP_TIMEOUT_SECONDS;
  remote_agent ← remote_agent_config max_frame_bytes agent_command_timeout;
  akamai ← akamai_config remote_agent;
  r2 ← r2_config akamai agent_command_timeout;
  Ok {| cfg_socket_path := socket_path; cfg_database_url := database_url;
        cfg_socket_mode := socket_mode; cfg_max_frame_bytes := max_frame_bytes;
        cfg_reconcile_interval := reconcile_interval; cfg_reconcile_retry := reconcile_retry;
        cfg_shutdown_timeout := shutdown_timeout; cfg_agent_listen_address := agent_listen_address;
        cfg_agent_command_timeout := agent_command_timeout;
        cfg_node_agent_binary := node_agent_binary; cfg_node_agent_root := node_agent_root;
        cfg_podman_binary := podman_binary; cfg_local_scope := local_scope;
        cfg_reap_orphans_on_start := reap_orphans_on_start;
        cfg_local_control_timeout := local_control_timeout;
        cfg_local_process_stop_timeout := local_process_stop_timeout;
        cfg_remote_agent := remote_agent; cfg_akamai := akamai; cfg_r2 := r2 |}.
End config.
