(* ===== verification/Programs.v ===== *)
(** Programs that ask something of their surroundings: trees of operations and
    continuations over a signature [O] of operations, so that a statement about a
    program covers every answer to every operation. An [async fn] is such a
    program; [.await] is [let!] and [.await?] is [let?]. *)
From S2P Require Import Prelude.

Inductive gprog (O : Type → Type) (A : Type) : Type :=
| Ret (a : A)
| Op {X : Type} (o : O X) (k : X → gprog O A).
Arguments Ret {_ _} _.
Arguments Op {_ _ _} _ _.

Fixpoint prog_bind {O A B} (m : gprog O A) (f : A → gprog O B) : gprog O B :=
  match m with
  | Ret a => f a
  | Op o k => Op o (λ x, prog_bind (k x) f)
  end.

(** [op.await]. *)
Definition perform {O X} (o : O X) : gprog O X := Op o Ret.

(** [m.await?] with [From] for the error. *)
Definition try_bind {O E F A B} (conv : E → F) (m : gprog O (result E A))
    (f : A → gprog O (result F B)) : gprog O (result F B) :=
  prog_bind m (λ r, match r with Ok a => f a | Err e => Ret (Err (conv e)) end).

Declare Scope prog_scope.
Delimit Scope prog_scope with prog.
Notation "'let!' x := m 'in' k" := (prog_bind m (λ x, k))
  (at level 200, x name, m at level 100, k at level 200, right associativity) : prog_scope.
Notation "'let?' x := m 'via' f 'in' k" := (try_bind f m (λ x, k))
  (at level 200, x name, m at level 100, f at level 100, k at level 200,
   right associativity) : prog_scope.

(** [for x in l { body(x)?; }]. *)
Fixpoint prog_for_each {O E A} (body : A → gprog O (result E unit)) (l : list A) :
    gprog O (result E unit) :=
  match l with
  | [] => Ret (Ok tt)
  | x :: l' => try_bind id (body x) (λ _, prog_for_each body l')
  end.

(** The same program over a larger signature. *)
Fixpoint prog_map {O O' A} (h : ∀ X, O X → O' X) (p : gprog O A) : gprog O' A :=
  match p with
  | Ret a => Ret a
  | Op o k => Op (h _ o) (λ x, prog_map h (k x))
  end.

(** A program whose operations are programs. *)
Fixpoint prog_interp {O O' A} (h : ∀ X, O X → gprog O' X) (p : gprog O A) : gprog O' A :=
  match p with
  | Ret a => Ret a
  | Op o k => prog_bind (h _ o) (λ x, prog_interp h (k x))
  end.

(** ** Traces *)

(** An operation with its answer. *)
Inductive gevent (O : Type → Type) : Type :=
| GEvent {X : Type} (o : O X) (x : X).
Arguments GEvent {_ _} _ _.

(** What a program did, until its end ([Some]) or until it was stopped. *)
Inductive trace {O A} : gprog O A → list (gevent O) → option A → Prop :=
| trace_stop p : trace p [] None
| trace_ret a : trace (Ret a) [] (Some a)
| trace_op {X} (o : O X) k x evs r : trace (k x) evs r → trace (Op o k) (GEvent o x :: evs) r.

(** Every operation of [p] satisfies [P] of the events before it, the latest
    first, and its result satisfies [Q] of all its events. *)
Fixpoint gtraced {O A} (P : list (gevent O) → ∀ X, O X → Prop) (Q : list (gevent O) → A → Prop)
    (past : list (gevent O)) (p : gprog O A) : Prop :=
  match p with
  | Ret a => Q past a
  | Op o k => P past _ o ∧ ∀ x, gtraced P Q (GEvent o x :: past) (k x)
  end.

Section gtraced.
Context {O : Type → Type} (P : list (gevent O) → ∀ X, O X → Prop).

Lemma gtraced_bind {A B} (R : list (gevent O) → A → Prop) (Q : list (gevent O) → B → Prop)
    (m : gprog O A) (f : A → gprog O B) past :
  gtraced P R past m → (∀ past' a, R past' a → gtraced P Q past' (f a)) →
  gtraced P Q past (prog_bind m f).
Proof.
  intros Hm Hf. revert past Hm. induction m as [a|X o k IH]; intros past Hm; cbn in *; [auto|].
  destruct Hm as [Ho Hk]. split; [done|]. intros x. auto.
Qed.

Lemma gtraced_perform {X A} (Q : list (gevent O) → A → Prop) (o : O X) (f : X → gprog O A) past :
  P past _ o → (∀ x, gtraced P Q (GEvent o x :: past) (f x)) →
  gtraced P Q past (prog_bind (perform o) f).
Proof. by split. Qed.

Lemma gtraced_try {E F A B} (R : list (gevent O) → A → Prop) (Q : list (gevent O) → result F B → Prop)
    (conv : E → F) m (f : A → gprog O (result F B)) past :
  gtraced P (λ past' r, match r with Ok a => R past' a | Err e => Q past' (Err (conv e)) end) past m →
  (∀ past' a, R past' a → gtraced P Q past' (f a)) → gtraced P Q past (try_bind conv m f).
Proof. intros Hm Hf. eapply gtraced_bind; [exact Hm|]. intros past' [a|e]; cbn; auto. Qed.

Lemma gtraced_post {A} (Q Q' : list (gevent O) → A → Prop) (p : gprog O A) past :
  gtraced P Q past p → (∀ past' a, Q past' a → Q' past' a) → gtraced P Q' past p.
Proof.
  intros Hp HQ. revert past Hp. induction p as [a|X o k IH]; intros past Hp; cbn in *; [auto|].
  destruct Hp as [Ho Hk]. split; [done|]. intros x. auto.
Qed.

(** A trace meets what the program guarantees. *)
Lemma trace_gtraced {A} (Q : list (gevent O) → A → Prop) (p : gprog O A) evs r past :
  trace p evs r → gtraced P Q past p →
  (∀ e1 X (o : O X) x e2, evs = (e1 ++ GEvent o x :: e2)%list → P (rev e1 ++ past)%list X o) ∧
  ∀ a, r = Some a → Q (rev evs ++ past)%list a.
Proof.
  intros Ht. revert past. induction Ht as [p|a|Y o k y evs r Ht IH]; intros past Hp.
  - split; [|done]. by intros [] ? ? ? ?.
  - split; [by intros [] ? ? ? ?|]. by intros ? [= <-].
  - destruct Hp as [Ho Hk]. destruct (IH _ (Hk y)) as [IHP IHQ].
    split; [|cbn; intros a Ha; rewrite <- app_assoc; by apply IHQ].
    intros e1 X o' x e2. destruct e1 as [|ev e1]; cbn.
    + intros E. pose proof (f_equal (λ evs, match evs with
        | @GEvent _ Z oz _ :: _ => P past Z oz | [] => True end) E) as EP.
      cbn in EP. by rewrite <- EP.
    + intros [= <- ->]. rewrite <- app_assoc. by eapply IHP.
Qed.
End gtraced.

(** Properties that do not depend on the past. *)
Fixpoint galways {O A} (P : ∀ X, O X → Prop) (Q : A → Prop) (p : gprog O A) : Prop :=
  match p with
  | Ret a => Q a
  | Op o k => P _ o ∧ ∀ x, galways P Q (k x)
  end.

Lemma galways_bind {O A B} (P : ∀ X, O X → Prop) (R : A → Prop) (Q : B → Prop) (m : gprog O A) f :
  galways P R m → (∀ a, R a → galways P Q (f a)) → galways P Q (prog_bind m f).
Proof.
  intros Hm Hf. induction m as [a|X o k IH]; cbn in *; [auto|]. destruct Hm as [Ho Hk].
  split; [done|]. auto.
Qed.
Lemma galways_traced {O A} (P : ∀ X, O X → Prop) (P' : list (gevent O) → ∀ X, O X → Prop)
    (Q : A → Prop) (Q' : list (gevent O) → A → Prop) (p : gprog O A) past :
  (∀ past X o, P X o → P' past X o) → (∀ past a, Q a → Q' past a) → galways P Q p → gtraced P' Q' past p.
Proof.
  intros HP HQ. revert past. induction p as [a|X o k IH]; intros past; cbn; [auto|].
  intros [? ?]. split; auto.
Qed.

(** What a program always does, its traces do. *)
Definition event_does {O} (P : ∀ X, O X → Prop) (e : gevent O) : Prop :=
  match e with @GEvent _ X o _ => P X o end.
Lemma trace_galways {O A} (P : ∀ X, O X → Prop) (Q : A → Prop) (p : gprog O A) evs r :
  trace p evs r → galways P Q p → Forall (event_does P) evs.
Proof. induction 1 as [p|a|X o k x evs r _ IH]; [done..|]. intros [Ho Hk]. constructor; auto. Qed.
Lemma galways_map {O O' A} (P : ∀ X, O' X → Prop) (Q : A → Prop) (h : ∀ X, O X → O' X) (p : gprog O A) :
  (∀ X o, P X (h X o)) → (∀ a, Q a) → galways P Q (prog_map h p).
Proof. intros HP HQ. induction p as [a|X o k IH]; cbn; auto. Qed.
Lemma galways_map_to {O O' A} (P : ∀ X, O' X → Prop) (Q : A → Prop) (h : ∀ X, O X → O' X) (p : gprog O A) :
  galways (λ X o, P X (h X o)) Q p → galways P Q (prog_map h p).
Proof. induction p as [a|X o k IH]; cbn; [done|]. intros [? ?]. split; auto. Qed.

(** A program of harmless operations adds to the past. *)
Lemma galways_suffix {O A} (P : list (gevent O) → ∀ X, O X → Prop) (Q : A → Prop) (p : gprog O A) past :
  galways (λ X o, ∀ past, P past X o) Q p → gtraced P (λ past' a, past `suffix_of` past' ∧ Q a) past p.
Proof.
  intros Hp. assert (∀ past0 past, past0 `suffix_of` past →
    gtraced P (λ past' a, past0 `suffix_of` past' ∧ Q a) past p) as Hg; [|by apply Hg].
  clear past. induction p as [a|X o k IH]; intros past0 past Hs; cbn in *; [auto|].
  destruct Hp as [Ho Hk]. split; [done|]. intros x. apply IH; [done|]. by apply suffix_cons_r.
Qed.
Lemma galways_extends {O A} (P : list (gevent O) → ∀ X, O X → Prop) (Q : A → Prop) (p : gprog O A) past :
  galways (λ X o, ∀ past, P past X o) Q p → gtraced P (λ past' a, past ⊆ past' ∧ Q a) past p.
Proof.
  intros Hp%(galways_suffix P Q p past). eapply gtraced_post; [exact Hp|].
  intros past' a [[later ->] Ha]. split; [set_solver|done].
Qed.

Lemma gtraced_bind_assoc {O A B C} P (Q : list (gevent O) → C → Prop) (m : gprog O A)
    (f : A → gprog O B) (g : B → gprog O C) past :
  gtraced P Q past (prog_bind m (λ a, prog_bind (f a) g)) →
  gtraced P Q past (prog_bind (prog_bind m f) g).
Proof.
  revert past. induction m as [a|X o k IH]; intros past; cbn; [done|].
  intros [Ho Hk]. split; [done|]. intros x. auto.
Qed.

Lemma gtraced_weaken {O A} (P P' : list (gevent O) → ∀ X, O X → Prop) (Q Q' : list (gevent O) → A → Prop)
    (p : gprog O A) past :
  (∀ past X o, P past X o → P' past X o) → (∀ past a, Q past a → Q' past a) →
  gtraced P Q past p → gtraced P' Q' past p.
Proof.
  intros HP HQ. revert past. induction p as [a|X o k IH]; intros past; cbn; [auto|].
  intros [Ho Hk]. split; auto.
Qed.

(** The past only grows. *)
Lemma gtraced_from {O A} (P P' : list (gevent O) → ∀ X, O X → Prop) (Q Q' : list (gevent O) → A → Prop)
    (p : gprog O A) past :
  (∀ past' X o, past ⊆ past' → P past' X o → P' past' X o) →
  (∀ past' a, past ⊆ past' → Q past' a → Q' past' a) →
  gtraced P Q past p → gtraced P' Q' past p.
Proof.
  intros HP HQ Hp. assert (past ⊆ past) as Hs by done. revert Hs Hp. generalize past at 2 3 4.
  induction p as [a|X o k IH]; intros past' Hs; cbn; [auto|]. intros [Ho Hk]. split; [auto|].
  intros x. apply IH; [|done]. set_solver.
Qed.

Lemma gtraced_bind_iff {O A B} P (Q : list (gevent O) → B → Prop) (m : gprog O A) (f : A → gprog O B) past :
  gtraced P Q past (prog_bind m f) ↔ gtraced P (λ past' a, gtraced P Q past' (f a)) past m.
Proof.
  revert past. induction m as [a|X o k IH]; intros past; cbn; [done|].
  split; intros [Ho Hk]; (split; [done|]); intros x; by apply IH.
Qed.
Lemma gtraced_interp_bind {O O' A B} P (R : list (gevent O') → A → Prop) (Q : list (gevent O') → B → Prop)
    (h : ∀ X, O X → gprog O' X) (m : gprog O A) (f : A → gprog O B) past :
  gtraced P R past (prog_interp h m) →
  (∀ past' a, R past' a → gtraced P Q past' (prog_interp h (f a))) →
  gtraced P Q past (prog_interp h (prog_bind m f)).
Proof.
  intros Hm Hf. revert past Hm. induction m as [a|X o k IH]; intros past Hm; cbn in *; [auto|].
  apply gtraced_bind_iff in Hm. apply gtraced_bind_iff. eapply gtraced_post; [exact Hm|].
  intros past' x. cbn. apply IH.
Qed.

(** [gfollow] goes through a program operation by operation, keeping every answer
    in the past. *)
Ltac gfollow_step :=
  lazymatch goal with
  | |- gtraced _ _ _ (Ret _) => cbn [gtraced]; try exact I
  | |- gtraced _ _ _ (Op _ _) => split; [try exact I|intros ?]
  | |- gtraced _ _ _ (perform _) => unfold perform
  | |- gtraced _ _ _ (try_bind _ _ _) => unfold try_bind at 1
  | |- gtraced _ _ _ (prog_bind (Ret _) _) => cbn [prog_bind]
  | |- gtraced _ _ _ (prog_bind (perform _) _) => apply gtraced_perform; [try exact I|intros ?]
  | |- gtraced _ _ _ (prog_bind (try_bind _ _ _) _) => unfold try_bind at 1
  | |- gtraced _ _ _ (prog_bind (Op _ _) _) => split; [try exact I|intros ?]
  | |- gtraced _ _ _ (prog_bind (prog_bind _ _) _) => apply gtraced_bind_assoc
  | |- gtraced _ _ _ (prog_bind (match ?x with _ => _ end) _) => destruct x eqn:?
  | |- gtraced _ _ _ (match ?x with _ => _ end) => destruct x eqn:?
  | |- gtraced _ _ _ (let _ := _ in _) => cbv zeta
  end.
Ltac gfollow := repeat (gfollow_step; cbv beta zeta in *; simplify_eq).
Ltac galways_step :=
  lazymatch goal with
  | |- galways _ _ (Ret _) => cbn [galways]; try exact I
  | |- galways _ _ (Op _ _) => split; [try exact I; try done|intros ?]
  | |- galways _ _ (perform _) => unfold perform
  | |- galways _ _ (try_bind _ _ _) => unfold try_bind at 1
  | |- galways _ _ (prog_bind _ _) => apply (galways_bind _ (λ _, True)); [|intros ? _]
  | |- galways _ _ (match ?x with _ => _ end) => destruct x eqn:?
  | |- galways _ _ (let _ := _ in _) => cbv zeta
  end.

(** ** Equivalence

    Programs that perform the same operations with the same continuations. *)

Inductive prog_equiv {O A} : gprog O A → gprog O A → Prop :=
| equiv_ret a : prog_equiv (Ret a) (Ret a)
| equiv_op {X} (o : O X) k k' : (∀ x, prog_equiv (k x) (k' x)) → prog_equiv (Op o k) (Op o k').
#[global] Instance gprog_equiv {O A} : Equiv (gprog O A) := prog_equiv.

Section equivalence.
Context {O : Type → Type}.

Lemma prog_equiv_inv {A} (p q : gprog O A) :
  p ≡ q →
  match p with
  | Ret a => q = Ret a
  | Op o k => ∃ k', q = Op o k' ∧ ∀ x, k x ≡ k' x
  end.
Proof. destruct 1; eauto. Qed.

#[global] Instance prog_equiv_equivalence A : Equivalence (≡@{gprog O A}).
Proof.
  split.
  - intros p. induction p; by constructor.
  - intros p q Heq. induction Heq; by constructor.
  - intros p q r Heq. revert r. induction Heq as [a|X o k k' _ IH]; intros r Hr.
    + apply prog_equiv_inv in Hr as ->. constructor.
    + apply prog_equiv_inv in Hr as (k'' & -> & Hk). constructor. intros x. by apply IH.
Qed.

#[global] Instance prog_bind_proper {A B} :
  Proper ((≡) ==> pointwise_relation A (≡) ==> (≡)) (@prog_bind O A B).
Proof.
  intros p q Heq f g Hfg. induction Heq as [a|X o k k' _ IH]; cbn; [apply Hfg|]. by constructor.
Qed.

(** Equivalent programs do the same. *)
Lemma trace_inv {A} (p : gprog O A) evs r :
  trace p evs r →
  (evs = [] ∧ r = None) ∨
  match p with
  | Ret a => evs = [] ∧ r = Some a
  | Op o k => ∃ x evs', evs = GEvent o x :: evs' ∧ trace (k x) evs' r
  end.
Proof. destruct 1; eauto 10. Qed.

Lemma trace_equiv {A} (p q : gprog O A) evs r : p ≡ q → trace p evs r → trace q evs r.
Proof.
  intros Heq. revert evs r. induction Heq as [a|X o k k' _ IH]; intros evs r Ht; [done|].
  apply trace_inv in Ht as [[-> ->]|(x & evs' & -> & Ht)]; constructor. by apply IH.
Qed.

(** A trace of a composition. *)
Lemma trace_bind_inv {A B} (m : gprog O A) (f : A → gprog O B) evs r :
  trace (prog_bind m f) evs r →
  (trace m evs None ∧ r = None) ∨
  ∃ e1 e2 a, evs = (e1 ++ e2)%list ∧ trace m e1 (Some a) ∧ trace (f a) e2 r.
Proof.
  revert evs. induction m as [a|X o k IH]; intros evs Ht; cbn in Ht.
  - right. exists [], evs, a. split_and!; [done|constructor|done].
  - apply trace_inv in Ht as [[-> ->]|(x & evs' & -> & Ht)]; [left; split; [constructor|done]|].
    apply IH in Ht as [[Ht ->]|(e1 & e2 & a & -> & Hm & Hf)].
    + left. split; [by constructor|done].
    + right. exists (GEvent o x :: e1), e2, a. split_and!; [done|by constructor|done].
Qed.
End equivalence.

Definition event_map {O O' : Type → Type} (h : ∀ X, O X → O' X) (e : gevent O) : gevent O' :=
  match e with GEvent o x => GEvent (h _ o) x end.

Lemma trace_map_inv {O O' A} (h : ∀ X, O X → O' X) (p : gprog O A) evs r :
  trace (prog_map h p) evs r → ∃ evs', evs = map (event_map h) evs' ∧ trace p evs' r.
Proof.
  revert evs. induction p as [a|X o k IH]; intros evs Ht; cbn in Ht.
  - exists []. apply trace_inv in Ht as [[-> ->]|[-> ->]]; split; done || constructor.
  - apply trace_inv in Ht as [[-> ->]|(x & evs' & -> & Ht)]; [exists []; split; [done|constructor]|].
    apply IH in Ht as (evs'' & -> & Ht). exists (GEvent o x :: evs''). split; [done|by constructor].
Qed.

(** ** Evaluation *)

(** The run in which [respond] answers; it is stopped where there is no answer. *)
Fixpoint replay {O A} (respond : ∀ X, O X → option X) (p : gprog O A) : list (gevent O) * option A :=
  match p with
  | Ret a => ([], Some a)
  | Op o k =>
      match respond _ o with
      | Some x => let '(evs, r) := replay respond (k x) in (GEvent o x :: evs, r)
      | None => ([], None)
      end
  end.

Lemma replay_trace {O A} (respond : ∀ X, O X → option X) (p : gprog O A) :
  trace p (replay respond p).1 (replay respond p).2.
Proof.
  induction p as [a|X o k IH]; [constructor|]. cbn. destruct (respond X o) as [x|]; [|constructor].
  specialize (IH x). destruct (replay respond (k x)) as [evs r]. by constructor.
Qed.

(** The same, with answers that depend on the state of the surroundings. *)
Fixpoint replay_with {O A S} (respond : S → ∀ X, O X → option (X * S)) (s : S) (p : gprog O A) :
    list (gevent O) * option A :=
  match p with
  | Ret a => ([], Some a)
  | Op o k =>
      match respond s _ o with
      | Some (x, s') => let '(evs, r) := replay_with respond s' (k x) in (GEvent o x :: evs, r)
      | None => ([], None)
      end
  end.

Lemma replay_with_trace {O A S} (respond : S → ∀ X, O X → option (X * S)) s (p : gprog O A) :
  trace p (replay_with respond s p).1 (replay_with respond s p).2.
Proof.
  revert s. induction p as [a|X o k IH]; intros s; [constructor|]. cbn.
  destruct (respond s X o) as [[x s']|]; [|constructor].
  specialize (IH x s'). destruct (replay_with respond s' (k x)) as [evs r]. by constructor.
Qed.

Lemma trace_try_inv {O E F A B} (conv : E → F) (m : gprog O (result E A)) (f : A → gprog O (result F B)) evs r :
  trace (try_bind conv m f) evs (Some r) →
  (∃ e, trace m evs (Some (Err e)) ∧ r = Err (conv e)) ∨
  ∃ e1 e2 a, evs = (e1 ++ e2)%list ∧ trace m e1 (Some (Ok a)) ∧ trace (f a) e2 (Some r).
Proof.
  intros [[_ ?]|(e1 & e2 & [a|e] & -> & Hm & Hf)]%trace_bind_inv; [done|right; eauto 10|].
  apply trace_inv in Hf as [[_ ?]|[-> [= ->]]]; [done|]. left. rewrite app_nil_r. eauto.
Qed.
Lemma trace_try_ok {O E F A B} (conv : E → F) (m : gprog O (result E A)) (f : A → gprog O (result F B)) evs b :
  trace (try_bind conv m f) evs (Some (Ok b)) →
  ∃ e1 e2 a, evs = (e1 ++ e2)%list ∧ trace m e1 (Some (Ok a)) ∧ trace (f a) e2 (Some (Ok b)).
Proof. intros [(e & _ & ?)|Ht]%trace_try_inv; done. Qed.
Lemma trace_perform {O X} (o : O X) evs x : trace (perform o) evs (Some x) → evs = [GEvent o x].
Proof.
  intros [[_ ?]|(y & evs' & -> & Ht)]%trace_inv; [done|].
  by apply trace_inv in Ht as [[_ ?]|[-> [= ->]]].
Qed.
Lemma trace_ret_inv {O A} (a b : A) (evs : list (gevent O)) :
  trace (Ret a) evs (Some b) → evs = [] ∧ b = a.
Proof. by intros [[_ ?]|[-> [= ->]]]%trace_inv. Qed.
