(* ===== verification/JsonRpc.v ===== *)
(** JSON-RPC messages (crates/mcserver-protocol/src/json_rpc.rs): values,
    requests with their optional id, responses and error objects.

    [serde_json::Value] is [json]; an object is the list of its entries in the
    order of its map. A number is an integer or the text of a float. *)
From S2P Require Import Prelude Text.
#[local] Open Scope string_scope.
#[local] Open Scope Z_scope.

Inductive json_number := JInt (n : Z) | JFloat (text : string).

#[global] Instance json_number_eq_dec : EqDecision json_number.
Proof. solve_decision. Defined.

Inductive json :=
| JNull
| JBool (b : bool)
| JNumber (n : json_number)
| JString (s : string)
| JArray (l : list json)
| JObject (fields : list (string * json)).

#[global] Instance json_eq_dec : EqDecision json.
Proof.
  refine (fix go (x y : json) : Decision (x = y) :=
    match x, y return Decision (x = y) with
    | JNull, JNull => left eq_refl
    | JBool b, JBool b' => cast_if (decide (b = b'))
    | JNumber n, JNumber n' => cast_if (decide (n = n'))
    | JString s, JString s' => cast_if (decide (s = s'))
    | JArray l, JArray l' => cast_if (@decide (l = l') (@list_eq_dec _ go l l'))
    | JObject f, JObject f' =>
        cast_if (@decide (f = f') (@list_eq_dec _ (@prod_eq_dec _ _ _ go) f f'))
    | _, _ => right _
    end); clear go; congruence.
Defined.

(** [value.get(key)] and [Value::as_str]. *)
Definition json_get (key : string) (v : json) : option json :=
  match v with
  | JObject fields => snd <$> List.find (λ '(k, _), String.eqb key k) fields
  | _ => None
  end.
Definition json_as_str (v : json) : option string :=
  match v with JString s => Some s | _ => None end.

Definition VERSION : string := "2.0".

(** ** Requests *)

Module RI.
(** [RequestId]. *)
Inductive RequestId := Missing | Present (value : json).
End RI.
Abbreviation RequestId := RI.RequestId.

Record Request := {
  req_jsonrpc : string;
  req_method : string;
  req_params : json;
  req_id : RequestId;
}.

Definition is_notification (id : RequestId) : bool :=
  match id with RI.Missing => true | RI.Present _ => false end.

Definition response_id (id : RequestId) : option json :=
  match id with RI.Missing => None | RI.Present value => Some value end.

Definition id_is_valid (id : RequestId) : bool :=
  match id with
  | RI.Missing | RI.Present (JNull | JNumber _ | JString _) => true
  | _ => false
  end.

(** [matches!(&request.params, Value::Null | Value::Array(_) | Value::Object(_))]. *)
Definition params_are_structured (params : json) : bool :=
  match params with JNull | JArray _ | JObject _ => true | _ => false end.

(** [json!({"jsonrpc": .., "method": .., "params": .., "id": ..})]: entries in the
    order of their keys. *)
Definition request_object (method : string) (params id : json) : json :=
  JObject [("id", id); ("jsonrpc", JString VERSION); ("method", JString method); ("params", params)].

(** ** Responses *)

Record ErrorObject := {
  err_code : Z;
  err_message : string;
  err_data : option json;
}.

Definition ErrorObject_new (code : Z) (message : string) : ErrorObject :=
  {| err_code := code; err_message := message; err_data := None |}.
Definition with_data (e : ErrorObject) (data : json) : ErrorObject :=
  {| err_code := err_code e; err_message := err_message e; err_data := Some data |}.

(** [json!({ "detail": detail })]. *)
Definition detail (text : string) : json := JObject [("detail", JString text)].

Record Response := {
  resp_jsonrpc : string;
  resp_result : option json;
  resp_error : option ErrorObject;
  resp_id : json;
}.

Definition Response_success (id result : json) : Response :=
  {| resp_jsonrpc := VERSION; resp_result := Some result; resp_error := None; resp_id := id |}.
Definition Response_error (id : json) (error : ErrorObject) : Response :=
  {| resp_jsonrpc := VERSION; resp_result := None; resp_error := Some error; resp_id := id |}.

Definition PARSE_ERROR : Z := -32700.
Definition INVALID_REQUEST : Z := -32600.
Definition METHOD_NOT_FOUND : Z := -32601.
Definition INVALID_PARAMS : Z := -32602.
Definition INTERNAL_ERROR : Z := -32603.
Definition CONFLICT : Z := -32001.
Definition NOT_FOUND : Z := -32004.

(** [require_no_params] of the two dispatchers. *)
Definition require_no_params {E} (invalid : string → E) (params : json) : result E unit :=
  match params with
  | JNull | JArray [] | JObject [] => Ok tt
  | _ => Err (invalid "this method does not accept params")
  end.
