(* ===== verification/Framing.v ===== *)
(** Frames of the wire protocols: a message is a line. The control plane's agent
    listener (agent/server.rs), its client socket (interface/unix_socket.rs) and
    the node agent (mcserver-node-agent/src/transport.rs) read lines with the
    same code.

    A [BufRead] is the list of what [fill_buf] will give: a chunk of bytes or an
    error; its end, or an empty chunk, is the end of the stream. The theorem that
    matters compares the reader with splitting the whole stream at the first
    newline. *)
From S2P Require Import Prelude Text JsonRpc.
#[local] Open Scope Z_scope.

Abbreviation bytes := (list Ascii.ascii).

Definition NEWLINE : Ascii.ascii := Ascii.ascii_of_nat 10.
Definition CARRIAGE_RETURN : Ascii.ascii := Ascii.ascii_of_nat 13.

Definition usize_saturating_add (a b : Z) : Z := Z.min (a + b) u64_max.

Inductive fill := Chunk (available : bytes) | FillError (error : io_error).

(** [available.iter().position(|byte| *byte == b'\n')]. *)
Fixpoint position_newline (available : bytes) : option nat :=
  match available with
  | [] => None
  | c :: rest => if Ascii.eqb c NEWLINE then Some 0%nat else S <$> position_newline rest
  end.

(** What is left in the buffer after [consume]. *)
Definition unread (rest : bytes) (reader : list fill) : list fill :=
  match rest with [] => reader | _ => Chunk rest :: reader end.

Section read_frame.
Context {E : Type} (from_io : io_error → E) (frame_too_large : Z → Z → E).

(** The [loop] of [read_frame]: its answer, the frame read so far and the
    reader. *)
Fixpoint read_frame_loop (reader : list fill) (frame : bytes) (maximum : Z) :
    result E Z * bytes * list fill :=
  match reader with
  | [] | Chunk [] :: _ => (Ok (Z.of_nat (length frame)), frame, reader)
  | FillError error :: reader' => (Err (from_io error), frame, reader')
  | Chunk available :: reader' =>
      let newline := position_newline available in
      let consumed := from_option S (length available) newline in
      let actual := usize_saturating_add (Z.of_nat (length frame)) (Z.of_nat consumed) in
      if maximum <? actual then (Err (frame_too_large actual maximum), frame, reader)
      else
        let frame := (frame ++ take consumed available)%list in
        match newline with
        | Some _ =>
            (Ok (Z.of_nat (length frame)), frame, unread (drop consumed available) reader')
        | None => read_frame_loop reader' frame maximum
        end
  end.

(** [frame.clear()] and the loop. *)
Definition read_frame (reader : list fill) (maximum : Z) : result E Z * bytes * list fill :=
  read_frame_loop reader [] maximum.
End read_frame.

(** [frame.strip_suffix(b"\n")] and [strip_suffix(b"\r")]. *)
Definition strip_last (c : Ascii.ascii) (frame : bytes) : bytes :=
  match last frame with
  | Some d => if Ascii.eqb d c then removelast frame else frame
  | None => frame
  end.
Definition trim_line_ending (frame : bytes) : bytes :=
  strip_last CARRIAGE_RETURN (strip_last NEWLINE frame).

(** ** Splitting the whole stream *)

(** The bytes a reader holds up to its end or its first error, and that error. *)
Fixpoint stream_bytes (reader : list fill) : bytes :=
  match reader with
  | [] | Chunk [] :: _ | FillError _ :: _ => []
  | Chunk available :: reader' => (available ++ stream_bytes reader')%list
  end.
Fixpoint stream_error (reader : list fill) : option io_error :=
  match reader with
  | [] | Chunk [] :: _ => None
  | FillError error :: _ => Some error
  | Chunk available :: reader' => stream_error reader'
  end.

(** The reference: the first line with its newline, and what follows. *)
Fixpoint first_line (s : bytes) : bytes * bytes :=
  match s with
  | [] => ([], [])
  | c :: s' =>
      if Ascii.eqb c NEWLINE then ([c], s')
      else let '(line, rest) := first_line s' in (c :: line, rest)
  end.

Lemma first_line_app s : ((first_line s).1 ++ (first_line s).2)%list = s.
Proof.
  induction s as [|c s IH]; [done|]. cbn. destruct (Ascii.eqb c NEWLINE); [done|].
  destruct (first_line s). cbn in *. by rewrite IH.
Qed.

(** One chunk of the stream. *)
Lemma first_line_chunk c s :
  first_line (c ++ s)%list =
  match position_newline c with
  | Some n => (take (S n) c, (drop (S n) c ++ s)%list)
  | None => ((c ++ (first_line s).1)%list, (first_line s).2)
  end.
Proof.
  induction c as [|a c IH]; cbn; [by destruct (first_line s)|].
  destruct (Ascii.eqb a NEWLINE) eqn:Ha; [done|]. rewrite IH.
  destruct (position_newline c); cbn; [done|]. by destruct (first_line s).
Qed.

Lemma position_newline_lt c n : position_newline c = Some n → (n < length c)%nat.
Proof.
  revert n. induction c as [|a c IH]; intros n; cbn; [done|].
  destruct (Ascii.eqb a NEWLINE); [intros [= <-]; lia|].
  destruct (position_newline c) eqn:E; cbn; [|done]. intros [= <-]. specialize (IH _ eq_refl). lia.
Qed.

Lemma stream_unread r reader :
  stream_bytes (unread r reader) = (r ++ stream_bytes reader)%list ∧
  stream_error (unread r reader) = stream_error reader.
Proof. by destruct r. Qed.

(** What reading the first line of a stream gives, when [frame] was read before:
    the answer, the frame and what is left. *)
Definition line_read {E} (from_io : io_error → E) (frame_too_large : Z → Z → E)
    (frame : bytes) (maximum : Z) (s : bytes) (error : option io_error)
    (r : result E Z) (frame' : bytes) (reader' : list fill) : Prop :=
  let '(line, rest) := first_line s in
  let total := Z.of_nat (length frame + length line) in
  if maximum <? total then
    ∃ actual, r = Err (frame_too_large actual maximum) ∧ maximum < actual ≤ total
  else match position_newline s, error with
  | None, Some e => r = Err (from_io e)
  | _, _ => r = Ok total ∧ frame' = (frame ++ line)%list ∧ stream_bytes reader' = rest ∧
            stream_error reader' = error
  end.

Section reader.
Context {E : Type} (from_io : io_error → E) (frame_too_large : Z → Z → E).

Lemma position_newline_app c s :
  position_newline (c ++ s)%list =
  match position_newline c with
  | Some n => Some n
  | None => Nat.add (length c) <$> position_newline s
  end.
Proof.
  induction c as [|a c IH]; cbn; [by destruct (position_newline s)|].
  destruct (Ascii.eqb a NEWLINE); [done|]. rewrite IH.
  by destruct (position_newline c), (position_newline s).
Qed.

(** The reader agrees with the reference, however the stream is cut into
    chunks. *)
Lemma read_frame_loop_spec reader frame maximum :
  Z.of_nat (length frame) ≤ maximum < u64_max →
  let '(r, frame', reader') := read_frame_loop from_io frame_too_large reader frame maximum in
  line_read from_io frame_too_large frame maximum (stream_bytes reader) (stream_error reader)
    r frame' reader'.
Proof.
  revert frame. induction reader as [|[[|a c]|e] reader IH]; intros frame Hm.
  1,2,4: unfold line_read; cbn; rewrite ?app_nil_r, Nat.add_0_r;
    destruct (Z.ltb_spec maximum (Z.of_nat (length frame))); [lia|done].
  cbn [read_frame_loop stream_bytes stream_error].
  set (avail := a :: c) in *. unfold line_read. rewrite first_line_chunk, position_newline_app.
  unfold usize_saturating_add.
  destruct (position_newline avail) as [n|] eqn:En; cbn [from_option].
  - pose proof (position_newline_lt _ _ En) as Hn.
    assert (length (take (S n) avail) = S n) as Hl by (rewrite length_take; lia).
    rewrite Hl. destruct (Z.ltb_spec maximum (Z.min (Z.of_nat (length frame) + Z.of_nat (S n)) u64_max));
      (destruct (Z.ltb_spec maximum (Z.of_nat (length frame + S n))); [|lia || idtac]).
    + eexists. split; [done|]. lia.
    + exfalso. lia.
    + rewrite length_app, Hl. split_and!; [done|done|apply stream_unread..].
  - destruct (Z.ltb_spec maximum (Z.min (Z.of_nat (length frame) + Z.of_nat (length avail)) u64_max)).
    { rewrite length_app. destruct (Z.ltb_spec maximum
        (Z.of_nat (length frame + (length avail + length (first_line (stream_bytes reader)).1)))); [|lia].
      eexists. split; [done|]. lia. }
    rewrite take_ge by lia. specialize (IH (frame ++ avail)%list).
    destruct (read_frame_loop from_io frame_too_large reader (frame ++ avail) maximum)
      as [[r frame'] reader'].
    specialize (IH ltac:(rewrite length_app; lia)). unfold line_read in IH.
    destruct (first_line (stream_bytes reader)) as [line rest]. cbn [fst snd].
    rewrite !length_app in *. rewrite Nat.add_assoc. rewrite <- app_assoc in IH.
    by destruct (position_newline (stream_bytes reader)).
Qed.
End reader.

(** ** Messages *)

(** Text of JSON values, made by the crate [serde_json]. *)
Class JsonText := {
  to_vec : json → result string bytes;
  from_slice : bytes → result string json;
}.

(** Documented behaviour: compact text parses back to the value, is UTF-8, is never
    empty and has no line breaks, since control characters are escaped in strings. *)
Class JsonTextLaws `{JsonText} : Prop := {
  json_text_round_trip v text : to_vec v = Ok text → from_slice text = Ok v;
  json_text_one_line v text :
    to_vec v = Ok text → text ≠ [] ∧ NEWLINE ∉ text ∧ CARRIAGE_RETURN ∉ text;
  json_text_utf8 v text :
    to_vec v = Ok text → utf8_valid (String.string_of_list_ascii text) = true;
}.

(** Values of a type as JSON, by the crates [serde] and [serde_json]. *)
Class Serialize (A : Type) := to_value : A → result string json.
Class Deserialize (A : Type) := from_value : json → result string A.

(** Documented behaviour of the derived implementations. *)
Class SerdeLaws (A : Type) `{Serialize A} `{Deserialize A} : Prop :=
  serde_round_trip (a : A) v : to_value a = Ok v → from_value v = Ok a.

Section values.
Context `{JsonTextLaws} {E : Type} (from_io : io_error → E) (frame_too_large : Z → Z → E).
Context (serialization : string → E) (disconnected : E).

(** [read_value]. *)
Definition read_value (reader : list fill) (maximum : Z) : result E json * list fill :=
  let '(read, frame, reader) := read_frame from_io frame_too_large reader maximum in
  match read with
  | Err error => (Err error, reader)
  | Ok read =>
      if read =? 0 then (Err disconnected, reader)
      else (map_err serialization (from_slice (trim_line_ending frame)), reader)
  end.

(** What [write_value] writes. *)
Definition write_value (value : json) : result E bytes :=
  text ← map_err serialization (to_vec value);
  Ok (text ++ [NEWLINE])%list.

(** Values written one after another, and read one after another until the
    first failure. *)
Fixpoint write_values (values : list json) : result E bytes :=
  match values with
  | [] => Ok []
  | value :: values =>
      line ← write_value value;
      rest ← write_values values;
      Ok (line ++ rest)%list
  end.
Fixpoint read_values (n : nat) (reader : list fill) (maximum : Z) : list (result E json) :=
  match n with
  | 0%nat => []
  | S n =>
      let '(read, reader) := read_value reader maximum in
      read :: match read with Ok _ => read_values n reader maximum | Err _ => [] end
  end.

Lemma first_line_of text rest :
  NEWLINE ∉ text → first_line ((text ++ [NEWLINE]) ++ rest)%list = ((text ++ [NEWLINE])%list, rest).
Proof.
  induction text as [|c text IH]; cbn; [done|]. intros Hn.
  apply not_elem_of_cons in Hn as [Hc Hn]. destruct (Ascii.eqb_spec c NEWLINE); [done|].
  by rewrite IH.
Qed.

Lemma position_of_line text rest :
  NEWLINE ∉ text → position_newline ((text ++ [NEWLINE]) ++ rest)%list = Some (length text).
Proof.
  induction text as [|c text IH]; cbn; [done|]. intros Hn.
  apply not_elem_of_cons in Hn as [Hc Hn]. destruct (Ascii.eqb_spec c NEWLINE); [done|].
  by rewrite IH.
Qed.

Lemma trim_line_ending_of text :
  CARRIAGE_RETURN ∉ text → trim_line_ending (text ++ [NEWLINE])%list = text.
Proof.
  intros Hc. unfold trim_line_ending. unfold strip_last at 2.
  rewrite last_snoc, Ascii.eqb_refl, removelast_last. unfold strip_last.
  destruct (last text) as [d|] eqn:Hl; [|done].
  destruct (Ascii.eqb_spec d CARRIAGE_RETURN) as [->|]; [|done].
  destruct Hc. apply last_Some in Hl as [l ->]. set_solver.
Qed.

(** A line that was written is the next frame. *)
Lemma read_frame_of value text rest reader maximum :
  to_vec value = Ok text → Z.of_nat (length (text ++ [NEWLINE])) ≤ maximum < u64_max →
  stream_bytes reader = ((text ++ [NEWLINE]) ++ rest)%list →
  ∃ reader', read_frame from_io frame_too_large reader maximum =
      (Ok (Z.of_nat (length (text ++ [NEWLINE]))), (text ++ [NEWLINE])%list, reader') ∧
    stream_bytes reader' = rest ∧ stream_error reader' = stream_error reader ∧
    trim_line_ending (text ++ [NEWLINE])%list = text.
Proof.
  intros Ht Hm Hs. pose proof (json_text_one_line _ _ Ht) as (Hne & Hn & Hc).
  pose proof (read_frame_loop_spec from_io frame_too_large reader [] maximum) as Hf.
  unfold read_frame.
  destruct (read_frame_loop from_io frame_too_large reader [] maximum) as [[r frame] reader'].
  specialize (Hf ltac:(cbn; lia)). unfold line_read in Hf.
  rewrite Hs, first_line_of, position_of_line in Hf by done. cbn [length Nat.add app] in Hf.
  destruct (Z.ltb_spec maximum (Z.of_nat (length (text ++ [NEWLINE])))); [lia|].
  destruct Hf as (-> & -> & Hr' & He'). exists reader'. by rewrite trim_line_ending_of.
Qed.

Lemma read_value_of value line rest reader maximum :
  write_value value = Ok line → Z.of_nat (length line) ≤ maximum < u64_max →
  stream_bytes reader = (line ++ rest)%list →
  ∃ reader', read_value reader maximum = (Ok value, reader') ∧ stream_bytes reader' = rest ∧
    stream_error reader' = stream_error reader.
Proof.
  unfold write_value. intros Hw Hm Hs.
  destruct (to_vec value) as [text|] eqn:Ht; [|done]. injection Hw as <-.
  destruct (read_frame_of _ _ _ _ _ Ht Hm Hs) as (reader' & Hf & Hr & He & Hl).
  exists reader'. split; [|done]. unfold read_value. rewrite Hf, Hl, length_app. cbn [length].
  destruct (Z.eqb_spec (Z.of_nat (length text + 1)) 0); [lia|].
  by rewrite (json_text_round_trip _ _ Ht).
Qed.

Lemma read_values_of values written reader maximum :
  write_values values = Ok written →
  Forall (λ v, ∀ line, write_value v = Ok line → Z.of_nat (length line) ≤ maximum) values →
  0 ≤ maximum < u64_max → stream_bytes reader = written →
  read_values (S (length values)) reader maximum =
    ((Ok <$> values) ++ [Err (from_option from_io disconnected (stream_error reader))])%list.
Proof.
  intros Hw Hl Hm. revert written reader Hw. induction Hl as [|v values Hv Hl IH];
    intros written reader Hw Hs.
  - injection Hw as <-. by destruct reader as [|[[|]|] reader].
  - cbn [write_values] in Hw. inv_res.
    match goal with H : write_value v = Ok ?line |- _ =>
      destruct (read_value_of v line _ reader maximum H ltac:(split; [by apply Hv|lia]) Hs)
        as (reader' & Hrd & Hs' & He') end.
    change (read_values (S (length (v :: values))) reader maximum)
      with (let '(read, reader) := read_value reader maximum in
            read :: match read with
                    | Ok _ => read_values (S (length values)) reader maximum
                    | Err _ => [] end).
    rewrite Hrd, <- He'. cbn [fmap list_fmap app]. f_equal. by eapply IH.
Qed.
End values.
