(* ===== verification/Server.v ===== *)
(** The [Server] aggregate of the control plane
    (crates/mcserver-control-plane/src/domain/server.rs and domain/time.rs):
    timestamps, server names, the specification and its validation, resolution
    of a desired specification, and the four operations of a server
    ([new], [set_desired_state], [update_spec], [archive]) with [rehydrate].

    Mutation through [&mut self] is state passing: an operation returns its
    [Result] together with the server as it is left behind, also on the error
    paths, where the code may already have assigned some fields. *)
From S2P Require Import Prelude Text.
#[local] Open Scope string_scope.
#[local] Open Scope Z_scope.

(** ** Time *)

Module TE.
(** [TimestampError]. *)
Inductive TimestampError :=
| BeforeUnixEpoch
| OutOfRange
| SystemTime.
End TE.

Abbreviation TimestampError := TE.TimestampError.

#[global] Instance TimestampError_eq_dec : EqDecision TimestampError.
Proof. solve_decision. Defined.

(** [UnixTimestampMillis::from_millis]; a timestamp is its [i64] payload. *)
Definition UnixTimestampMillis_from_millis (value : Z) : result TimestampError Z :=
  if value <? 0 then Err TE.BeforeUnixEpoch else Ok value.

(** [SystemClock::now]: [elapsed] is [SystemTime::now().duration_since(UNIX_EPOCH)]
    in milliseconds ([u128]), [None] when the system clock is before the epoch. *)
Definition SystemClock_now (elapsed : option Z) : result TimestampError Z :=
  elapsed ← ok_or TE.SystemTime elapsed;
  milliseconds ← ok_or TE.OutOfRange (i64_try_from elapsed);
  UnixTimestampMillis_from_millis milliseconds.

(** ** Identifiers *)

(** A [Uuid] is a 128-bit number; the three id types are newtypes of it. *)
Abbreviation Uuid := N (only parsing).
Abbreviation ServerId := Uuid (only parsing).
Abbreviation ServerInstanceId := Uuid (only parsing).
Abbreviation ComputeInstanceId := Uuid (only parsing).

(** ** Errors *)

Module VE.
(** [ValidationError]. *)
Inductive ValidationError :=
| BlankField (field : string)
| FieldTooLong (field : string) (maximum : Z)
| ControlCharacter (field : string)
| InvalidServerName (value : string)
| NulByte (field : string)
| ZeroValue (field : string)
| EulaNotAccepted
| TooManyEnvironmentVariables (maximum : Z)
| InvalidEnvironmentKey (key : string)
| ReservedEnvironmentKey (key : string)
| ZeroGeneration
| GenerationOverflow
| ServerMustBeStopped
| ArchivedServerMustBeStopped
| ServerArchived
| DataBackendImmutable
| DataRepositoryImmutable
| R2Unavailable
| InvalidTimestampOrder
| InvalidPersistedValue (field value : string)
| InvalidComputeIdentifier (field value : string).
End VE.
Abbreviation ValidationError := VE.ValidationError.

#[global] Instance ValidationError_eq_dec : EqDecision ValidationError.
Proof. solve_decision. Defined.

(** ** Limits *)

Definition RESERVED_ENVIRONMENT_KEYS : list string :=
  ["EULA"; "TYPE"; "VERSION"; "SKIP_SERVER_PROPERTIES"].
Definition MAX_CONTAINER_IMAGE_CHARS : Z := 512.
Definition MAX_SERVER_TYPE_CHARS : Z := 128.
Definition MAX_VERSION_CHARS : Z := 128.
Definition MAX_REPOSITORY_CHARS : Z := 4096.
Definition MAX_ENVIRONMENT_ENTRIES : Z := 128.
Definition MAX_ENVIRONMENT_KEY_CHARS : Z := 128.
Definition MAX_ENVIRONMENT_VALUE_CHARS : Z := 8192.
Definition MAX_SNAPSHOT_ID_CHARS : Z := 256.
Definition MAX_AKAMAI_REGION_CHARS : Z := 64.
Definition MAX_AKAMAI_TYPE_CHARS : Z := 128.
Definition MAX_AKAMAI_IMAGE_CHARS : Z := 256.
Definition MAX_SERVER_NAME_CHARS : Z := 63.

(** ** Field checks shared by the validators *)

Definition require_non_blank (field value : string) : result ValidationError unit :=
  err_if (str_is_blank value) (VE.BlankField field).

Definition require_maximum_length (field value : string) (maximum : Z) :
    result ValidationError unit :=
  err_if (maximum <? str_char_count value) (VE.FieldTooLong field maximum).

Definition reject_nul (field value : string) : result ValidationError unit :=
  err_if (str_contains_nul value) (VE.NulByte field).

Definition is_valid_environment_key (value : string) : bool :=
  match value with
  | EmptyString => false
  | String first rest =>
      (byte_is "_" first || is_ascii_alphabetic first)
      && bytes_all (λ byte, byte_is "_" byte || is_ascii_alphanumeric byte) rest
  end.

(** ** Server names *)

(** [ServerName::new]; a name is its string. *)
Definition label_byte (byte : Ascii.ascii) : bool :=
  is_ascii_lowercase byte || is_ascii_digit byte.
Definition ServerName_new (value : string) : result ValidationError string :=
  _ ← err_if (str_is_empty value) (VE.BlankField "name");
  _ ← err_if (MAX_SERVER_NAME_CHARS <? str_len value)
        (VE.FieldTooLong "name" MAX_SERVER_NAME_CHARS);
  _ ← err_if
        (negb (from_option label_byte false (str_first_byte value))
         || negb (from_option label_byte false (str_last_byte value))
         || negb (bytes_all (λ byte, label_byte byte || byte_is "-" byte) value))
        (VE.InvalidServerName value);
  Ok value.

(** ** Desired state *)

Module DS.
(** [DesiredState]. *)
Inductive DesiredState := Running | Stopped.
End DS.
Abbreviation DesiredState := DS.DesiredState.

#[global] Instance DesiredState_eq_dec : EqDecision DesiredState.
Proof. solve_decision. Defined.

Definition DesiredState_as_str (s : DesiredState) : string :=
  match s with DS.Running => "running" | DS.Stopped => "stopped" end.

Definition DesiredState_parse (value : string) : result ValidationError DesiredState :=
  if String.eqb value "running" then Ok DS.Running
  else if String.eqb value "stopped" then Ok DS.Stopped
  else Err (VE.InvalidPersistedValue "desired_state" value).

(** ** Specifications *)

Module CS.
(** [ComputeSpec]. *)
Inductive ComputeSpec :=
| Local
| Akamai (region instance_type image : string) (firewall_id : Z).
End CS.
Abbreviation ComputeSpec := CS.ComputeSpec.

#[global] Instance ComputeSpec_eq_dec : EqDecision ComputeSpec.
Proof. solve_decision. Defined.

(** [ProcessSpec]; the [BTreeMap] environment is the list of its entries in
    key order, which is the order the code iterates in. *)
Record ProcessSpec := {
  container_image : string;
  server_type : string;
  version : string;
  host_port : Z;
  stop_timeout_seconds : Z;
  accept_eula : bool;
  environment : list (string * string);
}.

#[global] Instance ProcessSpec_eq_dec : EqDecision ProcessSpec.
Proof. solve_decision. Defined.

Module DDS.
(** [DesiredDataSpec]. *)
Inductive DesiredDataSpec := LocalRestic (repository : string) | R2Restic.
End DDS.
Abbreviation DesiredDataSpec := DDS.DesiredDataSpec.

Module DB.
(** [DataBackend]. *)
Inductive DataBackend := LocalRestic | R2Restic.
End DB.
Abbreviation DataBackend := DB.DataBackend.

#[global] Instance DataBackend_eq_dec : EqDecision DataBackend.
Proof. solve_decision. Defined.

Record DataSpec := { backend : DataBackend; repository : string }.

#[global] Instance DataSpec_eq_dec : EqDecision DataSpec.
Proof. solve_decision. Defined.

Record DesiredServerSpec := {
  desired_compute : ComputeSpec;
  desired_process : ProcessSpec;
  desired_data : DesiredDataSpec;
}.

Record ServerSpec := {
  spec_compute : ComputeSpec;
  spec_process : ProcessSpec;
  spec_data : DataSpec;
}.

#[global] Instance ServerSpec_eq_dec : EqDecision ServerSpec.
Proof. solve_decision. Defined.

(** One round of the loop of [ComputeSpec::validate]. *)
Definition validate_compute_field '((field, value, maximum) : string * string * Z) :
    result ValidationError unit :=
  _ ← require_non_blank field value;
  _ ← require_maximum_length field value maximum;
  _ ← reject_nul field value;
  err_if (negb (bytes_all (λ byte, is_ascii_alphanumeric byte || byte_among "-_/." byte) value))
    (VE.InvalidComputeIdentifier field value).

Definition ComputeSpec_validate (spec : ComputeSpec) : result ValidationError unit :=
  match spec with
  | CS.Local => Ok tt
  | CS.Akamai region instance_type image firewall_id =>
      _ ← for_each validate_compute_field
            [("compute.region", region, MAX_AKAMAI_REGION_CHARS);
             ("compute.instance_type", instance_type, MAX_AKAMAI_TYPE_CHARS);
             ("compute.image", image, MAX_AKAMAI_IMAGE_CHARS)];
      err_if (firewall_id =? 0) (VE.ZeroValue "compute.firewall_id")
  end.

(** One round of the first loop of [ServerSpec::validate]. *)
Definition validate_text_field '((field, value, maximum) : string * string * Z) :
    result ValidationError unit :=
  _ ← require_non_blank field value;
  _ ← require_maximum_length field value maximum;
  reject_nul field value.

(** One round of its loop over the environment. *)
Definition validate_environment_entry '((key, value) : string * string) :
    result ValidationError unit :=
  _ ← require_non_blank "process.environment key" key;
  _ ← require_maximum_length "process.environment key" key MAX_ENVIRONMENT_KEY_CHARS;
  _ ← require_maximum_length "process.environment value" value MAX_ENVIRONMENT_VALUE_CHARS;
  _ ← reject_nul "process.environment key" key;
  _ ← reject_nul "process.environment value" value;
  _ ← err_if (negb (is_valid_environment_key key)) (VE.InvalidEnvironmentKey key);
  err_if (existsb (String.eqb key) RESERVED_ENVIRONMENT_KEYS) (VE.ReservedEnvironmentKey key).

Definition ServerSpec_validate (spec : ServerSpec) : result ValidationError unit :=
  let process := spec_process spec in
  _ ← ComputeSpec_validate (spec_compute spec);
  _ ← for_each validate_text_field
        [("process.container_image", container_image process, MAX_CONTAINER_IMAGE_CHARS);
         ("process.server_type", server_type process, MAX_SERVER_TYPE_CHARS);
         ("process.version", version process, MAX_VERSION_CHARS);
         ("data.repository", repository (spec_data spec), MAX_REPOSITORY_CHARS)];
  _ ← err_if (host_port process =? 0) (VE.ZeroValue "process.host_port");
  _ ← err_if (stop_timeout_seconds process =? 0) (VE.ZeroValue "process.stop_timeout_seconds");
  _ ← err_if (negb (accept_eula process)) VE.EulaNotAccepted;
  _ ← err_if (MAX_ENVIRONMENT_ENTRIES <? Z.of_nat (length (environment process)))
        (VE.TooManyEnvironmentVariables MAX_ENVIRONMENT_ENTRIES);
  for_each validate_environment_entry (environment process).

(** [DesiredServerSpec::resolve]. *)
Definition DesiredServerSpec_resolve (desired : DesiredServerSpec)
    (existing_data : option DataSpec) (r2_repository : option string) :
    result ValidationError ServerSpec :=
  data ←
    match desired_data desired with
    | DDS.LocalRestic repo =>
        match existing_data with
        | Some data =>
            if bool_decide (backend data ≠ DB.LocalRestic) then Err VE.DataBackendImmutable
            else if negb (String.eqb (repository data) repo) then Err VE.DataRepositoryImmutable
            else Ok data
        | None => Ok {| backend := DB.LocalRestic; repository := repo |}
        end
    | DDS.R2Restic =>
        repo ←
          match existing_data with
          | Some data =>
              if bool_decide (backend data = DB.R2Restic) then Ok (repository data)
              else Err VE.DataBackendImmutable
          | None => ok_or VE.R2Unavailable r2_repository
          end;
        Ok {| backend := DB.R2Restic; repository := repo |}
    end;
  let spec := {| spec_compute := desired_compute desired;
                 spec_process := desired_process desired;
                 spec_data := data |} in
  _ ← ServerSpec_validate spec;
  Ok spec.

(** ** The server *)

Record Server := {
  srv_id : ServerId;
  srv_name : string;
  srv_generation : Z;
  srv_desired_state : DesiredState;
  srv_spec : ServerSpec;
  srv_current_snapshot_id : option string;
  srv_archived_at : option Z;
  srv_created_at : Z;
  srv_updated_at : Z;
}.

#[global] Instance Server_eq_dec : EqDecision Server.
Proof. solve_decision. Defined.

(** Field assignments [self.f = v]. *)
Definition set_srv_desired_state (s : Server) (v : DesiredState) : Server :=
  {| srv_id := srv_id s; srv_name := srv_name s; srv_generation := srv_generation s;
     srv_desired_state := v; srv_spec := srv_spec s;
     srv_current_snapshot_id := srv_current_snapshot_id s; srv_archived_at := srv_archived_at s;
     srv_created_at := srv_created_at s; srv_updated_at := srv_updated_at s |}.
Definition set_srv_spec (s : Server) (v : ServerSpec) : Server :=
  {| srv_id := srv_id s; srv_name := srv_name s; srv_generation := srv_generation s;
     srv_desired_state := srv_desired_state s; srv_spec := v;
     srv_current_snapshot_id := srv_current_snapshot_id s; srv_archived_at := srv_archived_at s;
     srv_created_at := srv_created_at s; srv_updated_at := srv_updated_at s |}.
Definition set_srv_generation (s : Server) (v : Z) : Server :=
  {| srv_id := srv_id s; srv_name := srv_name s; srv_generation := v;
     srv_desired_state := srv_desired_state s; srv_spec := srv_spec s;
     srv_current_snapshot_id := srv_current_snapshot_id s; srv_archived_at := srv_archived_at s;
     srv_created_at := srv_created_at s; srv_updated_at := srv_updated_at s |}.
Definition set_srv_updated_at (s : Server) (v : Z) : Server :=
  {| srv_id := srv_id s; srv_name := srv_name s; srv_generation := srv_generation s;
     srv_desired_state := srv_desired_state s; srv_spec := srv_spec s;
     srv_current_snapshot_id := srv_current_snapshot_id s; srv_archived_at := srv_archived_at s;
     srv_created_at := srv_created_at s; srv_updated_at := v |}.
Definition set_srv_archived_at (s : Server) (v : option Z) : Server :=
  {| srv_id := srv_id s; srv_name := srv_name s; srv_generation := srv_generation s;
     srv_desired_state := srv_desired_state s; srv_spec := srv_spec s;
     srv_current_snapshot_id := srv_current_snapshot_id s; srv_archived_at := v;
     srv_created_at := srv_created_at s; srv_updated_at := srv_updated_at s |}.

Definition Server_new (id : ServerId) (name : string) (spec : ServerSpec) (now : Z) :
    result ValidationError Server :=
  _ ← ServerSpec_validate spec;
  Ok {| srv_id := id; srv_name := name; srv_generation := 1;
        srv_desired_state := DS.Stopped; srv_spec := spec;
        srv_current_snapshot_id := None; srv_archived_at := None;
        srv_created_at := now; srv_updated_at := now |}.

Definition Server_rehydrate (id : ServerId) (name : string) (generation : Z)
    (desired_state : DesiredState) (spec : ServerSpec) (current_snapshot_id : option string)
    (archived_at : option Z) (created_at updated_at : Z) : result ValidationError Server :=
  _ ← err_if (generation =? 0) VE.ZeroGeneration;
  _ ← err_if (updated_at <? created_at) VE.InvalidTimestampOrder;
  _ ← err_if (from_option (λ at_, (at_ <? created_at) || (updated_at <? at_)) false archived_at)
        VE.InvalidTimestampOrder;
  _ ← err_if (bool_decide (is_Some archived_at) && bool_decide (desired_state ≠ DS.Stopped))
        VE.ArchivedServerMustBeStopped;
  _ ← match current_snapshot_id with
      | Some snapshot_id =>
          _ ← require_non_blank "current_snapshot_id" snapshot_id;
          _ ← require_maximum_length "current_snapshot_id" snapshot_id MAX_SNAPSHOT_ID_CHARS;
          reject_nul "current_snapshot_id" snapshot_id
      | None => Ok tt
      end;
  _ ← ServerSpec_validate spec;
  Ok {| srv_id := id; srv_name := name; srv_generation := generation;
        srv_desired_state := desired_state; srv_spec := spec;
        srv_current_snapshot_id := current_snapshot_id; srv_archived_at := archived_at;
        srv_created_at := created_at; srv_updated_at := updated_at |}.

(** [self.generation = self.generation.checked_add(1).ok_or(..)?;
     self.updated_at = max(self.updated_at, now);], common to the three
    operations: on overflow the fields assigned before it stay assigned. *)
Definition Server_bump (s : Server) (now : Z) : result ValidationError unit * Server :=
  match u64_checked_add (srv_generation s) 1 with
  | None => (Err VE.GenerationOverflow, s)
  | Some generation =>
      let s := set_srv_generation s generation in
      (Ok tt, set_srv_updated_at s (Z.max (srv_updated_at s) now))
  end.

Definition Server_set_desired_state (s : Server) (desired_state : DesiredState) (now : Z) :
    result ValidationError bool * Server :=
  if bool_decide (is_Some (srv_archived_at s)) then (Err VE.ServerArchived, s)
  else if bool_decide (srv_desired_state s = desired_state) then (Ok false, s)
  else
    let s := set_srv_desired_state s desired_state in
    match Server_bump s now with
    | (Err e, s) => (Err e, s)
    | (Ok _, s) => (Ok true, s)
    end.

Definition Server_update_spec (s : Server) (spec : ServerSpec) (now : Z) :
    result ValidationError bool * Server :=
  match ServerSpec_validate spec with
  | Err e => (Err e, s)
  | Ok _ =>
      if bool_decide (is_Some (srv_archived_at s)) then (Err VE.ServerArchived, s)
      else if bool_decide (srv_spec s = spec) then (Ok false, s)
      else if bool_decide (srv_desired_state s ≠ DS.Stopped) then (Err VE.ServerMustBeStopped, s)
      else
        let s := set_srv_spec s spec in
        match Server_bump s now with
        | (Err e, s) => (Err e, s)
        | (Ok _, s) => (Ok true, s)
        end
  end.

Definition Server_archive (s : Server) (now : Z) : result ValidationError bool * Server :=
  if bool_decide (is_Some (srv_archived_at s)) then (Ok false, s)
  else if bool_decide (srv_desired_state s ≠ DS.Stopped) then (Err VE.ServerMustBeStopped, s)
  else
    match Server_bump s now with
    | (Err e, s) => (Err e, s)
    | (Ok _, s) => (Ok true, set_srv_archived_at s (Some (srv_updated_at s)))
    end.
