(* ===== verification/ServerFacts.v ===== *)
(** What the [Server] aggregate guarantees: its well-formedness invariant, the
    operations on every branch, histories of operations, and the resolution
    of desired specifications. *)
From S2P Require Import Prelude Text Server.
From Stdlib Require Import Ascii.
#[local] Open Scope string_scope.
#[local] Open Scope Z_scope.

(** ** Server names *)

(** What docs/client-api.md calls a server name: one to 63 bytes of lowercase
    letters, digits and hyphens, with no hyphen at either end. *)
Definition is_dns_label (name : string) : Prop :=
  1 ≤ str_len name ≤ 63 ∧
  Forall (λ c, label_byte c = true ∨ c = "-"%char) (String.list_ascii_of_string name) ∧
  (∃ c, str_first_byte name = Some c ∧ label_byte c = true) ∧
  (∃ c, str_last_byte name = Some c ∧ label_byte c = true).

Lemma bytes_all_Forall p s :
  bytes_all p s = true ↔ Forall (λ c, p c = true) (String.list_ascii_of_string s).
Proof. unfold bytes_all. rewrite forallb_forall, Forall_forall. setoid_rewrite list_elem_of_In. done. Qed.

Lemma from_option_false {A} (f : A → bool) (o : option A) :
  from_option f false o = true ↔ ∃ a, o = Some a ∧ f a = true.
Proof. destruct o; cbn; naive_solver. Qed.

Lemma ServerName_new_value value name : ServerName_new value = Ok name → name = value.
Proof. unfold ServerName_new. intros H. inv_res. done. Qed.

Lemma label_or_hyphen c : label_byte c || byte_is "-" c = true ↔ label_byte c = true ∨ c = "-"%char.
Proof. unfold byte_is. rewrite orb_true_iff, Ascii.eqb_eq. naive_solver. Qed.

Lemma ServerName_new_ok value : is_dns_label value ↔ ServerName_new value = Ok value.
Proof.
  unfold ServerName_new, is_dns_label, MAX_SERVER_NAME_CHARS. split.
  - intros (Hlen & Hall & Hfirst & Hlast).
    apply from_option_false in Hfirst, Hlast.
    assert (Hb : bytes_all (λ c, label_byte c || byte_is "-" c) value = true).
    { apply bytes_all_Forall. eapply Forall_impl; [exact Hall|]. apply label_or_hyphen. }
    rewrite Hfirst, Hlast, Hb.
    destruct value; [unfold str_len in Hlen; cbn in Hlen; lia|]. cbn [str_is_empty err_if mbind result_bind].
    destruct (63 <? _) eqn:E; [bz; lia|]. done.
  - intros H. inv_res. bz.
    rewrite !from_option_false in *.
    split; [destruct value; [done|]; unfold str_len in *; cbn in *; lia|].
    split; [|done].
    match goal with Hb : bytes_all _ _ = true |- _ => apply bytes_all_Forall in Hb;
      eapply Forall_impl; [exact Hb|]; apply label_or_hyphen end.
Qed.

(** ** The invariant *)

(** The shape of every bounded text field: not blank, at most [maximum]
    characters and no NUL byte. *)
Definition text_ok (maximum : Z) (s : string) : Prop :=
  str_is_blank s = false ∧ str_char_count s ≤ maximum ∧ str_contains_nul s = false.
Abbreviation snapshot_id_ok := (text_ok MAX_SNAPSHOT_ID_CHARS).

Record Server_wf (s : Server) : Prop := {
  wf_name : is_dns_label (srv_name s);
  wf_generation : 1 ≤ srv_generation s ≤ u64_max;
  wf_created : 0 ≤ srv_created_at s;
  wf_updated : srv_created_at s ≤ srv_updated_at s;
  wf_archived : ∀ t, srv_archived_at s = Some t →
    srv_created_at s ≤ t ≤ srv_updated_at s ∧ srv_desired_state s = DS.Stopped;
  wf_snapshot : ∀ id, srv_current_snapshot_id s = Some id → snapshot_id_ok id;
  wf_spec : ServerSpec_validate (srv_spec s) = Ok tt;
}.

(** [Server_bump] adds one to the generation and moves [updated_at] forward,
    or overflows and leaves the server as it was given. *)
Lemma Server_bump_ok s now s' :
  Server_bump s now = (Ok tt, s') →
  srv_generation s + 1 ≤ u64_max ∧
  s' = set_srv_updated_at (set_srv_generation s (srv_generation s + 1))
         (Z.max (srv_updated_at s) now).
Proof.
  unfold Server_bump, u64_checked_add. case_match eqn:E; intros [= <-].
  case_match; inv_res. bz. done.
Qed.

Lemma Server_bump_err s now e s' :
  Server_bump s now = (Err e, s') →
  u64_max < srv_generation s + 1 ∧ e = VE.GenerationOverflow ∧ s' = s.
Proof.
  unfold Server_bump, u64_checked_add. case_match eqn:E; intros [= <- <-].
  case_match; inv_res; bz; done.
Qed.

Lemma Server_new_wf id name spec now s :
  is_dns_label name → 0 ≤ now → Server_new id name spec now = Ok s → Server_wf s.
Proof.
  intros Hname Hnow. unfold Server_new. intros H. inv_res.
  constructor; cbn; try done; unfold u64_max; try lia.
Qed.

Ltac op_cases :=
  repeat match goal with
  | H : (if bool_decide ?P then _ else _) = _ |- _ => destruct (bool_decide_reflect P)
  | H : match Server_bump ?s ?n with _ => _ end = _ |- _ =>
      destruct (Server_bump s n) as [[[]|?] ?] eqn:?
  | H : match ServerSpec_validate ?s with _ => _ end = _ |- _ =>
      destruct (ServerSpec_validate s) as [[]|?] eqn:?
  | H : (_, _) = (_, _) |- _ => injection H as H; subst
  | H : Server_bump _ _ = (Ok _, _) |- _ => apply Server_bump_ok in H as [? ->]
  | H : Server_bump _ _ = (Err _, _) |- _ => apply Server_bump_err in H as (? & -> & ->)
  | H : ¬ is_Some ?o |- _ => apply eq_None_not_Some in H
  | H : ¬ (?a ≠ ?b) |- _ => apply dec_stable in H
  end; inv_res.

(** [set_desired_state] on every branch. *)
Lemma set_desired_state_cases s d now r s' :
  Server_set_desired_state s d now = (r, s') →
  (is_Some (srv_archived_at s) ∧ r = Err VE.ServerArchived ∧ s' = s) ∨
  (srv_archived_at s = None ∧ srv_desired_state s = d ∧ r = Ok false ∧ s' = s) ∨
  (srv_archived_at s = None ∧ srv_desired_state s ≠ d ∧ u64_max < srv_generation s + 1 ∧
   r = Err VE.GenerationOverflow ∧ s' = set_srv_desired_state s d) ∨
  (srv_archived_at s = None ∧ srv_desired_state s ≠ d ∧ srv_generation s + 1 ≤ u64_max ∧
   r = Ok true ∧
   s' = {| srv_id := srv_id s; srv_name := srv_name s; srv_generation := srv_generation s + 1;
           srv_desired_state := d; srv_spec := srv_spec s;
           srv_current_snapshot_id := srv_current_snapshot_id s; srv_archived_at := None;
           srv_created_at := srv_created_at s; srv_updated_at := Z.max (srv_updated_at s) now |}).
Proof.
  unfold Server_set_desired_state. intros H. op_cases.
  - left. done.
  - right; left. done.
  - right; right; right. cbn in *. split_and!; try done. cbv [set_srv_updated_at set_srv_generation set_srv_desired_state]; cbn. congruence.
  - right; right; left. done.
Qed.

Lemma update_spec_cases s spec now r s' :
  Server_update_spec s spec now = (r, s') →
  (∃ e, ServerSpec_validate spec = Err e ∧ r = Err e ∧ s' = s) ∨
  (ServerSpec_validate spec = Ok tt ∧
   ((is_Some (srv_archived_at s) ∧ r = Err VE.ServerArchived ∧ s' = s) ∨
    (srv_archived_at s = None ∧ srv_spec s = spec ∧ r = Ok false ∧ s' = s) ∨
    (srv_archived_at s = None ∧ srv_spec s ≠ spec ∧ srv_desired_state s = DS.Running ∧
     r = Err VE.ServerMustBeStopped ∧ s' = s) ∨
    (srv_archived_at s = None ∧ srv_spec s ≠ spec ∧ srv_desired_state s = DS.Stopped ∧
     u64_max < srv_generation s + 1 ∧ r = Err VE.GenerationOverflow ∧ s' = set_srv_spec s spec) ∨
    (srv_archived_at s = None ∧ srv_spec s ≠ spec ∧ srv_desired_state s = DS.Stopped ∧
     srv_generation s + 1 ≤ u64_max ∧ r = Ok true ∧
     s' = {| srv_id := srv_id s; srv_name := srv_name s; srv_generation := srv_generation s + 1;
             srv_desired_state := DS.Stopped; srv_spec := spec;
             srv_current_snapshot_id := srv_current_snapshot_id s; srv_archived_at := None;
             srv_created_at := srv_created_at s;
             srv_updated_at := Z.max (srv_updated_at s) now |}))).
Proof.
  unfold Server_update_spec. intros H. op_cases.
  - right. split; [done|]. left. done.
  - right. split; [done|]. right; left. done.
  - right. split; [done|]. right; right; left. split_and!; try done. by destruct (srv_desired_state s').
  - right. split; [done|]. right; right; right; right. cbn in *. split_and!; try done.
    cbv [set_srv_updated_at set_srv_generation set_srv_spec]; cbn. congruence.
  - right. split; [done|]. right; right; right; left. done.
  - left. eauto.
Qed.

Lemma archive_cases s now r s' :
  Server_archive s now = (r, s') →
  (is_Some (srv_archived_at s) ∧ r = Ok false ∧ s' = s) ∨
  (srv_archived_at s = None ∧ srv_desired_state s = DS.Running ∧
   r = Err VE.ServerMustBeStopped ∧ s' = s) ∨
  (srv_archived_at s = None ∧ srv_desired_state s = DS.Stopped ∧ u64_max < srv_generation s + 1 ∧
   r = Err VE.GenerationOverflow ∧ s' = s) ∨
  (srv_archived_at s = None ∧ srv_desired_state s = DS.Stopped ∧ srv_generation s + 1 ≤ u64_max ∧
   r = Ok true ∧
   s' = {| srv_id := srv_id s; srv_name := srv_name s; srv_generation := srv_generation s + 1;
           srv_desired_state := DS.Stopped; srv_spec := srv_spec s;
           srv_current_snapshot_id := srv_current_snapshot_id s;
           srv_archived_at := Some (Z.max (srv_updated_at s) now);
           srv_created_at := srv_created_at s; srv_updated_at := Z.max (srv_updated_at s) now |}).
Proof.
  unfold Server_archive. intros H. op_cases.
  - left. done.
  - right; left. split_and!; try done. by destruct (srv_desired_state s').
  - right; right; right. cbn in *. split_and!; try done.
    cbv [set_srv_updated_at set_srv_generation set_srv_archived_at]; cbn. congruence.
  - right; right; left. done.
Qed.

(** ** Histories

    The service applies an operation to the row it read and keeps the result
    only when the operation succeeded ([?] drops the mutated copy), so a
    history of a server is a sequence of operations in which failing ones
    leave it as it was. *)

Inductive server_op :=
| OpSetDesiredState (d : DesiredState) (now : Z)
| OpUpdateSpec (spec : ServerSpec) (now : Z)
| OpArchive (now : Z).

Definition run_server_op (o : server_op) (s : Server) : result ValidationError bool * Server :=
  match o with
  | OpSetDesiredState d now => Server_set_desired_state s d now
  | OpUpdateSpec spec now => Server_update_spec s spec now
  | OpArchive now => Server_archive s now
  end.

Definition apply_server_op (s : Server) (o : server_op) : Server :=
  match run_server_op o s with
  | (Ok _, s') => s'
  | (Err _, _) => s
  end.

Definition apply_server_ops (s : Server) (os : list server_op) : Server :=
  fold_left apply_server_op os s.

(** How many operations of a history changed the server. *)
Fixpoint effective_ops (s : Server) (os : list server_op) : Z :=
  match os with
  | [] => 0
  | o :: os' =>
      (match run_server_op o s with (Ok true, _) => 1 | _ => 0 end)
      + effective_ops (apply_server_op s o) os'
  end.

Ltac op_history o :=
  unfold apply_server_op;
  let r := fresh "r" in let s' := fresh "s'" in let E := fresh "E" in
  destruct (run_server_op o _) as [r s'] eqn:E; destruct o; cbn in E;
  [apply set_desired_state_cases in E | apply update_spec_cases in E | apply archive_cases in E].

Lemma apply_server_op_wf s o : Server_wf s → Server_wf (apply_server_op s o).
Proof.
  intros Hwf. op_history o; destruct_or?; destruct_and?; destruct_or?; destruct_and?; subst;
    try done; try naive_solver; destruct Hwf; constructor; cbn; try done; try lia.
  intros t [= <-]. split; [lia|done].
Qed.

Lemma apply_server_op_archived s o t :
  srv_archived_at s = Some t → apply_server_op s o = s.
Proof.
  intros Ha. op_history o; destruct_or?; destruct_and?; destruct_or?; destruct_and?; subst;
    try done; try congruence; naive_solver congruence.
Qed.

Lemma apply_server_op_generation s o :
  srv_generation (apply_server_op s o) =
    srv_generation s + (match run_server_op o s with (Ok true, _) => 1 | _ => 0 end) ∧
  ((match run_server_op o s with (Ok true, _) => 1 | _ => 0 end) = 0 → apply_server_op s o = s).
Proof.
  op_history o; destruct_or?; destruct_and?; destruct_or?; destruct_and?; subst; cbn;
    try (split; [lia|done]); try (split; [lia|lia]); naive_solver lia.
Qed.

Lemma effective_ops_nonneg s os : 0 ≤ effective_ops s os.
Proof.
  revert s. induction os as [|o os IH]; intros s; cbn; [lia|].
  specialize (IH (apply_server_op s o)). repeat case_match; lia.
Qed.


Lemma apply_server_ops_wf s os : Server_wf s → Server_wf (apply_server_ops s os).
Proof.
  revert s. induction os as [|o os IH]; intros s Hs; [done|].
  apply IH, apply_server_op_wf, Hs.
Qed.

Lemma apply_server_ops_frozen s os :
  is_Some (srv_archived_at s) → apply_server_ops s os = s.
Proof.
  intros [t Ht]. induction os as [|o os IH]; [done|]. unfold apply_server_ops in *. cbn.
  by rewrite (apply_server_op_archived _ _ t).
Qed.

Lemma apply_server_ops_generation s os :
  srv_generation (apply_server_ops s os) = srv_generation s + effective_ops s os ∧
  (effective_ops s os = 0 → apply_server_ops s os = s).
Proof.
  revert s. induction os as [|o os IH]; intros s; [cbn; split; [lia|done]|].
  destruct (apply_server_op_generation s o) as [Hg H0].
  destruct (IH (apply_server_op s o)) as [Hgs H0s].
  pose proof (effective_ops_nonneg (apply_server_op s o) os) as Hnn.
  unfold apply_server_ops in *. cbn [fold_left effective_ops]. split; [lia|].
  intros Hz. assert (effective_ops (apply_server_op s o) os = 0) by (repeat case_match; lia).
  rewrite H0s by done. apply H0. repeat case_match; lia.
Qed.

Lemma apply_server_ops_app s os os' :
  apply_server_ops s (os ++ os') = apply_server_ops (apply_server_ops s os) os'.
Proof. apply fold_left_app. Qed.

(** ** Rehydration *)

Lemma snapshot_id_checks id :
  (_ ← require_non_blank "current_snapshot_id" id;
   _ ← require_maximum_length "current_snapshot_id" id MAX_SNAPSHOT_ID_CHARS;
   reject_nul "current_snapshot_id" id) = Ok tt ↔ snapshot_id_ok id.
Proof.
  unfold require_non_blank, require_maximum_length, reject_nul, text_ok. split.
  - intros H. inv_res. bz. done.
  - intros (-> & Hn & ->). destruct (_ <? _) eqn:E; [bz; lia|]. done.
Qed.

Lemma rehydrate_ok id name generation d spec snap archived created updated s :
  Server_rehydrate id name generation d spec snap archived created updated = Ok s ↔
  generation ≠ 0 ∧ created ≤ updated ∧
  (∀ t, archived = Some t → created ≤ t ≤ updated ∧ d = DS.Stopped) ∧
  (∀ i, snap = Some i → snapshot_id_ok i) ∧
  ServerSpec_validate spec = Ok tt ∧
  s = {| srv_id := id; srv_name := name; srv_generation := generation;
         srv_desired_state := d; srv_spec := spec; srv_current_snapshot_id := snap;
         srv_archived_at := archived; srv_created_at := created; srv_updated_at := updated |}.
Proof.
  unfold Server_rehydrate. split.
  - intros H. inv_res. bz. split_and!; try done.
    + intros t ->. cbn in *. inv_res. bz. split; [lia|].
      by destruct d.
    + intros i ->. apply snapshot_id_checks. done.
  - intros (Hg & Ht & Ha & Hs & Hv & ->).
    destruct (generation =? 0) eqn:E; bz; [done|]. cbn [err_if mbind result_bind].
    destruct (updated <? created) eqn:E'; bz; [lia|]. cbn [err_if mbind result_bind].
    assert (from_option (λ at_, (at_ <? created) || (updated <? at_)) false archived = false) as ->.
    { destruct archived; [|done]. cbn. destruct (Ha _ eq_refl). apply orb_false_iff. split; bz; lia. }
    assert (bool_decide (is_Some archived) && bool_decide (d ≠ DS.Stopped) = false) as ->.
    { destruct archived; [|done]. destruct (Ha _ eq_refl) as [_ ->]. done. }
    rewrite Hv. destruct snap as [i|]; [|done]. cbn [err_if].
    pose proof (proj2 (snapshot_id_checks i) (Hs _ eq_refl)) as Hc. cbn [mbind result_bind] in *.
    rewrite Hc. done.
Qed.

(** ** Resolution of a desired specification *)

(** The data a desired specification asks for, given the data the server has. *)
Definition resolved_data (desired : DesiredDataSpec) (existing : option DataSpec)
    (r2_repository : option string) : result ValidationError DataSpec :=
  match desired, existing with
  | DDS.LocalRestic repo, None => Ok {| backend := DB.LocalRestic; repository := repo |}
  | DDS.LocalRestic repo, Some {| backend := DB.LocalRestic; repository := r |} =>
      if String.eqb r repo then Ok {| backend := DB.LocalRestic; repository := r |}
      else Err VE.DataRepositoryImmutable
  | DDS.LocalRestic _, Some _ => Err VE.DataBackendImmutable
  | DDS.R2Restic, Some {| backend := DB.R2Restic; repository := r |} =>
      Ok {| backend := DB.R2Restic; repository := r |}
  | DDS.R2Restic, Some _ => Err VE.DataBackendImmutable
  | DDS.R2Restic, None =>
      match r2_repository with
      | Some r => Ok {| backend := DB.R2Restic; repository := r |}
      | None => Err VE.R2Unavailable
      end
  end.

Lemma resolve_resolved_data desired existing r2 :
  DesiredServerSpec_resolve desired existing r2 =
  (data ← resolved_data (desired_data desired) existing r2;
   _ ← ServerSpec_validate {| spec_compute := desired_compute desired;
         spec_process := desired_process desired; spec_data := data |};
   Ok {| spec_compute := desired_compute desired;
         spec_process := desired_process desired; spec_data := data |}).
Proof.
  unfold DesiredServerSpec_resolve, resolved_data.
  destruct (desired_data desired) as [repo|]; destruct existing as [[[] r]|]; try done.
  - cbn. by destruct (String.eqb r repo).
  - by destruct r2.
Qed.

Lemma resolve_existing desired existing r2 spec :
  DesiredServerSpec_resolve desired (Some existing) r2 = Ok spec → spec_data spec = existing.
Proof.
  rewrite resolve_resolved_data. intros H. inv_res. cbn. unfold resolved_data in *.
  repeat case_match; by simplify_eq.
Qed.

Lemma resolve_valid desired existing r2 spec :
  DesiredServerSpec_resolve desired existing r2 = Ok spec → ServerSpec_validate spec = Ok tt.
Proof. rewrite resolve_resolved_data. intros H. inv_res. done. Qed.

(** The backend a desired data specification names. *)
Definition asked_backend (desired : DesiredDataSpec) : DataBackend :=
  match desired with DDS.LocalRestic _ => DB.LocalRestic | DDS.R2Restic => DB.R2Restic end.

Lemma resolve_again desired existing r2 spec r2' :
  DesiredServerSpec_resolve desired existing r2 = Ok spec →
  DesiredServerSpec_resolve desired (Some (spec_data spec)) r2' = Ok spec.
Proof.
  rewrite !resolve_resolved_data. intros H. inv_res. cbn.
  assert (∀ data, resolved_data (desired_data desired) existing r2 = Ok data →
    resolved_data (desired_data desired) (Some data) r2' = Ok data) as Hr.
  { intros data Hd. unfold resolved_data in *.
    repeat case_match; simplify_eq; try done;
      match goal with
      | H : String.eqb ?x ?x = false |- _ => by rewrite String.eqb_refl in H
      | _ => congruence
      end. }
  erewrite Hr by done. cbn. by match goal with H : ServerSpec_validate _ = _ |- _ => rewrite H end.
Qed.

Lemma resolve_other_backend desired data r2 :
  asked_backend (desired_data desired) ≠ backend data →
  DesiredServerSpec_resolve desired (Some data) r2 = Err VE.DataBackendImmutable.
Proof.
  rewrite resolve_resolved_data. unfold resolved_data, asked_backend.
  destruct (desired_data desired), data as [[] ?]; cbn; congruence.
Qed.

Lemma resolve_other_repository desired data r2 repo :
  desired_data desired = DDS.LocalRestic repo → backend data = DB.LocalRestic →
  repo ≠ repository data →
  DesiredServerSpec_resolve desired (Some data) r2 = Err VE.DataRepositoryImmutable.
Proof.
  rewrite resolve_resolved_data. destruct data as [b r]; cbn. intros -> -> Hne. cbn.
  destruct (String.eqb_spec r repo) as [Heq|]; [by rewrite Heq in Hne | done].
Qed.

(** ** Properties *)

Definition example_process : ProcessSpec := {|
  container_image := "itzg/minecraft-server:latest"; server_type := "PAPER";
  version := "1.21.1"; host_port := 25565; stop_timeout_seconds := 60;
  accept_eula := true; environment := [("MEMORY", "4G")] |}.
Definition example_spec : ServerSpec := {|
  spec_compute := CS.Local; spec_process := example_process;
  spec_data := {| backend := DB.LocalRestic; repository := "/srv/restic/survival" |} |}.
Definition example_akamai_spec : ServerSpec := {|
  spec_compute := CS.Akamai "us-east" "g6-standard-2" "linode/ubuntu24.04" 42;
  spec_process := example_process;
  spec_data := {| backend := DB.LocalRestic; repository := "/srv/restic/survival" |} |}.
Definition example_server : Server := {|
  srv_id := 7%N; srv_name := "survival"; srv_generation := 1;
  srv_desired_state := DS.Stopped; srv_spec := example_spec;
  srv_current_snapshot_id := None; srv_archived_at := None;
  srv_created_at := 1000; srv_updated_at := 1000 |}.

(** [ServerName::new] accepts a string exactly when it is a DNS label (one
    to 63 bytes of lowercase letters, digits and hyphens, with no hyphen at
    either end), and the name it returns is that string. *)
Theorem server_name_is_dns_label value name :
  ServerName_new value = Ok name ↔ is_dns_label value ∧ name = value.
Proof.
  rewrite ServerName_new_ok. split.
  - intros H. pose proof (ServerName_new_value _ _ H) as ->. done.
  - intros [H ->]. done.
Qed.

(** The invariant of [Server] holds of a server made from a valid name and
    is kept by every history of [set_desired_state], [update_spec] and
    [archive], whatever times the clock reports and whichever operations
    fail: the generation stays in [1 .. u64::MAX], the timestamps stay
    ordered, an archived server is stopped and the specification stays
    valid. *)
Theorem server_history_well_formed id value name spec now s os :
  0 ≤ now → ServerName_new value = Ok name → Server_new id name spec now = Ok s →
  Server_wf (apply_server_ops s os).
Proof.
  intros Hnow Hname Hnew. pose proof (ServerName_new_value _ _ Hname) as ->.
  apply apply_server_ops_wf. eapply Server_new_wf; [|done|done]. by apply ServerName_new_ok.
Qed.

Lemma server_history_well_formed_witness :
  Server_wf (apply_server_ops example_server
    [OpSetDesiredState DS.Running 5; OpUpdateSpec example_akamai_spec 6;
     OpSetDesiredState DS.Stopped 7000; OpUpdateSpec example_akamai_spec 8; OpArchive 9]).
Proof.
  apply (server_history_well_formed 7%N "survival" "survival" example_spec 1000);
    [lia | vm_compute; reflexivity | vm_compute; reflexivity].
Defined.

(** An archived server is frozen: no history of operations changes any of
    its fields, and its desired state is stopped. *)
Theorem archived_server_is_frozen s os os' :
  Server_wf s → is_Some (srv_archived_at (apply_server_ops s os)) →
  apply_server_ops s (os ++ os') = apply_server_ops s os ∧
  srv_desired_state (apply_server_ops s (os ++ os')) = DS.Stopped.
Proof.
  intros Hwf Ha. rewrite apply_server_ops_app, apply_server_ops_frozen by done. split; [done|].
  destruct Ha as [t Ht]. eapply wf_archived; [by apply apply_server_ops_wf|done].
Qed.

Lemma example_server_wf : Server_wf example_server.
Proof.
  eapply (Server_new_wf 7%N "survival" example_spec 1000);
    [apply ServerName_new_ok; vm_compute; reflexivity | lia | vm_compute; reflexivity].
Qed.

Lemma archived_server_is_frozen_witness :
  apply_server_ops example_server
    ([OpArchive 2000] ++ [OpSetDesiredState DS.Running 3000; OpArchive 4000]) =
  apply_server_ops example_server [OpArchive 2000] ∧
  srv_desired_state (apply_server_ops example_server
    ([OpArchive 2000] ++ [OpSetDesiredState DS.Running 3000; OpArchive 4000])) = DS.Stopped.
Proof.
  apply (archived_server_is_frozen example_server [OpArchive 2000]
    [OpSetDesiredState DS.Running 3000; OpArchive 4000]);
    [exact example_server_wf | vm_compute; eauto].
Defined.

(** The generation counts the changes: along any history it grows by
    exactly the number of operations that returned [Ok(true)]. Two points of
    a history with the same generation are therefore the same server in every
    field, so comparing generations (the optimistic check of the repository's
    updates) cannot miss an intermediate change (no ABA). *)
Theorem generation_identifies_server s os os' :
  srv_generation (apply_server_ops s os) = srv_generation s + effective_ops s os ∧
  (srv_generation (apply_server_ops s (os ++ os')) = srv_generation (apply_server_ops s os) ↔
   apply_server_ops s (os ++ os') = apply_server_ops s os).
Proof.
  split; [apply apply_server_ops_generation|]. rewrite apply_server_ops_app.
  destruct (apply_server_ops_generation (apply_server_ops s os) os') as [Hg H0].
  split; [|by intros ->]. intros Hgen. apply H0. lia.
Qed.

(** [Server::rehydrate] is the inverse of reading the fields of a server:
    every well-formed server survives the round trip through its fields; and
    whatever [rehydrate] accepts, with a valid name, a creation time and a
    [u64] generation, is a well-formed server. *)
Theorem rehydrate_round_trip s :
  Server_wf s →
  Server_rehydrate (srv_id s) (srv_name s) (srv_generation s) (srv_desired_state s) (srv_spec s)
    (srv_current_snapshot_id s) (srv_archived_at s) (srv_created_at s) (srv_updated_at s) = Ok s
  ∧ ∀ id name g d spec snap arch created updated s',
      is_dns_label name → 0 ≤ created → 0 ≤ g ≤ u64_max →
      Server_rehydrate id name g d spec snap arch created updated = Ok s' → Server_wf s'.
Proof.
  intros []. split.
  - apply rehydrate_ok. split_and!; try done; [lia|by destruct s].
  - intros * Hname Hc Hg. rewrite rehydrate_ok. intros (? & ? & ? & ? & ? & ->).
    constructor; cbn; try done. lia.
Qed.

Lemma rehydrate_round_trip_witness :
  Server_rehydrate 7%N "survival" 1 DS.Stopped example_spec None None 1000 1000 =
  Ok example_server.
Proof. apply (rehydrate_round_trip example_server example_server_wf). Defined.

(** The data of a server is immutable under [resolve]. When a desired
    specification has been resolved, resolving it again against the resulting
    data gives the same specification, whatever R2 repository is configured by
    then; any other specification that resolves against that data keeps it; one
    that asks for the other backend is refused with [DataBackendImmutable] and
    one that asks for another local repository with [DataRepositoryImmutable];
    and without data to keep, R2 is refused when no repository is
    configured. *)
Theorem resolve_keeps_existing_data desired existing r2 spec desired' r2' :
  DesiredServerSpec_resolve desired existing r2 = Ok spec →
  let again := DesiredServerSpec_resolve desired' (Some (spec_data spec)) r2' in
  (∀ data, existing = Some data → spec_data spec = data) ∧
  DesiredServerSpec_resolve desired (Some (spec_data spec)) r2' = Ok spec ∧
  (∀ spec', again = Ok spec' → spec_data spec' = spec_data spec) ∧
  (asked_backend (desired_data desired') ≠ backend (spec_data spec) →
     again = Err VE.DataBackendImmutable) ∧
  (∀ repo, desired_data desired' = DDS.LocalRestic repo →
     backend (spec_data spec) = DB.LocalRestic → repo ≠ repository (spec_data spec) →
     again = Err VE.DataRepositoryImmutable) ∧
  (desired_data desired' = DDS.R2Restic →
     DesiredServerSpec_resolve desired' None None = Err VE.R2Unavailable).
Proof.
  intros H again. split_and!.
  - intros data ->. eapply resolve_existing. done.
  - eapply resolve_again. done.
  - intros spec' Ha. eapply resolve_existing. done.
  - apply resolve_other_backend.
  - apply resolve_other_repository.
  - unfold DesiredServerSpec_resolve. by intros ->.
Qed.

Lemma resolve_keeps_existing_data_witness :
  DesiredServerSpec_resolve
    {| desired_compute := CS.Local; desired_process := example_process;
       desired_data := DDS.R2Restic |} (Some (spec_data example_spec)) (Some "r2:bucket")
  = Err VE.DataBackendImmutable.
Proof.
  refine (proj1 (proj2 (proj2 (proj2 (resolve_keeps_existing_data
    {| desired_compute := CS.Local; desired_process := example_process;
       desired_data := DDS.LocalRestic "/srv/restic/survival" |} None None example_spec
    {| desired_compute := CS.Local; desired_process := example_process;
       desired_data := DDS.R2Restic |} (Some "r2:bucket") _)))) _).
  - vm_compute; reflexivity.
  - discriminate.
Defined.
