(* ===== verification/Instances.v ===== *)
(** Server instances and compute instances
    (crates/mcserver-control-plane/src/domain/server_instance.rs and
    domain/compute_instance.rs): the records, their enumerations with the
    persisted spelling, and the checks [rehydrate] makes, in the order the
    code makes them. *)
From S2P Require Import Prelude Text Server.
#[local] Open Scope string_scope.
#[local] Open Scope Z_scope.

(** [[a, b, ..].into_iter().flatten()] over optional timestamps. *)
Definition flatten_times (l : list (option Z)) : list Z := omap id l.

(** [for value in times { if value < created || value > updated { return Err(e) } }]. *)
Definition check_times_between {E} (e : E) (created updated : Z) (times : list (option Z)) :
    result E unit :=
  for_each (λ value, err_if ((value <? created) || (updated <? value)) e) (flatten_times times).

(** [if let Some(t) = terminated { for prior in times { if t < prior { return Err(e) } } }]. *)
Definition check_terminated_last {E} (e : E) (terminated : option Z) (times : list (option Z)) :
    result E unit :=
  match terminated with
  | Some t => for_each (λ prior, err_if (t <? prior) e) (flatten_times times)
  | None => Ok tt
  end.


(** ** Server instances *)

Module TR.
(** [TerminalResult]. *)
Inductive TerminalResult := Completed | Failed.
End TR.
Abbreviation TerminalResult := TR.TerminalResult.

#[global] Instance TerminalResult_eq_dec : EqDecision TerminalResult.
Proof. solve_decision. Defined.

Module SIE.
(** [ServerInstanceValidationError]. *)
Inductive ServerInstanceValidationError :=
| ZeroServerGeneration
| ZeroFencingToken
| InvalidResolvedSpec (source : ValidationError)
| IncompleteTerminalState
| MissingProcessObservation
| InvalidTimestampOrder
| BlankField (field : string)
| NulByte (field : string)
| FieldTooLong (field : string) (maximum : Z)
| BlankLastError
| InvalidPersistedValue (field value : string).
End SIE.
Abbreviation ServerInstanceValidationError := SIE.ServerInstanceValidationError.

#[global] Instance ServerInstanceValidationError_eq_dec :
  EqDecision ServerInstanceValidationError.
Proof. solve_decision. Defined.

Definition MAX_ERROR_CHARS : Z := 8192.

Definition TerminalResult_as_str (r : TerminalResult) : string :=
  match r with TR.Completed => "completed" | TR.Failed => "failed" end.

Definition TerminalResult_parse (value : string) :
    result ServerInstanceValidationError TerminalResult :=
  if String.eqb value "completed" then Ok TR.Completed
  else if String.eqb value "failed" then Ok TR.Failed
  else Err (SIE.InvalidPersistedValue "terminal_result" value).

Record ServerInstance := {
  si_id : ServerInstanceId;
  si_server_id : ServerId;
  si_server_generation : Z;
  si_resolved_spec : ServerSpec;
  si_fencing_token : Z;
  si_source_snapshot_id : option string;
  si_data_prepared_at : option Z;
  si_process_running : bool;
  si_process_observed_at : option Z;
  si_result_snapshot_id : option string;
  si_stop_requested_at : option Z;
  si_terminated_at : option Z;
  si_terminal_result : option TerminalResult;
  si_last_error : option string;
  si_created_at : Z;
  si_updated_at : Z;
}.

#[global] Instance ServerInstance_eq_dec : EqDecision ServerInstance.
Proof. solve_decision. Defined.

(** One round of the last loop of [ServerInstance::rehydrate]. *)
Definition check_snapshot_field '((field, value) : string * option string) :
    result ServerInstanceValidationError unit :=
  _ ← err_if (is_some_and str_is_blank value) (SIE.BlankField field);
  _ ← err_if (is_some_and str_contains_nul value) (SIE.NulByte field);
  err_if (is_some_and (λ v, MAX_SNAPSHOT_ID_CHARS <? str_char_count v) value)
    (SIE.FieldTooLong field MAX_SNAPSHOT_ID_CHARS).

Definition ServerInstance_rehydrate (id : ServerInstanceId) (server_id : ServerId)
    (server_generation : Z) (resolved_spec : ServerSpec) (fencing_token : Z)
    (source_snapshot_id : option string) (data_prepared_at : option Z)
    (process_running : bool) (process_observed_at : option Z)
    (result_snapshot_id : option string) (stop_requested_at terminated_at : option Z)
    (terminal_result : option TerminalResult) (last_error : option string)
    (created_at updated_at : Z) : result ServerInstanceValidationError ServerInstance :=
  _ ← err_if (server_generation =? 0) SIE.ZeroServerGeneration;
  _ ← err_if (fencing_token =? 0) SIE.ZeroFencingToken;
  _ ← map_err SIE.InvalidResolvedSpec (ServerSpec_validate resolved_spec);
  _ ← err_if (negb (Bool.eqb (is_some terminated_at) (is_some terminal_result)))
        SIE.IncompleteTerminalState;
  _ ← err_if (process_running && is_none process_observed_at) SIE.MissingProcessObservation;
  _ ← err_if (is_some_and str_is_blank last_error) SIE.BlankLastError;
  _ ← err_if (is_some_and str_contains_nul last_error) (SIE.NulByte "last_error");
  _ ← err_if (is_some_and (λ m, MAX_ERROR_CHARS <? str_char_count m) last_error)
        (SIE.FieldTooLong "last_error" MAX_ERROR_CHARS);
  _ ← check_times_between SIE.InvalidTimestampOrder created_at updated_at
        [data_prepared_at; process_observed_at; stop_requested_at; terminated_at];
  _ ← err_if (updated_at <? created_at) SIE.InvalidTimestampOrder;
  _ ← check_terminated_last SIE.InvalidTimestampOrder terminated_at
        [data_prepared_at; process_observed_at; stop_requested_at];
  _ ← for_each check_snapshot_field
        [("source_snapshot_id", source_snapshot_id); ("result_snapshot_id", result_snapshot_id)];
  Ok {| si_id := id; si_server_id := server_id; si_server_generation := server_generation;
        si_resolved_spec := resolved_spec; si_fencing_token := fencing_token;
        si_source_snapshot_id := source_snapshot_id; si_data_prepared_at := data_prepared_at;
        si_process_running := process_running; si_process_observed_at := process_observed_at;
        si_result_snapshot_id := result_snapshot_id; si_stop_requested_at := stop_requested_at;
        si_terminated_at := terminated_at; si_terminal_result := terminal_result;
        si_last_error := last_error; si_created_at := created_at; si_updated_at := updated_at |}.

Definition ServerInstance_is_active (i : ServerInstance) : bool := is_none (si_terminated_at i).

(** ** Compute instances *)

Module CP.
(** [ComputeProvider]. *)
Inductive ComputeProvider := LocalProcess | Akamai.
End CP.
Abbreviation ComputeProvider := CP.ComputeProvider.

#[global] Instance ComputeProvider_eq_dec : EqDecision ComputeProvider.
Proof. solve_decision. Defined.

Module CTR.
(** [ComputeTerminalResult]. *)
Inductive ComputeTerminalResult := Deleted | Failed.
End CTR.
Abbreviation ComputeTerminalResult := CTR.ComputeTerminalResult.

#[global] Instance ComputeTerminalResult_eq_dec : EqDecision ComputeTerminalResult.
Proof. solve_decision. Defined.

Module CIE.
(** [ComputeInstanceValidationError]. *)
Inductive ComputeInstanceValidationError :=
| BlankField (field : string)
| InvalidProviderFields (provider : ComputeProvider)
| InvalidPublicIpv4 (address : string)
| IncompleteTerminalState
| InvalidTimestampOrder
| NulByte (field : string)
| FieldTooLong (field : string) (maximum : Z)
| InvalidPersistedValue (field value : string).
End CIE.
Abbreviation ComputeInstanceValidationError := CIE.ComputeInstanceValidationError.

#[global] Instance ComputeInstanceValidationError_eq_dec :
  EqDecision ComputeInstanceValidationError.
Proof. solve_decision. Defined.

Definition MAX_CONNECTION_TOKEN_CHARS : Z := 256.
Definition MAX_PROVIDER_INSTANCE_ID_CHARS : Z := 256.
Definition MAX_PUBLIC_IPV4_CHARS : Z := 64.
Definition MAX_FAILURE_MESSAGE_CHARS : Z := 8192.

Definition ComputeProvider_as_str (p : ComputeProvider) : string :=
  match p with CP.LocalProcess => "local_process" | CP.Akamai => "akamai" end.

Definition ComputeProvider_parse (value : string) :
    result ComputeInstanceValidationError ComputeProvider :=
  if String.eqb value "local_process" then Ok CP.LocalProcess
  else if String.eqb value "akamai" then Ok CP.Akamai
  else Err (CIE.InvalidPersistedValue "provider" value).

Definition ComputeTerminalResult_as_str (r : ComputeTerminalResult) : string :=
  match r with CTR.Deleted => "deleted" | CTR.Failed => "failed" end.

Definition ComputeTerminalResult_parse (value : string) :
    result ComputeInstanceValidationError ComputeTerminalResult :=
  if String.eqb value "deleted" then Ok CTR.Deleted
  else if String.eqb value "failed" then Ok CTR.Failed
  else Err (CIE.InvalidPersistedValue "terminal_result" value).

Record ComputeInstance := {
  ci_id : ComputeInstanceId;
  ci_server_instance_id : ServerInstanceId;
  ci_provider : ComputeProvider;
  ci_provider_instance_id : option string;
  ci_public_ipv4 : option string;
  ci_connection_token : string;
  ci_enrollment_token : option string;
  ci_process_id : option Z;
  ci_agent_connected_at : option Z;
  ci_shutdown_requested_at : option Z;
  ci_terminated_at : option Z;
  ci_terminal_result : option ComputeTerminalResult;
  ci_failure_message : option string;
  ci_created_at : Z;
  ci_updated_at : Z;
}.

#[global] Instance ComputeInstance_eq_dec : EqDecision ComputeInstance.
Proof. solve_decision. Defined.

(** [address.parse::<std::net::Ipv4Addr>().is_ok()]: four decimal octets of
    one to three digits, at most 255 and without a superfluous leading zero,
    separated by dots. *)
Fixpoint split_dots (s : list Ascii.ascii) (part : list Ascii.ascii) : list (list Ascii.ascii) :=
  match s with
  | [] => [rev part]
  | c :: s' => if byte_is "." c then rev part :: split_dots s' [] else split_dots s' (c :: part)
  end.
Definition is_ipv4_octet (digits : list Ascii.ascii) : bool :=
  (1 <=? Z.of_nat (length digits)) && (Z.of_nat (length digits) <=? 3)
  && forallb is_ascii_digit digits
  && match digits with
     | c :: _ :: _ => negb (byte_is "0" c)
     | _ => true
     end
  && (fold_left (λ acc c, acc * 10 + (byte_of c - 48)) digits 0 <=? 255).
Definition parses_as_ipv4 (address : string) : bool :=
  let parts := split_dots (String.list_ascii_of_string address) [] in
  (Z.of_nat (length parts) =? 4) && forallb is_ipv4_octet parts.

Definition validate_required (field value : string) (maximum : Z) :
    result ComputeInstanceValidationError unit :=
  _ ← err_if (str_is_blank value) (CIE.BlankField field);
  _ ← err_if (str_contains_nul value) (CIE.NulByte field);
  err_if (maximum <? str_char_count value) (CIE.FieldTooLong field maximum).

Definition validate_optional (field : string) (value : option string) (maximum : Z) :
    result ComputeInstanceValidationError unit :=
  match value with Some value => validate_required field value maximum | None => Ok tt end.

(** The [match provider { .. }] of [ComputeInstance::rehydrate]. *)
Definition check_provider_fields (provider : ComputeProvider)
    (provider_instance_id public_ipv4 enrollment_token : option string)
    (process_id : option Z) : result ComputeInstanceValidationError unit :=
  match provider with
  | CP.LocalProcess =>
      err_if (is_some provider_instance_id || is_some public_ipv4 || is_some enrollment_token)
        (CIE.InvalidProviderFields provider)
  | CP.Akamai =>
      _ ← err_if (is_some process_id) (CIE.InvalidProviderFields provider);
      match public_ipv4 with
      | Some address => err_if (negb (parses_as_ipv4 address)) (CIE.InvalidPublicIpv4 address)
      | None => Ok tt
      end
  end.

Definition ComputeInstance_rehydrate (id : ComputeInstanceId)
    (server_instance_id : ServerInstanceId) (provider : ComputeProvider)
    (provider_instance_id public_ipv4 : option string) (connection_token : string)
    (enrollment_token : option string) (process_id : option Z)
    (agent_connected_at shutdown_requested_at terminated_at : option Z)
    (terminal_result : option ComputeTerminalResult) (failure_message : option string)
    (created_at updated_at : Z) : result ComputeInstanceValidationError ComputeInstance :=
  _ ← validate_required "connection_token" connection_token MAX_CONNECTION_TOKEN_CHARS;
  _ ← validate_optional "enrollment_token" enrollment_token MAX_CONNECTION_TOKEN_CHARS;
  _ ← validate_optional "provider_instance_id" provider_instance_id
        MAX_PROVIDER_INSTANCE_ID_CHARS;
  _ ← validate_optional "public_ipv4" public_ipv4 MAX_PUBLIC_IPV4_CHARS;
  _ ← check_provider_fields provider provider_instance_id public_ipv4 enrollment_token process_id;
  _ ← err_if (negb (Bool.eqb (is_some terminated_at) (is_some terminal_result)))
        CIE.IncompleteTerminalState;
  _ ← check_times_between CIE.InvalidTimestampOrder created_at updated_at
        [agent_connected_at; shutdown_requested_at; terminated_at];
  _ ← err_if (updated_at <? created_at) CIE.InvalidTimestampOrder;
  _ ← check_terminated_last CIE.InvalidTimestampOrder terminated_at
        [agent_connected_at; shutdown_requested_at];
  _ ← validate_optional "failure_message" failure_message MAX_FAILURE_MESSAGE_CHARS;
  Ok {| ci_id := id; ci_server_instance_id := server_instance_id; ci_provider := provider;
        ci_provider_instance_id := provider_instance_id; ci_public_ipv4 := public_ipv4;
        ci_connection_token := connection_token; ci_enrollment_token := enrollment_token;
        ci_process_id := process_id; ci_agent_connected_at := agent_connected_at;
        ci_shutdown_requested_at := shutdown_requested_at; ci_terminated_at := terminated_at;
        ci_terminal_result := terminal_result; ci_failure_message := failure_message;
        ci_created_at := created_at; ci_updated_at := updated_at |}.

Definition ComputeInstance_is_active (c : ComputeInstance) : bool := is_none (ci_terminated_at c).
