(* ===== verification/InstanceFacts.v ===== *)
(** What [rehydrate] of server instances and compute instances accepts: an
    exact characterisation as well-formedness records, and the inverse laws of
    the persisted spellings. *)
From S2P Require Import Prelude Text Server ServerFacts Instances.
#[local] Open Scope string_scope.
#[local] Open Scope Z_scope.

(** ** Shared checks *)

Section shared_checks.
Context {E : Type}.
Implicit Types e : E.

Lemma err_if_tt b e : err_if b e = Ok tt ↔ b = false.
Proof. apply err_if_ok. Qed.

Lemma for_each_cons_tt {A} (f : A → result E unit) x l :
  for_each f (x :: l) = Ok tt ↔ f x = Ok tt ∧ for_each f l = Ok tt.
Proof. by rewrite !for_each_ok, Forall_cons. Qed.

Lemma flatten_times_Forall (P : Z → Prop) l :
  Forall P (flatten_times l) ↔ Forall (λ o, ∀ t, o = Some t → P t) l.
Proof.
  unfold flatten_times. induction l as [|[t|] l IH]; cbn.
  - split; constructor.
  - rewrite !Forall_cons, IH. naive_solver.
  - rewrite Forall_cons, IH. naive_solver.
Qed.

Lemma check_times_between_ok e created updated times :
  check_times_between e created updated times = Ok tt ↔
  Forall (λ o, ∀ t, o = Some t → created ≤ t ≤ updated) times.
Proof.
  unfold check_times_between. rewrite for_each_ok, <- flatten_times_Forall.
  apply Forall_iff. intros t. rewrite err_if_tt, orb_false_iff, !Z.ltb_ge. done.
Qed.

Lemma check_terminated_last_ok e terminated times :
  check_terminated_last e terminated times = Ok tt ↔
  ∀ t, terminated = Some t → Forall (λ o, ∀ p, o = Some p → p ≤ t) times.
Proof.
  unfold check_terminated_last. destruct terminated as [t|]; [|naive_solver].
  rewrite for_each_ok. setoid_rewrite err_if_tt. setoid_rewrite Z.ltb_ge.
  rewrite flatten_times_Forall. naive_solver.
Qed.
End shared_checks.

Lemma is_some_and_false {A} (p : A → bool) o :
  is_some_and p o = false ↔ ∀ a, o = Some a → p a = false.
Proof. destruct o; cbn; (split; [intros; by simplify_eq | auto]). Qed.

Lemma is_some_true {A} (o : option A) : is_some o = true ↔ is_Some o.
Proof. destruct o; cbn; split; (done || by intros []). Qed.

Lemma is_none_true {A} (o : option A) : is_none o = true ↔ o = None.
Proof. destruct o; cbn; naive_solver. Qed.

Lemma is_none_false {A} (o : option A) : is_none o = false ↔ is_Some o.
Proof. destruct o; cbn; split; (done || by intros []). Qed.

Lemma is_some_eqb {A B} (o : option A) (o' : option B) :
  negb (Bool.eqb (is_some o) (is_some o')) = false ↔ (is_Some o ↔ is_Some o').
Proof.
  rewrite negb_false_iff, eqb_true_iff, <- !is_some_true.
  destruct (is_some o), (is_some o'); naive_solver.
Qed.

(** ** Server instances *)

Record ServerInstance_wf (i : ServerInstance) : Prop := {
  si_wf_generation : si_server_generation i ≠ 0;
  si_wf_token : si_fencing_token i ≠ 0;
  si_wf_spec : ServerSpec_validate (si_resolved_spec i) = Ok tt;
  si_wf_terminal : is_Some (si_terminated_at i) ↔ is_Some (si_terminal_result i);
  si_wf_running : si_process_running i = true → is_Some (si_process_observed_at i);
  si_wf_error : ∀ m, si_last_error i = Some m → text_ok MAX_ERROR_CHARS m;
  si_wf_times : Forall (λ o, ∀ t, o = Some t → si_created_at i ≤ t ≤ si_updated_at i)
    [si_data_prepared_at i; si_process_observed_at i; si_stop_requested_at i; si_terminated_at i];
  si_wf_updated : si_created_at i ≤ si_updated_at i;
  si_wf_last : ∀ t, si_terminated_at i = Some t →
    Forall (λ o, ∀ p, o = Some p → p ≤ t)
      [si_data_prepared_at i; si_process_observed_at i; si_stop_requested_at i];
  si_wf_source : ∀ s, si_source_snapshot_id i = Some s → snapshot_id_ok s;
  si_wf_result : ∀ s, si_result_snapshot_id i = Some s → snapshot_id_ok s;
}.

(** [rehydrate] on the fields of a record. *)
Definition rehydrate_instance_fields (i : ServerInstance) :
    result ServerInstanceValidationError ServerInstance :=
  ServerInstance_rehydrate (si_id i) (si_server_id i) (si_server_generation i)
    (si_resolved_spec i) (si_fencing_token i) (si_source_snapshot_id i) (si_data_prepared_at i)
    (si_process_running i) (si_process_observed_at i) (si_result_snapshot_id i)
    (si_stop_requested_at i) (si_terminated_at i) (si_terminal_result i) (si_last_error i)
    (si_created_at i) (si_updated_at i).

Lemma check_snapshot_field_ok field value :
  check_snapshot_field (field, value) = Ok tt ↔ ∀ s, value = Some s → snapshot_id_ok s.
Proof.
  unfold check_snapshot_field, text_ok. rewrite bind_ok. setoid_rewrite bind_ok.
  setoid_rewrite err_if_ok. setoid_rewrite is_some_and_false. setoid_rewrite Z.ltb_ge.
  split; [naive_solver|]. intros H. exists tt. split; [naive_solver|]. exists tt. naive_solver.
Qed.

Lemma bind_tt_iff {E A} (m : result E unit) (k : unit → result E A) r (P Q : Prop) :
  (m = Ok tt ↔ P) → (k tt = Ok r ↔ Q) → (mbind k m = Ok r ↔ P ∧ Q).
Proof.
  intros HP HQ. rewrite bind_ok, <- HP, <- HQ. split; [intros ([] & ? & ?); done|].
  intros [? ?]. by exists tt.
Qed.

Lemma eqb_zero_false n : (n =? 0) = false ↔ n ≠ 0.
Proof. apply Z.eqb_neq. Qed.

Lemma running_observed b (o : option Z) :
  b && is_none o = false ↔ (b = true → is_Some o).
Proof. rewrite andb_false_iff, is_none_false. destruct b; naive_solver. Qed.

Lemma text_checks maximum (o : option string) :
  (is_some_and str_is_blank o = false ∧ is_some_and str_contains_nul o = false ∧
   is_some_and (λ m, maximum <? str_char_count m) o = false) ↔
  ∀ m, o = Some m → text_ok maximum m.
Proof.
  rewrite !is_some_and_false. setoid_rewrite Z.ltb_ge. unfold text_ok. naive_solver.
Qed.

Lemma ok_iff {E A} (a b : A) : (Ok a : result E A) = Ok b ↔ b = a.
Proof. naive_solver. Qed.

Lemma map_err_iff {E F A} (f : E → F) (m : result E A) a :
  map_err f m = Ok a ↔ m = Ok a.
Proof. apply map_err_ok. Qed.

(** [bind_iff] turns a chain of checks into the conjunction of their
    conditions. *)
Ltac bind_iff :=
  repeat (eapply bind_tt_iff;
    [first [ apply err_if_tt | apply check_times_between_ok | apply check_terminated_last_ok
           | apply map_err_iff | reflexivity ] |]).

(** [ServerInstance::rehydrate] accepts the fields of a record exactly when
    they are well formed, and builds that record. *)
Lemma rehydrate_instance_ok i j :
  rehydrate_instance_fields i = Ok j ↔ ServerInstance_wf i ∧ j = i.
Proof.
  unfold rehydrate_instance_fields, ServerInstance_rehydrate.
  etransitivity; [bind_iff; apply ok_iff|]. cbv beta.
  rewrite !eqb_zero_false, is_some_eqb, running_observed, Z.ltb_ge.
  rewrite !for_each_cons_tt, !check_snapshot_field_ok.
  split.
  - intros (? & ? & ? & ? & ? & ? & ? & ? & ? & ? & ? & (? & ? & _) & ->).
    split; [|by destruct i]. constructor; try done. by apply text_checks.
  - intros [[] ->].
    destruct (proj2 (text_checks _ _) si_wf_error0) as (? & ? & ?).
    split_and!; try done; by destruct i.
Qed.

(** The spelling of [TerminalResult] is inverted by its parser. *)
Lemma TerminalResult_parse_as_str r : TerminalResult_parse (TerminalResult_as_str r) = Ok r.
Proof. by destruct r. Qed.

Lemma TerminalResult_parse_ok value r :
  TerminalResult_parse value = Ok r ↔ value = TerminalResult_as_str r.
Proof.
  split; [|intros ->; apply TerminalResult_parse_as_str]. unfold TerminalResult_parse.
  destruct (String.eqb_spec value "completed"); [intros [= <-]; done|].
  destruct (String.eqb_spec value "failed"); [intros [= <-]; done|done].
Qed.

Lemma DesiredState_parse_ok value d :
  DesiredState_parse value = Ok d ↔ value = DesiredState_as_str d.
Proof.
  split; [|intros ->; by destruct d]. unfold DesiredState_parse.
  destruct (String.eqb_spec value "running"); [intros [= <-]; done|].
  destruct (String.eqb_spec value "stopped"); [intros [= <-]; done|done].
Qed.

(** ** Compute instances *)

Record ComputeInstance_wf (c : ComputeInstance) : Prop := {
  ci_wf_token : text_ok MAX_CONNECTION_TOKEN_CHARS (ci_connection_token c);
  ci_wf_enrollment : ∀ s, ci_enrollment_token c = Some s → text_ok MAX_CONNECTION_TOKEN_CHARS s;
  ci_wf_provider_id : ∀ s, ci_provider_instance_id c = Some s →
    text_ok MAX_PROVIDER_INSTANCE_ID_CHARS s;
  ci_wf_ipv4 : ∀ s, ci_public_ipv4 c = Some s → text_ok MAX_PUBLIC_IPV4_CHARS s;
  ci_wf_fields : match ci_provider c with
    | CP.LocalProcess => ci_provider_instance_id c = None ∧ ci_public_ipv4 c = None ∧
        ci_enrollment_token c = None
    | CP.Akamai => ci_process_id c = None ∧
        ∀ a, ci_public_ipv4 c = Some a → parses_as_ipv4 a = true
    end;
  ci_wf_terminal : is_Some (ci_terminated_at c) ↔ is_Some (ci_terminal_result c);
  ci_wf_times : Forall (λ o, ∀ t, o = Some t → ci_created_at c ≤ t ≤ ci_updated_at c)
    [ci_agent_connected_at c; ci_shutdown_requested_at c; ci_terminated_at c];
  ci_wf_updated : ci_created_at c ≤ ci_updated_at c;
  ci_wf_last : ∀ t, ci_terminated_at c = Some t →
    Forall (λ o, ∀ p, o = Some p → p ≤ t) [ci_agent_connected_at c; ci_shutdown_requested_at c];
  ci_wf_failure : ∀ m, ci_failure_message c = Some m → text_ok MAX_FAILURE_MESSAGE_CHARS m;
}.

Definition rehydrate_compute_fields (c : ComputeInstance) :
    result ComputeInstanceValidationError ComputeInstance :=
  ComputeInstance_rehydrate (ci_id c) (ci_server_instance_id c) (ci_provider c)
    (ci_provider_instance_id c) (ci_public_ipv4 c) (ci_connection_token c)
    (ci_enrollment_token c) (ci_process_id c) (ci_agent_connected_at c)
    (ci_shutdown_requested_at c) (ci_terminated_at c) (ci_terminal_result c)
    (ci_failure_message c) (ci_created_at c) (ci_updated_at c).

Lemma validate_required_ok field value maximum :
  validate_required field value maximum = Ok tt ↔ text_ok maximum value.
Proof.
  unfold validate_required, text_ok. etransitivity; [bind_iff; apply err_if_tt|].
  cbv beta. rewrite Z.ltb_ge. naive_solver.
Qed.

Lemma validate_optional_ok field value maximum :
  validate_optional field value maximum = Ok tt ↔ ∀ s, value = Some s → text_ok maximum s.
Proof.
  destruct value; cbn; [rewrite validate_required_ok|]; naive_solver.
Qed.

Lemma check_provider_fields_ok provider provider_id ipv4 enrollment process_id :
  check_provider_fields provider provider_id ipv4 enrollment process_id = Ok tt ↔
  match provider with
  | CP.LocalProcess => provider_id = None ∧ ipv4 = None ∧ enrollment = None
  | CP.Akamai => process_id = None ∧ ∀ a, ipv4 = Some a → parses_as_ipv4 a = true
  end.
Proof.
  unfold check_provider_fields. destruct provider.
  - rewrite err_if_tt. destruct provider_id, ipv4, enrollment; cbn; naive_solver.
  - etransitivity; [bind_iff; reflexivity|]. cbv beta.
    destruct process_id; cbn; [naive_solver|].
    destruct ipv4 as [a|]; [|naive_solver]. rewrite err_if_tt, negb_false_iff. naive_solver.
Qed.

Lemma rehydrate_compute_ok c d :
  rehydrate_compute_fields c = Ok d ↔ ComputeInstance_wf c ∧ d = c.
Proof.
  unfold rehydrate_compute_fields, ComputeInstance_rehydrate.
  etransitivity; [bind_iff; apply ok_iff|]. cbv beta.
  rewrite validate_required_ok, !validate_optional_ok, check_provider_fields_ok, is_some_eqb,
    Z.ltb_ge.
  split.
  - intros (? & ? & ? & ? & ? & ? & ? & ? & ? & ? & ->). split; [|by destruct c]. by constructor.
  - intros [[] ->]. split_and!; try done; by destruct c.
Qed.

Lemma ComputeProvider_parse_ok value p :
  ComputeProvider_parse value = Ok p ↔ value = ComputeProvider_as_str p.
Proof.
  split; [|intros ->; by destruct p]. unfold ComputeProvider_parse.
  destruct (String.eqb_spec value "local_process"); [intros [= <-]; done|].
  destruct (String.eqb_spec value "akamai"); [intros [= <-]; done|done].
Qed.

Lemma ComputeTerminalResult_parse_ok value r :
  ComputeTerminalResult_parse value = Ok r ↔ value = ComputeTerminalResult_as_str r.
Proof.
  split; [|intros ->; by destruct r]. unfold ComputeTerminalResult_parse.
  destruct (String.eqb_spec value "deleted"); [intros [= <-]; done|].
  destruct (String.eqb_spec value "failed"); [intros [= <-]; done|done].
Qed.
