(* ===== verification/Database.v ===== *)
(** The database of the control plane: the tables of migrations/0001_initial.sql,
    0002 and 0003 as rows of raw columns keyed by primary key, their [CHECK]
    constraints, and the decoding of rows
    (crates/mcserver-control-plane/src/infrastructure/server_repository.rs,
    server_instance_repository.rs and compute_instance_repository.rs).

    An [INTEGER] column is an [i64], a [TEXT] column a string and a [BLOB] its
    bytes; the boolean column [process_running] is a [bool]. The primary key is
    the key of the finite map. Text of a UUID and of a specification is made by
    the crates [uuid] and [serde_json], which are parameters: [Codec]. *)
From S2P Require Import Prelude Text Server Instances.
#[local] Open Scope string_scope.
#[local] Open Scope Z_scope.

(** ** Third-party encodings *)

(** [Uuid]'s [Display] and [Uuid::parse_str]; [serde_json::to_string] and
    [serde_json::from_str::<ServerSpec>]; SQLite's [json_valid]. An error is
    its message. *)
Class Codec := {
  uuid_to_string : Uuid → string;
  uuid_parse_str : string → result string Uuid;
  spec_to_json : ServerSpec → result string string;
  spec_from_json : string → result string ServerSpec;
  json_valid : string → bool;
}.

(** Documented behaviour: printing a UUID and parsing it gives it back, and a
    specification serializes to a JSON text that deserializes to it. *)
Class CodecLaws `{Codec} : Prop := {
  uuid_round_trip u : uuid_parse_str (uuid_to_string u) = Ok u;
  spec_round_trip s : ∃ j, spec_to_json s = Ok j ∧ spec_from_json j = Ok s ∧ json_valid j = true;
}.

(** ** Errors *)

(** The [sqlx::Error]s a statement can end with: by the schema, or because the
    file or the connection failed. *)
Inductive sqlx_error := UniqueViolation | CheckViolation | DatatypeMismatch | Unavailable.

#[global] Instance sqlx_error_eq_dec : EqDecision sqlx_error.
Proof. solve_decision. Defined.

Module RE.
(** [RepositoryError]. *)
Inductive RepositoryError :=
| Database (source : sqlx_error)
| Migration
| Serialization (source : string)
| Validation (source : ValidationError)
| Timestamp (source : TimestampError)
| ServerInstanceValidation (source : ServerInstanceValidationError)
| ComputeInstanceValidation (source : ComputeInstanceValidationError)
| CorruptData (message : string)
| IntegerOutOfRange
| Conflict (message : string)
| InvalidArchiveState.
End RE.
Abbreviation RepositoryError := RE.RepositoryError.

#[global] Instance RepositoryError_eq_dec : EqDecision RepositoryError.
Proof. solve_decision. Defined.

(** [is_unique_violation]. *)
Definition is_unique_violation (e : sqlx_error) : bool :=
  match e with UniqueViolation => true | _ => false end.

(** ** SQL text functions *)

(** [length(s)]: the number of characters before the first NUL. *)
Fixpoint before_nul (s : string) : string :=
  match s with
  | EmptyString => EmptyString
  | String c s' => if Ascii.eqb c Ascii.zero then EmptyString else String c (before_nul s')
  end.
Definition sql_length (s : string) : Z := str_char_count (before_nul s).

(** [trim(s)]: removes spaces, and only spaces, at both ends. *)
Fixpoint sql_ltrim (s : string) : string :=
  match s with
  | String c s' => if byte_is " " c then sql_ltrim s' else s
  | EmptyString => EmptyString
  end.
Fixpoint sql_rtrim (s : string) : string :=
  match s with
  | String c s' =>
      match sql_rtrim s' with
      | EmptyString => if byte_is " " c then EmptyString else String c EmptyString
      | t => String c t
      end
  | EmptyString => EmptyString
  end.
Definition sql_trim (s : string) : string := sql_rtrim (sql_ltrim s).

(** [length(trim(s)) > 0 AND length(s) <= maximum AND instr(s, char(0)) = 0]. *)
Definition sql_text_check (maximum : Z) (s : string) : bool :=
  (0 <? sql_length (sql_trim s)) && (sql_length s <=? maximum) && negb (str_contains_nul s).

(** [length(s) > 0 AND length(s) <= maximum AND instr(s, char(0)) = 0]. *)
Definition sql_pem_check (maximum : Z) (s : string) : bool :=
  (0 <? sql_length s) && (sql_length s <=? maximum) && negb (str_contains_nul s).

(** [c IS NULL OR p(c)]; also a bare comparison [p(c)], which a [CHECK]
    accepts when it is [NULL]. *)
Definition sql_null_or {A} (p : A → bool) (c : option A) : bool :=
  match c with Some a => p a | None => true end.

(** [c BETWEEN low AND high]. *)
Definition sql_between (low high c : Z) : bool := (low <=? c) && (c <=? high).

Definition sql_coalesce {A} (c : option A) (d : A) : A := from_option id d c.

(** ** Tables *)

(** [servers]. *)
Record servers_row := {
  sr_name : string;
  sr_generation : Z;
  sr_desired_state : string;
  sr_spec_json : string;
  sr_current_snapshot_id : option string;
  sr_archived_at_ms : option Z;
  sr_next_fencing_token : Z;
  sr_created_at_ms : Z;
  sr_updated_at_ms : Z;
}.

(** [server_instances]. *)
Record server_instances_row := {
  ir_server_id : string;
  ir_server_generation : Z;
  ir_resolved_spec_json : string;
  ir_fencing_token : Z;
  ir_source_snapshot_id : option string;
  ir_data_prepared_at_ms : option Z;
  ir_process_running : bool;
  ir_process_observed_at_ms : option Z;
  ir_result_snapshot_id : option string;
  ir_stop_requested_at_ms : option Z;
  ir_terminated_at_ms : option Z;
  ir_terminal_result : option string;
  ir_last_error : option string;
  ir_created_at_ms : Z;
  ir_updated_at_ms : Z;
}.

(** [compute_instances]. *)
Record compute_instances_row := {
  cr_server_instance_id : string;
  cr_provider : string;
  cr_provider_instance_id : option string;
  cr_public_ipv4 : option string;
  cr_connection_token : string;
  cr_enrollment_token : option string;
  cr_agent_csr_pem : option string;
  cr_agent_certificate_chain_pem : option string;
  cr_agent_certificate_der : option string;
  cr_agent_certificate_expires_at_ms : option Z;
  cr_process_id : option Z;
  cr_agent_connected_at_ms : option Z;
  cr_shutdown_requested_at_ms : option Z;
  cr_terminated_at_ms : option Z;
  cr_terminal_result : option string;
  cr_failure_message : option string;
  cr_created_at_ms : Z;
  cr_updated_at_ms : Z;
}.

(** [snapshots], keyed by [(server_id, id)]. *)
Record snapshots_row := {
  nr_server_instance_id : string;
  nr_fencing_token : Z;
  nr_created_at_ms : Z;
}.

Record Database := {
  servers : gmap string servers_row;
  server_instances : gmap string server_instances_row;
  compute_instances : gmap string compute_instances_row;
  snapshots : gmap (string * string) snapshots_row;
}.

(** Assignments of columns. *)
Definition set_sr_desired_state (v : string) (r : servers_row) : servers_row :=
  {| sr_name := sr_name r; sr_generation := sr_generation r; sr_desired_state := v; sr_spec_json
     := sr_spec_json r; sr_current_snapshot_id := sr_current_snapshot_id r; sr_archived_at_ms :=
     sr_archived_at_ms r; sr_next_fencing_token := sr_next_fencing_token r; sr_created_at_ms :=
     sr_created_at_ms r; sr_updated_at_ms := sr_updated_at_ms r |}.
Definition set_sr_generation (v : Z) (r : servers_row) : servers_row :=
  {| sr_name := sr_name r; sr_generation := v; sr_desired_state := sr_desired_state r;
     sr_spec_json := sr_spec_json r; sr_current_snapshot_id := sr_current_snapshot_id r;
     sr_archived_at_ms := sr_archived_at_ms r; sr_next_fencing_token := sr_next_fencing_token r;
     sr_created_at_ms := sr_created_at_ms r; sr_updated_at_ms := sr_updated_at_ms r |}.
Definition set_sr_updated_at_ms (v : Z) (r : servers_row) : servers_row :=
  {| sr_name := sr_name r; sr_generation := sr_generation r; sr_desired_state :=
     sr_desired_state r; sr_spec_json := sr_spec_json r; sr_current_snapshot_id :=
     sr_current_snapshot_id r; sr_archived_at_ms := sr_archived_at_ms r; sr_next_fencing_token
     := sr_next_fencing_token r; sr_created_at_ms := sr_created_at_ms r; sr_updated_at_ms := v
     |}.
Definition set_sr_spec_json (v : string) (r : servers_row) : servers_row :=
  {| sr_name := sr_name r; sr_generation := sr_generation r; sr_desired_state :=
     sr_desired_state r; sr_spec_json := v; sr_current_snapshot_id := sr_current_snapshot_id r;
     sr_archived_at_ms := sr_archived_at_ms r; sr_next_fencing_token := sr_next_fencing_token r;
     sr_created_at_ms := sr_created_at_ms r; sr_updated_at_ms := sr_updated_at_ms r |}.
Definition set_sr_archived_at_ms (v : option Z) (r : servers_row) : servers_row :=
  {| sr_name := sr_name r; sr_generation := sr_generation r; sr_desired_state :=
     sr_desired_state r; sr_spec_json := sr_spec_json r; sr_current_snapshot_id :=
     sr_current_snapshot_id r; sr_archived_at_ms := v; sr_next_fencing_token :=
     sr_next_fencing_token r; sr_created_at_ms := sr_created_at_ms r; sr_updated_at_ms :=
     sr_updated_at_ms r |}.
Definition set_sr_next_fencing_token (v : Z) (r : servers_row) : servers_row :=
  {| sr_name := sr_name r; sr_generation := sr_generation r; sr_desired_state :=
     sr_desired_state r; sr_spec_json := sr_spec_json r; sr_current_snapshot_id :=
     sr_current_snapshot_id r; sr_archived_at_ms := sr_archived_at_ms r; sr_next_fencing_token
     := v; sr_created_at_ms := sr_created_at_ms r; sr_updated_at_ms := sr_updated_at_ms r |}.
Definition set_sr_current_snapshot_id (v : option string) (r : servers_row) : servers_row :=
  {| sr_name := sr_name r; sr_generation := sr_generation r; sr_desired_state :=
     sr_desired_state r; sr_spec_json := sr_spec_json r; sr_current_snapshot_id := v;
     sr_archived_at_ms := sr_archived_at_ms r; sr_next_fencing_token := sr_next_fencing_token r;
     sr_created_at_ms := sr_created_at_ms r; sr_updated_at_ms := sr_updated_at_ms r |}.
Definition set_ir_data_prepared_at_ms (v : option Z) (r : server_instances_row) : server_instances_row :=
  {| ir_server_id := ir_server_id r; ir_server_generation := ir_server_generation r;
     ir_resolved_spec_json := ir_resolved_spec_json r; ir_fencing_token := ir_fencing_token r;
     ir_source_snapshot_id := ir_source_snapshot_id r; ir_data_prepared_at_ms := v;
     ir_process_running := ir_process_running r; ir_process_observed_at_ms :=
     ir_process_observed_at_ms r; ir_result_snapshot_id := ir_result_snapshot_id r;
     ir_stop_requested_at_ms := ir_stop_requested_at_ms r; ir_terminated_at_ms :=
     ir_terminated_at_ms r; ir_terminal_result := ir_terminal_result r; ir_last_error :=
     ir_last_error r; ir_created_at_ms := ir_created_at_ms r; ir_updated_at_ms :=
     ir_updated_at_ms r |}.
Definition set_ir_process_running (v : bool) (r : server_instances_row) : server_instances_row :=
  {| ir_server_id := ir_server_id r; ir_server_generation := ir_server_generation r;
     ir_resolved_spec_json := ir_resolved_spec_json r; ir_fencing_token := ir_fencing_token r;
     ir_source_snapshot_id := ir_source_snapshot_id r; ir_data_prepared_at_ms :=
     ir_data_prepared_at_ms r; ir_process_running := v; ir_process_observed_at_ms :=
     ir_process_observed_at_ms r; ir_result_snapshot_id := ir_result_snapshot_id r;
     ir_stop_requested_at_ms := ir_stop_requested_at_ms r; ir_terminated_at_ms :=
     ir_terminated_at_ms r; ir_terminal_result := ir_terminal_result r; ir_last_error :=
     ir_last_error r; ir_created_at_ms := ir_created_at_ms r; ir_updated_at_ms :=
     ir_updated_at_ms r |}.
Definition set_ir_process_observed_at_ms (v : option Z) (r : server_instances_row) : server_instances_row :=
  {| ir_server_id := ir_server_id r; ir_server_generation := ir_server_generation r;
     ir_resolved_spec_json := ir_resolved_spec_json r; ir_fencing_token := ir_fencing_token r;
     ir_source_snapshot_id := ir_source_snapshot_id r; ir_data_prepared_at_ms :=
     ir_data_prepared_at_ms r; ir_process_running := ir_process_running r;
     ir_process_observed_at_ms := v; ir_result_snapshot_id := ir_result_snapshot_id r;
     ir_stop_requested_at_ms := ir_stop_requested_at_ms r; ir_terminated_at_ms :=
     ir_terminated_at_ms r; ir_terminal_result := ir_terminal_result r; ir_last_error :=
     ir_last_error r; ir_created_at_ms := ir_created_at_ms r; ir_updated_at_ms :=
     ir_updated_at_ms r |}.
Definition set_ir_result_snapshot_id (v : option string) (r : server_instances_row) : server_instances_row :=
  {| ir_server_id := ir_server_id r; ir_server_generation := ir_server_generation r;
     ir_resolved_spec_json := ir_resolved_spec_json r; ir_fencing_token := ir_fencing_token r;
     ir_source_snapshot_id := ir_source_snapshot_id r; ir_data_prepared_at_ms :=
     ir_data_prepared_at_ms r; ir_process_running := ir_process_running r;
     ir_process_observed_at_ms := ir_process_observed_at_ms r; ir_result_snapshot_id := v;
     ir_stop_requested_at_ms := ir_stop_requested_at_ms r; ir_terminated_at_ms :=
     ir_terminated_at_ms r; ir_terminal_result := ir_terminal_result r; ir_last_error :=
     ir_last_error r; ir_created_at_ms := ir_created_at_ms r; ir_updated_at_ms :=
     ir_updated_at_ms r |}.
Definition set_ir_stop_requested_at_ms (v : option Z) (r : server_instances_row) : server_instances_row :=
  {| ir_server_id := ir_server_id r; ir_server_generation := ir_server_generation r;
     ir_resolved_spec_json := ir_resolved_spec_json r; ir_fencing_token := ir_fencing_token r;
     ir_source_snapshot_id := ir_source_snapshot_id r; ir_data_prepared_at_ms :=
     ir_data_prepared_at_ms r; ir_process_running := ir_process_running r;
     ir_process_observed_at_ms := ir_process_observed_at_ms r; ir_result_snapshot_id :=
     ir_result_snapshot_id r; ir_stop_requested_at_ms := v; ir_terminated_at_ms :=
     ir_terminated_at_ms r; ir_terminal_result := ir_terminal_result r; ir_last_error :=
     ir_last_error r; ir_created_at_ms := ir_created_at_ms r; ir_updated_at_ms :=
     ir_updated_at_ms r |}.
Definition set_ir_terminated_at_ms (v : option Z) (r : server_instances_row) : server_instances_row :=
  {| ir_server_id := ir_server_id r; ir_server_generation := ir_server_generation r;
     ir_resolved_spec_json := ir_resolved_spec_json r; ir_fencing_token := ir_fencing_token r;
     ir_source_snapshot_id := ir_source_snapshot_id r; ir_data_prepared_at_ms :=
     ir_data_prepared_at_ms r; ir_process_running := ir_process_running r;
     ir_process_observed_at_ms := ir_process_observed_at_ms r; ir_result_snapshot_id :=
     ir_result_snapshot_id r; ir_stop_requested_at_ms := ir_stop_requested_at_ms r;
     ir_terminated_at_ms := v; ir_terminal_result := ir_terminal_result r; ir_last_error :=
     ir_last_error r; ir_created_at_ms := ir_created_at_ms r; ir_updated_at_ms :=
     ir_updated_at_ms r |}.
Definition set_ir_terminal_result (v : option string) (r : server_instances_row) : server_instances_row :=
  {| ir_server_id := ir_server_id r; ir_server_generation := ir_server_generation r;
     ir_resolved_spec_json := ir_resolved_spec_json r; ir_fencing_token := ir_fencing_token r;
     ir_source_snapshot_id := ir_source_snapshot_id r; ir_data_prepared_at_ms :=
     ir_data_prepared_at_ms r; ir_process_running := ir_process_running r;
     ir_process_observed_at_ms := ir_process_observed_at_ms r; ir_result_snapshot_id :=
     ir_result_snapshot_id r; ir_stop_requested_at_ms := ir_stop_requested_at_ms r;
     ir_terminated_at_ms := ir_terminated_at_ms r; ir_terminal_result := v; ir_last_error :=
     ir_last_error r; ir_created_at_ms := ir_created_at_ms r; ir_updated_at_ms :=
     ir_updated_at_ms r |}.
Definition set_ir_last_error (v : option string) (r : server_instances_row) : server_instances_row :=
  {| ir_server_id := ir_server_id r; ir_server_generation := ir_server_generation r;
     ir_resolved_spec_json := ir_resolved_spec_json r; ir_fencing_token := ir_fencing_token r;
     ir_source_snapshot_id := ir_source_snapshot_id r; ir_data_prepared_at_ms :=
     ir_data_prepared_at_ms r; ir_process_running := ir_process_running r;
     ir_process_observed_at_ms := ir_process_observed_at_ms r; ir_result_snapshot_id :=
     ir_result_snapshot_id r; ir_stop_requested_at_ms := ir_stop_requested_at_ms r;
     ir_terminated_at_ms := ir_terminated_at_ms r; ir_terminal_result := ir_terminal_result r;
     ir_last_error := v; ir_created_at_ms := ir_created_at_ms r; ir_updated_at_ms :=
     ir_updated_at_ms r |}.
Definition set_ir_updated_at_ms (v : Z) (r : server_instances_row) : server_instances_row :=
  {| ir_server_id := ir_server_id r; ir_server_generation := ir_server_generation r;
     ir_resolved_spec_json := ir_resolved_spec_json r; ir_fencing_token := ir_fencing_token r;
     ir_source_snapshot_id := ir_source_snapshot_id r; ir_data_prepared_at_ms :=
     ir_data_prepared_at_ms r; ir_process_running := ir_process_running r;
     ir_process_observed_at_ms := ir_process_observed_at_ms r; ir_result_snapshot_id :=
     ir_result_snapshot_id r; ir_stop_requested_at_ms := ir_stop_requested_at_ms r;
     ir_terminated_at_ms := ir_terminated_at_ms r; ir_terminal_result := ir_terminal_result r;
     ir_last_error := ir_last_error r; ir_created_at_ms := ir_created_at_ms r; ir_updated_at_ms
     := v |}.
Definition set_cr_provider_instance_id (v : option string) (r : compute_instances_row) : compute_instances_row :=
  {| cr_server_instance_id := cr_server_instance_id r; cr_provider := cr_provider r;
     cr_provider_instance_id := v; cr_public_ipv4 := cr_public_ipv4 r; cr_connection_token :=
     cr_connection_token r; cr_enrollment_token := cr_enrollment_token r; cr_agent_csr_pem :=
     cr_agent_csr_pem r; cr_agent_certificate_chain_pem := cr_agent_certificate_chain_pem r;
     cr_agent_certificate_der := cr_agent_certificate_der r; cr_agent_certificate_expires_at_ms
     := cr_agent_certificate_expires_at_ms r; cr_process_id := cr_process_id r;
     cr_agent_connected_at_ms := cr_agent_connected_at_ms r; cr_shutdown_requested_at_ms :=
     cr_shutdown_requested_at_ms r; cr_terminated_at_ms := cr_terminated_at_ms r;
     cr_terminal_result := cr_terminal_result r; cr_failure_message := cr_failure_message r;
     cr_created_at_ms := cr_created_at_ms r; cr_updated_at_ms := cr_updated_at_ms r |}.
Definition set_cr_public_ipv4 (v : option string) (r : compute_instances_row) : compute_instances_row :=
  {| cr_server_instance_id := cr_server_instance_id r; cr_provider := cr_provider r;
     cr_provider_instance_id := cr_provider_instance_id r; cr_public_ipv4 := v;
     cr_connection_token := cr_connection_token r; cr_enrollment_token := cr_enrollment_token r;
     cr_agent_csr_pem := cr_agent_csr_pem r; cr_agent_certificate_chain_pem :=
     cr_agent_certificate_chain_pem r; cr_agent_certificate_der := cr_agent_certificate_der r;
     cr_agent_certificate_expires_at_ms := cr_agent_certificate_expires_at_ms r; cr_process_id
     := cr_process_id r; cr_agent_connected_at_ms := cr_agent_connected_at_ms r;
     cr_shutdown_requested_at_ms := cr_shutdown_requested_at_ms r; cr_terminated_at_ms :=
     cr_terminated_at_ms r; cr_terminal_result := cr_terminal_result r; cr_failure_message :=
     cr_failure_message r; cr_created_at_ms := cr_created_at_ms r; cr_updated_at_ms :=
     cr_updated_at_ms r |}.
Definition set_cr_enrollment_token (v : option string) (r : compute_instances_row) : compute_instances_row :=
  {| cr_server_instance_id := cr_server_instance_id r; cr_provider := cr_provider r;
     cr_provider_instance_id := cr_provider_instance_id r; cr_public_ipv4 := cr_public_ipv4 r;
     cr_connection_token := cr_connection_token r; cr_enrollment_token := v; cr_agent_csr_pem :=
     cr_agent_csr_pem r; cr_agent_certificate_chain_pem := cr_agent_certificate_chain_pem r;
     cr_agent_certificate_der := cr_agent_certificate_der r; cr_agent_certificate_expires_at_ms
     := cr_agent_certificate_expires_at_ms r; cr_process_id := cr_process_id r;
     cr_agent_connected_at_ms := cr_agent_connected_at_ms r; cr_shutdown_requested_at_ms :=
     cr_shutdown_requested_at_ms r; cr_terminated_at_ms := cr_terminated_at_ms r;
     cr_terminal_result := cr_terminal_result r; cr_failure_message := cr_failure_message r;
     cr_created_at_ms := cr_created_at_ms r; cr_updated_at_ms := cr_updated_at_ms r |}.
Definition set_cr_agent_csr_pem (v : option string) (r : compute_instances_row) : compute_instances_row :=
  {| cr_server_instance_id := cr_server_instance_id r; cr_provider := cr_provider r;
     cr_provider_instance_id := cr_provider_instance_id r; cr_public_ipv4 := cr_public_ipv4 r;
     cr_connection_token := cr_connection_token r; cr_enrollment_token := cr_enrollment_token r;
     cr_agent_csr_pem := v; cr_agent_certificate_chain_pem := cr_agent_certificate_chain_pem r;
     cr_agent_certificate_der := cr_agent_certificate_der r; cr_agent_certificate_expires_at_ms
     := cr_agent_certificate_expires_at_ms r; cr_process_id := cr_process_id r;
     cr_agent_connected_at_ms := cr_agent_connected_at_ms r; cr_shutdown_requested_at_ms :=
     cr_shutdown_requested_at_ms r; cr_terminated_at_ms := cr_terminated_at_ms r;
     cr_terminal_result := cr_terminal_result r; cr_failure_message := cr_failure_message r;
     cr_created_at_ms := cr_created_at_ms r; cr_updated_at_ms := cr_updated_at_ms r |}.
Definition set_cr_agent_certificate_chain_pem (v : option string) (r : compute_instances_row) : compute_instances_row :=
  {| cr_server_instance_id := cr_server_instance_id r; cr_provider := cr_provider r;
     cr_provider_instance_id := cr_provider_instance_id r; cr_public_ipv4 := cr_public_ipv4 r;
     cr_connection_token := cr_connection_token r; cr_enrollment_token := cr_enrollment_token r;
     cr_agent_csr_pem := cr_agent_csr_pem r; cr_agent_certificate_chain_pem := v;
     cr_agent_certificate_der := cr_agent_certificate_der r; cr_agent_certificate_expires_at_ms
     := cr_agent_certificate_expires_at_ms r; cr_process_id := cr_process_id r;
     cr_agent_connected_at_ms := cr_agent_connected_at_ms r; cr_shutdown_requested_at_ms :=
     cr_shutdown_requested_at_ms r; cr_terminated_at_ms := cr_terminated_at_ms r;
     cr_terminal_result := cr_terminal_result r; cr_failure_message := cr_failure_message r;
     cr_created_at_ms := cr_created_at_ms r; cr_updated_at_ms := cr_updated_at_ms r |}.
Definition set_cr_agent_certificate_der (v : option string) (r : compute_instances_row) : compute_instances_row :=
  {| cr_server_instance_id := cr_server_instance_id r; cr_provider := cr_provider r;
     cr_provider_instance_id := cr_provider_instance_id r; cr_public_ipv4 := cr_public_ipv4 r;
     cr_connection_token := cr_connection_token r; cr_enrollment_token := cr_enrollment_token r;
     cr_agent_csr_pem := cr_agent_csr_pem r; cr_agent_certificate_chain_pem :=
     cr_agent_certificate_chain_pem r; cr_agent_certificate_der := v;
     cr_agent_certificate_expires_at_ms := cr_agent_certificate_expires_at_ms r; cr_process_id
     := cr_process_id r; cr_agent_connected_at_ms := cr_agent_connected_at_ms r;
     cr_shutdown_requested_at_ms := cr_shutdown_requested_at_ms r; cr_terminated_at_ms :=
     cr_terminated_at_ms r; cr_terminal_result := cr_terminal_result r; cr_failure_message :=
     cr_failure_message r; cr_created_at_ms := cr_created_at_ms r; cr_updated_at_ms :=
     cr_updated_at_ms r |}.
Definition set_cr_agent_certificate_expires_at_ms (v : option Z) (r : compute_instances_row) : compute_instances_row :=
  {| cr_server_instance_id := cr_server_instance_id r; cr_provider := cr_provider r;
     cr_provider_instance_id := cr_provider_instance_id r; cr_public_ipv4 := cr_public_ipv4 r;
     cr_connection_token := cr_connection_token r; cr_enrollment_token := cr_enrollment_token r;
     cr_agent_csr_pem := cr_agent_csr_pem r; cr_agent_certificate_chain_pem :=
     cr_agent_certificate_chain_pem r; cr_agent_certificate_der := cr_agent_certificate_der r;
     cr_agent_certificate_expires_at_ms := v; cr_process_id := cr_process_id r;
     cr_agent_connected_at_ms := cr_agent_connected_at_ms r; cr_shutdown_requested_at_ms :=
     cr_shutdown_requested_at_ms r; cr_terminated_at_ms := cr_terminated_at_ms r;
     cr_terminal_result := cr_terminal_result r; cr_failure_message := cr_failure_message r;
     cr_created_at_ms := cr_created_at_ms r; cr_updated_at_ms := cr_updated_at_ms r |}.
Definition set_cr_process_id (v : option Z) (r : compute_instances_row) : compute_instances_row :=
  {| cr_server_instance_id := cr_server_instance_id r; cr_provider := cr_provider r;
     cr_provider_instance_id := cr_provider_instance_id r; cr_public_ipv4 := cr_public_ipv4 r;
     cr_connection_token := cr_connection_token r; cr_enrollment_token := cr_enrollment_token r;
     cr_agent_csr_pem := cr_agent_csr_pem r; cr_agent_certificate_chain_pem :=
     cr_agent_certificate_chain_pem r; cr_agent_certificate_der := cr_agent_certificate_der r;
     cr_agent_certificate_expires_at_ms := cr_agent_certificate_expires_at_ms r; cr_process_id
     := v; cr_agent_connected_at_ms := cr_agent_connected_at_ms r; cr_shutdown_requested_at_ms
     := cr_shutdown_requested_at_ms r; cr_terminated_at_ms := cr_terminated_at_ms r;
     cr_terminal_result := cr_terminal_result r; cr_failure_message := cr_failure_message r;
     cr_created_at_ms := cr_created_at_ms r; cr_updated_at_ms := cr_updated_at_ms r |}.
Definition set_cr_agent_connected_at_ms (v : option Z) (r : compute_instances_row) : compute_instances_row :=
  {| cr_server_instance_id := cr_server_instance_id r; cr_provider := cr_provider r;
     cr_provider_instance_id := cr_provider_instance_id r; cr_public_ipv4 := cr_public_ipv4 r;
     cr_connection_token := cr_connection_token r; cr_enrollment_token := cr_enrollment_token r;
     cr_agent_csr_pem := cr_agent_csr_pem r; cr_agent_certificate_chain_pem :=
     cr_agent_certificate_chain_pem r; cr_agent_certificate_der := cr_agent_certificate_der r;
     cr_agent_certificate_expires_at_ms := cr_agent_certificate_expires_at_ms r; cr_process_id
     := cr_process_id r; cr_agent_connected_at_ms := v; cr_shutdown_requested_at_ms :=
     cr_shutdown_requested_at_ms r; cr_terminated_at_ms := cr_terminated_at_ms r;
     cr_terminal_result := cr_terminal_result r; cr_failure_message := cr_failure_message r;
     cr_created_at_ms := cr_created_at_ms r; cr_updated_at_ms := cr_updated_at_ms r |}.
Definition set_cr_shutdown_requested_at_ms (v : option Z) (r : compute_instances_row) : compute_instances_row :=
  {| cr_server_instance_id := cr_server_instance_id r; cr_provider := cr_provider r;
     cr_provider_instance_id := cr_provider_instance_id r; cr_public_ipv4 := cr_public_ipv4 r;
     cr_connection_token := cr_connection_token r; cr_enrollment_token := cr_enrollment_token r;
     cr_agent_csr_pem := cr_agent_csr_pem r; cr_agent_certificate_chain_pem :=
     cr_agent_certificate_chain_pem r; cr_agent_certificate_der := cr_agent_certificate_der r;
     cr_agent_certificate_expires_at_ms := cr_agent_certificate_expires_at_ms r; cr_process_id
     := cr_process_id r; cr_agent_connected_at_ms := cr_agent_connected_at_ms r;
     cr_shutdown_requested_at_ms := v; cr_terminated_at_ms := cr_terminated_at_ms r;
     cr_terminal_result := cr_terminal_result r; cr_failure_message := cr_failure_message r;
     cr_created_at_ms := cr_created_at_ms r; cr_updated_at_ms := cr_updated_at_ms r |}.
Definition set_cr_terminated_at_ms (v : option Z) (r : compute_instances_row) : compute_instances_row :=
  {| cr_server_instance_id := cr_server_instance_id r; cr_provider := cr_provider r;
     cr_provider_instance_id := cr_provider_instance_id r; cr_public_ipv4 := cr_public_ipv4 r;
     cr_connection_token := cr_connection_token r; cr_enrollment_token := cr_enrollment_token r;
     cr_agent_csr_pem := cr_agent_csr_pem r; cr_agent_certificate_chain_pem :=
     cr_agent_certificate_chain_pem r; cr_agent_certificate_der := cr_agent_certificate_der r;
     cr_agent_certificate_expires_at_ms := cr_agent_certificate_expires_at_ms r; cr_process_id
     := cr_process_id r; cr_agent_connected_at_ms := cr_agent_connected_at_ms r;
     cr_shutdown_requested_at_ms := cr_shutdown_requested_at_ms r; cr_terminated_at_ms := v;
     cr_terminal_result := cr_terminal_result r; cr_failure_message := cr_failure_message r;
     cr_created_at_ms := cr_created_at_ms r; cr_updated_at_ms := cr_updated_at_ms r |}.
Definition set_cr_terminal_result (v : option string) (r : compute_instances_row) : compute_instances_row :=
  {| cr_server_instance_id := cr_server_instance_id r; cr_provider := cr_provider r;
     cr_provider_instance_id := cr_provider_instance_id r; cr_public_ipv4 := cr_public_ipv4 r;
     cr_connection_token := cr_connection_token r; cr_enrollment_token := cr_enrollment_token r;
     cr_agent_csr_pem := cr_agent_csr_pem r; cr_agent_certificate_chain_pem :=
     cr_agent_certificate_chain_pem r; cr_agent_certificate_der := cr_agent_certificate_der r;
     cr_agent_certificate_expires_at_ms := cr_agent_certificate_expires_at_ms r; cr_process_id
     := cr_process_id r; cr_agent_connected_at_ms := cr_agent_connected_at_ms r;
     cr_shutdown_requested_at_ms := cr_shutdown_requested_at_ms r; cr_terminated_at_ms :=
     cr_terminated_at_ms r; cr_terminal_result := v; cr_failure_message := cr_failure_message r;
     cr_created_at_ms := cr_created_at_ms r; cr_updated_at_ms := cr_updated_at_ms r |}.
Definition set_cr_failure_message (v : option string) (r : compute_instances_row) : compute_instances_row :=
  {| cr_server_instance_id := cr_server_instance_id r; cr_provider := cr_provider r;
     cr_provider_instance_id := cr_provider_instance_id r; cr_public_ipv4 := cr_public_ipv4 r;
     cr_connection_token := cr_connection_token r; cr_enrollment_token := cr_enrollment_token r;
     cr_agent_csr_pem := cr_agent_csr_pem r; cr_agent_certificate_chain_pem :=
     cr_agent_certificate_chain_pem r; cr_agent_certificate_der := cr_agent_certificate_der r;
     cr_agent_certificate_expires_at_ms := cr_agent_certificate_expires_at_ms r; cr_process_id
     := cr_process_id r; cr_agent_connected_at_ms := cr_agent_connected_at_ms r;
     cr_shutdown_requested_at_ms := cr_shutdown_requested_at_ms r; cr_terminated_at_ms :=
     cr_terminated_at_ms r; cr_terminal_result := cr_terminal_result r; cr_failure_message := v;
     cr_created_at_ms := cr_created_at_ms r; cr_updated_at_ms := cr_updated_at_ms r |}.
Definition set_cr_updated_at_ms (v : Z) (r : compute_instances_row) : compute_instances_row :=
  {| cr_server_instance_id := cr_server_instance_id r; cr_provider := cr_provider r;
     cr_provider_instance_id := cr_provider_instance_id r; cr_public_ipv4 := cr_public_ipv4 r;
     cr_connection_token := cr_connection_token r; cr_enrollment_token := cr_enrollment_token r;
     cr_agent_csr_pem := cr_agent_csr_pem r; cr_agent_certificate_chain_pem :=
     cr_agent_certificate_chain_pem r; cr_agent_certificate_der := cr_agent_certificate_der r;
     cr_agent_certificate_expires_at_ms := cr_agent_certificate_expires_at_ms r; cr_process_id
     := cr_process_id r; cr_agent_connected_at_ms := cr_agent_connected_at_ms r;
     cr_shutdown_requested_at_ms := cr_shutdown_requested_at_ms r; cr_terminated_at_ms :=
     cr_terminated_at_ms r; cr_terminal_result := cr_terminal_result r; cr_failure_message :=
     cr_failure_message r; cr_created_at_ms := cr_created_at_ms r; cr_updated_at_ms := v |}.

Definition set_servers (v : gmap string servers_row) (db : Database) : Database :=
  {| servers := v; server_instances := server_instances db;
     compute_instances := compute_instances db; snapshots := snapshots db |}.
Definition set_server_instances (v : gmap string server_instances_row) (db : Database) : Database :=
  {| servers := servers db; server_instances := v;
     compute_instances := compute_instances db; snapshots := snapshots db |}.
Definition set_compute_instances (v : gmap string compute_instances_row) (db : Database) :
    Database :=
  {| servers := servers db; server_instances := server_instances db;
     compute_instances := v; snapshots := snapshots db |}.
Definition set_snapshots (v : gmap (string * string) snapshots_row) (db : Database) : Database :=
  {| servers := servers db; server_instances := server_instances db;
     compute_instances := compute_instances db; snapshots := v |}.

(** The database a migration of an empty file leaves. *)
Definition empty_database : Database :=
  {| servers := ∅; server_instances := ∅; compute_instances := ∅; snapshots := ∅ |}.

(** ** CHECK constraints *)

Section checks.
Context `{Codec}.

Definition servers_check (r : servers_row) : bool :=
  sql_text_check 128 (sr_name r)
  && (0 <? sr_generation r)
  && (String.eqb (sr_desired_state r) "running" || String.eqb (sr_desired_state r) "stopped")
  && json_valid (sr_spec_json r)
  && sql_null_or (sql_text_check 256) (sr_current_snapshot_id r)
  && (0 <? sr_next_fencing_token r)
  && (0 <=? sr_created_at_ms r)
  && (sr_created_at_ms r <=? sr_updated_at_ms r)
  && sql_null_or (λ at_ms, (sr_created_at_ms r <=? at_ms) && (at_ms <=? sr_updated_at_ms r)
                           && String.eqb (sr_desired_state r) "stopped") (sr_archived_at_ms r).

Definition server_instances_check (r : server_instances_row) : bool :=
  let between := sql_between (ir_created_at_ms r) (ir_updated_at_ms r) in
  (0 <? ir_server_generation r)
  && json_valid (ir_resolved_spec_json r)
  && (0 <? ir_fencing_token r)
  && sql_null_or (sql_text_check 256) (ir_source_snapshot_id r)
  && sql_null_or (Z.leb 0) (ir_data_prepared_at_ms r)
  && sql_null_or (Z.leb 0) (ir_process_observed_at_ms r)
  && sql_null_or (sql_text_check 256) (ir_result_snapshot_id r)
  && sql_null_or (Z.leb 0) (ir_stop_requested_at_ms r)
  && sql_null_or (Z.leb 0) (ir_terminated_at_ms r)
  && sql_null_or (λ t, String.eqb t "completed" || String.eqb t "failed") (ir_terminal_result r)
  && sql_null_or (sql_text_check 8192) (ir_last_error r)
  && (0 <=? ir_created_at_ms r)
  && (ir_created_at_ms r <=? ir_updated_at_ms r)
  && Bool.eqb (is_none (ir_terminated_at_ms r)) (is_none (ir_terminal_result r))
  && (negb (ir_process_running r) || is_some (ir_process_observed_at_ms r))
  && (is_none (ir_terminated_at_ms r) || negb (ir_process_running r))
  && sql_null_or between (ir_data_prepared_at_ms r)
  && sql_null_or between (ir_process_observed_at_ms r)
  && sql_null_or between (ir_stop_requested_at_ms r)
  && sql_null_or between (ir_terminated_at_ms r)
  && sql_null_or (λ t, Z.max (sql_coalesce (ir_data_prepared_at_ms r) 0)
       (Z.max (sql_coalesce (ir_process_observed_at_ms r) 0)
              (sql_coalesce (ir_stop_requested_at_ms r) 0)) <=? t) (ir_terminated_at_ms r).

(** The two table constraints on provider fields and agent certificates. *)
Definition compute_provider_check (r : compute_instances_row) : bool :=
  (String.eqb (cr_provider r) "local_process"
   && is_none (cr_provider_instance_id r) && is_none (cr_public_ipv4 r)
   && is_none (cr_enrollment_token r) && is_none (cr_agent_csr_pem r)
   && is_none (cr_agent_certificate_chain_pem r) && is_none (cr_agent_certificate_der r)
   && is_none (cr_agent_certificate_expires_at_ms r))
  || (String.eqb (cr_provider r) "akamai" && is_none (cr_process_id r)).

Definition compute_certificate_check (r : compute_instances_row) : bool :=
  (is_none (cr_agent_csr_pem r) && is_none (cr_agent_certificate_chain_pem r)
   && is_none (cr_agent_certificate_der r) && is_none (cr_agent_certificate_expires_at_ms r))
  || (is_some (cr_agent_csr_pem r) && is_some (cr_agent_certificate_chain_pem r)
      && is_some (cr_agent_certificate_der r) && is_some (cr_agent_certificate_expires_at_ms r)).

Definition compute_instances_check (r : compute_instances_row) : bool :=
  let between := sql_between (cr_created_at_ms r) (cr_updated_at_ms r) in
  (String.eqb (cr_provider r) "local_process" || String.eqb (cr_provider r) "akamai")
  && sql_null_or (sql_text_check 256) (cr_provider_instance_id r)
  && sql_null_or (sql_text_check 64) (cr_public_ipv4 r)
  && sql_text_check 256 (cr_connection_token r)
  && sql_null_or (sql_text_check 256) (cr_enrollment_token r)
  && sql_null_or (sql_pem_check 32768) (cr_agent_csr_pem r)
  && sql_null_or (sql_pem_check 65536) (cr_agent_certificate_chain_pem r)
  && sql_null_or (λ der, sql_between 1 65536 (str_len der)) (cr_agent_certificate_der r)
  && sql_null_or (Z.leb 0) (cr_agent_certificate_expires_at_ms r)
  && sql_null_or (Z.ltb 0) (cr_process_id r)
  && sql_null_or (Z.leb 0) (cr_agent_connected_at_ms r)
  && sql_null_or (Z.leb 0) (cr_shutdown_requested_at_ms r)
  && sql_null_or (Z.leb 0) (cr_terminated_at_ms r)
  && sql_null_or (λ t, String.eqb t "deleted" || String.eqb t "failed") (cr_terminal_result r)
  && sql_null_or (sql_text_check 8192) (cr_failure_message r)
  && (0 <=? cr_created_at_ms r)
  && (cr_created_at_ms r <=? cr_updated_at_ms r)
  && Bool.eqb (is_none (cr_terminated_at_ms r)) (is_none (cr_terminal_result r))
  && compute_provider_check r
  && compute_certificate_check r
  && sql_null_or (Z.leb (cr_created_at_ms r)) (cr_agent_certificate_expires_at_ms r)
  && sql_null_or between (cr_agent_connected_at_ms r)
  && sql_null_or between (cr_shutdown_requested_at_ms r)
  && sql_null_or between (cr_terminated_at_ms r)
  && sql_null_or (λ t, Z.max (sql_coalesce (cr_agent_connected_at_ms r) 0)
       (sql_coalesce (cr_shutdown_requested_at_ms r) 0) <=? t) (cr_terminated_at_ms r).

Definition snapshots_check (id : string) (r : snapshots_row) : bool :=
  sql_text_check 256 id && (0 <? nr_fencing_token r) && (0 <=? nr_created_at_ms r).

(** ** Statements

    [UPDATE t SET .. WHERE id = key AND cond]: how many rows changed, or the
    constraint the new row breaks; a statement that fails changes nothing.
    The columns of the unique indexes are not assigned by any update, except
    [terminated_at_ms], from [NULL], which takes a row out of an index. *)
Definition update_servers (key : string) (cond : servers_row → bool)
    (set : servers_row → servers_row) (db : Database) : result sqlx_error Z * Database :=
  match servers db !! key with
  | Some row =>
      if cond row then
        if i64_max <? sr_next_fencing_token (set row) then (Err DatatypeMismatch, db)
        else if servers_check (set row) then (Ok 1, set_servers (<[key := set row]> (servers db)) db)
        else (Err CheckViolation, db)
      else (Ok 0, db)
  | None => (Ok 0, db)
  end.

Definition update_server_instances (key : string) (cond : server_instances_row → bool)
    (set : server_instances_row → server_instances_row) (db : Database) :
    result sqlx_error Z * Database :=
  match server_instances db !! key with
  | Some row =>
      if cond row then
        if server_instances_check (set row)
        then (Ok 1, set_server_instances (<[key := set row]> (server_instances db)) db)
        else (Err CheckViolation, db)
      else (Ok 0, db)
  | None => (Ok 0, db)
  end.

Definition update_compute_instances (key : string) (cond : compute_instances_row → bool)
    (set : compute_instances_row → compute_instances_row) (db : Database) :
    result sqlx_error Z * Database :=
  match compute_instances db !! key with
  | Some row =>
      if cond row then
        if compute_instances_check (set row)
        then (Ok 1, set_compute_instances (<[key := set row]> (compute_instances db)) db)
        else (Err CheckViolation, db)
      else (Ok 0, db)
  | None => (Ok 0, db)
  end.

(** [EXISTS (SELECT 1 FROM t WHERE p)]. *)
Definition exists_row {K R} `{Countable K} (p : K → R → bool) (t : gmap K R) : bool :=
  existsb (λ '(k, r), p k r) (map_to_list t).

(** [INSERT]: the primary key, the unique columns and indexes, the checks. *)
Definition insert_servers (key : string) (row : servers_row) (db : Database) :
    result sqlx_error Z * Database :=
  if negb (servers_check row) then (Err CheckViolation, db)
  else if is_some (servers db !! key)
          || exists_row (λ _ r, String.eqb (sr_name r) (sr_name row)) (servers db)
  then (Err UniqueViolation, db)
  else (Ok 1, set_servers (<[key := row]> (servers db)) db).

(** [UNIQUE (server_id, fencing_token)] and
    [server_instances_one_active_per_server_idx]. *)
Definition instance_conflicts (row r : server_instances_row) : bool :=
  String.eqb (ir_server_id r) (ir_server_id row)
  && ((ir_fencing_token r =? ir_fencing_token row)
      || (is_none (ir_terminated_at_ms r) && is_none (ir_terminated_at_ms row))).
Definition insert_server_instances (key : string) (row : server_instances_row) (db : Database) :
    result sqlx_error Z * Database :=
  if negb (server_instances_check row) then (Err CheckViolation, db)
  else if is_some (server_instances db !! key)
          || exists_row (λ _ r, instance_conflicts row r) (server_instances db)
  then (Err UniqueViolation, db)
  else (Ok 1, set_server_instances (<[key := row]> (server_instances db)) db).

(** [compute_instances_one_active_per_server_instance_idx]. *)
Definition compute_conflicts (row r : compute_instances_row) : bool :=
  String.eqb (cr_server_instance_id r) (cr_server_instance_id row)
  && is_none (cr_terminated_at_ms r) && is_none (cr_terminated_at_ms row).
Definition insert_compute_instances (key : string) (row : compute_instances_row) (db : Database) :
    result sqlx_error Z * Database :=
  if negb (compute_instances_check row) then (Err CheckViolation, db)
  else if is_some (compute_instances db !! key)
          || exists_row (λ _ r, compute_conflicts row r) (compute_instances db)
  then (Err UniqueViolation, db)
  else (Ok 1, set_compute_instances (<[key := row]> (compute_instances db)) db).

(** [UNIQUE (server_id, fencing_token)] of [snapshots]. *)
Definition insert_snapshots (server_id id : string) (row : snapshots_row) (db : Database) :
    result sqlx_error Z * Database :=
  if negb (snapshots_check id row) then (Err CheckViolation, db)
  else if is_some (snapshots db !! (server_id, id))
          || exists_row (λ '(sid, _) r, String.eqb sid server_id
               && (nr_fencing_token r =? nr_fencing_token row)) (snapshots db)
  then (Err UniqueViolation, db)
  else (Ok 1, set_snapshots (<[(server_id, id) := row]> (snapshots db)) db).

(** ** Decoding *)

Definition decode_uuid (value : string) : result RepositoryError Uuid :=
  map_err RE.CorruptData (uuid_parse_str value).

Definition decode_timestamp (value : Z) : result RepositoryError Z :=
  map_err RE.Timestamp (UnixTimestampMillis_from_millis value).

Definition optional_timestamp (value : option Z) : result RepositoryError (option Z) :=
  transpose_map decode_timestamp value.

Definition positive_u64_to_i64 (value : Z) : result RepositoryError Z :=
  _ ← err_if (value =? 0) RE.IntegerOutOfRange;
  ok_or RE.IntegerOutOfRange (i64_try_from value).

Definition i64_to_positive_u64 (value : Z) : result RepositoryError Z :=
  _ ← err_if (value <? 0) RE.IntegerOutOfRange;
  _ ← err_if (value =? 0) RE.IntegerOutOfRange;
  Ok value.

Definition generation_to_i64 (generation : Z) : result RepositoryError Z :=
  positive_u64_to_i64 generation.

Definition decode_server (key : string) (row : servers_row) : result RepositoryError Server :=
  id ← decode_uuid key;
  name ← map_err RE.Validation (ServerName_new (sr_name row));
  generation ← i64_to_positive_u64 (sr_generation row);
  desired_state ← map_err RE.Validation (DesiredState_parse (sr_desired_state row));
  spec ← map_err RE.Serialization (spec_from_json (sr_spec_json row));
  archived_at ← optional_timestamp (sr_archived_at_ms row);
  created_at ← decode_timestamp (sr_created_at_ms row);
  updated_at ← decode_timestamp (sr_updated_at_ms row);
  map_err RE.Validation
    (Server_rehydrate id name generation desired_state spec (sr_current_snapshot_id row)
       archived_at created_at updated_at).

Definition decode_instance (key : string) (row : server_instances_row) :
    result RepositoryError ServerInstance :=
  id ← decode_uuid key;
  server_id ← decode_uuid (ir_server_id row);
  server_generation ← i64_to_positive_u64 (ir_server_generation row);
  resolved_spec ← map_err RE.Serialization (spec_from_json (ir_resolved_spec_json row));
  fencing_token ← i64_to_positive_u64 (ir_fencing_token row);
  data_prepared_at ← optional_timestamp (ir_data_prepared_at_ms row);
  process_observed_at ← optional_timestamp (ir_process_observed_at_ms row);
  stop_requested_at ← optional_timestamp (ir_stop_requested_at_ms row);
  terminated_at ← optional_timestamp (ir_terminated_at_ms row);
  terminal_result ← transpose_map (λ t, map_err RE.ServerInstanceValidation (TerminalResult_parse t))
    (ir_terminal_result row);
  created_at ← decode_timestamp (ir_created_at_ms row);
  updated_at ← decode_timestamp (ir_updated_at_ms row);
  map_err RE.ServerInstanceValidation
    (ServerInstance_rehydrate id server_id server_generation resolved_spec fencing_token
       (ir_source_snapshot_id row) data_prepared_at (ir_process_running row) process_observed_at
       (ir_result_snapshot_id row) stop_requested_at terminated_at terminal_result
       (ir_last_error row) created_at updated_at).

(** [u32::try_from(value)] of an [i64]. *)
Definition u32_try_from_i64 (value : Z) : result RepositoryError Z :=
  if sql_between 0 u32_max value then Ok value else Err RE.IntegerOutOfRange.

Definition decode_compute_instance (key : string) (row : compute_instances_row) :
    result RepositoryError ComputeInstance :=
  id ← decode_uuid key;
  server_instance_id ← decode_uuid (cr_server_instance_id row);
  provider ← map_err RE.ComputeInstanceValidation (ComputeProvider_parse (cr_provider row));
  process_id ← transpose_map u32_try_from_i64 (cr_process_id row);
  agent_connected_at ← optional_timestamp (cr_agent_connected_at_ms row);
  shutdown_requested_at ← optional_timestamp (cr_shutdown_requested_at_ms row);
  terminated_at ← optional_timestamp (cr_terminated_at_ms row);
  terminal_result ←
    transpose_map (λ t, map_err RE.ComputeInstanceValidation (ComputeTerminalResult_parse t))
      (cr_terminal_result row);
  created_at ← decode_timestamp (cr_created_at_ms row);
  updated_at ← decode_timestamp (cr_updated_at_ms row);
  map_err RE.ComputeInstanceValidation
    (ComputeInstance_rehydrate id server_instance_id provider (cr_provider_instance_id row)
       (cr_public_ipv4 row) (cr_connection_token row) (cr_enrollment_token row) process_id
       agent_connected_at shutdown_requested_at terminated_at terminal_result
       (cr_failure_message row) created_at updated_at).
End checks.
