(* ===== verification/RowFacts.v ===== *)
(** Rows the control plane writes: well-formedness of each table's rows, that
    a well-formed row satisfies every [CHECK] of its table, and that it
    decodes. The two together are why the SQL constraints and the checks of
    [rehydrate] cannot disagree about a row the code wrote. *)
From S2P Require Import Prelude Text Server ServerFacts Instances InstanceFacts Database.
From Stdlib Require Import Ascii.
#[local] Open Scope string_scope.
#[local] Open Scope Z_scope.

#[local] Arguments Ascii.eqb : simpl never.
#[local] Arguments byte_is : simpl never.

(** ** SQL text checks against the domain's *)

Lemma before_nul_id s : str_contains_nul s = false → before_nul s = s.
Proof.
  unfold str_contains_nul. induction s as [|c s IH]; cbn; [done|].
  intros [H1 H2]%orb_false_iff. rewrite (Ascii.eqb_sym c), H1. f_equal. auto.
Qed.

Lemma sql_ltrim_cases s :
  sql_ltrim s = EmptyString ∧ bytes_all (byte_is " ") s = true ∨
  ∃ c t, sql_ltrim s = String c t ∧ byte_is " " c = false ∧
         ∃ p, s = String.append p (String c t).
Proof.
  induction s as [|c s IH]; [by left|]. cbn [sql_ltrim].
  destruct (byte_is " " c) eqn:E.
  - destruct IH as [[-> Hb]|(d & t & -> & ? & p & ->)].
    + left. split; [done|]. unfold bytes_all in *. cbn. by rewrite E.
    + right. exists d, t. split_and!; [done|done|]. by exists (String c p).
  - right. exists c, s. split_and!; [done|done|]. by exists EmptyString.
Qed.

Lemma sql_rtrim_cons c t :
  byte_is " " c = false → ∃ t', sql_rtrim (String c t) = String c t'.
Proof. intros E. cbn [sql_rtrim]. destruct (sql_rtrim t); [rewrite E|]; eauto. Qed.

Lemma spaces_blank s : bytes_all (byte_is " ") s = true → str_is_blank s = true.
Proof.
  unfold bytes_all. induction s as [|c s IH]; [done|].
  cbn [String.list_ascii_of_string forallb]. intros [Hc Hs]%andb_true_iff.
  apply Ascii.eqb_eq in Hc as <-. unfold str_is_blank in *. rewrite str_chars_cons.
  change (utf8_extra " "%char) with 0%nat.
  replace (take_bytes 0 s) with (EmptyString, s) by by destruct s.
  cbn [forallb]. by rewrite IH.
Qed.

Lemma str_char_count_nonempty c t : 0 < str_char_count (String c t).
Proof.
  unfold str_char_count. rewrite str_chars_cons. destruct (take_bytes _ t). cbn. lia.
Qed.

(** Graphic ASCII characters: every byte is a character, and none is blank. *)
Definition printable (b : ascii) : Prop := 33 ≤ byte_of b ≤ 126.

Lemma printable_chars s :
  Forall printable (String.list_ascii_of_string s) →
  str_char_count s = str_len s ∧ str_contains_nul s = false.
Proof.
  unfold str_char_count, str_len, str_contains_nul.
  induction s as [|b s IH]; [done|]. cbn [String.list_ascii_of_string].
  intros [Hb Hs]%Forall_cons. destruct (IH Hs) as [IH1 IH2].
  assert (utf8_extra b = 0%nat) as Hx.
  { unfold utf8_extra, printable in *. destruct (byte_of b <? 192) eqn:E; [done|bz; lia]. }
  rewrite str_chars_cons, Hx. cbn. rewrite IH2. replace (take_bytes 0 s) with (EmptyString, s)
    by by destruct s.
  cbn. split; [lia|]. rewrite orb_false_r. apply Ascii.eqb_neq. intros <-. by destruct Hb.
Qed.

Lemma printable_text_ok n s :
  Forall printable (String.list_ascii_of_string s) → 1 ≤ str_len s → str_len s ≤ n → text_ok n s.
Proof.
  intros Hall Hne Hlen. destruct (printable_chars s Hall) as [Hc Hnul].
  split; [|split; [lia|done]]. destruct s as [|b s]; [unfold str_len in Hne; cbn in Hne; lia|].
  cbn [String.list_ascii_of_string] in Hall. apply Forall_cons in Hall as [Hb _].
  unfold printable in Hb. unfold str_is_blank. rewrite str_chars_cons.
  assert (utf8_extra b = 0%nat) as ->.
  { unfold utf8_extra. destruct (byte_of b <? 192) eqn:E; [done|bz; lia]. }
  replace (take_bytes 0 s) with (EmptyString, s) by by destruct s. cbn [forallb].
  apply andb_false_iff. left. unfold char_is_whitespace, char_code. cbn.
  repeat rewrite orb_false_iff. repeat rewrite andb_false_iff.
  split_and!; (bz; lia || right; bz; lia || left; bz; lia).
Qed.

(** A text that passes the domain's check passes the table's. *)
Lemma sql_text_check_ok maximum s : text_ok maximum s → sql_text_check maximum s = true.
Proof.
  intros (Hblank & Hlen & Hnul). unfold sql_text_check, sql_length, sql_trim.
  rewrite (before_nul_id s), Hnul by done.
  destruct (sql_ltrim_cases s) as [[_ Hb]|(c & t & -> & Hc & p & ->)].
  { apply spaces_blank in Hb. congruence. }
  destruct (sql_rtrim_cons c t Hc) as [t' ->].
  rewrite str_contains_nul_app in Hnul. apply orb_false_iff in Hnul as [_ Hnul].
  cbn in Hnul. apply orb_false_iff in Hnul as [Hz _]. cbn [before_nul].
  rewrite (Ascii.eqb_sym c), Hz. bz; [apply str_char_count_nonempty|lia|done].
Qed.

Lemma sql_null_or_ok {A} (p : A → bool) c :
  sql_null_or p c = true ↔ ∀ a, c = Some a → p a = true.
Proof. destruct c; cbn; (split; [intros; by simplify_eq | auto]). Qed.

Lemma sql_between_ok low high c : sql_between low high c = true ↔ low ≤ c ≤ high.
Proof. unfold sql_between. rewrite andb_true_iff, !Z.leb_le. done. Qed.

Lemma is_none_eqb {A B} (o : option A) (o' : option B) :
  Bool.eqb (is_none o) (is_none o') = true ↔ (is_Some o ↔ is_Some o').
Proof. unfold is_none. rewrite <- is_some_eqb. by destruct (is_some o), (is_some o'). Qed.

(** ** Decoding of columns *)

Definition times_between (created updated : Z) (l : list (option Z)) : Prop :=
  Forall (λ o, ∀ t, o = Some t → created ≤ t ≤ updated) l.

Definition times_before (t : Z) (l : list (option Z)) : Prop :=
  Forall (λ o, ∀ p, o = Some p → p ≤ t) l.

Section decoding.
Context `{CodecLaws}.

Lemma decode_uuid_of u : decode_uuid (uuid_to_string u) = Ok u.
Proof. unfold decode_uuid. by rewrite uuid_round_trip. Qed.

Lemma uuid_to_string_inj u v : uuid_to_string u = uuid_to_string v → u = v.
Proof.
  intros E. pose proof (uuid_round_trip u) as Hu. rewrite E, uuid_round_trip in Hu. congruence.
Qed.

Lemma decode_timestamp_ok t : 0 ≤ t → decode_timestamp t = Ok t.
Proof.
  intros Ht. unfold decode_timestamp, UnixTimestampMillis_from_millis.
  destruct (t <? 0) eqn:E; [bz; lia|done].
Qed.

Lemma optional_timestamp_ok o : (∀ t, o = Some t → 0 ≤ t) → optional_timestamp o = Ok o.
Proof.
  destruct o as [t|]; [|done]. intros Ht. unfold optional_timestamp. cbn.
  by rewrite decode_timestamp_ok by eauto.
Qed.

Lemma i64_to_positive_u64_ok v : 1 ≤ v → i64_to_positive_u64 v = Ok v.
Proof.
  intros Hv. unfold i64_to_positive_u64.
  destruct (v <? 0) eqn:E; [bz; lia|]. destruct (v =? 0) eqn:E'; [bz; lia|]. done.
Qed.

Lemma positive_u64_to_i64_ok v w :
  positive_u64_to_i64 v = Ok w ↔ w = v ∧ v ≠ 0 ∧ v ≤ i64_max.
Proof.
  unfold positive_u64_to_i64, i64_try_from.
  destruct (v =? 0) eqn:E; destruct (v <=? i64_max) eqn:E'; cbn; bz; naive_solver lia.
Qed.

(** A stored specification: JSON that deserializes to a valid one. *)
Definition spec_json_ok (json : string) : Prop :=
  json_valid json = true ∧
  ∃ spec, spec_from_json json = Ok spec ∧ ServerSpec_validate spec = Ok tt.

Lemma spec_to_json_ok spec json :
  ServerSpec_validate spec = Ok tt → spec_to_json spec = Ok json → spec_json_ok json.
Proof.
  intros Hv Hj. destruct (spec_round_trip spec) as (j & Hj' & Hf & Hjv).
  rewrite Hj in Hj'. injection Hj' as <-. split; [done|]. by exists spec.
Qed.

(** ** [servers] *)

Record server_row_wf (key : string) (r : servers_row) : Prop := {
  srw_id : ∃ id, key = uuid_to_string id;
  srw_name : is_dns_label (sr_name r);
  srw_generation : 1 ≤ sr_generation r;
  srw_state : ∃ d, sr_desired_state r = DesiredState_as_str d;
  srw_spec : spec_json_ok (sr_spec_json r);
  srw_snapshot : ∀ s, sr_current_snapshot_id r = Some s → snapshot_id_ok s;
  srw_token : 1 ≤ sr_next_fencing_token r ≤ i64_max;
  srw_created : 0 ≤ sr_created_at_ms r;
  srw_updated : sr_created_at_ms r ≤ sr_updated_at_ms r;
  srw_archived : ∀ t, sr_archived_at_ms r = Some t →
    sr_created_at_ms r ≤ t ≤ sr_updated_at_ms r ∧ sr_desired_state r = "stopped";
}.

Lemma label_byte_printable b : label_byte b = true ∨ b = "-"%char → printable b.
Proof.
  unfold printable, label_byte, is_ascii_lowercase, is_ascii_digit, byte_in.
  intros [Hb| ->]; [|by vm_compute; split]. apply orb_true_iff in Hb as [Hb|Hb]; inv_res; bz; lia.
Qed.

Lemma is_dns_label_text n s : 63 ≤ n → is_dns_label s → text_ok n s.
Proof.
  intros Hn (Hlen & Hall & _). apply printable_text_ok; [|lia|lia].
  eapply Forall_impl; [exact Hall|]. apply label_byte_printable.
Qed.

(** [check_true] proves a conjunction of [CHECK]s clause by clause. *)
Lemma text_column_ok n (c : option string) :
  (∀ s, c = Some s → text_ok n s) → sql_null_or (sql_text_check n) c = true.
Proof. intros Hc. apply sql_null_or_ok. intros s Hs. apply sql_text_check_ok. auto. Qed.

Lemma DesiredState_as_str_check d :
  String.eqb (DesiredState_as_str d) "running" || String.eqb (DesiredState_as_str d) "stopped"
  = true.
Proof. by destruct d. Qed.

(** A well-formed row satisfies every [CHECK] of [servers]. *)
Lemma server_row_wf_check key r : server_row_wf key r → servers_check r = true.
Proof.
  intros [? Hname ? [d Hd] [? _] Hsnap ? ? ? Ha]. unfold servers_check.
  rewrite Hd, DesiredState_as_str_check, <- Hd.
  bz; try done; try lia.
  - apply sql_text_check_ok, is_dns_label_text; [lia|done].
  - by apply text_column_ok.
  - apply sql_null_or_ok. intros t Ht. destruct (Ha t Ht) as [? ->]. bz; [lia|lia|done].
Qed.

(** A well-formed row decodes, to the server with the row's columns. *)
Lemma server_row_wf_decode id r :
  server_row_wf (uuid_to_string id) r →
  ∃ spec d, spec_from_json (sr_spec_json r) = Ok spec ∧
    sr_desired_state r = DesiredState_as_str d ∧
    decode_server (uuid_to_string id) r =
    Ok {| srv_id := id; srv_name := sr_name r; srv_generation := sr_generation r;
          srv_desired_state := d; srv_spec := spec;
          srv_current_snapshot_id := sr_current_snapshot_id r;
          srv_archived_at := sr_archived_at_ms r; srv_created_at := sr_created_at_ms r;
          srv_updated_at := sr_updated_at_ms r |}.
Proof.
  intros [_ Hname Hgen [d Hd] [_ (spec & Hspec & Hv)] Hsnap ? Hc Hu Ha].
  exists spec, d. split_and!; [done|done|]. unfold decode_server.
  rewrite decode_uuid_of. cbn [mbind result_bind].
  rewrite (proj1 (ServerName_new_ok _) Hname). cbn [map_err mbind result_bind].
  rewrite i64_to_positive_u64_ok by done. cbn [mbind result_bind].
  rewrite (proj2 (DesiredState_parse_ok _ d) Hd). cbn [map_err mbind result_bind].
  rewrite Hspec. cbn [map_err mbind result_bind].
  rewrite optional_timestamp_ok by (intros t Ht; destruct (Ha t Ht); lia). cbn [mbind result_bind].
  rewrite !decode_timestamp_ok by lia. cbn [mbind result_bind].
  apply map_err_ok, rehydrate_ok. split_and!; try done; [lia|].
  intros t Ht. destruct (Ha t Ht) as [? Hs]. split; [done|]. destruct d; [|done].
  rewrite Hs in Hd. done.
Qed.

(** ** [server_instances] *)

Record instance_row_wf (key : string) (r : server_instances_row) : Prop := {
  irw_id : ∃ id, key = uuid_to_string id;
  irw_server : ∃ id, ir_server_id r = uuid_to_string id;
  irw_generation : 1 ≤ ir_server_generation r;
  irw_spec : spec_json_ok (ir_resolved_spec_json r);
  irw_token : 1 ≤ ir_fencing_token r ≤ i64_max;
  irw_source : ∀ s, ir_source_snapshot_id r = Some s → snapshot_id_ok s;
  irw_result : ∀ s, ir_result_snapshot_id r = Some s → snapshot_id_ok s;
  irw_terminal : is_Some (ir_terminated_at_ms r) ↔ is_Some (ir_terminal_result r);
  irw_terminal_text : ∀ t, ir_terminal_result r = Some t →
    ∃ res, t = TerminalResult_as_str res;
  irw_running : ir_process_running r = true → is_Some (ir_process_observed_at_ms r);
  irw_stopped : is_Some (ir_terminated_at_ms r) → ir_process_running r = false;
  irw_error : ∀ m, ir_last_error r = Some m → text_ok MAX_ERROR_CHARS m;
  irw_created : 0 ≤ ir_created_at_ms r;
  irw_updated : ir_created_at_ms r ≤ ir_updated_at_ms r;
  irw_times : times_between (ir_created_at_ms r) (ir_updated_at_ms r)
    [ir_data_prepared_at_ms r; ir_process_observed_at_ms r; ir_stop_requested_at_ms r;
     ir_terminated_at_ms r];
  irw_last : ∀ t, ir_terminated_at_ms r = Some t →
    times_before t [ir_data_prepared_at_ms r; ir_process_observed_at_ms r;
                    ir_stop_requested_at_ms r];
}.

Lemma coalesce_le (o : option Z) t : 0 ≤ t → (∀ p, o = Some p → p ≤ t) → sql_coalesce o 0 ≤ t.
Proof. destruct o; cbn; auto. Qed.

Lemma times_between_null_or created updated l :
  times_between created updated l →
  Forall (λ o, sql_null_or (sql_between created updated) o = true) l.
Proof.
  intros Hl. eapply Forall_impl; [exact Hl|]. intros o Ho. apply sql_null_or_ok.
  intros t Ht. apply sql_between_ok. auto.
Qed.

Lemma times_between_nonneg created updated l :
  0 ≤ created → times_between created updated l →
  Forall (λ o, sql_null_or (Z.leb 0) o = true) l.
Proof.
  intros Hnn Hl. eapply Forall_impl; [exact Hl|]. intros o Ho. apply sql_null_or_ok.
  intros t Ht. specialize (Ho t Ht). bz. lia.
Qed.

Ltac split_forall :=
  repeat match goal with
  | H : Forall _ (_ :: _) |- _ => apply Forall_cons in H as [? ?]
  | H : Forall _ [] |- _ => clear H
  end.

Lemma instance_row_wf_check key r : instance_row_wf key r → server_instances_check r = true.
Proof.
  intros [? ? ? [? _] ? ? ? Hterm Htext Hrun Hstop ? Hc Hu Ht Hlast].
  pose proof (times_between_null_or _ _ _ Ht) as Hb.
  pose proof (times_between_nonneg _ _ _ Hc Ht) as Hn. split_forall.
  unfold server_instances_check. cbv zeta.
  bz; try done; try lia; try (by apply text_column_ok).
  - apply sql_null_or_ok. intros t E. destruct (Htext t E) as [[] ->]; done.
  - by apply is_none_eqb.
  - destruct (ir_process_running r); [|done]. cbn. by apply is_some_true, Hrun.
  - destruct (ir_terminated_at_ms r) as [t|]; [|done]. rewrite Hstop by done. done.
  - apply sql_null_or_ok. intros t E. specialize (Hlast t E). unfold times_before in Hlast.
    unfold times_between in Ht. split_forall. bz.
    assert (0 ≤ t) by (match goal with H : ∀ t, ir_terminated_at_ms r = Some t → _ |- _ =>
      specialize (H t E) end; lia).
    repeat apply Z.max_lub; by apply coalesce_le.
Qed.

Lemma instance_row_wf_decode id r :
  instance_row_wf (uuid_to_string id) r →
  ∃ server_id spec res, ir_server_id r = uuid_to_string server_id ∧
    spec_from_json (ir_resolved_spec_json r) = Ok spec ∧
    ir_terminal_result r = TerminalResult_as_str <$> res ∧
    decode_instance (uuid_to_string id) r =
    Ok {| si_id := id; si_server_id := server_id;
          si_server_generation := ir_server_generation r; si_resolved_spec := spec;
          si_fencing_token := ir_fencing_token r;
          si_source_snapshot_id := ir_source_snapshot_id r;
          si_data_prepared_at := ir_data_prepared_at_ms r;
          si_process_running := ir_process_running r;
          si_process_observed_at := ir_process_observed_at_ms r;
          si_result_snapshot_id := ir_result_snapshot_id r;
          si_stop_requested_at := ir_stop_requested_at_ms r;
          si_terminated_at := ir_terminated_at_ms r; si_terminal_result := res;
          si_last_error := ir_last_error r; si_created_at := ir_created_at_ms r;
          si_updated_at := ir_updated_at_ms r |}.
Proof.
  intros [_ [sid Hsid] Hgen [_ (spec & Hspec & Hv)] Htok Hsrc Hres Hterm Htext Hrun Hstop Herr
    Hc Hu Ht Hlast].
  assert (∃ res, ir_terminal_result r = TerminalResult_as_str <$> res) as [res Hr].
  { destruct (ir_terminal_result r) as [t|] eqn:E; [|by exists None].
    destruct (Htext t eq_refl) as [x ->]. by exists (Some x). }
  exists sid, spec, res. split_and!; [done..|]. unfold decode_instance.
  rewrite Hsid, !decode_uuid_of. cbn [mbind result_bind].
  rewrite !i64_to_positive_u64_ok by lia. cbn [mbind result_bind].
  rewrite Hspec. cbn [map_err mbind result_bind].
  assert (Forall (λ o, optional_timestamp o = Ok o)
    [ir_data_prepared_at_ms r; ir_process_observed_at_ms r; ir_stop_requested_at_ms r;
     ir_terminated_at_ms r]) as Hopt.
  { eapply Forall_impl; [exact Ht|]. intros o Ho. apply optional_timestamp_ok.
    intros t E. specialize (Ho t E). lia. }
  rewrite !Forall_cons in Hopt. destruct Hopt as (-> & -> & -> & -> & _). cbn [mbind result_bind].
  assert (transpose_map (λ t, map_err RE.ServerInstanceValidation (TerminalResult_parse t))
    (ir_terminal_result r) = Ok res) as ->.
  { rewrite Hr. destruct res as [x|]; cbn; [|done]. by rewrite TerminalResult_parse_as_str. }
  cbn [mbind result_bind]. rewrite !decode_timestamp_ok by lia. cbn [mbind result_bind].
  apply map_err_ok.
  refine (proj2 (rehydrate_instance_ok {| si_id := id |} _) _).
  split; [|reflexivity]. constructor; cbn; try done; try lia.
  rewrite Hterm, Hr. destruct res; cbn; split; intros []; eauto; done.
Qed.

(** ** [compute_instances] *)

Record compute_row_wf (key : string) (r : compute_instances_row) : Prop := {
  crw_id : ∃ id, key = uuid_to_string id;
  crw_instance : ∃ id, cr_server_instance_id r = uuid_to_string id;
  crw_provider : ∃ p, cr_provider r = ComputeProvider_as_str p;
  crw_token : text_ok MAX_CONNECTION_TOKEN_CHARS (cr_connection_token r);
  crw_enrollment : ∀ s, cr_enrollment_token r = Some s → text_ok MAX_CONNECTION_TOKEN_CHARS s;
  crw_provider_id : ∀ s, cr_provider_instance_id r = Some s →
    text_ok MAX_PROVIDER_INSTANCE_ID_CHARS s;
  crw_ipv4 : ∀ s, cr_public_ipv4 r = Some s →
    text_ok MAX_PUBLIC_IPV4_CHARS s ∧ parses_as_ipv4 s = true;
  crw_csr : sql_null_or (sql_pem_check 32768) (cr_agent_csr_pem r) = true;
  crw_chain : sql_null_or (sql_pem_check 65536) (cr_agent_certificate_chain_pem r) = true;
  crw_der : ∀ der, cr_agent_certificate_der r = Some der → 1 ≤ str_len der ≤ 65536;
  crw_expires : ∀ t, cr_agent_certificate_expires_at_ms r = Some t → cr_created_at_ms r ≤ t;
  crw_pid : ∀ p, cr_process_id r = Some p → 1 ≤ p ≤ u32_max;
  crw_fields : compute_provider_check r = true;
  crw_certificate : compute_certificate_check r = true;
  crw_terminal : is_Some (cr_terminated_at_ms r) ↔ is_Some (cr_terminal_result r);
  crw_terminal_text : ∀ t, cr_terminal_result r = Some t →
    ∃ res, t = ComputeTerminalResult_as_str res;
  crw_failure : ∀ m, cr_failure_message r = Some m → text_ok MAX_FAILURE_MESSAGE_CHARS m;
  crw_created : 0 ≤ cr_created_at_ms r;
  crw_updated : cr_created_at_ms r ≤ cr_updated_at_ms r;
  crw_times : times_between (cr_created_at_ms r) (cr_updated_at_ms r)
    [cr_agent_connected_at_ms r; cr_shutdown_requested_at_ms r; cr_terminated_at_ms r];
  crw_last : ∀ t, cr_terminated_at_ms r = Some t →
    times_before t [cr_agent_connected_at_ms r; cr_shutdown_requested_at_ms r];
}.

Lemma compute_row_wf_check key r : compute_row_wf key r → compute_instances_check r = true.
Proof.
  intros [? ? [p Hp] ? ? ? Hip ? ? Hder Hexp Hpid ? ? Hterm Htext ? Hc Hu Ht Hlast].
  pose proof (times_between_null_or _ _ _ Ht) as Hb.
  pose proof (times_between_nonneg _ _ _ Hc Ht) as Hn. split_forall.
  unfold compute_instances_check. cbv zeta.
  bz; try done; try lia; try (by apply text_column_ok).
  - rewrite Hp. by destruct p.
  - apply text_column_ok. intros s Hs. by apply Hip.
  - by apply sql_text_check_ok.
  - apply sql_null_or_ok. intros s Hs. by apply sql_between_ok, Hder.
  - apply sql_null_or_ok. intros t Es. specialize (Hexp t Es). bz. lia.
  - apply sql_null_or_ok. intros t Es. specialize (Hpid t Es). bz. lia.
  - apply sql_null_or_ok. intros t Es. destruct (Htext t Es) as [[] ->]; done.
  - by apply is_none_eqb.
  - apply sql_null_or_ok. intros t Es. specialize (Hexp t Es). bz. lia.
  - apply sql_null_or_ok. intros t Es. specialize (Hlast t Es). unfold times_before in Hlast.
    unfold times_between in Ht. split_forall. bz.
    assert (0 ≤ t) by (match goal with H : ∀ t, cr_terminated_at_ms r = Some t → _ |- _ =>
      specialize (H t Es) end; lia).
    repeat apply Z.max_lub; by apply coalesce_le.
Qed.

Lemma compute_row_fields r p :
  cr_provider r = ComputeProvider_as_str p → compute_provider_check r = true →
  match p with
  | CP.LocalProcess => cr_provider_instance_id r = None ∧ cr_public_ipv4 r = None ∧
      cr_enrollment_token r = None
  | CP.Akamai => cr_process_id r = None
  end.
Proof.
  intros Hp Hc. unfold compute_provider_check in Hc. rewrite Hp in Hc.
  destruct p; cbn in Hc.
  - destruct (cr_provider_instance_id r), (cr_public_ipv4 r), (cr_enrollment_token r); done.
  - by apply is_none_true.
Qed.

Lemma compute_row_wf_decode id r :
  compute_row_wf (uuid_to_string id) r →
  ∃ iid p res, cr_server_instance_id r = uuid_to_string iid ∧
    cr_provider r = ComputeProvider_as_str p ∧
    cr_terminal_result r = ComputeTerminalResult_as_str <$> res ∧
    decode_compute_instance (uuid_to_string id) r =
    Ok {| ci_id := id; ci_server_instance_id := iid; ci_provider := p;
          ci_provider_instance_id := cr_provider_instance_id r;
          ci_public_ipv4 := cr_public_ipv4 r; ci_connection_token := cr_connection_token r;
          ci_enrollment_token := cr_enrollment_token r; ci_process_id := cr_process_id r;
          ci_agent_connected_at := cr_agent_connected_at_ms r;
          ci_shutdown_requested_at := cr_shutdown_requested_at_ms r;
          ci_terminated_at := cr_terminated_at_ms r; ci_terminal_result := res;
          ci_failure_message := cr_failure_message r; ci_created_at := cr_created_at_ms r;
          ci_updated_at := cr_updated_at_ms r |}.
Proof.
  intros [_ [iid Hiid] [p Hp] Htok Henr Hpi Hip _ _ _ _ Hpid Hf _ Hterm Htext Hfail Hc Hu Ht Hlast].
  assert (∃ res, cr_terminal_result r = ComputeTerminalResult_as_str <$> res) as [res Hr].
  { destruct (cr_terminal_result r) as [t|] eqn:E; [|by exists None].
    destruct (Htext t eq_refl) as [x ->]. by exists (Some x). }
  exists iid, p, res. split_and!; [done..|]. unfold decode_compute_instance.
  rewrite Hiid, !decode_uuid_of. cbn [mbind result_bind].
  rewrite (proj2 (ComputeProvider_parse_ok _ p) Hp). cbn [map_err mbind result_bind].
  assert (transpose_map u32_try_from_i64 (cr_process_id r) = Ok (cr_process_id r)) as ->.
  { destruct (cr_process_id r) as [x|]; [|done]. cbn. unfold u32_try_from_i64.
    rewrite (proj2 (sql_between_ok _ _ _)); [done|]. specialize (Hpid x eq_refl). lia. }
  cbn [mbind result_bind].
  assert (Forall (λ o, optional_timestamp o = Ok o)
    [cr_agent_connected_at_ms r; cr_shutdown_requested_at_ms r; cr_terminated_at_ms r]) as Hopt.
  { eapply Forall_impl; [exact Ht|]. intros o Ho. apply optional_timestamp_ok.
    intros t E. specialize (Ho t E). lia. }
  rewrite !Forall_cons in Hopt. destruct Hopt as (-> & -> & -> & _). cbn [mbind result_bind].
  assert (transpose_map (λ t, map_err RE.ComputeInstanceValidation (ComputeTerminalResult_parse t))
    (cr_terminal_result r) = Ok res) as ->.
  { rewrite Hr. destruct res as [[]|]; done. }
  cbn [mbind result_bind]. rewrite !decode_timestamp_ok by lia. cbn [mbind result_bind].
  apply map_err_ok.
  refine (proj2 (rehydrate_compute_ok {| ci_id := id |} _) _).
  split; [|reflexivity]. constructor; cbn; try done; try lia.
  - intros s Hs. by apply Hip.
  - pose proof (compute_row_fields r p Hp Hf). destruct p; [done|]. split; [done|].
    intros a Ha. by apply Hip.
  - rewrite Hterm, Hr. destruct res; cbn; split; intros []; eauto; done.
Qed.
End decoding.
