(* ===== verification/Repositories.v ===== *)
(** The repositories of the control plane
    (crates/mcserver-control-plane/src/infrastructure/server_repository.rs,
    server_instance_repository.rs, compute_instance_repository.rs and
    snapshot_repository.rs): every method as a function on the database.

    A statement is atomic and a transaction is one step, as SQLite serializes
    writers. A fresh UUID ([ServerInstanceId::new()]) is an argument. Failures
    of the file or the connection are not here: the clients of the
    repositories are modelled with arbitrary answers. *)
From S2P Require Import Prelude Text Server Instances Database.
From stdpp Require Import sorting.
#[local] Open Scope string_scope.
#[local] Open Scope Z_scope.

(** ** Fallible database code *)

Definition repo (A : Type) : Type := Database → result RepositoryError A * Database.

#[global] Instance repo_ret : MRet repo := λ A a db, (Ok a, db).
#[global] Instance repo_bind : MBind repo := λ A B f m db,
  match m db with
  | (Ok a, db') => f a db'
  | (Err e, db') => (Err e, db')
  end.

(** [r?] of a plain result. *)
Definition lift {A} (r : result RepositoryError A) : repo A := λ db, (r, db).

(** A [SELECT]. *)
Definition query {A} (f : Database → A) : repo A := λ db, (Ok (f db), db).

(** [.execute(..).await?] followed by [rows_affected()]. *)
Definition execute (stmt : Database → result sqlx_error Z * Database) : repo Z := λ db,
  let '(r, db') := stmt db in (map_err RE.Database r, db').

(** [self.pool.begin()]: the body gets the code of [rollback], and dropping
    the transaction on an error path rolls back too. *)
Definition transaction {A} (body : repo unit → repo A) : repo A := λ db,
  match body (λ _, (Ok tt, db)) db with
  | (Ok a, db') => (Ok a, db')
  | (Err e, _) => (Err e, db)
  end.

(** [rows.iter().map(decode).collect()]. *)
Definition decode_rows {R A} (decode : string → R → result RepositoryError A)
    (rows : list (string * R)) : result RepositoryError (list A) :=
  collect_results (λ '(k, r), decode k r) rows.

(** [fetch_optional] followed by [row.as_ref().map(decode).transpose()]. *)
Definition decode_optional {R A} (decode : string → R → result RepositoryError A)
    (row : option (string * R)) : result RepositoryError (option A) :=
  transpose_map (λ '(k, r), decode k r) row.

Definition find_row {R} (p : string → R → bool) (t : gmap string R) : option (string * R) :=
  List.find (λ '(k, r), p k r) (map_to_list t).

Definition select_rows {R} (p : string → R → bool) (t : gmap string R) : list (string * R) :=
  List.filter (λ '(k, r), p k r) (map_to_list t).

(** [ORDER BY]: sorting by a boolean order. *)
Definition order_by {A} (le : A → A → bool) (l : list A) : list A :=
  merge_sort (λ a b, Is_true (le a b)) l.

(** ** Sort orders and row predicates of the queries *)

(** Byte order of [TEXT] columns (SQLite's BINARY collation). *)
Definition text_leb (a b : string) : bool := negb (bool_decide (String.compare a b = Gt)).

Definition is_active_for_server (server_key : string) (_ : string) (r : server_instances_row) :
    bool :=
  String.eqb (ir_server_id r) server_key && is_none (ir_terminated_at_ms r).

Definition is_active_for_instance (instance_key : string) (_ : string)
    (r : compute_instances_row) : bool :=
  String.eqb (cr_server_instance_id r) instance_key && is_none (cr_terminated_at_ms r).

Section repositories.
Context `{Codec}.

(** ** [ServerRepository] *)

Definition servers_row_of (server : Server) (generation : Z) (spec_json : string) : servers_row :=
  {| sr_name := srv_name server; sr_generation := generation;
     sr_desired_state := DesiredState_as_str (srv_desired_state server);
     sr_spec_json := spec_json;
     sr_current_snapshot_id := srv_current_snapshot_id server;
     sr_archived_at_ms := srv_archived_at server; sr_next_fencing_token := 1;
     sr_created_at_ms := srv_created_at server; sr_updated_at_ms := srv_updated_at server |}.

Definition ServerRepository_create (server : Server) : repo unit :=
  spec_json ← lift (map_err RE.Serialization (spec_to_json (srv_spec server)));
  generation ← lift (generation_to_i64 (srv_generation server));
  ((λ db,
    match insert_servers (uuid_to_string (srv_id server))
            (servers_row_of server generation spec_json) db with
    | (Ok _, db') => (Ok tt, db')
    | (Err e, db') =>
        if is_unique_violation e then (Err (RE.Conflict "server name already exists"), db')
        else (Err (RE.Database e), db')
    end) : repo unit).

Definition ServerRepository_get (id : ServerId) : repo (option Server) :=
  row ← query (λ db, (λ r, (uuid_to_string id, r)) <$> servers db !! uuid_to_string id);
  lift (decode_optional decode_server row).

Definition ServerRepository_get_by_name (name : string) : repo (option Server) :=
  row ← query (λ db, find_row (λ _ r, String.eqb (sr_name r) name) (servers db));
  lift (decode_optional decode_server row).

(** [ORDER BY name, id]. *)
Definition servers_order (a b : string * servers_row) : bool :=
  if String.eqb (sr_name a.2) (sr_name b.2) then text_leb a.1 b.1
  else text_leb (sr_name a.2) (sr_name b.2).

Definition ServerRepository_list (include_archived : bool) : repo (list Server) :=
  rows ← query (λ db, order_by servers_order
    (select_rows (λ _ r, is_none (sr_archived_at_ms r) || include_archived) (servers db)));
  lift (decode_rows decode_server rows).

Definition ServerRepository_list_for_reconciliation : repo (list Server) :=
  ServerRepository_list false.

Definition ServerRepository_has_active_instance (id : ServerId) : repo bool :=
  query (λ db, exists_row (is_active_for_server (uuid_to_string id)) (server_instances db)).

Definition ServerRepository_update_desired_state (server : Server) (previous_generation : Z) :
    repo bool :=
  generation ← lift (generation_to_i64 (srv_generation server));
  previous ← lift (generation_to_i64 previous_generation);
  rows ← execute (update_servers (uuid_to_string (srv_id server))
    (λ r, (sr_generation r =? previous) && is_none (sr_archived_at_ms r))
    (λ r, set_sr_desired_state (DesiredState_as_str (srv_desired_state server))
           (set_sr_generation generation (set_sr_updated_at_ms (srv_updated_at server) r))));
  mret (rows =? 1).

Definition ServerRepository_update_spec (server : Server) (previous_generation : Z) : repo bool :=
  spec_json ← lift (map_err RE.Serialization (spec_to_json (srv_spec server)));
  generation ← lift (generation_to_i64 (srv_generation server));
  previous ← lift (generation_to_i64 previous_generation);
  rows ← execute (update_servers (uuid_to_string (srv_id server))
    (λ r, (sr_generation r =? previous) && String.eqb (sr_desired_state r) "stopped"
          && is_none (sr_archived_at_ms r))
    (λ r, set_sr_spec_json spec_json
           (set_sr_generation generation (set_sr_updated_at_ms (srv_updated_at server) r))));
  mret (rows =? 1).

Definition ServerRepository_archive (server : Server) (previous_generation : Z) : repo bool :=
  archived_at ← lift (ok_or RE.InvalidArchiveState (srv_archived_at server));
  generation ← lift (generation_to_i64 (srv_generation server));
  previous ← lift (generation_to_i64 previous_generation);
  rows ← execute (λ db, update_servers (uuid_to_string (srv_id server))
    (λ r, (sr_generation r =? previous) && String.eqb (sr_desired_state r) "stopped"
          && is_none (sr_archived_at_ms r)
          && negb (exists_row (is_active_for_server (uuid_to_string (srv_id server)))
                     (server_instances db)))
    (λ r, set_sr_archived_at_ms (Some archived_at)
           (set_sr_generation generation (set_sr_updated_at_ms (srv_updated_at server) r))) db);
  mret (rows =? 1).

(** ** [ServerInstanceRepository] *)

(** [SELECT max(updated_at_ms) .. WHERE server_id = key], with [coalesce(.., 0)]. *)
Definition max_instance_updated (server_key : string) (db : Database) : Z :=
  fold_right Z.max 0
    (map (λ '(_, r), ir_updated_at_ms r)
       (select_rows (λ _ r, String.eqb (ir_server_id r) server_key) (server_instances db))).

Definition ServerInstanceRepository_get (id : ServerInstanceId) : repo (option ServerInstance) :=
  row ← query (λ db, (λ r, (uuid_to_string id, r)) <$> server_instances db !! uuid_to_string id);
  lift (decode_optional decode_instance row).

(** The row the [INSERT .. SELECT] makes from the server's row. *)
Definition new_instance_row (server_key : string) (server : servers_row) (time : Z) :
    server_instances_row :=
  {| ir_server_id := server_key; ir_server_generation := sr_generation server;
     ir_resolved_spec_json := sr_spec_json server;
     ir_fencing_token := sr_next_fencing_token server;
     ir_source_snapshot_id := sr_current_snapshot_id server;
     ir_data_prepared_at_ms := None; ir_process_running := false;
     ir_process_observed_at_ms := None; ir_result_snapshot_id := None;
     ir_stop_requested_at_ms := None; ir_terminated_at_ms := None;
     ir_terminal_result := None; ir_last_error := None;
     ir_created_at_ms := time; ir_updated_at_ms := time |}.

(** [INSERT INTO server_instances .. SELECT .. FROM source WHERE ..]. *)
Definition insert_running_instance (server_key instance_key : string) (now : Z) (db : Database) :
    result sqlx_error Z * Database :=
  match servers db !! server_key with
  | Some server =>
      if String.eqb (sr_desired_state server) "running"
         && negb (exists_row (is_active_for_server server_key) (server_instances db))
      then
        let time := Z.max now (Z.max (sr_updated_at_ms server)
                                     (max_instance_updated server_key db)) in
        insert_server_instances instance_key (new_instance_row server_key server time) db
      else (Ok 0, db)
  | None => (Ok 0, db)
  end.

(** The transaction of [create_for_running_server]: whether an instance was
    created. *)
Definition create_instance_transaction (server_id : ServerId) (instance_id : ServerInstanceId)
    (now : Z) : repo bool :=
  transaction (λ rollback,
    inserted ← execute (insert_running_instance (uuid_to_string server_id)
                          (uuid_to_string instance_id) now);
    if inserted =? 0 then _ ← rollback; mret false
    else
      _ ← execute (update_servers (uuid_to_string server_id) (λ _, true)
             (λ r, set_sr_next_fencing_token (sr_next_fencing_token r + 1) r));
      mret true).

Definition ServerInstanceRepository_create_for_running_server (server_id : ServerId)
    (instance_id : ServerInstanceId) (now : Z) : repo (option ServerInstance) :=
  created ← create_instance_transaction server_id instance_id now;
  if (created : bool) then ServerInstanceRepository_get instance_id else mret None.

Definition ServerInstanceRepository_get_active_for_server (server_id : ServerId) :
    repo (option ServerInstance) :=
  row ← query (λ db, find_row (is_active_for_server (uuid_to_string server_id))
                       (server_instances db));
  lift (decode_optional decode_instance row).

(** [ORDER BY fencing_token DESC, id]. *)
Definition instances_order (a b : string * server_instances_row) : bool :=
  if ir_fencing_token a.2 =? ir_fencing_token b.2 then text_leb a.1 b.1
  else ir_fencing_token b.2 <=? ir_fencing_token a.2.

Definition ServerInstanceRepository_list_for_server (server_id : ServerId) :
    repo (list ServerInstance) :=
  rows ← query (λ db, order_by instances_order
    (select_rows (λ _ r, String.eqb (ir_server_id r) (uuid_to_string server_id))
       (server_instances db)));
  lift (decode_rows decode_instance rows).

(** [max(now, created_at_ms, updated_at_ms)]. *)
Definition ir_touch (now : Z) (r : server_instances_row) : Z :=
  Z.max now (Z.max (ir_updated_at_ms r) (ir_created_at_ms r)).

Definition ir_is_active (r : server_instances_row) : bool := is_none (ir_terminated_at_ms r).

Definition ServerInstanceRepository_request_stop (id : ServerInstanceId) (now : Z) : repo bool :=
  rows ← execute (update_server_instances (uuid_to_string id)
    (λ r, ir_is_active r && is_none (ir_stop_requested_at_ms r))
    (λ r, set_ir_stop_requested_at_ms (Some (ir_touch now r))
           (set_ir_updated_at_ms (ir_touch now r) r)));
  mret (rows =? 1).

Definition ServerInstanceRepository_mark_data_prepared (id : ServerInstanceId) (now : Z) :
    repo bool :=
  rows ← execute (update_server_instances (uuid_to_string id) ir_is_active
    (λ r, set_ir_data_prepared_at_ms
            (Some (sql_coalesce (ir_data_prepared_at_ms r) (Z.max now (ir_created_at_ms r))))
           (set_ir_last_error None (set_ir_updated_at_ms (ir_touch now r) r))));
  mret (rows =? 1).

(** [max(coalesce(process_observed_at_ms, 0), now, updated_at_ms, created_at_ms)]. *)
Definition ir_observed (now : Z) (r : server_instances_row) : Z :=
  Z.max (sql_coalesce (ir_process_observed_at_ms r) 0) (ir_touch now r).

Definition ServerInstanceRepository_observe_process (id : ServerInstanceId) (running : bool)
    (now : Z) : repo bool :=
  rows ← execute (update_server_instances (uuid_to_string id) ir_is_active
    (λ r, set_ir_process_running running
           (set_ir_process_observed_at_ms (Some (ir_observed now r))
             (set_ir_last_error None (set_ir_updated_at_ms (ir_touch now r) r)))));
  mret (rows =? 1).

(** [truncate_chars] of server_instance_repository.rs. *)
Definition truncate_chars (value : string) (maximum : nat) : string :=
  if str_char_count value <=? Z.of_nat maximum then value else str_take_chars maximum value.

Definition ServerInstanceRepository_record_error (id : ServerInstanceId) (message : string)
    (now : Z) : repo unit :=
  let message := truncate_chars message (Z.to_nat MAX_ERROR_CHARS) in
  _ ← execute (update_server_instances (uuid_to_string id) ir_is_active
    (λ r, set_ir_last_error (Some message) (set_ir_updated_at_ms (ir_touch now r) r)));
  mret tt.

Definition ServerInstanceRepository_complete (id : ServerInstanceId) (res : TerminalResult)
    (now : Z) : repo bool :=
  rows ← execute (update_server_instances (uuid_to_string id) ir_is_active
    (λ r, set_ir_process_running false
           (set_ir_process_observed_at_ms (Some (ir_observed now r))
             (set_ir_terminated_at_ms
                (Some (Z.max (ir_touch now r) (sql_coalesce (ir_stop_requested_at_ms r) 0)))
               (set_ir_terminal_result (Some (TerminalResult_as_str res))
                 (set_ir_updated_at_ms (ir_touch now r) r))))));
  mret (rows =? 1).

(** ** [SnapshotRepository] *)

Definition SnapshotRepository_commit (server_instance_id : ServerInstanceId) (fencing_token : Z)
    (snapshot_id : string) (now : Z) : repo bool :=
  let instance_key := uuid_to_string server_instance_id in
  _ ← lift (err_if (str_is_blank snapshot_id || str_contains_nul snapshot_id
                    || (MAX_SNAPSHOT_ID_CHARS <? str_char_count snapshot_id))
      (RE.CorruptData "snapshot id must be non-blank, bounded, and contain no NUL byte"));
  transaction (λ rollback,
    row ← query (λ db,
      instance ← server_instances db !! instance_key;
      server ← servers db !! ir_server_id instance;
      Some (instance, server));
    '(instance, server) ← lift (ok_or (RE.Conflict "server instance does not exist") row);
    let server_id := ir_server_id instance in
    token ← lift (positive_u64_to_i64 fencing_token);
    if negb (ir_fencing_token instance =? token) || is_some (ir_terminated_at_ms instance) then
      _ ← rollback;
      lift (Err (RE.Conflict "stale server instance cannot publish a snapshot"))
    else
      match ir_result_snapshot_id instance with
      | Some existing_snapshot =>
          _ ← rollback;
          if String.eqb existing_snapshot snapshot_id then mret false
          else lift (Err (RE.Conflict "server instance already published another snapshot"))
      | None =>
          let committed_at_ms := Z.max (Z.max now (ir_updated_at_ms instance))
                                       (sr_updated_at_ms server) in
          _ ← execute (insert_snapshots server_id snapshot_id
                 {| nr_server_instance_id := instance_key; nr_fencing_token := token;
                    nr_created_at_ms := committed_at_ms |});
          updated ← execute (update_server_instances instance_key
            (λ r, ir_is_active r && (ir_fencing_token r =? token))
            (λ r, set_ir_result_snapshot_id (Some snapshot_id)
                   (set_ir_updated_at_ms (ir_touch committed_at_ms r) r)));
          if negb (updated =? 1) then
            _ ← rollback;
            lift (Err (RE.Conflict
              "server instance stopped before its snapshot could be published"))
          else
            published ← execute (λ db, update_servers server_id
              (λ _, match server_instances db !! instance_key with
                    | Some i => String.eqb (ir_server_id i) server_id
                                && (ir_fencing_token i =? token) && ir_is_active i
                    | None => false
                    end)
              (λ r, set_sr_current_snapshot_id (Some snapshot_id)
                     (set_sr_updated_at_ms
                        (Z.max committed_at_ms
                           (Z.max (sr_updated_at_ms r) (sr_created_at_ms r))) r)) db);
            if negb (published =? 1) then
              _ ← rollback;
              lift (Err (RE.Conflict "stale server instance cannot publish a snapshot"))
            else mret true
      end).
End repositories.
