(* ===== verification/ComputeRepository.v ===== *)
(** The repository of compute instances
    (crates/mcserver-control-plane/src/infrastructure/compute_instance_repository.rs):
    creation, provider bookkeeping, agent enrollment and authentication, and
    the ends of a compute instance. *)
From S2P Require Import Prelude Text Server Instances Database Repositories.
From stdpp Require Import sorting.
#[local] Open Scope string_scope.
#[local] Open Scope Z_scope.

Module AA.
(** [AgentAuthentication]. *)
Inductive AgentAuthentication := Accepted | Rejected.
End AA.
Abbreviation AgentAuthentication := AA.AgentAuthentication.

#[global] Instance AgentAuthentication_eq_dec : EqDecision AgentAuthentication.
Proof. solve_decision. Defined.

Record AgentCertificateRecord := {
  acr_certificate_signing_request_pem : string;
  acr_certificate_chain_pem : string;
  acr_certificate_der : string;
  acr_certificate_expires_at : Z;
  acr_recorded_at : Z;
}.

Record AgentEnrollment := {
  ae_connection_token : string;
  ae_certificate_signing_request_pem : option string;
  ae_certificate_chain_pem : option string;
  ae_certificate_der : option string;
  ae_certificate_expires_at : option Z;
}.

Section compute_repository.
Context `{Codec}.

(** [max(now, updated_at_ms, created_at_ms)]. *)
Definition cr_touch (now : Z) (r : compute_instances_row) : Z :=
  Z.max now (Z.max (cr_updated_at_ms r) (cr_created_at_ms r)).

Definition cr_is_active (r : compute_instances_row) : bool := is_none (cr_terminated_at_ms r).

Definition cr_provider_is (provider : string) (r : compute_instances_row) : bool :=
  String.eqb (cr_provider r) provider.

(** [c = ?] of a nullable text column. *)
Definition sql_eq (c : option string) (v : string) : bool := is_some_and (String.eqb v) c.

Definition ComputeInstanceRepository_get (id : ComputeInstanceId) : repo (option ComputeInstance) :=
  row ← query (λ db, (λ r, (uuid_to_string id, r)) <$> compute_instances db !! uuid_to_string id);
  lift (decode_optional decode_compute_instance row).

(** The row of [INSERT INTO compute_instances]. *)
Definition new_compute_row (instance_key : string) (provider : ComputeProvider)
    (connection_token : string) (enrollment_token : option string) (now : Z) :
    compute_instances_row :=
  {| cr_server_instance_id := instance_key; cr_provider := ComputeProvider_as_str provider;
     cr_provider_instance_id := None; cr_public_ipv4 := None;
     cr_connection_token := connection_token; cr_enrollment_token := enrollment_token;
     cr_agent_csr_pem := None; cr_agent_certificate_chain_pem := None;
     cr_agent_certificate_der := None; cr_agent_certificate_expires_at_ms := None;
     cr_process_id := None; cr_agent_connected_at_ms := None;
     cr_shutdown_requested_at_ms := None; cr_terminated_at_ms := None;
     cr_terminal_result := None; cr_failure_message := None;
     cr_created_at_ms := now; cr_updated_at_ms := now |}.

(** [INSERT .. SELECT .. WHERE EXISTS (..) AND NOT EXISTS (..)]. *)
Definition insert_compute_for_active_instance (key instance_key : string)
    (row : compute_instances_row) (db : Database) : result sqlx_error Z * Database :=
  if is_some_and ir_is_active (server_instances db !! instance_key)
     && negb (exists_row (is_active_for_instance instance_key) (compute_instances db))
  then insert_compute_instances key row db
  else (Ok 0, db).

(** The [INSERT] of [create_for_instance]: whether there is a new row. *)
Definition insert_compute (id : ComputeInstanceId) (server_instance_id : ServerInstanceId)
    (provider : ComputeProvider) (connection_token : string) (enrollment_token : option string)
    (now : Z) : repo bool := λ db,
  let instance_key := uuid_to_string server_instance_id in
  match insert_compute_for_active_instance (uuid_to_string id) instance_key
          (new_compute_row instance_key provider connection_token enrollment_token now) db with
  | (Ok rows, db') => (Ok (rows =? 1), db')
  | (Err e, db') =>
      if is_unique_violation e then (Ok false, db') else (Err (RE.Database e), db')
  end.

Definition ComputeInstanceRepository_create_for_instance (id : ComputeInstanceId)
    (server_instance_id : ServerInstanceId) (provider : ComputeProvider)
    (connection_token : string) (enrollment_token : option string) (now : Z) :
    repo (option ComputeInstance) :=
  inserted ← insert_compute id server_instance_id provider connection_token enrollment_token now;
  if (inserted : bool) then ComputeInstanceRepository_get id else mret None.

Definition ComputeInstanceRepository_get_active_for_instance
    (server_instance_id : ServerInstanceId) : repo (option ComputeInstance) :=
  row ← query (λ db, find_row (is_active_for_instance (uuid_to_string server_instance_id))
                       (compute_instances db));
  lift (decode_optional decode_compute_instance row).

(** [ORDER BY id]. *)
Definition computes_order (a b : string * compute_instances_row) : bool := text_leb a.1 b.1.

Definition decode_ownership (key : string) (row : compute_instances_row) :
    result RepositoryError (ComputeInstanceId * ServerInstanceId) :=
  compute_id ← decode_uuid key;
  server_instance_id ← decode_uuid (cr_server_instance_id row);
  Ok (compute_id, server_instance_id).

Definition ComputeInstanceRepository_list_active_local_ownership :
    repo (list (ComputeInstanceId * ServerInstanceId)) :=
  rows ← query (λ db, order_by computes_order
    (select_rows (λ _ r, cr_is_active r && cr_provider_is "local_process" r)
       (compute_instances db)));
  lift (decode_rows decode_ownership rows).

Definition ComputeInstanceRepository_list_active_akamai : repo (list ComputeInstance) :=
  rows ← query (λ db, order_by computes_order
    (select_rows (λ _ r, cr_is_active r && cr_provider_is "akamai" r) (compute_instances db)));
  lift (decode_rows decode_compute_instance rows).

Definition ComputeInstanceRepository_record_process_id (id : ComputeInstanceId) (process_id : Z)
    (now : Z) : repo bool :=
  rows ← execute (update_compute_instances (uuid_to_string id)
    (λ r, cr_is_active r && cr_provider_is "local_process" r)
    (λ r, set_cr_process_id (Some process_id)
           (set_cr_failure_message None (set_cr_updated_at_ms (cr_touch now r) r))));
  mret (rows =? 1).

Definition ComputeInstanceRepository_record_provider_instance (id : ComputeInstanceId)
    (provider_instance_id : string) (public_ipv4 : option string) (now : Z) : repo bool :=
  rows ← execute (update_compute_instances (uuid_to_string id)
    (λ r, cr_is_active r && cr_provider_is "akamai" r)
    (λ r, set_cr_provider_instance_id (Some provider_instance_id)
           (set_cr_public_ipv4 public_ipv4
             (set_cr_failure_message None (set_cr_updated_at_ms (cr_touch now r) r)))));
  mret (rows =? 1).

Definition ComputeInstanceRepository_get_agent_enrollment (id : ComputeInstanceId)
    (enrollment_token : string) : repo (option AgentEnrollment) :=
  row ← query (λ db,
    r ← compute_instances db !! uuid_to_string id;
    if cr_provider_is "akamai" r && sql_eq (cr_enrollment_token r) enrollment_token
       && cr_is_active r then Some r else None);
  lift (transpose_map (λ r,
    expires ← optional_timestamp (cr_agent_certificate_expires_at_ms r);
    Ok {| ae_connection_token := cr_connection_token r;
          ae_certificate_signing_request_pem := cr_agent_csr_pem r;
          ae_certificate_chain_pem := cr_agent_certificate_chain_pem r;
          ae_certificate_der := cr_agent_certificate_der r;
          ae_certificate_expires_at := expires |}) row).

Definition ComputeInstanceRepository_record_agent_certificate (id : ComputeInstanceId)
    (enrollment_token : string) (certificate : AgentCertificateRecord) : repo bool :=
  rows ← execute (update_compute_instances (uuid_to_string id)
    (λ r, cr_provider_is "akamai" r && sql_eq (cr_enrollment_token r) enrollment_token
          && is_none (cr_agent_csr_pem r) && cr_is_active r)
    (λ r, set_cr_agent_csr_pem (Some (acr_certificate_signing_request_pem certificate))
           (set_cr_agent_certificate_chain_pem (Some (acr_certificate_chain_pem certificate))
             (set_cr_agent_certificate_der (Some (acr_certificate_der certificate))
               (set_cr_agent_certificate_expires_at_ms
                  (Some (acr_certificate_expires_at certificate))
                 (set_cr_failure_message None
                   (set_cr_updated_at_ms (cr_touch (acr_recorded_at certificate) r) r)))))));
  mret (rows =? 1).

(** [max(coalesce(agent_connected_at_ms, 0), now, updated_at_ms, created_at_ms)]. *)
Definition cr_connected (now : Z) (r : compute_instances_row) : Z :=
  Z.max (sql_coalesce (cr_agent_connected_at_ms r) 0) (cr_touch now r).

Definition ComputeInstanceRepository_authenticate_agent (id : ComputeInstanceId)
    (expected_provider : ComputeProvider) (presented_token : string)
    (presented_certificate_der : option string) (now : Z) : repo AgentAuthentication :=
  let verdict rows := if rows =? 1 then AA.Accepted else AA.Rejected in
  match expected_provider with
  | CP.LocalProcess =>
      rows ← execute (update_compute_instances (uuid_to_string id)
        (λ r, cr_provider_is "local_process" r && String.eqb (cr_connection_token r) presented_token
              && cr_is_active r)
        (λ r, set_cr_agent_connected_at_ms (Some (cr_connected now r))
               (set_cr_failure_message None (set_cr_updated_at_ms (cr_touch now r) r))));
      mret (verdict rows)
  | CP.Akamai =>
      match presented_certificate_der with
      | None => mret AA.Rejected
      | Some certificate_der =>
          rows ← execute (update_compute_instances (uuid_to_string id)
            (λ r, cr_provider_is "akamai" r
                  && String.eqb (cr_connection_token r) presented_token
                  && sql_eq (cr_agent_certificate_der r) certificate_der
                  && is_some_and (λ t, now <? t) (cr_agent_certificate_expires_at_ms r)
                  && cr_is_active r)
            (λ r, set_cr_enrollment_token None
                   (set_cr_agent_connected_at_ms (Some (cr_connected now r))
                     (set_cr_failure_message None (set_cr_updated_at_ms (cr_touch now r) r)))));
          mret (verdict rows)
      end
  end.

Definition ComputeInstanceRepository_request_shutdown (id : ComputeInstanceId) (now : Z) :
    repo bool :=
  rows ← execute (update_compute_instances (uuid_to_string id) cr_is_active
    (λ r, set_cr_shutdown_requested_at_ms
            (Some (sql_coalesce (cr_shutdown_requested_at_ms r) (Z.max now (cr_created_at_ms r))))
           (set_cr_updated_at_ms (cr_touch now r) r)));
  mret (rows =? 1).

Definition ComputeInstanceRepository_terminate (id : ComputeInstanceId)
    (res : ComputeTerminalResult) (failure_message : option string) (now : Z) : repo bool :=
  rows ← execute (update_compute_instances (uuid_to_string id) cr_is_active
    (λ r, set_cr_terminated_at_ms (Some (cr_touch now r))
           (set_cr_terminal_result (Some (ComputeTerminalResult_as_str res))
             (set_cr_failure_message failure_message
               (set_cr_updated_at_ms (cr_touch now r) r)))));
  mret (rows =? 1).

(** [truncate_chars] of compute_instance_repository.rs. *)
Definition compute_truncate_chars (value : string) (maximum : nat) : string :=
  str_take_chars maximum value.

Definition ComputeInstanceRepository_record_failure (id : ComputeInstanceId) (message : string)
    (now : Z) : repo unit :=
  let message := compute_truncate_chars message (Z.to_nat MAX_FAILURE_MESSAGE_CHARS) in
  _ ← execute (update_compute_instances (uuid_to_string id) cr_is_active
    (λ r, set_cr_failure_message (Some message) (set_cr_updated_at_ms (cr_touch now r) r)));
  mret tt.
End compute_repository.
