(* ===== verification/Invariant.v ===== *)
(** The invariant of the control plane's database: well-formed rows, fencing
    tokens, at most one active instance per server and one active compute
    instance per server instance, and the lineage of snapshots. With it, the
    frame lemmas that say which row updates keep it. *)
From S2P Require Import Prelude Text Server ServerFacts Instances InstanceFacts Database RowFacts.
From S2P Require Import Repositories ComputeRepository.
#[local] Open Scope string_scope.
#[local] Open Scope Z_scope.

(** ** Lineage

    [latest_result m sid bound snap]: of the instances of server [sid] with a
    fencing token below [bound], the one with the largest token that published
    a snapshot published [snap]; none published if [snap] is [None]. *)
Definition latest_result (m : gmap string server_instances_row) (sid : string) (bound : Z)
    (snap : option string) : Prop :=
  match snap with
  | None => ∀ k i, m !! k = Some i → ir_server_id i = sid → ir_fencing_token i < bound →
      ir_result_snapshot_id i = None
  | Some id => ∃ k i, m !! k = Some i ∧ ir_server_id i = sid ∧ ir_fencing_token i < bound ∧
      ir_result_snapshot_id i = Some id ∧
      ∀ k' i', m !! k' = Some i' → ir_server_id i' = sid →
        ir_fencing_token i < ir_fencing_token i' → ir_fencing_token i' < bound →
        ir_result_snapshot_id i' = None
  end.

Section invariant.
Context `{CodecLaws}.

Record db_ok (db : Database) : Prop := {
  ok_servers : map_Forall server_row_wf (servers db);
  ok_instances : map_Forall instance_row_wf (server_instances db);
  ok_computes : map_Forall compute_row_wf (compute_instances db);
  ok_names k k' s s' : servers db !! k = Some s → servers db !! k' = Some s' →
    sr_name s = sr_name s' → k = k';
  ok_instance_server k i : server_instances db !! k = Some i →
    ∃ s, servers db !! ir_server_id i = Some s ∧ ir_fencing_token i < sr_next_fencing_token s;
  ok_tokens k k' i i' :
    server_instances db !! k = Some i → server_instances db !! k' = Some i' →
    ir_server_id i = ir_server_id i' → ir_fencing_token i = ir_fencing_token i' → k = k';
  ok_active_newest k k' i i' :
    server_instances db !! k = Some i → server_instances db !! k' = Some i' →
    ir_server_id i = ir_server_id i' → ir_terminated_at_ms i = None →
    ir_fencing_token i' ≤ ir_fencing_token i;
  ok_archived k i s : server_instances db !! k = Some i → ir_terminated_at_ms i = None →
    servers db !! ir_server_id i = Some s → sr_archived_at_ms s = None;
  ok_compute_instance k c : compute_instances db !! k = Some c →
    is_Some (server_instances db !! cr_server_instance_id c);
  ok_one_compute k k' c c' :
    compute_instances db !! k = Some c → compute_instances db !! k' = Some c' →
    cr_server_instance_id c = cr_server_instance_id c' →
    cr_terminated_at_ms c = None → cr_terminated_at_ms c' = None → k = k';
  ok_current k s : servers db !! k = Some s →
    latest_result (server_instances db) k (sr_next_fencing_token s) (sr_current_snapshot_id s);
  ok_source k i : server_instances db !! k = Some i →
    latest_result (server_instances db) (ir_server_id i) (ir_fencing_token i)
      (ir_source_snapshot_id i);
  ok_published k i id : server_instances db !! k = Some i → ir_result_snapshot_id i = Some id →
    ∃ n, snapshots db !! (ir_server_id i, id) = Some n ∧ nr_server_instance_id n = k ∧
         nr_fencing_token n = ir_fencing_token i;
  ok_snapshot_rows sid id n : snapshots db !! (sid, id) = Some n →
    ∃ i, server_instances db !! nr_server_instance_id n = Some i ∧ ir_server_id i = sid ∧
         ir_fencing_token i = nr_fencing_token n ∧ ir_result_snapshot_id i = Some id;
}.

(** The database of a new installation satisfies it. *)
Lemma empty_database_ok : db_ok empty_database.
Proof. constructor; cbn; intros; try apply map_Forall_empty; by rewrite lookup_empty in *. Qed.

(** At most one active instance per server. *)
Lemma one_active_instance db k k' i i' :
  db_ok db → server_instances db !! k = Some i → server_instances db !! k' = Some i' →
  ir_server_id i = ir_server_id i' → ir_terminated_at_ms i = None → ir_terminated_at_ms i' = None →
  k = k'.
Proof.
  intros Hok Hi Hi' Hs Ha Ha'. eapply (ok_tokens _ Hok); [done..|].
  pose proof (ok_active_newest _ Hok _ _ _ _ Hi Hi' Hs Ha).
  pose proof (ok_active_newest _ Hok _ _ _ _ Hi' Hi (eq_sym Hs) Ha'). lia.
Qed.

(** ** Frames

    What the updates of a row that are not a publication leave alone. *)

Definition instance_frame (r r' : server_instances_row) : Prop :=
  ir_server_id r' = ir_server_id r ∧ ir_fencing_token r' = ir_fencing_token r ∧
  ir_source_snapshot_id r' = ir_source_snapshot_id r ∧
  ir_result_snapshot_id r' = ir_result_snapshot_id r ∧
  (ir_terminated_at_ms r' = None → ir_terminated_at_ms r = None).

Definition compute_frame (r r' : compute_instances_row) : Prop :=
  cr_server_instance_id r' = cr_server_instance_id r ∧
  (cr_terminated_at_ms r' = None → cr_terminated_at_ms r = None).

Lemma insert_related {R} (rel : R → R → Prop) (m : gmap string R) key r r' :
  (∀ x, rel x x) → m !! key = Some r → rel r r' →
  (∀ k x', <[key := r']> m !! k = Some x' → ∃ x, m !! k = Some x ∧ rel x x') ∧
  (∀ k x, m !! k = Some x → ∃ x', <[key := r']> m !! k = Some x' ∧ rel x x').
Proof.
  intros Hrefl Hr Hrel. split; intros k x.
  - rewrite lookup_insert_Some. intros [[<- <-]|[Hne Hx]]; eauto.
  - intros Hx. destruct (decide (key = k)) as [<-|Hne].
    + rewrite lookup_insert, decide_True by done. naive_solver.
    + rewrite lookup_insert_ne by done. eauto.
Qed.

Lemma instance_frame_refl r : instance_frame r r.
Proof. repeat split; auto. Qed.

Lemma latest_result_related m m' sid bound snap :
  (∀ k x', m' !! k = Some x' → ∃ x, m !! k = Some x ∧ instance_frame x x') →
  (∀ k x, m !! k = Some x → ∃ x', m' !! k = Some x' ∧ instance_frame x x') →
  latest_result m sid bound snap → latest_result m' sid bound snap.
Proof.
  intros Hb Hf. destruct snap as [id|]; cbn.
  - intros (k & i & Hi & <- & Hlt & Hres & Hmax).
    destruct (Hf _ _ Hi) as (i' & Hi' & Es & Et & _ & Er & _).
    exists k, i'. split_and!; [done|done|lia|congruence|].
    intros k2 i2 Hi2 Hs2 H1 H2. destruct (Hb _ _ Hi2) as (i3 & Hi3 & Es3 & Et3 & _ & Er3 & _).
    rewrite Er3. eapply Hmax; [done|congruence|lia|lia].
  - intros Hnone k i Hi Hs Hlt. destruct (Hb _ _ Hi) as (i3 & Hi3 & Es3 & Et3 & _ & Er3 & _).
    rewrite Er3. eapply Hnone; [done|congruence|lia].
Qed.

(** Updating an instance's row within its frame keeps the invariant. *)
Lemma db_ok_update_instance db key r r' :
  db_ok db → server_instances db !! key = Some r → instance_row_wf key r' →
  instance_frame r r' →
  db_ok (set_server_instances (<[key := r']> (server_instances db)) db).
Proof.
  intros Hok Hr Hwf Hfr.
  destruct (insert_related instance_frame (server_instances db) key r r') as [Hb Hf];
    [apply instance_frame_refl|done|done|].
  destruct Hok as [ok1 ok2 ok3 ok4 ok5 ok6 ok7 ok8 ok9 ok10 ok11 ok12 ok13 ok14].
  constructor; cbn; [done| |done|done|..].
  - by apply map_Forall_insert_2.
  - intros k i Hi. destruct (Hb _ _ Hi) as (x & Hx & -> & -> & _). eauto.
  - intros k k' i i' Hi Hi'. destruct (Hb _ _ Hi) as (x & Hx & -> & -> & _).
    destruct (Hb _ _ Hi') as (x' & Hx' & -> & -> & _). eauto.
  - intros k k' i i' Hi Hi'. destruct (Hb _ _ Hi) as (x & Hx & -> & -> & _ & _ & Ht).
    destruct (Hb _ _ Hi') as (x' & Hx' & -> & -> & _). eauto.
  - intros k i s Hi Ha. destruct (Hb _ _ Hi) as (x & Hx & -> & _ & _ & _ & Ht). eauto.
  - intros k c Hc. destruct (ok9 _ _ Hc) as [x Hx]. destruct (Hf _ _ Hx) as (x' & -> & _). eauto.
  - done.
  - intros k s Hs. eapply latest_result_related; eauto.
  - intros k i Hi. destruct (Hb _ _ Hi) as (x & Hx & -> & -> & -> & _).
    eapply latest_result_related; eauto.
  - intros k i id Hi. destruct (Hb _ _ Hi) as (x & Hx & -> & -> & _ & -> & _). eauto.
  - intros sid id n Hn. destruct (ok14 _ _ _ Hn) as (x & Hx & Hs & Ht & Hre).
    destruct (Hf _ _ Hx) as (x' & ? & Hs' & Ht' & _ & Hr' & _).
    exists x'. split_and!; [done|congruence..].
Qed.

(** Updating a compute instance's row within its frame keeps the invariant. *)
Lemma db_ok_update_compute db key r r' :
  db_ok db → compute_instances db !! key = Some r → compute_row_wf key r' →
  compute_frame r r' →
  db_ok (set_compute_instances (<[key := r']> (compute_instances db)) db).
Proof.
  intros Hok Hr Hwf Hfr.
  destruct (insert_related compute_frame (compute_instances db) key r r') as [Hb Hf];
    [by split|done|done|].
  destruct Hok as [ok1 ok2 ok3 ok4 ok5 ok6 ok7 ok8 ok9 ok10 ok11 ok12 ok13 ok14].
  constructor; cbn; try done.
  - by apply map_Forall_insert_2.
  - intros k c Hc. destruct (Hb _ _ Hc) as (x & Hx & -> & _). eauto.
  - intros k k' c c' Hc Hc'. destruct (Hb _ _ Hc) as (x & Hx & -> & Ht).
    destruct (Hb _ _ Hc') as (x' & Hx' & -> & Ht'). eauto.
Qed.

(** Updating a server's row keeps the invariant when name, token and snapshot
    stay and it is archived only without an active instance. *)
Lemma db_ok_update_server db key r r' :
  db_ok db → servers db !! key = Some r → server_row_wf key r' →
  sr_name r' = sr_name r → sr_next_fencing_token r' = sr_next_fencing_token r →
  sr_current_snapshot_id r' = sr_current_snapshot_id r →
  (is_Some (sr_archived_at_ms r') → is_Some (sr_archived_at_ms r) ∨
   exists_row (is_active_for_server key) (server_instances db) = false) →
  db_ok (set_servers (<[key := r']> (servers db)) db).
Proof.
  intros Hok Hr Hwf Hname Htok Hsnap Harch.
  destruct Hok as [ok1 ok2 ok3 ok4 ok5 ok6 ok7 ok8 ok9 ok10 ok11 ok12 ok13 ok14].
  assert (Hb : ∀ k s', <[key := r']> (servers db) !! k = Some s' →
    ∃ s, servers db !! k = Some s ∧ sr_name s' = sr_name s ∧
      sr_next_fencing_token s' = sr_next_fencing_token s ∧
      sr_current_snapshot_id s' = sr_current_snapshot_id s).
  { intros k s'. rewrite lookup_insert_Some. intros [[<- <-]|[? ?]]; eauto 10. }
  constructor; cbn; try done.
  - by apply map_Forall_insert_2.
  - intros k k' s s' Hs Hs'. destruct (Hb _ _ Hs) as (x & Hx & -> & _).
    destruct (Hb _ _ Hs') as (x' & Hx' & -> & _). eauto.
  - intros k i Hi. destruct (ok5 _ _ Hi) as (s & Hs & Hlt).
    destruct (decide (key = ir_server_id i)) as [->|Hne].
    + exists r'. rewrite lookup_insert, decide_True by done. split; [done|].
      rewrite Htok. replace r with s by congruence. done.
    + exists s. by rewrite lookup_insert_ne.
  - intros k i s Hi Ha. rewrite lookup_insert_Some. intros [[Hk <-]|[Hne Hs]]; [|eauto].
    destruct (sr_archived_at_ms r') eqn:E; [|done]. destruct Harch as [[t Ht]|Hno]; [done| |].
    + rewrite (ok8 _ _ r Hi Ha) in Ht by (by rewrite <- Hk). done.
    + exfalso. unfold exists_row in Hno. apply not_true_iff_false in Hno. apply Hno.
      apply existsb_exists. exists (k, i). split.
      * by apply list_elem_of_In, elem_of_map_to_list.
      * unfold is_active_for_server. rewrite Ha, <- Hk, String.eqb_refl. done.
  - intros k s Hs. destruct (Hb _ _ Hs) as (x & Hx & _ & -> & ->). eauto.
Qed.
End invariant.
