(* ===== verification/RepositoryFacts.v ===== *)
(** Every write of the repositories keeps the database invariant and never
    runs into a [CHECK]: the frame of each update, creation of instances and
    compute instances, and publication of snapshots. *)
From S2P Require Import Prelude Text Server ServerFacts Instances InstanceFacts Database RowFacts.
From S2P Require Import Repositories ComputeRepository Invariant.
#[local] Open Scope string_scope.
#[local] Open Scope Z_scope.

(** ** Running the database monad *)

Lemma run_bind {A B} (m : repo A) (f : A → repo B) db :
  (x ← m; f x) db =
  match m db with (Ok a, db') => f a db' | (Err e, db') => (Err e, db') end.
Proof. done. Qed.

Lemma run_execute {A} stmt (f : Z → repo A) db n db' :
  stmt db = (Ok n, db') → (x ← execute stmt; f x) db = f n db'.
Proof. intros Hs. rewrite run_bind. unfold execute. by rewrite Hs. Qed.

Lemma run_lift {A B} (r : result RepositoryError A) (f : A → repo B) db :
  (x ← lift r; f x) db = match r with Ok a => f a db | Err e => (Err e, db) end.
Proof. done. Qed.

Lemma exists_row_false {R} (p : string → R → bool) (m : gmap string R) k r :
  exists_row p m = false → m !! k = Some r → p k r = false.
Proof.
  intros He Hr. apply not_true_iff_false. intros Hp. apply not_true_iff_false in He. apply He.
  apply existsb_exists. exists (k, r). split; [|done]. by apply list_elem_of_In, elem_of_map_to_list.
Qed.

Lemma exists_row_true {R} (p : string → R → bool) (m : gmap string R) :
  exists_row p m = true ↔ ∃ k r, m !! k = Some r ∧ p k r = true.
Proof.
  unfold exists_row. rewrite existsb_exists. split.
  - intros ([k r] & Hin & Hp). exists k, r. split; [|done].
    by apply elem_of_map_to_list, list_elem_of_In.
  - intros (k & r & Hr & Hp). exists (k, r). split; [|done].
    by apply list_elem_of_In, elem_of_map_to_list.
Qed.

(** ** Reasoning about rows *)

(** [row_times] closes the arithmetic of timestamp columns. *)
Ltac row_times :=
  intros; simplify_eq/=;
  repeat match goal with
  | H : Forall _ (_ :: _) |- _ => apply Forall_cons in H as [? ?]
  | |- Forall _ (_ :: _) => apply Forall_cons; split
  | |- Forall _ [] => constructor
  end;
  intros; simplify_eq/=;
  repeat match goal with
  | H : ∀ t, ?o = Some t → _, E : ?o = Some ?t |- _ => specialize (H t E)
  | H : ∀ t, Some ?x = Some t → _ |- _ => specialize (H x eq_refl)
  end; try lia.

Section facts.
Context `{CodecLaws}.

Ltac row_wf Hwf :=
  destruct Hwf; constructor; cbn; try done; try (by eauto); try (by intros [? ?]; congruence);
  unfold times_between, times_before in *;
  unfold ir_observed, ir_touch, cr_connected, cr_touch in *.

Lemma stop_requested_wf key r now :
  0 ≤ now → ir_terminated_at_ms r = None → instance_row_wf key r →
  instance_row_wf key (set_ir_stop_requested_at_ms (Some (ir_touch now r))
    (set_ir_updated_at_ms (ir_touch now r) r)).
Proof. intros Hn Ha Hwf. row_wf Hwf; row_times. Qed.

Lemma data_prepared_wf key r now :
  0 ≤ now → ir_terminated_at_ms r = None → instance_row_wf key r →
  instance_row_wf key (set_ir_data_prepared_at_ms
    (Some (sql_coalesce (ir_data_prepared_at_ms r) (Z.max now (ir_created_at_ms r))))
    (set_ir_last_error None (set_ir_updated_at_ms (ir_touch now r) r))).
Proof.
  intros Hn Ha Hwf. row_wf Hwf; destruct (ir_data_prepared_at_ms r) eqn:E; cbn; row_times.
Qed.

Lemma observed_wf key r now running :
  0 ≤ now → ir_terminated_at_ms r = None → instance_row_wf key r →
  instance_row_wf key (set_ir_process_running running
    (set_ir_process_observed_at_ms (Some (ir_observed now r))
      (set_ir_last_error None (set_ir_updated_at_ms (ir_touch now r) r)))).
Proof.
  intros Hn Ha Hwf. row_wf Hwf;
    destruct (ir_process_observed_at_ms r) eqn:E; cbn; row_times.
Qed.

Lemma error_wf key r now message :
  0 ≤ now → ir_terminated_at_ms r = None → text_ok MAX_ERROR_CHARS message →
  instance_row_wf key r →
  instance_row_wf key (set_ir_last_error (Some message) (set_ir_updated_at_ms (ir_touch now r) r)).
Proof. intros Hn Ha Hm Hwf. row_wf Hwf; row_times; done. Qed.

Lemma completed_wf key r now res :
  0 ≤ now → ir_terminated_at_ms r = None → instance_row_wf key r →
  instance_row_wf key (set_ir_process_running false
    (set_ir_process_observed_at_ms (Some (ir_observed now r))
      (set_ir_terminated_at_ms
         (Some (Z.max (ir_touch now r) (sql_coalesce (ir_stop_requested_at_ms r) 0)))
        (set_ir_terminal_result (Some (TerminalResult_as_str res))
          (set_ir_updated_at_ms (ir_touch now r) r))))).
Proof.
  intros Hn Ha Hwf. row_wf Hwf; try (intros; simplify_eq; eauto; done);
    destruct (ir_process_observed_at_ms r) eqn:E; destruct (ir_stop_requested_at_ms r) eqn:E';
    cbn; row_times.
Qed.

(** ** Updates of one row *)

Lemma update_instances_spec db key cond set :
  db_ok db →
  (∀ r, server_instances db !! key = Some r → cond r = true → instance_row_wf key r →
     instance_row_wf key (set r) ∧ instance_frame r (set r)) →
  ∃ n db', update_server_instances key cond set db = (Ok n, db') ∧ db_ok db' ∧
    ((n = 0 ∧ db' = db ∧ ∀ r, server_instances db !! key = Some r → cond r = false) ∨
     (n = 1 ∧ ∃ r, server_instances db !! key = Some r ∧ cond r = true ∧
      db' = set_server_instances (<[key := set r]> (server_instances db)) db)).
Proof.
  intros Hok Hset. unfold update_server_instances.
  destruct (server_instances db !! key) as [r|] eqn:Hr.
  2: { exists 0, db. split_and!; [done|done|]. left. naive_solver. }
  destruct (cond r) eqn:Hc.
  2: { exists 0, db. split_and!; [done|done|]. left. naive_solver. }
  destruct (Hset r eq_refl Hc (ok_instances _ Hok _ _ Hr)) as [Hwf Hfr].
  rewrite (instance_row_wf_check _ _ Hwf). do 2 eexists. split; [done|].
  split; [by eapply db_ok_update_instance|]. right. eauto.
Qed.

Lemma update_computes_spec db key cond set :
  db_ok db →
  (∀ r, compute_instances db !! key = Some r → cond r = true → compute_row_wf key r →
     compute_row_wf key (set r) ∧ compute_frame r (set r)) →
  ∃ n db', update_compute_instances key cond set db = (Ok n, db') ∧ db_ok db' ∧
    ((n = 0 ∧ db' = db ∧ ∀ r, compute_instances db !! key = Some r → cond r = false) ∨
     (n = 1 ∧ ∃ r, compute_instances db !! key = Some r ∧ cond r = true ∧
      db' = set_compute_instances (<[key := set r]> (compute_instances db)) db)).
Proof.
  intros Hok Hset. unfold update_compute_instances.
  destruct (compute_instances db !! key) as [r|] eqn:Hr.
  2: { exists 0, db. split_and!; [done|done|]. left. naive_solver. }
  destruct (cond r) eqn:Hc.
  2: { exists 0, db. split_and!; [done|done|]. left. naive_solver. }
  destruct (Hset r eq_refl Hc (ok_computes _ Hok _ _ Hr)) as [Hwf Hfr].
  rewrite (compute_row_wf_check _ _ Hwf). do 2 eexists. split; [done|].
  split; [by eapply db_ok_update_compute|]. right. eauto.
Qed.

Lemma update_servers_spec db key cond set :
  db_ok db →
  (∀ r, servers db !! key = Some r → cond r = true → server_row_wf key r →
     server_row_wf key (set r) ∧ sr_name (set r) = sr_name r ∧
     sr_next_fencing_token (set r) = sr_next_fencing_token r ∧
     sr_current_snapshot_id (set r) = sr_current_snapshot_id r ∧
     (is_Some (sr_archived_at_ms (set r)) → is_Some (sr_archived_at_ms r) ∨
      exists_row (is_active_for_server key) (server_instances db) = false)) →
  ∃ n db', update_servers key cond set db = (Ok n, db') ∧ db_ok db' ∧
    ((n = 0 ∧ db' = db ∧ ∀ r, servers db !! key = Some r → cond r = false) ∨
     (n = 1 ∧ ∃ r, servers db !! key = Some r ∧ cond r = true ∧
      db' = set_servers (<[key := set r]> (servers db)) db)).
Proof.
  intros Hok Hset. unfold update_servers.
  destruct (servers db !! key) as [r|] eqn:Hr.
  2: { exists 0, db. split_and!; [done|done|]. left. naive_solver. }
  destruct (cond r) eqn:Hc.
  2: { exists 0, db. split_and!; [done|done|]. left. naive_solver. }
  destruct (Hset r eq_refl Hc (ok_servers _ Hok _ _ Hr)) as (Hwf & Hn & Ht & Hs & Ha).
  rewrite (server_row_wf_check _ _ Hwf).
  destruct (i64_max <? _) eqn:E; [bz; destruct (srw_token _ _ Hwf); lia|].
  do 2 eexists. split; [done|]. split; [by eapply db_ok_update_server|]. right. eauto.
Qed.

(** ** Writes of [ServerInstanceRepository] *)

(** The outcome of a guarded update of one row of [server_instances]. *)
Definition instance_updated (db : Database) (key : string) (cond : server_instances_row → bool)
    (set : server_instances_row → server_instances_row) (changed : bool) (db' : Database) : Prop :=
  db_ok db' ∧
  if changed then
    ∃ r, server_instances db !! key = Some r ∧ cond r = true ∧
      db' = set_server_instances (<[key := set r]> (server_instances db)) db
  else db' = db ∧ ∀ r, server_instances db !! key = Some r → cond r = false.

Lemma run_update_instances db key cond set :
  db_ok db →
  (∀ r, cond r = true → instance_row_wf key r →
     instance_row_wf key (set r) ∧ instance_frame r (set r)) →
  ∃ changed db',
    (rows ← execute (update_server_instances key cond set); mret (rows =? 1) : repo bool) db =
      (Ok changed, db') ∧
    instance_updated db key cond set changed db'.
Proof.
  intros Hok Hset.
  destruct (update_instances_spec db key cond set Hok) as (n & db' & E & Hok' & Hcases);
    [intros r _; apply Hset|].
  rewrite (run_execute _ _ _ _ _ E).
  destruct Hcases as [(-> & -> & Hf)|(-> & Hr)].
  - exists false, db. done.
  - exists true, db'. done.
Qed.

Lemma ir_is_active_true r : ir_is_active r = true ↔ ir_terminated_at_ms r = None.
Proof. apply is_none_true. Qed.

Lemma ir_frame r r' :
  ir_terminated_at_ms r = None →
  ir_server_id r' = ir_server_id r → ir_fencing_token r' = ir_fencing_token r →
  ir_source_snapshot_id r' = ir_source_snapshot_id r →
  ir_result_snapshot_id r' = ir_result_snapshot_id r → instance_frame r r'.
Proof. done. Qed.

Lemma request_stop_spec db id now :
  db_ok db → 0 ≤ now →
  ∃ changed db', ServerInstanceRepository_request_stop id now db = (Ok changed, db') ∧
    instance_updated db (uuid_to_string id)
      (λ r, ir_is_active r && is_none (ir_stop_requested_at_ms r))
      (λ r, set_ir_stop_requested_at_ms (Some (ir_touch now r))
             (set_ir_updated_at_ms (ir_touch now r) r)) changed db'.
Proof.
  intros Hok Hn. apply run_update_instances; [done|]. intros r Hc Hwf. inv_res.
  rewrite ir_is_active_true in *. split; [by apply stop_requested_wf|by apply ir_frame].
Qed.

Lemma mark_data_prepared_spec db id now :
  db_ok db → 0 ≤ now →
  ∃ changed db', ServerInstanceRepository_mark_data_prepared id now db = (Ok changed, db') ∧
    instance_updated db (uuid_to_string id) ir_is_active
      (λ r, set_ir_data_prepared_at_ms
              (Some (sql_coalesce (ir_data_prepared_at_ms r) (Z.max now (ir_created_at_ms r))))
             (set_ir_last_error None (set_ir_updated_at_ms (ir_touch now r) r))) changed db'.
Proof.
  intros Hok Hn. apply run_update_instances; [done|]. intros r Hc Hwf.
  rewrite ir_is_active_true in *. split; [by apply data_prepared_wf|by apply ir_frame].
Qed.

Lemma observe_process_spec db id running now :
  db_ok db → 0 ≤ now →
  ∃ changed db', ServerInstanceRepository_observe_process id running now db = (Ok changed, db') ∧
    instance_updated db (uuid_to_string id) ir_is_active
      (λ r, set_ir_process_running running
             (set_ir_process_observed_at_ms (Some (ir_observed now r))
               (set_ir_last_error None (set_ir_updated_at_ms (ir_touch now r) r)))) changed db'.
Proof.
  intros Hok Hn. apply run_update_instances; [done|]. intros r Hc Hwf.
  rewrite ir_is_active_true in *. split; [by apply observed_wf|by apply ir_frame].
Qed.

Lemma complete_spec db id res now :
  db_ok db → 0 ≤ now →
  ∃ changed db', ServerInstanceRepository_complete id res now db = (Ok changed, db') ∧
    instance_updated db (uuid_to_string id) ir_is_active
      (λ r, set_ir_process_running false
             (set_ir_process_observed_at_ms (Some (ir_observed now r))
               (set_ir_terminated_at_ms
                  (Some (Z.max (ir_touch now r) (sql_coalesce (ir_stop_requested_at_ms r) 0)))
                 (set_ir_terminal_result (Some (TerminalResult_as_str res))
                   (set_ir_updated_at_ms (ir_touch now r) r))))) changed db'.
Proof.
  intros Hok Hn. apply run_update_instances; [done|]. intros r Hc Hwf.
  rewrite ir_is_active_true in *. split; [by apply completed_wf|by apply ir_frame].
Qed.

(** What [truncate_chars] keeps of an error message that is not blank where it
    is cut. *)
Lemma truncate_chars_ok message maximum :
  str_is_blank (truncate_chars message maximum) = false →
  str_contains_nul (truncate_chars message maximum) = false →
  text_ok (Z.of_nat maximum) (truncate_chars message maximum).
Proof.
  unfold truncate_chars. destruct (_ <=? _) eqn:E; bz; [done|].
  intros Hb Hn. split; [done|]. split; [apply str_take_chars_count|done].
Qed.

(** A text with a NUL byte is refused by the [CHECK] of its column. *)
Lemma nul_text_check maximum text :
  str_contains_nul text = true → sql_text_check maximum text = false.
Proof. intros Hn. unfold sql_text_check. by rewrite Hn, andb_false_r. Qed.

Lemma record_error_nul db id m now :
  str_contains_nul (truncate_chars m (Z.to_nat MAX_ERROR_CHARS)) = true →
  (ServerInstanceRepository_record_error id m now db).2 = db.
Proof.
  unfold ServerInstanceRepository_record_error. cbv zeta.
  generalize (truncate_chars m (Z.to_nat MAX_ERROR_CHARS)). intros t Ht. rewrite run_bind.
  unfold execute, update_server_instances. destruct (server_instances db !! _) as [r|]; [|done].
  destruct (ir_is_active r); [|done].
  assert (server_instances_check (set_ir_last_error (Some t) (set_ir_updated_at_ms
    (ir_touch now r) r)) = false) as ->; [|done].
  apply not_true_iff_false. intros Hc. unfold server_instances_check in Hc. inv_res.
  cbn [sql_null_or ir_last_error set_ir_last_error] in *.
  by rewrite nul_text_check in * by done.
Qed.

Lemma record_error_spec db id message now :
  db_ok db → 0 ≤ now →
  str_contains_nul (truncate_chars message (Z.to_nat MAX_ERROR_CHARS)) = false →
  str_is_blank (truncate_chars message (Z.to_nat MAX_ERROR_CHARS)) = false →
  ∃ changed db', ServerInstanceRepository_record_error id message now db = (Ok tt, db') ∧
    instance_updated db (uuid_to_string id) ir_is_active
      (λ r, set_ir_last_error (Some (truncate_chars message (Z.to_nat MAX_ERROR_CHARS)))
             (set_ir_updated_at_ms (ir_touch now r) r)) changed db'.
Proof.
  intros Hok Hn Hnul Hblank. unfold ServerInstanceRepository_record_error.
  pose proof (truncate_chars_ok _ _ Hblank Hnul) as Hm. revert Hm.
  generalize (truncate_chars message (Z.to_nat MAX_ERROR_CHARS)). intros m Hm. cbv zeta.
  destruct (update_instances_spec db (uuid_to_string id) ir_is_active
    (λ r, set_ir_last_error (Some m) (set_ir_updated_at_ms (ir_touch now r) r)) Hok)
    as (n & db' & E & Hok' & Hcases).
  { intros r _ Hc Hwf. rewrite ir_is_active_true in *.
    split; [by apply error_wf|by apply ir_frame]. }
  rewrite (run_execute _ _ _ _ _ E).
  destruct Hcases as [(-> & -> & Hf)|(-> & Hr)]; [by exists false, db|by exists true, db'].
Qed.

(** ** Writes of [ServerRepository] *)

(** The outcome of a guarded update of one row of [servers]. *)
Definition server_updated (db : Database) (key : string) (cond : servers_row → bool)
    (set : servers_row → servers_row) (changed : bool) (db' : Database) : Prop :=
  db_ok db' ∧
  if changed then
    ∃ r, servers db !! key = Some r ∧ cond r = true ∧
      db' = set_servers (<[key := set r]> (servers db)) db
  else db' = db ∧ ∀ r, servers db !! key = Some r → cond r = false.

Lemma run_update_servers db key cond set :
  db_ok db →
  (∀ r, servers db !! key = Some r → cond r = true → server_row_wf key r →
     server_row_wf key (set r) ∧ sr_name (set r) = sr_name r ∧
     sr_next_fencing_token (set r) = sr_next_fencing_token r ∧
     sr_current_snapshot_id (set r) = sr_current_snapshot_id r ∧
     (is_Some (sr_archived_at_ms (set r)) → is_Some (sr_archived_at_ms r) ∨
      exists_row (is_active_for_server key) (server_instances db) = false)) →
  ∃ changed db',
    (rows ← execute (update_servers key cond set); mret (rows =? 1) : repo bool) db =
      (Ok changed, db') ∧
    server_updated db key cond set changed db'.
Proof.
  intros Hok Hset.
  destruct (update_servers_spec db key cond set Hok Hset) as (n & db' & E & Hok' & Hcases).
  rewrite (run_execute _ _ _ _ _ E).
  destruct Hcases as [(-> & -> & Hf)|(-> & Hr)].
  - exists false, db. done.
  - exists true, db'. done.
Qed.

Lemma generation_to_i64_ok g : 1 ≤ g ≤ i64_max → generation_to_i64 g = Ok g.
Proof. intros Hg. apply positive_u64_to_i64_ok. lia. Qed.

(** A server read from the database and changed by one of its operations:
    in range for the [i64] columns, and not older than the row. *)
Definition writable (db : Database) (s : Server) (previous : Z) : Prop :=
  1 ≤ srv_generation s ≤ i64_max ∧ 1 ≤ previous ≤ i64_max ∧
  ∀ r, servers db !! uuid_to_string (srv_id s) = Some r → sr_created_at_ms r ≤ srv_updated_at s.

Lemma update_desired_state_spec db s previous :
  db_ok db → writable db s previous →
  ∃ changed db', ServerRepository_update_desired_state s previous db = (Ok changed, db') ∧
    server_updated db (uuid_to_string (srv_id s))
      (λ r, (sr_generation r =? previous) && is_none (sr_archived_at_ms r))
      (λ r, set_sr_desired_state (DesiredState_as_str (srv_desired_state s))
        (set_sr_generation (srv_generation s) (set_sr_updated_at_ms (srv_updated_at s) r)))
      changed db'.
Proof.
  intros Hok (Hg & Hp & Ht). unfold ServerRepository_update_desired_state.
  rewrite run_lift, generation_to_i64_ok, run_lift, generation_to_i64_ok by done.
  apply run_update_servers; [done|]. intros r Hr Hc Hwf. inv_res. rewrite is_none_true in *.
  specialize (Ht r Hr). split_and!; [|done..|by intros [? ?]; simplify_eq/=; congruence].
  destruct Hwf; constructor; cbn; try done; try lia; [by eexists|]. intros t E. congruence.
Qed.

Lemma update_spec_spec db s previous :
  db_ok db → writable db s previous → ServerSpec_validate (srv_spec s) = Ok tt →
  ∃ json changed db', spec_to_json (srv_spec s) = Ok json ∧
    ServerRepository_update_spec s previous db = (Ok changed, db') ∧
    server_updated db (uuid_to_string (srv_id s))
      (λ r, (sr_generation r =? previous) && String.eqb (sr_desired_state r) "stopped"
            && is_none (sr_archived_at_ms r))
      (λ r, set_sr_spec_json json
        (set_sr_generation (srv_generation s) (set_sr_updated_at_ms (srv_updated_at s) r)))
      changed db'.
Proof.
  intros Hok (Hg & Hp & Ht) Hv. destruct (spec_round_trip (srv_spec s)) as (json & Hj & _).
  exists json. unfold ServerRepository_update_spec.
  rewrite run_lift, Hj. cbn [map_err]. rewrite run_lift, generation_to_i64_ok, run_lift,
    generation_to_i64_ok by done.
  edestruct (run_update_servers db) as (changed & db' & E & Hu); [exact Hok| |by eauto 10].
  intros r Hr Hc Hwf. cbv beta in *. inv_res. rewrite is_none_true in *.
  specialize (Ht r Hr). split_and!; [|done..|by intros [? ?]; simplify_eq/=; congruence].
  destruct Hwf; constructor; cbn; try done; try lia; [by eapply spec_to_json_ok|].
  intros t E. congruence.
Qed.

Lemma archive_spec db s previous t :
  db_ok db → writable db s previous → srv_archived_at s = Some t →
  (∀ r, servers db !! uuid_to_string (srv_id s) = Some r →
     sr_created_at_ms r ≤ t ≤ srv_updated_at s) →
  ∃ changed db', ServerRepository_archive s previous db = (Ok changed, db') ∧
    server_updated db (uuid_to_string (srv_id s))
      (λ r, (sr_generation r =? previous) && String.eqb (sr_desired_state r) "stopped"
            && is_none (sr_archived_at_ms r)
            && negb (exists_row (is_active_for_server (uuid_to_string (srv_id s)))
                       (server_instances db)))
      (λ r, set_sr_archived_at_ms (Some t)
        (set_sr_generation (srv_generation s) (set_sr_updated_at_ms (srv_updated_at s) r)))
      changed db'.
Proof.
  intros Hok (Hg & Hp & Ht) Ha Hta. unfold ServerRepository_archive.
  rewrite run_lift, Ha. cbn [ok_or].
  rewrite run_lift, generation_to_i64_ok, run_lift, generation_to_i64_ok by done.
  edestruct (run_update_servers db) as (changed & db' & E & Hu); [exact Hok| |by eauto 10].
  intros r Hr Hc Hwf. cbv beta in *. inv_res. rewrite is_none_true in *.
  specialize (Ht r Hr). specialize (Hta r Hr). split_and!; [|done..|by right].
  destruct Hwf; constructor; cbn; try done; try lia. intros t' [= <-].
  split; [lia|]. by apply String.eqb_eq.
Qed.

(** Creating a server: on success its row, on a taken name or id a conflict
    that changes nothing. *)
Lemma create_server_spec db s :
  db_ok db → Server_wf s → srv_current_snapshot_id s = None → srv_generation s ≤ i64_max →
  ∃ json, spec_to_json (srv_spec s) = Ok json ∧
  let key := uuid_to_string (srv_id s) in
  let row := servers_row_of s (srv_generation s) json in
  (ServerRepository_create s db = (Err (RE.Conflict "server name already exists"), db) ∧
   (is_Some (servers db !! key) ∨ ∃ k r, servers db !! k = Some r ∧ sr_name r = srv_name s)) ∨
  (ServerRepository_create s db = (Ok tt, set_servers (<[key := row]> (servers db)) db) ∧
   servers db !! key = None ∧
   (∀ k r, servers db !! k = Some r → sr_name r ≠ srv_name s) ∧
   db_ok (set_servers (<[key := row]> (servers db)) db)).
Proof.
  intros Hok Hwf Hsnap Hgen. destruct (spec_round_trip (srv_spec s)) as (json & Hj & _).
  exists json. split; [done|]. cbv zeta.
  assert (Hrow : server_row_wf (uuid_to_string (srv_id s))
                   (servers_row_of s (srv_generation s) json)).
  { destruct Hwf. constructor; cbn; try done; try lia; eauto.
    - by eapply spec_to_json_ok.
    - intros t E. destruct (wf_archived t E) as [? ->]. done. }
  unfold ServerRepository_create. rewrite run_lift, Hj. cbn [map_err].
  rewrite run_lift, generation_to_i64_ok by (destruct Hwf; lia).
  unfold insert_servers. rewrite (server_row_wf_check _ _ Hrow). cbn [negb].
  destruct (is_some _ || exists_row _ _) eqn:E.
  - left. split; [done|]. apply orb_true_iff in E as [E|E].
    + left. by apply is_some_true.
    + right. apply exists_row_true in E as (k & r & Hr & En). exists k, r.
      split; [done|]. by apply String.eqb_eq in En.
  - right. apply orb_false_iff in E as [E1 E2].
    assert (Hnone : servers db !! uuid_to_string (srv_id s) = None).
    { apply is_none_true. unfold is_none. by rewrite E1. }
    assert (Hnames : ∀ k r, servers db !! k = Some r → sr_name r ≠ srv_name s).
    { intros k r Hr. pose proof (exists_row_false _ _ _ _ E2 Hr) as Hn.
      by apply String.eqb_neq in Hn. }
    split_and!; [done..|].
    destruct Hok as [ok1 ok2 ok3 ok4 ok5 ok6 ok7 ok8 ok9 ok10 ok11 ok12 ok13 ok14].
    constructor; cbn; try done.
    + by apply map_Forall_insert_2.
    + intros k k' r r'. rewrite !lookup_insert_Some.
      intros [[<- <-]|[? Hr]] [[<- <-]|[? Hr']] Hn; cbn in *; try done.
      * by destruct (Hnames _ _ Hr').
      * by destruct (Hnames _ _ Hr).
      * eauto.
    + intros k i Hi. destruct (ok5 _ _ Hi) as (r & Hr & ?). exists r.
      rewrite lookup_insert_ne; [done|]. intros Ek. rewrite <- Ek in Hr. congruence.
    + intros k i r Hi Ha. rewrite lookup_insert_Some. intros [[Ek <-]|[? ?]]; [|eauto].
      destruct (ok5 _ _ Hi) as (r & Hr & ?). rewrite <- Ek in Hr. congruence.
    + intros k r. rewrite lookup_insert_Some. intros [[<- <-]|[? ?]]; [|eauto].
      cbn. rewrite Hsnap. intros k' i Hi Es. destruct (ok5 _ _ Hi) as (r & Hr & ?).
      rewrite Es in Hr. congruence.
Qed.
End facts.
