(* ===== verification/LifecycleFacts.v ===== *)
(** The two transactions: creating an instance of a running server and
    publishing its snapshot; and the writes of compute instances. *)
From S2P Require Import Prelude Text Server ServerFacts Instances InstanceFacts Database RowFacts.
From S2P Require Import Repositories ComputeRepository Invariant RepositoryFacts.
#[local] Open Scope string_scope.
#[local] Open Scope Z_scope.

Lemma max_instance_updated_nonneg key db : 0 ≤ max_instance_updated key db.
Proof. unfold max_instance_updated. induction (map _ _); cbn; lia. Qed.

Section lifecycle.
Context `{CodecLaws}.

(** ** [create_for_running_server] *)

(** The database after a successful creation. *)
Definition with_new_instance (db : Database) (skey ikey : string) (s : servers_row) (time : Z) :
    Database :=
  set_servers (<[skey := set_sr_next_fencing_token (sr_next_fencing_token s + 1) s]> (servers db))
    (set_server_instances (<[ikey := new_instance_row skey s time]> (server_instances db)) db).

Lemma new_instance_row_wf skey iid s time :
  server_row_wf skey s → 0 ≤ time →
  instance_row_wf (uuid_to_string iid) (new_instance_row skey s time).
Proof.
  intros [] Ht. constructor; cbn; try done; try lia; eauto.
  repeat constructor; done.
Qed.

Lemma next_token_row_wf skey s :
  sr_next_fencing_token s < i64_max → server_row_wf skey s →
  server_row_wf skey (set_sr_next_fencing_token (sr_next_fencing_token s + 1) s).
Proof. intros Hlt []. constructor; cbn; try done. lia. Qed.

Lemma latest_result_insert m sid bound snap key row :
  m !! key = None → (ir_server_id row = sid → bound ≤ ir_fencing_token row) →
  latest_result m sid bound snap → latest_result (<[key := row]> m) sid bound snap.
Proof.
  intros Hnone Hb. destruct snap as [id|]; cbn.
  - intros (k & i & Hi & Hs & Hlt & Hres & Hmax). exists k, i. split_and!; try done.
    { rewrite lookup_insert_ne; [done|]. intros ->. congruence. }
    intros k' i'. rewrite lookup_insert_Some. intros [[<- <-]|[? ?]] Hs' ? ?; [|by eauto].
    specialize (Hb Hs'). lia.
  - intros Hn k i. rewrite lookup_insert_Some. intros [[<- <-]|[? ?]] Hs Hlt; [|by eauto].
    specialize (Hb Hs). lia.
Qed.

(** One more token without a result does not change the latest result. *)
Lemma latest_result_bump m sid bound snap :
  (∀ k i, m !! k = Some i → ir_server_id i = sid → ir_fencing_token i = bound →
     ir_result_snapshot_id i = None) →
  latest_result m sid bound snap → latest_result m sid (bound + 1) snap.
Proof.
  intros Hnew. destruct snap as [id|]; cbn.
  - intros (k & i & Hi & Hs & Hlt & Hres & Hmax). exists k, i. split_and!; try done; [lia|].
    intros k' i' Hi' Hs' ? ?. destruct (decide (ir_fencing_token i' = bound)); [by eauto|].
    eapply Hmax; [done|done|lia|lia].
  - intros Hn k i Hi Hs Hlt. destruct (decide (ir_fencing_token i = bound)); [by eauto|].
    eapply Hn; [done|done|lia].
Qed.

(** The instances of a server without an active one. *)
Lemma instances_of_inactive db skey s :
  db_ok db → servers db !! skey = Some s →
  exists_row (is_active_for_server skey) (server_instances db) = false →
  ∀ k i, server_instances db !! k = Some i → ir_server_id i = skey →
    ir_fencing_token i < sr_next_fencing_token s ∧ ir_terminated_at_ms i ≠ None.
Proof.
  intros Hok Hs Hactive k i Hi Hk. destruct (ok_instance_server _ Hok _ _ Hi) as (s' & Hs' & ?).
  rewrite Hk, Hs in Hs'. injection Hs' as <-. split; [done|]. intros Ha.
  pose proof (exists_row_false _ _ _ _ Hactive Hi) as Hf.
  unfold is_active_for_server in Hf. by rewrite Ha, Hk, String.eqb_refl in Hf.
Qed.

(** The servers after a token was given out. *)
Lemma next_token_same db skey s k s' : servers db !! skey = Some s →
  <[skey := set_sr_next_fencing_token (sr_next_fencing_token s + 1) s]> (servers db) !! k = Some s' →
  ∃ s0, servers db !! k = Some s0 ∧ sr_name s' = sr_name s0 ∧
    sr_archived_at_ms s' = sr_archived_at_ms s0 ∧ sr_current_snapshot_id s' = sr_current_snapshot_id s0.
Proof. intros Hs. rewrite lookup_insert_Some. intros [[<- <-]|[? ?]]; eauto 10. Qed.
Lemma next_token_later db skey s k s0 : servers db !! skey = Some s → servers db !! k = Some s0 →
  ∃ s', <[skey := set_sr_next_fencing_token (sr_next_fencing_token s + 1) s]> (servers db) !! k = Some s' ∧
    sr_next_fencing_token s0 ≤ sr_next_fencing_token s'.
Proof.
  intros Hs Hk. destruct (decide (skey = k)) as [<-|Hne].
  - rewrite lookup_insert, decide_True by done. eexists. split; [done|]. simplify_eq. cbn. lia.
  - rewrite lookup_insert_ne by done. exists s0. split; [done|lia].
Qed.

Lemma db_ok_with_new_instance db skey iid s time :
  db_ok db → servers db !! skey = Some s → sr_next_fencing_token s < i64_max →
  sr_archived_at_ms s = None → 0 ≤ time →
  server_instances db !! uuid_to_string iid = None →
  exists_row (is_active_for_server skey) (server_instances db) = false →
  db_ok (with_new_instance db skey (uuid_to_string iid) s time).
Proof.
  intros Hok Hs Hlt Harch Htime Hnone Hactive.
  pose proof (ok_servers _ Hok _ _ Hs) as Hsw.
  pose proof (instances_of_inactive _ _ _ Hok Hs Hactive) as Hold.
  pose proof (λ k x, next_token_same _ _ _ k x Hs) as Hsk.
  pose proof (λ k x, next_token_later _ _ _ k x Hs) as Hslt.
  destruct Hok as [ok1 ok2 ok3 ok4 ok5 ok6 ok7 ok8 ok9 ok10 ok11 ok12 ok13 ok14].
  constructor; cbn.
  - apply map_Forall_insert_2; [by apply next_token_row_wf|done].
  - apply map_Forall_insert_2; [by apply new_instance_row_wf|done].
  - done.
  - intros k k' s1 s2 H1 H2. destruct (Hsk _ _ H1) as (? & ? & -> & _).
    destruct (Hsk _ _ H2) as (? & ? & -> & _). eauto.
  - intros k i. rewrite lookup_insert_Some. intros [[<- <-]|[? Hi]].
    + cbn. rewrite lookup_insert, decide_True by done. eexists. split; [done|]. cbn. lia.
    + destruct (ok5 _ _ Hi) as (s0 & Hs0 & ?). destruct (Hslt _ _ Hs0) as (s' & ? & ?).
      exists s'. split; [done|lia].
  - intros k k' i i'. rewrite !lookup_insert_Some.
    intros [[<- <-]|[? Hi]] [[<- <-]|[? Hi']]; cbn; intros Hsid Htok; try done.
    + destruct (Hold _ _ Hi' (eq_sym Hsid)). lia.
    + destruct (Hold _ _ Hi Hsid). lia.
    + eauto.
  - intros k k' i i'. rewrite !lookup_insert_Some.
    intros [[<- <-]|[? Hi]] [[<- <-]|[? Hi']]; cbn; intros Hsid Ha; try lia.
    + destruct (Hold _ _ Hi' (eq_sym Hsid)). lia.
    + by destruct (Hold _ _ Hi Hsid).
    + eauto.
  - intros k i s'. rewrite lookup_insert_Some. intros [[<- <-]|[? Hi]] Ha Hs'.
    + cbn in Hs'. rewrite lookup_insert, decide_True in Hs' by done. by simplify_eq.
    + destruct (Hsk _ _ Hs') as (? & ? & _ & -> & _). eauto.
  - intros k c Hc. destruct (ok9 _ _ Hc) as [i Hi].
    rewrite lookup_insert_ne; [by exists i|]. intros E. rewrite E in Hnone. congruence.
  - done.
  - intros k s'. rewrite lookup_insert_Some. intros [[<- <-]|[? Hk]]; cbn.
    + apply latest_result_bump.
      * intros k i. rewrite lookup_insert_Some. intros [[<- <-]|[? Hi]]; [done|].
        intros Hsid Htok. destruct (Hold _ _ Hi Hsid). lia.
      * apply latest_result_insert; [done|done|by eauto].
    + apply latest_result_insert; [done|done|by eauto].
  - intros k i. rewrite lookup_insert_Some. intros [[<- <-]|[? Hi]]; cbn.
    + apply latest_result_insert; [done|done|by eauto].
    + apply latest_result_insert; [done| |by eauto]. cbn. intros Hsid.
      destruct (Hold _ _ Hi (eq_sym Hsid)). lia.
  - intros k i id. rewrite lookup_insert_Some. intros [[<- <-]|[? Hi]]; [done|]. eauto.
  - intros sid id n Hn. destruct (ok14 _ _ _ Hn) as (i & Hi & ?). exists i.
    rewrite lookup_insert_ne; [done|]. intros E. rewrite E in Hnone. congruence.
Qed.

(** A new row has no conflict with the rows of an inactive server. *)
Lemma new_instance_no_conflict db skey s time :
  db_ok db → servers db !! skey = Some s →
  exists_row (is_active_for_server skey) (server_instances db) = false →
  exists_row (λ _ r, instance_conflicts (new_instance_row skey s time) r) (server_instances db) = false.
Proof.
  intros Hok Hs Hact. apply not_true_iff_false. intros (k & i & Hi & Hc)%exists_row_true.
  unfold instance_conflicts in Hc. cbn in Hc. apply andb_true_iff in Hc as [Hsid Hc].
  apply String.eqb_eq in Hsid. destruct (instances_of_inactive _ _ _ Hok Hs Hact _ _ Hi Hsid) as [? Hterm].
  apply orb_true_iff in Hc as [Hc|Hc]; [bz; lia|]. rewrite andb_true_r in Hc.
  by destruct (ir_terminated_at_ms i).
Qed.

(** The transaction of [create_for_running_server] on every branch. *)
Lemma create_instance_spec db sid iid now :
  db_ok db → 0 ≤ now →
  let skey := uuid_to_string sid in let ikey := uuid_to_string iid in
  ∃ r db', create_instance_transaction sid iid now db = (r, db') ∧ db_ok db' ∧
  ((r = Ok false ∧ db' = db ∧
    (∀ s, servers db !! skey = Some s → sr_desired_state s = "running" →
       exists_row (is_active_for_server skey) (server_instances db) = true)) ∨
   (∃ e, r = Err (RE.Database e) ∧ db' = db ∧ e ≠ CheckViolation ∧
      (is_Some (server_instances db !! ikey) ∨
       ∃ s, servers db !! skey = Some s ∧ sr_next_fencing_token s = i64_max)) ∨
   (r = Ok true ∧ ∃ s, servers db !! skey = Some s ∧ sr_desired_state s = "running" ∧
      exists_row (is_active_for_server skey) (server_instances db) = false ∧
      server_instances db !! ikey = None ∧
      db' = with_new_instance db skey ikey s
              (Z.max now (Z.max (sr_updated_at_ms s) (max_instance_updated skey db))))).
Proof.
  intros Hok Hnow skey ikey. unfold create_instance_transaction, transaction.
  rewrite run_bind. unfold execute at 1, insert_running_instance. fold skey ikey.
  destruct (servers db !! skey) as [s|] eqn:Hs.
  2: { do 2 eexists. split; [reflexivity|]. split; [done|]. left. naive_solver. }
  destruct (String.eqb (sr_desired_state s) "running" && _) eqn:Hcond.
  2: { do 2 eexists. split; [reflexivity|]. split; [done|]. left. split_and!; [done..|].
       intros s' [= <-] Hrun. rewrite Hrun in Hcond. cbn in Hcond. by apply negb_false_iff. }
  apply andb_true_iff in Hcond as [Hrun Hact]. apply String.eqb_eq in Hrun.
  apply negb_true_iff in Hact. set (time := Z.max now _).
  pose proof (ok_servers _ Hok _ _ Hs) as Hsw.
  assert (Htime : 0 ≤ time) by (unfold time; lia).
  unfold insert_server_instances.
  rewrite (instance_row_wf_check _ _ (new_instance_row_wf skey iid s time Hsw Htime)). cbn [negb].
  destruct (is_some (server_instances db !! ikey)) eqn:Hdup.
  { do 2 eexists. split; [reflexivity|]. split; [done|]. right; left. eexists.
    split_and!; try done. left. by apply is_some_true. }
  cbn [orb].
  rewrite (new_instance_no_conflict db skey s time Hok Hs Hact).
  cbn [map_err]. cbv beta iota. change (1 =? 0) with false. cbv iota.
  rewrite run_bind. unfold execute, update_servers. cbn [servers set_server_instances].
  rewrite Hs. cbn [sr_next_fencing_token set_sr_next_fencing_token].
  destruct (srw_token _ _ Hsw) as [Htok1 Htok2].
  destruct (i64_max <? sr_next_fencing_token s + 1) eqn:Hmax; bz.
  { do 2 eexists. split; [reflexivity|]. split; [done|]. right; left. eexists.
    split_and!; try done. right. exists s. split; [done|lia]. }
  rewrite (server_row_wf_check skey) by (apply next_token_row_wf; [lia|done]).
  assert (Hnone : server_instances db !! ikey = None).
  { apply is_none_true. unfold is_none. by rewrite Hdup. }
  do 2 eexists. split; [reflexivity|].
  split; [|right; right; split; [done|]; exists s; split_and!; done].
  apply db_ok_with_new_instance; try done; [lia|].
  destruct (sr_archived_at_ms s) eqn:E; [|done].
  destruct (srw_archived _ _ Hsw _ E) as [_ Hst]. congruence.
Qed.

(** ** [SnapshotRepository::commit] *)

(** The rows after a publication. *)
Definition published_instance (i : server_instances_row) (snap : string) (at_ms : Z) :=
  set_ir_result_snapshot_id (Some snap) (set_ir_updated_at_ms (ir_touch at_ms i) i).
Definition published_server (s : servers_row) (snap : string) (at_ms : Z) :=
  set_sr_current_snapshot_id (Some snap)
    (set_sr_updated_at_ms (Z.max at_ms (Z.max (sr_updated_at_ms s) (sr_created_at_ms s))) s).
Definition snapshot_row (ikey : string) (i : server_instances_row) (at_ms : Z) : snapshots_row :=
  {| nr_server_instance_id := ikey; nr_fencing_token := ir_fencing_token i;
     nr_created_at_ms := at_ms |}.

Definition with_snapshot (db : Database) (ikey : string) (i : server_instances_row)
    (s : servers_row) (snap : string) (at_ms : Z) : Database :=
  {| servers := <[ir_server_id i := published_server s snap at_ms]> (servers db);
     server_instances := <[ikey := published_instance i snap at_ms]> (server_instances db);
     compute_instances := compute_instances db;
     snapshots := <[(ir_server_id i, snap) := snapshot_row ikey i at_ms]> (snapshots db) |}.

Lemma published_instance_wf key i snap at_ms :
  snapshot_id_ok snap → ir_terminated_at_ms i = None → instance_row_wf key i →
  instance_row_wf key (published_instance i snap at_ms).
Proof.
  intros Hs Ha Hwf. unfold published_instance. destruct Hwf; constructor; cbn; try done;
    unfold times_between, times_before, ir_touch in *; try (by intros ? [= <-]); row_times.
Qed.

Lemma published_server_wf key s snap at_ms :
  snapshot_id_ok snap → server_row_wf key s → server_row_wf key (published_server s snap at_ms).
Proof.
  intros Hs Hwf. unfold published_server. destruct Hwf; constructor; cbn; try done;
    [naive_solver|lia|]. intros t E. destruct (srw_archived t E). split; [lia|done].
Qed.

(** An instance at or above the bound, or of another server, does not matter. *)
Lemma latest_result_update m sid bound snap key r r' :
  m !! key = Some r → ir_server_id r' = ir_server_id r →
  ir_fencing_token r' = ir_fencing_token r →
  (ir_server_id r = sid → bound ≤ ir_fencing_token r) →
  latest_result m sid bound snap → latest_result (<[key := r']> m) sid bound snap.
Proof.
  intros Hr Hsid Htok Hb. destruct snap as [id|]; cbn.
  - intros (k & i & Hi & Hs & Hlt & Hres & Hmax). exists k, i. split_and!; try done.
    { rewrite lookup_insert_ne; [done|]. intros <-. simplify_eq. specialize (Hb eq_refl). lia. }
    intros k' i'. rewrite lookup_insert_Some. intros [[<- <-]|[? ?]] Hs' ? ?; [|by eauto].
    rewrite Hsid in Hs'. specialize (Hb Hs'). lia.
  - intros Hn k i. rewrite lookup_insert_Some. intros [[<- <-]|[? ?]] Hs Hlt; [|by eauto].
    rewrite Hsid in Hs. specialize (Hb Hs). lia.
Qed.

Lemma insert_same_columns db skey s s' k x :
  servers db !! skey = Some s → sr_name s' = sr_name s →
  sr_next_fencing_token s' = sr_next_fencing_token s →
  sr_archived_at_ms s' = sr_archived_at_ms s →
  <[skey := s']> (servers db) !! k = Some x →
  ∃ y, servers db !! k = Some y ∧ sr_name x = sr_name y ∧
    sr_next_fencing_token x = sr_next_fencing_token y ∧
    sr_archived_at_ms x = sr_archived_at_ms y.
Proof.
  intros Hs ? ? ?. rewrite lookup_insert_Some. intros [[<- <-]|[? ?]]; eauto 10.
Qed.

(** A publication changes nothing else of an instance, and is the latest. *)
Lemma published_same db ikey i snap at_ms k j' : server_instances db !! ikey = Some i →
  <[ikey := published_instance i snap at_ms]> (server_instances db) !! k = Some j' →
  ∃ j, server_instances db !! k = Some j ∧ ir_server_id j' = ir_server_id j ∧
    ir_fencing_token j' = ir_fencing_token j ∧ ir_terminated_at_ms j' = ir_terminated_at_ms j ∧
    ir_source_snapshot_id j' = ir_source_snapshot_id j.
Proof. intros Hi. rewrite lookup_insert_Some. intros [[<- <-]|[? ?]]; eauto 10. Qed.
Lemma published_is_latest db ikey i snap at_ms bound : server_instances db !! ikey = Some i →
  (∀ k j, server_instances db !! k = Some j → ir_server_id j = ir_server_id i →
     ir_fencing_token j ≤ ir_fencing_token i) → ir_fencing_token i < bound →
  latest_result (<[ikey := published_instance i snap at_ms]> (server_instances db)) (ir_server_id i)
    bound (Some snap).
Proof.
  intros Hi Hnew Hlt. exists ikey, (published_instance i snap at_ms).
  rewrite lookup_insert, decide_True by done. split_and!; try done.
  intros k' j' Hj' E ? ?. destruct (published_same _ _ _ _ _ _ _ Hi Hj') as (j & Hj & E1 & E2 & _).
  rewrite E1 in E. specialize (Hnew _ _ Hj E). cbn in *. lia.
Qed.

Lemma db_ok_with_snapshot db ikey i s snap at_ms :
  db_ok db → server_instances db !! ikey = Some i → servers db !! ir_server_id i = Some s →
  ir_terminated_at_ms i = None → ir_result_snapshot_id i = None → snapshot_id_ok snap →
  snapshots db !! (ir_server_id i, snap) = None →
  db_ok (with_snapshot db ikey i s snap at_ms).
Proof.
  intros Hok Hi Hs Ha Hres Hsnap Hnone.
  pose proof (ok_servers _ Hok _ _ Hs) as Hsw. pose proof (ok_instances _ Hok _ _ Hi) as Hiw.
  destruct (ok_instance_server _ Hok _ _ Hi) as (s2 & Hs2 & Hlt).
  rewrite Hs in Hs2. injection Hs2 as <-.
  assert (Hnew : ∀ k j, server_instances db !! k = Some j → ir_server_id j = ir_server_id i →
    ir_fencing_token j ≤ ir_fencing_token i).
  { intros k j Hj E. by eapply (ok_active_newest _ Hok). }
  set (i' := published_instance i snap at_ms). set (s' := published_server s snap at_ms).
  pose proof (λ k x, published_same db ikey i snap at_ms k x Hi) as Hb. fold i' in Hb.
  pose proof (λ k x, insert_same_columns db (ir_server_id i) s s' k x Hs eq_refl eq_refl eq_refl)
    as Hsb.
  destruct Hok as [ok1 ok2 ok3 ok4 ok5 ok6 ok7 ok8 ok9 ok10 ok11 ok12 ok13 ok14].
  constructor; cbn.
  - apply map_Forall_insert_2; [by apply published_server_wf|done].
  - apply map_Forall_insert_2; [by apply published_instance_wf|done].
  - done.
  - intros k k' x x' H1 H2. destruct (Hsb _ _ H1) as (? & ? & -> & _).
    destruct (Hsb _ _ H2) as (? & ? & -> & _). eauto.
  - intros k j' Hj'. destruct (Hb _ _ Hj') as (j & Hj & -> & -> & _).
    destruct (ok5 _ _ Hj) as (x & Hx & ?).
    destruct (decide (ir_server_id i = ir_server_id j)) as [E|Hne].
    + rewrite <- E in *. rewrite lookup_insert, decide_True by done. exists s'.
      split; [done|]. by simplify_eq.
    + rewrite lookup_insert_ne by done. eauto.
  - intros k k' j j' H1 H2. destruct (Hb _ _ H1) as (? & ? & -> & -> & _).
    destruct (Hb _ _ H2) as (? & ? & -> & -> & _). eauto.
  - intros k k' j j' H1 H2. destruct (Hb _ _ H1) as (? & ? & -> & -> & -> & _).
    destruct (Hb _ _ H2) as (? & ? & -> & -> & _). eauto.
  - intros k j x H1 Hact H2. destruct (Hb _ _ H1) as (? & ? & E & _ & E' & _).
    rewrite E in H2. rewrite E' in Hact. destruct (Hsb _ _ H2) as (? & ? & _ & _ & ->). eauto.
  - intros k c Hc. destruct (ok9 _ _ Hc) as [x Hx].
    rewrite lookup_insert_is_Some. destruct (decide (ikey = cr_server_instance_id c)); eauto.
  - done.
  - intros k x. rewrite lookup_insert_Some. intros [[<- <-]|[? Hk]]; cbn.
    + by apply published_is_latest.
    + eapply latest_result_update; [done|done|done|done|by eauto].
  - intros k j' Hj'. destruct (Hb _ _ Hj') as (j & Hj & -> & -> & _ & ->).
    eapply latest_result_update; [done|done|done| |by eauto]. intros E. by eapply Hnew.
  - intros k j' id. rewrite lookup_insert_Some. intros [[<- <-]|[? Hj]]; cbn.
    + intros [= <-]. rewrite lookup_insert, decide_True by done. eauto.
    + intros E. destruct (ok13 _ _ _ Hj E) as (n & Hn & ?).
      exists n. rewrite lookup_insert_ne; [done|]. intros Ek. rewrite <- Ek in Hn. congruence.
  - intros sid id n. rewrite lookup_insert_Some. intros [[[= <- <-] <-]|[? Hn]]; cbn.
    + rewrite lookup_insert, decide_True by done. eauto.
    + destruct (ok14 _ _ _ Hn) as (j & Hj & ? & ? & Hr). exists j.
      rewrite lookup_insert_ne; [done|]. intros Ek. rewrite <- Ek in Hj. congruence.
Qed.

(** Why a commit that validated does not publish. *)
Definition commit_refusal (db : Database) (ikey : string) (token : Z) (snap : string) :
    option (result RepositoryError bool) :=
  match server_instances db !! ikey with
  | None => Some (Err (RE.Conflict "server instance does not exist"))
  | Some i =>
      match positive_u64_to_i64 token with
      | Err e => Some (Err e)
      | Ok token =>
          if negb (ir_fencing_token i =? token) || is_some (ir_terminated_at_ms i)
          then Some (Err (RE.Conflict "stale server instance cannot publish a snapshot"))
          else match ir_result_snapshot_id i with
               | Some existing =>
                   Some (if String.eqb existing snap then Ok false
                         else Err (RE.Conflict "server instance already published another snapshot"))
               | None =>
                   match snapshots db !! (ir_server_id i, snap) with
                   | Some _ => Some (Err (RE.Database UniqueViolation))
                   | None => None
                   end
               end
      end
  end.

Lemma snapshot_checks_ok snap :
  str_is_blank snap || str_contains_nul snap || (MAX_SNAPSHOT_ID_CHARS <? str_char_count snap)
  = false ↔ snapshot_id_ok snap.
Proof. rewrite !orb_false_iff, Z.ltb_ge. unfold text_ok. naive_solver. Qed.

Lemma run_execute_err {A} stmt (f : Z → repo A) db e db' :
  stmt db = (Err e, db') → (x ← execute stmt; f x) db = (Err (RE.Database e), db').
Proof. intros Hs. rewrite run_bind. unfold execute. by rewrite Hs. Qed.

(** In a good database the insertion of a snapshot fails only on its id. *)
Lemma insert_snapshots_spec db ikey i snap at_ms :
  db_ok db → server_instances db !! ikey = Some i → ir_result_snapshot_id i = None →
  snapshot_id_ok snap → 0 ≤ at_ms →
  insert_snapshots (ir_server_id i) snap (snapshot_row ikey i at_ms) db =
  match snapshots db !! (ir_server_id i, snap) with
  | Some _ => (Err UniqueViolation, db)
  | None => (Ok 1, set_snapshots
      (<[(ir_server_id i, snap) := snapshot_row ikey i at_ms]> (snapshots db)) db)
  end.
Proof.
  intros Hok Hi Hres Hsnap Hat. unfold insert_snapshots, snapshot_row.
  pose proof (irw_token _ _ (ok_instances _ Hok _ _ Hi)) as [Ht _].
  assert (snapshots_check snap (snapshot_row ikey i at_ms) = true) as Hc.
  { unfold snapshots_check. cbn. bz; [by apply sql_text_check_ok|lia|lia]. }
  unfold snapshot_row in Hc. rewrite Hc. cbn [negb nr_fencing_token].
  destruct (snapshots db !! (ir_server_id i, snap)) as [n|]; [done|]. cbn [is_some orb].
  assert (exists_row (λ '(sid, _) r, String.eqb sid (ir_server_id i)
      && (nr_fencing_token r =? ir_fencing_token i)) (snapshots db) = false) as ->; [|done].
  apply not_true_iff_false. unfold exists_row. intros ([[sid id] n] & Hin & Hp)%existsb_exists.
  apply list_elem_of_In, elem_of_map_to_list in Hin. apply andb_true_iff in Hp as [Hp1 Hp2].
  apply String.eqb_eq in Hp1 as ->. bz.
  destruct (ok_snapshot_rows _ Hok _ _ _ Hin) as (j & Hj & Ej & Etj & Hrj).
  assert (nr_server_instance_id n = ikey) as <-
    by (eapply (ok_tokens _ Hok); [exact Hj|exact Hi|done|congruence]).
  congruence.
Qed.

Lemma publish_instance_update db ikey i snap at_ms :
  instance_row_wf ikey i → server_instances db !! ikey = Some i →
  ir_terminated_at_ms i = None → snapshot_id_ok snap →
  update_server_instances ikey (λ r, ir_is_active r && (ir_fencing_token r =? ir_fencing_token i))
    (λ r, set_ir_result_snapshot_id (Some snap) (set_ir_updated_at_ms (ir_touch at_ms r) r)) db =
  (Ok 1, set_server_instances (<[ikey := published_instance i snap at_ms]> (server_instances db)) db).
Proof.
  intros Hwf Hi Ha Hsnap. unfold update_server_instances. rewrite Hi.
  rewrite (proj2 (ir_is_active_true i) Ha), Z.eqb_refl. cbn [andb].
  pose proof (published_instance_wf ikey i snap at_ms Hsnap Ha Hwf) as Hpw.
  unfold published_instance in *. by rewrite (instance_row_wf_check _ _ Hpw).
Qed.

Lemma publish_server_update db skey s (cond : bool) snap at_ms :
  server_row_wf skey s → servers db !! skey = Some s → cond = true → snapshot_id_ok snap →
  update_servers skey (λ _, cond)
    (λ r, set_sr_current_snapshot_id (Some snap)
      (set_sr_updated_at_ms (Z.max at_ms (Z.max (sr_updated_at_ms r) (sr_created_at_ms r))) r)) db =
  (Ok 1, set_servers (<[skey := published_server s snap at_ms]> (servers db)) db).
Proof.
  intros Hwf Hs -> Hsnap. unfold update_servers. rewrite Hs.
  cbn [sr_next_fencing_token set_sr_current_snapshot_id set_sr_updated_at_ms].
  destruct (i64_max <? _) eqn:E; [bz; destruct (srw_token _ _ Hwf); lia|].
  pose proof (published_server_wf skey s snap at_ms Hsnap Hwf) as Hpw.
  unfold published_server in *. by rewrite (server_row_wf_check _ _ Hpw).
Qed.

(** [commit] on every branch: it refuses, leaving the database as it was, or
    publishes in one step the snapshot, the instance's result and the server's
    current snapshot. *)
Lemma commit_cases db iid token snap now :
  db_ok db → 0 ≤ now → snapshot_id_ok snap →
  let ikey := uuid_to_string iid in
  match commit_refusal db ikey token snap with
  | Some r => SnapshotRepository_commit iid token snap now db = (r, db)
  | None => ∃ i s, server_instances db !! ikey = Some i ∧ ir_fencing_token i = token ∧
      ir_terminated_at_ms i = None ∧ ir_result_snapshot_id i = None ∧
      servers db !! ir_server_id i = Some s ∧ snapshots db !! (ir_server_id i, snap) = None ∧
      SnapshotRepository_commit iid token snap now db =
        (Ok true, with_snapshot db ikey i s snap
           (Z.max (Z.max now (ir_updated_at_ms i)) (sr_updated_at_ms s)))
  end.
Proof.
  intros Hok Hnow Hsnap ikey. unfold SnapshotRepository_commit, commit_refusal.
  cbv zeta. fold ikey. rewrite (proj2 (snapshot_checks_ok snap) Hsnap). cbn [err_if].
  rewrite run_lift. unfold transaction. rewrite run_bind. unfold query. cbv beta iota.
  destruct (server_instances db !! ikey) as [i|] eqn:Hi; [|done].
  destruct (ok_instance_server _ Hok _ _ Hi) as (s & Hs & Htok).
  change (Some i ≫= ?f) with (f i). cbv beta. rewrite Hs.
  change (Some s ≫= ?f) with (f s). cbv beta. rewrite run_lift. cbn [ok_or]. cbv beta iota zeta.
  rewrite run_lift.
  destruct (positive_u64_to_i64 token) as [t|e] eqn:Ht; [|done].
  apply positive_u64_to_i64_ok in Ht as (-> & _ & _).
  destruct (ir_fencing_token i =? token) eqn:Et; cbn [negb orb]; [|done].
  apply Z.eqb_eq in Et as <-.
  destruct (ir_terminated_at_ms i) as [|] eqn:Ha; cbn [is_some]; [done|].
  destruct (ir_result_snapshot_id i) as [ex|] eqn:Hres.
  { rewrite run_bind. by destruct (String.eqb ex snap). }
  set (at_ms := Z.max (Z.max now (ir_updated_at_ms i)) _).
  pose proof (ok_instances _ Hok _ _ Hi) as Hiw. pose proof (ok_servers _ Hok _ _ Hs) as Hsw.
  pose proof (insert_snapshots_spec db ikey i snap at_ms Hok Hi Hres Hsnap) as Hins.
  specialize (Hins ltac:(unfold at_ms; lia)). unfold snapshot_row at 1 in Hins.
  destruct (snapshots db !! (ir_server_id i, snap)) as [n|] eqn:Hn.
  { by rewrite (run_execute_err _ _ _ _ _ Hins). }
  rewrite (run_execute _ _ _ _ _ Hins).
  erewrite run_execute; [|by apply publish_instance_update].
  change (negb (1 =? 1)) with false. cbv iota.
  erewrite run_execute.
  2: { eapply publish_server_update; [exact Hsw|done| |done].
       cbn. rewrite lookup_insert, decide_True by done. cbn.
       rewrite String.eqb_refl, Z.eqb_refl. cbn. by apply is_none_true. }
  exists i, s. split_and!; done.
Qed.

Lemma commit_invalid_id db iid token snap now :
  ¬ snapshot_id_ok snap →
  SnapshotRepository_commit iid token snap now db =
  (Err (RE.CorruptData "snapshot id must be non-blank, bounded, and contain no NUL byte"), db).
Proof.
  intros Hs. unfold SnapshotRepository_commit. cbv zeta. rewrite run_lift.
  destruct (_ || _ || _) eqn:E; [done|]. by apply snapshot_checks_ok in E.
Qed.
End lifecycle.
