(* ===== verification/ComputeFacts.v ===== *)
(** Writes of the compute instance repository: each keeps the invariant, and
    what it changes. *)
From S2P Require Import Prelude Text Server ServerFacts Instances InstanceFacts Database RowFacts.
From S2P Require Import Repositories ComputeRepository Invariant RepositoryFacts.
#[local] Open Scope string_scope.
#[local] Open Scope Z_scope.

Section compute_facts.
Context `{CodecLaws}.

(** The outcome of a guarded update of one row of [compute_instances]. *)
Definition compute_updated (db : Database) (key : string) (cond : compute_instances_row → bool)
    (set : compute_instances_row → compute_instances_row) (changed : bool) (db' : Database) :
    Prop :=
  db_ok db' ∧
  if changed then
    ∃ r, compute_instances db !! key = Some r ∧ cond r = true ∧
      db' = set_compute_instances (<[key := set r]> (compute_instances db)) db
  else db' = db ∧ ∀ r, compute_instances db !! key = Some r → cond r = false.

Lemma run_update_computes {A} (f : bool → A) db key cond set :
  db_ok db →
  (∀ r, compute_instances db !! key = Some r → cond r = true → compute_row_wf key r →
     compute_row_wf key (set r) ∧ compute_frame r (set r)) →
  ∃ changed db',
    (rows ← execute (update_compute_instances key cond set); mret (f (rows =? 1)) : repo A) db =
      (Ok (f changed), db') ∧
    compute_updated db key cond set changed db'.
Proof.
  intros Hok Hset.
  destruct (update_computes_spec db key cond set Hok Hset) as (n & db' & E & Hok' & Hcases).
  rewrite (run_execute _ _ _ _ _ E).
  destruct Hcases as [(-> & -> & Hf)|(-> & Hr)].
  - exists false, db. done.
  - exists true, db'. done.
Qed.

(** The same when the new row may break a [CHECK]. *)
Lemma run_update_or_refuse {A} (f : bool → A) db key cond set :
  db_ok db →
  (∀ r, compute_instances db !! key = Some r → cond r = true →
     compute_instances_check (set r) = true → compute_row_wf key r →
     compute_row_wf key (set r) ∧ compute_frame r (set r)) →
  (∃ changed db',
    (rows ← execute (update_compute_instances key cond set); mret (f (rows =? 1)) : repo A) db =
      (Ok (f changed), db') ∧
    compute_updated db key cond set changed db') ∨
  ((rows ← execute (update_compute_instances key cond set); mret (f (rows =? 1)) : repo A) db =
     (Err (RE.Database CheckViolation), db) ∧
   ∃ r, compute_instances db !! key = Some r ∧ cond r = true ∧
     compute_instances_check (set r) = false).
Proof.
  intros Hok Hset.
  destruct (compute_instances db !! key) as [r|] eqn:Hr;
    [destruct (cond r) eqn:Hc; [destruct (compute_instances_check (set r)) eqn:Hk|]|].
  2: { right. split; [|eauto]. rewrite run_bind. unfold execute, update_compute_instances.
       by rewrite Hr, Hc, Hk. }
  all: left; apply run_update_computes; [done|]; intros r' Hr' Hc' Hwf; rewrite Hr in Hr';
    simplify_eq; first [by apply Hset|congruence].
Qed.

Lemma cr_is_active_true r : cr_is_active r = true ↔ cr_terminated_at_ms r = None.
Proof. apply is_none_true. Qed.

Lemma cr_provider_is_true p r : cr_provider_is p r = true ↔ cr_provider r = p.
Proof. apply String.eqb_eq. Qed.

Lemma cr_frame r r' :
  cr_terminated_at_ms r = None → cr_server_instance_id r' = cr_server_instance_id r →
  compute_frame r r'.
Proof. done. Qed.

Ltac cond_facts :=
  cbv beta in *; inv_res;
  repeat match goal with
  | H : cr_is_active _ = true |- _ => apply cr_is_active_true in H
  | H : cr_provider_is _ _ = true |- _ => apply cr_provider_is_true in H
  end.

(** [compute_row] closes the parts of a row's well-formedness that an update
    leaves alone, and the arithmetic of its timestamps. *)
Ltac compute_row Hwf :=
  destruct Hwf; constructor; cbn; try done; try (by eauto);
  unfold times_between, times_before, cr_connected, cr_touch in *;
  repeat match goal with
  | |- context [sql_coalesce ?o _] => destruct o eqn:?; cbn
  end; row_times; try done; try (by eauto).

Lemma record_process_id_spec db id pid now :
  db_ok db → 0 ≤ now → 1 ≤ pid ≤ u32_max →
  ∃ changed db', ComputeInstanceRepository_record_process_id id pid now db = (Ok changed, db') ∧
    compute_updated db (uuid_to_string id) (λ r, cr_is_active r && cr_provider_is "local_process" r)
      (λ r, set_cr_process_id (Some pid)
        (set_cr_failure_message None (set_cr_updated_at_ms (cr_touch now r) r))) changed db'.
Proof.
  intros Hok Hn Hpid. apply (run_update_computes (λ b, b)); [done|]. intros r Hr Hc Hwf. cond_facts.
  split; [|by apply cr_frame]. compute_row Hwf.
  unfold compute_provider_check in *. cbn. match goal with H : cr_provider r = _ |- _ => rewrite H in * end.
  cbn in *. by rewrite orb_false_r in *.
Qed.

(** The provider constraint of a row of the cloud provider only asks for the
    absence of a process id. *)
Lemma akamai_provider_check r :
  cr_provider r = "akamai" → compute_provider_check r = true ↔ cr_process_id r = None.
Proof.
  intros Hp. unfold compute_provider_check. rewrite Hp. cbn. apply is_none_true.
Qed.

Lemma record_provider_instance_spec db id pid ipv4 now :
  db_ok db → 0 ≤ now → text_ok MAX_PROVIDER_INSTANCE_ID_CHARS pid →
  (∀ a, ipv4 = Some a → text_ok MAX_PUBLIC_IPV4_CHARS a ∧ parses_as_ipv4 a = true) →
  ∃ changed db',
    ComputeInstanceRepository_record_provider_instance id pid ipv4 now db = (Ok changed, db') ∧
    compute_updated db (uuid_to_string id) (λ r, cr_is_active r && cr_provider_is "akamai" r)
      (λ r, set_cr_provider_instance_id (Some pid) (set_cr_public_ipv4 ipv4
        (set_cr_failure_message None (set_cr_updated_at_ms (cr_touch now r) r)))) changed db'.
Proof.
  intros Hok Hn Hpid Hip. apply (run_update_computes (λ b, b)); [done|]. intros r Hr Hc Hwf.
  cond_facts. split; [|by apply cr_frame]. compute_row Hwf;
    (rewrite akamai_provider_check in * by done; done).
Qed.

(** A certificate that the columns can hold. *)
Record certificate_ok (db : Database) (key : string) (c : AgentCertificateRecord) : Prop := {
  cert_csr : sql_pem_check 32768 (acr_certificate_signing_request_pem c) = true;
  cert_chain : sql_pem_check 65536 (acr_certificate_chain_pem c) = true;
  cert_der : 1 ≤ str_len (acr_certificate_der c) ≤ 65536;
  cert_expires : ∀ r, compute_instances db !! key = Some r →
    cr_created_at_ms r ≤ acr_certificate_expires_at c;
  cert_recorded : 0 ≤ acr_recorded_at c;
}.

(** The row after a certificate is recorded, and when it is recorded. *)
Definition with_certificate (c : AgentCertificateRecord) (r : compute_instances_row) :
    compute_instances_row :=
  set_cr_agent_csr_pem (Some (acr_certificate_signing_request_pem c))
    (set_cr_agent_certificate_chain_pem (Some (acr_certificate_chain_pem c))
      (set_cr_agent_certificate_der (Some (acr_certificate_der c))
        (set_cr_agent_certificate_expires_at_ms (Some (acr_certificate_expires_at c))
          (set_cr_failure_message None
            (set_cr_updated_at_ms (cr_touch (acr_recorded_at c) r) r))))).
Definition awaits_certificate (token : string) (r : compute_instances_row) : bool :=
  cr_provider_is "akamai" r && sql_eq (cr_enrollment_token r) token
  && is_none (cr_agent_csr_pem r) && cr_is_active r.

Lemma with_certificate_wf db key c r token :
  certificate_ok db key c → compute_instances db !! key = Some r →
  awaits_certificate token r = true → compute_row_wf key r →
  compute_row_wf key (with_certificate c r) ∧ compute_frame r (with_certificate c r).
Proof.
  intros [] Hr Hc Hwf. unfold awaits_certificate in Hc. cond_facts. split; [|by apply cr_frame].
  specialize (cert_expires0 r Hr). unfold with_certificate. compute_row Hwf;
    (rewrite akamai_provider_check in * by done; done).
Qed.

(** The columns that the checks of the new row ask for. *)
Lemma with_certificate_check db key c r :
  compute_instances db !! key = Some r → 0 ≤ acr_recorded_at c →
  compute_instances_check (with_certificate c r) = true → certificate_ok db key c.
Proof.
  intros Hr Hn.
  assert (cr_agent_csr_pem (with_certificate c r) = Some (acr_certificate_signing_request_pem c) ∧
    cr_agent_certificate_chain_pem (with_certificate c r) = Some (acr_certificate_chain_pem c) ∧
    cr_agent_certificate_der (with_certificate c r) = Some (acr_certificate_der c) ∧
    cr_agent_certificate_expires_at_ms (with_certificate c r) = Some (acr_certificate_expires_at c) ∧
    cr_created_at_ms (with_certificate c r) = cr_created_at_ms r) as (E1 & E2 & E3 & E4 & E5) by done.
  revert E1 E2 E3 E4 E5. generalize (with_certificate c r). intros r' E1 E2 E3 E4 E5 Hcheck.
  unfold compute_instances_check in Hcheck. rewrite E1, E2, E3, E4, E5 in Hcheck.
  inv_res. cbn [sql_null_or] in *. constructor; try done.
  - by apply sql_between_ok.
  - intros r0 Hr0. rewrite Hr in Hr0. injection Hr0 as <-. bz. done.
Qed.

(** Recording a certificate: done when the row awaits one, unless the columns cannot
    hold it; then it is refused and nothing changes. *)
Lemma record_agent_certificate_cases db id token c :
  db_ok db → 0 ≤ acr_recorded_at c →
  (∃ changed db',
    ComputeInstanceRepository_record_agent_certificate id token c db = (Ok changed, db') ∧
    compute_updated db (uuid_to_string id) (awaits_certificate token) (with_certificate c) changed db') ∨
  (ComputeInstanceRepository_record_agent_certificate id token c db =
     (Err (RE.Database CheckViolation), db) ∧ ¬ certificate_ok db (uuid_to_string id) c).
Proof.
  intros Hok Hn.
  destruct (run_update_or_refuse (λ b, b) db (uuid_to_string id) (awaits_certificate token)
    (with_certificate c) Hok) as [Hu|(E & r & Hr & Hc & Hbad)].
  - intros r Hr Hc Hcheck Hwf. eapply with_certificate_wf; [|done..].
    by apply (with_certificate_check db _ c r).
  - by left.
  - right. split; [exact E|]. intros Hcert.
    destruct (with_certificate_wf _ _ _ _ _ Hcert Hr Hc) as [Hwf%compute_row_wf_check _];
      [by apply (ok_computes _ Hok)|congruence].
Qed.

Lemma authenticate_local_spec db id token der now :
  db_ok db → 0 ≤ now →
  ∃ (accepted : bool) db',
    ComputeInstanceRepository_authenticate_agent id CP.LocalProcess token der now db =
      (Ok (if accepted then AA.Accepted else AA.Rejected), db') ∧
    compute_updated db (uuid_to_string id)
      (λ r, cr_provider_is "local_process" r && String.eqb (cr_connection_token r) token
            && cr_is_active r)
      (λ r, set_cr_agent_connected_at_ms (Some (cr_connected now r))
        (set_cr_failure_message None (set_cr_updated_at_ms (cr_touch now r) r))) accepted db'.
Proof.
  intros Hok Hn.
  apply (run_update_computes (λ b : bool, if b then AA.Accepted else AA.Rejected)); [done|].
  intros r Hr Hc Hwf. cond_facts. split; [|by apply cr_frame]. compute_row Hwf.
Qed.

Lemma authenticate_akamai_spec db id token der now :
  db_ok db → 0 ≤ now →
  ∃ (accepted : bool) db',
    ComputeInstanceRepository_authenticate_agent id CP.Akamai token (Some der) now db =
      (Ok (if accepted then AA.Accepted else AA.Rejected), db') ∧
    compute_updated db (uuid_to_string id)
      (λ r, cr_provider_is "akamai" r && String.eqb (cr_connection_token r) token
            && sql_eq (cr_agent_certificate_der r) der
            && is_some_and (λ t, now <? t) (cr_agent_certificate_expires_at_ms r)
            && cr_is_active r)
      (λ r, set_cr_enrollment_token None (set_cr_agent_connected_at_ms (Some (cr_connected now r))
        (set_cr_failure_message None (set_cr_updated_at_ms (cr_touch now r) r)))) accepted db'.
Proof.
  intros Hok Hn.
  apply (run_update_computes (λ b : bool, if b then AA.Accepted else AA.Rejected)); [done|].
  intros r Hr Hc Hwf. cond_facts. split; [|by apply cr_frame]. compute_row Hwf;
    (rewrite akamai_provider_check in * by done; done).
Qed.

Lemma request_shutdown_spec db id now :
  db_ok db → 0 ≤ now →
  ∃ changed db', ComputeInstanceRepository_request_shutdown id now db = (Ok changed, db') ∧
    compute_updated db (uuid_to_string id) cr_is_active
      (λ r, set_cr_shutdown_requested_at_ms
        (Some (sql_coalesce (cr_shutdown_requested_at_ms r) (Z.max now (cr_created_at_ms r))))
        (set_cr_updated_at_ms (cr_touch now r) r)) changed db'.
Proof.
  intros Hok Hn. apply (run_update_computes (λ b, b)); [done|]. intros r Hr Hc Hwf.
  cond_facts. split; [|by apply cr_frame]. compute_row Hwf.
Qed.

Lemma terminate_spec db id res message now :
  db_ok db → 0 ≤ now → (∀ m, message = Some m → text_ok MAX_FAILURE_MESSAGE_CHARS m) →
  ∃ changed db', ComputeInstanceRepository_terminate id res message now db = (Ok changed, db') ∧
    compute_updated db (uuid_to_string id) cr_is_active
      (λ r, set_cr_terminated_at_ms (Some (cr_touch now r))
        (set_cr_terminal_result (Some (ComputeTerminalResult_as_str res))
          (set_cr_failure_message message (set_cr_updated_at_ms (cr_touch now r) r)))) changed db'.
Proof.
  intros Hok Hn Hm. apply (run_update_computes (λ b, b)); [done|]. intros r Hr Hc Hwf.
  cond_facts. split; [|by apply cr_frame]. compute_row Hwf.
Qed.

Lemma record_failure_nul db id m now :
  str_contains_nul (compute_truncate_chars m (Z.to_nat MAX_FAILURE_MESSAGE_CHARS)) = true →
  (ComputeInstanceRepository_record_failure id m now db).2 = db.
Proof.
  unfold ComputeInstanceRepository_record_failure. cbv zeta.
  generalize (compute_truncate_chars m (Z.to_nat MAX_FAILURE_MESSAGE_CHARS)). intros t Ht.
  rewrite run_bind. unfold execute, update_compute_instances.
  destruct (compute_instances db !! _) as [r|]; [|done]. destruct (cr_is_active r); [|done].
  assert (compute_instances_check (set_cr_failure_message (Some t) (set_cr_updated_at_ms
    (cr_touch now r) r)) = false) as ->; [|done].
  apply not_true_iff_false. intros Hc. unfold compute_instances_check in Hc. inv_res.
  cbn [sql_null_or cr_failure_message set_cr_failure_message] in *.
  by rewrite nul_text_check in * by done.
Qed.

Lemma record_failure_spec db id message now :
  db_ok db → 0 ≤ now →
  str_contains_nul (compute_truncate_chars message (Z.to_nat MAX_FAILURE_MESSAGE_CHARS)) = false →
  str_is_blank (compute_truncate_chars message (Z.to_nat MAX_FAILURE_MESSAGE_CHARS)) = false →
  ∃ changed db', ComputeInstanceRepository_record_failure id message now db = (Ok tt, db') ∧
    compute_updated db (uuid_to_string id) cr_is_active
      (λ r, set_cr_failure_message
              (Some (compute_truncate_chars message (Z.to_nat MAX_FAILURE_MESSAGE_CHARS)))
             (set_cr_updated_at_ms (cr_touch now r) r)) changed db'.
Proof.
  intros Hok Hn Hnul Hblank. unfold ComputeInstanceRepository_record_failure.
  assert (Hm : text_ok MAX_FAILURE_MESSAGE_CHARS
    (compute_truncate_chars message (Z.to_nat MAX_FAILURE_MESSAGE_CHARS))).
  { split; [done|]. split; [apply str_take_chars_count|done]. }
  revert Hm. generalize (compute_truncate_chars message (Z.to_nat MAX_FAILURE_MESSAGE_CHARS)).
  intros m Hm. cbv zeta.
  apply (run_update_computes (λ _, tt)); [done|].
  intros r Hr Hc Hwf. cond_facts. split; [|by apply cr_frame]. compute_row Hwf.
Qed.

(** ** Creation *)

Lemma new_compute_row_wf id iid provider token enrollment now :
  0 ≤ now → text_ok MAX_CONNECTION_TOKEN_CHARS token →
  (∀ e, enrollment = Some e → text_ok MAX_CONNECTION_TOKEN_CHARS e ∧ provider = CP.Akamai) →
  compute_row_wf (uuid_to_string id)
    (new_compute_row (uuid_to_string iid) provider token enrollment now).
Proof.
  intros Hn Ht He. constructor; cbn; try done; try lia; eauto.
  - intros e E. by apply He.
  - unfold compute_provider_check. cbn. destruct provider; [|done].
    destruct enrollment as [e|]; [|done]. by destruct (He e eq_refl).
  - repeat constructor; done.
Qed.

(** A new row keeps the invariant. *)
Lemma db_ok_with_new_compute db key row :
  db_ok db → compute_row_wf key row →
  is_some_and ir_is_active (server_instances db !! cr_server_instance_id row) = true →
  exists_row (is_active_for_instance (cr_server_instance_id row)) (compute_instances db) = false →
  compute_instances db !! key = None →
  db_ok (set_compute_instances (<[key := row]> (compute_instances db)) db).
Proof.
  intros Hok Hwf Hact Hex Hk.
  destruct (server_instances db !! cr_server_instance_id row) as [i|] eqn:Hi; [|done].
  destruct Hok as [ok1 ok2 ok3 ok4 ok5 ok6 ok7 ok8 ok9 ok10 ok11 ok12 ok13 ok14].
  constructor; cbn; try done.
  - by apply map_Forall_insert_2.
  - intros k c. rewrite lookup_insert_Some. intros [[<- <-]|[? ?]]; [|by eauto]. cbn. eauto.
  - intros k k' c c'. rewrite !lookup_insert_Some.
    intros [[<- <-]|[? Hc]] [[<- <-]|[? Hc']] E Ha Ha'; try done; [| |by eauto].
    + pose proof (exists_row_false _ _ _ _ Hex Hc') as Hf. unfold is_active_for_instance in Hf.
      rewrite <- E, Ha' in Hf. cbn in Hf. by rewrite String.eqb_refl in Hf.
    + pose proof (exists_row_false _ _ _ _ Hex Hc) as Hf. unfold is_active_for_instance in Hf.
      rewrite E, Ha in Hf. cbn in Hf. by rewrite String.eqb_refl in Hf.
Qed.

(** Creating a compute instance: nothing without an active server instance or
    with an active compute instance already there; otherwise its row. *)
Lemma insert_compute_spec db id iid provider token enrollment now :
  db_ok db → 0 ≤ now → text_ok MAX_CONNECTION_TOKEN_CHARS token →
  (∀ e, enrollment = Some e → text_ok MAX_CONNECTION_TOKEN_CHARS e ∧ provider = CP.Akamai) →
  let key := uuid_to_string id in let ikey := uuid_to_string iid in
  let row := new_compute_row ikey provider token enrollment now in
  (insert_compute id iid provider token enrollment now db = (Ok false, db) ∧
   ((∀ i, server_instances db !! ikey = Some i → is_Some (ir_terminated_at_ms i)) ∨
    exists_row (is_active_for_instance ikey) (compute_instances db) = true ∨
    is_Some (compute_instances db !! key))) ∨
  (insert_compute id iid provider token enrollment now db =
     (Ok true, set_compute_instances (<[key := row]> (compute_instances db)) db) ∧
   is_some_and ir_is_active (server_instances db !! ikey) = true ∧
   exists_row (is_active_for_instance ikey) (compute_instances db) = false ∧
   compute_instances db !! key = None ∧
   db_ok (set_compute_instances (<[key := row]> (compute_instances db)) db)).
Proof.
  intros Hok Hn Ht He key ikey row.
  pose proof (new_compute_row_wf id iid provider token enrollment now Hn Ht He) as Hwf.
  fold ikey row key in Hwf. unfold insert_compute, insert_compute_for_active_instance.
  cbv zeta. fold key ikey row.
  destruct (is_some_and ir_is_active (server_instances db !! ikey)) eqn:Hact; cbn [andb].
  2: { left. split; [done|]. left. intros i Hi. rewrite Hi in Hact. cbn in Hact.
       apply is_none_false. done. }
  destruct (exists_row (is_active_for_instance ikey) (compute_instances db)) eqn:Hex; cbn [negb].
  { left. split; [done|]. right; by left. }
  unfold insert_compute_instances. rewrite (compute_row_wf_check _ _ Hwf). cbn [negb].
  destruct (compute_instances db !! key) as [r|] eqn:Hk; cbn [is_some orb].
  { left. split; [done|]. right; right; eauto. }
  assert (exists_row (λ _ r, compute_conflicts row r) (compute_instances db) = false) as ->.
  { apply not_true_iff_false. intros (k & r & Hr & Hc)%exists_row_true.
    pose proof (exists_row_false _ _ _ _ Hex Hr) as Hf. unfold compute_conflicts in Hc.
    unfold is_active_for_instance in Hf. cbn in Hc. rewrite andb_true_r in Hc. congruence. }
  right. split_and!; [done..|]. by apply db_ok_with_new_compute.
Qed.

Lemma create_compute_spec db id iid provider token enrollment now :
  db_ok db → 0 ≤ now → text_ok MAX_CONNECTION_TOKEN_CHARS token →
  (∀ e, enrollment = Some e → text_ok MAX_CONNECTION_TOKEN_CHARS e ∧ provider = CP.Akamai) →
  let key := uuid_to_string id in let ikey := uuid_to_string iid in
  let row := new_compute_row ikey provider token enrollment now in
  (ComputeInstanceRepository_create_for_instance id iid provider token enrollment now db =
     (Ok None, db) ∧
   ((∀ i, server_instances db !! ikey = Some i → is_Some (ir_terminated_at_ms i)) ∨
    exists_row (is_active_for_instance ikey) (compute_instances db) = true ∨
    is_Some (compute_instances db !! key))) ∨
  (∃ c, ComputeInstanceRepository_create_for_instance id iid provider token enrollment now db =
     (Ok (Some c), set_compute_instances (<[key := row]> (compute_instances db)) db) ∧
   decode_compute_instance key row = Ok c ∧
   is_some_and ir_is_active (server_instances db !! ikey) = true ∧
   exists_row (is_active_for_instance ikey) (compute_instances db) = false ∧
   compute_instances db !! key = None ∧
   db_ok (set_compute_instances (<[key := row]> (compute_instances db)) db)).
Proof.
  intros Hok Hn Ht He key ikey row. unfold ComputeInstanceRepository_create_for_instance.
  rewrite run_bind.
  destruct (insert_compute_spec db id iid provider token enrollment now Hok Hn Ht He)
    as [[-> ?]|(-> & ? & ? & ? & Hok')]; [by left|right].
  destruct (compute_row_wf_decode _ _ (new_compute_row_wf id iid provider token enrollment now Hn Ht He))
    as (iid' & p & res & _ & _ & _ & Hd).
  eexists. split_and!; [|exact Hd|done..]. unfold ComputeInstanceRepository_get.
  rewrite run_bind. unfold query, lift, decode_optional.
  cbn [compute_instances set_compute_instances]. rewrite lookup_insert, decide_True by done.
  cbn [fmap option_fmap option_map transpose_map]. fold key row ikey in Hd |- *. by rewrite Hd.
Qed.
End compute_facts.
