(* ===== verification/Persistence.v ===== *)
(** The database as a state machine: its transitions are the writes of the
    four repositories. The invariant holds in every reachable state, and what
    has been written only grows: names, tokens, published snapshots, pinned
    certificates and finished rows never change again. *)
From S2P Require Import Prelude Text Server ServerFacts Instances InstanceFacts Database RowFacts.
From S2P Require Import Repositories ComputeRepository Invariant RepositoryFacts LifecycleFacts.
From S2P Require Import ComputeFacts.
#[local] Open Scope string_scope.
#[local] Open Scope Z_scope.

(** ** Writes *)

Inductive write :=
| WCreateServer (s : Server)
| WUpdateDesiredState (s : Server) (previous : Z)
| WUpdateSpec (s : Server) (previous : Z)
| WArchive (s : Server) (previous : Z)
| WCreateInstance (server : ServerId) (instance : ServerInstanceId) (now : Z)
| WRequestStop (id : ServerInstanceId) (now : Z)
| WMarkDataPrepared (id : ServerInstanceId) (now : Z)
| WObserveProcess (id : ServerInstanceId) (running : bool) (now : Z)
| WRecordError (id : ServerInstanceId) (message : string) (now : Z)
| WComplete (id : ServerInstanceId) (res : TerminalResult) (now : Z)
| WCommit (id : ServerInstanceId) (token : Z) (snapshot : string) (now : Z)
| WCreateCompute (id : ComputeInstanceId) (instance : ServerInstanceId)
    (provider : ComputeProvider) (token : string) (enrollment : option string) (now : Z)
| WRecordProcessId (id : ComputeInstanceId) (pid now : Z)
| WRecordProviderInstance (id : ComputeInstanceId) (pid : string) (ipv4 : option string) (now : Z)
| WRecordCertificate (id : ComputeInstanceId) (token : string) (c : AgentCertificateRecord)
| WAuthenticate (id : ComputeInstanceId) (provider : ComputeProvider) (token : string)
    (der : option string) (now : Z)
| WRequestShutdown (id : ComputeInstanceId) (now : Z)
| WTerminate (id : ComputeInstanceId) (res : ComputeTerminalResult) (message : option string)
    (now : Z)
| WRecordFailure (id : ComputeInstanceId) (message : string) (now : Z).

Section persistence.
Context `{CodecLaws}.

(** The error of a write, if any, and the database after it. *)
Definition outcome {A} (m : repo A) (db : Database) : option RepositoryError * Database :=
  match m db with
  | (Ok _, db') => (None, db')
  | (Err e, db') => (Some e, db')
  end.

Definition run_write (w : write) : Database → option RepositoryError * Database :=
  match w with
  | WCreateServer s => outcome (ServerRepository_create s)
  | WUpdateDesiredState s p => outcome (ServerRepository_update_desired_state s p)
  | WUpdateSpec s p => outcome (ServerRepository_update_spec s p)
  | WArchive s p => outcome (ServerRepository_archive s p)
  | WCreateInstance s i now =>
      outcome (ServerInstanceRepository_create_for_running_server s i now)
  | WRequestStop i now => outcome (ServerInstanceRepository_request_stop i now)
  | WMarkDataPrepared i now => outcome (ServerInstanceRepository_mark_data_prepared i now)
  | WObserveProcess i b now => outcome (ServerInstanceRepository_observe_process i b now)
  | WRecordError i m now => outcome (ServerInstanceRepository_record_error i m now)
  | WComplete i r now => outcome (ServerInstanceRepository_complete i r now)
  | WCommit i t s now => outcome (SnapshotRepository_commit i t s now)
  | WCreateCompute c i p t e now =>
      outcome (ComputeInstanceRepository_create_for_instance c i p t e now)
  | WRecordProcessId c p now => outcome (ComputeInstanceRepository_record_process_id c p now)
  | WRecordProviderInstance c p a now =>
      outcome (ComputeInstanceRepository_record_provider_instance c p a now)
  | WRecordCertificate c t r => outcome (ComputeInstanceRepository_record_agent_certificate c t r)
  | WAuthenticate c p t d now => outcome (ComputeInstanceRepository_authenticate_agent c p t d now)
  | WRequestShutdown c now => outcome (ComputeInstanceRepository_request_shutdown c now)
  | WTerminate c r m now => outcome (ComputeInstanceRepository_terminate c r m now)
  | WRecordFailure c m now => outcome (ComputeInstanceRepository_record_failure c m now)
  end.

(** What the callers of a write guarantee. Times come from
    [UnixTimestampMillis], servers from the operations of the aggregate (a new
    generation unless nothing changes), error texts start with what the error is;
    a snapshot id, a fencing token, the rest of an error text and a certificate
    are arbitrary. *)
Definition write_pre (db : Database) (w : write) : Prop :=
  match w with
  | WCreateServer s =>
      Server_wf s ∧ srv_current_snapshot_id s = None ∧ srv_generation s ≤ i64_max
  | WUpdateDesiredState s p => writable db s p ∧ p ≤ srv_generation s ∧
      (p = srv_generation s → ∀ r, servers db !! uuid_to_string (srv_id s) = Some r →
         sr_generation r = p → sr_desired_state r = DesiredState_as_str (srv_desired_state s))
  | WUpdateSpec s p =>
      writable db s p ∧ p < srv_generation s ∧ ServerSpec_validate (srv_spec s) = Ok tt
  | WArchive s p => writable db s p ∧ p < srv_generation s ∧
      ∃ t, srv_archived_at s = Some t ∧
        ∀ r, servers db !! uuid_to_string (srv_id s) = Some r →
          sr_created_at_ms r ≤ t ≤ srv_updated_at s
  | WRecordError _ m now => 0 ≤ now ∧
      str_is_blank (truncate_chars m (Z.to_nat MAX_ERROR_CHARS)) = false
  | WCreateCompute _ _ p t e now => 0 ≤ now ∧ text_ok MAX_CONNECTION_TOKEN_CHARS t ∧
      ∀ x, e = Some x → text_ok MAX_CONNECTION_TOKEN_CHARS x ∧ p = CP.Akamai
  | WRecordProcessId _ p now => 0 ≤ now ∧ 1 ≤ p ≤ u32_max
  | WRecordProviderInstance _ p a now => 0 ≤ now ∧ text_ok MAX_PROVIDER_INSTANCE_ID_CHARS p ∧
      ∀ x, a = Some x → text_ok MAX_PUBLIC_IPV4_CHARS x ∧ parses_as_ipv4 x = true
  | WRecordCertificate _ _ r => 0 ≤ acr_recorded_at r
  | WTerminate _ _ m now =>
      0 ≤ now ∧ ∀ x, m = Some x → text_ok MAX_FAILURE_MESSAGE_CHARS x
  | WRecordFailure _ m now => 0 ≤ now ∧
      str_is_blank (compute_truncate_chars m (Z.to_nat MAX_FAILURE_MESSAGE_CHARS)) = false
  | WCreateInstance _ _ now | WRequestStop _ now | WMarkDataPrepared _ now
  | WObserveProcess _ _ now | WComplete _ _ now | WCommit _ _ _ now
  | WAuthenticate _ _ _ _ now | WRequestShutdown _ now => 0 ≤ now
  end.

(** The writes that a [CHECK] may refuse: a text in which a NUL byte is left, and a
    certificate whose columns are empty, too long or with a NUL byte, or that expires
    before its row was created. *)
Definition refusable (db : Database) (w : write) : Prop :=
  match w with
  | WRecordError _ m _ =>
      str_contains_nul (truncate_chars m (Z.to_nat MAX_ERROR_CHARS)) = true
  | WRecordFailure _ m _ =>
      str_contains_nul (compute_truncate_chars m (Z.to_nat MAX_FAILURE_MESSAGE_CHARS)) = true
  | WRecordCertificate c _ r => ¬ certificate_ok db (uuid_to_string c) r
  | _ => False
  end.

(** A transition, and the states a new installation can reach. *)
Definition db_step (db db' : Database) : Prop :=
  ∃ w, write_pre db w ∧ (run_write w db).2 = db'.
Definition reachable (db : Database) : Prop := rtc db_step empty_database db.

(** ** What never changes again *)

Definition server_grows (s s' : servers_row) : Prop :=
  sr_name s' = sr_name s ∧ sr_created_at_ms s' = sr_created_at_ms s ∧
  sr_generation s ≤ sr_generation s' ∧ sr_next_fencing_token s ≤ sr_next_fencing_token s' ∧
  (sr_generation s' = sr_generation s →
     sr_desired_state s' = sr_desired_state s ∧ sr_spec_json s' = sr_spec_json s ∧
     sr_archived_at_ms s' = sr_archived_at_ms s) ∧
  (is_Some (sr_archived_at_ms s) → s' = s).

Definition instance_grows (i i' : server_instances_row) : Prop :=
  ir_server_id i' = ir_server_id i ∧ ir_server_generation i' = ir_server_generation i ∧
  ir_resolved_spec_json i' = ir_resolved_spec_json i ∧
  ir_fencing_token i' = ir_fencing_token i ∧
  ir_source_snapshot_id i' = ir_source_snapshot_id i ∧
  ir_created_at_ms i' = ir_created_at_ms i ∧ ir_updated_at_ms i ≤ ir_updated_at_ms i' ∧
  (is_Some (ir_result_snapshot_id i) → ir_result_snapshot_id i' = ir_result_snapshot_id i) ∧
  (is_Some (ir_data_prepared_at_ms i) → ir_data_prepared_at_ms i' = ir_data_prepared_at_ms i) ∧
  (is_Some (ir_stop_requested_at_ms i) → ir_stop_requested_at_ms i' = ir_stop_requested_at_ms i) ∧
  (is_Some (ir_terminated_at_ms i) → i' = i).

Definition compute_grows (c c' : compute_instances_row) : Prop :=
  cr_server_instance_id c' = cr_server_instance_id c ∧ cr_provider c' = cr_provider c ∧
  cr_connection_token c' = cr_connection_token c ∧
  (cr_enrollment_token c' = cr_enrollment_token c ∨ cr_enrollment_token c' = None) ∧
  (is_Some (cr_agent_csr_pem c) →
     cr_agent_csr_pem c' = cr_agent_csr_pem c ∧
     cr_agent_certificate_der c' = cr_agent_certificate_der c ∧
     cr_agent_certificate_expires_at_ms c' = cr_agent_certificate_expires_at_ms c) ∧
  (is_Some (cr_terminated_at_ms c) → c' = c).

Record grows (db db' : Database) : Prop := {
  gr_servers k s : servers db !! k = Some s →
    ∃ s', servers db' !! k = Some s' ∧ server_grows s s';
  gr_instances k i : server_instances db !! k = Some i →
    ∃ i', server_instances db' !! k = Some i' ∧ instance_grows i i';
  gr_computes k c : compute_instances db !! k = Some c →
    ∃ c', compute_instances db' !! k = Some c' ∧ compute_grows c c';
  gr_snapshots k n : snapshots db !! k = Some n → snapshots db' !! k = Some n;
}.

Lemma server_grows_refl s : server_grows s s.
Proof. repeat split; lia || done. Qed.
Lemma instance_grows_refl i : instance_grows i i.
Proof. repeat split; lia || done. Qed.
Lemma compute_grows_refl c : compute_grows c c.
Proof. repeat split; auto. Qed.

#[global] Instance grows_preorder : PreOrder grows.
Proof.
  split.
  - intros db. constructor; intros; eauto using server_grows_refl, instance_grows_refl,
      compute_grows_refl.
  - intros a b c [A1 A2 A3 A4] [B1 B2 B3 B4]. constructor.
    + intros k s Hs. destruct (A1 _ _ Hs) as (s1 & Hs1 & G1).
      destruct (B1 _ _ Hs1) as (s2 & Hs2 & G2). exists s2. split; [done|].
      destruct G1 as (? & ? & ? & ? & I1 & F1), G2 as (? & ? & ? & ? & I2 & F2).
      split_and!; try congruence; try lia.
      * intros Hg. destruct I1 as (<- & <- & <-); [lia|]. apply I2. lia.
      * intros Ha. rewrite <- (F1 Ha). apply F2. by rewrite (F1 Ha).
    + intros k s Hs. destruct (A2 _ _ Hs) as (s1 & Hs1 & G1).
      destruct (B2 _ _ Hs1) as (s2 & Hs2 & G2). exists s2. split; [done|].
      destruct G1 as (? & ? & ? & ? & ? & ? & ? & R1 & D1 & S1 & T1).
      destruct G2 as (? & ? & ? & ? & ? & ? & ? & R2 & D2 & S2 & T2).
      split_and!; try congruence; try lia; intros Hx.
      * rewrite <- (R1 Hx). apply R2. by rewrite (R1 Hx).
      * rewrite <- (D1 Hx). apply D2. by rewrite (D1 Hx).
      * rewrite <- (S1 Hx). apply S2. by rewrite (S1 Hx).
      * rewrite <- (T1 Hx). apply T2. by rewrite (T1 Hx).
    + intros k s Hs. destruct (A3 _ _ Hs) as (s1 & Hs1 & G1).
      destruct (B3 _ _ Hs1) as (s2 & Hs2 & G2). exists s2. split; [done|].
      destruct G1 as (? & ? & ? & E1 & C1 & T1), G2 as (? & ? & ? & E2 & C2 & T2).
      split_and!; try congruence.
      * destruct E2 as [E2|E2]; rewrite E2; auto.
      * intros Hx. destruct (C1 Hx) as (X1 & X2 & X3). rewrite <- X1, <- X2, <- X3.
        apply C2. by rewrite X1.
      * intros Hx. rewrite <- (T1 Hx). apply T2. by rewrite (T1 Hx).
    + eauto.
Qed.

(** ** Every write *)

Lemma insert_grows {R} (rel : R → R → Prop) (m : gmap string R) key r r' :
  (∀ x, rel x x) → m !! key = Some r → rel r r' →
  ∀ k x, m !! k = Some x → ∃ x', <[key := r']> m !! k = Some x' ∧ rel x x'.
Proof. intros Hrefl Hr Hrel. by apply (insert_related rel m key r r'). Qed.

Lemma grows_instances db key r r' :
  server_instances db !! key = Some r → instance_grows r r' →
  grows db (set_server_instances (<[key := r']> (server_instances db)) db).
Proof.
  intros Hr Hg. constructor; cbn; eauto using server_grows_refl, compute_grows_refl.
  by eapply insert_grows; [apply instance_grows_refl|..].
Qed.

Lemma grows_computes db key r r' :
  compute_instances db !! key = Some r → compute_grows r r' →
  grows db (set_compute_instances (<[key := r']> (compute_instances db)) db).
Proof.
  intros Hr Hg. constructor; cbn; eauto using server_grows_refl, instance_grows_refl.
  by eapply insert_grows; [apply compute_grows_refl|..].
Qed.

Lemma grows_servers db key r r' :
  servers db !! key = Some r → server_grows r r' →
  grows db (set_servers (<[key := r']> (servers db)) db).
Proof.
  intros Hr Hg. constructor; cbn; eauto using compute_grows_refl, instance_grows_refl.
  by eapply insert_grows; [apply server_grows_refl|..].
Qed.

(** The three guarded updates grow when their assignment does. *)
Lemma instance_updated_grows db key cond set b db' :
  instance_updated db key cond set b db' →
  (∀ r, cond r = true → instance_grows r (set r)) → db_ok db' ∧ grows db db'.
Proof.
  intros [Hok Hu] Hset. split; [done|]. destruct b.
  - destruct Hu as (r & Hr & Hc & ->). apply (grows_instances _ _ r); auto.
  - destruct Hu as [-> _]. reflexivity.
Qed.

Lemma compute_updated_grows db key cond set b db' :
  compute_updated db key cond set b db' →
  (∀ r, cond r = true → compute_grows r (set r)) → db_ok db' ∧ grows db db'.
Proof.
  intros [Hok Hu] Hset. split; [done|]. destruct b.
  - destruct Hu as (r & Hr & Hc & ->). apply (grows_computes _ _ r); auto.
  - destruct Hu as [-> _]. reflexivity.
Qed.

Lemma server_updated_grows db key cond set b db' :
  server_updated db key cond set b db' →
  (∀ r, servers db !! key = Some r → cond r = true → server_grows r (set r)) →
  db_ok db' ∧ grows db db'.
Proof.
  intros [Hok Hu] Hset. split; [done|]. destruct b.
  - destruct Hu as (r & Hr & Hc & ->). apply (grows_servers _ _ r); auto.
  - destruct Hu as [-> _]. reflexivity.
Qed.

(** [row_grows] compares a row with its update under the update's guard. *)
Ltac row_grows :=
  intros ? ?; cbv beta in *; inv_res; rewrite ?ir_is_active_true, ?cr_is_active_true, ?is_none_true in *;
  repeat match goal with
  | H : ir_is_active _ = true |- _ => apply ir_is_active_true in H
  | H : cr_is_active _ = true |- _ => apply cr_is_active_true in H
  | H : is_none _ = true |- _ => apply is_none_true in H
  end; bz;
  repeat split; cbn in *; unfold ir_touch; auto; try lia;
  intros;
  match goal with Hx : is_Some _ |- _ => destruct Hx as [? Hx]; rewrite ?Hx; cbn; congruence end.

Lemma grows_with_new_instance db skey ikey s time :
  servers db !! skey = Some s → sr_archived_at_ms s = None →
  server_instances db !! ikey = None → grows db (with_new_instance db skey ikey s time).
Proof.
  intros Hs Ha Hi. constructor; cbn; eauto using compute_grows_refl.
  - eapply insert_grows; [apply server_grows_refl|done|].
    repeat split; cbn; try lia. intros [? E]. congruence.
  - intros k i Hk. exists i. rewrite lookup_insert_ne by congruence.
    eauto using instance_grows_refl.
Qed.

Lemma grows_with_snapshot db ikey i s snap at_ms :
  server_instances db !! ikey = Some i → servers db !! ir_server_id i = Some s →
  ir_terminated_at_ms i = None → ir_result_snapshot_id i = None → sr_archived_at_ms s = None →
  snapshots db !! (ir_server_id i, snap) = None →
  grows db (with_snapshot db ikey i s snap at_ms).
Proof.
  intros Hi Hs Ha Hr Har Hn. constructor; cbn; eauto using compute_grows_refl.
  - eapply insert_grows; [apply server_grows_refl|done|].
    repeat split; cbn; try lia. intros [? E]. congruence.
  - eapply insert_grows; [apply instance_grows_refl|done|].
    repeat split; cbn; unfold ir_touch; try lia; intros [? E]; congruence.
  - intros k n Hk. rewrite lookup_insert_ne; [done|]. intros <-. congruence.
Qed.

(** What a write that no [CHECK] stops guarantees, and what every write does. *)
Definition write_safe (db : Database) (p : option RepositoryError * Database) : Prop :=
  db_ok p.2 ∧ grows db p.2 ∧ p.1 ≠ Some (RE.Database CheckViolation).
Definition write_kept (db : Database) (w : write) : Prop :=
  db_ok (run_write w db).2 ∧ grows db (run_write w db).2 ∧
  ((run_write w db).1 = Some (RE.Database CheckViolation) →
   refusable db w ∧ (run_write w db).2 = db).

Lemma write_safe_kept db w : write_safe db (run_write w db) → write_kept db w.
Proof. by intros (? & ? & ?). Qed.

Lemma write_refused db w :
  db_ok db → refusable db w → (run_write w db).2 = db → write_kept db w.
Proof. intros Hok Hr E. unfold write_kept. by rewrite E. Qed.

Lemma write_safe_ok {A} (m : repo A) db a db' :
  m db = (Ok a, db') → db_ok db' ∧ grows db db' → write_safe db (outcome m db).
Proof. intros E [? ?]. unfold outcome. by rewrite E. Qed.

Lemma write_safe_same {A} (m : repo A) db r :
  m db = (r, db) → db_ok db → (∀ e, r = Err e → e ≠ RE.Database CheckViolation) →
  write_safe db (outcome m db).
Proof.
  intros E Hok Hr. unfold outcome. rewrite E. destruct r; split_and!; cbn; try done.
  intros [= ->]. by apply (Hr (RE.Database CheckViolation)).
Qed.

Lemma server_writes_safe db w :
  match w with
  | WCreateServer _ | WUpdateDesiredState _ _ | WUpdateSpec _ _ | WArchive _ _ => True
  | _ => False
  end → db_ok db → write_pre db w → write_safe db (run_write w db).
Proof.
  intros Hw Hok Hpre. destruct w; try done; cbn [run_write write_pre] in *.
  - destruct Hpre as (Hwf & Hsnap & Hg).
    destruct (create_server_spec db s Hok Hwf Hsnap Hg) as (json & _ & [[E _]|(E & Hk & _ & Hok')]).
    + by apply (write_safe_same _ _ _ E); [|intros e [= <-]].
    + apply (write_safe_ok _ _ _ _ E). split; [done|]. constructor; cbn;
        eauto using compute_grows_refl, instance_grows_refl.
      intros k x Hx. exists x. rewrite lookup_insert_ne by congruence. eauto using server_grows_refl.
  - destruct Hpre as (Hwr & Hle & Hsame).
    destruct (update_desired_state_spec db s previous Hok Hwr) as (b & db' & E & Hu).
    apply (write_safe_ok _ _ _ _ E), (server_updated_grows _ _ _ _ _ _ Hu).
    intros r Hr Hc. inv_res. rewrite is_none_true in *. bz.
    split_and!; cbn; [done|done|lia|lia| |by intros []; congruence].
    intros Heq. rewrite (Hsame ltac:(lia) r) by (done || lia). done.
  - destruct Hpre as (Hwr & Hlt & Hv).
    destruct (update_spec_spec db s previous Hok Hwr Hv) as (json & b & db' & _ & E & Hu).
    apply (write_safe_ok _ _ _ _ E), (server_updated_grows _ _ _ _ _ _ Hu). intros r _. revert r.
    row_grows.
  - destruct Hpre as (Hwr & Hlt & t & Ha & Ht).
    destruct (archive_spec db s previous t Hok Hwr Ha Ht) as (b & db' & E & Hu).
    apply (write_safe_ok _ _ _ _ E), (server_updated_grows _ _ _ _ _ _ Hu). intros r _. revert r.
    row_grows.
Qed.

Lemma instance_get_reads id db : (ServerInstanceRepository_get id db).2 = db.
Proof. done. Qed.

(** A stored instance decodes: reading it back never fails. *)
Lemma instance_get_ok id db :
  db_ok db → ∃ o, ServerInstanceRepository_get id db = (Ok o, db) ∧
    (o = None ↔ server_instances db !! uuid_to_string id = None).
Proof.
  intros Hok. unfold ServerInstanceRepository_get. rewrite run_bind.
  unfold query, lift, decode_optional.
  destruct (server_instances db !! uuid_to_string id) as [r|] eqn:Hr.
  - destruct (instance_row_wf_decode id r) as (? & ? & ? & _ & _ & _ & Hd);
      [by apply (ok_instances _ Hok)|].
    cbn [fmap option_fmap option_map transpose_map]. rewrite Hd. eexists. by split.
  - by exists None.
Qed.

Lemma create_instance_safe db sid iid now :
  db_ok db → 0 ≤ now → write_safe db (run_write (WCreateInstance sid iid now) db).
Proof.
  intros Hok Hn. cbn [run_write].
  destruct (create_instance_spec db sid iid now Hok Hn) as (r & db' & E & Hok' & Hcases).
  unfold ServerInstanceRepository_create_for_running_server, outcome. rewrite run_bind, E.
  destruct Hcases as [(-> & -> & _)|[(e & -> & -> & He & _)|(-> & s & Hs & Hrun & Hact & Hi & ->)]].
  - by split_and!.
  - split_and!; cbn; try done. by intros [= ->].
  - destruct (instance_get_ok iid _ Hok') as (o & -> & _). split_and!; cbn; try done.
    apply grows_with_new_instance; try done.
    destruct (sr_archived_at_ms s) eqn:Ea; [|done].
    destruct (srw_archived _ _ (ok_servers _ Hok _ _ Hs) _ Ea) as [_ Hst]. congruence.
Qed.

Lemma positive_u64_to_i64_err v e : positive_u64_to_i64 v = Err e → e = RE.IntegerOutOfRange.
Proof.
  unfold positive_u64_to_i64, i64_try_from.
  destruct (v =? 0), (v <=? i64_max); cbn; intros; by simplify_eq.
Qed.

Lemma commit_refusal_no_check db ikey token snap :
  commit_refusal db ikey token snap ≠ Some (Err (RE.Database CheckViolation)).
Proof.
  unfold commit_refusal. destruct (server_instances db !! ikey) as [i|]; [|done].
  destruct (positive_u64_to_i64 token) eqn:E.
  - repeat case_match; done.
  - apply positive_u64_to_i64_err in E as ->. done.
Qed.

Lemma commit_safe db iid token snap now :
  db_ok db → 0 ≤ now → write_safe db (run_write (WCommit iid token snap now) db).
Proof.
  intros Hok Hn. cbn [run_write].
  destruct (decide (str_is_blank snap || str_contains_nul snap
    || (MAX_SNAPSHOT_ID_CHARS <? str_char_count snap) = false)) as [Hid|Hid].
  2: { rewrite snapshot_checks_ok in Hid.
       by apply (write_safe_same _ _ _ (commit_invalid_id db iid token snap now Hid));
         [|intros e [= <-]]. }
  apply snapshot_checks_ok in Hid.
  pose proof (commit_cases db iid token snap now Hok Hn Hid) as Hc. cbv zeta in Hc.
  destruct (commit_refusal db (uuid_to_string iid) token snap) as [r|] eqn:Er.
  - apply (write_safe_same _ _ _ Hc); [done|]. intros e ->. intros ->. revert Er.
    apply commit_refusal_no_check.
  - destruct Hc as (i & s & Hi & Ht & Ha & Hr & Hs & Hsn & E).
    apply (write_safe_ok _ _ _ _ E). split; [by apply db_ok_with_snapshot|].
    apply grows_with_snapshot; try done. by eapply (ok_archived _ Hok).
Qed.

Lemma instance_writes_safe db w :
  match w with
  | WRequestStop _ _ | WMarkDataPrepared _ _ | WObserveProcess _ _ _ | WComplete _ _ _ => True
  | _ => False
  end → db_ok db → write_pre db w → write_safe db (run_write w db).
Proof.
  intros Hw Hok Hpre. destruct w; try done; cbn [run_write write_pre] in *.
  - destruct (request_stop_spec db id now Hok Hpre) as (b & db' & E & Hu).
    apply (write_safe_ok _ _ _ _ E), (instance_updated_grows _ _ _ _ _ _ Hu). row_grows.
  - destruct (mark_data_prepared_spec db id now Hok Hpre) as (b & db' & E & Hu).
    apply (write_safe_ok _ _ _ _ E), (instance_updated_grows _ _ _ _ _ _ Hu). row_grows.
  - destruct (observe_process_spec db id running now Hok Hpre) as (b & db' & E & Hu).
    apply (write_safe_ok _ _ _ _ E), (instance_updated_grows _ _ _ _ _ _ Hu). row_grows.
  - destruct (complete_spec db id res now Hok Hpre) as (b & db' & E & Hu).
    apply (write_safe_ok _ _ _ _ E), (instance_updated_grows _ _ _ _ _ _ Hu). row_grows.
Qed.

Lemma compute_writes_safe db w :
  match w with
  | WRecordProcessId _ _ _ | WRecordProviderInstance _ _ _ _ | WAuthenticate _ _ _ _ _
  | WRequestShutdown _ _ | WTerminate _ _ _ _ => True
  | _ => False
  end → db_ok db → write_pre db w → write_safe db (run_write w db).
Proof.
  intros Hw Hok Hpre. destruct w; try done; cbn [run_write write_pre] in *.
  - destruct Hpre as [Hn Hp].
    destruct (record_process_id_spec db id pid now Hok Hn Hp) as (b & db' & E & Hu).
    apply (write_safe_ok _ _ _ _ E), (compute_updated_grows _ _ _ _ _ _ Hu). row_grows.
  - destruct Hpre as (Hn & Hp & Ha).
    destruct (record_provider_instance_spec db id pid ipv4 now Hok Hn Hp Ha) as (b & db' & E & Hu).
    apply (write_safe_ok _ _ _ _ E), (compute_updated_grows _ _ _ _ _ _ Hu). row_grows.
  - destruct provider.
    + destruct (authenticate_local_spec db id token der now Hok Hpre) as (b & db' & E & Hu).
      apply (write_safe_ok _ _ _ _ E), (compute_updated_grows _ _ _ _ _ _ Hu). row_grows.
    + destruct der as [der|]; [|by apply (write_safe_same _ _ (Ok AA.Rejected))].
      destruct (authenticate_akamai_spec db id token der now Hok Hpre) as (b & db' & E & Hu).
      apply (write_safe_ok _ _ _ _ E), (compute_updated_grows _ _ _ _ _ _ Hu). row_grows.
  - destruct (request_shutdown_spec db id now Hok Hpre) as (b & db' & E & Hu).
    apply (write_safe_ok _ _ _ _ E), (compute_updated_grows _ _ _ _ _ _ Hu). row_grows.
  - destruct Hpre as [Hn Hm].
    destruct (terminate_spec db id res message now Hok Hn Hm) as (b & db' & E & Hu).
    apply (write_safe_ok _ _ _ _ E), (compute_updated_grows _ _ _ _ _ _ Hu). row_grows.
Qed.

Lemma create_compute_safe db c i p t e now :
  db_ok db → write_pre db (WCreateCompute c i p t e now) →
  write_safe db (run_write (WCreateCompute c i p t e now) db).
Proof.
  intros Hok (Hn & Ht & He). cbn [run_write].
  destruct (create_compute_spec db c i p t e now Hok Hn Ht He) as [[E _]|(x & E & _ & _ & _ & Hk & Hok')].
  - by apply (write_safe_same _ _ _ E); [|intros ? [=]].
  - apply (write_safe_ok _ _ _ _ E). split; [done|]. constructor; cbn;
      eauto using server_grows_refl, instance_grows_refl.
    intros k r Hr. exists r. rewrite lookup_insert_ne by congruence. eauto using compute_grows_refl.
Qed.

(** ** Writes that may be refused *)

Lemma record_error_kept db id m now :
  db_ok db → write_pre db (WRecordError id m now) → write_kept db (WRecordError id m now).
Proof.
  intros Hok (Hn & Hb).
  destruct (str_contains_nul (truncate_chars m (Z.to_nat MAX_ERROR_CHARS))) eqn:Hnul.
  - apply write_refused; [done..|]. cbn [run_write]. unfold outcome.
    pose proof (record_error_nul db id m now Hnul) as E.
    by destruct (ServerInstanceRepository_record_error id m now db) as [[] ?].
  - apply write_safe_kept. cbn [run_write].
    destruct (record_error_spec db id m now Hok Hn Hnul Hb) as (b & db' & E & Hu).
    apply (write_safe_ok _ _ _ _ E), (instance_updated_grows _ _ _ _ _ _ Hu). row_grows.
Qed.

Lemma record_failure_kept db id m now :
  db_ok db → write_pre db (WRecordFailure id m now) → write_kept db (WRecordFailure id m now).
Proof.
  intros Hok (Hn & Hb).
  destruct (str_contains_nul (compute_truncate_chars m (Z.to_nat MAX_FAILURE_MESSAGE_CHARS))) eqn:Hnul.
  - apply write_refused; [done..|]. cbn [run_write]. unfold outcome.
    pose proof (record_failure_nul db id m now Hnul) as E.
    by destruct (ComputeInstanceRepository_record_failure id m now db) as [[] ?].
  - apply write_safe_kept. cbn [run_write].
    destruct (record_failure_spec db id m now Hok Hn Hnul Hb) as (b & db' & E & Hu).
    apply (write_safe_ok _ _ _ _ E), (compute_updated_grows _ _ _ _ _ _ Hu). row_grows.
Qed.

Lemma record_certificate_kept db id token c :
  db_ok db → write_pre db (WRecordCertificate id token c) →
  write_kept db (WRecordCertificate id token c).
Proof.
  intros Hok Hn. destruct (record_agent_certificate_cases db id token c Hok Hn)
    as [(b & db' & E & Hu)|[E Hbad]].
  - apply write_safe_kept. cbn [run_write].
    apply (write_safe_ok _ _ _ _ E), (compute_updated_grows _ _ _ _ _ _ Hu).
    unfold awaits_certificate, with_certificate. row_grows.
  - apply write_refused; [done..|]. cbn [run_write]. unfold outcome. by rewrite E.
Qed.

(** Every write keeps the invariant and only adds to the history; one that a
    [CHECK] stops is [refusable] and changes nothing. *)
Lemma write_is_safe db w : db_ok db → write_pre db w → write_kept db w.
Proof.
  intros Hok Hpre. destruct w;
    solve [ by apply record_error_kept | by apply record_failure_kept
          | by apply record_certificate_kept | apply write_safe_kept;
          first [ by apply server_writes_safe | by apply instance_writes_safe
                | by apply compute_writes_safe | by apply create_compute_safe
                | by apply create_instance_safe | by apply commit_safe ] ].
Qed.

Lemma steps_safe db db' : db_ok db → rtc db_step db db' → db_ok db' ∧ grows db db'.
Proof.
  intros Hok Hs. revert Hok. induction Hs as [|x y z (w & Hpre & <-) _ IH]; intros Hok.
  { by split. }
  destruct (write_is_safe x w Hok Hpre) as (Hok' & Hg & _). destruct (IH Hok') as [? ?].
  split; [done|]. by transitivity (run_write w x).2.
Qed.

Lemma reachable_ok db : reachable db → db_ok db.
Proof. intros Hr. eapply steps_safe; [apply empty_database_ok|exact Hr]. Qed.
End persistence.
