(* ===== verification/Codecs.v ===== *)
(** Concrete instances of the third-party encodings, for evaluating the model on
    examples: a UUID, a specification and a JSON value are spelled as the bits of an
    injective numbering. They satisfy the laws the theorems use. *)
From S2P Require Import Prelude Text JsonRpc Framing Server Instances Database.
From stdpp Require Import countable.
#[local] Open Scope string_scope.
#[local] Open Scope Z_scope.

Fixpoint bits_of_pos (p : positive) : string :=
  match p with
  | xH => "1"
  | xO p => String "0" (bits_of_pos p)
  | xI p => String "1" (bits_of_pos p)
  end.

Fixpoint pos_of_bits (s : string) : option positive :=
  match s with
  | EmptyString => None
  | String c EmptyString => if byte_is "1" c then Some xH else None
  | String c s' =>
      p ← pos_of_bits s';
      Some (if byte_is "1" c then xI p else xO p)
  end.

Lemma pos_of_bits_of_pos p : pos_of_bits (bits_of_pos p) = Some p.
Proof.
  induction p as [p IH|p IH|]; cbn [bits_of_pos]; [| |done];
    (destruct p; cbn [bits_of_pos pos_of_bits] in *; [..|done]; by rewrite IH).
Qed.

#[global] Instance ComputeSpec_countable : Countable ComputeSpec.
Proof.
  refine (inj_countable'
    (λ c, match c with CS.Local => None | CS.Akamai r t i f => Some (r, t, i, f) end)
    (λ o, match o with None => CS.Local | Some (r, t, i, f) => CS.Akamai r t i f end) _).
  by intros [].
Defined.

#[global] Instance ProcessSpec_countable : Countable ProcessSpec.
Proof.
  refine (inj_countable'
    (λ p, (container_image p, server_type p, version p, host_port p, stop_timeout_seconds p,
           accept_eula p, environment p))
    (λ '(a, b, c, d, e, f, g), Build_ProcessSpec a b c d e f g) _).
  by intros [].
Defined.

#[global] Instance DataSpec_countable : Countable DataSpec.
Proof.
  refine (inj_countable'
    (λ d, (match backend d with DB.LocalRestic => true | DB.R2Restic => false end, repository d))
    (λ '(b, r), Build_DataSpec (if b : bool then DB.LocalRestic else DB.R2Restic) r) _).
  by intros [[] ?].
Defined.

#[global] Instance ServerSpec_countable : Countable ServerSpec.
Proof.
  refine (inj_countable' (λ s, (spec_compute s, spec_process s, spec_data s))
    (λ '(a, b, c), Build_ServerSpec a b c) _).
  by intros [].
Defined.

Definition bits_codec : Codec := {|
  uuid_to_string u := bits_of_pos (N.succ_pos u);
  uuid_parse_str s :=
    match pos_of_bits s with
    | Some p => Ok (Pos.pred_N p)
    | None => Err "invalid UUID"
    end;
  spec_to_json spec := Ok (bits_of_pos (encode spec));
  spec_from_json s :=
    match pos_of_bits s ≫= decode with
    | Some spec => Ok spec
    | None => Err "invalid specification"
    end;
  json_valid _ := true;
|}.

Lemma bits_codec_laws : @CodecLaws bits_codec.
Proof.
  constructor.
  - intros u. cbn [uuid_parse_str uuid_to_string bits_codec].
    rewrite pos_of_bits_of_pos. f_equal. apply N.pos_pred_succ.
  - intros s. exists (bits_of_pos (encode s)). split; [done|]. split; [|done].
    cbn [spec_from_json bits_codec]. rewrite pos_of_bits_of_pos. cbn [mbind option_bind].
    by rewrite decode_encode.
Qed.

(** ** Numbering JSON values *)

#[global] Instance json_number_countable : Countable json_number.
Proof.
  refine (inj_countable' (λ n, match n with JInt z => inl z | JFloat t => inr t end)
    (λ s, match s with inl z => JInt z | inr t => JFloat t end) _).
  by intros [].
Defined.

Abbreviation json_leaf := (bool + json_number + string)%type.

Fixpoint json_tree (v : json) : gen_tree json_leaf :=
  match v with
  | JNull => GenNode 0 []
  | JBool b => GenLeaf (inl (inl b))
  | JNumber n => GenLeaf (inl (inr n))
  | JString s => GenLeaf (inr s)
  | JArray l => GenNode 1 (map json_tree l)
  | JObject fields => GenNode 2 (map (λ '(k, v), GenNode 3 [GenLeaf (inr k); json_tree v]) fields)
  end.

Fixpoint tree_json (t : gen_tree json_leaf) : json :=
  match t with
  | GenLeaf (inl (inl b)) => JBool b
  | GenLeaf (inl (inr n)) => JNumber n
  | GenLeaf (inr s) => JString s
  | GenNode 1 l => JArray (map tree_json l)
  | GenNode 2 l =>
      JObject (map (λ t, match t with
        | GenNode _ [GenLeaf (inr k); t'] => (k, tree_json t')
        | _ => (EmptyString, JNull)
        end) l)
  | GenNode _ _ => JNull
  end.

Lemma tree_json_tree v : tree_json (json_tree v) = v.
Proof.
  revert v. fix IH 1. intros [| | | |l|fields]; cbn; [done..| |].
  - f_equal. induction l as [|v l IHl]; cbn; [done|]. by rewrite IH, IHl.
  - f_equal. induction fields as [|[k v] fields IHl]; cbn; [done|]. by rewrite IH, IHl.
Qed.

#[global] Instance json_countable : Countable json.
Proof. exact (inj_countable' json_tree tree_json tree_json_tree). Defined.

(** ** Text of JSON values *)

Lemma bits_of_pos_one_line p :
  String.list_ascii_of_string (bits_of_pos p) ≠ [] ∧
  NEWLINE ∉ String.list_ascii_of_string (bits_of_pos p) ∧
  CARRIAGE_RETURN ∉ String.list_ascii_of_string (bits_of_pos p).
Proof.
  induction p as [p (? & ? & ?)|p (? & ? & ?)|]; cbn [bits_of_pos String.list_ascii_of_string];
    (split; [done|]); rewrite !not_elem_of_cons; split_and!; try done; apply not_elem_of_nil.
Qed.

Lemma bits_of_pos_utf8 p : utf8_valid (bits_of_pos p) = true.
Proof. by induction p. Qed.

Definition bits_json_text : JsonText := {|
  to_vec v := Ok (String.list_ascii_of_string (bits_of_pos (encode v)));
  from_slice text :=
    match pos_of_bits (String.string_of_list_ascii text) ≫= decode with
    | Some v => Ok v
    | None => Err "invalid JSON"
    end;
|}.

Lemma bits_json_text_laws : @JsonTextLaws bits_json_text.
Proof.
  constructor.
  - intros v text [= <-]. cbn. rewrite String.string_of_list_ascii_of_string, pos_of_bits_of_pos.
    cbn. by rewrite decode_encode.
  - intros v text [= <-]. apply bits_of_pos_one_line.
  - intros v text [= <-]. rewrite String.string_of_list_ascii_of_string. apply bits_of_pos_utf8.
Qed.

(** ** Values of countable types as JSON *)

Definition bits_to_value (A : Type) `{Countable A} : Serialize A := λ a,
  Ok (JObject [("bits", JString (bits_of_pos (encode a)))]).
Definition bits_from_value (A : Type) `{Countable A} : Deserialize A := λ v,
  match ((json_get "bits" v ≫= json_as_str) ≫= pos_of_bits) ≫= decode (A := A) with
  | Some a => Ok a
  | None => Err "invalid value"
  end.

Lemma bits_round_trip (A : Type) `{Countable A} :
  @SerdeLaws A (bits_to_value A) (bits_from_value A).
Proof.
  intros a v [= <-]. unfold from_value, bits_from_value. cbn. rewrite pos_of_bits_of_pos. cbn.
  by rewrite decode_encode.
Qed.
