(* ===== verification/Migrations.v ===== *)
(** The migrations of the database (migrations/*.sql, run by [connect_database] of
    crates/mcserver-control-plane/src/infrastructure/database.rs), and the JSON of a
    specification that they rewrite (the derived [Serialize] and [Deserialize] of
    crates/mcserver-control-plane/src/domain/server.rs).

    A database is at the version of the last migration it has seen. Migrations are
    run in order, each in a transaction of its own, and none runs twice. *)
From S2P Require Import Prelude Text JsonRpc Framing Server ServerFacts Instances InstanceFacts.
From S2P Require Import Database RowFacts Repositories ComputeRepository Invariant Persistence Codecs.
From stdpp Require Import countable sorting.
#[local] Open Scope string_scope.
#[local] Open Scope Z_scope.

(** ** The JSON of a specification *)

(** A field of a struct: unknown fields are ignored, duplicates are an error. *)
Definition json_field (key : string) (v : json) : option json :=
  match v with
  | JObject fields =>
      match List.filter (λ '(k, _), String.eqb key k) fields with
      | [(_, value)] => Some value
      | _ => None
      end
  | _ => None
  end.
Definition json_text (key : string) (v : json) : option string := json_field key v ≫= json_as_str.
Definition json_unsigned (maximum : Z) (key : string) (v : json) : option Z :=
  match json_field key v with
  | Some (JNumber (JInt n)) => if sql_between 0 maximum n then Some n else None
  | _ => None
  end.
Definition json_boolean (key : string) (v : json) : option bool :=
  match json_field key v with Some (JBool b) => Some b | _ => None end.

(** [BTreeMap::insert] on the entries in key order. *)
Fixpoint entry_insert (key value : string) (entries : list (string * string)) : list (string * string) :=
  match entries with
  | [] => [(key, value)]
  | (k, v) :: entries' =>
      match String.compare key k with
      | Lt => (key, value) :: entries
      | Eq => (key, value) :: entries'
      | Gt => (k, v) :: entry_insert key value entries'
      end
  end.
Fixpoint insert_entries (fields : list (string * json)) (entries : list (string * string)) :
    option (list (string * string)) :=
  match fields with
  | [] => Some entries
  | (key, JString value) :: fields => insert_entries fields (entry_insert key value entries)
  | _ :: _ => None
  end.
(** [#[serde(default)]]. *)
Definition json_environment (v : json) : option (list (string * string)) :=
  match v with
  | JObject fields =>
      match List.filter (λ '(k, _), String.eqb "environment" k) fields with
      | [] => Some []
      | [(_, JObject entries)] => insert_entries entries []
      | _ => None
      end
  | _ => None
  end.

(** [ComputeSpec]: [#[serde(tag = "provider", rename_all = "snake_case")]]. *)
Definition ComputeSpec_to_value (spec : ComputeSpec) : json :=
  match spec with
  | CS.Local => JObject [("provider", JString "local")]
  | CS.Akamai region instance_type image firewall_id =>
      JObject [("provider", JString "akamai"); ("region", JString region);
               ("instance_type", JString instance_type); ("image", JString image);
               ("firewall_id", JNumber (JInt firewall_id))]
  end.
Definition ComputeSpec_from_value (v : json) : option ComputeSpec :=
  provider ← json_text "provider" v;
  if String.eqb provider "local" then Some CS.Local
  else if String.eqb provider "akamai" then
    region ← json_text "region" v;
    instance_type ← json_text "instance_type" v;
    image ← json_text "image" v;
    firewall_id ← json_unsigned u64_max "firewall_id" v;
    Some (CS.Akamai region instance_type image firewall_id)
  else None.

Definition ProcessSpec_to_value (spec : ProcessSpec) : json :=
  JObject [("container_image", JString (container_image spec));
           ("server_type", JString (server_type spec)); ("version", JString (version spec));
           ("host_port", JNumber (JInt (host_port spec)));
           ("stop_timeout_seconds", JNumber (JInt (stop_timeout_seconds spec)));
           ("accept_eula", JBool (accept_eula spec));
           ("environment", JObject (map (λ '(k, v), (k, JString v)) (environment spec)))].
Definition ProcessSpec_from_value (v : json) : option ProcessSpec :=
  container_image ← json_text "container_image" v;
  server_type ← json_text "server_type" v;
  version ← json_text "version" v;
  host_port ← json_unsigned u16_max "host_port" v;
  stop_timeout_seconds ← json_unsigned u64_max "stop_timeout_seconds" v;
  accept_eula ← json_boolean "accept_eula" v;
  environment ← json_environment v;
  Some (Build_ProcessSpec container_image server_type version host_port stop_timeout_seconds
          accept_eula environment).

(** [DataBackend]: [#[serde(rename_all = "snake_case")]]. *)
Definition DataBackend_text (b : DataBackend) : string :=
  match b with DB.LocalRestic => "local_restic" | DB.R2Restic => "r2_restic" end.
Definition DataBackend_from_text (text : string) : option DataBackend :=
  if String.eqb text "local_restic" then Some DB.LocalRestic
  else if String.eqb text "r2_restic" then Some DB.R2Restic else None.
Definition DataSpec_to_value (d : DataSpec) : json :=
  JObject [("backend", JString (DataBackend_text (backend d))); ("repository", JString (repository d))].
Definition DataSpec_from_value (v : json) : option DataSpec :=
  backend ← json_text "backend" v ≫= DataBackend_from_text;
  repository ← json_text "repository" v;
  Some {| backend := backend; repository := repository |}.

Definition ServerSpec_to_value (spec : ServerSpec) : json :=
  JObject [("compute", ComputeSpec_to_value (spec_compute spec));
           ("process", ProcessSpec_to_value (spec_process spec));
           ("data", DataSpec_to_value (spec_data spec))].
Definition ServerSpec_from_value (v : json) : option ServerSpec :=
  compute ← json_field "compute" v ≫= ComputeSpec_from_value;
  process ← json_field "process" v ≫= ProcessSpec_from_value;
  data ← json_field "data" v ≫= DataSpec_from_value;
  Some {| spec_compute := compute; spec_process := process; spec_data := data |}.

(** ** Functions of SQLite *)

(** The text of JSON as SQLite reads and writes it. *)
Class SqliteJson := {
  sqlite_parse : string → option json;
  sqlite_print : json → string;
}.

(** [json_extract(v, '$.data.<key>')] and [json_type(v, '$.data.<key>')] are [NULL]
    where there is no such path. *)
Definition data_path (key : string) (v : json) : option json := json_get "data" v ≫= json_get key.

(** [json_set] replaces a field or appends it. *)
Fixpoint set_field (key : string) (value : json) (fields : list (string * json)) : list (string * json) :=
  match fields with
  | [] => [(key, value)]
  | (k, v) :: fields =>
      if String.eqb key k then (k, value) :: fields else (k, v) :: set_field key value fields
  end.
(** [json_set(v, '$.data.backend', backend)]; a path through another value than an object
    changes nothing. *)
Definition json_set_backend (v : json) (backend : string) : json :=
  let data fields := JObject (set_field "backend" (JString backend) fields) in
  match v, json_get "data" v with
  | JObject fields, None => JObject (set_field "data" (data []) fields)
  | JObject fields, Some (JObject old) => JObject (set_field "data" (data old) fields)
  | _, _ => v
  end.

(** [value LIKE 's3:%'], which ignores the case of ASCII letters. *)
Definition like_s3 (s : string) : bool :=
  match s with
  | String a (String b (String c _)) => byte_among "sS" a && byte_is "3" b && byte_is ":" c
  | _ => false
  end.

(** ** Migrations *)

(** The tables of 0001_initial.sql: a server has no [archived_at_ms] yet. *)
Record servers_row_0001 := {
  v1_name : string;
  v1_generation : Z;
  v1_desired_state : string;
  v1_spec_json : string;
  v1_current_snapshot_id : option string;
  v1_next_fencing_token : Z;
  v1_created_at_ms : Z;
  v1_updated_at_ms : Z;
}.
Record database_0001 := {
  v1_servers : gmap string servers_row_0001;
  v1_server_instances : gmap string server_instances_row;
  v1_compute_instances : gmap string compute_instances_row;
  v1_snapshots : gmap (string * string) snapshots_row;
}.

(** 0001_initial.sql on an empty file. *)
Definition migration_0001 : database_0001 :=
  {| v1_servers := ∅; v1_server_instances := ∅; v1_compute_instances := ∅; v1_snapshots := ∅ |}.

(** 0003_server_archive.sql. *)
Definition add_archived (r : servers_row_0001) : servers_row := {|
  sr_name := v1_name r; sr_generation := v1_generation r; sr_desired_state := v1_desired_state r;
  sr_spec_json := v1_spec_json r; sr_current_snapshot_id := v1_current_snapshot_id r;
  sr_archived_at_ms := None; sr_next_fencing_token := v1_next_fencing_token r;
  sr_created_at_ms := v1_created_at_ms r; sr_updated_at_ms := v1_updated_at_ms r |}.
Definition migration_0003 (d : database_0001) : Database := {|
  servers := add_archived <$> v1_servers d; server_instances := v1_server_instances d;
  compute_instances := v1_compute_instances d; snapshots := v1_snapshots d |}.

Section migrations.
Context `{SqliteJson}.

(** [CASE WHEN .. LIKE 's3:%' THEN 'r2_restic' ELSE 'local_restic' END]. *)
Definition chosen_backend (v : json) : string :=
  match data_path "repository" v with
  | Some (JString repository) => if like_s3 repository then "r2_restic" else "local_restic"
  | _ => "local_restic"
  end.
(** [SET .. WHERE json_type(.., '$.data.backend') IS NULL]; text that is not JSON stops
    the statement. *)
Definition migrate_spec (text : string) : option string :=
  v ← sqlite_parse text;
  Some (match data_path "backend" v with
        | None => sqlite_print (json_set_backend v (chosen_backend v))
        | Some _ => text
        end).
Definition set_v1_spec (text : string) (r : servers_row_0001) : servers_row_0001 := {|
  v1_name := v1_name r; v1_generation := v1_generation r; v1_desired_state := v1_desired_state r;
  v1_spec_json := text; v1_current_snapshot_id := v1_current_snapshot_id r;
  v1_next_fencing_token := v1_next_fencing_token r; v1_created_at_ms := v1_created_at_ms r;
  v1_updated_at_ms := v1_updated_at_ms r |}.
Definition set_ir_resolved_spec (text : string) (r : server_instances_row) : server_instances_row := {|
  ir_server_id := ir_server_id r; ir_server_generation := ir_server_generation r;
  ir_resolved_spec_json := text; ir_fencing_token := ir_fencing_token r;
  ir_source_snapshot_id := ir_source_snapshot_id r; ir_data_prepared_at_ms := ir_data_prepared_at_ms r;
  ir_process_running := ir_process_running r; ir_process_observed_at_ms := ir_process_observed_at_ms r;
  ir_result_snapshot_id := ir_result_snapshot_id r; ir_stop_requested_at_ms := ir_stop_requested_at_ms r;
  ir_terminated_at_ms := ir_terminated_at_ms r; ir_terminal_result := ir_terminal_result r;
  ir_last_error := ir_last_error r; ir_created_at_ms := ir_created_at_ms r;
  ir_updated_at_ms := ir_updated_at_ms r |}.

(** An [UPDATE] of every row of a table, which fails as a whole. *)
Definition update_all {R} (text : R → string) (set : string → R → R) (m : gmap string R) :
    result string (gmap string R) :=
  if bool_decide (map_Forall (λ _ r, is_Some (migrate_spec (text r))) m)
  then Ok ((λ r, set (default (text r) (migrate_spec (text r))) r) <$> m)
  else Err "malformed JSON".

(** 0002_data_backend.sql. *)
Definition migration_0002 (d : database_0001) : result string database_0001 :=
  updated ← update_all v1_spec_json set_v1_spec (v1_servers d);
  instances ← update_all ir_resolved_spec_json set_ir_resolved_spec (v1_server_instances d);
  Ok {| v1_servers := updated; v1_server_instances := instances;
        v1_compute_instances := v1_compute_instances d; v1_snapshots := v1_snapshots d |}.

(** A database file, by the migrations it has seen. *)
Inductive stored :=
| Fresh
| Version1 (d : database_0001)
| Version2 (d : database_0001)
| Version3 (db : Database).

(** The next migration, in a transaction of its own. *)
Definition migrate_next (s : stored) : option (result string stored) :=
  match s with
  | Fresh => Some (Ok (Version1 migration_0001))
  | Version1 d => Some (d ← migration_0002 d; Ok (Version2 d))
  | Version2 d => Some (Ok (Version3 (migration_0003 d)))
  | Version3 _ => None
  end.
Fixpoint run_pending (count : nat) (s : stored) : stored * result string unit :=
  match count, migrate_next s with
  | S count, Some (Ok s) => run_pending count s
  | S _, Some (Err error) => (s, Err error)
  | _, _ => (s, Ok tt)
  end.
(** [MIGRATOR.run(&pool)] with its three migrations. *)
Definition run_migrations (s : stored) : stored * result string unit := run_pending 3 s.
End migrations.

(** ** The JSON of a specification is read back *)

(** What the types of the fields guarantee: the width of integers, and a [BTreeMap]'s
    entries in the order of their keys. *)
Definition spec_typed (spec : ServerSpec) : Prop :=
  sql_between 0 u16_max (host_port (spec_process spec)) = true ∧
  sql_between 0 u64_max (stop_timeout_seconds (spec_process spec)) = true ∧
  match spec_compute spec with
  | CS.Local => True
  | CS.Akamai _ _ _ firewall_id => sql_between 0 u64_max firewall_id = true
  end ∧
  StronglySorted (λ a b, String.compare a.1 b.1 = Lt) (environment (spec_process spec)).

Lemma entry_insert_last key value entries :
  Forall (λ e, String.compare e.1 key = Lt) entries →
  entry_insert key value entries = (entries ++ [(key, value)])%list.
Proof.
  induction 1 as [|[k v] entries Hk _ IH]; [done|]. cbn in *.
  rewrite String.compare_antisym, Hk. cbn. by rewrite IH.
Qed.
Lemma insert_sorted_entries done_ entries :
  StronglySorted (λ a b, String.compare a.1 b.1 = Lt) (done_ ++ entries) →
  insert_entries (map (λ '(k, v), (k, JString v)) entries) done_ = Some (done_ ++ entries)%list.
Proof.
  revert done_. induction entries as [|[k v] entries IH]; intros done_ Hs; cbn; [by rewrite app_nil_r|].
  assert (Forall (λ e, String.compare e.1 k = Lt) done_) as Hd.
  { apply Forall_forall. intros e He.
    apply (StronglySorted_app_1_elem_of _ _ _ e (k, v) Hs He). by left. }
  rewrite entry_insert_last, IH by (try done; by rewrite <- app_assoc). by rewrite <- app_assoc.
Qed.

Lemma ComputeSpec_round_trip spec :
  match spec with CS.Local => True | CS.Akamai _ _ _ id => sql_between 0 u64_max id = true end →
  ComputeSpec_from_value (ComputeSpec_to_value spec) = Some spec.
Proof. destruct spec as [|region type image id]; [done|]. intros Hid. cbn. unfold json_unsigned. cbn. by rewrite Hid. Qed.
Lemma ProcessSpec_round_trip spec :
  sql_between 0 u16_max (host_port spec) = true → sql_between 0 u64_max (stop_timeout_seconds spec) = true →
  StronglySorted (λ a b, String.compare a.1 b.1 = Lt) (environment spec) →
  ProcessSpec_from_value (ProcessSpec_to_value spec) = Some spec.
Proof.
  intros Hport Hstop Hsorted. unfold ProcessSpec_from_value, json_unsigned, json_environment. cbn.
  rewrite Hport, Hstop. cbn. rewrite insert_sorted_entries by done. cbn. by destruct spec.
Qed.
Lemma DataSpec_round_trip d : DataSpec_from_value (DataSpec_to_value d) = Some d.
Proof. by destruct d as [[] repo]. Qed.

(** The stored form of a specification is read back as the specification. *)
Theorem specification_round_trip spec :
  spec_typed spec → ServerSpec_from_value (ServerSpec_to_value spec) = Some spec.
Proof.
  intros (Hport & Hstop & Hid & Hsorted). unfold ServerSpec_from_value. cbn -[ProcessSpec_from_value
    ProcessSpec_to_value ComputeSpec_from_value ComputeSpec_to_value].
  rewrite ComputeSpec_round_trip by done. cbn -[ProcessSpec_from_value ProcessSpec_to_value].
  rewrite ProcessSpec_round_trip by done. cbn. destruct spec as [c p [[] repo]]; done.
Qed.

(** ** Upgrades *)

(** Documented behaviour: what SQLite prints is JSON and is read back, [json_valid] text
    can be read, and [serde_json] reads valid text as the same value. *)
Class SqliteJsonLaws `{Codec} `{SqliteJson} : Prop := {
  sqlite_round_trip v : sqlite_parse (sqlite_print v) = Some v;
  sqlite_prints_json v : json_valid (sqlite_print v) = true;
  sqlite_reads_json text : json_valid text = true → is_Some (sqlite_parse text);
  serde_reads_json text v spec : json_valid text = true → sqlite_parse text = Some v →
    ServerSpec_from_value v = Some spec → spec_from_json text = Ok spec;
}.

(** The specification of v0.1, whose data has no backend: the repository tells it. *)
Definition implied_backend (repository : string) : DataBackend :=
  if String.prefix "s3:" repository || String.prefix "S3:" repository then DB.R2Restic else DB.LocalRestic.
Definition ServerSpec_from_value_0001 (v : json) : option ServerSpec :=
  compute ← json_field "compute" v ≫= ComputeSpec_from_value;
  process ← json_field "process" v ≫= ProcessSpec_from_value;
  repository ← json_field "data" v ≫= json_text "repository";
  Some {| spec_compute := compute; spec_process := process;
          spec_data := {| backend := implied_backend repository; repository := repository |} |}.

Lemma like_s3_prefix s : like_s3 s = String.prefix "s3:" s || String.prefix "S3:" s.
Proof.
  unfold like_s3, byte_among, byte_is.
  destruct s as [|a [|b [|c s]]]; cbn -[Ascii.ascii_dec Ascii.eqb];
  repeat match goal with
  | |- context [Ascii.eqb ?x ?y] => destruct (Ascii.eqb_spec x y)
  | |- context [Ascii.ascii_dec ?x ?y] => destruct (Ascii.ascii_dec x y)
  end; subst; try done; try congruence; by destruct s.
Qed.

(** Fields found by [serde] and by SQLite. *)
Lemma json_field_get key v value : json_field key v = Some value → json_get key v = Some value.
Proof.
  destruct v as [| | | | |fields]; try done. cbn. induction fields as [|[k w] fields IH]; [done|].
  cbn. destruct (String.eqb key k); [|done]. by destruct (List.filter _ fields); intros [= ->].
Qed.
Definition named (key : string) (fields : list (string * json)) : list (string * json) :=
  List.filter (λ '(k, _), String.eqb key k) fields.
Lemma get_named key fields : json_get key (JObject fields) = snd <$> head (named key fields).
Proof.
  unfold named. cbn. induction fields as [|[k w] fields IH]; [done|]. cbn. by destruct (String.eqb key k).
Qed.
Lemma set_field_named key key' value fields :
  (length (named key fields) ≤ 1)%nat →
  named key' (set_field key value fields) = if String.eqb key' key then [(key, value)] else named key' fields.
Proof.
  unfold named. induction fields as [|[k w] fields IH]; cbn.
  - by destruct (String.eqb_spec key' key) as [->|]; [|done].
  - destruct (String.eqb_spec key k) as [<-|Hne]; cbn.
    + intros Hl. assert (List.filter (λ '(k, _), String.eqb key k) fields = []) as Hnil.
      { by destruct (List.filter _ fields); [|cbn in Hl; lia]. }
      by destruct (String.eqb_spec key' key) as [->|]; [rewrite Hnil|].
    + intros Hl%IH. rewrite Hl. destruct (String.eqb_spec key' k) as [->|]; [|done].
      by destruct (String.eqb_spec k key) as [->|].
Qed.
Lemma json_field_named key fields value :
  json_field key (JObject fields) = Some value ↔ ∃ k, named key fields = [(k, value)].
Proof.
  cbn. fold (named key fields). destruct (named key fields) as [|[k w] [|]]; naive_solver.
Qed.

(** Setting the backend of a specification that has none. *)
Lemma set_backend_read v repository b :
  json_field "data" v ≫= json_text "repository" = Some repository → data_path "backend" v = None →
  (∀ key, key ≠ "data" → json_field key (json_set_backend v b) = json_field key v) ∧
  ∃ data, json_field "data" (json_set_backend v b) = Some data ∧
    json_text "backend" data = Some b ∧ json_text "repository" data = Some repository.
Proof.
  destruct v as [| | | | |fields]; try done. intros Hrepo Hnone.
  destruct (json_field "data" (JObject fields)) as [data|] eqn:Hdata; [|done]. cbn [mbind option_bind] in Hrepo.
  pose proof (json_field_get _ _ _ Hdata) as Hget. unfold data_path in Hnone. rewrite Hget in Hnone.
  destruct data as [| | | | |old]; try done. unfold json_set_backend. rewrite Hget.
  assert (length (named "data" fields) ≤ 1)%nat as Hd.
  { apply json_field_named in Hdata as [k ->]. cbn. lia. }
  cbn [mbind option_bind] in Hnone. rewrite get_named in Hnone.
  assert (named "backend" old = []) as Hb by (by destruct (named "backend" old)).
  assert (length (named "backend" old) ≤ 1)%nat as Hb1 by (rewrite Hb; cbn; lia). split.
  - intros key Hkey. cbn. fold (named key fields). fold (named key (set_field "data"
      (JObject (set_field "backend" (JString b) old)) fields)).
    rewrite set_field_named by done. by apply String.eqb_neq in Hkey as ->.
  - exists (JObject (set_field "backend" (JString b) old)). split; [|split].
    + apply json_field_named. exists "data". by rewrite set_field_named by done.
    + unfold json_text. replace (json_field _ _) with (Some (JString b)); [done|]. symmetry.
      apply json_field_named. exists "backend". by rewrite set_field_named by done.
    + unfold json_text in *. destruct (json_field "repository" (JObject old)) as [w|] eqn:Hw; [|done].
      apply json_field_named in Hw as [k Hw]. replace (json_field _ _) with (Some w); [done|]. symmetry.
      apply json_field_named. exists k. by rewrite set_field_named by done.
Qed.

Lemma data_path_read v repository :
  json_field "data" v ≫= json_text "repository" = Some repository →
  data_path "repository" v = Some (JString repository).
Proof.
  unfold data_path, json_text. destruct (json_field "data" v) as [d|] eqn:Hd; [|discriminate 1].
  rewrite (json_field_get _ _ _ Hd). cbn [mbind option_bind].
  destruct (json_field "repository" d) as [w|] eqn:Hw; [|discriminate 1].
  rewrite (json_field_get _ _ _ Hw). destruct w; try discriminate 1. by intros [= ->].
Qed.

(** The migration makes the specification explicit that the text meant before. *)
Lemma set_backend_means v spec :
  ServerSpec_from_value_0001 v = Some spec → data_path "backend" v = None →
  ServerSpec_from_value (json_set_backend v (chosen_backend v)) = Some spec.
Proof.
  unfold ServerSpec_from_value_0001. intros Hread Hnone.
  destruct (json_field "compute" v ≫= ComputeSpec_from_value) as [c|] eqn:Hc; [|done].
  destruct (json_field "process" v ≫= ProcessSpec_from_value) as [p|] eqn:Hp; [|done].
  destruct (json_field "data" v ≫= json_text "repository") as [repository|] eqn:Hr; [|done].
  destruct (set_backend_read v repository (chosen_backend v) Hr Hnone) as (Hother & data & Hd & Hb & Hrepo).
  unfold ServerSpec_from_value. rewrite (Hother "compute"), (Hother "process") by done. rewrite Hc. cbn. rewrite Hp. cbn. rewrite Hd. cbn.
  unfold DataSpec_from_value. rewrite Hb, Hrepo. cbn. cbn in Hread. injection Hread as <-.
  unfold chosen_backend, implied_backend. rewrite (data_path_read _ _ Hr), <- like_s3_prefix.
  by destruct (like_s3 repository).
Qed.

(** Rewriting the specifications of all rows. *)
Definition respec (g : string → string) (db : Database) : Database := {|
  servers := (λ r, set_sr_spec_json (g (sr_spec_json r)) r) <$> servers db;
  server_instances := (λ r, set_ir_resolved_spec (g (ir_resolved_spec_json r)) r) <$> server_instances db;
  compute_instances := compute_instances db;
  snapshots := snapshots db |}.

Lemma latest_result_respec g m sid bound snap :
  latest_result m sid bound snap →
  latest_result ((λ r, set_ir_resolved_spec (g (ir_resolved_spec_json r)) r) <$> m) sid bound snap.
Proof.
  apply latest_result_related.
  - intros k x' (x & <- & Hx)%lookup_fmap_Some. exists x. split; [done|]. repeat split; auto.
  - intros k x Hx. eexists. rewrite lookup_fmap, Hx. split; [done|]. repeat split; auto.
Qed.

(** It keeps the invariant when it keeps specifications valid. *)
Lemma db_ok_respec (old new : Codec) g db :
  @uuid_to_string new = @uuid_to_string old → (∀ text, @spec_json_ok old text → @spec_json_ok new (g text)) →
  @db_ok old db → @db_ok new (respec g db).
Proof.
  intros Huuid Hg [ok1 ok2 ok3 ok4 ok5 ok6 ok7 ok8 ok9 ok10 ok11 ok12 ok13 ok14].
  constructor; cbn [respec servers server_instances compute_instances snapshots].
  - intros k r' (r & <- & Hr)%lookup_fmap_Some. destruct (ok1 _ _ Hr). constructor; cbn; rewrite ?Huuid; auto.
  - intros k r' (r & <- & Hr)%lookup_fmap_Some. destruct (ok2 _ _ Hr). constructor; cbn; rewrite ?Huuid; auto.
  - intros k r Hr. destruct (ok3 _ _ Hr). constructor; cbn; rewrite ?Huuid; auto.
  - intros k k' s s' (r & <- & Hr)%lookup_fmap_Some (r' & <- & Hr')%lookup_fmap_Some.
    apply (ok4 _ _ _ _ Hr Hr').
  - intros k i' (i & <- & Hi)%lookup_fmap_Some. destruct (ok5 _ _ Hi) as (s & Hs & Hlt).
    cbn. rewrite lookup_fmap, Hs. by eexists.
  - intros k k' i i' (r & <- & Hr)%lookup_fmap_Some (r' & <- & Hr')%lookup_fmap_Some.
    apply (ok6 _ _ _ _ Hr Hr').
  - intros k k' i i' (r & <- & Hr)%lookup_fmap_Some (r' & <- & Hr')%lookup_fmap_Some.
    apply (ok7 _ _ _ _ Hr Hr').
  - intros k i s (r & <- & Hr)%lookup_fmap_Some Ha (s' & <- & Hs)%lookup_fmap_Some.
    apply (ok8 _ _ _ Hr Ha Hs).
  - intros k c Hc. rewrite lookup_fmap. by apply fmap_is_Some, (ok9 _ _ Hc).
  - done.
  - intros k s (r & <- & Hr)%lookup_fmap_Some. apply latest_result_respec, (ok11 _ _ Hr).
  - intros k i (r & <- & Hr)%lookup_fmap_Some. apply latest_result_respec, (ok12 _ _ Hr).
  - intros k i id (r & <- & Hr)%lookup_fmap_Some Hid. apply (ok13 _ _ _ Hr Hid).
  - intros sid id n Hn. destruct (ok14 _ _ _ Hn) as (i & Hi & Hs & Ht & Hr).
    eexists. rewrite lookup_fmap, Hi. split; [done|]. by cbn.
Qed.

Section upgrade.
Context `{SqliteJsonLaws}.

(** How the text of a specification is meant before 0002: with its backend, or as v0.1
    wrote it. *)
Definition read_0001 (text : string) : option ServerSpec :=
  v ← sqlite_parse text;
  match data_path "backend" v with
  | Some _ => ServerSpec_from_value v
  | None => ServerSpec_from_value_0001 v
  end.
Definition codec_0001 : Codec := {|
  uuid_to_string := uuid_to_string; uuid_parse_str := uuid_parse_str;
  spec_to_json := spec_to_json; json_valid := json_valid;
  spec_from_json text := ok_or "invalid specification" (read_0001 text) |}.

Definition migrated (text : string) : string := default text (migrate_spec text).

Lemma migrated_reads text spec :
  json_valid text = true → read_0001 text = Some spec →
  is_Some (migrate_spec text) ∧ json_valid (migrated text) = true ∧ spec_from_json (migrated text) = Ok spec.
Proof.
  intros Hvalid Hread. unfold migrated, migrate_spec. unfold read_0001 in Hread.
  destruct (sqlite_parse text) as [v|] eqn:Hv; [|discriminate Hread]. cbn [mbind option_bind] in *.
  destruct (data_path "backend" v) as [b|] eqn:Hb; cbn [default].
  - split; [done|]. split; [done|]. by eapply serde_reads_json.
  - split; [done|]. split; [apply sqlite_prints_json|].
    eapply serde_reads_json; [apply sqlite_prints_json|apply sqlite_round_trip|by apply set_backend_means].
Qed.

Lemma migrated_spec_ok text :
  @spec_json_ok codec_0001 text → is_Some (migrate_spec text) ∧ spec_json_ok (migrated text).
Proof.
  intros (Hvalid & spec & Hread & Hv). cbn in Hread. destruct (read_0001 text) as [s|] eqn:Hs; [|done].
  injection Hread as ->. destruct (migrated_reads _ _ Hvalid Hs) as (? & ? & ?). split; [done|]. split; [done|]. eauto.
Qed.

(** [UPDATE] of all rows, when all texts are specifications. *)
Lemma update_all_ok {R} (text : R → string) set (m : gmap string R) :
  (∀ k r, m !! k = Some r → @spec_json_ok codec_0001 (text r)) →
  update_all text set m = Ok ((λ r, set (migrated (text r)) r) <$> m).
Proof.
  intros Hm. unfold update_all. rewrite bool_decide_eq_true_2; [done|].
  intros k r Hr. by apply migrated_spec_ok, (Hm k).
Qed.

(** A database of v0.1 that was valid as v0.1 meant it is upgraded to a valid database of
    this release. *)
Lemma upgrade_0001 d :
  @db_ok codec_0001 (migration_0003 d) →
  ∃ d', migration_0002 d = Ok d' ∧ migration_0003 d' = respec migrated (migration_0003 d) ∧
    db_ok (migration_0003 d').
Proof.
  intros Hok. unfold migration_0002.
  rewrite (update_all_ok v1_spec_json) by (intros k r Hr;
    apply (srw_spec k (add_archived r)), (ok_servers _ Hok); cbn; by rewrite lookup_fmap, Hr).
  cbn [mbind result_bind]. rewrite (update_all_ok ir_resolved_spec_json) by (intros k r Hr; by apply (irw_spec k r), (ok_instances _ Hok)).
  eexists. split; [done|]. match goal with |- ?a = _ ∧ _ => assert (a = respec migrated (migration_0003 d)) as Heq end.
  { unfold migration_0003, respec. cbn. f_equal. rewrite <- !map_fmap_compose. done. }
  split; [done|]. rewrite Heq. apply (db_ok_respec codec_0001 _ migrated); [done| |done].
  apply migrated_spec_ok.
Qed.

Lemma fresh_database : run_migrations Fresh = (Version3 empty_database, Ok tt).
Proof. reflexivity. Qed.

(** A server of v0.1 as a server of this release: every column is the same, but for the
    text of the specification, and it is not archived. *)
Definition server_upgraded (old : servers_row_0001) (spec_json : string) (new : servers_row) : Prop :=
  sr_name new = v1_name old ∧ sr_generation new = v1_generation old ∧
  sr_desired_state new = v1_desired_state old ∧ sr_spec_json new = spec_json ∧
  sr_current_snapshot_id new = v1_current_snapshot_id old ∧ sr_archived_at_ms new = None ∧
  sr_next_fencing_token new = v1_next_fencing_token old ∧
  sr_created_at_ms new = v1_created_at_ms old ∧ sr_updated_at_ms new = v1_updated_at_ms old.
Definition instance_upgraded (old : server_instances_row) (spec_json : string) (new : server_instances_row) :
    Prop :=
  ir_server_id new = ir_server_id old ∧ ir_server_generation new = ir_server_generation old ∧
  ir_resolved_spec_json new = spec_json ∧ ir_fencing_token new = ir_fencing_token old ∧
  ir_source_snapshot_id new = ir_source_snapshot_id old ∧
  ir_data_prepared_at_ms new = ir_data_prepared_at_ms old ∧
  ir_process_running new = ir_process_running old ∧
  ir_process_observed_at_ms new = ir_process_observed_at_ms old ∧
  ir_result_snapshot_id new = ir_result_snapshot_id old ∧
  ir_stop_requested_at_ms new = ir_stop_requested_at_ms old ∧
  ir_terminated_at_ms new = ir_terminated_at_ms old ∧
  ir_terminal_result new = ir_terminal_result old ∧ ir_last_error new = ir_last_error old ∧
  ir_created_at_ms new = ir_created_at_ms old ∧ ir_updated_at_ms new = ir_updated_at_ms old.

(** A database of v0.1 seen as one of this release, with no server archived. *)
Record seen_as (d : database_0001) (db : Database) : Prop := {
  seen_dom : dom (servers db) = dom (v1_servers d);
  seen_servers k r : v1_servers d !! k = Some r →
    ∃ r', servers db !! k = Some r' ∧ server_upgraded r (v1_spec_json r) r';
  seen_instances : server_instances db = v1_server_instances d;
  seen_computes : compute_instances db = v1_compute_instances d;
  seen_snapshots : snapshots db = v1_snapshots d;
}.

Lemma server_upgraded_eq old new : server_upgraded old (v1_spec_json old) new → new = add_archived old.
Proof. destruct new. unfold server_upgraded. cbn. intros (-> & -> & -> & -> & -> & -> & -> & -> & ->). done. Qed.
Lemma seen_as_migrated d db : seen_as d db → db = migration_0003 d.
Proof.
  intros [Hdom Hs Hi Hc Hp]. destruct db as [servers_ instances_ computes_ snapshots_]. cbn in *. subst. unfold migration_0003. f_equal.
  apply map_eq. intros k. rewrite lookup_fmap. destruct (v1_servers d !! k) as [r|] eqn:Hr; cbn.
  - destruct (Hs _ _ Hr) as (r' & -> & ->%server_upgraded_eq). done.
  - apply not_elem_of_dom. rewrite Hdom. by apply not_elem_of_dom.
Qed.
Lemma migrated_seen_as d : seen_as d (migration_0003 d).
Proof.
  constructor; [apply dom_fmap_L| |done..]. intros k r Hr. exists (add_archived r).
  cbn. rewrite lookup_fmap, Hr. by split_and!.
Qed.

(** The rows of a table after the upgrade: the same, but for specifications that are
    read as they were meant. *)
Definition specs_kept {R S} (text : R → string) (upgraded : R → string → S → Prop)
    (old : gmap string R) (new : gmap string S) : Prop :=
  dom new = dom old ∧
  ∀ k r, old !! k = Some r → ∃ t spec r', new !! k = Some r' ∧ upgraded r t r' ∧
    read_0001 (text r) = Some spec ∧ spec_from_json t = Ok spec.

Lemma respec_kept {R S} (text : R → string) (upgraded : R → string → S → Prop) (f : R → S) m :
  (∀ k r, m !! k = Some r → @spec_json_ok codec_0001 (text r)) →
  (∀ r, upgraded r (migrated (text r)) (f r)) → specs_kept text upgraded m (f <$> m).
Proof.
  intros Hm Hf. split; [apply dom_fmap_L|]. intros k r Hr. destruct (Hm _ _ Hr) as (Hvalid & spec & Hread & _).
  cbn in Hread. destruct (read_0001 (text r)) as [s|] eqn:Hs; [|done]. injection Hread as ->.
  destruct (migrated_reads _ _ Hvalid Hs) as (_ & _ & Hspec). exists (migrated (text r)), spec, (f r).
  rewrite lookup_fmap, Hr. done.
Qed.

(** C35. An upgrade keeps everything. Take a database of v0.1 that satisfies the invariant
    of this release when it is seen with no server archived and its specifications are read
    as v0.1 meant them, with the backend left to the repository. It is migrated to a
    database that satisfies the invariant as this release reads it; compute instances and
    snapshots stay as they are, servers and instances keep every column but the text of
    their specification, which is now read as it was meant, and no server is archived.
    Migrations that were interrupted are continued to the same result, and a migrated
    database is left as it is. A new file becomes the empty database. *)
Theorem upgrade_keeps_history d db0 :
  seen_as d db0 → @db_ok codec_0001 db0 →
  ∃ db, run_migrations (Version1 d) = (Version3 db, Ok tt) ∧ db_ok db ∧
    specs_kept v1_spec_json server_upgraded (v1_servers d) (servers db) ∧
    specs_kept ir_resolved_spec_json instance_upgraded (v1_server_instances d) (server_instances db) ∧
    compute_instances db = v1_compute_instances d ∧ snapshots db = v1_snapshots d ∧
    (∀ n, run_migrations (run_pending n (Version1 d)).1 = (Version3 db, Ok tt)) ∧
    run_migrations Fresh = (Version3 empty_database, Ok tt).
Proof.
  intros ->%seen_as_migrated Hok. destruct (upgrade_0001 d Hok) as (d' & Hd & Heq & Hok').
  exists (migration_0003 d').
  assert (∀ n, run_migrations (run_pending n (Version1 d)).1 = (Version3 (migration_0003 d'), Ok tt)) as Hrun.
  { unfold run_migrations. intros [|[|[|n]]]; cbn; rewrite Hd; cbn; by try destruct n. }
  split_and!; [exact (Hrun 0%nat)|done|..|exact Hrun|].
  - rewrite Heq. cbn. rewrite <- map_fmap_compose. apply respec_kept; [|by intros r; split_and!].
    intros k r Hr. apply (srw_spec k (add_archived r)), (ok_servers _ Hok). cbn. by rewrite lookup_fmap, Hr.
  - rewrite Heq. apply respec_kept; [|by intros r; split_and!].
    intros k r Hr. by apply (irw_spec k r), (ok_instances _ Hok).
  - by rewrite Heq.
  - by rewrite Heq.
  - apply fresh_database.
Qed.

(** What the repositories guarantee holds for an upgraded database as well. *)
Corollary upgraded_histories_ok `{!CodecLaws} d db db' :
  @db_ok codec_0001 (migration_0003 d) → run_migrations (Version1 d) = (Version3 db, Ok tt) →
  rtc db_step db db' → db_ok db' ∧ grows db db'.
Proof.
  intros (d' & Hd & _ & Hok)%upgrade_0001 Hrun. unfold run_migrations in Hrun. cbn in Hrun.
  rewrite Hd in Hrun. cbn in Hrun. injection Hrun as <-. by apply steps_safe.
Qed.
End upgrade.

(** ** Example *)

Section example.
Definition bits_sqlite : SqliteJson := {|
  sqlite_parse text := pos_of_bits text ≫= decode;
  sqlite_print v := bits_of_pos (encode v) |}.
Definition json_codec : Codec := {|
  uuid_to_string := @uuid_to_string bits_codec; uuid_parse_str := @uuid_parse_str bits_codec;
  spec_to_json spec := Ok (@sqlite_print bits_sqlite (ServerSpec_to_value spec));
  spec_from_json text :=
    ok_or "invalid specification" (@sqlite_parse bits_sqlite text ≫= ServerSpec_from_value);
  json_valid text := is_some (@sqlite_parse bits_sqlite text) |}.
#[local] Existing Instance json_codec.
#[local] Existing Instance bits_sqlite.

Lemma bits_sqlite_laws : SqliteJsonLaws.
Proof.
  assert (∀ v, pos_of_bits (bits_of_pos (encode (A := json) v)) ≫= decode = Some v) as Hr.
  { intros v. rewrite pos_of_bits_of_pos. cbn. apply decode_encode. }
  constructor; cbn.
  - apply Hr.
  - intros v. by rewrite Hr.
  - intros text. destruct (pos_of_bits text ≫= decode); [by eexists|discriminate 1].
  - intros text v spec _ -> Hs. cbn. by rewrite Hs.
Qed.
#[local] Existing Instance bits_sqlite_laws.

(** A server of v0.1. *)
Definition legacy_value : json :=
  JObject [("compute", JObject [("provider", JString "local")]);
           ("process", JObject [("container_image", JString "itzg"); ("server_type", JString "PAPER");
              ("version", JString "1.21"); ("host_port", JNumber (JInt 25565));
              ("stop_timeout_seconds", JNumber (JInt 60)); ("accept_eula", JBool true)]);
           ("data", JObject [("repository", JString "s3:https://r2/b/s")])].
Definition legacy_row : servers_row_0001 := {|
  v1_name := "alpha"; v1_generation := 1; v1_desired_state := "running";
  v1_spec_json := sqlite_print legacy_value; v1_current_snapshot_id := None;
  v1_next_fencing_token := 1; v1_created_at_ms := 10; v1_updated_at_ms := 20 |}.
Definition legacy_key : string := uuid_to_string 7%N.
Definition legacy_database : database_0001 := {|
  v1_servers := {[legacy_key := legacy_row]}; v1_server_instances := ∅;
  v1_compute_instances := ∅; v1_snapshots := ∅ |}.

Lemma legacy_row_wf : @server_row_wf codec_0001 legacy_key (add_archived legacy_row).
Proof.
  constructor; cbn -[sqlite_print]; try (by intros); try lia.
  - by exists 7%N.
  - by apply ServerName_new_ok.
  - by exists DS.Running.
  - split; [by vm_compute|]. eexists. split; [by vm_compute|by vm_compute].
Qed.
Lemma legacy_database_ok : @db_ok codec_0001 (migration_0003 legacy_database).
Proof.
  assert (servers (migration_0003 legacy_database) = {[legacy_key := add_archived legacy_row]}) as Hs
    by apply map_fmap_singleton.
  constructor; try (cbn; intros; by rewrite lookup_empty in *); rewrite ?Hs.
  - apply map_Forall_singleton, legacy_row_wf.
  - apply map_Forall_empty.
  - apply map_Forall_empty.
  - intros k k' s s' [<- _]%lookup_singleton_Some [<- _]%lookup_singleton_Some. done.
  - intros k s [<- <-]%lookup_singleton_Some. cbn. intros k i Hi. by rewrite lookup_empty in Hi.
Qed.

Lemma upgrade_keeps_history_witness :
  ∃ db text spec row, run_migrations (Version1 legacy_database) = (Version3 db, Ok tt) ∧
    servers db !! legacy_key = Some row ∧ server_upgraded legacy_row text row ∧
    spec_from_json text = Ok spec ∧ backend (spec_data spec) = DB.R2Restic.
Proof.
  destruct (upgrade_keeps_history legacy_database (migration_0003 legacy_database)
    (migrated_seen_as legacy_database) legacy_database_ok) as (db & Hrun & _ & [_ Hkept] & _).
  destruct (Hkept legacy_key legacy_row) as (text & spec & row & Hnew & Hrow & Hread & Htext).
  { apply lookup_singleton_eq. }
  exists db, text, spec, row. split; [exact Hrun|]. split; [exact Hnew|]. split; [exact Hrow|].
  split; [exact Htext|].
  assert (backend ∘ spec_data <$> read_0001 (v1_spec_json legacy_row) = Some DB.R2Restic)
    as Hb by by vm_compute.
  rewrite Hread in Hb. by injection Hb.
Defined.
End example.
