(* ===== verification/PersistenceProperties.v ===== *)
(** What the repositories promise in every state a new installation can reach. *)
From S2P Require Import Prelude Text Server ServerFacts Instances InstanceFacts Database RowFacts.
From S2P Require Import Repositories ComputeRepository Invariant RepositoryFacts LifecycleFacts.
From S2P Require Import ComputeFacts Persistence Codecs.
#[local] Open Scope string_scope.
#[local] Open Scope Z_scope.

(** ** Sequences of writes *)

Section sequences.
Context `{CodecLaws}.

Definition run_writes (ws : list write) (db : Database) : Database :=
  fold_left (λ db w, (run_write w db).2) ws db.

Fixpoint writes_pre (db : Database) (ws : list write) : Prop :=
  match ws with
  | [] => True
  | w :: ws' => write_pre db w ∧ writes_pre (run_write w db).2 ws'
  end.

Lemma run_writes_steps db ws : writes_pre db ws → rtc db_step db (run_writes ws db).
Proof.
  revert db. induction ws as [|w ws IH]; intros db; [reflexivity|].
  intros [Hw Hws]. eapply rtc_l; [by exists w|]. apply IH. done.
Qed.

(** ** Reading single rows *)

Lemma find_row_unique {R} (p : string → R → bool) (m : gmap string R) k r :
  m !! k = Some r → p k r = true →
  (∀ k' r', m !! k' = Some r' → p k' r' = true → k' = k) → find_row p m = Some (k, r).
Proof.
  intros Hr Hp Hu. unfold find_row.
  destruct (List.find _ _) as [[k' r']|] eqn:E.
  - apply find_some in E as [Hin Hp']. apply list_elem_of_In, elem_of_map_to_list in Hin.
    pose proof (Hu _ _ Hin Hp') as ->. congruence.
  - exfalso. assert (Hin : In (k, r) (map_to_list m))
      by (by apply list_elem_of_In, elem_of_map_to_list).
    pose proof (find_none _ _ E _ Hin) as Hf. cbn in Hf. congruence.
Qed.

Lemma find_row_none {R} (p : string → R → bool) (m : gmap string R) :
  exists_row p m = false → find_row p m = None.
Proof.
  intros He. unfold find_row. destruct (List.find _ _) as [[k r]|] eqn:E; [|done].
  apply find_some in E as [Hin Hp]. apply list_elem_of_In, elem_of_map_to_list in Hin.
  by rewrite (exists_row_false _ _ _ _ He Hin) in Hp.
Qed.
End sequences.

(** ** An example history *)

Section example.
#[local] Existing Instance bits_codec.
#[local] Existing Instance bits_codec_laws.

Definition example_running : Server := (Server_set_desired_state example_server DS.Running 2000).2.
Definition example_setup : list write :=
  [WCreateServer example_server; WUpdateDesiredState example_running 1].
Definition example_launch : list write :=
  [WCreateInstance 7%N 11%N 3000; WMarkDataPrepared 11%N 4000;
   WCreateCompute 13%N 11%N CP.Akamai "token" (Some "enroll") 5000].
Definition example_stopped_db : Database := run_writes example_setup empty_database.
Definition example_db : Database := run_writes example_launch example_stopped_db.

(** Row comparisons as a boolean, to evaluate preconditions. *)
Lemma row_created_le (m : gmap string servers_row) key t :
  match m !! key with Some r => sr_created_at_ms r <=? t | None => true end = true →
  ∀ r, m !! key = Some r → sr_created_at_ms r ≤ t.
Proof. intros Hb r Hr. rewrite Hr in Hb. bz. done. Qed.

Lemma example_stopped_reachable : reachable example_stopped_db.
Proof.
  apply run_writes_steps. split; [split_and!; [exact example_server_wf|done|done]|].
  split; [|done]. split; [|done]. split_and!; try done.
  apply row_created_le. vm_compute. reflexivity.
Qed.

Lemma example_launched : rtc db_step example_stopped_db example_db.
Proof.
  apply run_writes_steps. split; [done|]. split; [done|]. split; [|done].
  split_and!; [done|split_and!; [vm_compute; reflexivity|done|vm_compute; reflexivity]|].
  intros x [= <-]. split; [|done]. split_and!; [vm_compute; reflexivity|done|vm_compute; reflexivity].
Qed.

Lemma example_reachable : reachable example_db.
Proof. unfold reachable. etransitivity; [apply example_stopped_reachable|apply example_launched]. Qed.
End example.

(** ** Properties *)

Section properties.
Context `{CodecLaws}.

(** In every reachable database each row passes the [CHECK] constraints of
    its table and decodes: the validation of [rehydrate], run on every read,
    never rejects a row the control plane has written. *)
Theorem reachable_rows_decode db :
  reachable db →
  (∀ k r, servers db !! k = Some r →
     servers_check r = true ∧ ∃ s, decode_server k r = Ok s) ∧
  (∀ k r, server_instances db !! k = Some r →
     server_instances_check r = true ∧ ∃ i, decode_instance k r = Ok i) ∧
  (∀ k r, compute_instances db !! k = Some r →
     compute_instances_check r = true ∧ ∃ c, decode_compute_instance k r = Ok c).
Proof.
  intros Hok%reachable_ok. split_and!; intros k r Hr.
  - pose proof (ok_servers _ Hok _ _ Hr) as Hwf. split; [by eapply server_row_wf_check|].
    destruct (srw_id _ _ Hwf) as [u ->]. destruct (server_row_wf_decode _ _ Hwf) as (? & ? & _ & _ & ?).
    eauto.
  - pose proof (ok_instances _ Hok _ _ Hr) as Hwf. split; [by eapply instance_row_wf_check|].
    destruct (irw_id _ _ Hwf) as [u ->].
    destruct (instance_row_wf_decode _ _ Hwf) as (? & ? & ? & _ & _ & _ & ?). eauto.
  - pose proof (ok_computes _ Hok _ _ Hr) as Hwf. split; [by eapply compute_row_wf_check|].
    destruct (crw_id _ _ Hwf) as [u ->].
    destruct (compute_row_wf_decode _ _ Hwf) as (? & ? & ? & _ & _ & _ & ?). eauto.
Qed.


(** C5. In every reachable database a server has at most one active instance,
    that instance carries the largest fencing token ever given out for the
    server, no two instances of a server share a token, an archived server has
    no active instance, and a server instance has at most one active compute
    instance. *)
Theorem single_active_instance db :
  reachable db →
  (∀ k k' i i', server_instances db !! k = Some i → server_instances db !! k' = Some i' →
     ir_server_id i = ir_server_id i' →
     (ir_terminated_at_ms i = None → ir_fencing_token i' ≤ ir_fencing_token i) ∧
     (ir_fencing_token i = ir_fencing_token i' → k = k') ∧
     (ir_terminated_at_ms i = None → ir_terminated_at_ms i' = None → k = k')) ∧
  (∀ k i s, server_instances db !! k = Some i → servers db !! ir_server_id i = Some s →
     is_Some (sr_archived_at_ms s) → is_Some (ir_terminated_at_ms i)) ∧
  (∀ k k' c c', compute_instances db !! k = Some c → compute_instances db !! k' = Some c' →
     cr_server_instance_id c = cr_server_instance_id c' →
     cr_terminated_at_ms c = None → cr_terminated_at_ms c' = None → k = k').
Proof.
  intros Hok%reachable_ok. split_and!.
  - intros k k' i i' Hi Hi' Hs. split_and!.
    + by apply (ok_active_newest _ Hok k k').
    + by apply (ok_tokens _ Hok k k' i i').
    + by apply (one_active_instance db k k' i i').
  - intros k i s Hi Hs [t Ht]. destruct (ir_terminated_at_ms i) eqn:E; [done|].
    rewrite (ok_archived _ Hok _ _ _ Hi E Hs) in Ht. done.
  - apply (ok_one_compute _ Hok).
Qed.

(** C6. Snapshots form one line per server, with no lost update: a server's
    current snapshot is the one published by its newest publishing instance,
    and the snapshot an instance started from is the one published by the
    newest publishing instance before it. *)
Theorem snapshot_lineage db :
  reachable db →
  (∀ k s, servers db !! k = Some s →
     latest_result (server_instances db) k (sr_next_fencing_token s) (sr_current_snapshot_id s)) ∧
  (∀ k i, server_instances db !! k = Some i →
     latest_result (server_instances db) (ir_server_id i) (ir_fencing_token i)
       (ir_source_snapshot_id i)) ∧
  (∀ k i id, server_instances db !! k = Some i → ir_result_snapshot_id i = Some id →
     ∃ n, snapshots db !! (ir_server_id i, id) = Some n ∧ nr_server_instance_id n = k ∧
       nr_fencing_token n = ir_fencing_token i).
Proof.
  intros Hok%reachable_ok. split_and!.
  - apply (ok_current _ Hok).
  - apply (ok_source _ Hok).
  - apply (ok_published _ Hok).
Qed.

(** C4. [SnapshotRepository::commit] is fenced and atomic. It answers
    [Ok(true)] exactly for a valid snapshot id that is new for the server,
    published by an active instance that shows its own fencing token and has
    not published before; the snapshot, the instance's result and the server's
    current snapshot then change together. Every other answer leaves the
    database untouched, and repeating a successful commit answers
    [Ok(false)]. *)
Theorem commit_is_fenced_and_atomic db iid token snap now r db' :
  reachable db → 0 ≤ now → SnapshotRepository_commit iid token snap now db = (r, db') →
  let ikey := uuid_to_string iid in
  (r = Ok true ↔
     snapshot_id_ok snap ∧ ∃ i, server_instances db !! ikey = Some i ∧
       ir_fencing_token i = token ∧ ir_terminated_at_ms i = None ∧
       ir_result_snapshot_id i = None ∧ snapshots db !! (ir_server_id i, snap) = None) ∧
  (r ≠ Ok true → db' = db) ∧
  (r = Ok true → ∃ i s, server_instances db !! ikey = Some i ∧
     servers db !! ir_server_id i = Some s ∧
     db' = with_snapshot db ikey i s snap
             (Z.max (Z.max now (ir_updated_at_ms i)) (sr_updated_at_ms s)) ∧
     (SnapshotRepository_commit iid token snap now db').1 = Ok false).
Proof.
  intros Hok%reachable_ok Hn E ikey.
  destruct (decide (str_is_blank snap || str_contains_nul snap
    || (MAX_SNAPSHOT_ID_CHARS <? str_char_count snap) = false)) as [Hid|Hid].
  2: { rewrite snapshot_checks_ok in Hid. rewrite commit_invalid_id in E by done. simplify_eq.
       split_and!; try done. split; [done|]. by intros [? _]. }
  apply snapshot_checks_ok in Hid.
  pose proof (commit_cases db iid token snap now Hok Hn Hid) as Hc. cbv zeta in Hc. fold ikey in Hc.
  destruct (commit_refusal db ikey token snap) as [x|] eqn:Er.
  - rewrite Hc in E. simplify_eq.
    assert (Hnt : r ≠ Ok true).
    { intros ->. revert Er. unfold commit_refusal. repeat case_match; congruence. }
    split_and!; try done. split; [done|]. intros (_ & i & Hi & <- & Ha & Hr & Hs). exfalso.
    pose proof (irw_token _ _ (ok_instances _ Hok _ _ Hi)) as [? ?].
    unfold commit_refusal in Er. rewrite Hi in Er.
    rewrite (proj2 (positive_u64_to_i64_ok _ (ir_fencing_token i))) in Er by lia.
    rewrite Z.eqb_refl, Ha, Hr, Hs in Er. done.
  - destruct Hc as (i & s & Hi & Ht & Ha & Hr & Hs & Hsn & Hcm). rewrite Hcm in E. simplify_eq.
    split_and!; [naive_solver|done|]. intros _. exists i, s. split_and!; try done.
    set (db' := with_snapshot _ _ _ _ _ _).
    assert (Hok' : db_ok db') by (by apply db_ok_with_snapshot).
    pose proof (commit_cases db' iid (ir_fencing_token i) snap now Hok' Hn Hid) as Hc.
    cbv zeta in Hc. fold ikey in Hc. unfold commit_refusal in Hc.
    unfold db' in Hc at 1. cbn [server_instances with_snapshot] in Hc.
    rewrite lookup_insert, decide_True in Hc by done.
    pose proof (irw_token _ _ (ok_instances _ Hok _ _ Hi)) as [? ?].
    rewrite (proj2 (positive_u64_to_i64_ok _ (ir_fencing_token i))) in Hc by lia.
    cbn in Hc. rewrite Z.eqb_refl, Ha, String.eqb_refl in Hc. cbn in Hc. by rewrite Hc.
Qed.

(** [create_for_running_server] creates an instance only for a server that
    wants to run and has no active instance, and then returns it: it carries
    the server's specification, generation and current snapshot, and a fencing
    token larger than every token given out for the server before. When it
    creates nothing the database does not change. *)
Theorem create_instance_is_fenced db sid iid now r db' :
  reachable db → 0 ≤ now →
  ServerInstanceRepository_create_for_running_server sid iid now db = (r, db') →
  (∀ o, r ≠ Ok (Some o)) ∧ db' = db ∨
  (∃ inst s, r = Ok (Some inst) ∧ servers db !! uuid_to_string sid = Some s ∧
     sr_desired_state s = "running" ∧
     exists_row (is_active_for_server (uuid_to_string sid)) (server_instances db) = false ∧
     si_id inst = iid ∧ si_server_id inst = sid ∧
     si_server_generation inst = sr_generation s ∧
     spec_from_json (sr_spec_json s) = Ok (si_resolved_spec inst) ∧
     si_source_snapshot_id inst = sr_current_snapshot_id s ∧
     si_fencing_token inst = sr_next_fencing_token s ∧
     (∀ k i, server_instances db !! k = Some i → ir_server_id i = uuid_to_string sid →
        ir_fencing_token i < si_fencing_token inst) ∧
     server_instances db' = <[uuid_to_string iid := new_instance_row (uuid_to_string sid) s
        (si_created_at inst)]> (server_instances db)).
Proof.
  intros Hok%reachable_ok Hn E.
  destruct (create_instance_spec db sid iid now Hok Hn) as (x & db1 & Ec & Hok1 & Hcases).
  unfold ServerInstanceRepository_create_for_running_server in E. rewrite run_bind, Ec in E.
  destruct Hcases as [(-> & -> & _)|[(e & -> & -> & _)|(-> & s & Hs & Hrun & Hact & Hi & ->)]].
  - left. cbv [mret repo_ret] in E. simplify_eq. split; [by intros o|done].
  - left. simplify_eq. split; [by intros o|done].
  - right. set (time := Z.max now _) in *.
    assert (Hrow : instance_row_wf (uuid_to_string iid)
              (new_instance_row (uuid_to_string sid) s time)).
    { apply (ok_instances _ Hok1). cbn. by rewrite lookup_insert, decide_True. }
    destruct (instance_row_wf_decode iid _ Hrow) as (sid' & spec & res & Esid & Hspec & _ & Hd).
    cbn in Esid. apply uuid_to_string_inj in Esid as <-.
    unfold ServerInstanceRepository_get in E. rewrite run_bind in E.
    unfold query, lift, decode_optional in E. cbn [server_instances with_new_instance
      set_servers set_server_instances] in E.
    rewrite lookup_insert, decide_True in E by done.
    cbn [fmap option_fmap option_map transpose_map] in E. rewrite Hd in E. cbn in E.
    simplify_eq. do 2 eexists. split; [done|]. cbn. split_and!; try done.
    intros k i Hk Ek. destruct (ok_instance_server _ Hok _ _ Hk) as (s' & Hs' & ?).
    rewrite Ek, Hs in Hs'. by simplify_eq.
Qed.

(** History is permanent: along every sequence of writes, servers keep
    their names and creation times and their generations and next tokens never
    decrease; instances keep their server, specification, token and source; a
    published snapshot, a first data preparation and a first stop request stay
    as they are; a recorded certificate signing request and its certificate
    stay; an archived server, a terminated instance and a terminated compute
    instance never change again; and no row is deleted. *)
Theorem history_is_permanent db db' : reachable db → rtc db_step db db' → grows db db'.
Proof. intros Hok%reachable_ok Hs. by eapply steps_safe. Qed.

(** A server's name can never be taken again: once a server has it, every
    later [create] of a server with that name is refused with a conflict and
    changes nothing, archived or not. *)
Theorem names_are_never_reused db db' key row s :
  reachable db → rtc db_step db db' → servers db !! key = Some row →
  Server_wf s → srv_current_snapshot_id s = None → srv_generation s ≤ i64_max →
  srv_name s = sr_name row →
  ServerRepository_create s db' = (Err (RE.Conflict "server name already exists"), db').
Proof.
  intros Hok%reachable_ok Hs Hk Hwf Hsn Hg Hname.
  destruct (steps_safe _ _ Hok Hs) as [Hok' [Gs _ _ _]].
  destruct (Gs _ _ Hk) as (row' & Hk' & En & _).
  destruct (create_server_spec db' s Hok' Hwf Hsn Hg) as (json & _ & [[E _]|(_ & _ & Hfree & _)]);
    [done|].
  exfalso. apply (Hfree _ _ Hk'). congruence.
Qed.

(** The row is the one the caller read, is not archived, and satisfies [P]. *)
Definition current_row (db : Database) (key : string) (previous : Z) (P : servers_row → Prop) :
    Prop :=
  ∃ r, servers db !! key = Some r ∧ sr_generation r = previous ∧ sr_archived_at_ms r = None ∧ P r.

Lemma server_updated_iff db key cond (P : servers_row → Prop) previous set b db' :
  (∀ r, cond r = true ↔ sr_generation r = previous ∧ sr_archived_at_ms r = None ∧ P r) →
  server_updated db key cond set b db' →
  (b = true ↔ current_row db key previous P) ∧ (b = false → db' = db).
Proof.
  intros Hc [_ Hu]. destruct b.
  - destruct Hu as (r & Hr & Hcr & ->). split; [|done]. split; [|done].
    intros _. exists r. by rewrite <- Hc.
  - destruct Hu as [-> Hf]. split; [|done]. split; [done|].
    intros (r & Hr & HP%Hc). by rewrite (Hf r Hr) in HP.
Qed.

(** The three updates of a server are compare-and-swap on the generation:
    [update_desired_state] changes the row exactly when its generation is the
    one the caller read and the server is not archived; [update_spec] asks in
    addition that the server be stopped; [archive] asks in addition that it
    have no active instance. Otherwise they answer [Ok(false)] and nothing
    changes. *)
Theorem updates_compare_and_swap db s previous :
  reachable db → writable db s previous → ServerSpec_validate (srv_spec s) = Ok tt →
  (∀ r, servers db !! uuid_to_string (srv_id s) = Some r →
     ∀ t, srv_archived_at s = Some t → sr_created_at_ms r ≤ t ≤ srv_updated_at s) →
  let key := uuid_to_string (srv_id s) in
  let stopped r := sr_desired_state r = "stopped" in
  let idle := exists_row (is_active_for_server key) (server_instances db) = false in
  (∃ b db', ServerRepository_update_desired_state s previous db = (Ok b, db') ∧
     (b = true ↔ current_row db key previous (λ _, True)) ∧ (b = false → db' = db)) ∧
  (∃ b db', ServerRepository_update_spec s previous db = (Ok b, db') ∧
     (b = true ↔ current_row db key previous stopped) ∧ (b = false → db' = db)) ∧
  (is_Some (srv_archived_at s) →
   ∃ b db', ServerRepository_archive s previous db = (Ok b, db') ∧
     (b = true ↔ current_row db key previous (λ r, stopped r ∧ idle)) ∧ (b = false → db' = db)).
Proof.
  intros Hok%reachable_ok Hw Hv Ht key stopped idle. split_and!.
  - destruct (update_desired_state_spec db s previous Hok Hw) as (b & db' & E & Hu).
    exists b, db'. split; [done|]. eapply server_updated_iff; [|exact Hu]. intros r. cbv beta.
    rewrite andb_true_iff, Z.eqb_eq, is_none_true. tauto.
  - destruct (update_spec_spec db s previous Hok Hw Hv) as (json & b & db' & _ & E & Hu).
    exists b, db'. split; [done|]. eapply server_updated_iff; [|exact Hu]. intros r. cbv beta.
    rewrite !andb_true_iff, Z.eqb_eq, is_none_true, String.eqb_eq. unfold stopped. tauto.
  - intros [t Ha].
    destruct (archive_spec db s previous t Hok Hw Ha (λ r Hr, Ht r Hr t Ha)) as (b & db' & E & Hu).
    exists b, db'. split; [done|]. eapply server_updated_iff; [|exact Hu]. intros r. cbv beta.
    rewrite !andb_true_iff, Z.eqb_eq, is_none_true, String.eqb_eq, negb_true_iff.
    unfold stopped, idle, key. tauto.
Qed.

(** Enrollment of a cloud agent is one-time. An agent is accepted only if
    it presents the connection token and the certificate recorded for an
    active Akamai compute instance, before the certificate expires; from then
    on, in every later state, no enrollment token opens that compute
    instance's enrollment again and no certificate can be recorded for it. *)
Theorem enrollment_is_one_time db db1 db2 id token der now t c :
  reachable db → 0 ≤ now →
  ComputeInstanceRepository_authenticate_agent id CP.Akamai token (Some der) now db =
    (Ok AA.Accepted, db1) →
  rtc db_step db1 db2 →
  (∃ r expires, compute_instances db !! uuid_to_string id = Some r ∧
     cr_provider r = "akamai" ∧ cr_connection_token r = token ∧
     cr_agent_certificate_der r = Some der ∧
     cr_agent_certificate_expires_at_ms r = Some expires ∧ now < expires ∧
     cr_terminated_at_ms r = None) ∧
  ComputeInstanceRepository_get_agent_enrollment id t db2 = (Ok None, db2) ∧
  ComputeInstanceRepository_record_agent_certificate id t c db2 = (Ok false, db2).
Proof.
  intros Hok%reachable_ok Hn E Hs.
  destruct (authenticate_akamai_spec db id token der now Hok Hn) as (b & db1' & E' & Hu).
  rewrite E in E'. destruct b; [|done]. injection E' as <-.
  destruct Hu as (Hok1 & r & Hr & Hc & ->). inv_res. split.
  { unfold sql_eq in *. destruct (cr_agent_certificate_der r) as [d|] eqn:Ed; [|done].
    destruct (cr_agent_certificate_expires_at_ms r) as [x|] eqn:Ex; [|done].
    cbn [is_some_and] in *. exists r, x. rewrite !String.eqb_eq in *. bz. subst d.
    split_and!; try done; [by apply cr_provider_is_true|by apply cr_is_active_true]. }
  destruct (steps_safe _ _ Hok1 Hs) as [_ [_ _ Gc _]].
  destruct (Gc (uuid_to_string id) (set_cr_enrollment_token None
    (set_cr_agent_connected_at_ms (Some (cr_connected now r))
      (set_cr_failure_message None (set_cr_updated_at_ms (cr_touch now r) r)))))
    as (r2 & Hr2 & _ & _ & _ & He & _).
  { cbn. by rewrite lookup_insert, decide_True. }
  assert (Hnone : cr_enrollment_token r2 = None) by (destruct He as [He|He]; by rewrite He).
  split.
  - unfold ComputeInstanceRepository_get_agent_enrollment. rewrite run_bind. unfold query.
    rewrite Hr2. change (Some r2 ≫= ?f) with (f r2). cbv beta. rewrite Hnone. cbn.
    by rewrite andb_false_r.
  - unfold ComputeInstanceRepository_record_agent_certificate.
    rewrite (run_execute _ _ _ 0 db2); [done|].
    unfold update_compute_instances. rewrite Hr2, Hnone. cbn. by rewrite andb_false_r.
Qed.

Lemma DesiredState_as_str_inj d d' : DesiredState_as_str d = DesiredState_as_str d' → d = d'.
Proof. by destruct d, d'. Qed.

(** What is created is what is read: after a successful [create], both
    [get] by id and [get_by_name] return exactly the created server, in every
    field. *)
Theorem create_get_round_trip db s db' :
  reachable db → Server_wf s → srv_current_snapshot_id s = None → srv_generation s ≤ i64_max →
  ServerRepository_create s db = (Ok tt, db') →
  ServerRepository_get (srv_id s) db' = (Ok (Some s), db') ∧
  ServerRepository_get_by_name (srv_name s) db' = (Ok (Some s), db').
Proof.
  intros Hok%reachable_ok Hwf Hsn Hg E.
  destruct (create_server_spec db s Hok Hwf Hsn Hg) as (json & Hj & [[E' _]|(E' & Hk & Hf & Hok')]);
    rewrite E in E'; [done|]. injection E' as ->.
  set (key := uuid_to_string (srv_id s)) in *. set (row := servers_row_of s _ json) in *.
  assert (Hrow : server_row_wf key row).
  { apply (ok_servers _ Hok'). cbn. by rewrite lookup_insert, decide_True. }
  destruct (server_row_wf_decode _ _ Hrow) as (spec & d & Hspec & Hd & Hdec).
  apply DesiredState_as_str_inj in Hd as <-.
  assert (spec = srv_spec s) as ->.
  { destruct (spec_round_trip (srv_spec s)) as (j & Hj' & Hfj & _).
    rewrite Hj in Hj'. injection Hj' as <-. cbn in Hspec. congruence. }
  assert (Hds : decode_server key row = Ok s) by (etransitivity; [exact Hdec|by destruct s]).
  split.
  - unfold ServerRepository_get. rewrite run_bind. unfold query, lift, decode_optional.
    fold key. cbn [servers set_servers]. rewrite lookup_insert, decide_True by done.
    cbn [fmap option_fmap option_map transpose_map]. by rewrite Hds.
  - unfold ServerRepository_get_by_name. rewrite run_bind. unfold query, lift, decode_optional.
    rewrite (find_row_unique _ _ key row); [cbn [transpose_map]; by rewrite Hds|..].
    + cbn. by rewrite lookup_insert, decide_True.
    + apply String.eqb_refl.
    + cbn. intros k r. rewrite lookup_insert_Some. intros [[<- _]|[_ Hr]] En; [done|].
      apply String.eqb_eq in En. by destruct (Hf _ _ Hr).
Qed.
End properties.

(** ** The properties on the example history *)

Section witnesses.
#[local] Existing Instance bits_codec.
#[local] Existing Instance bits_codec_laws.

Definition example_key (u : Uuid) : string := uuid_to_string u.

(** Which keys the examples hold, without evaluating their rows. *)
Lemma example_server_present : is_some (servers example_db !! example_key 7%N) = true.
Proof. vm_compute. reflexivity. Qed.
Lemma example_instance_present : is_some (server_instances example_db !! example_key 11%N) = true.
Proof. vm_compute. reflexivity. Qed.

Lemma reachable_rows_decode_witness :
  servers_check <$> servers example_db !! example_key 7%N = Some true ∧
  server_instances_check <$> server_instances example_db !! example_key 11%N = Some true.
Proof.
  destruct (reachable_rows_decode example_db example_reachable) as (Hs & Hi & _). split.
  - pose proof example_server_present as Hp.
    destruct (servers example_db !! example_key 7%N) eqn:E; [|discriminate Hp].
    cbn [fmap option_fmap option_map]. f_equal. apply (Hs _ _ E).
  - pose proof example_instance_present as Hp.
    destruct (server_instances example_db !! example_key 11%N) eqn:E; [|discriminate Hp].
    cbn [fmap option_fmap option_map]. f_equal. apply (Hi _ _ E).
Defined.


Lemma single_active_instance_witness :
  is_Some (server_instances example_db !! example_key 11%N) ∧
  ∀ k i, server_instances example_db !! k = Some i → ir_terminated_at_ms i = None →
    ∀ j, server_instances example_db !! example_key 11%N = Some j →
      ir_server_id i = ir_server_id j → ir_terminated_at_ms j = None → k = example_key 11%N.
Proof.
  split; [apply is_some_true, example_instance_present|]. intros k i Hi Ha j Hj Hs Hb.
  destruct (single_active_instance example_db example_reachable) as (H & _).
  by apply (H k (example_key 11%N) i j).
Defined.

Lemma snapshot_lineage_witness :
  ∃ s, servers example_db !! example_key 7%N = Some s ∧
  latest_result (server_instances example_db) (example_key 7%N) (sr_next_fencing_token s)
    (sr_current_snapshot_id s).
Proof.
  destruct (snapshot_lineage example_db example_reachable) as (H & _).
  pose proof example_server_present as Hp.
  destruct (servers example_db !! example_key 7%N) as [s|] eqn:E; [|discriminate Hp].
  exists s. split; [done|]. apply (H _ _ E).
Defined.

Lemma commit_is_fenced_and_atomic_witness :
  (SnapshotRepository_commit 11%N 1 "snap-1" 9000 example_db).1 = Ok true ∧
  (SnapshotRepository_commit 11%N 2 "snap-1" 9000 example_db).2 = example_db.
Proof.
  split; [vm_compute; reflexivity|].
  destruct (SnapshotRepository_commit 11%N 2 "snap-1" 9000 example_db) as [r db'] eqn:E.
  apply (commit_is_fenced_and_atomic example_db 11%N 2 "snap-1" 9000 r db' example_reachable
    ltac:(lia) E).
  intros ->. apply (f_equal fst) in E. vm_compute in E. discriminate.
Defined.

Lemma create_instance_is_fenced_witness :
  ∃ inst, (ServerInstanceRepository_create_for_running_server 7%N 11%N 3000
             example_stopped_db).1 = Ok (Some inst) ∧ si_fencing_token inst = 1.
Proof.
  destruct (ServerInstanceRepository_create_for_running_server 7%N 11%N 3000 example_stopped_db)
    as [r db'] eqn:E.
  destruct (create_instance_is_fenced example_stopped_db 7%N 11%N 3000 r db'
    example_stopped_reachable ltac:(lia) E) as [[Hno _]|(inst & s & -> & _)].
  - exfalso. apply (f_equal fst) in E. vm_compute in E. subst r. by eapply Hno.
  - exists inst. split; [done|]. apply (f_equal fst) in E. vm_compute in E. by injection E as <-.
Defined.

Lemma history_is_permanent_witness : grows example_stopped_db example_db.
Proof.
  apply (history_is_permanent example_stopped_db example_db example_stopped_reachable).
  exact example_launched.
Defined.

Lemma example_stopped_present : is_some (servers example_stopped_db !! example_key 7%N) = true.
Proof. vm_compute. reflexivity. Qed.

Lemma names_are_never_reused_witness :
  ServerRepository_create example_server example_db =
  (Err (RE.Conflict "server name already exists"), example_db).
Proof.
  pose proof example_stopped_present as Hp.
  destruct (servers example_stopped_db !! example_key 7%N) as [row|] eqn:E; [|discriminate Hp].
  apply (names_are_never_reused example_stopped_db example_db (example_key 7%N) row
    example_server example_stopped_reachable example_launched E example_server_wf);
    [done|done|].
  assert (sr_name <$> servers example_stopped_db !! example_key 7%N = Some "survival") as En
      by (vm_compute; reflexivity). rewrite E in En. by injection En as ->.
Defined.

Lemma updates_compare_and_swap_witness :
  ∃ b db', ServerRepository_update_desired_state example_running 1 example_db = (Ok b, db') ∧
    (b = false → db' = example_db).
Proof.
  destruct (updates_compare_and_swap example_db example_running 1 example_reachable)
    as ((b & db' & E & _ & Hf) & _).
  - split; [vm_compute; split; discriminate|]. split; [vm_compute; split; discriminate|].
    apply row_created_le. vm_compute. reflexivity.
  - vm_compute. reflexivity.
  - intros r _ t Ht. vm_compute in Ht. discriminate Ht.
  - exists b, db'. exact (conj E Hf).
Defined.

(** The agent of the example's compute instance enrolls and connects. *)
Definition example_certificate : AgentCertificateRecord := {|
  acr_certificate_signing_request_pem := "csr"; acr_certificate_chain_pem := "chain";
  acr_certificate_der := "der"; acr_certificate_expires_at := 100000; acr_recorded_at := 6000 |}.
Definition example_enrolled_db : Database :=
  run_writes [WRecordCertificate 13%N "enroll" example_certificate] example_db.

Lemma compute_created_le (m : gmap string compute_instances_row) key t :
  match m !! key with Some r => cr_created_at_ms r <=? t | None => true end = true →
  ∀ r, m !! key = Some r → cr_created_at_ms r ≤ t.
Proof. intros Hb r Hr. rewrite Hr in Hb. bz. done. Qed.

Lemma example_enrolled_reachable : reachable example_enrolled_db.
Proof.
  unfold reachable. etransitivity; [apply example_reachable|]. apply run_writes_steps.
  split; [|done]. by vm_compute.
Qed.

Lemma enrollment_is_one_time_witness :
  (ComputeInstanceRepository_get_agent_enrollment 13%N "enroll" example_enrolled_db).1 ≠ Ok None ∧
  ∃ db1, ComputeInstanceRepository_authenticate_agent 13%N CP.Akamai "token" (Some "der") 7000
      example_enrolled_db = (Ok AA.Accepted, db1) ∧
    (ComputeInstanceRepository_get_agent_enrollment 13%N "enroll" db1).1 = Ok None.
Proof.
  split; [vm_compute; discriminate|].
  destruct (ComputeInstanceRepository_authenticate_agent 13%N CP.Akamai "token" (Some "der") 7000
    example_enrolled_db) as [r db1] eqn:E.
  assert (r = Ok AA.Accepted) as ->.
  { apply (f_equal fst) in E. cbn [fst] in E. rewrite <- E. vm_compute. reflexivity. }
  exists db1. split; [reflexivity|].
  destruct (enrollment_is_one_time example_enrolled_db db1 db1 13%N "token" "der" 7000 "enroll"
    example_certificate example_enrolled_reachable ltac:(lia) E) as (_ & -> & _); done.
Defined.

Lemma create_get_round_trip_witness :
  ∃ db', ServerRepository_create example_server empty_database = (Ok tt, db') ∧
    ServerRepository_get 7%N db' = (Ok (Some example_server), db').
Proof.
  destruct (ServerRepository_create example_server empty_database) as [r db'] eqn:E.
  assert (r = Ok tt) as ->.
  { apply (f_equal fst) in E. cbn [fst] in E. rewrite <- E. vm_compute. reflexivity. }
  exists db'. split; [reflexivity|].
  apply (create_get_round_trip empty_database example_server db' (rtc_refl _ _)
    example_server_wf eq_refl ltac:(vm_compute; discriminate) E).
Defined.
End witnesses.
