(* ===== verification/Effects.v ===== *)
(** Effects of the control plane's asynchronous code: the operations it asks of
    the outside world, and programs as trees of operations and continuations,
    so that a statement about a program covers every answer the world can give
    (failures, disconnections, concurrent writes) in every order.

    Data: crates/mcserver-protocol/src/node_agent.rs, the error enumerations of
    agent/registry.rs, infrastructure/compute.rs, local_compute.rs and
    akamai_compute.rs, and the API records of akamai_compute.rs. *)
From S2P Require Import Prelude Text Programs Server Instances Database Repositories.
From S2P Require Import ComputeRepository.
#[local] Open Scope string_scope.
#[local] Open Scope Z_scope.

(** ** Protocol of the node agent *)

Record InstanceIdentity := { server_instance_id : Uuid; fencing_token : Z }.

Record AgentInspectResult := {
  data_prepared : bool;
  process_running : bool;
  last_snapshot_id : option string;
}.

Record RestoreDataParams := {
  restore_instance : InstanceIdentity;
  restore_server_id : Uuid;
  restore_repository : string;
  restore_source_snapshot_id : option string;
}.

(** The protocol's [ProcessSpec] has the fields of the domain's. *)
Record StartServerParams := {
  start_instance : InstanceIdentity;
  start_process : ProcessSpec;
}.

Record StopServerParams := {
  stop_instance : InstanceIdentity;
  stop_stop_timeout_seconds : Z;
}.

Record SnapshotDataParams := {
  snapshot_instance : InstanceIdentity;
  snapshot_server_id : Uuid;
  snapshot_repository : string;
}.

Record CleanupInstanceParams := { cleanup_instance : InstanceIdentity }.

(** ** Errors *)

Module ACE.
(** [AgentCallError]. *)
Inductive AgentCallError :=
| NotConnected
| Disconnected
| Timeout
| Remote (code : Z) (message : string)
| Serialization (source : string)
| Protocol (message : string)
| Io (source : io_error).
End ACE.
Abbreviation AgentCallError := ACE.AgentCallError.

Module LE.
(** [LocalComputeError]. *)
Inductive LocalComputeError :=
| Repository (source : RepositoryError)
| Io (source : io_error)
| RuntimeStateSerialization (source : string)
| UnsupportedRuntimeStateSchemaVersion (version : Z)
| Timestamp (source : TimestampError)
| InvalidPodmanOutputEncoding
| ControlCommandTimeout
| PodmanCommandFailed (status : option Z) (stderr : string)
| Spawn (source : io_error)
| MissingProcessId
| WrongProvider
| CreateConflict
| MissingAfterUpdate
| SignalFailed (process_id : Z) (signal : string) (status : option Z)
| ProcessDidNotExit (process_id : Z).
End LE.
Abbreviation LocalComputeError := LE.LocalComputeError.

Module AE.
(** [AkamaiComputeError]; [Duration]s are in seconds as the header gives them. *)
Inductive AkamaiComputeError :=
| WrongProvider
| LiveOperationsDisabled
| RegionNotAllowed (requested : string)
| ImageNotAllowed (requested : string)
| InstanceTypeNotAllowed (requested : string)
| FirewallNotAllowed (requested : Z)
| ActiveInstanceLimitReached (active maximum : Z)
| ActiveInstanceLimitExceeded (active maximum : Z)
| CreateConflict
| MissingAfterUpdate
| ProviderInstanceLost (instance : ServerInstanceId)
| InvalidProviderId
| DuplicateProviderLabel (label : string)
| ProviderOwnershipMismatch (provider_instance_id : Z) (expected_label : string)
| ProviderConfigurationMismatch (provider_instance_id : Z)
    (expected_region observed_region expected_type observed_type
     expected_image observed_image : string)
| DiskEncryptionEnabled (provider_instance_id : Z)
| InstanceTypeIdentityMismatch (expected observed : string)
| FirewallIdentityMismatch (expected observed : Z)
| FirewallDisabled (firewall_id : Z) (status : string)
| RequiredFirewallMissing (provider_instance_id firewall_id : Z)
| ImageIdentityMismatch (expected observed : string)
| ImageUnavailable (image status : string)
| ImageDeprecated (image : string)
| ImageMissingCloudInit (image : string)
| RegionIdentityMismatch (expected observed : string)
| RegionMissingMetadata (region : string)
| Http (source : string)
| InvalidAuthorizationHeader
| Api (status : Z) (message : string)
| RateLimited (retry_after : option Z) (message : string)
| Serialization (source : string)
| Bootstrap (source : string)
| Repository (source : RepositoryError)
| Timestamp (source : TimestampError).
End AE.
Abbreviation AkamaiComputeError := AE.AkamaiComputeError.

Module CE.
(** [ComputeError]. *)
Inductive ComputeError :=
| Local (source : LocalComputeError)
| Akamai (source : AkamaiComputeError)
| AkamaiNotConfigured.
End CE.
Abbreviation ComputeError := CE.ComputeError.

Definition AkamaiComputeError_retry_after (e : AkamaiComputeError) : option Z :=
  match e with AE.RateLimited retry_after _ => retry_after | _ => None end.

Definition ComputeError_retry_after (e : ComputeError) : option Z :=
  match e with
  | CE.Akamai error => AkamaiComputeError_retry_after error
  | CE.Local _ | CE.AkamaiNotConfigured => None
  end.

(** ** Cloud provider API *)

Module DE.
(** [DiskEncryption]. *)
Inductive DiskEncryption := Enabled | Disabled.
End DE.
Abbreviation DiskEncryption := DE.DiskEncryption.

#[global] Instance DiskEncryption_eq_dec : EqDecision DiskEncryption.
Proof. solve_decision. Defined.

Record ProviderInstance := {
  pi_id : Z;
  pi_label : string;
  pi_region : string;
  pi_instance_type : string;
  pi_image : string;
  pi_disk_encryption : DiskEncryption;
  pi_ipv4 : list string;
  pi_tags : list string;
}.

Record ProviderImage := {
  image_id : string;
  image_status : string;
  image_deprecated : bool;
  image_capabilities : list string;
}.

Record ProviderRegion := { region_id : string; region_capabilities : list string }.

(** [ProviderFirewall]: id and status. *)
Record ProviderFirewall := { firewall_id_of : Z; firewall_status : string }.

Record CreateInstanceRequest := {
  request_region : string;
  request_instance_type : string;
  request_image : string;
  request_label : string;
  request_booted : bool;
  request_authorized_keys : list string;
  request_tags : list string;
  request_firewall_id : Z;
  request_disk_encryption : DiskEncryption;
  request_user_data : string;
}.

(** A response of the API: its status, the duration of [Retry-After] (nanoseconds), the
    text made of an error body, and the decoded body of a success. *)
Record api_response (A : Type) := {
  resp_status : Z;
  resp_retry_after : option Z;
  resp_errors : string;
  resp_body : result AkamaiComputeError A;
}.
Arguments resp_status {_} _.
Arguments resp_retry_after {_} _.
Arguments resp_errors {_} _.
Arguments resp_body {_} _.

(** The [X-Filter] of a listing. *)
Inductive list_filter := FilterManagedTag | FilterLabel (label : string).

(** [build_bootstrap]'s result: authorized keys and the user data. *)
Record Bootstrap := { authorized_keys : list string; user_data_base64 : string }.

(** ** Local processes *)

Record LocalRuntimeState := {
  lrs_schema_version : Z;
  lrs_compute_instance_id : Uuid;
  lrs_local_scope : string;
  lrs_process_id : Z;
  lrs_linux_boot_id : string;
  lrs_linux_process_start_time_ticks : Z;
}.

Record LinuxProcessState := { lps_state : Ascii.ascii; lps_start_time_ticks : Z }.

(** ** Operations *)

(** An operation and the type of its answer. [ApiListInstances] is the
    instances of all pages of a filtered listing. *)
Inductive op : Type → Type :=
(* time and randomness *)
| Now : op (result TimestampError Z)
| NewUuid : op Uuid
| NewConnectionToken : op string
| InstantNow : op Z
(* the reconciliation queue and the worker's cancellation token *)
| Enqueue (server : ServerId) : op unit
| IsCancelled : op bool
(* the database *)
| Repo {A} (m : repo A) : op (result RepositoryError A)
(* the agent registry *)
| IsConnected (c : ComputeInstanceId) : op bool
| CallInspect (c : ComputeInstanceId) (i : InstanceIdentity) :
    op (result AgentCallError AgentInspectResult)
| CallRestore (c : ComputeInstanceId) (p : RestoreDataParams) : op (result AgentCallError bool)
| CallStart (c : ComputeInstanceId) (p : StartServerParams) : op (result AgentCallError bool)
| CallStop (c : ComputeInstanceId) (p : StopServerParams) : op (result AgentCallError bool)
| CallSnapshot (c : ComputeInstanceId) (p : SnapshotDataParams) : op (result AgentCallError string)
| CallCleanup (c : ComputeInstanceId) (p : CleanupInstanceParams) : op (result AgentCallError bool)
| CallShutdown (c : ComputeInstanceId) : op (result AgentCallError bool)
(* local node-agent processes *)
| ChildTryWait (c : ComputeInstanceId) : op (result io_error (option bool))
| ChildRemove (c : ComputeInstanceId) : op bool
| ChildInsert (c : ComputeInstanceId) : op unit
| KillChild (c : ComputeInstanceId) : op unit
| WaitTrackedExit (c : ComputeInstanceId) : op (result LocalComputeError unit)
| WaitUntrackedExit (s : LocalRuntimeState) : op (result LocalComputeError unit)
| ReadRuntimeFile (c : ComputeInstanceId) : op (result LocalComputeError (option LocalRuntimeState))
| StoreRuntimeFile (c : ComputeInstanceId) (s : LocalRuntimeState) :
    op (result LocalComputeError unit)
| ReadBootId : op (result io_error string)
| ReadProcessState (pid : Z) : op (result io_error LinuxProcessState)
| CreateStateDirectory (c : ComputeInstanceId) : op (result io_error unit)
| SpawnProcess (c : ComputeInstanceId) (token : string) : op (result LocalComputeError (option Z))
| RemoveStateDirectory (c : ComputeInstanceId) : op (result LocalComputeError unit)
(* the cloud provider *)
| ApiListInstances (f : list_filter) : op (result AkamaiComputeError (list ProviderInstance))
| ApiGetInstance (id : Z) : op (result AkamaiComputeError (api_response ProviderInstance))
| ApiCreateInstance (r : CreateInstanceRequest) :
    op (result AkamaiComputeError (api_response ProviderInstance))
| ApiDeleteInstance (id : Z) : op (result AkamaiComputeError (api_response unit))
| ApiGetImage (id : string) : op (result AkamaiComputeError (api_response ProviderImage))
| ApiGetRegion (id : string) : op (result AkamaiComputeError (api_response ProviderRegion))
| ApiGetType (id : string) : op (result AkamaiComputeError (api_response string))
| ApiGetFirewall (id : Z) : op (result AkamaiComputeError (api_response ProviderFirewall))
| ApiListInstanceFirewalls (id : Z) :
    op (result AkamaiComputeError (api_response (list ProviderFirewall)))
| BuildBootstrap (i : ServerInstance) (c : ComputeInstance) :
    op (result AkamaiComputeError Bootstrap).

(** ** Programs *)

Abbreviation prog := (gprog op).

(** ** Methods of more than one statement *)

Section methods.
Context `{Codec}.
#[local] Open Scope prog_scope.

(** [ServerInstanceRepository::create_for_running_server]: the transaction, then
    [self.get(..)]; [ComputeInstanceRepository::create_for_instance]: the [INSERT], then
    [self.get(..)]. *)
Definition create_for_running_server (server_id : ServerId) (instance_id : ServerInstanceId)
    (now : Z) : prog (result RepositoryError (option ServerInstance)) :=
  let? created := perform (Repo (create_instance_transaction server_id instance_id now)) via id in
  if (created : bool) then perform (Repo (ServerInstanceRepository_get instance_id))
  else Ret (Ok None).
Definition create_for_instance (id_ : ComputeInstanceId) (server_instance_id : ServerInstanceId)
    (provider : ComputeProvider) (connection_token : string) (enrollment_token : option string)
    (now : Z) : prog (result RepositoryError (option ComputeInstance)) :=
  let? inserted := perform (Repo (insert_compute id_ server_instance_id provider connection_token
    enrollment_token now)) via id in
  if (inserted : bool) then perform (Repo (ComputeInstanceRepository_get id_)) else Ret (Ok None).
End methods.

(** ** Statements about programs *)

(** What the types of the answers guarantee: a clock gives no negative time
    ([UnixTimestampMillis]), [new_connection_token] is 64 hexadecimal digits,
    and a process id is a positive [u32]. *)
Definition valid_answer {X} (o : op X) : X → Prop :=
  match o in op X return X → Prop with
  | Now => λ r, match r with Ok t => 0 ≤ t | Err _ => True end
  | NewConnectionToken => λ t, str_len t = 64 ∧ bytes_all is_ascii_hexdigit t = true
  | SpawnProcess _ _ => λ r, match r with Ok (Some pid) => 1 ≤ pid ≤ u32_max | _ => True end
  | _ => λ _, True
  end.

(** Every operation [p] can perform satisfies [P], and every result [Q],
    whatever the answers. *)
Fixpoint always {A} (P : ∀ X, op X → Prop) (Q : A → Prop) (p : prog A) : Prop :=
  match p with
  | Ret a => Q a
  | Op o k => P _ o ∧ ∀ x, valid_answer o x → always P Q (k x)
  end.
Arguments always {A} P%_function Q%_function p.

Lemma always_bind {A B} (P : ∀ X, op X → Prop) (Q : A → Prop) (R : B → Prop) m f :
  always P Q m → (∀ a, Q a → always P R (f a)) → always P R (prog_bind m f).
Proof.
  intros Hm Hf. induction m as [a|X o k IH]; cbn in *; [auto|].
  destruct Hm as [Ho Hk]. split; [done|]. intros x Hx. auto.
Qed.

Lemma always_try {E F A B} (P : ∀ X, op X → Prop) (Q : A → Prop) (R : result F B → Prop)
    (conv : E → F) m f :
  always P (λ r, match r with Ok a => Q a | Err e => R (Err (conv e)) end) m →
  (∀ a, Q a → always P R (f a)) → always P R (try_bind conv m f).
Proof.
  intros Hm Hf. eapply always_bind; [exact Hm|]. intros [a|e]; cbn; auto.
Qed.

Lemma always_mono {A} (P P' : ∀ X, op X → Prop) (Q Q' : A → Prop) p :
  (∀ X o, P X o → P' X o) → (∀ a, Q a → Q' a) → always P Q p → always P' Q' p.
Proof.
  intros HP HQ. induction p as [a|X o k IH]; cbn; [auto|].
  intros [Ho Hk]. split; [auto|]. intros x Hx. auto.
Qed.

Lemma always_conj {A} (P P' : ∀ X, op X → Prop) (Q Q' : A → Prop) p :
  always P Q p → always P' Q' p → always (λ X o, P X o ∧ P' X o) (λ a, Q a ∧ Q' a) p.
Proof.
  induction p as [a|X o k IH]; cbn; [auto|]. intros [? ?] [? ?]. split; auto.
Qed.

Lemma always_true {A} (p : prog A) : always (λ _ _, True) (λ _, True) p.
Proof. induction p; cbn; auto. Qed.

Lemma always_op {A X} (P : ∀ X, op X → Prop) (Q : A → Prop) (o : op X) k :
  P X o → (∀ x, valid_answer o x → always P Q (k x)) → always P Q (Op o k).
Proof. by split. Qed.

Lemma always_ret {A} (P : ∀ X, op X → Prop) (Q : A → Prop) a : Q a → always P Q (Ret a).
Proof. done. Qed.

(** [?] after a program whose result does not matter. *)
Lemma always_try_any {E F A B} (P : ∀ X, op X → Prop) (R : result F B → Prop)
    (conv : E → F) (m : prog (result E A)) (f : A → prog (result F B)) :
  always P (λ _, True) m → (∀ e, R (Err (conv e))) → (∀ a, always P R (f a)) →
  always P R (try_bind conv m f).
Proof.
  intros Hm He Hf. eapply always_bind; [exact Hm|]. intros [a|e] _; cbn; auto.
Qed.

(** [?] after one operation. *)
Lemma always_try_perform {E F A B} (P : ∀ X, op X → Prop) (R : result F B → Prop)
    (conv : E → F) (o : op (result E A)) (f : A → prog (result F B)) :
  P _ o → (∀ e, valid_answer o (Err e) → R (Err (conv e))) →
  (∀ a, valid_answer o (Ok a) → always P R (f a)) →
  always P R (try_bind conv (perform o) f).
Proof. intros Ho He Hf. split; [done|]. intros [a|e] Hx; cbn; auto. Qed.

(** [?] after a value. *)
Lemma always_try_ret {E F A B} (P : ∀ X, op X → Prop) (R : result F B → Prop)
    (conv : E → F) (r : result E A) (f : A → prog (result F B)) :
  (∀ e, r = Err e → R (Err (conv e))) → (∀ a, r = Ok a → always P R (f a)) →
  always P R (try_bind conv (Ret r) f).
Proof. intros He Hf. destruct r; cbn; auto. Qed.

(** One operation and what follows. *)
Lemma always_perform {X B} (P : ∀ X, op X → Prop) (R : B → Prop) (o : op X) (f : X → prog B) :
  P X o → (∀ x, valid_answer o x → always P R (f x)) → always P R (prog_bind (perform o) f).
Proof. by split. Qed.
