(* ===== verification/NodeConfig.v ===== *)
(** The node agent's configuration (crates/mcserver-node-agent/src/config.rs),
    read from the environment its process is started with. *)
From S2P Require Import Prelude Text Net Environment Server Database.
#[local] Open Scope string_scope.
#[local] Open Scope Z_scope.

Definition NODE_DEFAULT_PODMAN_BINARY : string := "podman".
Definition NODE_DEFAULT_RESTIC_BINARY : string := "restic".
Definition NODE_DEFAULT_OPENSSL_BINARY : string := "openssl".
Definition NODE_DEFAULT_MAX_FRAME_BYTES : Z := 1024 * 1024.
Definition NODE_DEFAULT_COMMAND_TIMEOUT_SECONDS : Z := 900.
Definition DEFAULT_RESTIC_RETRY_LOCK_SECONDS : Z := 300.
Definition DEFAULT_RECONNECT_MIN_SECONDS : Z := 1.
Definition DEFAULT_RECONNECT_MAX_SECONDS : Z := 30.
Definition NODE_DEFAULT_LOCAL_SCOPE : string := "default".
Definition NODE_MAX_LOCAL_SCOPE_CHARS : Z := 128.
Definition NODE_MAX_ADDRESS_CHARS : Z := 512.
Definition NODE_MAX_SERVER_NAME_CHARS : Z := 253.
Definition NODE_MAX_CONNECTION_TOKEN_CHARS : Z := 256.
Definition DEFAULT_DATA_ACCESS_MODE : string := "auto".

Module DAM.
(** [DataAccessMode]. *)
Inductive DataAccessMode := PodmanUserNamespace | Host.
End DAM.
Abbreviation DataAccessMode := DAM.DataAccessMode.

Record TlsConfig := { ca_certificate : string; tls_server_name : string }.

(** [Config]; paths are their bytes and [Duration]s their nanoseconds. *)
Record NodeConfig := {
  nc_control_plane_address : string;
  nc_tls : option TlsConfig;
  nc_compute_instance_id : Uuid;
  nc_connection_token : string;
  nc_state_directory : string;
  nc_local_scope : string;
  nc_podman_binary : string;
  nc_restic_binary : string;
  nc_openssl_binary : string;
  nc_data_access_mode : DataAccessMode;
  nc_max_frame_bytes : Z;
  nc_command_timeout : Z;
  nc_restic_retry_lock : Z;
  nc_reconnect_min : Z;
  nc_reconnect_max : Z;
}.

Module NCE.
(** [ConfigError] of the node agent. *)
Inductive NodeConfigError :=
| Environment (name : string) (source : VarError)
| MissingValue (name : string)
| BlankValue (name : string)
| NulByte (name : string)
| ValueTooLong (name : string) (maximum : Z)
| InvalidLocalScope (value : string)
| InvalidInteger (name value : string)
| ZeroValue (name : string)
| InvalidSocketAddress
| ControlPlaneAddressMustBeLoopback (address : SocketAddr)
| IncompleteTlsConfiguration
| InvalidTlsServerName (value : string)
| InvalidUuid (source : string)
| InvalidDataAccessMode (value : string)
| ProcessMetadata (source : io_error)
| InvalidReconnectRange.
End NCE.
Abbreviation NodeConfigError := NCE.NodeConfigError.

Definition node_validate_text (name value : string) (maximum : Z) : result NodeConfigError unit :=
  _ ← err_if (str_is_blank value) (NCE.BlankValue name);
  _ ← err_if (str_contains_nul value) (NCE.NulByte name);
  err_if (maximum <? str_char_count value) (NCE.ValueTooLong name maximum).

Definition node_validate_dns_name (value : string) : result NodeConfigError unit :=
  err_if (negb (dns_name_ok value)) (NCE.InvalidTlsServerName value).

Definition parse_data_access_mode (value : string) :
    result NodeConfigError (option DataAccessMode) :=
  if String.eqb value "auto" then Ok None
  else if String.eqb value "podman_user_namespace" then Ok (Some DAM.PodmanUserNamespace)
  else if String.eqb value "host" then Ok (Some DAM.Host)
  else Err (NCE.InvalidDataAccessMode value).

Section node_config.
Context `{Codec}.

(** The environment, and [metadata("/proc/self").uid()]. *)
Variable env : environment_vars.
Variable effective_uid : result io_error Z.

Definition node_optional (name : string) : result NodeConfigError (option string) :=
  match env_var env name with
  | Ok value => Ok (Some value)
  | Err NotPresent => Ok None
  | Err source => Err (NCE.Environment name source)
  end.

Definition node_required (name : string) : result NodeConfigError string :=
  value ← node_optional name; ok_or (NCE.MissingValue name) value.

Definition optional_non_blank (name default : string) : result NodeConfigError string :=
  value ← node_optional name;
  let value := from_option id default value in
  _ ← node_validate_text name value NODE_MAX_LOCAL_SCOPE_CHARS;
  _ ← err_if (negb (bytes_all is_scope_byte value)) (NCE.InvalidLocalScope value);
  Ok value.

(** The integer both of the following read. *)
Definition node_env_integer (name : string) (default : Z) : result NodeConfigError Z :=
  match env_var env name with
  | Ok value => ok_or (NCE.InvalidInteger name value) (parse_u64 value)
  | Err NotPresent => Ok default
  | Err source => Err (NCE.Environment name source)
  end.
Definition node_parse_positive_usize (name : string) (default : Z) : result NodeConfigError Z :=
  value ← node_env_integer name default;
  _ ← err_if (value =? 0) (NCE.ZeroValue name);
  Ok value.
Definition node_parse_positive_duration (name : string) (default : Z) : result NodeConfigError Z :=
  seconds ← node_env_integer name default;
  _ ← err_if (seconds =? 0) (NCE.ZeroValue name);
  Ok (from_secs seconds).

Definition automatic_data_access_mode : result NodeConfigError DataAccessMode :=
  uid ← map_err NCE.ProcessMetadata effective_uid;
  Ok (if uid =? 0 then DAM.Host else DAM.PodmanUserNamespace).

Definition data_access_mode : result NodeConfigError DataAccessMode :=
  value ← node_optional "MCSERVER_NODE_AGENT_DATA_ACCESS_MODE";
  mode ← parse_data_access_mode (from_option id DEFAULT_DATA_ACCESS_MODE value);
  match mode with Some mode => Ok mode | None => automatic_data_access_mode end.

Definition tls_config : result NodeConfigError (option TlsConfig) :=
  ca ← node_optional "MCSERVER_NODE_AGENT_TLS_CA_CERTIFICATE";
  server_name ← node_optional "MCSERVER_NODE_AGENT_TLS_SERVER_NAME";
  match ca, server_name with
  | None, None => Ok None
  | Some ca, Some server_name =>
      _ ← node_validate_text "MCSERVER_NODE_AGENT_TLS_SERVER_NAME" server_name
            NODE_MAX_SERVER_NAME_CHARS;
      _ ← node_validate_dns_name server_name;
      Ok (Some {| ca_certificate := ca; tls_server_name := server_name |})
  | _, _ => Err NCE.IncompleteTlsConfiguration
  end.

(** Without TLS the control plane must be on this host. *)
Definition check_plain_address (control_plane_address : string) (tls : option TlsConfig) :
    result NodeConfigError unit :=
  match tls with
  | Some _ => Ok tt
  | None =>
      address ← ok_or NCE.InvalidSocketAddress (parse_socket_addr control_plane_address);
      err_if (negb (is_loopback (sa_ip address))) (NCE.ControlPlaneAddressMustBeLoopback address)
  end.

Definition path_or (name default : string) : string := from_option id default (env_var_os env name).

(** [Config::from_env]. *)
Definition node_from_env : result NodeConfigError NodeConfig :=
  control_plane_address ← node_required "MCSERVER_NODE_AGENT_CONTROL_PLANE_ADDRESS";
  _ ← node_validate_text "MCSERVER_NODE_AGENT_CONTROL_PLANE_ADDRESS" control_plane_address
        NODE_MAX_ADDRESS_CHARS;
  tls ← tls_config;
  _ ← check_plain_address control_plane_address tls;
  compute_instance_id ← node_required "MCSERVER_NODE_AGENT_COMPUTE_INSTANCE_ID";
  compute_instance_id ← map_err NCE.InvalidUuid (uuid_parse_str compute_instance_id);
  connection_token ← node_required "MCSERVER_NODE_AGENT_CONNECTION_TOKEN";
  _ ← node_validate_text "MCSERVER_NODE_AGENT_CONNECTION_TOKEN" connection_token
        NODE_MAX_CONNECTION_TOKEN_CHARS;
  state_directory ← node_required "MCSERVER_NODE_AGENT_STATE_DIRECTORY";
  local_scope ← optional_non_blank "MCSERVER_NODE_AGENT_LOCAL_SCOPE" NODE_DEFAULT_LOCAL_SCOPE;
  let podman_binary := path_or "MCSERVER_NODE_AGENT_PODMAN_BINARY" NODE_DEFAULT_PODMAN_BINARY in
  let restic_binary := path_or "MCSERVER_NODE_AGENT_RESTIC_BINARY" NODE_DEFAULT_RESTIC_BINARY in
  let openssl_binary := path_or "MCSERVER_NODE_AGENT_OPENSSL_BINARY" NODE_DEFAULT_OPENSSL_BINARY in
  data_access_mode ← data_access_mode;
  max_frame_bytes ← node_parse_positive_usize "MCSERVER_NODE_AGENT_MAX_FRAME_BYTES"
                      NODE_DEFAULT_MAX_FRAME_BYTES;
  command_timeout ← node_parse_positive_duration "MCSERVER_NODE_AGENT_COMMAND_TIMEOUT_SECONDS"
                      NODE_DEFAULT_COMMAND_TIMEOUT_SECONDS;
  restic_retry_lock ← node_parse_positive_duration "MCSERVER_NODE_AGENT_RESTIC_RETRY_LOCK_SECONDS"
                        DEFAULT_RESTIC_RETRY_LOCK_SECONDS;
  reconnect_min ← node_parse_positive_duration "MCSERVER_NODE_AGENT_RECONNECT_MIN_SECONDS"
                    DEFAULT_RECONNECT_MIN_SECONDS;
  reconnect_max ← node_parse_positive_duration "MCSERVER_NODE_AGENT_RECONNECT_MAX_SECONDS"
                    DEFAULT_RECONNECT_MAX_SECONDS;
  _ ← err_if (reconnect_max <? reconnect_min) NCE.InvalidReconnectRange;
  Ok {| nc_control_plane_address := control_plane_address; nc_tls := tls;
        nc_compute_instance_id := compute_instance_id; nc_connection_token := connection_token;
        nc_state_directory := state_directory; nc_local_scope := local_scope;
        nc_podman_binary := podman_binary; nc_restic_binary := restic_binary;
        nc_openssl_binary := openssl_binary; nc_data_access_mode := data_access_mode;
        nc_max_frame_bytes := max_frame_bytes; nc_command_timeout := command_timeout;
        nc_restic_retry_lock := restic_retry_lock; nc_reconnect_min := reconnect_min;
        nc_reconnect_max := reconnect_max |}.
End node_config.
