(* ===== verification/NodeAgent.v ===== *)
(** The node agent's executor (crates/mcserver-node-agent/src/executor.rs): what
    an agent does for the one server instance it was given, with Podman for the
    container, restic for the data and a state file that survives restarts.

    The executor is a program over [node_op]: commands it runs and file-system
    calls it makes. A command is what it is asked to do; [command_line],
    [command_environment] and [command_directory] spell it. *)
From S2P Require Import Prelude Text Programs JsonRpc Framing Server Instances Database.
From S2P Require Import Repositories Effects NodeConfig.
#[local] Open Scope string_scope.
#[local] Open Scope Z_scope.
#[local] Open Scope prog_scope.

Definition AGENT_STATE_SCHEMA_VERSION : Z := 1.
Definition MAX_DIAGNOSTIC_BYTES : nat := 8192.
Definition NODE_MAX_SNAPSHOT_ID_CHARS : Z := 256.
Definition STATE_FILE_NAME : string := "agent-state.json".
Definition DATA_DIRECTORY_NAME : string := "data".
Definition RESTORE_STAGING_DIRECTORY_NAME : string := "restore-staging".
Definition PREVIOUS_DATA_DIRECTORY_NAME : string := "data-previous".
Definition MANAGED_LABEL : string := "io.mcserver.managed".
Definition LOCAL_SCOPE_LABEL : string := "io.mcserver.local-scope".
Definition SERVER_ID_LABEL : string := "io.mcserver.server-id".
Definition SERVER_INSTANCE_ID_LABEL : string := "io.mcserver.server-instance-id".
Definition COMPUTE_INSTANCE_ID_LABEL : string := "io.mcserver.compute-instance-id".

(** ** Data *)

Record InstanceState := {
  is_server_instance_id : Uuid;
  is_fencing_token : Z;
  is_server_id : Uuid;
  is_repository : string;
  is_source_snapshot_id : option string;
  is_data_prepared : bool;
  is_last_snapshot_id : option string;
}.

Record AgentState := {
  as_schema_version : Z;
  as_instance : option InstanceState;
}.

Definition AgentState_default : AgentState :=
  {| as_schema_version := AGENT_STATE_SCHEMA_VERSION; as_instance := None |}.

Module EXE.
(** [ExecutorError]. *)
Inductive ExecutorError :=
| Io (source : io_error)
| Serialization (source : string)
| UnsupportedStateSchemaVersion (version : Z)
| Utf8
| CommandTimeout (description : string)
| CommandFailed (description : string) (status : option Z) (stderr : string)
| StaleInstance
| UnknownInstance
| DataNotPrepared
| ProcessStillRunning
| ImmutableInstanceConfigurationChanged
| EulaNotAccepted
| NonUtf8Path (path : string)
| RestoreMissingDataDirectory (path : string)
| MissingSnapshotId
| UnexpectedPodmanOutput (output : string).
End EXE.
Abbreviation ExecutorError := EXE.ExecutorError.

(** [std::process::Output]. *)
Record Output := {
  out_status : option Z;
  out_stdout : bytes;
  out_stderr : bytes;
}.
Definition succeeded (output : Output) : bool := bool_decide (out_status output = Some 0).

(** The paths below the state directory. *)
Inductive node_path := DataDirectory | StagingDirectory | PreviousDirectory | RestoredData | StatePath.

(** Commands, by what they are asked to do. *)
Inductive node_command :=
| PodmanContainerExists (name : string)
| PodmanInspectRunning (name : string)
| PodmanRemove (name : string)
| PodmanCreate (name : string) (server_instance_id server_id : Uuid) (process : ProcessSpec)
    (data : string)
| PodmanStart (name : string)
| PodmanStop (timeout name : string)
| ResticCatConfig (repository : string)
| ResticInit (repository : string)
| ResticRestore (repository snapshot_id target : string)
| ResticBackup (repository server_tag instance_tag : string)
| UnshareRemove (paths : list node_path)
| UnshareMove (source destination : node_path).

Inductive node_op : Type → Type :=
(* [run_command_allow_failure], with its timeout *)
| RunCommand (c : node_command) (description : string) : node_op (result ExecutorError Output)
(* the state file: what it decodes to, and the steps of its replacement *)
| ReadStateFile : node_op (result io_error (result string AgentState))
| WriteTemporaryState (s : AgentState) : node_op (result ExecutorError unit)
| RenameTemporaryState : node_op (result io_error unit)
| SyncStateDirectory : node_op (result io_error unit)
(* other calls of [tokio::fs] *)
| MakePrivateDirectory : node_op (result io_error unit)
| Metadata (p : node_path) : node_op (result io_error bool)
| SymlinkMetadata (p : node_path) : node_op (result io_error bool)
| CreateDirAll (p : node_path) : node_op (result io_error unit)
| RemoveDirAll (p : node_path) : node_op (result io_error unit)
| RemoveFile (p : node_path) : node_op (result io_error unit)
| RenamePath (source destination : node_path) : node_op (result io_error unit).

Abbreviation node_prog := (gprog node_op).

(** ** Pure helpers *)

(** [Path::join] with a relative name. *)
Definition path_join (directory name : string) : string :=
  if str_is_empty directory then name
  else if from_option (byte_is "/") false (str_last_byte directory)
  then directory ++ name
  else directory ++ "/" ++ name.

(** [Path::to_str]. *)
Definition path_to_string (path : string) : result ExecutorError string :=
  if utf8_valid path then Ok path else Err (EXE.NonUtf8Path path).

Definition validate_identity (state : InstanceState) (identity : InstanceIdentity) :
    result ExecutorError unit :=
  err_if (negb (is_server_instance_id state =? server_instance_id identity)%N
          || negb (is_fencing_token state =? fencing_token identity)) EXE.StaleInstance.

(** [ensure_instance_state] on [&mut AgentState]; the state is assigned before
    the checks. *)
Definition ensure_instance_state (state : AgentState) (identity : InstanceIdentity)
    (server_id : Uuid) (repository : string) (source_snapshot_id : option string) :
    result ExecutorError unit * AgentState :=
  let instance :=
    match as_instance state with
    | Some instance => instance
    | None =>
        {| is_server_instance_id := server_instance_id identity;
           is_fencing_token := fencing_token identity; is_server_id := server_id;
           is_repository := repository; is_source_snapshot_id := source_snapshot_id;
           is_data_prepared := false; is_last_snapshot_id := None |}
    end in
  (_ ← validate_identity instance identity;
   err_if (negb (is_server_id instance =? server_id)%N
           || negb (String.eqb (is_repository instance) repository)
           || negb (bool_decide (is_source_snapshot_id instance = source_snapshot_id)))
     EXE.ImmutableInstanceConfigurationChanged,
   {| as_schema_version := as_schema_version state; as_instance := Some instance |}).

(** [output.split(|byte| *byte == b'\n')]. *)
Fixpoint split_lines (s line : bytes) : list bytes :=
  match s with
  | [] => [rev line]
  | c :: s' => if Ascii.eqb c NEWLINE then rev line :: split_lines s' [] else split_lines s' (c :: line)
  end.

Section executor.
Context `{Codec} `{JsonText}.

(** [String::from_utf8_lossy]. *)
Variable from_utf8_lossy : bytes → string.
Variable config : NodeConfig.

Definition container_name (server_instance_id : Uuid) : string :=
  "mcserver-" ++ uuid_to_string server_instance_id.

Definition path_of (p : node_path) : string :=
  let directory := nc_state_directory config in
  match p with
  | DataDirectory => path_join directory DATA_DIRECTORY_NAME
  | StagingDirectory => path_join directory RESTORE_STAGING_DIRECTORY_NAME
  | PreviousDirectory => path_join directory PREVIOUS_DATA_DIRECTORY_NAME
  | RestoredData => path_join (path_join directory RESTORE_STAGING_DIRECTORY_NAME) DATA_DIRECTORY_NAME
  | StatePath => path_join directory STATE_FILE_NAME
  end.

Definition bounded_diagnostic (input : bytes) : string :=
  str_trim (from_utf8_lossy (take MAX_DIAGNOSTIC_BYTES input))
  ++ (if (MAX_DIAGNOSTIC_BYTES <? length input)%nat then " …[truncated]" else "").

Definition command_failure (description : string) (output : Output) : ExecutorError :=
  EXE.CommandFailed description (out_status output) (bounded_diagnostic (out_stderr output)).

(** A line of restic's output names the snapshot it made. *)
Definition summary_snapshot_id (value : json) : option string :=
  if bool_decide ((json_get "message_type" value ≫= json_as_str) = Some "summary") then
    snapshot_id ← json_get "snapshot_id" value ≫= json_as_str;
    if negb (str_is_blank snapshot_id)
       && (str_char_count snapshot_id <=? NODE_MAX_SNAPSHOT_ID_CHARS)
       && negb (str_contains_nul snapshot_id)
    then Some snapshot_id else None
  else None.

Fixpoint find_snapshot_id (lines : list bytes) : result ExecutorError string :=
  match lines with
  | [] => Err EXE.MissingSnapshotId
  | [] :: rest => find_snapshot_id rest
  | line :: rest =>
      value ← map_err EXE.Serialization (from_slice line);
      match summary_snapshot_id value with
      | Some snapshot_id => Ok snapshot_id
      | None => find_snapshot_id rest
      end
  end.
Definition parse_backup_snapshot_id (output : bytes) : result ExecutorError string :=
  find_snapshot_id (split_lines output []).

(** ** Commands *)

(** The arguments of [podman create]. *)
Definition create_container_args (name : string) (server_instance_id server_id : Uuid)
    (process : ProcessSpec) (data : string) : list string :=
  (["create"; "--replace"; "--name"; name;
    "--label"; MANAGED_LABEL +:+ "=true";
    "--label"; LOCAL_SCOPE_LABEL +:+ "=" +:+ nc_local_scope config;
    "--label"; SERVER_ID_LABEL +:+ "=" +:+ uuid_to_string server_id;
    "--label"; SERVER_INSTANCE_ID_LABEL +:+ "=" +:+ uuid_to_string server_instance_id;
    "--label"; COMPUTE_INSTANCE_ID_LABEL +:+ "=" +:+ uuid_to_string (nc_compute_instance_id config);
    "--publish"; u64_to_string (host_port process) +:+ ":25565/tcp";
    "--volume"; data +:+ ":/data:Z";
    "--env"; "EULA=TRUE"; "--env"; "TYPE=" +:+ server_type process;
    "--env"; "VERSION=" +:+ version process;
    "--env"; "SKIP_SERVER_PROPERTIES=TRUE"; "--restart"; "no"]
   ++ flat_map (λ '(key, value), ["--env"; key +:+ "=" +:+ value]) (environment process)
   ++ ["--"; container_image process])%list.

(** restic, in the namespace that owns the data. *)
Definition restic_line (arguments : list string) : list string :=
  (match nc_data_access_mode config with
   | DAM.PodmanUserNamespace => [nc_podman_binary config; "unshare"; nc_restic_binary config]
   | DAM.Host => [nc_restic_binary config]
   end
   ++ ["--insecure-no-password"; "--retry-lock";
       u64_to_string (as_secs (nc_restic_retry_lock config)) +:+ "s"] ++ arguments)%list.

(** Program and arguments of a command. *)
Definition command_line (c : node_command) : list string :=
  let podman arguments := nc_podman_binary config :: arguments in
  match c with
  | PodmanContainerExists name => podman ["container"; "exists"; name]
  | PodmanInspectRunning name =>
      podman ["container"; "inspect"; "--format"; "{{.State.Running}}"; name]
  | PodmanRemove name => podman ["rm"; "--force"; "--ignore"; name]
  | PodmanCreate name server_instance_id server_id process data =>
      podman (create_container_args name server_instance_id server_id process data)
  | PodmanStart name => podman ["start"; name]
  | PodmanStop timeout name => podman ["stop"; "--time"; timeout; name]
  | ResticCatConfig _ => restic_line ["cat"; "config"]
  | ResticInit _ => restic_line ["init"]
  | ResticRestore _ snapshot_id target =>
      restic_line ["restore"; snapshot_id; "--target"; target; "--json"; "--quiet"]
  | ResticBackup _ server_tag instance_tag =>
      restic_line ["backup"; DATA_DIRECTORY_NAME; "--json"; "--quiet"; "--tag"; server_tag;
                   "--tag"; instance_tag]
  | UnshareRemove paths => podman (["unshare"; "rm"; "-rf"; "--"] ++ map path_of paths)%list
  | UnshareMove source destination =>
      podman ["unshare"; "mv"; "--"; path_of source; path_of destination]
  end.

(** [Command::envs] and [Command::env]: what a command's environment has besides
    the agent's own, where the runtime environment is the registration's. *)
Definition command_environment (runtime_environment : gmap string string) (c : node_command) :
    gmap string string :=
  match c with
  | ResticCatConfig repository | ResticInit repository | ResticRestore repository _ _
  | ResticBackup repository _ _ => <["RESTIC_REPOSITORY" := repository]> runtime_environment
  | _ => ∅
  end.

(** [Command::current_dir]. *)
Definition command_directory (c : node_command) : option string :=
  match c with ResticBackup _ _ _ => Some (nc_state_directory config) | _ => None end.

(** [run_command], [run_podman] and [run_restic]: a failed status is an error. *)
Definition run_checked (c : node_command) (description failure : string) :
    node_prog (result ExecutorError Output) :=
  let? output := perform (RunCommand c description) via id in
  if succeeded output then Ret (Ok output) else Ret (Err (command_failure failure output)).

Definition run_podman_allow_failure (c : node_command) : node_prog (result ExecutorError Output) :=
  perform (RunCommand c "podman").
Definition run_podman (c : node_command) : node_prog (result ExecutorError Output) :=
  run_checked c "podman" "podman".

Definition restic_description : string :=
  match nc_data_access_mode config with
  | DAM.PodmanUserNamespace => "restic in Podman user namespace"
  | DAM.Host => "restic"
  end.
Definition run_restic_allow_failure (c : node_command) : node_prog (result ExecutorError Output) :=
  perform (RunCommand c restic_description).
Definition run_restic (c : node_command) : node_prog (result ExecutorError Output) :=
  run_checked c restic_description "restic".

(** ** Files *)

Definition path_exists (p : node_path) : node_prog (result ExecutorError bool) :=
  let! found := perform (Metadata p) in
  match found with
  | Ok _ => Ret (Ok true)
  | Err IoNotFound => Ret (Ok false)
  | Err error => Ret (Err (EXE.Io error))
  end.

Definition remove_path (p : node_path) : node_prog (result ExecutorError unit) :=
  let! metadata := perform (SymlinkMetadata p) in
  match metadata with
  | Err IoNotFound => Ret (Ok tt)
  | Err error => Ret (Err (EXE.Io error))
  | Ok is_dir =>
      let? _ := perform (if (is_dir : bool) then RemoveDirAll p else RemoveFile p) via EXE.Io in
      Ret (Ok tt)
  end.

Definition remove_paths (paths : list node_path) : node_prog (result ExecutorError unit) :=
  match nc_data_access_mode config with
  | DAM.PodmanUserNamespace =>
      let? _ := run_checked (UnshareRemove paths) "podman unshare cleanup"
        "podman unshare cleanup" via id in
      Ret (Ok tt)
  | DAM.Host => prog_for_each remove_path paths
  end.

Definition move_path (source destination : node_path) : node_prog (result ExecutorError unit) :=
  match nc_data_access_mode config with
  | DAM.PodmanUserNamespace =>
      let? _ := run_checked (UnshareMove source destination) "podman unshare move"
        "podman unshare move" via id in
      Ret (Ok tt)
  | DAM.Host =>
      let? _ := perform (RenamePath source destination) via EXE.Io in
      Ret (Ok tt)
  end.

Definition load_state : node_prog (result ExecutorError AgentState) :=
  let! read := perform ReadStateFile in
  match read with
  | Ok decoded =>
      let? state := Ret decoded via EXE.Serialization in
      if negb (as_schema_version state =? AGENT_STATE_SCHEMA_VERSION)
      then Ret (Err (EXE.UnsupportedStateSchemaVersion (as_schema_version state)))
      else Ret (Ok state)
  | Err IoNotFound => Ret (Ok AgentState_default)
  | Err error => Ret (Err (EXE.Io error))
  end.

Definition store_state (state : AgentState) : node_prog (result ExecutorError unit) :=
  let? _ := perform MakePrivateDirectory via EXE.Io in
  let? _ := perform (WriteTemporaryState state) via id in
  let? _ := perform RenameTemporaryState via EXE.Io in
  let? _ := perform SyncStateDirectory via EXE.Io in
  Ret (Ok tt).

(** ** Containers *)

Definition container_exists (server_instance_id : Uuid) : node_prog (result ExecutorError bool) :=
  let? output := run_podman_allow_failure
    (PodmanContainerExists (container_name server_instance_id)) via id in
  Ret match out_status output with
      | Some 0 => Ok true
      | Some 1 => Ok false
      | _ => Err (command_failure "podman container exists" output)
      end.

Definition container_running (server_instance_id : Uuid) : node_prog (result ExecutorError bool) :=
  let? exists_ := container_exists server_instance_id via id in
  if negb exists_ then Ret (Ok false)
  else
    let? output := run_podman (PodmanInspectRunning (container_name server_instance_id)) via id in
    let value := String.string_of_list_ascii (out_stdout output) in
    if negb (utf8_valid value) then Ret (Err EXE.Utf8)
    else
      let trimmed := str_trim value in
      if String.eqb trimmed "true" then Ret (Ok true)
      else if String.eqb trimmed "false" then Ret (Ok false)
      else Ret (Err (EXE.UnexpectedPodmanOutput trimmed)).

Definition remove_container (server_instance_id : Uuid) : node_prog (result ExecutorError unit) :=
  let? _ := run_podman (PodmanRemove (container_name server_instance_id)) via id in
  Ret (Ok tt).

Definition create_container (server_instance_id server_id : Uuid) (process : ProcessSpec) :
    node_prog (result ExecutorError unit) :=
  if negb (accept_eula process) then Ret (Err EXE.EulaNotAccepted)
  else
    let? data := Ret (path_to_string (path_of DataDirectory)) via id in
    let? _ := run_checked (PodmanCreate (container_name server_instance_id) server_instance_id
      server_id process data) "podman create" "podman create" via id in
    Ret (Ok tt).

(** ** Repositories *)

Definition ensure_restic_repository (repository : string) : node_prog (result ExecutorError unit) :=
  let? check := run_restic_allow_failure (ResticCatConfig repository) via id in
  if succeeded check then Ret (Ok tt)
  else
    let? initialization := run_restic_allow_failure (ResticInit repository) via id in
    if succeeded initialization then Ret (Ok tt)
    else
      let? second_check := run_restic_allow_failure (ResticCatConfig repository) via id in
      if succeeded second_check then Ret (Ok tt)
      else Ret (Err (command_failure "restic init" initialization)).

(** [unwrap_or]. *)
Definition unwrap_or {E A} (r : result E A) (default : A) : A :=
  match r with Ok a => a | Err _ => default end.

(** The end of [restore_snapshot]: the restored directory takes the place of the
    data, which is put back when that fails. *)
Definition swap_restored : node_prog (result ExecutorError unit) :=
  let? data_exists := path_exists DataDirectory via id in
  let? _ := (if (data_exists : bool) then move_path DataDirectory PreviousDirectory
             else Ret (Ok tt)) via id in
  let! moved := move_path RestoredData DataDirectory in
  match moved with
  | Err error =>
      let! previous_exists := path_exists PreviousDirectory in
      let! _ :=
        (if unwrap_or previous_exists false then
           let! data_exists := path_exists DataDirectory in
           if negb (unwrap_or data_exists true)
           then move_path PreviousDirectory DataDirectory else Ret (Ok tt)
         else Ret (Ok tt)) in
      Ret (Err error)
  | Ok _ =>
      let? _ := remove_paths [PreviousDirectory; StagingDirectory] via id in
      Ret (Ok tt)
  end.

(** An interrupted swap is undone first. *)
Definition recover_interrupted_swap : node_prog (result ExecutorError unit) :=
  let? data_exists := path_exists DataDirectory via id in
  if (data_exists : bool) then Ret (Ok tt)
  else
    let? previous_exists := path_exists PreviousDirectory via id in
    if (previous_exists : bool) then move_path PreviousDirectory DataDirectory else Ret (Ok tt).

Definition restore_snapshot (repository snapshot_id : string) :
    node_prog (result ExecutorError unit) :=
  let? _ := recover_interrupted_swap via id in
  let? _ := remove_paths [StagingDirectory; PreviousDirectory] via id in
  let? _ := perform (CreateDirAll StagingDirectory) via EXE.Io in
  let? staging := Ret (path_to_string (path_of StagingDirectory)) via id in
  let? _ := run_restic (ResticRestore repository snapshot_id staging) via id in
  let missing := EXE.RestoreMissingDataDirectory (path_of RestoredData) in
  let? is_dir := perform (Metadata RestoredData)
    via (λ error, match error with IoNotFound => missing | _ => EXE.Io error end) in
  if negb is_dir then Ret (Err missing) else swap_restored.

(** ** Requests *)

Definition set_instance (state : AgentState) (instance : InstanceState) : AgentState :=
  {| as_schema_version := as_schema_version state; as_instance := Some instance |}.
Definition set_data_prepared (i : InstanceState) : InstanceState :=
  {| is_server_instance_id := is_server_instance_id i; is_fencing_token := is_fencing_token i;
     is_server_id := is_server_id i; is_repository := is_repository i;
     is_source_snapshot_id := is_source_snapshot_id i; is_data_prepared := true;
     is_last_snapshot_id := is_last_snapshot_id i |}.
Definition set_last_snapshot_id (id : string) (i : InstanceState) : InstanceState :=
  {| is_server_instance_id := is_server_instance_id i; is_fencing_token := is_fencing_token i;
     is_server_id := is_server_id i; is_repository := is_repository i;
     is_source_snapshot_id := is_source_snapshot_id i; is_data_prepared := is_data_prepared i;
     is_last_snapshot_id := Some id |}.

(** [if let Some(instance) = state.instance.as_ref() { validate_identity(..)?; }]. *)
Definition validate_assigned (state : AgentState) (identity : InstanceIdentity) :
    result ExecutorError unit :=
  match as_instance state with Some i => validate_identity i identity | None => Ok tt end.

Definition executor_inspect (identity : InstanceIdentity) :
    node_prog (result ExecutorError AgentInspectResult) :=
  let? state := load_state via id in
  let? _ := Ret (validate_assigned state identity) via id in
  let? running := container_running (server_instance_id identity) via id in
  Ret (Ok {| data_prepared := is_some_and is_data_prepared (as_instance state);
             process_running := running;
             last_snapshot_id := as_instance state ≫= is_last_snapshot_id |}).

Definition executor_restore_data (params : RestoreDataParams) :
    node_prog (result ExecutorError bool) :=
  let? loaded := load_state via id in
  let '(ensured, state) := ensure_instance_state loaded (restore_instance params)
    (restore_server_id params) (restore_repository params) (restore_source_snapshot_id params) in
  let? _ := Ret ensured via id in
  if is_some_and is_data_prepared (as_instance state) then Ret (Ok false)
  else
    let? _ := perform MakePrivateDirectory via EXE.Io in
    let? _ := ensure_restic_repository (restore_repository params) via id in
    let? _ :=
      match restore_source_snapshot_id params with
      | Some snapshot_id => restore_snapshot (restore_repository params) snapshot_id
      | None =>
          let? _ := remove_paths [DataDirectory] via id in
          let? _ := perform (CreateDirAll DataDirectory) via EXE.Io in
          Ret (Ok tt)
      end via id in
    let? instance := Ret (ok_or EXE.UnknownInstance (as_instance state)) via id in
    let? _ := Ret (validate_identity instance (restore_instance params)) via id in
    let? _ := store_state (set_instance state (set_data_prepared instance)) via id in
    Ret (Ok true).

Definition executor_start_server (params : StartServerParams) :
    node_prog (result ExecutorError bool) :=
  let id_ := server_instance_id (start_instance params) in
  let? state := load_state via id in
  let? instance := Ret (ok_or EXE.DataNotPrepared (as_instance state)) via id in
  let? _ := Ret (validate_identity instance (start_instance params)) via id in
  if negb (is_data_prepared instance) then Ret (Err EXE.DataNotPrepared)
  else
    let? running := container_running id_ via id in
    if (running : bool) then Ret (Ok false)
    else
      let? _ := remove_container id_ via id in
      let? _ := create_container id_ (is_server_id instance) (start_process params) via id in
      let? _ := run_podman (PodmanStart (container_name id_)) via id in
      Ret (Ok true).

Definition executor_stop_server (params : StopServerParams) :
    node_prog (result ExecutorError bool) :=
  let id_ := server_instance_id (stop_instance params) in
  let? state := load_state via id in
  let? instance := Ret (ok_or EXE.UnknownInstance (as_instance state)) via id in
  let? _ := Ret (validate_identity instance (stop_instance params)) via id in
  let? running := container_running id_ via id in
  if negb running then Ret (Ok false)
  else
    let? _ := run_podman (PodmanStop (u64_to_string (stop_stop_timeout_seconds params))
      (container_name id_)) via id in
    Ret (Ok true).

Definition executor_snapshot_data (params : SnapshotDataParams) :
    node_prog (result ExecutorError string) :=
  let id_ := server_instance_id (snapshot_instance params) in
  let? state := load_state via id in
  let? instance := Ret (ok_or EXE.UnknownInstance (as_instance state)) via id in
  let? _ := Ret (validate_identity instance (snapshot_instance params)) via id in
  if negb (is_server_id instance =? snapshot_server_id params)%N
     || negb (String.eqb (is_repository instance) (snapshot_repository params))
  then Ret (Err EXE.ImmutableInstanceConfigurationChanged)
  else
    let? running := container_running id_ via id in
    if (running : bool) then Ret (Err EXE.ProcessStillRunning)
    else
      let? _ := ensure_restic_repository (snapshot_repository params) via id in
      let? output := run_restic (ResticBackup (snapshot_repository params)
        ("mcserver-server:" ++ uuid_to_string (snapshot_server_id params))
        ("mcserver-instance:" ++ uuid_to_string id_)) via id in
      let? snapshot_id := Ret (parse_backup_snapshot_id (out_stdout output)) via id in
      let? _ := Ret (validate_identity instance (snapshot_instance params)) via id in
      let? _ := store_state (set_instance state (set_last_snapshot_id snapshot_id instance))
        via id in
      Ret (Ok snapshot_id).

(** The loop of [instance_storage_exists]. *)
Fixpoint any_path_exists (paths : list node_path) : node_prog (result ExecutorError bool) :=
  match paths with
  | [] => Ret (Ok false)
  | p :: paths =>
      let? found := path_exists p via id in
      if (found : bool) then Ret (Ok true) else any_path_exists paths
  end.
Definition instance_storage_exists : node_prog (result ExecutorError bool) :=
  any_path_exists [DataDirectory; StagingDirectory; PreviousDirectory; StatePath].

Definition remove_instance_storage : node_prog (result ExecutorError unit) :=
  let? _ := remove_paths [DataDirectory; StagingDirectory; PreviousDirectory] via id in
  let! removed := perform (RemoveFile StatePath) in
  match removed with
  | Ok _ | Err IoNotFound => Ret (Ok tt)
  | Err error => Ret (Err (EXE.Io error))
  end.

Definition executor_cleanup_instance (params : CleanupInstanceParams) :
    node_prog (result ExecutorError bool) :=
  let id_ := server_instance_id (cleanup_instance params) in
  let? state := load_state via id in
  let? _ := Ret (validate_assigned state (cleanup_instance params)) via id in
  let? container_existed := container_exists id_ via id in
  let? _ := remove_container id_ via id in
  let? storage_existed := instance_storage_exists via id in
  let? _ := remove_instance_storage via id in
  Ret (Ok (container_existed || storage_existed)).
End executor.
