(* ===== verification/NodeSemantics.v ===== *)
(** What commands and file-system calls do to a node: documented behaviour of
    Podman, restic and the file system, with every way to fail.

    A failed or timed-out call may have taken effect in part; between any two
    calls a running container may write its data and may exit; and the agent may
    stop at any point. *)
From S2P Require Import Prelude Text Programs JsonRpc Framing Server Instances Database.
From S2P Require Import Repositories Effects NodeConfig NodeAgent.
#[local] Open Scope string_scope.
#[local] Open Scope Z_scope.

(** Files of a directory tree, by relative path. *)
Abbreviation content := (gmap string string).

(** The state file and its temporary copy (what they decode to), the three
    directories (the staging directory and the restored tree in it), the
    containers and whether they run, and the snapshots of the restic
    repositories. *)
Record node := {
  n_file : option (result string AgentState);
  n_temporary : option (result string AgentState);
  n_data : option content;
  n_previous : option content;
  n_staging : option (option content);
  n_containers : gmap string bool;
  n_repository : gmap (string * string) content;
}.

Definition set_file v n := {| n_file := v; n_temporary := n_temporary n; n_data := n_data n;
  n_previous := n_previous n; n_staging := n_staging n; n_containers := n_containers n;
  n_repository := n_repository n |}.
Definition set_temporary v n := {| n_file := n_file n; n_temporary := v; n_data := n_data n;
  n_previous := n_previous n; n_staging := n_staging n; n_containers := n_containers n;
  n_repository := n_repository n |}.
Definition set_node_data v n := {| n_file := n_file n; n_temporary := n_temporary n; n_data := v;
  n_previous := n_previous n; n_staging := n_staging n; n_containers := n_containers n;
  n_repository := n_repository n |}.
Definition set_previous v n := {| n_file := n_file n; n_temporary := n_temporary n;
  n_data := n_data n; n_previous := v; n_staging := n_staging n; n_containers := n_containers n;
  n_repository := n_repository n |}.
Definition set_staging v n := {| n_file := n_file n; n_temporary := n_temporary n;
  n_data := n_data n; n_previous := n_previous n; n_staging := v;
  n_containers := n_containers n; n_repository := n_repository n |}.
Definition set_containers v n := {| n_file := n_file n; n_temporary := n_temporary n;
  n_data := n_data n; n_previous := n_previous n; n_staging := n_staging n;
  n_containers := v; n_repository := n_repository n |}.
Definition set_repository v n := {| n_file := n_file n; n_temporary := n_temporary n;
  n_data := n_data n; n_previous := n_previous n; n_staging := n_staging n;
  n_containers := n_containers n; n_repository := v |}.

Definition empty_node : node :=
  {| n_file := None; n_temporary := None; n_data := None; n_previous := None;
     n_staging := None; n_containers := ∅; n_repository := ∅ |}.

(** ** Directories *)

Definition dir_of (p : node_path) (n : node) : option content :=
  match p with
  | DataDirectory => n_data n
  | PreviousDirectory => n_previous n
  | RestoredData => n_staging n ≫= id
  | StagingDirectory | StatePath => None
  end.
Definition set_dir (p : node_path) (v : option content) (n : node) : node :=
  match p with
  | DataDirectory => set_node_data v n
  | PreviousDirectory => set_previous v n
  | RestoredData => set_staging (Some v) n
  | StagingDirectory | StatePath => n
  end.

Definition path_present (p : node_path) (n : node) : bool :=
  match p with
  | StagingDirectory => is_some (n_staging n)
  | StatePath => is_some (n_file n)
  | p => is_some (dir_of p n)
  end.
Definition is_directory (p : node_path) : bool := match p with StatePath => false | _ => true end.

(** A path is gone. *)
Definition removed (p : node_path) (n : node) : node :=
  match p with
  | DataDirectory => set_node_data None n
  | PreviousDirectory => set_previous None n
  | StagingDirectory => set_staging None n
  | RestoredData => set_staging (const None <$> n_staging n) n
  | StatePath => set_file None n
  end.

(** A path exists, empty if it did not. *)
Definition created (p : node_path) (n : node) : node :=
  if path_present p n then n
  else match p with
       | DataDirectory => set_node_data (Some ∅) n
       | PreviousDirectory => set_previous (Some ∅) n
       | StagingDirectory => set_staging (Some None) n
       | RestoredData => set_staging (Some (Some ∅)) n
       | StatePath => n
       end.

(** Nothing but the given directories changed. *)
Definition damaged (ps : list node_path) (n n' : node) : Prop :=
  n_file n' = n_file n ∧ n_temporary n' = n_temporary n ∧ n_containers n' = n_containers n ∧
  n_repository n' = n_repository n ∧
  (DataDirectory ∉ ps → n_data n' = n_data n) ∧
  (PreviousDirectory ∉ ps → n_previous n' = n_previous n) ∧
  (StagingDirectory ∉ ps → RestoredData ∉ ps → n_staging n' = n_staging n).

(** [rename] of a directory to a name that is free or an empty directory. *)
Definition moved (source destination : node_path) (n n' : node) : Prop :=
  ∃ c, dir_of source n = Some c ∧
    (dir_of destination n = None ∨ dir_of destination n = Some ∅) ∧
    n' = set_dir destination (Some c) (set_dir source None n).

(** [mv], which moves into a directory that exists. *)
Definition moved_by_mv (source destination : node_path) (n n' : node) : Prop :=
  ∃ c, dir_of source n = Some c ∧
    match dir_of destination n with
    | None => n' = set_dir destination (Some c) (set_dir source None n)
    | Some _ => damaged [source; destination] n n'
    end.

(** ** Commands *)

Definition quiet (n : node) : Prop := ∀ name, n_containers n !! name ≠ Some true.

Section semantics.
Context `{Codec} `{JsonText}.

(** restic's output: messages in lines, one of them the summary with the id of
    the snapshot, which is printable and not longer than a digest. *)
Definition restic_id (id : string) : Prop :=
  str_is_blank id = false ∧ str_contains_nul id = false ∧ str_char_count id ≤ 64.
Definition backup_output (output : bytes) (id : string) : Prop :=
  ∃ before summary after v, split_lines output [] = (before ++ summary :: after)%list ∧
    Forall (λ line, line = [] ∨
      ∃ v, from_slice line = Ok v ∧ json_get "message_type" v ≠ Some (JString "summary")) before ∧
    summary ≠ [] ∧ from_slice summary = Ok v ∧
    json_get "message_type" v = Some (JString "summary") ∧
    json_get "snapshot_id" v = Some (JString id) ∧ restic_id id.

(** A command that ended with status 0. *)
Definition command_done (n : node) (c : node_command) (output : Output) (n' : node) : Prop :=
  match c with
  | PodmanContainerExists name => n' = n ∧ is_Some (n_containers n !! name)
  | PodmanInspectRunning name => n' = n ∧ ∃ running, n_containers n !! name = Some running ∧
      str_trim (String.string_of_list_ascii (out_stdout output)) =
        if (running : bool) then "true" else "false"
  | PodmanRemove name => n' = set_containers (delete name (n_containers n)) n
  | PodmanCreate name _ _ _ _ => n' = set_containers (<[name := false]> (n_containers n)) n
  | PodmanStart name => is_Some (n_containers n !! name) ∧
      n' = set_containers (<[name := true]> (n_containers n)) n
  | PodmanStop _ name => n' = set_containers (<[name := false]> (n_containers n)) n
  | ResticCatConfig _ | ResticInit _ => n' = n
  | ResticRestore repository snapshot _ => ∃ c c', n_repository n !! (repository, snapshot) = Some c ∧
      (n_staging n = Some None → c' = c) ∧ n' = set_staging (Some (Some c')) n
  | ResticBackup repository _ _ => ∃ id c d, backup_output (out_stdout output) id ∧
      n_data n = Some d ∧ (quiet n → c = d) ∧
      (n_repository n !! (repository, id) = None ∨ n_repository n !! (repository, id) = Some c) ∧
      n' = set_repository (<[(repository, id) := c]> (n_repository n)) n
  | UnshareRemove paths => n' = foldl (flip removed) n paths
  | UnshareMove source destination => moved_by_mv source destination n n'
  end.

(** A command that failed, was cut off or could not be waited for. *)
Definition command_failed (n : node) (c : node_command) (n' : node) : Prop :=
  match c with
  | PodmanContainerExists _ | PodmanInspectRunning _ | ResticCatConfig _ | ResticInit _ => n' = n
  | PodmanRemove name => n' = n ∨ n' = set_containers (delete name (n_containers n)) n ∨
      (is_Some (n_containers n !! name) ∧
       n' = set_containers (<[name := false]> (n_containers n)) n)
  | PodmanCreate name _ _ _ _ => n' = n ∨ n' = set_containers (delete name (n_containers n)) n ∨
      n' = set_containers (<[name := false]> (n_containers n)) n
  | PodmanStart name => n' = n ∨ (is_Some (n_containers n !! name) ∧
      n' = set_containers (<[name := true]> (n_containers n)) n)
  | PodmanStop _ name => n' = n ∨ (is_Some (n_containers n !! name) ∧
      n' = set_containers (<[name := false]> (n_containers n)) n)
  | ResticRestore _ _ _ => ∃ staging, n' = set_staging staging n
  | ResticBackup repository _ _ => n' = n ∨ ∃ id c, n_repository n !! (repository, id) = None ∧
      n' = set_repository (<[(repository, id) := c]> (n_repository n)) n
  | UnshareRemove paths => damaged paths n n'
  | UnshareMove source destination => n' = n ∨ moved_by_mv source destination n n'
  end.

Definition command_step (n : node) (c : node_command) (r : result ExecutorError Output)
    (n' : node) : Prop :=
  match r with
  | Ok output =>
      if succeeded output then command_done n c output n'
      else command_failed n c n' ∧
           match c with
           | PodmanContainerExists name =>
               out_status output = Some 1 → n_containers n !! name = None
           | _ => True
           end
  | Err _ => command_failed n c n'
  end.

(** ** Operations *)

Definition lookup_answer (p : node_path) (n : node) (r : result io_error bool) : Prop :=
  match r with
  | Ok is_dir => path_present p n = true ∧ is_dir = is_directory p
  | Err IoNotFound => path_present p n = false
  | Err _ => True
  end.

Definition node_step (n : node) {X} (o : node_op X) : X → node → Prop :=
  match o in node_op X return X → node → Prop with
  | RunCommand c _ => λ r n', command_step n c r n'
  | ReadStateFile => λ r n', n' = n ∧
      match r with
      | Ok decoded => n_file n = Some decoded
      | Err IoNotFound => n_file n = None
      | Err _ => True
      end
  | WriteTemporaryState s => λ r n',
      match r with
      | Ok _ => n' = set_temporary (Some (Ok s)) n
      | Err _ => ∃ t, n' = set_temporary t n
      end
  | RenameTemporaryState => λ r n',
      match r with
      | Ok _ => ∃ t, n_temporary n = Some t ∧ n' = set_file (Some t) (set_temporary None n)
      | Err _ => n' = n
      end
  | SyncStateDirectory | MakePrivateDirectory => λ _ n', n' = n
  | Metadata p | SymlinkMetadata p => λ r n', n' = n ∧ lookup_answer p n r
  | CreateDirAll p => λ r n',
      match r with Ok _ => n' = created p n | Err _ => n' = n ∨ n' = created p n end
  | RemoveDirAll p => λ r n',
      match r with Ok _ => n' = removed p n | Err _ => damaged [p] n n' end
  | RemoveFile p => λ r n',
      match r with
      | Ok _ => n' = removed p n
      | Err IoNotFound => n' = n ∧ path_present p n = false
      | Err _ => n' = n
      end
  | RenamePath source destination => λ r n',
      match r with Ok _ => moved source destination n n' | Err _ => n' = n end
  end.

(** What happens on the node by itself: a running container writes its data or
    exits, and other nodes add snapshots to the repositories. *)
Inductive node_env : node → node → Prop :=
| env_write n name d d' :
    n_containers n !! name = Some true → n_data n = Some d →
    node_env n (set_node_data (Some d') n)
| env_exit n name :
    n_containers n !! name = Some true →
    node_env n (set_containers (<[name := false]> (n_containers n)) n)
| env_snapshot n key c :
    n_repository n !! key = None →
    node_env n (set_repository (<[key := c]> (n_repository n)) n).

(** Runs of a program; [None] when the agent stopped in the middle. *)
Inductive node_run {A} : node → node_prog A → node → option A → Prop :=
| run_ret n a : node_run n (Ret a) n (Some a)
| run_stop n p : node_run n p n None
| run_op {X} (o : node_op X) k x n n1 n2 n' r :
    rtc node_env n n1 → node_step n1 o x n2 → node_run n2 (k x) n' r →
    node_run n (Op o k) n' r
| run_wait {X} (o : node_op X) (k : X → node_prog A) n n1 :
    rtc node_env n n1 → node_run n (Op o k) n1 None.
End semantics.
