(* ===== verification/NodeFacts.v ===== *)
(** Reasoning about runs of the node agent: triples with an assertion that holds
    whenever the agent may stop, and the behaviour of each helper of the
    executor under it. *)
From S2P Require Import Prelude Text Programs JsonRpc Framing Server Instances InstanceFacts.
From S2P Require Import Database Repositories Effects NodeConfig NodeAgent NodeSemantics.
#[local] Open Scope string_scope.
#[local] Open Scope Z_scope.

(** The three directories. *)
Abbreviation dirs_t := (option content * option content * option (option content))%type.

(** The directories among the paths. *)
Abbreviation directories := (Forall (λ p, is_directory p = true)).

Section logic.
Context `{Codec} `{JsonText}.

(** ** Triples *)

(** [I] holds at every point of every run of [p] from [n], and [Q] at its end. *)
Fixpoint safe {A} (I : node → Prop) (Q : A → node → Prop) (p : node_prog A) (n : node) : Prop :=
  I n ∧
  match p with
  | Ret a => Q a n
  | Op o k => ∀ n1 x n2, rtc node_env n n1 → node_step n1 o x n2 → safe I Q (k x) n2
  end.

Definition triple {A} (I P : node → Prop) (p : node_prog A) (Q : A → node → Prop) : Prop :=
  ∀ n, P n → safe I Q p n.

Lemma node_run_inv {A} n (p : node_prog A) n' r :
  node_run n p n' r →
  match p with
  | Ret a => n' = n ∧ (r = Some a ∨ r = None)
  | Op o k => (r = None ∧ rtc node_env n n') ∨
      ∃ x n1 n2, rtc node_env n n1 ∧ node_step n1 o x n2 ∧ node_run n2 (k x) n' r
  end.
Proof. destruct 1 as [|n p| |]; [auto| |right; eauto 10|auto]. destruct p; [auto|by left]. Qed.

Lemma node_run_bind_inv {A B} (p : node_prog A) (f : A → node_prog B) n n' b :
  node_run n (prog_bind p f) n' (Some b) →
  ∃ a n1, node_run n p n1 (Some a) ∧ node_run n1 (f a) n' (Some b).
Proof.
  revert n. induction p as [a|X o k IH]; intros n Hr; cbn [prog_bind] in Hr.
  - exists a, n. split; [constructor|done].
  - apply node_run_inv in Hr. destruct Hr as [[? _]|(x & n1 & n2 & He & Hs & Hr)]; [done|].
    destruct (IH _ _ Hr) as (a & n3 & Ha & Hb). exists a, n3. split; [by econstructor|done].
Qed.
Lemma node_run_ret_inv {A} (a b : A) n n' : node_run n (Ret a) n' (Some b) → n' = n ∧ b = a.
Proof. intros [-> [[= ->]|]]%node_run_inv; done. Qed.

Lemma node_run_bind_ret {A B} (p : node_prog A) (f : A → B) n n' a :
  node_run n p n' (Some a) → node_run n (prog_bind p (λ a, Ret (f a))) n' (Some (f a)).
Proof.
  revert n. induction p as [b|X o k IH]; intros n Hr; cbn [prog_bind].
  - apply node_run_ret_inv in Hr as [-> ->]. constructor.
  - apply node_run_inv in Hr as [[? _]|(x & n1 & n2 & He & Hs & Hr)]; [done|].
    econstructor; [exact He|exact Hs|by apply IH].
Qed.

Definition node_stable (P : node → Prop) : Prop := ∀ n n', P n → node_env n n' → P n'.

Lemma node_stable_rtc P n n' : node_stable P → rtc node_env n n' → P n → P n'.
Proof. intros HP. induction 1; eauto. Qed.

Lemma safe_now {A} I (Q : A → node → Prop) p n : safe I Q p n → I n.
Proof. destruct p; by intros [? _]. Qed.

Lemma safe_run {A} I (Q : A → node → Prop) p n n' r :
  node_stable I → safe I Q p n → node_run n p n' r → I n' ∧ ∀ a, r = Some a → Q a n'.
Proof.
  intros HI Hs Hr. induction Hr as [n a|n p|X o k x n n1 n2 n' r He Hst Hr IH|X o k n n1 He].
  - destruct Hs as [? ?]. split; [done|]. by intros ? [= <-].
  - split; [by eapply safe_now|done].
  - apply IH. destruct Hs as [_ Hs]. by eapply Hs.
  - split; [|done]. eapply node_stable_rtc; [done|done|]. by eapply safe_now.
Qed.

Lemma safe_bind {A B} I (Q : A → node → Prop) (R : B → node → Prop) m f n :
  safe I Q m n → (∀ a n, Q a n → safe I R (f a) n) → safe I R (prog_bind m f) n.
Proof.
  intros Hm Hf. revert n Hm. induction m as [a|X o k IH]; intros n [Hi Hm]; cbn.
  - by apply Hf.
  - split; [done|]. intros n1 x n2 He Hs. apply IH. by eapply Hm.
Qed.

Lemma triple_bind {A B} I P (Q : A → node → Prop) (R : B → node → Prop) m f :
  triple I P m Q → (∀ a, triple I (Q a) (f a) R) → triple I P (prog_bind m f) R.
Proof. intros Hm Hf n Hn. eapply safe_bind; [by apply Hm|]. intros a n' Ha. by apply Hf. Qed.

(** [m.await?]: errors end the run, with nothing but [I] to show. *)
Definition or_err {E A} (I : node → Prop) (Q : A → node → Prop) (r : result E A) (n : node) : Prop :=
  match r with Ok a => Q a n | Err _ => I n end.

Lemma triple_try {E F A B} I P (Q : A → node → Prop) (R : B → node → Prop) (conv : E → F) m f :
  triple I P m (or_err I Q) → (∀ a, triple I (Q a) (f a) (or_err I R)) →
  triple I P (try_bind conv m f) (or_err I R).
Proof.
  intros Hm Hf. eapply triple_bind; [exact Hm|]. intros [a|e]; cbn; [apply Hf|].
  by intros n Hn; split.
Qed.

Lemma triple_ret {A} I (P : node → Prop) (Q : A → node → Prop) a :
  (∀ n, P n → I n) → (∀ n, P n → Q a n) → triple I P (Ret a) Q.
Proof. intros HI HQ n Hn. split; auto. Qed.

Lemma triple_fail {E A} I (P : node → Prop) (Q : A → node → Prop) (e : E) :
  (∀ n, P n → I n) → triple I P (Ret (Err e)) (or_err I Q).
Proof. intros HI. by apply triple_ret. Qed.

Lemma triple_conseq {A} I (P P' : node → Prop) (Q Q' : A → node → Prop) p :
  (∀ n, P n → P' n) → (∀ a n, Q' a n → Q a n) → triple I P' p Q' → triple I P p Q.
Proof.
  intros HP HQ Hp n Hn. specialize (Hp n (HP n Hn)). clear Hn. revert n Hp.
  induction p as [a|X o k IH]; intros n [Hi Hp]; (split; [done|]); [by apply HQ|].
  intros n1 x n2 He Hs. apply IH. by eapply Hp.
Qed.

Lemma triple_post {A} I (P : node → Prop) (Q' Q : A → node → Prop) p :
  triple I P p Q' → (∀ a n, Q' a n → Q a n) → triple I P p Q.
Proof. intros Hp HQ. exact (triple_conseq _ _ _ _ _ _ (λ _ h, h) HQ Hp). Qed.
Lemma triple_pre {A} I (P P' : node → Prop) (Q : A → node → Prop) p :
  (∀ n, P n → P' n) → triple I P' p Q → triple I P p Q.
Proof. intros HP Hp. exact (triple_conseq _ _ _ _ _ _ HP (λ _ _ h, h) Hp). Qed.

Lemma triple_always {A} (I' I : node → Prop) P (Q : A → node → Prop) p :
  (∀ n, I' n → I n) → triple I' P p Q → triple I P p Q.
Proof.
  intros HI Hp n Hn. specialize (Hp n Hn). clear Hn. revert n Hp.
  induction p as [a|X o k IH]; intros n [Hi Hp]; (split; [auto|]); [done|].
  intros n1 x n2 He Hs. apply IH. by eapply Hp.
Qed.

(** One operation. *)
Lemma triple_op {X} I (P : node → Prop) (o : node_op X) (Q : X → node → Prop) :
  node_stable P → (∀ n, P n → I n) →
  (∀ n x n', P n → node_step n o x n' → I n' ∧ Q x n') →
  triple I P (perform o) Q.
Proof.
  intros HP HI Ho n Hn. split; [by apply HI|]. intros n1 x n2 He Hs.
  destruct (Ho n1 x n2) as [? ?]; [by eapply node_stable_rtc|done|]. by split.
Qed.

Lemma triple_exists {A B} I (P : B → node → Prop) p (Q : A → node → Prop) :
  (∀ b, triple I (P b) p Q) → triple I (λ n, ∃ b, P b n) p Q.
Proof. intros Hp n [b Hb]. by eapply Hp. Qed.

Lemma triple_pure {A} I (φ : Prop) (P : node → Prop) p (Q : A → node → Prop) :
  (φ → triple I P p Q) → triple I (λ n, φ ∧ P n) p Q.
Proof. intros Hp n [? ?]. by apply Hp. Qed.

(** ** Assertions *)

Definition dirs (n : node) : dirs_t := (n_data n, n_previous n, n_staging n).

(** The state file is [f], the containers satisfy [C], the repositories have at
    least the snapshots [r], and the directories satisfy [D]. *)
Definition holds_at (f : option (result string AgentState)) (C : gmap string bool → Prop)
    (r : gmap (string * string) content) (D : dirs_t → Prop) (n : node) : Prop :=
  n_file n = f ∧ C (n_containers n) ∧ r ⊆ n_repository n ∧ D (dirs n).

Definition any_dirs (d : dirs_t) : Prop := True.
Definition silent (m : gmap string bool) : Prop := ∀ name, m !! name ≠ Some true.

(** The assertion survives what a container does by itself. *)
Definition exit_closed (C : gmap string bool → Prop) : Prop :=
  ∀ m name, C m → m !! name = Some true → C (<[name := false]> m).
Definition write_closed (D : dirs_t → Prop) : Prop :=
  ∀ d d' p s, D (Some d, p, s) → D (Some d', p, s).
Definition closed (C : gmap string bool → Prop) (D : dirs_t → Prop) : Prop :=
  exit_closed C ∧ ((∀ m, C m → silent m) ∨ write_closed D).

Lemma holds_at_stable f C r D : closed C D → node_stable (holds_at f C r D).
Proof.
  intros [HC HD] n n' (Hf & Hc & Hr & Hd) He.
  destruct He as [n name d d' Hrun Hdata|n name Hrun|n key c Hfresh]; unfold holds_at, dirs in *; cbn.
  - destruct HD as [HD|HD]; [by destruct (HD _ Hc name)|]. rewrite Hdata in Hd.
    split_and!; [done..|]. by eapply HD.
  - split_and!; [done| |done..]. by apply HC.
  - split_and!; [done..| |done]. etrans; [done|]. by apply insert_subseteq.
Qed.

Lemma holds_at_weaken f C C' r D D' n :
  (∀ m, C m → C' m) → (∀ d, D d → D' d) → holds_at f C r D n → holds_at f C' r D' n.
Proof. intros HC HD (? & ? & ? & ?). split_and!; auto. Qed.

Lemma holds_at_left f C φ r D n : holds_at f (λ m, C m ∧ φ m) r D n → holds_at f C r D n.
Proof. apply holds_at_weaken; [|done]. by intros m []. Qed.
Lemma holds_at_any f C r D n : holds_at f C r D n → holds_at f C r any_dirs n.
Proof. by apply holds_at_weaken. Qed.

Lemma any_dirs_closed C : exit_closed C → closed C any_dirs.
Proof. intros ?. split; [done|]. by right. Qed.
Lemma silent_closed D : closed silent D.
Proof. split; [|by left]. intros m name Hm Hn. by destruct (Hm name). Qed.

(** A part of the directories was damaged, the rest of the node is the same. *)
Lemma holds_at_damaged f C r ps n n' D :
  holds_at f C r D n → damaged ps n n' → holds_at f C r any_dirs n'.
Proof.
  intros (Hf & Hc & Hr & _) (Hf' & _ & Hc' & Hr' & _). unfold holds_at.
  rewrite Hf', Hc', Hr'. by split_and!.
Qed.

(** ** Operations that leave the directories alone *)

Section observing.
Context (I P : node → Prop) (HP : node_stable P) (HI : ∀ n, P n → I n).

Lemma triple_silent_op {X} (o : node_op X) :
  (∀ n x n', node_step n o x n' → n' = n) → triple I P (perform o) (λ _, P).
Proof. intros Ho. apply triple_op; [done..|]. intros n x n' Hn Hs. rewrite (Ho _ _ _ Hs). auto. Qed.

Lemma triple_make_private_directory : triple I P (perform MakePrivateDirectory) (or_err I (λ _, P)).
Proof.
  eapply triple_post; [by apply triple_silent_op|]. intros [?|?] n Hn; cbn; auto.
Qed.

(** A command that only looks. *)
Definition looks (c : node_command) : Prop :=
  (∀ n output n', command_done n c output n' → n' = n) ∧ (∀ n n', command_failed n c n' → n' = n).

Lemma triple_looks c description :
  looks c → triple I P (perform (RunCommand c description)) (or_err I (λ _, P)).
Proof.
  intros [Hd Hf]. apply triple_op; [done..|]. intros n r n' Hn Hs. cbn in Hs.
  assert (n' = n) as ->; [|by destruct r; cbn; auto].
  destruct r as [output|]; cbn in Hs; [|by apply Hf].
  destruct (succeeded output); [by eapply Hd|by apply Hf, Hs].
Qed.

Lemma triple_return {E A} (r : result E A) : triple I P (Ret r) (or_err I (λ a n, r = Ok a ∧ P n)).
Proof. apply triple_ret; [done|]. intros n Hn. destruct r; cbn; auto. Qed.

Lemma triple_ensure_restic_repository lossy config repository :
  triple I P (ensure_restic_repository lossy config repository) (or_err I (λ _, P)).
Proof.
  assert (∀ e : ExecutorError, triple I P (Ret (Err e)) (or_err I (λ _ : unit, P))) as Herr
    by (intros e; apply triple_ret; auto).
  assert (triple I P (Ret (Ok () : result ExecutorError ())) (or_err I (λ _, P))) as Hok
    by (apply triple_ret; auto).
  eapply triple_try; [by apply triple_looks; split; [intros ???|intros ??]|]. intros check.
  destruct (succeeded check); [done|].
  eapply triple_try; [by apply triple_looks; split; [intros ???|intros ??]|]. intros init.
  destruct (succeeded init); [done|].
  eapply triple_try; [by apply triple_looks; split; [intros ???|intros ??]|]. intros second.
  destruct (succeeded second); [done|]. apply Herr.
Qed.

(** What [load_state] gives is what the file says. *)
Definition loaded (f : option (result string AgentState)) (s : AgentState) : Prop :=
  f = Some (Ok s) ∧ as_schema_version s = AGENT_STATE_SCHEMA_VERSION ∨
  f = None ∧ s = AgentState_default.

(** Why [load_state] fails. *)
Definition load_error (f : option (result string AgentState)) (e : ExecutorError) : Prop :=
  (∃ io, e = EXE.Io io) ∨ (∃ text, f = Some (Err text)) ∨
  (∃ s, f = Some (Ok s) ∧ as_schema_version s ≠ AGENT_STATE_SCHEMA_VERSION).

Lemma triple_load_state_result :
  triple I P load_state (λ r n, P n ∧
    match r with Ok s => loaded (n_file n) s | Err e => load_error (n_file n) e end).
Proof.
  eapply (triple_bind _ _ (λ r n, P n ∧ node_step n ReadStateFile r n)).
  { apply triple_op; [done..|]. intros n x n' Hn Hs. assert (n' = n) as -> by apply Hs. auto. }
  unfold loaded, load_error. intros [decoded|error]; cbn.
  - destruct decoded as [s|e]; cbn; [|apply triple_ret; cbn; naive_solver].
    destruct (Z.eqb_spec (as_schema_version s) AGENT_STATE_SCHEMA_VERSION); cbn;
      apply triple_ret; cbn; naive_solver.
  - destruct error; apply triple_ret; cbn; naive_solver.
Qed.

Lemma triple_load_state : triple I P load_state (or_err I (λ s n, P n ∧ loaded (n_file n) s)).
Proof.
  eapply triple_post; [apply triple_load_state_result|].
  intros [s|e] n [Hn Hl]; cbn; auto.
Qed.

Lemma triple_path_exists p :
  triple I P (path_exists p) (or_err I (λ b n, P n ∧ path_present p n = b)).
Proof.
  eapply (triple_bind _ _ (λ r n, P n ∧ lookup_answer p n r)).
  { apply triple_op; [done..|]. intros n x n' Hn [-> Hs]. auto. }
  intros [is_dir|[]]; cbn; apply triple_ret; cbn; naive_solver.
Qed.
End observing.

(** A command whose failure is an error. *)
Lemma triple_run_checked I (P : node → Prop) Q lossy c description failure :
  node_stable P → (∀ n, P n → I n) →
  (∀ n output n', P n → command_done n c output n' → I n' ∧ Q output n') →
  (∀ n n', P n → command_failed n c n' → I n') →
  triple I P (run_checked lossy c description failure) (or_err I Q).
Proof.
  intros HP HI Hd Hf.
  eapply (triple_try _ _ (λ output n, I n ∧ (succeeded output = true → Q output n))).
  - apply triple_op; [done..|]. intros n x n' Hn Hs. destruct x as [output|e]; cbn in Hs.
    + destruct (succeeded output) eqn:Ho; cbn; [naive_solver|].
      assert (I n') by (eapply Hf; [done|apply Hs]). rewrite Ho. naive_solver.
    + assert (I n') by (by eapply Hf). by split.
  - intros output. destruct (succeeded output); apply triple_ret; cbn; naive_solver.
Qed.

(** ** Containers *)

Section containers.
Context (f : option (result string AgentState)) (r : gmap (string * string) content).
Context (I : node → Prop) (C : gmap string bool → Prop) (D : dirs_t → Prop).
Context (HC : closed C D) (HI : ∀ n, holds_at f C r D n → I n).
Context (lossy : bytes → string).

Lemma triple_container_exists id :
  triple I (holds_at f C r D) (container_exists lossy id)
    (or_err I (λ b, holds_at f (λ m, C m ∧ (b = false → m !! container_name id = None)) r D)).
Proof.
  eapply (triple_try _ _ (λ output n, holds_at f C r D n ∧
    (out_status output = Some 1 → n_containers n !! container_name id = None))).
  - apply triple_op; [by apply holds_at_stable|done|]. intros n x n' Hn Hs.
    destruct x as [output|e]; cbn in Hs; [|by subst n'; cbn; auto].
    unfold succeeded in Hs. case_bool_decide as Hok.
    + destruct Hs as [-> Hs]. split; [auto|]. split; [done|]. rewrite Hok. done.
    + destruct Hs as [-> Hs]. split; [auto|]. split; auto.
  - intros output. apply triple_ret; [by intros n [? _]; auto|]. intros n [Hn Hs].
    assert (holds_at f C r D n → (holds_at f (λ m, C m ∧
      (true = false → m !! container_name id = None)) r D) n).
    { apply holds_at_weaken; naive_solver. }
    destruct (out_status output) as [[|[]|]|]; cbn; auto.
    unfold holds_at in *. naive_solver.
Qed.

(** [false] means that it does not run, and it cannot start by itself. *)
Lemma triple_container_running id :
  triple I (holds_at f C r D) (container_running lossy id)
    (or_err I (λ b, holds_at f (λ m, C m ∧ (b = false → m !! container_name id ≠ Some true)) r D)).
Proof.
  eapply triple_try; [apply triple_container_exists|]. intros [|]; cbn [negb].
  - eapply triple_pre; [intros n; apply holds_at_left|].
    eapply (triple_try _ _ (λ output n, ∃ b : bool,
      holds_at f (λ m, C m ∧ (b = false → m !! container_name id ≠ Some true)) r D n ∧
      str_trim (String.string_of_list_ascii (out_stdout output)) = if b then "true" else "false")).
    + apply triple_run_checked; [by apply holds_at_stable|done| |].
      * intros n output n' Hn (-> & b & Hb & Ht). split; [auto|]. exists b. split; [|done].
        unfold holds_at in *. rewrite Hb. destruct b; naive_solver.
      * intros n n' Hn ->. auto.
    + intros output. apply triple_exists. intros b.
      assert (∀ n, holds_at f (λ m, C m ∧ (b = false → m !! container_name id ≠ Some true)) r D n → I n)
        as HI' by (intros n Hn; apply HI; by apply holds_at_left in Hn).
      destruct (utf8_valid _); cbn [negb]; [|by apply triple_fail; intros n []; auto].
      assert (∀ n, holds_at f (λ m, C m ∧ (b = false → m !! container_name id ≠ Some true)) r D n ∧
        str_trim (String.string_of_list_ascii (out_stdout output)) = (if b then "true" else "false") →
        I n) as HI'' by (intros n []; auto).
      destruct (String.eqb_spec (str_trim (String.string_of_list_ascii (out_stdout output))) "true")
        as [Et|]; [|destruct (String.eqb_spec (str_trim (String.string_of_list_ascii
          (out_stdout output))) "false") as [Et|]; [|by apply triple_fail]];
      rewrite Et in *; (apply triple_ret; [done|]); intros n0 [Hn Hb]; by destruct b.
  - apply triple_ret; intros n; cbn.
    + intros Hn. apply HI. by apply holds_at_left in Hn.
    + apply holds_at_weaken; [|done]. intros m [? Hm]. split; [done|]. intros _. by rewrite Hm.
Qed.

(** Commands that change a container, whatever they say. *)
Definition keeps (name : string) : Prop :=
  ∀ m, C m → C (delete name m) ∧ C (<[name := false]> m).

Lemma holds_at_containers m n : holds_at f C r D n → C m → holds_at f C r D (set_containers m n).
Proof. intros (? & ? & ? & ?) ?. by split_and!. Qed.

Lemma triple_remove_container id :
  keeps (container_name id) →
  triple I (holds_at f C r D) (remove_container lossy id)
    (or_err I (λ _, holds_at f (λ m, C m ∧ m !! container_name id = None) r D)).
Proof.
  intros Hk. eapply (triple_try _ _ (λ _, holds_at f (λ m, C m ∧ m !! container_name id = None) r D));
    [|intros output; apply triple_ret; [|done]].
  - apply triple_run_checked; [by apply holds_at_stable|done| |].
    + intros n output n' Hn ->. assert (C (n_containers n)) as Hc by apply Hn.
      split; [apply HI, holds_at_containers; [done|by apply Hk]|].
      destruct Hn as (? & ? & ? & ?). unfold holds_at. cbn.
      split_and!; [done|by apply Hk|by rewrite lookup_delete_eq|done|done].
    + intros n n' Hn Hf. assert (C (n_containers n)) as Hc by apply Hn. apply HI.
      destruct Hf as [->|[->|[_ ->]]]; [done|apply holds_at_containers; [done|by apply Hk]..].
  - intros n Hn. apply HI. by apply holds_at_left in Hn.
Qed.

Lemma triple_create_container config id server_id process :
  keeps (container_name id) →
  triple I (holds_at f C r D) (create_container lossy config id server_id process)
    (or_err I (λ _, holds_at f C r D)).
Proof.
  intros Hk. unfold create_container.
  destruct (accept_eula process); cbn [negb]; [|apply triple_ret; auto].
  eapply triple_try; [apply triple_return; auto|]. intros data. apply triple_pure. intros _.
  eapply (triple_try _ _ (λ _, holds_at f C r D)); [|intros _; apply triple_ret; auto].
  apply triple_run_checked; [by apply holds_at_stable|done| |].
  - intros n output n' Hn ->. assert (C (n_containers n)) as Hc by apply Hn.
    split; [apply HI|]; (apply holds_at_containers; [done|by apply Hk]).
  - intros n n' Hn Hf. assert (C (n_containers n)) as Hc by apply Hn. apply HI.
    destruct Hf as [->|[->| ->]]; [done|apply holds_at_containers; [done|by apply Hk]..].
Qed.

Lemma triple_podman_start name :
  (∀ m, C m → C (<[name := true]> m)) →
  triple I (holds_at f C r D) (run_podman lossy (PodmanStart name)) (or_err I (λ _, holds_at f C r D)).
Proof.
  intros Hk. apply triple_run_checked; [by apply holds_at_stable|done| |].
  - intros n output n' Hn [_ ->]. assert (C (n_containers n)) as Hc by apply Hn.
    split; [apply HI|]; (apply holds_at_containers; [done|by apply Hk]).
  - intros n n' Hn Hf. assert (C (n_containers n)) as Hc by apply Hn. apply HI.
    destruct Hf as [->|[_ ->]]; [done|apply holds_at_containers; [done|by apply Hk]..].
Qed.

Lemma triple_podman_stop timeout name :
  (∀ m, C m → C (<[name := false]> m)) →
  triple I (holds_at f C r D) (run_podman lossy (PodmanStop timeout name))
    (or_err I (λ _, holds_at f C r D)).
Proof.
  intros Hk. apply triple_run_checked; [by apply holds_at_stable|done| |].
  - intros n output n' Hn ->. assert (C (n_containers n)) as Hc by apply Hn.
    split; [apply HI|]; (apply holds_at_containers; [done|by apply Hk]).
  - intros n n' Hn Hf. assert (C (n_containers n)) as Hc by apply Hn. apply HI.
    destruct Hf as [->|[_ ->]]; [done|apply holds_at_containers; [done|by apply Hk]..].
Qed.
End containers.

(** ** The state file *)

Section store.
Context (f : option (result string AgentState)) (r : gmap (string * string) content).
Context (I : node → Prop) (C : gmap string bool → Prop) (D : dirs_t → Prop).
Context (HC : closed C D) (HI : ∀ n, holds_at f C r D n → I n).

(** The file is replaced in one step, or not at all. *)
Lemma triple_store_state s :
  (∀ n, holds_at (Some (Ok s)) C r D n → I n) →
  triple I (holds_at f C r D) (store_state s) (or_err I (λ _, holds_at (Some (Ok s)) C r D)).
Proof.
  intros HI'.
  assert (node_stable (λ n, holds_at f C r D n ∧ n_temporary n = Some (Ok s))) as Hst.
  { intros n n' [Hn Ht] He. split; [by eapply holds_at_stable|]. by destruct He. }
  eapply triple_try; [by apply triple_make_private_directory; [apply holds_at_stable|]|]. intros [].
  eapply (triple_try _ _ (λ _ n, holds_at f C r D n ∧ n_temporary n = Some (Ok s))).
  { apply triple_op; [by apply holds_at_stable|done|]. intros n x n' Hn Hs.
    assert (∀ t, holds_at f C r D (set_temporary t n)) as Ht by (intros t; apply Hn).
    destruct x; cbn in Hs; [subst n'|destruct Hs as [t ->]]; cbn; auto. }
  intros _. eapply (triple_try _ _ (λ _, holds_at (Some (Ok s)) C r D)).
  { apply triple_op; [done|by intros n []; auto|]. intros n x n' [Hn Ht] Hs.
    assert (∀ n', n' = n → I n') by (intros ? ->; auto).
    destruct x; cbn in Hs; [|by subst n'; split; cbn; auto]. destruct Hs as (t & Ht' & ->).
    rewrite Ht in Ht'. injection Ht' as <-. cbn. destruct Hn as (? & ? & ? & ?).
    split; [apply HI'|]; by split_and!. }
  intros _. eapply (triple_try _ _ (λ _, holds_at (Some (Ok s)) C r D));
    [|intros _; by apply triple_ret].
  eapply triple_post; [apply triple_silent_op; [by apply holds_at_stable|done|done]|].
  intros [[]|?] n Hn; cbn; auto.
Qed.
End store.

(** ** Directories *)

(** The paths of directories, and what is there. *)
Definition dir_in (p : node_path) (d : dirs_t) : option content :=
  match p with
  | DataDirectory => d.1.1
  | PreviousDirectory => d.1.2
  | RestoredData => d.2 ≫= id
  | StagingDirectory | StatePath => None
  end.
Definition put_dir (p : node_path) (v : option content) (d : dirs_t) : dirs_t :=
  match p with
  | DataDirectory => (v, d.1.2, d.2)
  | PreviousDirectory => (d.1.1, v, d.2)
  | RestoredData => (d.1, Some v)
  | StagingDirectory | StatePath => d
  end.
Definition remove_dir (d : dirs_t) (p : node_path) : dirs_t :=
  match p with
  | DataDirectory => (None, d.1.2, d.2)
  | PreviousDirectory => (d.1.1, None, d.2)
  | StagingDirectory => (d.1, None)
  | RestoredData => (d.1, const None <$> d.2)
  | StatePath => d
  end.
Definition present_in (p : node_path) (d : dirs_t) : bool :=
  match p with
  | StagingDirectory => is_some d.2
  | p => is_some (dir_in p d)
  end.

(** The directories after a removal and after a move. *)
Definition removed_dirs (ps : list node_path) (D : dirs_t → Prop) (d' : dirs_t) : Prop :=
  ∃ d, D d ∧ d' = foldl remove_dir d ps.
Definition moved_dirs (s t : node_path) (D : dirs_t → Prop) (d' : dirs_t) : Prop :=
  ∃ d c, D d ∧ dir_in s d = Some c ∧ d' = put_dir t (Some c) (put_dir s None d).


Section directories.
Context (f : option (result string AgentState)) (r : gmap (string * string) content).
Context (I : node → Prop) (HI : ∀ n, holds_at f silent r any_dirs n → I n).
Context (lossy : bytes → string) (config : NodeConfig).

Lemma holds_silent D n : holds_at f silent r D n → I n.
Proof. intros Hn. by eapply HI, holds_at_any. Qed.

Lemma holds_removed D p n :
  is_directory p = true → holds_at f silent r D n →
  holds_at f silent r (removed_dirs [p] D) (removed p n).
Proof.
  intros Hp (? & ? & ? & ?). destruct p; try done; (split_and!; [done..|]); exists (dirs n);
    by split.
Qed.

Lemma holds_removed_all D ps n :
  directories ps → holds_at f silent r D n →
  holds_at f silent r (removed_dirs ps D) (foldl (flip removed) n ps).
Proof.
  intros Hps. revert D n. induction Hps as [|p ps Hp Hps IH]; intros D n Hn; cbn.
  - revert Hn. apply holds_at_weaken; [done|]. intros d Hd. by exists d.
  - eapply holds_at_weaken; [done| |apply IH; by apply holds_removed].
    intros d' (d2 & (d & Hd & ->) & ->). by exists d.
Qed.

Lemma remove_dir_absent p d : is_directory p = true → present_in p d = false → remove_dir d p = d.
Proof. destruct d as [[[d1|] [d2|]] [[d3|]|]], p; by cbn. Qed.

Lemma path_present_in p n : is_directory p = true → path_present p n = present_in p (dirs n).
Proof. by destruct p. Qed.

Lemma triple_remove_path D p :
  is_directory p = true →
  triple I (holds_at f silent r D) (remove_path p)
    (or_err I (λ _, holds_at f silent r (removed_dirs [p] D))).
Proof.
  intros Hp. pose proof (holds_at_stable f silent r D (silent_closed D)) as Hst.
  eapply (triple_bind _ _ (λ r' n, holds_at f silent r D n ∧ lookup_answer p n r')).
  { apply triple_op; [done|apply holds_silent|]. intros n x n' Hn [-> Hs].
    split; [by eapply holds_silent|done]. }
  intros [is_dir|error].
  - eapply (triple_pre _ _ (λ n, is_dir = true ∧ holds_at f silent r D n)).
    { intros n [Hn [_ ->]]. by split. }
    apply triple_pure. intros ->.
    eapply (triple_try _ _ (λ _, holds_at f silent r (removed_dirs [p] D)));
      [|intros []; apply triple_ret; [apply holds_silent|done]].
    apply triple_op; [done|apply holds_silent|]. intros n x n' Hn Hs. destruct x as [[]|e]; cbn in Hs.
    + subst n'. pose proof (holds_removed D p n Hp Hn). split; [by eapply holds_silent|done].
    + assert (I n') by (eapply HI, holds_at_damaged; done). by split.
  - destruct error; [|apply triple_fail; intros n [Hn _]; by eapply holds_silent..].
    apply triple_ret; [intros n [Hn _]; by eapply holds_silent|]. cbn.
    intros n [Hn Ha]. destruct Hn as (? & ? & ? & ?). split_and!; [done..|]. exists (dirs n).
    split; [done|]. cbn. rewrite remove_dir_absent; [done..|]. by rewrite <-path_present_in.
Qed.

Lemma triple_remove_paths D ps :
  directories ps →
  triple I (holds_at f silent r D) (remove_paths lossy config ps)
    (or_err I (λ _, holds_at f silent r (removed_dirs ps D))).
Proof.
  intros Hps. unfold remove_paths. destruct (nc_data_access_mode config).
  - eapply (triple_try _ _ (λ _, holds_at f silent r (removed_dirs ps D)));
      [|intros output; apply triple_ret; [apply holds_silent|done]].
    apply triple_run_checked; [apply holds_at_stable, silent_closed|apply holds_silent| |].
    + intros n output n' Hn ->. pose proof (holds_removed_all D ps n Hps Hn).
      split; [by eapply holds_silent|done].
    + intros n n' Hn Hd. by eapply HI, holds_at_damaged.
  - revert D. induction Hps as [|p ps Hp Hps IH]; intros D.
    + apply triple_ret; [apply holds_silent|]. intros n. apply holds_at_weaken; [done|].
      intros d Hd. by exists d.
    + eapply triple_try; [by apply triple_remove_path|]. intros [].
      eapply triple_post; [apply IH|]. intros [[]|e] n; [|done].
      apply holds_at_weaken; [done|]. intros d' (d2 & (d & Hd & ->) & ->). by exists d.
Qed.

(** [move_path] of a directory to a free name. *)
Definition movable (p : node_path) : Prop := p ∈ [DataDirectory; PreviousDirectory; RestoredData].

Lemma holds_moved D s t c n :
  movable s → movable t → dir_of s n = Some c → holds_at f silent r D n →
  holds_at f silent r (moved_dirs s t D) (set_dir t (Some c) (set_dir s None n)).
Proof.
  intros Hs Ht Hc (? & ? & ? & ?). unfold movable in *.
  assert (dir_in s (dirs n) = Some c) by (by destruct s).
  split_and!; [by destruct s, t..|]. exists (dirs n), c. split_and!; [done..|].
  destruct s, t; try done; set_solver.
Qed.

Lemma triple_move_path D s t :
  movable s → movable t → (∀ d, D d → dir_in t d = None) →
  triple I (holds_at f silent r D) (move_path lossy config s t)
    (or_err I (λ _, holds_at f silent r (moved_dirs s t D))).
Proof.
  intros Hs Ht HD. unfold move_path.
  assert (∀ n c n', dir_of s n = Some c → holds_at f silent r D n →
    n' = set_dir t (Some c) (set_dir s None n) →
    I n' ∧ holds_at f silent r (moved_dirs s t D) n') as Hmoved.
  { intros n c n' Hc Hn ->. pose proof (holds_moved D s t c n Hs Ht Hc Hn).
    split; [by eapply holds_silent|done]. }
  assert (∀ n n', holds_at f silent r D n → moved_by_mv s t n n' →
    I n' ∧ holds_at f silent r (moved_dirs s t D) n') as Hmv.
  { intros n n' Hn (c & Hc & Hm). assert (dir_of t n = None) as Ht0.
    { destruct Hn as (_ & _ & _ & Hd). specialize (HD _ Hd). by destruct t. }
    rewrite Ht0 in Hm. by eapply Hmoved. }
  destruct (nc_data_access_mode config).
  - eapply (triple_try _ _ (λ _, holds_at f silent r (moved_dirs s t D)));
      [|intros output; apply triple_ret; [|done]].
    + apply triple_run_checked; [apply holds_at_stable, silent_closed|apply holds_silent|intros n o; apply Hmv|].
      intros n n' Hn [->|Hm]; [by eapply holds_silent|by eapply Hmv].
    + intros n Hn. by eapply holds_silent.
  - eapply (triple_try _ _ (λ _, holds_at f silent r (moved_dirs s t D)));
      [|intros output; apply triple_ret; [|done]].
    + apply triple_op; [apply holds_at_stable, silent_closed|apply holds_silent|].
      intros n x n' Hn Hm. destruct x; cbn in Hm; [|subst n'; split; by eapply holds_silent].
      destruct Hm as (c & Hc & _ & Hm). by eapply Hmoved.
    + intros n Hn. by eapply holds_silent.
Qed.

(** A move in any situation leaves the rest alone. *)
Lemma triple_move_path_any s t :
  triple I (holds_at f silent r any_dirs) (move_path lossy config s t)
    (or_err I (λ _, holds_at f silent r any_dirs)).
Proof.
  assert (∀ v w n, holds_at f silent r any_dirs n →
    holds_at f silent r any_dirs (set_dir t v (set_dir s w n))) as Hset.
  { intros v w n Hn. by destruct s, t. }
  assert (∀ n n', holds_at f silent r any_dirs n → moved_by_mv s t n n' →
    holds_at f silent r any_dirs n') as Hmv.
  { intros n n' Hn (c & _ & Hm). destruct (dir_of t n); [by eapply holds_at_damaged|].
    subst n'. by apply Hset. }
  unfold move_path. destruct (nc_data_access_mode config).
  - eapply (triple_try _ _ (λ _, holds_at f silent r any_dirs)); [|intros output; by apply triple_ret].
    apply triple_run_checked; [apply holds_at_stable, silent_closed|done| |].
    + intros n output n' Hn Hm. split; [apply HI|]; by eapply Hmv.
    + intros n n' Hn [->|Hm]; [auto|]. apply HI. by eapply Hmv.
  - eapply (triple_try _ _ (λ _, holds_at f silent r any_dirs)); [|intros output; by apply triple_ret].
    apply triple_op; [apply holds_at_stable, silent_closed|done|].
    intros n x n' Hn Hm. destruct x; cbn in Hm; [|subst n'; by split; cbn; auto].
    destruct Hm as (c & _ & _ & ->). split; [apply HI|]; by apply Hset.
Qed.

(** [create_dir_all] of a directory that is not there. *)
Lemma triple_create_data :
  triple I (holds_at f silent r (λ d, d.1.1 = None)) (perform (CreateDirAll DataDirectory))
    (or_err I (λ _, holds_at f silent r (λ d, d.1.1 = Some ∅))).
Proof.
  apply triple_op; [apply holds_at_stable, silent_closed|apply holds_silent|].
  intros n x n' Hn Hs. assert (n_data n = None) as Hd by apply Hn.
  assert (holds_at f silent r (λ d, d.1.1 = Some ∅) (created DataDirectory n)) as Hc.
  { unfold created. cbn. rewrite Hd. destruct Hn as (? & ? & ? & ?). by split_and!. }
  assert (I (created DataDirectory n)) by (by eapply holds_silent).
  assert (I n) by (by eapply holds_silent).
  destruct x; cbn in Hs; [by subst n'|]. by destruct Hs as [->| ->].
Qed.

Lemma triple_create_staging :
  triple I (holds_at f silent r (λ d, d.1.2 = None ∧ d.2 = None))
    (perform (CreateDirAll StagingDirectory))
    (or_err I (λ _, holds_at f silent r (λ d, d.1.2 = None ∧ d.2 = Some None))).
Proof.
  apply triple_op; [apply holds_at_stable, silent_closed|apply holds_silent|].
  intros n x n' Hn Hs. assert (n_staging n = None) as Hd by apply Hn.
  assert (holds_at f silent r (λ d, d.1.2 = None ∧ d.2 = Some None) (created StagingDirectory n))
    as Hc.
  { unfold created. cbn. rewrite Hd. destruct Hn as (? & ? & ? & ? & ?). by split_and!. }
  assert (I (created StagingDirectory n)) by (by eapply holds_silent).
  assert (I n) by (by eapply holds_silent).
  destruct x; cbn in Hs; [by subst n'|]. by destruct Hs as [->| ->].
Qed.

Lemma triple_path_exists_in D p :
  is_directory p = true →
  triple I (holds_at f silent r D) (path_exists p)
    (or_err I (λ b, holds_at f silent r (λ d, D d ∧ present_in p d = b))).
Proof.
  intros Hp. eapply triple_post.
  { apply triple_path_exists; [apply holds_at_stable, silent_closed|apply holds_silent]. }
  intros [b|e] n; [|done]. intros [Hn Hb]. rewrite path_present_in in Hb by done.
  destruct Hn as (? & ? & ? & ?). by split_and!.
Qed.
End directories.

(** ** Restoring *)

Section restoring.
Context (f : option (result string AgentState)) (r : gmap (string * string) content).
Context (lossy : bytes → string) (config : NodeConfig).
Abbreviation I0 r := (holds_at f silent r any_dirs).

(** The swap puts the restored directory in place. *)
Lemma triple_swap_restored c :
  triple (I0 r) (holds_at f silent r (λ d, d.1.2 = None ∧ d.2 = Some (Some c)))
    (swap_restored lossy config) (or_err (I0 r) (λ _, holds_at f silent r (λ d, d.1.1 = Some c))).
Proof.
  eapply triple_try; [by apply triple_path_exists_in|]. intros data_exists.
  eapply (triple_try _ _ (λ _, holds_at f silent r (λ d, d.1.1 = None ∧ d.2 = Some (Some c)))).
  { destruct data_exists.
    - eapply triple_post; [apply triple_move_path; [done|set_solver|set_solver|by intros d [[]]]|].
      intros [[]|e] n; [|done]. apply holds_at_weaken; [done|].
      intros d' (d & c' & [[Hp Hs] _] & _ & ->). by split.
    - apply triple_ret; [intros n; apply holds_at_any|]. intros n. apply holds_at_weaken; [done|].
      intros d [[Hp Hs] Hd]. cbn in Hd. by destruct (d.1.1). }
  intros []. eapply triple_bind;
    [apply triple_move_path; [done|set_solver|set_solver|by intros d []]|].
  intros [[]|error].
  - eapply (triple_try _ _ (λ _, holds_at f silent r (λ d, d.1.1 = Some c)));
      [|intros []; apply triple_ret; [intros n; apply holds_at_any|done]].
    eapply triple_post; [apply triple_remove_paths; [done|repeat constructor]|].
    intros [[]|e] n; [|done]. apply holds_at_weaken; [done|].
    intros d' (d2 & (d & c' & [Hd Hs] & Hc & ->) & ->). cbn in *. rewrite Hs in Hc. by injection Hc as ->.
  - assert (∀ p, triple (I0 r) (I0 r) (path_exists p) (λ _, I0 r)) as Hex.
    { intros p. eapply triple_post;
        [apply triple_path_exists; [apply holds_at_stable, silent_closed|done]|].
      intros [b|e] n; [by intros []|done]. }
    eapply triple_bind; [apply Hex|]. intros previous_exists.
    eapply (triple_bind _ _ (λ _, I0 r)); [|intros ?; by apply triple_fail].
    destruct (unwrap_or previous_exists false); [|by apply triple_ret].
    eapply triple_bind; [apply Hex|]. intros data_exists'.
    destruct (negb _); [|by apply triple_ret].
    eapply triple_post; [by apply triple_move_path_any|]. by intros [[]|e] n.
Qed.

(** Undoing an interrupted swap, in any situation. *)
Lemma triple_recover_interrupted_swap :
  triple (I0 r) (I0 r) (recover_interrupted_swap lossy config) (or_err (I0 r) (λ _, I0 r)).
Proof.
  assert (∀ p, triple (I0 r) (I0 r) (path_exists p) (or_err (I0 r) (λ _, I0 r))) as Hex.
  { intros p. eapply triple_post;
      [apply triple_path_exists; [apply holds_at_stable, silent_closed|done]|].
    intros [b|e] n; [by intros []|done]. }
  eapply triple_try; [apply Hex|]. intros [|]; [by apply triple_ret|].
  eapply triple_try; [apply Hex|]. intros [|]; [|by apply triple_ret].
  by apply triple_move_path_any.
Qed.
End restoring.

Section restore.
Context (f : option (result string AgentState)) (lossy : bytes → string) (config : NodeConfig).

(** The data is the content of the snapshot. *)
Definition restored_from (repository snapshot : string) (n : node) : Prop :=
  ∃ c, holds_at f silent {[(repository, snapshot) := c]} (λ d, d.1.1 = Some c) n.

Lemma holds_at_forget C r D n : holds_at f C r D n → holds_at f C ∅ D n.
Proof. intros (? & ? & ? & ?). split_and!; [done..| |done]. apply map_empty_subseteq. Qed.

Abbreviation I1 := (holds_at f silent ∅ any_dirs).

Lemma triple_restore_snapshot repository snapshot :
  triple I1 I1 (restore_snapshot lossy config repository snapshot)
    (or_err I1 (λ _, restored_from repository snapshot)).
Proof.
  eapply triple_try; [apply triple_recover_interrupted_swap|]. intros [].
  eapply triple_try; [apply triple_remove_paths; [done|repeat constructor]|]. intros [].
  eapply triple_pre.
  { intros n. apply (holds_at_weaken f silent silent ∅ _ (λ d, d.1.2 = None ∧ d.2 = None)); [done|].
    by intros d' (d & _ & ->). }
  eapply triple_try; [by apply triple_create_staging|]. intros [].
  eapply triple_try; [apply triple_return; intros n; apply holds_at_any|]. intros staging.
  apply triple_pure. intros _.
  set (Q := λ n, ∃ c, holds_at f silent {[(repository, snapshot) := c]}
    (λ d, d.1.2 = None ∧ d.2 = Some (Some c)) n).
  assert (∀ n, Q n → I1 n) as HQ.
  { intros n [c Hn]. by eapply holds_at_any, holds_at_forget. }
  eapply (triple_try _ _ (λ _, Q)).
  { apply triple_run_checked; [apply holds_at_stable, silent_closed|intros n; apply holds_at_any| |].
    - intros n output n' Hn (c & c' & Hr & Hc & ->).
      assert (n_staging n = Some None) as Hs by apply Hn. rewrite (Hc Hs).
      assert (Q (set_staging (Some (Some c)) n)); [|by auto].
      exists c. destruct Hn as (? & ? & ? & ? & ?). split_and!; [done..| |done|done].
      by apply map_singleton_subseteq_l.
    - intros n n' Hn [staging' ->]. destruct Hn as (? & ? & ? & ?). by split_and!. }
  intros output. apply triple_exists. intros c.
  eapply (triple_try _ _ (λ _, holds_at f silent {[(repository, snapshot) := c]}
    (λ d, d.1.2 = None ∧ d.2 = Some (Some c)))).
  { eapply triple_post; [apply triple_silent_op; [apply holds_at_stable, silent_closed| |]|].
    - intros n Hn. apply HQ. by exists c.
    - by intros n x n' [-> _].
    - intros [b|e] n Hn; cbn; [done|]. apply HQ. by exists c. }
  intros is_dir. destruct (negb is_dir).
  { apply triple_fail. intros n Hn. apply HQ. by exists c. }
  eapply triple_post; [eapply triple_always; [|apply triple_swap_restored]|].
  - intros n. apply holds_at_forget.
  - intros [[]|e] n Hn; cbn; [by exists c|]. by eapply holds_at_forget.
Qed.
End restore.
End logic.
