(* ===== verification/NodeRequests.v ===== *)
(** The requests of the node agent: what each of them can leave on the node, from
    a node whose data is prepared and from one that has none. *)
From S2P Require Import Prelude Text Programs JsonRpc Framing Server Instances InstanceFacts.
From S2P Require Import Database Repositories Effects NodeConfig NodeAgent NodeSemantics NodeFacts.
From S2P Require Import Config.
#[local] Open Scope string_scope.
#[local] Open Scope Z_scope.

(** ** Requests *)

(** The methods the executor serves, with their parameters. *)
Inductive NodeRequest :=
| NodeInspect (identity : InstanceIdentity)
| NodeRestoreData (params : RestoreDataParams)
| NodeStartServer (params : StartServerParams)
| NodeStopServer (params : StopServerParams)
| NodeSnapshotData (params : SnapshotDataParams)
| NodeCleanupInstance (params : CleanupInstanceParams).

Definition request_identity (req : NodeRequest) : InstanceIdentity :=
  match req with
  | NodeInspect identity => identity
  | NodeRestoreData params => restore_instance params
  | NodeStartServer params => start_instance params
  | NodeStopServer params => stop_instance params
  | NodeSnapshotData params => snapshot_instance params
  | NodeCleanupInstance params => cleanup_instance params
  end.

(** What they return. *)
Inductive NodeAnswer :=
| NodeInspected (result : AgentInspectResult)
| NodeChanged (changed : bool)
| NodeSnapshot (snapshot_id : string).

Definition answer {A} (f : A → NodeAnswer) (p : node_prog (result ExecutorError A)) :
    node_prog (result ExecutorError NodeAnswer) :=
  prog_bind p (λ r, Ret (match r with Ok a => Ok (f a) | Err e => Err e end)).

Section requests.
Context `{Codec} `{JsonText}.
Context (lossy : bytes → string) (config : NodeConfig).

Definition execute (req : NodeRequest) : node_prog (result ExecutorError NodeAnswer) :=
  match req with
  | NodeInspect identity => answer NodeInspected (executor_inspect lossy identity)
  | NodeRestoreData params => answer NodeChanged (executor_restore_data lossy config params)
  | NodeStartServer params => answer NodeChanged (executor_start_server lossy config params)
  | NodeStopServer params => answer NodeChanged (executor_stop_server lossy params)
  | NodeSnapshotData params => answer NodeSnapshot (executor_snapshot_data lossy config params)
  | NodeCleanupInstance params => answer NodeChanged (executor_cleanup_instance lossy config params)
  end.

Lemma triple_answer {A} I P (Q : A → node → Prop) (g : A → NodeAnswer) p :
  triple I P p (or_err I Q) → (∀ a n, Q a n → I n) →
  triple I P (answer g p) (or_err I (λ b n, ∃ a, b = g a ∧ Q a n)).
Proof.
  intros Hp HQ. eapply triple_bind; [exact Hp|]. intros [a|e]; apply triple_ret; cbn; eauto.
Qed.

(** ** A stale identity *)

Definition is_stale (i : InstanceState) (identity : InstanceIdentity) : Prop :=
  is_server_instance_id i ≠ server_instance_id identity ∨ is_fencing_token i ≠ fencing_token identity.

Lemma validate_stale i identity : is_stale i identity → validate_identity i identity = Err EXE.StaleInstance.
Proof.
  unfold validate_identity, is_stale, err_if. intros Hs.
  destruct (N.eqb_spec (is_server_instance_id i) (server_instance_id identity));
    destruct (Z.eqb_spec (is_fencing_token i) (fencing_token identity)); naive_solver.
Qed.

Lemma validate_ok i identity :
  validate_identity i identity = Ok () →
  is_server_instance_id i = server_instance_id identity ∧ is_fencing_token i = fencing_token identity.
Proof.
  unfold validate_identity, err_if.
  destruct (N.eqb_spec (is_server_instance_id i) (server_instance_id identity));
    destruct (Z.eqb_spec (is_fencing_token i) (fencing_token identity)); naive_solver.
Qed.

Section stale.
Context (s : AgentState) (i : InstanceState) (n0 : node).
Context (Hv : as_schema_version s = AGENT_STATE_SCHEMA_VERSION) (Hi : as_instance s = Some i).
Context (Hf : n_file n0 = Some (Ok s)).

Lemma env_file n n' : rtc node_env n n' → n_file n' = n_file n.
Proof. induction 1 as [|??? []]; done. Qed.

(** Loading the state, then the first thing every request does with it. *)
Lemma triple_load_stale {B} (k : AgentState → node_prog (result ExecutorError B)) :
  k s = Ret (Err EXE.StaleInstance) →
  triple (rtc node_env n0) (rtc node_env n0) (try_bind id load_state k)
    (λ r n, rtc node_env n0 n ∧ (r = Err EXE.StaleInstance ∨ ∃ io, r = Err (EXE.Io io))).
Proof.
  intros Hk. eapply triple_bind.
  { apply triple_load_state_result; [|done]. intros n n' Hn He. by eapply rtc_r. }
  intros [s'|e]; cbn.
  - eapply (triple_pre _ _ (λ n, s' = s ∧ rtc node_env n0 n)).
    { intros n [Hn [[Hl _]|[Hl _]]]; rewrite (env_file _ _ Hn), Hf in Hl; [|done].
      by injection Hl as ->. }
    apply triple_pure. intros ->. rewrite Hk. apply triple_ret; auto.
  - apply triple_ret; [by intros n []|]. intros n [Hn He]. split; [done|]. right.
    rewrite (env_file _ _ Hn), Hf in He. unfold load_error in He. naive_solver.
Qed.

Lemma triple_stale_request req :
  is_stale i (request_identity req) →
  triple (rtc node_env n0) (rtc node_env n0) (execute req)
    (λ r n, rtc node_env n0 n ∧ (r = Err EXE.StaleInstance ∨ ∃ io, r = Err (EXE.Io io))).
Proof.
  intros Hs. apply validate_stale in Hs.
  assert (∀ A (g : A → NodeAnswer) k, k s = Ret (Err EXE.StaleInstance) →
    triple (rtc node_env n0) (rtc node_env n0) (answer g (try_bind id load_state k))
    (λ r n, rtc node_env n0 n ∧ (r = Err EXE.StaleInstance ∨ ∃ io, r = Err (EXE.Io io)))) as Ha.
  { intros A g k Hk. eapply triple_bind; [by apply triple_load_stale|].
    intros r. apply triple_ret; [by intros n []|]. naive_solver. }
  destruct req; cbn in Hs; apply Ha; cbn; unfold validate_assigned; rewrite ?Hi; cbn; by rewrite Hs.
Qed.
End stale.

(** ** A node with prepared data *)

Definition assigned (i : InstanceState) : option (result string AgentState) :=
  Some (Ok {| as_schema_version := AGENT_STATE_SCHEMA_VERSION; as_instance := Some i |}).

(** Only the container of the instance runs. *)
Definition belongs (i : InstanceState) (m : gmap string bool) : Prop :=
  ∀ name, m !! name = Some true → name = container_name (is_server_instance_id i).

Lemma triple_load_known f s I C r D {B} (k : AgentState → node_prog (result ExecutorError B)) Q :
  closed C D → (∀ n, holds_at f C r D n → I n) → (∀ s', loaded f s' → s' = s) →
  triple I (holds_at f C r D) (k s) (or_err I Q) →
  triple I (holds_at f C r D) (try_bind id load_state k) (or_err I Q).
Proof.
  intros HC HI Hs Hk. eapply triple_try; [by apply triple_load_state; [apply holds_at_stable|]|].
  intros s'. eapply (triple_pre _ _ (λ n, s' = s ∧ holds_at f C r D n)).
  { intros n [Hn Hl]. split; [|done]. apply Hs. destruct Hn as (<- & _). done. }
  by apply triple_pure; intros ->.
Qed.

(** [let? x := Ret r in ...]. *)
Lemma triple_check {E A B} I P (r : result E A) (k : A → node_prog (result E B)) Q :
  (∀ n, P n → I n) → (∀ a, r = Ok a → triple I P (k a) (or_err I Q)) →
  triple I P (try_bind id (Ret r) k) (or_err I Q).
Proof. intros HI Hk. destruct r as [a|e]; [by apply Hk|by apply triple_fail]. Qed.

Lemma loaded_assigned i s : loaded (assigned i) s →
  s = {| as_schema_version := AGENT_STATE_SCHEMA_VERSION; as_instance := Some i |}.
Proof. unfold loaded, assigned. naive_solver. Qed.
Lemma loaded_none s : loaded None s → s = AgentState_default.
Proof. unfold loaded. naive_solver. Qed.

Section prepared.
Context (i : InstanceState) (Hp : is_data_prepared i = true).
Context (C : gmap string bool → Prop) (r : gmap (string * string) content) (D : dirs_t → Prop).
Context (HC : closed C D) (Hstop : ∀ m name, C m → C (<[name := false]> m)).

(** Requests that only look, or find nothing to do, or stop the process. *)
Lemma triple_quiet_request req :
  match req with NodeInspect _ | NodeRestoreData _ | NodeStopServer _ => True | _ => False end →
  triple (holds_at (assigned i) C r D) (holds_at (assigned i) C r D) (execute req)
    (or_err (holds_at (assigned i) C r D) (λ _, holds_at (assigned i) C r D)).
Proof.
  assert (∀ A (g : A → NodeAnswer) k,
    triple (holds_at (assigned i) C r D) (holds_at (assigned i) C r D)
      (k {| as_schema_version := AGENT_STATE_SCHEMA_VERSION; as_instance := Some i |})
      (or_err (holds_at (assigned i) C r D) (λ _ : A, holds_at (assigned i) C r D)) →
    triple (holds_at (assigned i) C r D) (holds_at (assigned i) C r D)
      (answer g (try_bind id load_state k))
      (or_err (holds_at (assigned i) C r D) (λ _, holds_at (assigned i) C r D))) as Ha.
  { intros A g k Hk. eapply triple_post; [eapply triple_answer; [|by intros ? ?; apply id]|].
    - eapply triple_load_known; [done|done|apply loaded_assigned|exact Hk].
    - intros [b|e] n; cbn; naive_solver. }
  destruct req; try done; intros _; apply Ha; cbn [as_instance validate_assigned ok_or].
  - apply triple_check; [done|]. intros _ _.
    eapply triple_try; [by apply triple_container_running|]. intros running.
    apply triple_ret; [|cbn]; intros n Hn; by apply holds_at_left in Hn.
  - unfold ensure_instance_state. cbn [as_instance].
    apply triple_check; [done|]. intros _ _. cbn [as_instance is_some_and]. rewrite Hp.
    by apply triple_ret.
  - apply triple_check; [done|]. intros _ [= <-]. apply triple_check; [done|]. intros _ _.
    eapply triple_try; [by apply triple_container_running|]. intros running.
    eapply (triple_pre _ _ (holds_at (assigned i) C r D));
      [intros n Hn; by apply holds_at_left in Hn|].
    destruct (negb running); [by apply triple_ret|].
    eapply (triple_try _ _ (λ _, holds_at (assigned i) C r D)); [|intros output; by apply triple_ret].
    by apply triple_podman_stop; auto.
Qed.

(** An inspection reports the snapshot that the state file has. *)
Lemma triple_inspect identity :
  triple (holds_at (assigned i) C r D) (holds_at (assigned i) C r D) (executor_inspect lossy identity)
    (or_err (holds_at (assigned i) C r D) (λ a n,
      holds_at (assigned i) C r D n ∧ last_snapshot_id a = is_last_snapshot_id i)).
Proof.
  eapply triple_load_known; [done|done|apply loaded_assigned|]. cbn [as_instance validate_assigned].
  apply triple_check; [done|]. intros _ _.
  eapply triple_try; [by apply triple_container_running|]. intros running.
  apply triple_ret; [|cbn]; intros n Hn; apply holds_at_left in Hn; [done|by split].
Qed.

(** The id that restic printed is the one that is found. *)
Lemma parse_backup_snapshot_id_of output id :
  backup_output output id → parse_backup_snapshot_id output = Ok id.
Proof.
  intros (before & summary & after & v & Hl & Hb & Hne & Hs & Ht & Hid & Hblank & Hnul & Hlen).
  unfold parse_backup_snapshot_id. rewrite Hl. clear Hl. induction Hb as [|line before Hline Hb IH]; cbn.
  - destruct summary; [done|]. rewrite Hs. cbn. unfold summary_snapshot_id. rewrite Ht, Hid. cbn.
    rewrite Hblank, Hnul. cbn. unfold NODE_MAX_SNAPSHOT_ID_CHARS.
    by destruct (Z.leb_spec (str_char_count id) 256); [|lia].
  - destruct Hline as [->|(v' & Hv & Ht')]; [done|]. destruct line; [done|]. rewrite Hv. cbn.
    unfold summary_snapshot_id. case_bool_decide as Hm; [|done].
    destruct Ht'. destruct (json_get "message_type" v') as [[]|]; cbn in Hm; naive_solver.
Qed.

(** A snapshot is of the data as it is, with nothing running. *)
Definition snapshotted (repository sid : string) (n : node) : Prop :=
  ∃ r' c, r ⊆ r' ∧ r' !! (repository, sid) = Some c ∧
    holds_at (assigned (set_last_snapshot_id sid i)) (λ m, C m ∧ silent m) r'
      (λ d, D d ∧ d.1.1 = Some c) n.
Definition snapshotting (n : node) : Prop :=
  holds_at (assigned i) C r D n ∨ ∃ sid, snapshotted (is_repository i) sid n.

Lemma silent_left_closed D' : closed (λ m, C m ∧ silent m) D'.
Proof.
  split; [|by left; intros m []]. intros m name [_ Hm] Hn. by destruct (Hm name).
Qed.

Lemma holds_at_sub f C' r' D' n :
  (∀ m, C' m → C m) → (∀ d, D' d → D d) → r ⊆ r' → holds_at f C' r' D' n → holds_at f C r D n.
Proof. intros HC' HD Hr (? & ? & ? & ?). split_and!; auto. by etrans. Qed.

Lemma snapshotted_snapshotting sid n : snapshotted (is_repository i) sid n → snapshotting n.
Proof. right. by exists sid. Qed.

Lemma snapshotted_holds repository sid n :
  snapshotted repository sid n → holds_at (assigned (set_last_snapshot_id sid i)) C r D n.
Proof. intros (r' & c & Hr & _ & Hn). eapply holds_at_sub; [| |done|done]; by intros ? []. Qed.

Lemma snapshotting_stable : node_stable snapshotting.
Proof.
  intros n n' [Hn|(sid & r' & c & Hr & Hk & Hn)] He.
  - left. by eapply holds_at_stable.
  - right. exists sid, r', c. split_and!; [done..|].
    eapply holds_at_stable; [apply silent_left_closed|exact Hn|exact He].
Qed.

(** The backup: nothing runs, so what it reads does not change. *)
Lemma triple_restic_backup d0 repository t1 t2 :
  triple snapshotting (holds_at (assigned i) (λ m, C m ∧ silent m) r (λ d, D d ∧ d = d0))
    (run_restic lossy config (ResticBackup repository t1 t2))
    (or_err snapshotting (λ output n, ∃ sid r' c, parse_backup_snapshot_id (out_stdout output) = Ok sid ∧
      r ⊆ r' ∧ r' !! (repository, sid) = Some c ∧
      holds_at (assigned i) (λ m, C m ∧ silent m) r' (λ d, D d ∧ d.1.1 = Some c) n)).
Proof.
  assert (∀ key c n, (n_repository n !! key = None ∨ n_repository n !! key = Some c) →
    n_repository n ⊆ <[key := c]> (n_repository n)) as Hsub.
  { intros key c n [Hk|Hk]; [by apply insert_subseteq|]. by rewrite insert_id. }
  assert (∀ n, holds_at (assigned i) (λ m, C m ∧ silent m) r (λ d, D d ∧ d = d0) n → snapshotting n)
    as HI.
  { intros n Hn. left. eapply holds_at_sub; [| |done|done]; by intros ? []. }
  apply triple_run_checked; [apply holds_at_stable, silent_left_closed|done| |].
  - intros n output n' Hn (sid & c & d & Ho & Hd & Hq & Hk & ->).
    assert (c = d) as -> by (apply Hq; intros name; apply Hn).
    pose proof (Hsub _ _ _ Hk) as Hs. destruct Hn as (Hf & [Hc Hs'] & Hr & HD & <-).
    assert (holds_at (assigned i) (λ m, C m ∧ silent m) (<[(repository, sid) := d]> (n_repository n))
      (λ d', D d' ∧ d'.1.1 = Some d)
      (set_repository (<[(repository, sid) := d]> (n_repository n)) n)) as Hn'.
    { split_and!; done. }
    split.
    + left. eapply holds_at_sub; [| | |exact Hn']; [by intros ? []..|]. by etrans.
    + exists sid, (<[(repository, sid) := d]> (n_repository n)), d.
      split_and!; [by apply parse_backup_snapshot_id_of|by etrans|apply lookup_insert_eq|done].
  - intros n n' Hn [->|(sid & c & Hk & ->)]; [auto|]. left.
    destruct Hn as (Hf & [Hc Hs'] & Hr & HD & _). split_and!; [done..| |done].
    etrans; [done|]. by apply Hsub; left.
Qed.

Lemma triple_snapshot_data params :
  (∀ m, server_instance_id (snapshot_instance params) = is_server_instance_id i → C m →
    m !! container_name (server_instance_id (snapshot_instance params)) ≠ Some true → silent m) →
  triple snapshotting (holds_at (assigned i) C r D) (executor_snapshot_data lossy config params)
    (or_err snapshotting (λ sid n, is_repository i = snapshot_repository params ∧
      snapshotted (is_repository i) sid n)).
Proof.
  intros Hsil. assert (∀ n, holds_at (assigned i) C r D n → snapshotting n) as HI by (by left).
  eapply triple_load_known; [done|done|apply loaded_assigned|].
  apply triple_check; [done|]. intros _ [= <-]. apply triple_check; [done|]. intros [] Hid.
  apply validate_ok in Hid as [Hid _]. destruct (_ || _) eqn:Hrep; [by apply triple_fail|].
  apply orb_false_iff in Hrep as [_ Hrep%negb_false_iff%String.eqb_eq]. rewrite <- Hrep.
  eapply triple_try; [by apply triple_container_running|]. intros running.
  destruct running; [apply triple_fail; intros n Hn; apply HI; by apply holds_at_left in Hn|].
  set (P := holds_at (assigned i) (λ m, C m ∧ silent m) r D).
  assert (∀ n, P n → snapshotting n) as HP by (intros n Hn; apply HI; by apply holds_at_left in Hn).
  eapply (triple_pre _ _ P).
  { intros n. apply holds_at_weaken; [|done]. intros m [Hc Hm]. split; [done|]. by apply Hsil; auto. }
  eapply triple_try; [by apply triple_ensure_restic_repository; [apply holds_at_stable, silent_left_closed|]|].
  intros []. eapply (triple_pre _ _ (λ n, ∃ d0,
    holds_at (assigned i) (λ m, C m ∧ silent m) r (λ d, D d ∧ d = d0) n)).
  { intros n (? & [? ?] & ? & ?). exists (dirs n). by split_and!. }
  apply triple_exists. intros d0. eapply triple_try; [apply triple_restic_backup|]. intros output.
  apply triple_exists. intros sid. apply triple_exists. intros r'. apply triple_exists. intros c.
  apply triple_pure. intros Ho. rewrite Ho.
  apply triple_pure. intros Hr. apply triple_pure. intros Hk.
  set (P' := holds_at (assigned i) (λ m, C m ∧ silent m) r' (λ d, D d ∧ d.1.1 = Some c)).
  assert (∀ n, P' n → snapshotting n) as HP'.
  { intros n Hn. left. eapply holds_at_sub; [| |done|exact Hn]; by intros ? []. }
  apply triple_check; [done|]. intros ? [= <-]. apply triple_check; [done|]. intros [] _.
  eapply (triple_try _ _ (λ _, snapshotted (is_repository i) sid)).
  - eapply triple_post; [apply triple_store_state; [apply silent_left_closed|done|]|].
    + intros n Hn. apply (snapshotted_snapshotting sid).
      by exists r', c.
    + intros [[]|e] n Hn; cbn; [|done]. by exists r', c.
  - intros []. apply triple_ret; [apply snapshotted_snapshotting|by intros n].
Qed.
End prepared.

Lemma belongs_closed i D : write_closed D → closed (belongs i) D.
Proof.
  intros HD. split; [|by right]. intros m name Hm _ name'. rewrite lookup_insert_Some. naive_solver.
Qed.
Lemma belongs_insert i m name : belongs i m → belongs i (<[name := false]> m).
Proof. intros Hm name'. rewrite lookup_insert_Some. naive_solver. Qed.
Lemma belongs_delete i m name : belongs i m → belongs i (delete name m).
Proof. intros Hm name'. rewrite lookup_delete_Some. naive_solver. Qed.
Lemma belongs_start i m :
  belongs i m → belongs i (<[container_name (is_server_instance_id i) := true]> m).
Proof. intros Hm name'. rewrite lookup_insert_Some. naive_solver. Qed.
Lemma belongs_silent i m :
  belongs i m → m !! container_name (is_server_instance_id i) ≠ Some true → silent m.
Proof. intros Hb Hm name Hn. pose proof (Hb _ Hn). by subst name. Qed.
Lemma silent_belongs i m : silent m → belongs i m.
Proof. intros Hs name Hn. by destruct (Hs name). Qed.
Lemma silent_insert m name : silent m → silent (<[name := false]> m).
Proof. intros Hs name'. rewrite lookup_insert_Some. specialize (Hs name'). naive_solver. Qed.
Lemma silent_delete m name : silent m → silent (delete name m).
Proof. intros Hs name'. rewrite lookup_delete_Some. specialize (Hs name'). naive_solver. Qed.

(** Starting runs the container of the instance and no other. *)
Lemma triple_start_server i r D params :
  write_closed D →
  triple (holds_at (assigned i) (belongs i) r D) (holds_at (assigned i) (belongs i) r D)
    (executor_start_server lossy config params)
    (or_err (holds_at (assigned i) (belongs i) r D) (λ _, holds_at (assigned i) (belongs i) r D)).
Proof.
  intros HD. pose proof (belongs_closed i D HD) as HC. set (P := holds_at _ _ _ _).
  assert (∀ name, keeps (belongs i) name) as Hk.
  { intros name m Hm. split; [by apply belongs_delete|by apply belongs_insert]. }
  eapply triple_load_known; [done|done|apply loaded_assigned|].
  apply triple_check; [done|]. intros _ [= <-]. apply triple_check; [done|]. intros [] Hid.
  apply validate_ok in Hid as [Hid _]. destruct (is_data_prepared i); [|by apply triple_fail].
  cbn [negb]. eapply triple_try; [by apply triple_container_running|]. intros running.
  eapply (triple_pre _ _ P); [intros n Hn; by apply holds_at_left in Hn|].
  destruct running; [by apply triple_ret|].
  eapply triple_try; [by apply triple_remove_container|]. intros [].
  eapply (triple_pre _ _ P); [intros n Hn; by apply holds_at_left in Hn|].
  eapply triple_try; [by apply triple_create_container|]. intros [].
  eapply (triple_try _ _ (λ _, P)); [|intros output; by apply triple_ret].
  apply triple_podman_start; [done..|]. rewrite <-Hid. apply belongs_start.
Qed.

(** ** Cleaning up *)

Lemma triple_any_path_exists I P ps :
  node_stable P → (∀ n, P n → I n) → triple I P (any_path_exists ps) (or_err I (λ _, P)).
Proof.
  intros HP HI. induction ps as [|p ps IH]; [by apply triple_ret|].
  eapply (triple_try _ _ (λ _, P)).
  - eapply triple_post; [by apply triple_path_exists|]. intros [b|e] n; cbn; naive_solver.
  - intros [|]; [by apply triple_ret|done].
Qed.

Section cleanup.
Context (f : option (result string AgentState)) (s : AgentState).
Context (C : gmap string bool → Prop) (r : gmap (string * string) content).
Context (Hf : ∀ s', loaded f s' → s' = s) (HC : closed C any_dirs) (Hk : ∀ name, keeps C name).
Context (Hsilent : ∀ m, silent m → C m).

Definition cleaned (n : node) : Prop := holds_at None silent r (λ d, d = (None, None, None)) n.
Definition cleaning (n : node) : Prop :=
  holds_at f C r any_dirs n ∨ holds_at None silent r any_dirs n.

Lemma triple_remove_instance_storage :
  triple cleaning (holds_at f silent r any_dirs) (remove_instance_storage lossy config)
    (or_err cleaning (λ _, cleaned)).
Proof.
  assert (∀ D n, holds_at f silent r D n → cleaning n) as HI.
  { intros D n Hn. left. revert Hn. by apply holds_at_weaken. }
  eapply triple_try; [apply triple_remove_paths; [by apply HI|repeat constructor]|]. intros [].
  set (P := holds_at _ _ _ _).
  assert (∀ n, P n → holds_at f silent r (λ d, d = (None, None, None)) n) as HP.
  { intros n. apply holds_at_weaken; [done|]. by intros d' (d & _ & ->). }
  eapply (triple_bind _ _ (λ x n, match x with
    | Ok _ | Err IoNotFound => cleaned n
    | Err _ => P n end)).
  - apply triple_op; [apply holds_at_stable, silent_closed|apply HI|].
    intros n x n' Hn Hs. pose proof (HP n Hn) as (Hfile & Hc & Hr & Hd).
    assert (∀ n', n' = removed StatePath n → cleaned n') as Hrm.
    { intros ? ->. by split_and!. }
    assert (∀ n', cleaned n' → cleaning n') as Hcl.
    { intros n1 Hn1. right. by eapply holds_at_any. }
    destruct x as [[]|e]; [by split; [apply Hcl|]; apply Hrm|].
    destruct e; cbn in Hs; [|by subst n'; split; [by eapply HI|]..].
    destruct Hs as [-> Hs]. assert (f = None) as ->.
    { rewrite <-Hfile. cbn in Hs. by destruct (n_file n). }
    split; [by eapply HI|]. by split_and!.
  - intros [[]|e].
    + apply triple_ret; [|done]. intros n Hn. right. by eapply holds_at_any.
    + destruct e; [apply triple_ret; [|done]; intros n Hn; right; by eapply holds_at_any|
        apply triple_fail; apply HI..].
Qed.

Lemma triple_cleanup_instance params :
  (validate_assigned s (cleanup_instance params) = Ok () → ∀ m, C m →
    m !! container_name (server_instance_id (cleanup_instance params)) = None → silent m) →
  triple cleaning (holds_at f C r any_dirs) (executor_cleanup_instance lossy config params)
    (or_err cleaning (λ _, cleaned)).
Proof.
  intros Hgone. assert (∀ n, holds_at f C r any_dirs n → cleaning n) as HI by (by left).
  eapply triple_load_known; [done|done|exact Hf|].
  apply triple_check; [done|]. intros [] Hid.
  eapply triple_try; [by apply triple_container_exists|]. intros existed.
  eapply triple_pre; [intros n; apply holds_at_left|].
  eapply triple_try; [by apply triple_remove_container|]. intros [].
  eapply (triple_pre _ _ (holds_at f silent r any_dirs)).
  { intros n. apply holds_at_weaken; [|done]. intros m [Hm Hn]. by apply (Hgone Hid). }
  assert (∀ n, holds_at f silent r any_dirs n → cleaning n) as HI'.
  { intros n Hn. left. revert Hn. by apply holds_at_weaken. }
  eapply triple_try;
    [by apply triple_any_path_exists; [apply holds_at_stable, silent_closed|]|]. intros storage.
  eapply triple_try; [apply triple_remove_instance_storage|]. intros [].
  apply triple_ret; [|done]. intros n Hn. right. by eapply holds_at_any.
Qed.
End cleanup.

(** ** A node without data *)

(** The instance a restore assigns. *)
Definition restored_instance (params : RestoreDataParams) : InstanceState :=
  {| is_server_instance_id := server_instance_id (restore_instance params);
     is_fencing_token := fencing_token (restore_instance params);
     is_server_id := restore_server_id params; is_repository := restore_repository params;
     is_source_snapshot_id := restore_source_snapshot_id params;
     is_data_prepared := true; is_last_snapshot_id := None |}.

(** The data is the content of the source, and empty without one. *)
Definition has_source (params : RestoreDataParams) (f : option (result string AgentState))
    (n : node) : Prop :=
  match restore_source_snapshot_id params with
  | Some snapshot => restored_from f (restore_repository params) snapshot n
  | None => holds_at f silent ∅ (λ d, d.1.1 = Some ∅) n
  end.
Definition restoring (params : RestoreDataParams) (n : node) : Prop :=
  holds_at None silent ∅ any_dirs n ∨ has_source params (assigned (restored_instance params)) n.

Lemma has_source_any params f n : has_source params f n → holds_at f silent ∅ any_dirs n.
Proof.
  unfold has_source, restored_from. destruct (restore_source_snapshot_id params).
  - intros [c Hn]. by eapply holds_at_any, holds_at_forget.
  - apply holds_at_any.
Qed.

Lemma triple_restore_data params :
  triple (restoring params) (holds_at None silent ∅ any_dirs)
    (executor_restore_data lossy config params)
    (or_err (restoring params) (λ changed n, changed = true ∧
      has_source params (assigned (restored_instance params)) n)).
Proof.
  set (P := holds_at None silent ∅ any_dirs).
  assert (∀ n, P n → restoring params n) as HI by (by left).
  assert (node_stable P) as HP by apply holds_at_stable, silent_closed.
  eapply triple_load_known; [apply silent_closed|done|apply loaded_none|].
  unfold ensure_instance_state. cbn [as_instance AgentState_default as_schema_version].
  apply triple_check; [done|]. intros [] Hok. cbn [as_instance is_some_and is_data_prepared].
  eapply triple_try; [by apply triple_make_private_directory|]. intros [].
  eapply triple_try; [by apply triple_ensure_restic_repository|]. intros [].
  eapply (triple_try _ _ (λ _, has_source params None)).
  { unfold has_source. destruct (restore_source_snapshot_id params) as [snapshot|].
    - eapply triple_post; [eapply triple_always; [exact HI|apply triple_restore_snapshot]|].
      intros [[]|e] n; cbn; auto.
    - eapply triple_try; [by apply triple_remove_paths; [|repeat constructor]|]. intros [].
      eapply triple_try; [eapply triple_pre; [|by apply triple_create_data]|].
      + intros n. apply holds_at_weaken; [done|]. by intros d' (d & _ & ->).
      + intros []. apply triple_ret; [|done]. intros n Hn. by eapply HI, holds_at_any. }
  intros []. assert (∀ n, has_source params None n → restoring params n) as HI'.
  { intros n Hn. by eapply HI, has_source_any. }
  apply triple_check; [done|]. intros i [= <-]. apply triple_check; [done|]. intros [] _.
  eapply (triple_try _ _ (λ _, has_source params (assigned (restored_instance params)))).
  - change (set_instance _ _) with {| as_schema_version := AGENT_STATE_SCHEMA_VERSION;
      as_instance := Some (restored_instance params) |}.
    assert (∀ n, has_source params (assigned (restored_instance params)) n → restoring params n)
      as HI'' by (by right).
    unfold has_source in *. destruct (restore_source_snapshot_id params) as [snapshot|].
    + apply triple_exists. intros c. eapply triple_post;
        [apply triple_store_state; [apply silent_closed|intros n Hn; apply HI'; by exists c|]|].
      * intros n Hn. apply HI''. by exists c.
      * intros [[]|e] n Hn; cbn; [by exists c|done].
    + by apply triple_store_state; [apply silent_closed|..].
  - intros []. apply triple_ret; [|done]. by right.
Qed.

(** Requests that do not prepare data find nothing to do. *)
Lemma triple_unassigned_request r D req :
  match req with NodeRestoreData _ | NodeCleanupInstance _ => False | _ => True end →
  triple (holds_at None silent r D) (holds_at None silent r D) (execute req)
    (or_err (holds_at None silent r D) (λ _, holds_at None silent r D)).
Proof.
  pose proof (silent_closed D) as HC. set (P := holds_at None silent r D).
  assert (∀ A (g : A → NodeAnswer) k,
    triple P P (k AgentState_default) (or_err P (λ _ : A, P)) →
    triple P P (answer g (try_bind id load_state k)) (or_err P (λ _, P))) as Ha.
  { intros A g k Hk. eapply triple_post; [eapply triple_answer; [|by intros ? ?; apply id]|].
    - eapply triple_load_known; [done|done|apply loaded_none|exact Hk].
    - intros [b|e] n; cbn; naive_solver. }
  destruct req; try done; intros _; apply Ha; try by apply triple_fail.
  apply triple_check; [done|]. intros [] _.
  eapply triple_try; [by apply triple_container_running|]. intros running.
  apply triple_ret; [|cbn]; intros n Hn; by apply holds_at_left in Hn.
Qed.
End requests.
