(* ===== verification/NodeHealthy.v ===== *)
(** A node on which commands and file-system calls do what they are asked: an
    executable evaluator of the agent's programs, whose runs are runs of the
    node, and what the agent achieves on it. *)
From S2P Require Import Prelude Text Programs JsonRpc Framing Server Instances InstanceFacts.
From S2P Require Import Database Repositories Effects NodeConfig NodeAgent NodeSemantics NodeFacts.
From S2P Require Import Config.
From S2P Require Import NodeRequests.
#[local] Open Scope string_scope.
#[local] Open Scope Z_scope.

Definition output_of (status : Z) (stdout : bytes) : Output :=
  {| out_status := Some status; out_stdout := stdout; out_stderr := [] |}.
Definition ok_output : Output := output_of 0 [].
Definition failed_output : Output := output_of 125 [].

Section healthy.
Context `{Codec} `{JsonTextLaws}.

(** The summary a backup prints. *)
Definition summary (id : string) : json :=
  JObject [("message_type", JString "summary"); ("snapshot_id", JString id)].

Definition backup_id (n : node) : string :=
  "snapshot-" ++ u64_to_string (Z.of_nat (size (n_repository n))).

Definition valid_id (id : string) : bool :=
  negb (str_is_blank id) && negb (str_contains_nul id) && (str_char_count id <=? 64).

Definition healthy_command (n : node) (c : node_command) : Output * node :=
  match c with
  | PodmanContainerExists name =>
      (output_of (if is_some (n_containers n !! name) then 0 else 1) [], n)
  | PodmanInspectRunning name =>
      (match n_containers n !! name with
       | Some running => output_of 0 (String.list_ascii_of_string
           (if (running : bool) then "true" else "false"))
       | None => failed_output
       end, n)
  | PodmanRemove name => (ok_output, set_containers (delete name (n_containers n)) n)
  | PodmanCreate name _ _ _ _ => (ok_output, set_containers (<[name := false]> (n_containers n)) n)
  | PodmanStart name =>
      if is_some (n_containers n !! name)
      then (ok_output, set_containers (<[name := true]> (n_containers n)) n)
      else (failed_output, n)
  | PodmanStop _ name =>
      if is_some (n_containers n !! name)
      then (ok_output, set_containers (<[name := false]> (n_containers n)) n)
      else (failed_output, n)
  | ResticCatConfig _ | ResticInit _ => (ok_output, n)
  | ResticRestore repository snapshot _ =>
      match n_repository n !! (repository, snapshot), n_staging n with
      | Some c, Some None => (ok_output, set_staging (Some (Some c)) n)
      | _, _ => (failed_output, n)
      end
  | ResticBackup repository _ _ =>
      let id := backup_id n in
      match n_data n, n_repository n !! (repository, id), to_vec (summary id) with
      | Some d, None, Ok line =>
          if valid_id id
          then (output_of 0 line, set_repository (<[(repository, id) := d]> (n_repository n)) n)
          else (failed_output, n)
      | _, _, _ => (failed_output, n)
      end
  | UnshareRemove paths => (ok_output, foldl (flip removed) n paths)
  | UnshareMove source destination =>
      match dir_of source n, dir_of destination n with
      | Some c, None => (ok_output, set_dir destination (Some c) (set_dir source None n))
      | _, _ => (failed_output, n)
      end
  end.

Definition found (p : node_path) (n : node) : result io_error bool :=
  if path_present p n then Ok (is_directory p) else Err IoNotFound.

Definition healthy {X} (n : node) (o : node_op X) : X * node :=
  match o in node_op X return X * node with
  | RunCommand c _ => let '(output, n') := healthy_command n c in (Ok output, n')
  | ReadStateFile => (ok_or IoNotFound (n_file n), n)
  | WriteTemporaryState s => (Ok tt, set_temporary (Some (Ok s)) n)
  | RenameTemporaryState =>
      match n_temporary n with
      | Some t => (Ok tt, set_file (Some t) (set_temporary None n))
      | None => (Err IoNotFound, n)
      end
  | SyncStateDirectory | MakePrivateDirectory => (Ok tt, n)
  | Metadata p | SymlinkMetadata p => (found p n, n)
  | CreateDirAll p => (Ok tt, created p n)
  | RemoveDirAll p => (Ok tt, removed p n)
  | RemoveFile p =>
      if path_present p n then (Ok tt, removed p n) else (Err IoNotFound, n)
  | RenamePath source destination =>
      match dir_of source n, dir_of destination n with
      | Some c, None => (Ok tt, set_dir destination (Some c) (set_dir source None n))
      | _, _ => (Err (IoOther "rename"), n)
      end
  end.

(** Running a program to its end. *)
Fixpoint eval {A} (p : node_prog A) (n : node) : A * node :=
  match p with
  | Ret a => (a, n)
  | Op o k => let '(x, n') := healthy n o in eval (k x) n'
  end.

Lemma split_lines_one line acc :
  NEWLINE ∉ line → split_lines line acc = [(rev acc ++ line)%list].
Proof.
  revert acc. induction line as [|c line IH]; intros acc Hn; cbn; [by rewrite app_nil_r|].
  apply not_elem_of_cons in Hn as [Hc Hn]. destruct (Ascii.eqb_spec c NEWLINE); [done|].
  rewrite IH by done. cbn. by rewrite <-app_assoc.
Qed.

Lemma backup_output_of id line :
  valid_id id = true → to_vec (summary id) = Ok line → backup_output line id.
Proof.
  intros Hid Ht. destruct (json_text_one_line _ _ Ht) as (Hne & Hn & _).
  exists [], line, [], (summary id). rewrite split_lines_one by done. cbn.
  apply andb_true_iff in Hid as [Hid Hlen]. apply andb_true_iff in Hid as [Hb Hnul].
  split_and!; [done|constructor|done|by apply json_text_round_trip|done|done|].
  split_and!; [by destruct (str_is_blank id)|by destruct (str_contains_nul id)|by apply Z.leb_le].
Qed.

Lemma set_staging_id n : set_staging (n_staging n) n = n.
Proof. by destruct n. Qed.

Lemma healthy_command_step n c :
  command_step n c (Ok (healthy_command n c).1) (healthy_command n c).2.
Proof.
  assert (∀ n, command_failed n c n → match c with UnshareRemove _ | PodmanContainerExists _ => False | _ => True end →
    command_step n c (Ok failed_output) n) as Hfail.
  { intros n' Hf Hc. cbn. split; [done|]. by destruct c. }
  assert (∀ l n', command_done n c (output_of 0 l) n' → command_step n c (Ok (output_of 0 l)) n')
    as Hok by done.
  destruct c as [name|name|name|name ? ? ? ?|name|? name|?|?|repository snapshot ?|repository ? ?|ps|
    source destination]; cbn [healthy_command].
  - destruct (n_containers n !! name) eqn:Hn; cbn; [by rewrite Hn|]. done.
  - destruct (n_containers n !! name) as [b|] eqn:Hn; [|by apply Hfail].
    apply Hok. split; [done|]. exists b. split; [done|]. by destruct b; vm_compute.
  - by apply Hok.
  - by apply Hok.
  - destruct (n_containers n !! name) eqn:Hn; [apply Hok; cbn; by rewrite Hn|]. apply Hfail; cbn; auto.
  - destruct (n_containers n !! name) eqn:Hn; [by apply Hok|]. apply Hfail; cbn; auto.
  - by apply Hok.
  - by apply Hok.
  - assert (command_step n (ResticRestore repository snapshot target) (Ok failed_output) n) as Hf.
    { apply Hfail; [|done]. exists (n_staging n). by rewrite set_staging_id. }
    destruct (n_repository n !! (repository, snapshot)) as [c|] eqn:Hr; [|done].
    destruct (n_staging n) as [[]|] eqn:Hs; [done| |done]. apply Hok. by exists c, c.
  - assert (command_step n (ResticBackup repository server_tag instance_tag) (Ok failed_output) n)
      as Hf by (apply Hfail; cbn; auto).
    destruct (n_data n) as [d|] eqn:Hd; [|done].
    destruct (n_repository n !! (repository, backup_id n)) eqn:Hr; [done|].
    destruct (to_vec (summary (backup_id n))) as [line|] eqn:Ht; [|done].
    destruct (valid_id (backup_id n)) eqn:Hv; [|done]. apply Hok. exists (backup_id n), d, d.
    split_and!; [by apply backup_output_of|done|done|by left|done].
  - by apply Hok.
  - assert (command_step n (UnshareMove source destination) (Ok failed_output) n)
      as Hf by (apply Hfail; cbn; auto).
    destruct (dir_of source n) as [c|] eqn:Hs; [|done].
    destruct (dir_of destination n) eqn:Ht; [done|]. apply Hok. exists c. by rewrite Ht.
Qed.

Lemma healthy_step {X} n (o : node_op X) : node_step n o (healthy n o).1 (healthy n o).2.
Proof.
  destruct o as [c description| | | | | |p|p|p|p|p|source destination]; cbn; try done.
  - pose proof (healthy_command_step n c) as Hc. by destruct (healthy_command n c).
  - by destruct (n_file n) eqn:Hf.
  - destruct (n_temporary n) as [t|] eqn:Ht; [|done]. by exists t.
  - unfold found. split; [done|]. by destruct (path_present p n) eqn:Hp; cbn.
  - unfold found. split; [done|]. by destruct (path_present p n) eqn:Hp; cbn.
  - by destruct (path_present p n) eqn:Hp; cbn.
  - destruct (dir_of source n) as [c|] eqn:Hs; [|done].
    destruct (dir_of destination n) eqn:Ht; [done|]. exists c. auto.
Qed.

(** What the evaluator computes is a run. *)
Lemma eval_run {A} (p : node_prog A) n : node_run n p (eval p n).2 (Some (eval p n).1).
Proof.
  revert n. induction p as [a|X o k IH]; intros n; cbn; [constructor|].
  pose proof (healthy_step n o) as Hs. destruct (healthy n o) as [x n']. eapply run_op; [done|done|].
  apply IH.
Qed.

Lemma eval_bind {A B} (m : node_prog A) (f : A → node_prog B) n :
  eval (prog_bind m f) n = eval (f (eval m n).1) (eval m n).2.
Proof.
  revert n. induction m as [a|X o k IH]; intros n; cbn; [done|]. destruct (healthy n o). apply IH.
Qed.

Lemma eval_try {E F A B} (conv : E → F) (m : node_prog (result E A)) (f : A → node_prog (result F B))
    n a n' :
  eval m n = (Ok a, n') → eval (try_bind conv m f) n = eval (f a) n'.
Proof. intros Hm. unfold try_bind. by rewrite eval_bind, Hm. Qed.

(** ** Recovery *)

Section recovery.
Context (lossy : bytes → string) (config : NodeConfig).

Lemma removed_absent p n : is_directory p = true → path_present p n = false → removed p n = n.
Proof. by destruct n as [? ? [] [] [[]|] ? ?], p; cbn. Qed.

Lemma eval_path_exists p n : eval (path_exists p) n = (Ok (path_present p n), n).
Proof. cbn. unfold found. by destruct (path_present p n). Qed.

Lemma eval_remove_paths ps n :
  directories ps → eval (remove_paths lossy config ps) n = (Ok tt, foldl (flip removed) n ps).
Proof.
  intros Hps. unfold remove_paths. destruct (nc_data_access_mode config); [done|].
  revert n. induction Hps as [|p ps Hp Hps IH]; intros n; [done|].
  cbn [prog_for_each foldl]. rewrite <-IH.
  rewrite (eval_try id (remove_path p) (λ _, prog_for_each remove_path ps) n tt (removed p n)); [done|].
  unfold remove_path. rewrite eval_bind. cbn [perform eval healthy fst snd]. unfold found.
  destruct (path_present p n) eqn:Hpp; [rewrite Hp; done|]. cbn. by rewrite removed_absent.
Qed.

Lemma eval_move_path s t c n :
  dir_of s n = Some c → dir_of t n = None →
  eval (move_path lossy config s t) n = (Ok tt, set_dir t (Some c) (set_dir s None n)).
Proof.
  intros Hs Ht. unfold move_path. destruct (nc_data_access_mode config); cbn; by rewrite Hs, Ht.
Qed.

Lemma eval_store_state s n :
  eval (store_state s) n = (Ok tt, set_file (Some (Ok s)) (set_temporary None n)).
Proof. by destruct n. Qed.

(** The rest of the node. *)
Definition same_rest (n n' : node) : Prop :=
  n_file n' = n_file n ∧ n_temporary n' = n_temporary n ∧ n_containers n' = n_containers n ∧
  n_repository n' = n_repository n.

Lemma eval_recover_interrupted_swap n r n' :
  eval (recover_interrupted_swap lossy config) n = (r, n') → r = Ok tt ∧ same_rest n n'.
Proof.
  unfold recover_interrupted_swap. erewrite eval_try by apply eval_path_exists.
  cbn [path_present dir_of]. destruct (n_data n) as [d|] eqn:Hd; cbn [is_some].
  { by intros [= <- <-]. }
  erewrite eval_try by apply eval_path_exists. cbn [path_present dir_of].
  destruct (n_previous n) as [d|] eqn:Hp; cbn [is_some]; [|by intros [= <- <-]].
  rewrite (eval_move_path _ _ d) by done. by intros [= <- <-].
Qed.

Lemma eval_swap_restored n c r n' :
  n_staging n = Some (Some c) → n_previous n = None →
  eval (swap_restored lossy config) n = (r, n') →
  r = Ok tt ∧ same_rest n n' ∧ dirs n' = (Some c, None, None).
Proof.
  intros Hs Hp. unfold swap_restored. erewrite eval_try by apply eval_path_exists.
  cbn [path_present dir_of].
  assert (∀ n1, n_staging n1 = Some (Some c) → n_data n1 = None → same_rest n n1 →
    eval (prog_bind (move_path lossy config RestoredData DataDirectory) (λ moved, match moved with
      | Err error =>
          prog_bind (path_exists PreviousDirectory) (λ previous_exists,
          prog_bind (if unwrap_or previous_exists false then
            prog_bind (path_exists DataDirectory) (λ data_exists,
              if negb (unwrap_or data_exists true)
              then move_path lossy config PreviousDirectory DataDirectory else Ret (Ok tt))
            else Ret (Ok tt)) (λ _, Ret (Err error)))
      | Ok _ => try_bind id (remove_paths lossy config [PreviousDirectory; StagingDirectory])
                  (λ _, Ret (Ok tt)) end)) n1 = (r, n') →
    r = Ok tt ∧ same_rest n n' ∧ dirs n' = (Some c, None, None)) as Hend.
  { intros n1 Hs1 Hd1 Hr1. rewrite eval_bind. rewrite (eval_move_path _ _ c) by (by cbn; rewrite ?Hs1).
    cbn [fst snd]. erewrite eval_try by (apply eval_remove_paths; repeat constructor).
    cbn. intros [= <- <-]. by split_and!; try apply Hr1. }
  destruct (n_data n) as [d|] eqn:Hd; cbn [is_some].
  - erewrite eval_try by (apply (eval_move_path _ _ d); done). by apply Hend.
  - erewrite eval_try by done. by apply Hend.
Qed.

Lemma eval_restore_snapshot n repository snapshot c r n' :
  n_repository n !! (repository, snapshot) = Some c →
  utf8_valid (path_of config StagingDirectory) = true →
  eval (restore_snapshot lossy config repository snapshot) n = (r, n') →
  r = Ok tt ∧ same_rest n n' ∧ dirs n' = (Some c, None, None).
Proof.
  intros Hr Hu. unfold restore_snapshot.
  destruct (eval (recover_interrupted_swap lossy config) n) as [r1 n1] eqn:Hn1.
  pose proof (eval_recover_interrupted_swap _ _ _ Hn1) as (-> & Hf & Ht & Hc & Hrp).
  erewrite eval_try by exact Hn1.
  erewrite eval_try by (apply eval_remove_paths; repeat constructor).
  erewrite eval_try by done. unfold path_to_string. rewrite Hu. erewrite eval_try by done.
  erewrite eval_try by (cbn; rewrite Hrp, Hr; done).
  erewrite eval_try by done. cbn [negb is_directory]. intros He.
  apply (eval_swap_restored _ c) in He as (-> & Hrest & Hd); [|done|done].
  destruct Hrest as (Hf' & Ht' & Hc' & Hr'). split; [done|]. split; [|done].
  by split_and!; (etrans; [eassumption|]).
Qed.

(** Whatever an interrupted attempt left in the directories, the next one
    prepares the data. *)
Lemma eval_restore_data n params c :
  n_file n = None →
  match restore_source_snapshot_id params with
  | Some snapshot => n_repository n !! (restore_repository params, snapshot) = Some c
  | None => c = ∅
  end →
  utf8_valid (path_of config StagingDirectory) = true →
  let '(r, n') := eval (executor_restore_data lossy config params) n in
  r = Ok true ∧ n_data n' = Some c ∧ n_file n' = assigned (restored_instance params) ∧
  n_containers n' = n_containers n ∧ n_repository n' = n_repository n.
Proof.
  intros Hf Hsrc Hu. unfold executor_restore_data.
  erewrite eval_try by (cbn; rewrite Hf; done).
  set (i := {| is_server_instance_id := server_instance_id (restore_instance params);
    is_fencing_token := fencing_token (restore_instance params);
    is_server_id := restore_server_id params; is_repository := restore_repository params;
    is_source_snapshot_id := restore_source_snapshot_id params;
    is_data_prepared := false; is_last_snapshot_id := None |}).
  assert (validate_identity i (restore_instance params) = Ok tt) as Hv.
  { unfold validate_identity. cbn. by rewrite N.eqb_refl, Z.eqb_refl. }
  assert (ensure_instance_state AgentState_default (restore_instance params)
    (restore_server_id params) (restore_repository params) (restore_source_snapshot_id params)
    = (Ok tt, {| as_schema_version := AGENT_STATE_SCHEMA_VERSION; as_instance := Some i |})) as ->.
  { unfold ensure_instance_state. cbn [as_instance AgentState_default]. fold i. rewrite Hv. cbn.
    rewrite N.eqb_refl, String.eqb_refl, bool_decide_eq_true_2 by done. done. }
  erewrite eval_try by done. cbn [as_instance is_some_and is_data_prepared i].
  erewrite eval_try by done. erewrite eval_try by done.
  assert (∃ n1, eval (match restore_source_snapshot_id params with
    | Some snapshot_id => restore_snapshot lossy config (restore_repository params) snapshot_id
    | None =>
        try_bind id (remove_paths lossy config [DataDirectory]) (λ _,
        try_bind EXE.Io (perform (CreateDirAll DataDirectory)) (λ _, Ret (Ok tt)))
    end) n = (Ok tt, n1) ∧ same_rest n n1 ∧ n_data n1 = Some c) as (n1 & He & Hs & Hd).
  { destruct (restore_source_snapshot_id params) as [snapshot|].
    - destruct (eval (restore_snapshot lossy config (restore_repository params) snapshot) n)
        as [r n1] eqn:He.
      destruct (eval_restore_snapshot _ _ _ c _ _ Hsrc Hu He) as (-> & Hs & Hd).
      exists n1. split_and!; [done..|]. by injection Hd.
    - subst c. erewrite eval_try by (apply eval_remove_paths; repeat constructor).
      by eexists. }
  erewrite eval_try by exact He. erewrite eval_try by done. erewrite eval_try by (by rewrite Hv).
  erewrite eval_try by apply eval_store_state. cbn [eval].
  destruct Hs as (_ & _ & Hc & Hr). by split_and!.
Qed.
End recovery.
End healthy.
