(* ===== verification/NodeProperties.v ===== *)
(** What the node agent guarantees about a server's data: fencing, restores that
    survive interruption, snapshots that are the data, and the invariant of its
    node. Every run may stop anywhere, every call may fail after taking effect in
    part, and a running container writes at any time. *)
From S2P Require Import Prelude Text Programs JsonRpc Framing Server Instances InstanceFacts.
From S2P Require Import Database Codecs Repositories Effects NodeConfig NodeAgent.
From S2P Require Import NodeSemantics NodeFacts NodeRequests NodeHealthy.
#[local] Open Scope string_scope.
#[local] Open Scope Z_scope.

Section node_properties.
Context `{Codec} `{JsonText}.
Context (lossy : bytes → string) (config : NodeConfig).

(** ** Histories of a node *)

(** What can happen to a node: something by itself, or a request that runs to its
    end or stops in the middle. *)
Inductive node_event (allowed : NodeRequest → Prop) : node → node → Prop :=
| event_env n n' : node_env n n' → node_event allowed n n'
| event_request n req n' out :
    allowed req → node_run n (execute lossy config req) n' out → node_event allowed n n'.

Definition any_request (req : NodeRequest) : Prop := True.

(** A new node, with the repositories of the other nodes. *)
Definition new_node (r : gmap (string * string) content) : node := set_repository r empty_node.

Definition node_reachable (n : node) : Prop :=
  ∃ r, rtc (node_event any_request) (new_node r) n.

(** The invariant: a state file is readable and says that the data is prepared,
    and only the container of its instance runs. *)
Definition node_ok (n : node) : Prop :=
  match n_file n with
  | None => quiet n
  | Some (Ok s) => ∃ i, n_file n = assigned i ∧ is_data_prepared i = true ∧ belongs i (n_containers n)
  | Some (Err _) => False
  end.

Lemma node_ok_cases n :
  node_ok n → (n_file n = None ∧ quiet n) ∨
    ∃ i, n_file n = assigned i ∧ is_data_prepared i = true ∧ belongs i (n_containers n).
Proof. unfold node_ok. destruct (n_file n) as [[]|]; naive_solver. Qed.

Lemma node_ok_none C r D n : (∀ m, C m → silent m) → holds_at None C r D n → node_ok n.
Proof. intros HC (Hf & Hc & _). unfold node_ok. rewrite Hf. by apply HC. Qed.
Lemma node_ok_assigned i C r D n :
  is_data_prepared i = true → (∀ m, C m → belongs i m) → holds_at (assigned i) C r D n → node_ok n.
Proof. intros Hp HC (Hf & Hc & _). unfold node_ok. rewrite Hf. exists i. auto. Qed.

Lemma or_stable P Q : node_stable P → node_stable Q → node_stable (λ n, P n ∨ Q n).
Proof. intros HP HQ n n' [Hn|Hn] He; [left|right]; eauto. Qed.
Lemma exists_stable {A} (P : A → node → Prop) : (∀ a, node_stable (P a)) → node_stable (λ n, ∃ a, P a n).
Proof. intros HP n n' [a Hn] He. exists a. by eapply HP. Qed.

(** The strongest assertions about a node of either kind. *)
Lemma holds_none n : n_file n = None → quiet n → holds_at None silent (n_repository n) any_dirs n.
Proof. intros ? ?. by split_and!. Qed.
Lemma holds_assigned i n :
  n_file n = assigned i → belongs i (n_containers n) →
  holds_at (assigned i) (belongs i) (n_repository n) any_dirs n.
Proof. intros ? ?. by split_and!. Qed.

(** A run of a triple, from a state that satisfies its precondition. *)
Lemma triple_run {A} I P (Q : A → node → Prop) p n n' out :
  triple I P p Q → node_stable I → P n → node_run n p n' out →
  I n' ∧ ∀ a, out = Some a → Q a n'.
Proof. intros Ht HI Hn Hr. eapply safe_run; [done| |done]. by apply Ht. Qed.

(** A run of an answer is a run of the executor's function. *)
Lemma answer_run {A} (g : A → NodeAnswer) (p : node_prog (result ExecutorError A)) I P Q n n' out :
  triple I P p (or_err I Q) → (∀ a n, Q a n → I n) → node_stable I → P n →
  node_run n (answer g p) n' out → I n'.
Proof.
  intros Ht HQ HI Hn Hr. eapply triple_run in Hr as [? _]; [done|by eapply triple_answer|done|done].
Qed.

Lemma assigned_stable i r D : write_closed D → node_stable (holds_at (assigned i) (belongs i) r D).
Proof. intros HD. by apply holds_at_stable, belongs_closed. Qed.
Lemma silent_stable f r D : node_stable (holds_at f silent r D).
Proof. apply holds_at_stable, silent_closed. Qed.
Lemma any_dirs_write_closed : write_closed any_dirs.
Proof. done. Qed.

Lemma restoring_stable params : node_stable (restoring params).
Proof.
  apply or_stable; [apply silent_stable|]. unfold has_source, restored_from.
  destruct (restore_source_snapshot_id params); [|apply silent_stable].
  apply exists_stable. intros c. apply silent_stable.
Qed.

(** ** Each request keeps the invariant *)

Lemma belongs_snapshot i sid m : belongs (set_last_snapshot_id sid i) m ↔ belongs i m.
Proof. done. Qed.

Lemma request_prepared i n req n' out :
  is_data_prepared i = true → n_file n = assigned i → belongs i (n_containers n) →
  node_run n (execute lossy config req) n' out →
  match req with
  | NodeCleanupInstance _ => cleaning (assigned i) (belongs i) (n_repository n) n'
  | _ => snapshotting i (belongs i) (n_repository n) any_dirs n'
  end.
Proof.
  intros Hp Hf Hb Hr. pose proof (holds_assigned i n Hf Hb) as Hn.
  pose proof (belongs_closed i any_dirs any_dirs_write_closed) as HC.
  pose proof (assigned_stable i (n_repository n) any_dirs any_dirs_write_closed) as Hst.
  assert (∀ req', match req' with NodeInspect _ | NodeRestoreData _ | NodeStopServer _ => True
    | _ => False end → node_run n (execute lossy config req') n' out →
    snapshotting i (belongs i) (n_repository n) any_dirs n') as Hq.
  { intros req' Hreq Hr'. left. eapply triple_run in Hr' as [? _]; [done| |done|done].
    apply triple_quiet_request; [done|done| |done]. intros m name. apply belongs_insert. }
  destruct req as [identity|params|params|params|params|params]; try (eapply Hq; [|exact Hr]; exact Logic.I).
  - left. eapply answer_run in Hr; [exact Hr|by apply triple_start_server|done|done|done].
  - eapply answer_run in Hr; [exact Hr| | | |exact Hn].
    + apply triple_snapshot_data; [done|]. intros m Hid. rewrite Hid. apply belongs_silent.
    + intros a m [_ Hm]. by eapply snapshotted_snapshotting.
    + by apply snapshotting_stable.
  - eapply answer_run in Hr; [exact Hr| | | |exact Hn].
    + eapply triple_cleanup_instance; [apply loaded_assigned|done| | |].
      * intros name m Hm. split; [by apply belongs_delete|by apply belongs_insert].
      * apply silent_belongs.
      * intros Hv m Hm Hnone. apply validate_ok in Hv as [Hid _]. rewrite <-Hid in Hnone.
        eapply belongs_silent; [done|]. by rewrite Hnone.
    + intros a m Hm. right. exact (holds_at_any _ _ _ _ _ Hm).
    + apply or_stable; [done|apply silent_stable].
Qed.

Lemma request_unprepared n req n' out :
  n_file n = None → quiet n → node_run n (execute lossy config req) n' out →
  match req with
  | NodeRestoreData params => restoring params n'
  | _ => holds_at None silent (n_repository n) any_dirs n'
  end.
Proof.
  intros Hf Hq Hr. pose proof (holds_none n Hf Hq) as Hn.
  assert (∀ req', match req' with NodeRestoreData _ | NodeCleanupInstance _ => False | _ => True end →
    node_run n (execute lossy config req') n' out →
    holds_at None silent (n_repository n) any_dirs n') as Hk.
  { intros req' Hreq Hr'. eapply triple_run in Hr' as [? _]; [done| |apply silent_stable|exact Hn].
    by apply triple_unassigned_request. }
  destruct req as [identity|params|params|params|params|params]; try (eapply Hk; [|exact Hr]; exact Logic.I).
  - eapply answer_run in Hr; [exact Hr|apply triple_restore_data| | |].
    + intros a m [_ Hm]. by right.
    + apply restoring_stable.
    + by eapply holds_at_forget.
  - assert (cleaning None silent (n_repository n) n') as [?|?]; [|done|done].
    eapply answer_run in Hr; [exact Hr| | | |exact Hn].
    + eapply triple_cleanup_instance; [apply loaded_none|apply silent_closed| |done|done].
      intros name m Hm. split; [by apply silent_delete|by apply silent_insert].
    + intros a m Hm. right. exact (holds_at_any _ _ _ _ _ Hm).
    + apply or_stable; apply silent_stable.
Qed.

Lemma snapshotting_ok i r D n :
  is_data_prepared i = true → snapshotting i (belongs i) r D n → node_ok n.
Proof.
  intros Hp [Hn|[sid Hn%snapshotted_holds]]; [by eapply node_ok_assigned|].
  by eapply (node_ok_assigned (set_last_snapshot_id sid i)).
Qed.

Lemma event_ok allowed n n' : node_ok n → node_event allowed n n' → node_ok n'.
Proof.
  intros Hok He. pose proof (node_ok_cases n Hok) as [[Hf Hq]|(i & Hf & Hp & Hb)].
  - destruct He as [n n' He|n req n' out _ Hr].
    + eapply (node_ok_none silent (n_repository n) any_dirs); [done|].
      eapply silent_stable; [|done]. by apply holds_none.
    + pose proof (request_unprepared n req n' out Hf Hq Hr) as Hn.
      destruct req as [identity|params|params|params|params|params];
        try by eapply node_ok_none; [|exact Hn].
      destruct Hn as [Hn|Hn]; [by eapply node_ok_none; [|exact Hn]|]. apply has_source_any in Hn.
      eapply node_ok_assigned; [|apply silent_belongs|exact Hn]. done.
  - destruct He as [n n' He|n req n' out _ Hr].
    + eapply (node_ok_assigned i (belongs i) (n_repository n) any_dirs); [done|done|].
      eapply assigned_stable; [done| |done]. by apply holds_assigned.
    + pose proof (request_prepared i n req n' out Hp Hf Hb Hr) as Hn.
      destruct req as [identity|params|params|params|params|params];
        try by eapply snapshotting_ok.
      destruct Hn as [Hn|Hn]; [by eapply node_ok_assigned; [| |exact Hn]|].
      by eapply node_ok_none; [|exact Hn].
Qed.

Lemma node_history_ok allowed n n' : node_ok n → rtc (node_event allowed) n n' → node_ok n'.
Proof. intros Hok. induction 1 as [|n1 n2 n3 He _ IH]; [done|]. apply IH. by eapply event_ok. Qed.

Lemma new_node_ok r : node_ok (new_node r).
Proof. unfold node_ok. cbn. intros name. cbn. by rewrite lookup_empty. Qed.

Lemma node_reachable_ok n : node_reachable n → node_ok n.
Proof. intros [r Hr]. eapply node_history_ok; [apply new_node_ok|done]. Qed.

(** ** What is kept *)

(** Snapshots are never lost or changed. *)
Lemma step_repository n {X} (o : node_op X) x n' :
  node_step n o x n' → n_repository n ⊆ n_repository n'.
Proof.
  assert (∀ key c n, n_repository n !! key = None ∨ n_repository n !! key = Some c →
    n_repository n ⊆ <[key := c]> (n_repository n)) as Hins.
  { intros key c m [Hk|Hk]; [by apply insert_subseteq|]. by rewrite insert_id. }
  assert (∀ ps n n', damaged ps n n' → n_repository n ⊆ n_repository n') as Hdam.
  { by intros ps m m' (_ & _ & _ & -> & _). }
  assert (∀ s t v w n, n_repository (set_dir t v (set_dir s w n)) = n_repository n) as Hset
    by (by intros [] []).
  assert (∀ s t n n', moved_by_mv s t n n' → n_repository n ⊆ n_repository n') as Hmv.
  { intros s t m m' (c & _ & Hm). destruct (dir_of t m); [by eapply Hdam|]. by rewrite Hm, Hset. }
  assert (∀ p n, n_repository (removed p n) = n_repository n) as Hrm by (by intros []).
  assert (∀ ps n, n_repository (foldl (flip removed) n ps) = n_repository n) as Hrms.
  { intros ps. induction ps as [|p ps IH]; intros m; cbn; [done|]. by rewrite IH, Hrm. }
  assert (∀ p n, n_repository (created p n) = n_repository n) as Hcr.
  { intros p m. unfold created. destruct (path_present p m); by destruct p. }
  assert (∀ c n n', command_failed n c n' → n_repository n ⊆ n_repository n') as Hfail.
  { intros c m m' Hf. destruct c; cbn in Hf; naive_solver. }
  assert (∀ c output n n', command_done n c output n' → n_repository n ⊆ n_repository n') as Hdone.
  { intros c output m m' Hf. destruct c; cbn in Hf; try (by subst);
      try (by destruct Hf as [-> _]); try (by destruct Hf as [_ ->]).
    - by destruct Hf as (? & ? & _ & _ & ->).
    - destruct Hf as (? & ? & ? & _ & _ & _ & Hk & ->). by apply Hins.
    - by rewrite Hf, Hrms.
    - by eapply Hmv. }
  destruct o as [c description| |s| | | |p|p|p|p|p|source destination]; cbn; intros Hs.
  - destruct x as [output|e]; cbn in Hs; [|by eapply Hfail].
    destruct (succeeded output); [by eapply Hdone|by eapply Hfail, Hs].
  - by destruct Hs as [-> _].
  - destruct x; [by subst|by destruct Hs as [? ->]].
  - destruct x; [by destruct Hs as (? & _ & ->)|by subst].
  - by subst.
  - by subst.
  - by destruct Hs as [-> _].
  - by destruct Hs as [-> _].
  - destruct x; [by rewrite Hs, Hcr|]. destruct Hs as [->| ->]; [done|by rewrite Hcr].
  - destruct x; [by rewrite Hs, Hrm|]. by eapply Hdam.
  - destruct x as [|[]]; [by rewrite Hs, Hrm|by destruct Hs as [-> _]|by subst].
  - destruct x; [|by subst]. destruct Hs as (c & _ & _ & ->). by rewrite Hset.
Qed.

Lemma env_repository n n' : rtc node_env n n' → n_repository n ⊆ n_repository n'.
Proof.
  induction 1 as [|n1 n2 n3 He _ IH]; [done|]. etrans; [|exact IH].
  destruct He; cbn; [done..|]. by apply insert_subseteq.
Qed.

Lemma run_repository {A} n (p : node_prog A) n' out :
  node_run n p n' out → n_repository n ⊆ n_repository n'.
Proof.
  induction 1 as [|n p|X o k x n n1 n2 n' r He Hs _ IH|X o k n n1 He]; [done|done| |].
  - etrans; [by apply env_repository|]. etrans; [by eapply step_repository|done].
  - by apply env_repository.
Qed.

(** Requests that neither start the process nor clean up. *)
Definition keeps_data (req : NodeRequest) : Prop :=
  match req with NodeStartServer _ | NodeCleanupInstance _ => False | _ => True end.
Definition not_cleanup (req : NodeRequest) : Prop :=
  match req with NodeCleanupInstance _ => False | _ => True end.

(** Two states of the same assignment: all but the last snapshot agrees. *)
Definition same_assignment (i i' : InstanceState) : Prop :=
  is_server_instance_id i' = is_server_instance_id i ∧ is_fencing_token i' = is_fencing_token i ∧
  is_server_id i' = is_server_id i ∧ is_repository i' = is_repository i ∧
  is_source_snapshot_id i' = is_source_snapshot_id i ∧ is_data_prepared i' = is_data_prepared i.

#[local] Instance same_assignment_preorder : PreOrder same_assignment.
Proof. split; [by intros ?|]. unfold same_assignment. intros ? ? ?. naive_solver congruence. Qed.

Lemma same_assignment_snapshot sid i : same_assignment i (set_last_snapshot_id sid i).
Proof. done. Qed.

(** Nothing runs and nothing starts: the directories stay. *)
Lemma kept_snapshotting i r D n n' :
  is_data_prepared i = true → holds_at (assigned i) silent r D n → node_event keeps_data n n' →
  snapshotting i silent r D n'.
Proof.
  intros Hp Hn He. destruct He as [n n' He|n req n' out Hk Hr].
  { left. by eapply silent_stable. }
  assert (match req with NodeSnapshotData _ => True | _ => holds_at (assigned i) silent r D n' end) as Hq.
  { destruct req; try done; (eapply triple_run in Hr as [Hr _];
      [exact Hr|apply triple_quiet_request; [done|apply silent_closed| |done]|apply silent_stable|done];
      intros m name; apply silent_insert). }
  destruct req as [identity|params|params|params|params|params]; try done; try (by left).
  eapply answer_run in Hr; [exact Hr| | | |exact Hn].
  - apply triple_snapshot_data; [apply silent_closed|done].
  - intros a m [_ Hm]. by eapply snapshotted_snapshotting.
  - apply snapshotting_stable, silent_closed.
Qed.

Lemma kept_event i r D n n' :
  is_data_prepared i = true → holds_at (assigned i) silent r D n → node_event keeps_data n n' →
  ∃ i', same_assignment i i' ∧ holds_at (assigned i') silent r D n'.
Proof.
  intros Hp Hn He. destruct (kept_snapshotting _ _ _ _ _ Hp Hn He) as [Hs|[sid Hs%snapshotted_holds]];
    [by exists i|by exists (set_last_snapshot_id sid i)].
Qed.

Lemma kept_history i r D n n' :
  is_data_prepared i = true → holds_at (assigned i) silent r D n → rtc (node_event keeps_data) n n' →
  ∃ i', same_assignment i i' ∧ holds_at (assigned i') silent r D n'.
Proof.
  intros Hp Hn Hh. revert i Hp Hn. induction Hh as [n|n1 n2 n3 He _ IH]; intros i Hp Hn; [by exists i|].
  destruct (kept_event _ _ _ _ _ Hp Hn He) as (i2 & Hi & Hn2).
  destruct (IH i2) as (i3 & Hi' & Hn3); [by rewrite (proj2 (proj2 (proj2 (proj2 (proj2 Hi)))))|done|].
  exists i3. split; [by etrans|done].
Qed.

(** The assignment outlives every request but a cleanup. *)
Lemma assignment_event i n n' :
  is_data_prepared i = true → n_file n = assigned i → belongs i (n_containers n) →
  node_event not_cleanup n n' →
  ∃ i', same_assignment i i' ∧ n_file n' = assigned i' ∧ belongs i' (n_containers n').
Proof.
  intros Hp Hf Hb He. destruct He as [n n' He|n req n' out Hk Hr].
  { exists i. pose proof (holds_assigned i n Hf Hb) as Hn.
    assert (holds_at (assigned i) (belongs i) (n_repository n) any_dirs n') as (? & ? & _)
      by (by eapply assigned_stable). done. }
  pose proof (request_prepared i n req n' out Hp Hf Hb Hr) as Hn.
  assert (snapshotting i (belongs i) (n_repository n) any_dirs n') as Hs by (by destruct req).
  destruct Hs as [(? & ? & _)|[sid (? & ? & _)%snapshotted_holds]];
    [by exists i|by exists (set_last_snapshot_id sid i)].
Qed.

Lemma assignment_history i n n' :
  is_data_prepared i = true → n_file n = assigned i → belongs i (n_containers n) →
  rtc (node_event not_cleanup) n n' → ∃ i', same_assignment i i' ∧ n_file n' = assigned i'.
Proof.
  intros Hp Hf Hb Hh. revert i Hp Hf Hb.
  induction Hh as [n|n1 n2 n3 He _ IH]; intros i Hp Hf Hb; [by exists i|].
  destruct (assignment_event _ _ _ Hp Hf Hb He) as (i2 & Hi & Hf2 & Hb2).
  destruct (IH i2) as (i3 & Hi' & Hf3); [by rewrite (proj2 (proj2 (proj2 (proj2 (proj2 Hi)))))|done..|].
  exists i3. split; [by etrans|done].
Qed.

(** A snapshot that was reported. *)
Lemma snapshot_run n params n' sid :
  node_reachable n → node_run n (executor_snapshot_data lossy config params) n' (Some (Ok sid)) →
  ∃ i c, is_data_prepared i = true ∧ n_file n = assigned i ∧
    holds_at (assigned (set_last_snapshot_id sid i)) silent
      {[(snapshot_repository params, sid) := c]} (λ d, d.1.1 = Some c) n'.
Proof.
  intros Hr Hrun. destruct (node_ok_cases n (node_reachable_ok n Hr)) as [[Hf Hq]|(i & Hf & Hp & Hb)].
  - assert (triple (holds_at None silent (n_repository n) any_dirs)
      (holds_at None silent (n_repository n) any_dirs) (executor_snapshot_data lossy config params)
      (or_err (holds_at None silent (n_repository n) any_dirs) (λ _ _, False))) as Ht.
    { eapply triple_load_known; [apply silent_closed|done|apply loaded_none|].
      by apply triple_check. }
    eapply triple_run in Hrun as [_ Hout]; [|exact Ht|apply silent_stable|by apply holds_none].
    by specialize (Hout _ eq_refl).
  - eapply triple_run in Hrun as [_ Hout];
      [|apply triple_snapshot_data|apply snapshotting_stable|by apply holds_assigned].
    + destruct (Hout _ eq_refl) as [Hrep (r' & c & _ & Hk & Hfile & [_ Hs] & Hr' & _ & Hd)].
      rewrite Hrep in Hk. exists i, c. split_and!; [done..|]. split_and!; [done..| |done].
      apply map_singleton_subseteq_l. by eapply lookup_weaken.
    + by apply belongs_closed.
    + intros m Hid. rewrite Hid. apply belongs_silent.
    + by apply belongs_closed.
Qed.

(** ** The snapshot that the state file names *)

(** It is of the data as it is, with nothing running. *)
Definition fresh_snapshot (i : InstanceState) (sid : string) (n : node) : Prop :=
  quiet n ∧ ∃ c, n_data n = Some c ∧ n_repository n !! (is_repository i, sid) = Some c.
Definition names_snapshot (n : node) (sid : string) : Prop :=
  ∃ i, n_file n = assigned i ∧ is_last_snapshot_id i = Some sid.

(** Every snapshot the file names was named before, or is fresh. *)
Definition old_or_fresh (old : string → Prop) (n : node) : Prop :=
  ∀ i sid, n_file n = assigned i → is_last_snapshot_id i = Some sid → old sid ∨ fresh_snapshot i sid n.

Lemma assigned_inj i i' : assigned i = assigned i' → i = i'.
Proof. by intros [= ->]. Qed.

Lemma fresh_holds i sid n :
  n_file n = assigned i → fresh_snapshot i sid n →
  ∃ c, holds_at (assigned i) silent {[(is_repository i, sid) := c]} (λ d, d.1.1 = Some c) n.
Proof.
  intros Hf (Hq & c & Hd & Hk). exists c. split_and!; [done..| |done]. by apply map_singleton_subseteq_l.
Qed.
Lemma holds_fresh f i sid c n :
  holds_at f silent {[(is_repository i, sid) := c]} (λ d, d.1.1 = Some c) n → fresh_snapshot i sid n.
Proof. intros (_ & Hs & Hk & Hd). split; [done|]. exists c. split; [done|]. by apply map_singleton_subseteq_l. Qed.

Lemma snapshotted_fresh i C r D sid n :
  snapshotted i C r D (is_repository i) sid n →
  n_file n = assigned (set_last_snapshot_id sid i) ∧ fresh_snapshot (set_last_snapshot_id sid i) sid n.
Proof.
  intros (r' & c & _ & Hk & Hf & [_ Hs] & Hr & _ & Hd). split; [done|]. split; [done|].
  exists c. split; [done|]. by eapply lookup_weaken.
Qed.

Lemma old_or_fresh_event old n n' :
  node_ok n → old_or_fresh old n → node_event keeps_data n n' → old_or_fresh old n'.
Proof.
  intros Hok Ho He. destruct (node_ok_cases n Hok) as [[Hf Hq]|(i & Hf & Hp & Hb)].
  - assert (∀ i, n_file n' = assigned i → is_last_snapshot_id i = None) as Hnone.
    { destruct He as [n n' He|n req n' out _ Hr].
      - assert (holds_at None silent (n_repository n) any_dirs n') as (Hf' & _)
          by (eapply silent_stable; [|exact He]; by apply holds_none). intros i. by rewrite Hf'.
      - pose proof (request_unprepared n req n' out Hf Hq Hr) as Hn. intros i.
        destruct req; try (by destruct Hn as (-> & _)).
        destruct Hn as [(-> & _)|(-> & _)%has_source_any]; [done|]. by intros <-%assigned_inj. }
    intros i sid Hi Hl. by rewrite (Hnone _ Hi) in Hl.
  - assert (snapshotting i (belongs i) (n_repository n) any_dirs n' ∧
      ∀ sid, fresh_snapshot i sid n → n_file n' = assigned i → fresh_snapshot i sid n') as [Hn Hkeep].
    { split.
      - destruct He as [n n' He|n req n' out Hk Hr].
        + left. eapply assigned_stable; [done| |exact He]. by apply holds_assigned.
        + pose proof (request_prepared i n req n' out Hp Hf Hb Hr) as Hn. by destruct req.
      - intros sid [c Hc]%fresh_holds Hf'; [|done].
        destruct (kept_snapshotting _ _ _ _ _ Hp Hc He) as [Hs|[sid' (_ & Hs & Hk & Hd)%snapshotted_holds]];
          [by eapply holds_fresh|]. eapply (holds_fresh (assigned i)). by split_and!. }
    intros i' sid Hi Hl. destruct Hn as [(Hf' & _)|[sid' [Hf' Hfr]%snapshotted_fresh]];
      rewrite Hf' in Hi; apply assigned_inj in Hi as <-.
    + destruct (Ho i sid Hf Hl) as [?|Hfr]; [by left|right]. by apply Hkeep.
    + injection Hl as <-. by right.
Qed.

Lemma old_or_fresh_history old n n' :
  node_ok n → old_or_fresh old n → rtc (node_event keeps_data) n n' → node_ok n' ∧ old_or_fresh old n'.
Proof.
  intros Hok Ho Hh. induction Hh as [|n1 n2 n3 He _ IH]; [done|]. apply IH; [by eapply event_ok|].
  by eapply old_or_fresh_event.
Qed.

(** An inspection reports what the file names, and leaves it there. *)
Lemma inspect_run n identity n' a sid :
  node_ok n → node_run n (executor_inspect lossy identity) n' (Some (Ok a)) →
  last_snapshot_id a = Some sid → names_snapshot n' sid.
Proof.
  intros Hok Hrun Hl. destruct (node_ok_cases n Hok) as [[Hf Hq]|(i & Hf & Hp & Hb)].
  - assert (triple (holds_at None silent (n_repository n) any_dirs)
      (holds_at None silent (n_repository n) any_dirs) (executor_inspect lossy identity)
      (or_err (holds_at None silent (n_repository n) any_dirs) (λ a _, last_snapshot_id a = None))) as Ht.
    { pose proof (silent_closed any_dirs) as HC.
      eapply triple_load_known; [done|done|apply loaded_none|]. cbn [as_instance validate_assigned AgentState_default].
      apply triple_check; [done|]. intros _ _.
      eapply triple_try; [by apply triple_container_running|]. intros running.
      apply triple_ret; [intros m Hm; by apply holds_at_left in Hm|done]. }
    eapply triple_run in Hrun as [_ Hout]; [|exact Ht|apply silent_stable|by apply holds_none].
    specialize (Hout _ eq_refl). cbn in Hout. congruence.
  - pose proof (belongs_closed i any_dirs any_dirs_write_closed) as HC.
    eapply triple_run in Hrun as [_ Hout];
      [|by apply (triple_inspect lossy i (belongs i) (n_repository n) any_dirs)
       |by apply assigned_stable|by apply holds_assigned].
    destruct (Hout _ eq_refl) as [(Hf' & _) Ha]. exists i. split; [done|congruence].
Qed.

(** A snapshot that an inspection reports and that the file did not name before: of the
    data as it is, until the process is started or cleaned up. *)
Lemma inspected_is_final n n1 identity n2 a sid n3 :
  node_reachable n → rtc (node_event keeps_data) n n1 →
  node_run n1 (executor_inspect lossy identity) n2 (Some (Ok a)) → last_snapshot_id a = Some sid →
  ¬ names_snapshot n sid → rtc (node_event keeps_data) n2 n3 →
  ∃ i, n_file n2 = assigned i ∧ fresh_snapshot i sid n3.
Proof.
  intros Hr Hh Hrun Hl Hnew Hh'. pose proof (node_reachable_ok n Hr) as Hok.
  destruct (old_or_fresh_history (names_snapshot n) n n1) as [Hok1 Ho1]; [done| |done|].
  { intros i sid' Hf Hs. left. by exists i. }
  pose proof (inspect_run _ _ _ _ _ Hok1 Hrun Hl) as (i & Hf & Hs).
  assert (node_event keeps_data n1 n2) as He.
  { eapply (event_request _ n1 (NodeInspect identity)); [done|]. by eapply node_run_bind_ret. }
  destruct (old_or_fresh_event _ _ _ Hok1 Ho1 He i sid Hf Hs) as [?|Hfr]; [done|].
  exists i. split; [done|]. destruct (fresh_holds _ _ _ Hf Hfr) as [c Hc].
  assert (is_data_prepared i = true) as Hp.
  { destruct (node_ok_cases n2 (event_ok _ _ _ Hok1 He)) as [[Hn _]|(i' & Hi' & Hp & _)];
      [by rewrite Hn in Hf|]. rewrite Hi' in Hf. by apply assigned_inj in Hf as <-. }
  destruct (kept_history _ _ _ _ _ Hp Hc Hh') as (i3 & _ & Hn3). by eapply holds_fresh.
Qed.

(** ** The guarantees *)

(** C7. On every node that requests of any kind, interrupted anywhere, can lead
    to, the state file is absent or says that an instance's data is prepared, and
    no container runs but the one of that instance. *)
Theorem node_invariant n : node_reachable n → node_ok n.
Proof. apply node_reachable_ok. Qed.

(** C8. A request with another instance or fencing token than the node's is
    refused, or fails to read the state file, and nothing but what containers and
    other nodes do by themselves happens on the node. *)
Theorem stale_requests_are_refused n s i req n' out :
  n_file n = Some (Ok s) → as_schema_version s = AGENT_STATE_SCHEMA_VERSION → as_instance s = Some i →
  is_stale i (request_identity req) → node_run n (execute lossy config req) n' out →
  rtc node_env n n' ∧
  ∀ r, out = Some r → r = Err EXE.StaleInstance ∨ ∃ io, r = Err (EXE.Io io).
Proof.
  intros Hf Hv Hi Hs Hr. eapply triple_run in Hr as [Hn Hout]; [|by eapply triple_stale_request| |done].
  - split; [done|]. intros r Hr. by apply Hout in Hr as [_ ?].
  - intros n1 n2 Hn1 He. by eapply rtc_r.
Qed.

(** C9. However a restore on a node without a state file ends, also when it fails or
    is interrupted at any point, nothing runs on the node, and either there is
    still no state file, and the restore did not succeed; or the file says that
    the data of this instance is prepared, and the data directory is exactly the
    content of the source snapshot (empty without one). *)
Theorem restore_is_crash_safe n params n' out :
  node_reachable n → n_file n = None →
  node_run n (executor_restore_data lossy config params) n' out →
  (n_file n' = None ∧ quiet n' ∧ ∀ changed, out ≠ Some (Ok changed)) ∨
  (n_file n' = assigned (restored_instance params) ∧ quiet n' ∧ out ≠ Some (Ok false) ∧
   ∃ c, n_data n' = Some c ∧
     match restore_source_snapshot_id params with
     | Some snapshot => n_repository n' !! (restore_repository params, snapshot) = Some c
     | None => c = ∅
     end).
Proof.
  intros Hr Hf Hrun. destruct (node_ok_cases n (node_reachable_ok n Hr)) as [[_ Hq]|(i & Hf' & _)];
    [|by rewrite Hf in Hf'].
  eapply triple_run in Hrun as [Hn Hout]; [|apply triple_restore_data|apply restoring_stable|
    by eapply holds_at_forget, holds_none].
  assert (has_source params (assigned (restored_instance params)) n' →
    n_file n' = assigned (restored_instance params) ∧ quiet n' ∧
    ∃ c, n_data n' = Some c ∧ match restore_source_snapshot_id params with
      | Some snapshot => n_repository n' !! (restore_repository params, snapshot) = Some c
      | None => c = ∅ end) as Hsrc.
  { unfold has_source. destruct (restore_source_snapshot_id params) as [snapshot|].
    - intros [c (? & ? & Hk & Hd)]. split_and!; [done..|]. exists c. split; [done|].
      by apply map_singleton_subseteq_l.
    - intros (? & ? & _ & ?). split_and!; [done..|]. by exists ∅. }
  destruct Hn as [(Hf' & Hq' & _)|Hn].
  - left. split_and!; [done..|]. intros changed ->. destruct (Hout _ eq_refl) as [_ Hs].
    apply Hsrc in Hs as [Hs _]. by rewrite Hf' in Hs.
  - right. apply Hsrc in Hn as (? & ? & ?). split_and!; [done..| |done].
    intros ->. by destruct (Hout _ eq_refl).
Qed.

(** When a snapshot is reported, the repository has under its id exactly the data
    of the node, nothing runs, and this stays so through every further sequence of
    requests, interrupted or not, that neither starts the process nor cleans up. *)
Lemma snapshot_is_final n params n1 sid n2 :
  node_reachable n → node_run n (executor_snapshot_data lossy config params) n1 (Some (Ok sid)) →
  rtc (node_event keeps_data) n1 n2 →
  quiet n2 ∧ ∃ c, n_data n2 = Some c ∧ n_repository n2 !! (snapshot_repository params, sid) = Some c.
Proof.
  intros Hr Hrun Hh. destruct (snapshot_run _ _ _ _ Hr Hrun) as (i & c & Hp & _ & Hn).
  destruct (kept_history (set_last_snapshot_id sid i) _ _ _ _ Hp Hn Hh) as (i' & _ & _ & Hs & Hk & Hd).
  split; [done|]. exists c. split; [done|]. by apply map_singleton_subseteq_l.
Qed.

(** C38. Once prepared, an assignment keeps its instance, fencing token, server,
    repository and source through every request but a cleanup; and data of a node
    with nothing running is the same after every sequence of requests that
    neither starts the process nor cleans up. *)
Theorem prepared_data_is_kept n i n' :
  node_reachable n → n_file n = assigned i →
  (rtc (node_event not_cleanup) n n' → ∃ i', same_assignment i i' ∧ n_file n' = assigned i') ∧
  (quiet n → rtc (node_event keeps_data) n n' → n_data n' = n_data n ∧ quiet n').
Proof.
  intros Hr Hf. destruct (node_ok_cases n (node_reachable_ok n Hr)) as [[Hf' _]|(i' & Hf' & Hp & Hb)];
    rewrite Hf in Hf'; [done|]. injection Hf' as <-. split.
  - by apply assignment_history.
  - intros Hq Hh.
    assert (holds_at (assigned i) silent ∅ (λ d, d = dirs n) n) as Hn.
    { split_and!; [done..|apply map_empty_subseteq|done]. }
    eapply kept_history in Hh as (i' & _ & _ & Hs & _ & Hd); [|exact Hp|exact Hn].
    by injection Hd.
Qed.

(** C13. Data that one node saved is what another node restores: the snapshot's
    content reaches the data directory of any node that restores it. *)
Theorem snapshot_restore_round_trip n params n1 sid m params' m1 changed :
  node_reachable n → node_run n (executor_snapshot_data lossy config params) n1 (Some (Ok sid)) →
  node_reachable m → n_file m = None → n_repository n1 ⊆ n_repository m →
  restore_repository params' = snapshot_repository params →
  restore_source_snapshot_id params' = Some sid →
  node_run m (executor_restore_data lossy config params') m1 (Some (Ok changed)) →
  n_data m1 = n_data n1.
Proof.
  intros Hr Hrun Hm Hf Hsub Hrep Hsrc Hrun'.
  destruct (snapshot_run _ _ _ _ Hr Hrun) as (i & c & _ & _ & _ & _ & Hk & Hd).
  destruct (node_ok_cases m (node_reachable_ok m Hm)) as [[_ Hq]|(i' & Hf' & _)]; [|by rewrite Hf in Hf'].
  pose proof (run_repository _ _ _ _ Hrun') as Hgrow.
  eapply triple_run in Hrun' as [_ Hout]; [|apply triple_restore_data|apply restoring_stable|
    by eapply holds_at_forget, holds_none].
  destruct (Hout _ eq_refl) as [_ Hs]. unfold has_source in Hs. rewrite Hsrc, Hrep in Hs.
  destruct Hs as [c' (_ & _ & Hk' & Hd')]. cbn in Hd, Hd'. rewrite Hd, Hd'.
  apply map_singleton_subseteq_l in Hk, Hk'.
  assert (n_repository m1 !! (snapshot_repository params, sid) = Some c) as Hc
    by (do 2 (eapply lookup_weaken; [|done]); done).
  by rewrite Hc in Hk'.
Qed.

(** Whatever interrupted attempts have left in the directories, a restore of a
    snapshot that exists can run to its end, and then reports the data prepared. *)
Theorem restore_recovers n params c `{!JsonTextLaws} :
  n_file n = None →
  match restore_source_snapshot_id params with
  | Some snapshot => n_repository n !! (restore_repository params, snapshot) = Some c
  | None => c = ∅
  end →
  utf8_valid (path_of config StagingDirectory) = true →
  ∃ n', node_run n (executor_restore_data lossy config params) n' (Some (Ok true)) ∧
    n_data n' = Some c ∧ n_file n' = assigned (restored_instance params).
Proof.
  intros Hf Hsrc Hu. pose proof (eval_restore_data lossy config n params c Hf Hsrc Hu) as He.
  pose proof (eval_run (executor_restore_data lossy config params) n) as Hrun.
  destruct (eval (executor_restore_data lossy config params) n) as [r n'].
  destruct He as (-> & Hd & Hf' & _). by exists n'.
Qed.
End node_properties.

(** ** The guarantees at work *)

Section example.
#[local] Existing Instances bits_codec bits_json_text bits_json_text_laws.

Lemma eval_event lossy config (allowed : NodeRequest → Prop) req n :
  allowed req → node_event lossy config allowed n (eval (execute lossy config req) n).2.
Proof. intros Hreq. eapply event_request; [done|apply eval_run]. Qed.

Lemma eval_run_to {A} (p : node_prog A) n r :
  (eval p n).1 = r → node_run n p (eval p n).2 (Some r).
Proof. intros <-. apply eval_run. Qed.

Definition example_lossy : bytes → string := String.string_of_list_ascii.
Definition node_example_config : NodeConfig := {|
  nc_control_plane_address := "127.0.0.1:39001"; nc_tls := None; nc_compute_instance_id := 9%N;
  nc_connection_token := "token"; nc_state_directory := "/var/lib/agent"; nc_local_scope := "default";
  nc_podman_binary := "podman"; nc_restic_binary := "restic"; nc_openssl_binary := "openssl";
  nc_data_access_mode := DAM.Host; nc_max_frame_bytes := 1048576;
  nc_command_timeout := from_secs 900; nc_restic_retry_lock := from_secs 300;
  nc_reconnect_min := from_secs 1; nc_reconnect_max := from_secs 30 |}.

Definition example_instance : InstanceIdentity := {| server_instance_id := 7%N; fencing_token := 3 |}.
Definition example_process : ProcessSpec := {|
  container_image := "itzg/minecraft-server"; server_type := "VANILLA"; version := "1.21";
  host_port := 25565; stop_timeout_seconds := 60; accept_eula := true; environment := [] |}.
Definition example_restore (source : option string) : RestoreDataParams := {|
  restore_instance := example_instance; restore_server_id := 5%N; restore_repository := "repo";
  restore_source_snapshot_id := source |}.
Definition example_snapshot : SnapshotDataParams := {|
  snapshot_instance := example_instance; snapshot_server_id := 5%N; snapshot_repository := "repo" |}.

(** Evaluates a decidable fact. *)
Ltac evaluate := refine (bool_decide_eq_true_1 _ _); by vm_compute.

Definition saved_world : content := {["level.dat" := "v1"]}.
Definition step_of (req : NodeRequest) (n : node) : node :=
  (eval (execute example_lossy node_example_config req) n).2.

(** A new node, the node with its data restored, and with the process running. *)
Definition node_new : node := new_node {[("repo", "s0") := saved_world]}.
Definition node_restored : node := step_of (NodeRestoreData (example_restore (Some "s0"))) node_new.
Definition node_running : node :=
  step_of (NodeStartServer {| start_instance := example_instance; start_process := example_process |})
    node_restored.

Lemma node_new_reachable : node_reachable example_lossy node_example_config node_new.
Proof. eexists. apply rtc_refl. Qed.
Lemma node_restored_reachable : node_reachable example_lossy node_example_config node_restored.
Proof. eexists. apply rtc_once. by apply eval_event. Qed.
Lemma node_running_reachable : node_reachable example_lossy node_example_config node_running.
Proof. eexists. eapply rtc_l; [by apply eval_event|]. apply rtc_once. by apply eval_event. Qed.

Lemma example_snapshot_run :
  node_run node_restored (executor_snapshot_data example_lossy node_example_config example_snapshot)
    (eval (executor_snapshot_data example_lossy node_example_config example_snapshot) node_restored).2
    (Some (Ok "snapshot-1")).
Proof.
  apply eval_run_to. by vm_compute.
Qed.

Lemma node_invariant_witness :
  n_containers node_running !! container_name 7 = Some true ∧ node_ok node_running.
Proof.
  split; [by vm_compute|].
  apply (node_invariant example_lossy node_example_config), node_running_reachable.
Defined.

Lemma stale_requests_are_refused_witness :
  let req := NodeCleanupInstance {| cleanup_instance :=
    {| server_instance_id := 7%N; fencing_token := 2 |} |} in
  rtc node_env node_running (step_of req node_running) ∧
  (eval (execute example_lossy node_example_config req) node_running).1 = Err EXE.StaleInstance.
Proof.
  intros req. split; [|by vm_compute].
  apply (stale_requests_are_refused example_lossy node_example_config node_running
    {| as_schema_version := 1;
       as_instance := Some (restored_instance (example_restore (Some "s0"))) |}
    (restored_instance (example_restore (Some "s0"))) req (step_of req node_running)
    (Some (eval (execute example_lossy node_example_config req) node_running).1)).
  - by vm_compute.
  - done.
  - done.
  - by right.
  - apply eval_run.
Defined.

(** A restore of a snapshot on a new node. *)
Lemma restore_is_crash_safe_witness :
  ∃ n', n_file n' = assigned (restored_instance (example_restore (Some "s0"))) ∧
    n_data n' = Some saved_world ∧
    ∃ c, n_data n' = Some c ∧ n_repository n' !! ("repo", "s0") = Some c.
Proof.
  exists (eval (executor_restore_data example_lossy node_example_config (example_restore (Some "s0")))
    node_new).2.
  split; [by vm_compute|]. split; [evaluate|].
  destruct (restore_is_crash_safe example_lossy node_example_config node_new
    (example_restore (Some "s0"))
    (eval (executor_restore_data example_lossy node_example_config (example_restore (Some "s0")))
      node_new).2
    (Some (eval (executor_restore_data example_lossy node_example_config (example_restore (Some "s0")))
      node_new).1)) as [(Hf & _)|(_ & _ & _ & Hc)].
  - apply node_new_reachable.
  - done.
  - apply eval_run.
  - exfalso. revert Hf. by vm_compute.
  - exact Hc.
Defined.

Lemma prepared_data_is_kept_witness :
  let n' := step_of (NodeRestoreData (example_restore (Some "s0"))) node_restored in
  n_data n' = n_data node_restored ∧ n_data node_restored = Some saved_world.
Proof.
  intros n'. split; [|evaluate].
  destruct (prepared_data_is_kept example_lossy node_example_config node_restored
    (restored_instance (example_restore (Some "s0"))) n') as [_ Hkept].
  - apply node_restored_reachable.
  - by vm_compute.
  - apply Hkept; [|by apply rtc_once, eval_event]. intros name.
    assert (n_containers node_restored = ∅) as -> by (by vm_compute). by rewrite lookup_empty.
Defined.

(** The second node starts with the repositories as the first left them. *)
Definition node_saved : node :=
  (eval (executor_snapshot_data example_lossy node_example_config example_snapshot) node_restored).2.
Definition node_second : node := new_node (n_repository node_saved).

Lemma snapshot_restore_round_trip_witness :
  n_data (eval (executor_restore_data example_lossy node_example_config
    (example_restore (Some "snapshot-1"))) node_second).2 = n_data node_saved ∧
  n_data node_saved = Some saved_world.
Proof.
  split; [|evaluate].
  apply (snapshot_restore_round_trip example_lossy node_example_config node_restored example_snapshot
    node_saved "snapshot-1" node_second (example_restore (Some "snapshot-1")) _ true).
  - apply node_restored_reachable.
  - apply example_snapshot_run.
  - eexists. apply rtc_refl.
  - done.
  - done.
  - done.
  - done.
  - apply eval_run_to. by vm_compute.
Defined.

(** A swap was interrupted after the old data was moved away, with a staging
    directory left behind. *)
Definition node_interrupted : node :=
  set_previous (Some {["old" := "x"]}) (set_staging (Some (Some ∅)) node_new).

Lemma restore_recovers_witness :
  ∃ n', node_run node_interrupted
      (executor_restore_data example_lossy node_example_config (example_restore (Some "s0"))) n'
      (Some (Ok true)) ∧ n_data n' = Some saved_world.
Proof.
  destruct (restore_recovers example_lossy node_example_config node_interrupted
    (example_restore (Some "s0")) saved_world) as (n' & Hr & Hd & _); [done|evaluate|by vm_compute|].
  by exists n'.
Defined.
End example.
