(* ===== verification/NodeTransport.v ===== *)
(** The node agent's connection to the control plane
    (crates/mcserver-node-agent/src/transport.rs): enrollment and its credential
    files, registration, the loop that serves requests, and reconnecting. *)
From S2P Require Import Prelude Text Net Programs JsonRpc Framing Server Instances Database.
From S2P Require Import Repositories Effects NodeConfig NodeAgent.
#[local] Open Scope string_scope.
#[local] Open Scope Z_scope.
#[local] Open Scope prog_scope.

(** ** Messages (mcserver-protocol/src/node_agent.rs) *)

Definition PROTOCOL_VERSION : Z := 3.
Definition AGENT_ENROLL : string := "agent.enroll".
Definition AGENT_REGISTER : string := "agent.register".
Definition AGENT_INSPECT : string := "agent.inspect".
Definition DATA_RESTORE : string := "data.restore".
Definition SERVER_START : string := "server.start".
Definition SERVER_STOP : string := "server.stop".
Definition DATA_SNAPSHOT : string := "data.snapshot".
Definition INSTANCE_CLEANUP : string := "instance.cleanup".
Definition NODE_SHUTDOWN : string := "node.shutdown".

Record EnrollParams := {
  enroll_protocol_version : Z;
  enroll_compute_instance_id : Uuid;
  enroll_enrollment_token : string;
  enroll_certificate_signing_request_pem : string;
}.
Record EnrollResult := {
  enrolled_client_certificate_chain_pem : string;
  enrolled_connection_token : string;
}.
Record RegisterParams := {
  register_protocol_version : Z;
  register_compute_instance_id : Uuid;
  register_connection_token : string;
}.
Record RegisterResult := {
  register_accepted : bool;
  register_runtime_environment : list (string * string);
}.
Record AgentInspectParams := { inspect_instance : InstanceIdentity }.
Record ChangedResult := { changed : bool }.
Record SnapshotDataResult := { snapshot_data_id : string }.
Record ShutdownResult := { shutdown_accepted : bool }.

Record WireError := { we_code : Z; we_message : string }.
Record WireResponse := {
  wr_jsonrpc : string;
  wr_result : option json;
  wr_error : option WireError;
  wr_id : json;
}.

(** ** Errors *)

Module TE.
(** [TransportError]. *)
Inductive TransportError :=
| Io (source : io_error)
| Serialization (source : string)
| CredentialIo (path : string) (source : io_error)
| InvalidConnectionToken
| InvalidCertificateSigningRequest
| Disconnected
| FrameTooLarge (actual maximum : Z)
| Protocol (message : string)
| RegistrationRejected
| Remote (code : Z) (message : string)
| TlsConfiguration (message : string)
| InvalidRuntimeEnvironment
| OpenSslTimeout (description : string)
| OpenSslFailed (description : string) (status : option Z) (stderr : string).
End TE.
Abbreviation TransportError := TE.TransportError.

Module DPE.
(** [DispatchError]. *)
Inductive DispatchError :=
| MethodNotFound
| InvalidParams (detail : string)
| Execution (source : ExecutorError)
| Serialization (source : string).
End DPE.
Abbreviation DispatchError := DPE.DispatchError.

Module SOC.
(** [SessionOutcome]. *)
Inductive SessionOutcome := Disconnected | Shutdown.
End SOC.
Abbreviation SessionOutcome := SOC.SessionOutcome.

(** ** Credentials *)

Definition CONNECTION_TOKEN_FILE_NAME : string := "connection-token".
Definition CLIENT_PRIVATE_KEY_FILE_NAME : string := "client-private-key.pem".
Definition CLIENT_CSR_FILE_NAME : string := "client-request.pem".
Definition CLIENT_CERTIFICATE_FILE_NAME : string := "client-certificate-chain.pem".
Definition MAX_CONNECTION_TOKEN_CHARS : Z := 256.
Definition MAX_RUNTIME_ENVIRONMENT_ENTRIES : Z := 64.
Definition MAX_RUNTIME_ENVIRONMENT_VALUE_CHARS : Z := 16 * 1024.
Definition REQUIRED_REMOTE_RUNTIME_ENVIRONMENT_KEYS : list string :=
  ["AWS_ACCESS_KEY_ID"; "AWS_SECRET_ACCESS_KEY"; "AWS_SESSION_TOKEN"; "AWS_DEFAULT_REGION"].

Definition validate_connection_token (token : string) : result TransportError unit :=
  err_if (str_is_blank token || str_contains_nul token
          || (MAX_CONNECTION_TOKEN_CHARS <? str_char_count token)) TE.InvalidConnectionToken.

(** The entries of the [BTreeMap], in the order of their keys. *)
Definition validate_runtime_environment (values : list (string * string))
    (require_remote_storage_credentials : bool) : result TransportError unit :=
  _ ← err_if (MAX_RUNTIME_ENVIRONMENT_ENTRIES <? Z.of_nat (length values)) TE.InvalidRuntimeEnvironment;
  _ ← for_each (λ '(key, value),
        err_if (negb (existsb (String.eqb key) ["AWS_ACCESS_KEY_ID"; "AWS_SECRET_ACCESS_KEY";
                                                 "AWS_SESSION_TOKEN"; "AWS_DEFAULT_REGION"])
                || str_contains_nul value
                || (MAX_RUNTIME_ENVIRONMENT_VALUE_CHARS <? str_char_count value))
          TE.InvalidRuntimeEnvironment) values;
  err_if (require_remote_storage_credentials
          && existsb (λ key, from_option str_is_blank true
               (snd <$> List.find (λ '(k, _), String.eqb key k) values))
               REQUIRED_REMOTE_RUNTIME_ENVIRONMENT_KEYS)
    TE.InvalidRuntimeEnvironment.

(** The credential files, by the name they have in the state directory. *)
Inductive credential := ConnectionTokenFile | PrivateKeyFile | CsrFile | CertificateFile.

Definition credential_name (c : credential) : string :=
  match c with
  | ConnectionTokenFile => CONNECTION_TOKEN_FILE_NAME
  | PrivateKeyFile => CLIENT_PRIVATE_KEY_FILE_NAME
  | CsrFile => CLIENT_CSR_FILE_NAME
  | CertificateFile => CLIENT_CERTIFICATE_FILE_NAME
  end.
(** The temporary name a file has before it is complete. *)
Definition temporary_name (c : credential) : string :=
  match c with
  | ConnectionTokenFile => "connection-token.tmp"
  | PrivateKeyFile => "client-private-key.tmp"
  | CsrFile => "client-request.tmp"
  | CertificateFile => "client-certificate-chain.tmp"
  end.

(** ** Operations *)

(** Calls of [tokio::fs] on the state directory and on temporary files. *)
Inductive file_call :=
| CreateStateDirectory
| RestrictStateDirectory
| WriteTemporary (c : credential) (value : string)
| RestrictTemporary (c : credential)
| OpenTemporary (c : credential)
| SyncTemporary (c : credential)
| RenameTemporary (c : credential)
| OpenStateDirectory
| SyncStateDirectoryFile.

Inductive openssl_command :=
| GenerateKey
| GenerateCsr (subject : string).

Inductive transport_op : Type → Type :=
| Execute {X} (o : node_op X) : transport_op X
(* whether the cancellation comes first *)
| Cancelled : transport_op bool
| Sleep (duration : Z) : transport_op unit
| Connect (use_client_identity : bool) : transport_op (result TransportError unit)
| ReadValue : transport_op (result TransportError json)
| WriteValue (value : json) : transport_op (result TransportError unit)
| SetRuntimeEnvironment (values : list (string * string)) : transport_op unit
| FileCall (c : file_call) : transport_op (result io_error unit)
| IsFile (c : credential) : transport_op (result io_error bool)
| ReadCredential (c : credential) : transport_op (result io_error string)
(* [None] when it timed out *)
| RunOpenssl (c : openssl_command) : transport_op (option (result io_error Output)).

Abbreviation transport_prog := (gprog transport_op).

Definition execute_op (X : Type) (o : node_op X) : transport_op X := Execute o.

(** What [ReadValue] and [WriteValue] do on the connection's stream: the frame
    reader with this file's errors. *)
Definition transport_read_frame : list fill → Z → result TransportError Z * bytes * list fill :=
  read_frame TE.Io TE.FrameTooLarge.
Definition transport_read_value `{JsonText} : list fill → Z → result TransportError json * list fill :=
  read_value TE.Io TE.FrameTooLarge TE.Serialization TE.Disconnected.
Definition transport_write_value `{JsonText} : json → result TransportError bytes :=
  write_value TE.Serialization.

Section transport.
Context `{Codec} `{JsonText}.
Context `{Deserialize Request} `{Deserialize WireResponse} `{Serialize Response}.
Context `{Serialize EnrollParams} `{Deserialize EnrollResult}.
Context `{Serialize RegisterParams} `{Deserialize RegisterResult}.
Context `{Deserialize AgentInspectParams} `{Deserialize RestoreDataParams}.
Context `{Deserialize StartServerParams} `{Deserialize StopServerParams}.
Context `{Deserialize SnapshotDataParams} `{Deserialize CleanupInstanceParams}.
Context `{Serialize AgentInspectResult} `{Serialize ChangedResult} `{Serialize SnapshotDataResult}.
Context `{Serialize ShutdownResult}.

(** [String::from_utf8_lossy] and [ExecutorError]'s [to_string]. *)
Variable from_utf8_lossy : bytes → string.
Variable describe : ExecutorError → string.
Variable config : NodeConfig.

Definition credential_path (c : credential) : string :=
  path_join (nc_state_directory config) (credential_name c).
Definition temporary_path (c : credential) : string :=
  path_join (nc_state_directory config) (temporary_name c).

(** Program and arguments of an openssl command. *)
Definition openssl_line (c : openssl_command) : list string :=
  nc_openssl_binary config ::
  match c with
  | GenerateKey =>
      ["genpkey"; "-algorithm"; "EC"; "-pkeyopt"; "ec_paramgen_curve:P-256";
       "-out"; temporary_path PrivateKeyFile]
  | GenerateCsr subject =>
      ["req"; "-new"; "-key"; credential_path PrivateKeyFile; "-subj"; subject;
       "-out"; temporary_path CsrFile]
  end.

(** ** Serving requests *)

Definition into_error_object (e : DispatchError) : ErrorObject :=
  match e with
  | DPE.MethodNotFound => ErrorObject_new METHOD_NOT_FOUND "Method not found"
  | DPE.InvalidParams d => with_data (ErrorObject_new INVALID_PARAMS "Invalid params") (detail d)
  | DPE.Execution error =>
      with_data (ErrorObject_new INTERNAL_ERROR "Execution failed") (detail (describe error))
  | DPE.Serialization error =>
      with_data (ErrorObject_new INTERNAL_ERROR "Serialization failed") (detail error)
  end.

Definition parse_params {A} `{Deserialize A} (value : json) : result DispatchError A :=
  map_err DPE.InvalidParams (from_value value).

(** [to_value(executor.method(params).await?)]. *)
Definition respond_with {A B} `{Serialize B} (f : A → B) (p : node_prog (result ExecutorError A)) :
    node_prog (result DispatchError json) :=
  let? a := p via DPE.Execution in
  Ret (map_err DPE.Serialization (to_value (f a))).

Definition dispatch_method (method_name : string) (params : json) :
    node_prog (result DispatchError json) :=
  if String.eqb method_name AGENT_INSPECT then
    let? params := Ret (parse_params (A := AgentInspectParams) params) via id in
    respond_with id (executor_inspect from_utf8_lossy (inspect_instance params))
  else if String.eqb method_name DATA_RESTORE then
    let? params := Ret (parse_params (A := RestoreDataParams) params) via id in
    respond_with Build_ChangedResult (executor_restore_data from_utf8_lossy config params)
  else if String.eqb method_name SERVER_START then
    let? params := Ret (parse_params (A := StartServerParams) params) via id in
    respond_with Build_ChangedResult (executor_start_server from_utf8_lossy config params)
  else if String.eqb method_name SERVER_STOP then
    let? params := Ret (parse_params (A := StopServerParams) params) via id in
    respond_with Build_ChangedResult (executor_stop_server from_utf8_lossy params)
  else if String.eqb method_name DATA_SNAPSHOT then
    let? params := Ret (parse_params (A := SnapshotDataParams) params) via id in
    respond_with Build_SnapshotDataResult (executor_snapshot_data from_utf8_lossy config params)
  else if String.eqb method_name INSTANCE_CLEANUP then
    let? params := Ret (parse_params (A := CleanupInstanceParams) params) via id in
    respond_with Build_ChangedResult (executor_cleanup_instance from_utf8_lossy config params)
  else if String.eqb method_name NODE_SHUTDOWN then
    let? _ := Ret (require_no_params DPE.InvalidParams params) via id in
    Ret (map_err DPE.Serialization (to_value {| shutdown_accepted := true |}))
  else Ret (Err DPE.MethodNotFound).

(** [dispatch]. *)
Definition request_is_valid (request : Request) : bool :=
  String.eqb (req_jsonrpc request) VERSION && negb (str_is_empty (req_method request))
  && id_is_valid (req_id request) && params_are_structured (req_params request).

Definition dispatch (request : Request) (response_id : json) : node_prog (Response * bool) :=
  if negb (request_is_valid request) then
    Ret (Response_error response_id (ErrorObject_new INVALID_REQUEST "Invalid request"), false)
  else
    let shutdown_requested := String.eqb (req_method request) NODE_SHUTDOWN in
    let! answered := dispatch_method (req_method request) (req_params request) in
    Ret match answered with
        | Ok value => (Response_success response_id value, shutdown_requested)
        | Err error => (Response_error response_id (into_error_object error), false)
        end.

Definition read_as {A} `{Deserialize A} : transport_prog (result TransportError A) :=
  let? value := perform ReadValue via id in
  Ret (map_err TE.Serialization (from_value value)).
Definition read_request : transport_prog (result TransportError Request) := read_as.
Definition read_response : transport_prog (result TransportError WireResponse) := read_as.

Definition response_result {A} `{Deserialize A} (response : WireResponse) : result TransportError A :=
  if negb (String.eqb (wr_jsonrpc response) VERSION)
  then Err (TE.Protocol "control-plane response JSON-RPC version mismatch")
  else match wr_result response, wr_error response with
       | Some value, None => map_err TE.Serialization (from_value value)
       | None, Some error => Err (TE.Remote (we_code error) (we_message error))
       | _, _ => Err (TE.Protocol "response must contain exactly one of result or error")
       end.

(** One turn of the loop of [run_session]: [None] to go on. *)
Definition serve_request : transport_prog (option (result TransportError SessionOutcome)) :=
  let! cancelled := perform Cancelled in
  if (cancelled : bool) then Ret (Some (Ok SOC.Disconnected))
  else
    let! request := read_request in
    match request with
    | Err TE.Disconnected => Ret (Some (Ok SOC.Disconnected))
    | Err error => Ret (Some (Err error))
    | Ok request =>
        match response_id (req_id request) with
        | None => Ret None
        | Some id_ =>
            let! answered := prog_map execute_op (dispatch request id_) in
            match to_value (answered.1 : Response) with
            | Err error => Ret (Some (Err (TE.Serialization error)))
            | Ok value =>
                let! written := perform (WriteValue value) in
                match written with
                | Err error => Ret (Some (Err error))
                | Ok _ => Ret (if (answered.2 : bool) then Some (Ok SOC.Shutdown) else None)
                end
            end
        end
    end.

(** The loop; [None] when it did not end in [fuel] turns. *)
Fixpoint serve_requests (fuel : nat) : transport_prog (option (result TransportError SessionOutcome)) :=
  match fuel with
  | 0%nat => Ret None
  | S fuel =>
      let! ended := serve_request in
      match ended with Some outcome => Ret (Some outcome) | None => serve_requests fuel end
  end.

(** A request of the agent and its response. The [params] are structs, which [json!]
    always serializes: it panics where this has an error. *)
Definition ask {A B} `{Serialize A} `{Deserialize B} (method : string) (params : A) (mismatch : string) :
    transport_prog (result TransportError B) :=
  let request_id := JNumber (JInt 1) in
  let? params := Ret (to_value params) via TE.Serialization in
  let? _ := perform (WriteValue (request_object method params request_id)) via id in
  let? response := read_response via id in
  if negb (bool_decide (wr_id response = request_id)) then Ret (Err (TE.Protocol mismatch))
  else Ret (response_result response).

(** [run_session]. *)
Definition register (connection_token : string) : transport_prog (result TransportError unit) :=
  let? result := ask (B := RegisterResult) AGENT_REGISTER
    {| register_protocol_version := PROTOCOL_VERSION;
       register_compute_instance_id := nc_compute_instance_id config;
       register_connection_token := connection_token |}
    "registration response id mismatch" via id in
  if negb (register_accepted result) then Ret (Err TE.RegistrationRejected)
  else
    let? _ := Ret (validate_runtime_environment (register_runtime_environment result)
      (is_some (nc_tls config))) via id in
    let! _ := perform (SetRuntimeEnvironment (register_runtime_environment result)) in
    Ret (Ok tt).

Definition run_session (fuel : nat) (connection_token : string) :
    transport_prog (option (result TransportError SessionOutcome)) :=
  let! cancelled := perform Cancelled in
  if (cancelled : bool) then Ret (Some (Ok SOC.Disconnected))
  else
    let! registered :=
      (let? _ := perform (Connect (is_some (nc_tls config))) via id in
       register connection_token) in
    match registered with
    | Err error => Ret (Some (Err error))
    | Ok _ => serve_requests fuel
    end.

(** ** Credential files *)

Definition ensure_private_directory : transport_prog (result TransportError unit) :=
  let error := TE.CredentialIo (nc_state_directory config) in
  let? _ := perform (FileCall CreateStateDirectory) via error in
  let? _ := perform (FileCall RestrictStateDirectory) via error in
  Ret (Ok tt).

(** [finalize_private_file]: the file is complete and synced before it gets its
    name. *)
Definition finalize_private_file (c : credential) : transport_prog (result TransportError unit) :=
  let temporary := TE.CredentialIo (temporary_path c) in
  let directory := TE.CredentialIo (nc_state_directory config) in
  let? _ := perform (FileCall (RestrictTemporary c)) via temporary in
  let? _ := perform (FileCall (OpenTemporary c)) via temporary in
  let? _ := perform (FileCall (SyncTemporary c)) via temporary in
  let? _ := perform (FileCall (RenameTemporary c)) via TE.CredentialIo (credential_path c) in
  let? _ := perform (FileCall OpenStateDirectory) via directory in
  let? _ := perform (FileCall SyncStateDirectoryFile) via directory in
  Ret (Ok tt).

Definition persist_private_file (c : credential) (value : string) :
    transport_prog (result TransportError unit) :=
  let? _ := ensure_private_directory via id in
  let? _ := perform (FileCall (WriteTemporary c value)) via TE.CredentialIo (temporary_path c) in
  finalize_private_file c.

Definition persist_connection_token (token : string) : transport_prog (result TransportError unit) :=
  let? _ := Ret (validate_connection_token token) via id in
  persist_private_file ConnectionTokenFile token.

Definition persist_client_certificate (certificate : string) :
    transport_prog (result TransportError unit) :=
  if str_contains_nul certificate
     || negb (str_contains "-----BEGIN CERTIFICATE-----" certificate)
     || (64 * 1024 <? str_len certificate)
  then Ret (Err (TE.TlsConfiguration "issued client certificate chain is invalid"))
  else persist_private_file CertificateFile certificate.

Definition load_persisted_connection_token : transport_prog (result TransportError string) :=
  let? text := perform (ReadCredential ConnectionTokenFile)
    via TE.CredentialIo (credential_path ConnectionTokenFile) in
  let token := trim_end_matches (λ c, Ascii.eqb c CARRIAGE_RETURN || Ascii.eqb c NEWLINE) text in
  let? _ := Ret (validate_connection_token token) via id in
  Ret (Ok token).

Definition path_is_file (c : credential) : transport_prog (result TransportError bool) :=
  let! found := perform (IsFile c) in
  Ret match found with
      | Ok is_file => Ok is_file
      | Err IoNotFound => Ok false
      | Err source => Err (TE.CredentialIo (credential_path c) source)
      end.

(** [a.await? && b.await?]. *)
Definition and_then (a b : transport_prog (result TransportError bool)) :
    transport_prog (result TransportError bool) :=
  let? x := a via id in
  if (x : bool) then b else Ret (Ok false).
Definition stable_client_credentials_exist : transport_prog (result TransportError bool) :=
  and_then (and_then (path_is_file ConnectionTokenFile) (path_is_file PrivateKeyFile))
    (path_is_file CertificateFile).

Definition run_openssl (c : openssl_command) (description : string) :
    transport_prog (result TransportError Output) :=
  let! finished := perform (RunOpenssl c) in
  Ret match finished with
      | None => Err (TE.OpenSslTimeout description)
      | Some (Err error) => Err (TE.Io error)
      | Some (Ok output) =>
          if succeeded output then Ok output
          else Err (TE.OpenSslFailed description (out_status output)
            (bounded_diagnostic from_utf8_lossy (out_stderr output)))
      end.

(** A file made by openssl unless it exists. *)
Definition make_unless_present (c : credential) (command : openssl_command) (description : string) :
    transport_prog (result TransportError unit) :=
  let? present := path_is_file c via id in
  if (present : bool) then Ret (Ok tt)
  else
    let? _ := run_openssl command description via id in
    finalize_private_file c.

Definition load_or_create_csr : transport_prog (result TransportError string) :=
  let? _ := ensure_private_directory via id in
  let? _ := make_unless_present PrivateKeyFile GenerateKey
    "generate agent client private key" via id in
  let? _ := make_unless_present CsrFile
    (GenerateCsr ("/CN=" ++ uuid_to_string (nc_compute_instance_id config)))
    "generate agent certificate signing request" via id in
  let? csr := perform (ReadCredential CsrFile) via TE.Io in
  if (32 * 1024 <? str_len csr)
     || negb (str_contains "-----BEGIN CERTIFICATE REQUEST-----" csr)
     || negb (str_contains "-----END CERTIFICATE REQUEST-----" csr)
  then Ret (Err TE.InvalidCertificateSigningRequest)
  else Ret (Ok csr).

Definition enroll (enrollment_token : string) : transport_prog (result TransportError EnrollResult) :=
  let? _ := Ret (validate_connection_token enrollment_token) via id in
  let? csr := load_or_create_csr via id in
  let! cancelled := perform Cancelled in
  if (cancelled : bool) then Ret (Err TE.Disconnected)
  else
    let? _ := perform (Connect false) via id in
    ask AGENT_ENROLL
      {| enroll_protocol_version := PROTOCOL_VERSION;
         enroll_compute_instance_id := nc_compute_instance_id config;
         enroll_enrollment_token := enrollment_token;
         enroll_certificate_signing_request_pem := csr |}
      "enrollment response id mismatch".

(** ** [run] *)

(** The token for the sessions: enrolled first when TLS has no credentials yet. *)
Definition obtain_connection_token : transport_prog (result TransportError string) :=
  let? stable := (if is_some (nc_tls config) then stable_client_credentials_exist
                  else Ret (Ok false)) via id in
  let? connection_token :=
    (if (stable : bool) then load_persisted_connection_token
     else
       let? _ := Ret (validate_connection_token (nc_connection_token config)) via id in
       Ret (Ok (nc_connection_token config))) via id in
  if is_some (nc_tls config) && negb stable then
    let? result := enroll connection_token via id in
    let? _ := Ret (validate_connection_token (enrolled_connection_token result)) via id in
    let? _ := persist_client_certificate (enrolled_client_certificate_chain_pem result) via id in
    let? _ := persist_connection_token (enrolled_connection_token result) via id in
    Ret (Ok (enrolled_connection_token result))
  else Ret (Ok connection_token).

Definition next_backoff (backoff : Z) : Z :=
  Z.min (from_option id (nc_reconnect_max config) (duration_checked_mul backoff 2))
    (nc_reconnect_max config).

(** The loop of [run]; [None] when it or a session did not end in [fuel] turns. *)
Fixpoint reconnect (fuel : nat) (connection_token : string) (backoff : Z) :
    transport_prog (option (result TransportError unit)) :=
  match fuel with
  | 0%nat => Ret None
  | S fuel' =>
      let! cancelled := perform Cancelled in
      if (cancelled : bool) then Ret (Some (Ok tt))
      else
        let! outcome := run_session fuel connection_token in
        match outcome with
        | None => Ret None
        | Some (Ok SOC.Shutdown) => Ret (Some (Ok tt))
        | Some ended =>
            let backoff :=
              match ended with Ok SOC.Disconnected => nc_reconnect_min config | _ => backoff end in
            let! cancelled := perform Cancelled in
            if (cancelled : bool) then Ret (Some (Ok tt))
            else
              let! _ := perform (Sleep backoff) in
              reconnect fuel' connection_token (next_backoff backoff)
        end
  end.

Definition transport_run (fuel : nat) : transport_prog (option (result TransportError unit)) :=
  let! token := obtain_connection_token in
  match token with
  | Err error => Ret (Some (Err error))
  | Ok connection_token => reconnect fuel connection_token (nc_reconnect_min config)
  end.
End transport.
