(* ===== verification/Redaction.v ===== *)
(** What the logs show of values that hold secrets: the [Debug] implementations of
    crates/mcserver-control-plane/src/config.rs, domain/compute_instance.rs and
    infrastructure/r2_temporary_credentials.rs and of
    crates/mcserver-node-agent/src/config.rs. *)
From S2P Require Import Prelude Text Net Environment Config Server Instances NodeConfig.
#[local] Open Scope string_scope.
#[local] Open Scope Z_scope.

(** What a [Formatter] is given; its rendering as text is the library's. *)
Inductive debug :=
| DString (s : string)
| DInteger (n : Z)
| DDuration (d : Z)
| DBool (b : bool)
(* identifiers and timestamps are shown as what they wrap *)
| DUuid (id : Uuid)
| DAddress (a : SocketAddr)
| DName (variant : string)
| DNone
| DSome (d : debug)
| DSet (l : list debug)
| DStruct (name : string) (fields : list (string * debug)) (exhaustive : bool).

Definition DOption {A} (f : A → debug) (o : option A) : debug :=
  match o with Some a => DSome (f a) | None => DNone end.

(** ** Configurations *)

Definition AkamaiConfig_debug (c : AkamaiConfig) : debug := DStruct "AkamaiConfig"
  [("api_token", DString "[redacted]");
   ("api_base_url", DString (akamai_api_base_url c));
   ("authorized_keys_file", DString (authorized_keys_file c));
   ("scope", DString (scope c));
   ("request_timeout", DDuration (akamai_request_timeout c));
   ("reap_orphans_on_start", DBool (akamai_reap_orphans_on_start c));
   ("live_enabled", DBool (live_enabled c));
   ("allowed_regions", DSet (DString <$> allowed_regions c));
   ("allowed_images", DSet (DString <$> allowed_images c));
   ("allowed_instance_types", DSet (DString <$> allowed_instance_types c));
   ("allowed_firewall_ids", DSet (DInteger <$> allowed_firewall_ids c));
   ("max_active_instances", DInteger (max_active_instances c));
   ("max_instance_lifetime", DDuration (max_instance_lifetime c));
   ("loopback_api", DBool (loopback_api c))] true.

(** [format_args!("[{} redacted values]", ..)] prints the number of values. *)
Definition R2Config_debug (c : R2Config) : debug := DStruct "R2Config"
  [("api_token", DString "[redacted]");
   ("api_base_url", DString (r2_api_base_url c));
   ("account_id", DString (r2_account_id c));
   ("parent_access_key_id", DString (r2_parent_access_key_id c));
   ("bucket", DString (r2_bucket c));
   ("temporary_credential_ttl", DDuration (r2_temporary_credential_ttl c));
   ("runtime_environment_file", DString (r2_runtime_environment_file c));
   ("runtime_environment", DInteger (Z.of_nat (size (r2_runtime_environment c))));
   ("request_timeout", DDuration (r2_request_timeout c));
   ("loopback_api", DBool (r2_loopback_api c))] true.

(** [finish_non_exhaustive]. *)
Definition R2TemporaryCredentialManager_debug (config : R2Config) : debug :=
  DStruct "R2TemporaryCredentialManager" [("config", R2Config_debug config)] false.

(** Derived. *)
Definition RemoteAgentConfig_debug (c : RemoteAgentConfig) : debug := DStruct "RemoteAgentConfig"
  [("listen_address", DAddress (ra_listen_address c));
   ("public_address", DString (ra_public_address c));
   ("tls_server_name", DString (ra_tls_server_name c));
   ("tls_certificate", DString (ra_tls_certificate c));
   ("tls_private_key", DString (ra_tls_private_key c));
   ("tls_ca_certificate", DString (ra_tls_ca_certificate c));
   ("client_ca_certificate", DString (ra_client_ca_certificate c));
   ("client_ca_private_key", DString (ra_client_ca_private_key c));
   ("certificate_work_directory", DString (ra_certificate_work_directory c));
   ("certificate_validity", DDuration (ra_certificate_validity c));
   ("openssl_binary", DString (ra_openssl_binary c));
   ("trust_domain", DString (ra_trust_domain c));
   ("node_agent_download_url", DString (ra_node_agent_download_url c));
   ("node_agent_sha256", DString (ra_node_agent_sha256 c));
   ("max_frame_bytes", DInteger (ra_max_frame_bytes c));
   ("node_operation_timeout", DDuration (ra_node_operation_timeout c))] true.

Definition Config_debug (c : Config) : debug := DStruct "Config"
  [("socket_path", DString (cfg_socket_path c));
   ("database_url", DString (cfg_database_url c));
   ("socket_mode", DInteger (cfg_socket_mode c));
   ("max_frame_bytes", DInteger (cfg_max_frame_bytes c));
   ("reconcile_interval", DDuration (cfg_reconcile_interval c));
   ("reconcile_retry", DDuration (cfg_reconcile_retry c));
   ("shutdown_timeout", DDuration (cfg_shutdown_timeout c));
   ("agent_listen_address", DAddress (cfg_agent_listen_address c));
   ("agent_command_timeout", DDuration (cfg_agent_command_timeout c));
   ("node_agent_binary", DString (cfg_node_agent_binary c));
   ("node_agent_root", DString (cfg_node_agent_root c));
   ("podman_binary", DString (cfg_podman_binary c));
   ("local_scope", DString (cfg_local_scope c));
   ("reap_orphans_on_start", DBool (cfg_reap_orphans_on_start c));
   ("local_control_timeout", DDuration (cfg_local_control_timeout c));
   ("local_process_stop_timeout", DDuration (cfg_local_process_stop_timeout c));
   ("remote_agent", DOption RemoteAgentConfig_debug (cfg_remote_agent c));
   ("akamai", DOption AkamaiConfig_debug (cfg_akamai c));
   ("r2", DOption R2Config_debug (cfg_r2 c))] true.

(** Derived. *)
Definition TlsConfig_debug (c : TlsConfig) : debug := DStruct "TlsConfig"
  [("ca_certificate", DString (ca_certificate c)); ("server_name", DString (tls_server_name c))] true.
Definition DataAccessMode_debug (m : DataAccessMode) : debug :=
  DName match m with DAM.PodmanUserNamespace => "PodmanUserNamespace" | DAM.Host => "Host" end.

Definition NodeConfig_debug (c : NodeConfig) : debug := DStruct "Config"
  [("control_plane_address", DString (nc_control_plane_address c));
   ("tls", DOption TlsConfig_debug (nc_tls c));
   ("compute_instance_id", DUuid (nc_compute_instance_id c));
   ("connection_token", DString "[REDACTED]");
   ("state_directory", DString (nc_state_directory c));
   ("local_scope", DString (nc_local_scope c));
   ("podman_binary", DString (nc_podman_binary c));
   ("restic_binary", DString (nc_restic_binary c));
   ("openssl_binary", DString (nc_openssl_binary c));
   ("data_access_mode", DataAccessMode_debug (nc_data_access_mode c));
   ("max_frame_bytes", DInteger (nc_max_frame_bytes c));
   ("command_timeout", DDuration (nc_command_timeout c));
   ("restic_retry_lock", DDuration (nc_restic_retry_lock c));
   ("reconnect_min", DDuration (nc_reconnect_min c));
   ("reconnect_max", DDuration (nc_reconnect_max c))] true.

(** ** Compute instances *)

(** Derived: the name of the variant. *)
Definition ComputeProvider_debug (p : ComputeProvider) : debug :=
  DName match p with CP.LocalProcess => "LocalProcess" | CP.Akamai => "Akamai" end.
Definition ComputeTerminalResult_debug (r : ComputeTerminalResult) : debug :=
  DName match r with CTR.Deleted => "Deleted" | CTR.Failed => "Failed" end.

Definition ComputeInstance_debug (c : ComputeInstance) : debug := DStruct "ComputeInstance"
  [("id", DUuid (ci_id c));
   ("server_instance_id", DUuid (ci_server_instance_id c));
   ("provider", ComputeProvider_debug (ci_provider c));
   ("provider_instance_id", DOption DString (ci_provider_instance_id c));
   ("public_ipv4", DOption DString (ci_public_ipv4 c));
   ("connection_token", DString "[REDACTED]");
   ("enrollment_token", DOption (λ _, DString "[REDACTED]") (ci_enrollment_token c));
   ("process_id", DOption DInteger (ci_process_id c));
   ("agent_connected_at", DOption DInteger (ci_agent_connected_at c));
   ("shutdown_requested_at", DOption DInteger (ci_shutdown_requested_at c));
   ("terminated_at", DOption DInteger (ci_terminated_at c));
   ("terminal_result", DOption ComputeTerminalResult_debug (ci_terminal_result c));
   ("failure_message", DOption DString (ci_failure_message c));
   ("created_at", DInteger (ci_created_at c));
   ("updated_at", DInteger (ci_updated_at c))] true.

(** ** Everything but the secrets *)

Definition AkamaiConfig_public (c : AkamaiConfig) : AkamaiConfig := {|
  akamai_api_token := EmptyString; akamai_api_base_url := akamai_api_base_url c;
  authorized_keys_file := authorized_keys_file c; scope := scope c;
  akamai_request_timeout := akamai_request_timeout c;
  akamai_reap_orphans_on_start := akamai_reap_orphans_on_start c; live_enabled := live_enabled c;
  allowed_regions := allowed_regions c; allowed_images := allowed_images c;
  allowed_instance_types := allowed_instance_types c; allowed_firewall_ids := allowed_firewall_ids c;
  max_active_instances := max_active_instances c; max_instance_lifetime := max_instance_lifetime c;
  loopback_api := loopback_api c |}.

(** Of the runtime environment only the number of values. *)
Definition R2Config_public (c : R2Config) : R2Config * nat := ({|
  r2_api_token := EmptyString; r2_api_base_url := r2_api_base_url c; r2_account_id := r2_account_id c;
  r2_parent_access_key_id := r2_parent_access_key_id c; r2_bucket := r2_bucket c;
  r2_temporary_credential_ttl := r2_temporary_credential_ttl c;
  r2_runtime_environment_file := r2_runtime_environment_file c; r2_runtime_environment := ∅;
  r2_request_timeout := r2_request_timeout c; r2_loopback_api := r2_loopback_api c |},
  size (r2_runtime_environment c)).

Definition Config_public (c : Config) : Config * option AkamaiConfig * option (R2Config * nat) := ({|
  cfg_socket_path := cfg_socket_path c; cfg_database_url := cfg_database_url c;
  cfg_socket_mode := cfg_socket_mode c; cfg_max_frame_bytes := cfg_max_frame_bytes c;
  cfg_reconcile_interval := cfg_reconcile_interval c; cfg_reconcile_retry := cfg_reconcile_retry c;
  cfg_shutdown_timeout := cfg_shutdown_timeout c;
  cfg_agent_listen_address := cfg_agent_listen_address c;
  cfg_agent_command_timeout := cfg_agent_command_timeout c;
  cfg_node_agent_binary := cfg_node_agent_binary c; cfg_node_agent_root := cfg_node_agent_root c;
  cfg_podman_binary := cfg_podman_binary c; cfg_local_scope := cfg_local_scope c;
  cfg_reap_orphans_on_start := cfg_reap_orphans_on_start c;
  cfg_local_control_timeout := cfg_local_control_timeout c;
  cfg_local_process_stop_timeout := cfg_local_process_stop_timeout c;
  cfg_remote_agent := cfg_remote_agent c; cfg_akamai := None; cfg_r2 := None |},
  AkamaiConfig_public <$> cfg_akamai c, R2Config_public <$> cfg_r2 c).

Definition NodeConfig_public (c : NodeConfig) : NodeConfig := {|
  nc_control_plane_address := nc_control_plane_address c; nc_tls := nc_tls c;
  nc_compute_instance_id := nc_compute_instance_id c; nc_connection_token := EmptyString;
  nc_state_directory := nc_state_directory c; nc_local_scope := nc_local_scope c;
  nc_podman_binary := nc_podman_binary c; nc_restic_binary := nc_restic_binary c;
  nc_openssl_binary := nc_openssl_binary c; nc_data_access_mode := nc_data_access_mode c;
  nc_max_frame_bytes := nc_max_frame_bytes c; nc_command_timeout := nc_command_timeout c;
  nc_restic_retry_lock := nc_restic_retry_lock c; nc_reconnect_min := nc_reconnect_min c;
  nc_reconnect_max := nc_reconnect_max c |}.

(** Of the enrollment token only whether there is one. *)
Definition ComputeInstance_public (c : ComputeInstance) : ComputeInstance := {|
  ci_id := ci_id c; ci_server_instance_id := ci_server_instance_id c; ci_provider := ci_provider c;
  ci_provider_instance_id := ci_provider_instance_id c; ci_public_ipv4 := ci_public_ipv4 c;
  ci_connection_token := EmptyString; ci_enrollment_token := (λ _, EmptyString) <$> ci_enrollment_token c;
  ci_process_id := ci_process_id c; ci_agent_connected_at := ci_agent_connected_at c;
  ci_shutdown_requested_at := ci_shutdown_requested_at c; ci_terminated_at := ci_terminated_at c;
  ci_terminal_result := ci_terminal_result c; ci_failure_message := ci_failure_message c;
  ci_created_at := ci_created_at c; ci_updated_at := ci_updated_at c |}.

(** Two values show the same exactly when their public parts are the same. *)
Definition shows {A B} (f : A → debug) (public : A → B) : Prop :=
  ∀ a a', f a = f a' ↔ public a = public a'.

Lemma DOption_shows {A B} (f : A → debug) (public : A → B) (o o' : option A) :
  shows f public → DOption f o = DOption f o' ↔ public <$> o = public <$> o'.
Proof.
  intros Hf. destruct o as [a|], o' as [a'|]; cbn; try done.
  split; [intros [= H%Hf]; by rewrite H|]. intros [= H]. f_equal. by apply Hf.
Qed.
Lemma DOption_inj {A} (f : A → debug) (o o' : option A) : Inj (=) (=) f → DOption f o = DOption f o' → o = o'.
Proof. intros Hf. destruct o, o'; cbn; try done. by intros [= ->%(inj f)]. Qed.

#[local] Instance DString_inj : Inj (=) (=) DString.
Proof. by intros ? ? [= ->]. Qed.
#[local] Instance DInteger_inj : Inj (=) (=) DInteger.
Proof. by intros ? ? [= ->]. Qed.
#[local] Instance TlsConfig_debug_inj : Inj (=) (=) TlsConfig_debug.
Proof. by intros [] [] [= -> ->]. Qed.
#[local] Instance RemoteAgentConfig_debug_inj : Inj (=) (=) RemoteAgentConfig_debug.
Proof. intros [] [] H. injection H as H. by subst. Qed.
#[local] Instance ComputeProvider_debug_inj : Inj (=) (=) ComputeProvider_debug.
Proof. by intros [] []. Qed.
#[local] Instance ComputeTerminalResult_debug_inj : Inj (=) (=) ComputeTerminalResult_debug.
Proof. by intros [] []. Qed.
#[local] Instance DataAccessMode_debug_inj : Inj (=) (=) DataAccessMode_debug.
Proof. by intros [] []. Qed.

Lemma AkamaiConfig_shows : shows AkamaiConfig_debug AkamaiConfig_public.
Proof.
  intros [] []. unfold AkamaiConfig_debug, AkamaiConfig_public. cbn. split.
  - intros H. injection H as ? ? ? ? ? ? Hr Hi Ht Hf ? ? ?.
    apply (inj (fmap DString)) in Hr, Hi, Ht. apply (inj (fmap DInteger)) in Hf. by subst.
  - intros H. injection H as H. by subst.
Qed.
Lemma R2Config_shows : shows R2Config_debug R2Config_public.
Proof.
  intros [] []. unfold R2Config_debug, R2Config_public. cbn. split.
  - intros H. injection H as ? ? ? ? ? ? Hn%Nat2Z.inj ? ?. subst. by rewrite Hn.
  - intros H. injection H as ? ? ? ? ? ? ? ? Hn. subst. by rewrite Hn.
Qed.
Lemma Config_shows : shows Config_debug Config_public.
Proof.
  intros [] []. unfold Config_debug, Config_public. cbn. split.
  - intros H. injection H as ? ? ? ? ? ? ? ? ? ? ? ? ? ? ? ? Hra%DOption_inj Hak Hr2; [|apply _].
    apply (DOption_shows _ _ _ _ R2Config_shows) in Hr2.
    apply (DOption_shows _ _ _ _ AkamaiConfig_shows) in Hak. subst. by rewrite Hak, Hr2.
  - intros H. injection H as ? ? ? ? ? ? ? ? ? ? ? ? ? ? ? ? ? Hak Hr2.
    apply (DOption_shows _ _ _ _ R2Config_shows) in Hr2.
    apply (DOption_shows _ _ _ _ AkamaiConfig_shows) in Hak. subst. by rewrite Hak, Hr2.
Qed.
Lemma NodeConfig_shows : shows NodeConfig_debug NodeConfig_public.
Proof.
  intros [] []. unfold NodeConfig_debug, NodeConfig_public. cbn. split.
  - intros H. injection H as ? Htls%DOption_inj ? ? ? ? ? ? Hmode ? ? ? ? ?; [|apply _].
    assert (nc_data_access_mode = nc_data_access_mode0) as -> by (by destruct nc_data_access_mode,
      nc_data_access_mode0). by subst.
  - intros H. injection H as H. by subst.
Qed.
Lemma ComputeInstance_shows : shows ComputeInstance_debug ComputeInstance_public.
Proof.
  assert (shows (λ _ : string, DString "[REDACTED]") (λ _, EmptyString)) as Htoken by done.
  intros [] []. unfold ComputeInstance_debug, ComputeInstance_public. cbn. split.
  - intros H. injection H as ? ? Hp Hi%DOption_inj Hv%DOption_inj Ht Hpid%DOption_inj Hc%DOption_inj
      Hs%DOption_inj Hte%DOption_inj Hr%DOption_inj Hf%DOption_inj ? ?; try apply _.
    apply (DOption_shows _ _ _ _ Htoken) in Ht.
    assert (ci_provider = ci_provider0) as -> by (by destruct ci_provider, ci_provider0).
    subst. by rewrite Ht.
  - intros H. injection H as ? ? ? ? ? Ht ? ? ? ? ? ? ? ?.
    apply (DOption_shows _ _ _ _ Htoken) in Ht. subst. by rewrite Ht.
Qed.

(** The logs show everything but the secrets: what [Debug] prints of a configuration of
    the control plane or of the node agent, of the credential manager and of a compute
    instance says of its tokens nothing at all, of an enrollment token whether there is
    one and of the storage environment how many values it has; two of them are printed
    alike exactly when all the rest of them is the same. *)
Theorem debug_output_hides_secrets :
  shows Config_debug Config_public ∧ shows R2TemporaryCredentialManager_debug R2Config_public ∧
  shows NodeConfig_debug NodeConfig_public ∧ shows ComputeInstance_debug ComputeInstance_public.
Proof.
  split_and!; [apply Config_shows| |apply NodeConfig_shows|apply ComputeInstance_shows].
  intros c c'. rewrite <- (R2Config_shows c c'). unfold R2TemporaryCredentialManager_debug.
  split; [|by intros ->]. intros H.
  exact (f_equal (λ d, match d with DStruct _ [(_, config)] _ => config | _ => DNone end) H).
Qed.
