(* ===== verification/AgentServer.v ===== *)
(** Connections of node agents to the control plane
    (crates/mcserver-control-plane/src/agent/server.rs and agent/registry.rs):
    enrollment, registration, the session that carries commands, and the registry
    the reconciliation worker calls agents through. *)
From S2P Require Import Prelude Text Programs JsonRpc Framing Server Instances Database.
From S2P Require Import Repositories ComputeRepository Effects NodeConfig NodeAgent NodeTransport.
#[local] Open Scope string_scope.
#[local] Open Scope Z_scope.
#[local] Open Scope prog_scope.

(** ** The registry *)

(** [sessions]: the session of each connected compute instance; the sender of a
    handle is known by its session. *)
Abbreviation Registry := (gmap ComputeInstanceId Uuid).

Definition registry_register (c : ComputeInstanceId) (session : Uuid) (r : Registry) : Registry :=
  <[c := session]> r.
Definition registry_unregister (c : ComputeInstanceId) (session : Uuid) (r : Registry) : Registry :=
  if is_some_and (N.eqb session) (r !! c) then delete c r else r.
Definition registry_is_connected (c : ComputeInstanceId) (r : Registry) : bool := is_some (r !! c).

(** ** Errors and messages *)

Module ASE.
(** [AgentServerError]. *)
Inductive AgentServerError :=
| Io (source : io_error)
| Disconnected
| FrameTooLarge (actual maximum : Z)
| Serialization (source : string)
| Protocol (message : string)
| TlsConfiguration (message : string)
| TlsHandshake (source : io_error)
| TlsHandshakeTimeout
| RegistrationTimeout
| Repository (source : RepositoryError)
| Certificate (source : string)
| R2TemporaryCredential (source : string)
| Timestamp (source : TimestampError).
End ASE.
Abbreviation AgentServerError := ASE.AgentServerError.

Record ErrorObjectWire := { eow_code : Z; eow_message : string; eow_data : option json }.
Record AgentWireResponse := {
  awr_jsonrpc : string;
  awr_result : option json;
  awr_error : option ErrorObjectWire;
  awr_id : json;
}.

(** [SignedAgentCertificate]. *)
Record SignedCertificate := {
  signed_certificate_chain_pem : string;
  signed_leaf_der : string;
  signed_expires_at : Z;
}.

(** The parts of [ConnectionContext] a connection looks at: which of the optional
    services there are. *)
Record ConnectionContext := {
  expected_provider : ComputeProvider;
  has_certificate_authority : bool;
  has_server_instance_repository : bool;
  has_r2_credentials : bool;
}.

(** ** Operations *)

Inductive session_input :=
| InputCancelled
| InputClosed
| InputCommand (method : string) (params : json).

(** The race of a command with its timeout and the cancellation. *)
Inductive race := StillRunning | TimedOut | RaceCancelled.

Inductive agent_op : Type → Type :=
| ARepo {A} (m : repo A) : agent_op (result RepositoryError A)
| ANow : agent_op (result TimestampError Z)
| ANewSession : agent_op Uuid
(* [None] when the registration timed out *)
| AReadFirst : agent_op (option (result AgentServerError json))
| AReadValue : agent_op (result AgentServerError json)
| AWriteValue (v : json) : agent_op (result AgentServerError unit)
| AWriteRequest (v : json) : agent_op (result AgentCallError unit)
| ASign (c : ComputeInstanceId) (csr : string) (issued_at : Z) :
    agent_op (result string SignedCertificate)
| AR2Environment (repository : string) : agent_op (result string (list (string * string)))
| ARegister (c : ComputeInstanceId) (session : Uuid) : agent_op unit
| AUnregister (c : ComputeInstanceId) (session : Uuid) : agent_op unit
| AEnqueueInstance (i : ServerInstanceId) : agent_op unit
| ANextInput : agent_op session_input
| ARace : agent_op race
| AReply (r : result AgentCallError json) : agent_op unit.

Abbreviation agent_prog := (gprog agent_op).

(** What [AReadValue], [AWriteValue] and [AWriteRequest] do on the connection's
    stream: the frame reader with this file's errors. *)
Definition agent_read_frame : list fill → Z → result AgentServerError Z * bytes * list fill :=
  read_frame ASE.Io ASE.FrameTooLarge.
Definition agent_read_value `{JsonText} : list fill → Z → result AgentServerError json * list fill :=
  read_value ASE.Io ASE.FrameTooLarge ASE.Serialization ASE.Disconnected.
Definition agent_write_value `{JsonText} : json → result AgentServerError bytes :=
  write_value ASE.Serialization.
Definition write_command_request `{JsonText} : json → result AgentCallError bytes :=
  write_value ACE.Serialization.

Section agent_server.
Context `{Codec}.
Context `{Deserialize Request} `{Deserialize AgentWireResponse} `{Serialize Response}.
Context `{Deserialize EnrollParams} `{Serialize EnrollResult}.
Context `{Deserialize RegisterParams} `{Serialize RegisterResult}.

(** [AgentServerError]'s [to_string]. *)
Variable describe : AgentServerError → string.
Variable context : ConnectionContext.

(** ** Responses *)

Definition write_response (response : Response) : agent_prog (result AgentServerError unit) :=
  let? value := Ret (to_value response) via ASE.Serialization in
  perform (AWriteValue value).

Definition reject_registration (id : json) (message : string) :
    agent_prog (result AgentServerError unit) :=
  write_response (Response_error id (ErrorObject_new INVALID_REQUEST message)).

Definition reject_invalid_params (id : json) (error : string) :
    agent_prog (result AgentServerError unit) :=
  write_response (Response_error id
    (with_data (ErrorObject_new INVALID_PARAMS "Invalid registration params") (detail error))).

(** [request_id]. *)
Definition registration_request_id (request : Request) : agent_prog (result AgentServerError json) :=
  if negb (id_is_valid (req_id request)) then
    let? _ := write_response (Response_error JNull
      (ErrorObject_new INVALID_REQUEST "Invalid registration")) via id in
    Ret (Err (ASE.Protocol "registration request id is invalid"))
  else Ret (ok_or (ASE.Protocol "registration must be a request") (response_id (req_id request))).

Definition validate_protocol_version (actual : Z) (response_id : json) :
    agent_prog (result AgentServerError bool) :=
  if actual =? PROTOCOL_VERSION then Ret (Ok true)
  else
    let? _ := write_response (Response_error response_id
      (with_data (ErrorObject_new INVALID_REQUEST "Protocol mismatch")
        (JObject [("actual", JNumber (JInt actual)); ("expected", JNumber (JInt PROTOCOL_VERSION))])))
      via id in
    Ret (Ok false).

(** ** Enrollment *)

(** A rejected enrollment ends the connection. *)
Definition rejected {A} (id_ : json) (message : string) :
    agent_prog (result AgentServerError (option A)) :=
  let? _ := reject_registration id_ message via id in Ret (Ok None).

(** The result of [handle_enrollment]'s [match]; [None] when it was rejected. *)
Definition enrollment_result (compute_id : ComputeInstanceId) (params : EnrollParams)
    (response_id : json) (enrollment : AgentEnrollment) :
    agent_prog (result AgentServerError (option EnrollResult)) :=
  let csr := enroll_certificate_signing_request_pem params in
  match ae_certificate_signing_request_pem enrollment, ae_certificate_chain_pem enrollment,
        ae_certificate_der enrollment, ae_certificate_expires_at enrollment with
  | Some recorded_csr, Some chain, Some _, Some _ =>
      if String.eqb recorded_csr csr then
        Ret (Ok (Some {| enrolled_client_certificate_chain_pem := chain;
                         enrolled_connection_token := ae_connection_token enrollment |}))
      else rejected response_id "Enrollment CSR changed"
  | None, None, None, None =>
      if negb (has_certificate_authority context)
      then Ret (Err (ASE.Protocol "certificate authority unavailable"))
      else
        let? issued_at := perform ANow via ASE.Timestamp in
        let? signed := perform (ASign compute_id csr issued_at) via ASE.Certificate in
        let? recorded := perform (ARepo (ComputeInstanceRepository_record_agent_certificate compute_id
          (enroll_enrollment_token params)
          {| acr_certificate_signing_request_pem := csr;
             acr_certificate_chain_pem := signed_certificate_chain_pem signed;
             acr_certificate_der := signed_leaf_der signed;
             acr_certificate_expires_at := signed_expires_at signed;
             acr_recorded_at := issued_at |})) via ASE.Repository in
        if (recorded : bool) then
          Ret (Ok (Some {| enrolled_client_certificate_chain_pem := signed_certificate_chain_pem signed;
                           enrolled_connection_token := ae_connection_token enrollment |}))
        else
          let? existing := perform (ARepo (ComputeInstanceRepository_get_agent_enrollment compute_id
            (enroll_enrollment_token params))) via ASE.Repository in
          match existing with
          | None => rejected response_id "Enrollment rejected"
          | Some existing =>
              if negb (bool_decide (ae_certificate_signing_request_pem existing = Some csr))
              then rejected response_id "Enrollment CSR changed"
              else
                let? chain := Ret (ok_or (ASE.Protocol "incomplete enrollment state")
                  (ae_certificate_chain_pem existing)) via id in
                Ret (Ok (Some {| enrolled_client_certificate_chain_pem := chain;
                                 enrolled_connection_token := ae_connection_token existing |}))
          end
  | _, _, _, _ => rejected response_id "Enrollment CSR changed"
  end.

Definition handle_enrollment (request : Request) (response_id : json)
    (peer_certificate_der : option string) : agent_prog (result AgentServerError unit) :=
  if bool_decide (expected_provider context ≠ CP.Akamai) || is_some peer_certificate_der
  then reject_registration response_id "Enrollment rejected"
  else match from_value (req_params request) with
  | Err error => reject_invalid_params response_id error
  | Ok params =>
      let? supported := validate_protocol_version (enroll_protocol_version params) response_id via id in
      if negb supported then Ret (Ok tt)
      else
        let compute_id := enroll_compute_instance_id params in
        let? enrollment := perform (ARepo (ComputeInstanceRepository_get_agent_enrollment compute_id
          (enroll_enrollment_token params))) via ASE.Repository in
        match enrollment with
        | None => reject_registration response_id "Enrollment rejected"
        | Some enrollment =>
            let? result := enrollment_result compute_id params response_id enrollment via id in
            match result with
            | None => Ret (Ok tt)
            | Some result =>
                let? value := Ret (to_value (result : EnrollResult)) via ASE.Serialization in
                write_response (Response_success response_id value)
            end
        end
  end.

(** ** Sessions *)

(** [format!("{}: {detail}", error.message)] when there is a detail. *)
Definition remote_message (error : ErrorObjectWire) : string :=
  match (eow_data error ≫= json_get "detail") ≫= json_as_str with
  | Some d => if negb (str_is_blank d) then eow_message error ++ ": " ++ d else eow_message error
  | None => eow_message error
  end.

(** What a response to the request with [id] means. *)
Definition command_result (id : Z) (response : AgentWireResponse) : result AgentCallError json :=
  if negb (String.eqb (awr_jsonrpc response) VERSION)
  then Err (ACE.Protocol "node-agent response JSON-RPC version mismatch")
  else if negb (bool_decide (awr_id response = JNumber (JInt id)))
  then Err (ACE.Protocol "node-agent response id does not match request")
  else match awr_result response, awr_error response with
       | Some result, None => Ok result
       | None, Some error => Err (ACE.Remote (eow_code error) (remote_message error))
       | _, _ =>
           Err (ACE.Protocol "node-agent response must contain exactly one of result or error")
       end.

(** [read_wire_response]. *)
Definition read_wire_response : agent_prog (result AgentCallError AgentWireResponse) :=
  let? value := perform AReadValue via (λ error, match error with
    | ASE.Io error => ACE.Io error
    | ASE.Disconnected => ACE.Disconnected
    | other => ACE.Protocol (describe other)
    end) in
  Ret (map_err ACE.Serialization (from_value value)).

(** One step of the exchange, unless the timeout or the cancellation comes first:
    [None] when it was cancelled. *)
Definition racing {A} (step : agent_prog (result AgentCallError A)) :
    agent_prog (option (result AgentCallError A)) :=
  let! state := perform ARace in
  match state with
  | RaceCancelled => Ret None
  | TimedOut => Ret (Some (Err ACE.Timeout))
  | StillRunning => let! r := step in Ret (Some r)
  end.

(** The [result] of a command. *)
Definition exchange (id : Z) (method : string) (params : json) :
    agent_prog (option (result AgentCallError json)) :=
  let! written := racing (perform (AWriteRequest (request_object method params (JNumber (JInt id))))) in
  match written with
  | None => Ret None
  | Some (Err error) => Ret (Some (Err error))
  | Some (Ok _) =>
      let! response := racing read_wire_response in
      Ret match response with
          | None => None
          | Some (Err error) => Some (Err error)
          | Some (Ok response) => Some (command_result id response)
          end
  end.

Definition session_unusable {A} (r : result AgentCallError A) : bool :=
  match r with
  | Err (ACE.Disconnected | ACE.Io _ | ACE.Timeout | ACE.Protocol _) => true
  | _ => false
  end.

(** [next_id.checked_add(1).unwrap_or(1)]. *)
Definition following_id (current : Z) : Z := from_option id 1 (u64_checked_add current 1).

(** The loop of [run_session]: [None] when it did not end in [fuel] commands. *)
Fixpoint agent_session (fuel : nat) (next_id : Z) :
    agent_prog (option (result AgentServerError unit)) :=
  match fuel with
  | 0%nat => Ret None
  | S fuel =>
      let! input := perform ANextInput in
      match input with
      | InputCancelled | InputClosed => Ret (Some (Ok tt))
      | InputCommand method params =>
          let! exchanged := exchange next_id method params in
          match exchanged with
          | None => Ret (Some (Ok tt))
          | Some r =>
              let! _ := perform (AReply r) in
              if session_unusable r then Ret (Some (Ok tt))
              else agent_session fuel (following_id next_id)
          end
      end
  end.

(** ** Registration *)

Definition runtime_environment_for_registration (compute : ComputeInstance) :
    agent_prog (result AgentServerError (list (string * string))) :=
  if bool_decide (expected_provider context = CP.LocalProcess) then Ret (Ok [])
  else if negb (has_server_instance_repository context)
  then Ret (Err (ASE.Protocol "server instance repository unavailable"))
  else
    let? instance := perform (ARepo (ServerInstanceRepository_get (ci_server_instance_id compute)))
      via ASE.Repository in
    let? instance := Ret (ok_or (ASE.Protocol "server instance not found") instance) via id in
    if negb (has_r2_credentials context)
    then Ret (Err (ASE.Protocol "R2 temporary credential manager unavailable"))
    else
      let? environment := perform (AR2Environment
        (repository (spec_data (si_resolved_spec instance)))) via ASE.R2TemporaryCredential in
      Ret (Ok environment).

(** An accepted registration: the answer, the session and its end. [None] when the
    session did not end in [fuel] commands. *)
Definition serve_registered (fuel : nat) (response_id : json) (compute_id : ComputeInstanceId)
    (compute : ComputeInstance) (environment : list (string * string)) :
    agent_prog (option (result AgentServerError unit)) :=
  let! answered :=
    (let? value := Ret (to_value {| register_accepted := true;
                                    register_runtime_environment := environment |})
       via ASE.Serialization in
     write_response (Response_success response_id value)) in
  match answered with
  | Err error => Ret (Some (Err error))
  | Ok _ =>
      let! session := perform ANewSession in
      let! _ := perform (ARegister compute_id session) in
      let! _ := perform (AEnqueueInstance (ci_server_instance_id compute)) in
      let! ended := agent_session fuel 1 in
      match ended with
      | None => Ret None
      | Some ended =>
          let! _ := perform (AUnregister compute_id session) in
          let! _ := perform (AEnqueueInstance (ci_server_instance_id compute)) in
          Ret (Some ended)
      end
  end.

(** What is done with the compute instance that [agent.register] names: its
    compute instance and environment, or [None] when it was rejected. *)
Definition admit_agent (params : RegisterParams) (response_id : json)
    (peer_certificate_der : option string) :
    agent_prog (result AgentServerError (option (ComputeInstance * list (string * string)))) :=
  let? supported := validate_protocol_version (register_protocol_version params) response_id via id in
  if negb supported then Ret (Ok None)
  else if bool_decide (expected_provider context = CP.Akamai) && is_none peer_certificate_der
  then rejected response_id "Client certificate required"
  else
    let compute_id := register_compute_instance_id params in
    let? found := perform (ARepo (ComputeInstanceRepository_get compute_id)) via ASE.Repository in
    match found with
    | None => rejected response_id "Unknown compute instance"
    | Some compute =>
        if negb (ComputeInstance_is_active compute)
           || bool_decide (ci_provider compute ≠ expected_provider context)
        then rejected response_id "Registration rejected"
        else
          let? connected_at := perform ANow via ASE.Timestamp in
          let? authentication := perform (ARepo (ComputeInstanceRepository_authenticate_agent compute_id
            (expected_provider context) (register_connection_token params) peer_certificate_der
            connected_at)) via ASE.Repository in
          if bool_decide (authentication ≠ AA.Accepted)
          then rejected response_id "Registration rejected"
          else
            let! environment := runtime_environment_for_registration compute in
            match environment with
            | Err error =>
                let? _ := reject_registration response_id "Temporary storage credentials unavailable"
                  via id in
                Ret (Err error)
            | Ok environment => Ret (Ok (Some (compute, environment)))
            end
    end.

Definition handle_connection (fuel : nat) (peer_certificate_der : option string) :
    agent_prog (option (result AgentServerError unit)) :=
  let! first := perform AReadFirst in
  match first with
  | None => Ret (Some (Err ASE.RegistrationTimeout))
  | Some (Err error) => Ret (Some (Err error))
  | Some (Ok value) =>
      match from_value value with
      | Err error => Ret (Some (Err (ASE.Serialization error)))
      | Ok request =>
          let! id_ := registration_request_id request in
          match id_ with
          | Err error => Ret (Some (Err error))
          | Ok response_id =>
              if negb (String.eqb (req_jsonrpc request) VERSION) then
                let! r := reject_registration response_id "Invalid JSON-RPC version" in Ret (Some r)
              else if String.eqb (req_method request) AGENT_ENROLL then
                let! r := handle_enrollment request response_id peer_certificate_der in Ret (Some r)
              else if negb (String.eqb (req_method request) AGENT_REGISTER) then
                let! r :=
                  (let? _ := reject_registration response_id "Invalid registration" via id in
                   Ret (Err (ASE.Protocol
                     "first node-agent request must be agent.enroll or agent.register"))) in
                Ret (Some r)
              else match from_value (req_params request) with
              | Err error =>
                  let! r := reject_invalid_params response_id error in Ret (Some r)
              | Ok params =>
                  let! admitted := admit_agent params response_id peer_certificate_der in
                  match admitted with
                  | Err error => Ret (Some (Err error))
                  | Ok None => Ret (Some (Ok tt))
                  | Ok (Some (compute, environment)) =>
                      serve_registered fuel response_id (register_compute_instance_id params)
                        compute environment
                  end
              end
          end
      end
  end.
End agent_server.
