(* ===== verification/MessageCodecs.v ===== *)
(** Concrete encodings of the messages, for evaluating the protocols on examples:
    requests and responses are objects with their fields, as the derived
    implementations make them, and parameters are spelled in bits. *)
From S2P Require Import Prelude Text JsonRpc Framing Server Instances Database Codecs.
From S2P Require Import Repositories ComputeRepository Effects NodeConfig NodeAgent NodeTransport.
From S2P Require Import AgentServer.
From stdpp Require Import countable.
#[local] Open Scope string_scope.
#[local] Open Scope Z_scope.

(** ** Requests and responses *)

Definition json_string_field (key : string) (v : json) : option string :=
  json_get key v ≫= json_as_str.

Definition request_from_json : Deserialize Request := λ v,
  match json_string_field "jsonrpc" v, json_string_field "method" v with
  | Some jsonrpc, Some method =>
      Ok {| req_jsonrpc := jsonrpc; req_method := method;
            req_params := default JNull (json_get "params" v);
            req_id := match json_get "id" v with Some i => RI.Present i | None => RI.Missing end |}
  | _, _ => Err "missing field"
  end.

Definition error_to_json (e : ErrorObject) : json :=
  JObject ([("code", JNumber (JInt (err_code e)))]
    ++ match err_data e with Some d => [("data", d)] | None => [] end
    ++ [("message", JString (err_message e))])%list.
Definition response_to_json : Serialize Response := λ r,
  Ok (JObject (match resp_error r with Some e => [("error", error_to_json e)] | None => [] end
    ++ [("id", resp_id r); ("jsonrpc", JString (resp_jsonrpc r))]
    ++ match resp_result r with Some v => [("result", v)] | None => [] end)%list).

(** An optional field: absent or [null] is [None]. *)
Definition json_option {A} (key : string) (decode : json → option A) (v : json) : option (option A) :=
  match json_get key v with
  | None | Some JNull => Some None
  | Some w => Some <$> decode w
  end.

Definition error_from_json (v : json) : option ErrorObjectWire :=
  match json_get "code" v, json_string_field "message" v, json_option "data" Some v with
  | Some (JNumber (JInt code)), Some message, Some data =>
      Some {| eow_code := code; eow_message := message; eow_data := data |}
  | _, _, _ => None
  end.
Definition wire_response_from_json : Deserialize AgentWireResponse := λ v,
  match json_string_field "jsonrpc" v, json_option "result" Some v,
        json_option "error" error_from_json v, json_get "id" v with
  | Some jsonrpc, Some result, Some error, Some id =>
      Ok {| awr_jsonrpc := jsonrpc; awr_result := result; awr_error := error; awr_id := id |}
  | _, _, _, _ => Err "missing field"
  end.

(** ** Parameters *)

#[global] Instance InstanceIdentity_eq_dec : EqDecision InstanceIdentity.
Proof. solve_decision. Defined.
#[global] Instance InstanceIdentity_countable : Countable InstanceIdentity.
Proof.
  refine (inj_countable' (λ i, (server_instance_id i, fencing_token i))
    (λ '(a, b), Build_InstanceIdentity a b) _). by intros [].
Defined.
#[global] Instance SnapshotDataParams_eq_dec : EqDecision SnapshotDataParams.
Proof. solve_decision. Defined.
#[global] Instance SnapshotDataParams_countable : Countable SnapshotDataParams.
Proof.
  refine (inj_countable' (λ p, (snapshot_instance p, snapshot_server_id p, snapshot_repository p))
    (λ '(a, b, c), Build_SnapshotDataParams a b c) _). by intros [].
Defined.
#[global] Instance SnapshotDataResult_eq_dec : EqDecision SnapshotDataResult.
Proof. solve_decision. Defined.
#[global] Instance SnapshotDataResult_countable : Countable SnapshotDataResult.
Proof.
  refine (inj_countable' snapshot_data_id Build_SnapshotDataResult _). by intros [].
Defined.
#[global] Instance AgentInspectParams_eq_dec : EqDecision AgentInspectParams.
Proof. solve_decision. Defined.
#[global] Instance AgentInspectParams_countable : Countable AgentInspectParams.
Proof.
  refine (inj_countable' inspect_instance Build_AgentInspectParams _). by intros [].
Defined.
#[global] Instance AgentInspectResult_eq_dec : EqDecision AgentInspectResult.
Proof. solve_decision. Defined.
#[global] Instance AgentInspectResult_countable : Countable AgentInspectResult.
Proof.
  refine (inj_countable' (λ r, (data_prepared r, process_running r, last_snapshot_id r))
    (λ '(a, b, c), Build_AgentInspectResult a b c) _). by intros [].
Defined.
#[global] Instance RegisterParams_eq_dec : EqDecision RegisterParams.
Proof. solve_decision. Defined.
#[global] Instance RegisterParams_countable : Countable RegisterParams.
Proof.
  refine (inj_countable' (λ p, (register_protocol_version p, register_compute_instance_id p,
    register_connection_token p)) (λ '(a, b, c), Build_RegisterParams a b c) _). by intros [].
Defined.
#[global] Instance RegisterResult_eq_dec : EqDecision RegisterResult.
Proof. solve_decision. Defined.
#[global] Instance RegisterResult_countable : Countable RegisterResult.
Proof.
  refine (inj_countable' (λ p, (register_accepted p, register_runtime_environment p))
    (λ '(a, b), Build_RegisterResult a b) _). by intros [].
Defined.
#[global] Instance EnrollParams_eq_dec : EqDecision EnrollParams.
Proof. solve_decision. Defined.
#[global] Instance EnrollParams_countable : Countable EnrollParams.
Proof.
  refine (inj_countable' (λ p, (enroll_protocol_version p, enroll_compute_instance_id p,
    enroll_enrollment_token p, enroll_certificate_signing_request_pem p))
    (λ '(a, b, c, d), Build_EnrollParams a b c d) _). by intros [].
Defined.
#[global] Instance EnrollResult_eq_dec : EqDecision EnrollResult.
Proof. solve_decision. Defined.
#[global] Instance EnrollResult_countable : Countable EnrollResult.
Proof.
  refine (inj_countable' (λ p, (enrolled_client_certificate_chain_pem p, enrolled_connection_token p))
    (λ '(a, b), Build_EnrollResult a b) _). by intros [].
Defined.

Definition json_accepted : json := JObject [("accepted", JBool true)].
