(* ===== verification/R2Credentials.v ===== *)
(** Temporary credentials for the storage of one server
    (crates/mcserver-control-plane/src/infrastructure/r2_temporary_credentials.rs),
    and where the storage of servers is (the base of [run] in main.rs). *)
From S2P Require Import Prelude Text Net Programs Framing Config.
#[local] Open Scope string_scope.
#[local] Open Scope Z_scope.
#[local] Open Scope prog_scope.

Definition MAX_RESPONSE_BYTES : Z := 64 * 1024.
Definition MAX_CREDENTIAL_CHARS : Z := 16 * 1024.
Definition MAX_REPOSITORY_PREFIX_CHARS : Z := 1024.
Definition PREFLIGHT_PREFIX : string := "mcserver-preflight/".
Definition PREFLIGHT_TTL : Z := from_secs (15 * 60).

(** ** Data *)

Record CreateTemporaryCredentialRequest := {
  ask_bucket : string;
  ask_parent_access_key_id : string;
  ask_permission : string;
  ask_ttl_seconds : Z;
  ask_prefixes : list string;
}.
Record CloudflareApiError := { api_code : option Z; api_message : string }.
Record CreateCredentialResult := {
  result_access_key_id : option string;
  result_secret_access_key : option string;
  result_session_token : option string;
}.
Record CloudflareEnvelope := {
  envelope_result : option CreateCredentialResult;
  envelope_errors : list CloudflareApiError;
  envelope_success : bool;
}.
Record R2TemporaryCredentials := {
  access_key_id : string;
  secret_access_key : string;
  session_token : string;
}.

Module R2E.
(** [R2TemporaryCredentialError]. *)
Inductive R2TemporaryCredentialError :=
| Http (source : string)
| ResponseTooLarge (actual maximum : Z)
| InvalidResponse (status : Z) (source : string)
| Api (status : Z) (errors : list CloudflareApiError) (retry_after : option Z)
| MissingResult
| MissingCredentialField (field : string)
| InvalidCredentialField (field : string)
| ReservedRuntimeKey (key : string)
| UnsupportedRepository (repository : string)
| RepositoryBucketMismatch (expected : string)
| UnsafeRepositoryPrefix (repository : string)
| InvalidPrefix (prefix : string).
End R2E.
Abbreviation R2TemporaryCredentialError := R2E.R2TemporaryCredentialError.

(** What of the answer is looked at; the body can still fail to arrive. *)
Record http_answer := {
  answer_status : Z;
  answer_retry_after : option string;
  answer_body : result string bytes;
}.
(** [StatusCode::is_success]. *)
Definition status_is_success (status : Z) : bool := (200 <=? status) && (status <? 300).

Inductive r2_op : Type → Type :=
| PostCredentials (endpoint bearer_token : string) (request : CreateTemporaryCredentialRequest) :
    r2_op (result string http_answer).
Abbreviation r2_prog := (gprog r2_op).

(** ** Checks *)

Definition required_credential (field : string) (value : option string) :
    result R2TemporaryCredentialError string :=
  value ← ok_or (R2E.MissingCredentialField field) value;
  _ ← err_if (str_is_blank value || str_contains_nul value
              || (MAX_CREDENTIAL_CHARS <? str_char_count value)) (R2E.InvalidCredentialField field);
  Ok value.

Definition is_safe_prefix_segment (value : string) : bool :=
  negb (str_is_empty value) && negb (String.eqb value ".") && negb (String.eqb value "..")
  && bytes_all (λ c, is_ascii_alphanumeric c || byte_among "-_." c) value.

Definition validate_prefix (value : string) : result R2TemporaryCredentialError unit :=
  err_if (str_is_empty value || negb (from_option (byte_is "/") false (str_last_byte value))
          || from_option (byte_is "/") false (str_first_byte value)
          || (MAX_REPOSITORY_PREFIX_CHARS <? str_char_count value) || str_contains_nul value)
    (R2E.InvalidPrefix value).

(** [segments.join("/")]. *)
Fixpoint join_path (segments : list string) : string :=
  match segments with
  | [] => EmptyString
  | [segment] => segment
  | segment :: segments => segment ++ "/" ++ join_path segments
  end.

Definition r2_host (account_id : string) : string := account_id ++ ".r2.cloudflarestorage.com".

Section r2.
(** [reqwest::Url::parse], and [serde_json::from_slice] of an envelope. *)
Variable url_parse : string → option Url.
Variable envelope_from_slice : bytes → result string CloudflareEnvelope.

Definition repository_prefix (repository account_id bucket : string) :
    result R2TemporaryCredentialError string :=
  url_value ← ok_or (R2E.UnsupportedRepository repository) (strip_prefix "s3:" repository);
  url ← ok_or (R2E.UnsupportedRepository repository) (url_parse url_value);
  _ ← err_if (negb (String.eqb (url_scheme url) "https")
              || negb (bool_decide (url_host url = Some (r2_host account_id)))
              || is_some (url_port url) || negb (str_is_empty (url_username url))
              || is_some (url_password url) || is_some (url_query url) || is_some (url_fragment url))
        (R2E.UnsupportedRepository repository);
  let path := from_option id (url_path url) (strip_prefix "/" (url_path url)) in
  _ ← err_if (str_contains "%" path) (R2E.UnsupportedRepository repository);
  match str_split "/" path with
  | [] => Err (R2E.RepositoryBucketMismatch bucket)
  | first :: prefix_segments =>
      _ ← err_if (negb (String.eqb first bucket)) (R2E.RepositoryBucketMismatch bucket);
      let prefix_segments :=
        if bool_decide (last prefix_segments = Some EmptyString) then removelast prefix_segments
        else prefix_segments in
      _ ← err_if (match prefix_segments with [] => true | _ => false end
                  || existsb (λ segment, negb (is_safe_prefix_segment segment)) prefix_segments)
            (R2E.UnsafeRepositoryPrefix repository);
      let prefix := join_path prefix_segments ++ "/" in
      _ ← validate_prefix prefix;
      Ok prefix
  end.

(** ** Issuing *)

Variable config : R2Config.

(** The credentials of an answer. *)
Definition credentials_of (status : Z) (retry_after : option Z) (body : bytes) :
    result R2TemporaryCredentialError R2TemporaryCredentials :=
  _ ← err_if (MAX_RESPONSE_BYTES <? Z.of_nat (length body))
        (R2E.ResponseTooLarge (Z.of_nat (length body)) MAX_RESPONSE_BYTES);
  envelope ← map_err (R2E.InvalidResponse status) (envelope_from_slice body);
  _ ← err_if (negb (status_is_success status) || negb (envelope_success envelope))
        (R2E.Api status (envelope_errors envelope) retry_after);
  result ← ok_or R2E.MissingResult (envelope_result envelope);
  access_key_id ← required_credential "accessKeyId" (result_access_key_id result);
  secret_access_key ← required_credential "secretAccessKey" (result_secret_access_key result);
  session_token ← required_credential "sessionToken" (result_session_token result);
  Ok {| access_key_id := access_key_id; secret_access_key := secret_access_key;
        session_token := session_token |}.

Definition credential_request (prefix : string) (ttl : Z) : CreateTemporaryCredentialRequest := {|
  ask_bucket := r2_bucket config;
  ask_parent_access_key_id := r2_parent_access_key_id config;
  ask_permission := "object-read-write";
  ask_ttl_seconds := as_secs ttl;
  ask_prefixes := [prefix] |}.

Definition issue (prefix : string) (ttl : Z) :
    r2_prog (result R2TemporaryCredentialError R2TemporaryCredentials) :=
  let? _ := Ret (validate_prefix prefix) via id in
  let endpoint := r2_api_base_url config ++ "/accounts/" ++ r2_account_id config
    ++ "/r2/temp-access-credentials" in
  let? response := perform (PostCredentials endpoint (r2_api_token config)
    (credential_request prefix ttl)) via R2E.Http in
  let retry_after := from_secs <$> (answer_retry_after response ≫= parse_u64) in
  let? body := Ret (answer_body response) via R2E.Http in
  Ret (credentials_of (answer_status response) retry_after body).

Definition r2_preflight : r2_prog (result R2TemporaryCredentialError unit) :=
  let? _ := issue PREFLIGHT_PREFIX PREFLIGHT_TTL via id in
  Ret (Ok tt).

(** Inserting the credentials into the runtime environment. *)
Fixpoint insert_credentials (environment : gmap string string) (credentials : list (string * string)) :
    result R2TemporaryCredentialError (gmap string string) :=
  match credentials with
  | [] => Ok environment
  | (key, value) :: credentials =>
      _ ← err_if (is_some (environment !! key)) (R2E.ReservedRuntimeKey key);
      insert_credentials (<[key := value]> environment) credentials
  end.

Definition runtime_environment_for_repository (repository : string) :
    r2_prog (result R2TemporaryCredentialError (gmap string string)) :=
  let? prefix := Ret (repository_prefix repository (r2_account_id config) (r2_bucket config))
    via id in
  let? credentials := issue prefix (r2_temporary_credential_ttl config) via id in
  Ret (insert_credentials (r2_runtime_environment config)
    [("AWS_ACCESS_KEY_ID", access_key_id credentials);
     ("AWS_SECRET_ACCESS_KEY", secret_access_key credentials);
     ("AWS_SESSION_TOKEN", session_token credentials)]).
End r2.

(** [r2_repository_base] of [run]. *)
Definition r2_repository_base (r2 : R2Config) : string :=
  "s3:https://" ++ r2_account_id r2 ++ ".r2.cloudflarestorage.com/" ++ r2_bucket r2.
