(* ===== verification/ConfigProperties.v ===== *)
(** What a configuration that is accepted guarantees: of the control plane and of
    the node agent. *)
From S2P Require Import Prelude Text Net NetFacts Environment Config Server Database NodeConfig Codecs.
#[local] Open Scope string_scope.
#[local] Open Scope Z_scope.

Lemma parse_digits_bounds acc s v :
  0 ≤ acc ≤ u64_max → parse_digits acc s = Some v → 0 ≤ v ≤ u64_max.
Proof.
  revert acc. induction s as [|c s IH]; intros acc Ha; cbn; [intros [= <-]; done|].
  destruct (is_ascii_digit c) eqn:Hc; [|done]. unfold is_ascii_digit, byte_in in Hc.
  destruct (Z.leb_spec (acc * 10 + (byte_of c - 48)) u64_max); [|done].
  apply IH. inv_res. bz. lia.
Qed.

Lemma parse_u64_bounds s v : parse_u64 s = Some v → 0 ≤ v ≤ u64_max.
Proof.
  assert (0 ≤ 0 ≤ u64_max) as H0 by by vm_compute.
  unfold parse_u64. destruct (String.list_ascii_of_string s) as [|c rest]; [done|].
  destruct (byte_is "+" c); [destruct rest; [done|]|]; by apply parse_digits_bounds.
Qed.

Lemma to_digit_nonneg radix c d : to_digit radix c = Some d → 0 ≤ d.
Proof.
  unfold to_digit, is_ascii_digit, is_ascii_lowercase, is_ascii_uppercase, byte_in.
  repeat case_match; cbn; try done; case_match; try done; intros [= <-]; inv_res; bz; lia.
Qed.

Lemma parse_octal_bounds acc s v : 0 ≤ acc → parse_octal_digits acc s = Some v → 0 ≤ v.
Proof.
  revert acc. induction s as [|c s IH]; intros acc Ha; cbn; [intros [= <-]; done|].
  destruct (to_digit 8 c) as [d|] eqn:Hd; [|done]. cbn.
  destruct (_ <=? u32_max); [|done]. apply IH.
  apply to_digit_nonneg in Hd. lia.
Qed.

(** ** The control plane *)

Section control_plane.
Variable url_parse : string → option Url.
Variable env : environment_vars.
Variable files : string → result io_error string.

Lemma env_integer_bounds name default v :
  0 ≤ default ≤ u64_max → env_integer env name default = Ok v → 0 ≤ v ≤ u64_max.
Proof.
  unfold env_integer. intros Hd. destruct (env_var env name) as [value|[]]; intros Hv; inv_res; [|done].
  by eapply parse_u64_bounds.
Qed.

Lemma positive_usize name default v :
  0 ≤ default ≤ u64_max → parse_positive_usize env name default = Ok v → 1 ≤ v ≤ u64_max.
Proof.
  unfold parse_positive_usize. intros Hd Hp. inv_res.
  match goal with H : env_integer _ _ _ = Ok _ |- _ => apply env_integer_bounds in H; [|done] end.
  bz. lia.
Qed.

Lemma positive_duration name default d :
  0 ≤ default ≤ u64_max → parse_positive_duration env name default = Ok d →
  ∃ n, 1 ≤ n ∧ d = from_secs n.
Proof.
  unfold parse_positive_duration. intros Hd Hp. inv_res.
  match goal with H : env_integer _ _ _ = Ok _ |- _ => apply env_integer_bounds in H; [|done] end.
  bz. eexists. split; [|done]. lia.
Qed.

Lemma duration_bound name default d :
  0 ≤ default ≤ u64_max → parse_positive_duration env name default = Ok d → d ≤ from_secs u64_max.
Proof.
  unfold parse_positive_duration. intros Hd Hp. inv_res.
  match goal with H : env_integer _ _ _ = Ok _ |- _ => apply env_integer_bounds in H; [|done] end.
  unfold from_secs, NANOS_PER_SEC. lia.
Qed.

Lemma socket_mode_bounds value mode : parse_socket_mode value = Ok mode → 0 ≤ mode ≤ MAX_SOCKET_MODE.
Proof.
  unfold parse_socket_mode. intros Hm. inv_res. bz. split; [|done].
  destruct value as [value|]; inv_res; [|by vm_compute].
  unfold parse_octal_u32 in *. repeat case_match; try done; by eapply parse_octal_bounds.
Qed.

(** An API that secrets are sent to: over TLS, or to this host. *)
Definition secure_api (api_base_url : string) (loopback : bool) : Prop :=
  ∃ value url host, api_base_url = trim_end_matches (byte_is "/") value ∧
    url_parse value = Some url ∧ url_host url = Some host ∧ loopback = host_is_loopback host ∧
    url_username url = EmptyString ∧ url_password url = None ∧
    (url_scheme url = "https" ∨ (url_scheme url = "http" ∧ loopback = true)).

Lemma base_url_secure invalid value loopback :
  validate_base_url url_parse invalid value = Ok loopback →
  secure_api (trim_end_matches (byte_is "/") value) loopback.
Proof.
  unfold validate_base_url. intros Hv. inv_res.
  match goal with Hu : url_parse value = Some ?u, Hh : url_host ?u = Some ?h |- _ =>
    exists value, u, h end.
  destruct (String.eqb_spec (url_scheme x) "https"); inv_res.
  2:{ destruct (String.eqb_spec (url_scheme x) "http"); cbn in *; [|done].
      destruct (host_is_loopback x1) eqn:Hl; inv_res.
      split_and!; try done; [|by destruct (url_password x)|by right].
      by destruct (url_username x). }
  split_and!; try done; [|by destruct (url_password x)|by left].
  by destruct (url_username x).
Qed.

Lemma runtime_environment_keys lines index values values' :
  dom values ⊆ {["AWS_DEFAULT_REGION"]} →
  runtime_environment_lines lines index values = Ok values' →
  dom values' ⊆ {["AWS_DEFAULT_REGION"]}.
Proof.
  revert index values. induction lines as [|line lines IH]; intros index values Hd; cbn; [naive_solver|].
  case_match; [by apply IH|]. intros Hr.
  apply bind_ok in Hr as ([key value] & ? & Hr). inv_res.
  match goal with H : is_runtime_environment_key key = true |- _ => apply String.eqb_eq in H as -> end.
  eapply IH; [|eassumption]. rewrite dom_insert. set_solver.
Qed.

(** The settings of a runtime environment file are exactly the region. *)
Lemma runtime_environment_is_region path values :
  read_runtime_environment files path = Ok values → values = {["AWS_DEFAULT_REGION" := "auto"]}.
Proof.
  unfold read_runtime_environment, validate_required_runtime_environment. intros Hr.
  inv_res. match goal with H : bool_decide (values !! _ = _) = true |- _ =>
    apply bool_decide_eq_true in H; rename H into Hregion end.
  match goal with H : runtime_environment_lines _ _ _ = _ |- _ =>
    apply runtime_environment_keys in H as Hd; [|by rewrite dom_empty] end.
  apply map_eq. intros key. destruct (decide (key = "AWS_DEFAULT_REGION")) as [->|Hk].
  - by rewrite lookup_singleton_eq.
  - rewrite lookup_singleton_ne by done. apply not_elem_of_dom. set_solver.
Qed.

(** ** The parts of an accepted configuration *)

Definition hour : Z := from_secs AGENT_CERTIFICATE_SHUTDOWN_BUFFER_SECONDS.

(** Text that is not blank, has no NUL and at most [maximum] characters. *)
Definition text_ok (value : string) (maximum : Z) : Prop :=
  str_is_blank value = false ∧ str_contains_nul value = false ∧ str_char_count value ≤ maximum.

(** A command of an agent ends 5 s before its caller gives up, or after a second when
    the caller has no more than 5 s. *)
Definition response_budget (node call : Z) : Prop :=
  from_secs 1 ≤ node ≤ call ∧ (from_secs 6 ≤ call → node + from_secs 5 = call) ∧
  (call < from_secs 6 → node = from_secs 1).

Definition remote_agent_ok (c : Config) (r : RemoteAgentConfig) : Prop :=
  text_ok (ra_public_address r) MAX_ADDRESS_CHARS ∧
  bytes_all plain_byte (ra_public_address r) = true ∧
  text_ok (ra_tls_server_name r) Environment.MAX_SERVER_NAME_CHARS ∧
  ra_max_frame_bytes r = cfg_max_frame_bytes c ∧
  sa_port (ra_listen_address r) ≠ 0 ∧
  response_budget (ra_node_operation_timeout r) (cfg_agent_command_timeout c) ∧
  dns_name_ok (ra_tls_server_name r) = true ∧ dns_name_ok (ra_trust_domain r) = true ∧
  str_len (ra_node_agent_sha256 r) = SHA256_HEX_CHARS ∧
  bytes_all is_ascii_hexdigit (ra_node_agent_sha256 r) = true ∧
  (∃ v, 1 ≤ v ∧ ra_certificate_validity r = from_secs v) ∧
  ∃ url, url_parse (ra_node_agent_download_url r) = Some url ∧ url_scheme url = "https".

(** What the Akamai provider relies on: machines are only created within limits,
    and a machine that reaches its lifetime can still publish its data. *)
Definition akamai_ok (a : AkamaiConfig) (r : RemoteAgentConfig) : Prop :=
  text_ok (scope a) MAX_AKAMAI_SCOPE_CHARS ∧ bytes_all is_scope_byte (scope a) = true ∧
  secure_api (akamai_api_base_url a) (loopback_api a) ∧
  allowed_regions a ≠ [] ∧ allowed_images a ≠ [] ∧ allowed_instance_types a ≠ [] ∧
  allowed_firewall_ids a ≠ [] ∧ 0 ∉ allowed_firewall_ids a ∧ 1 ≤ max_active_instances a ∧
  from_secs 1 ≤ max_instance_lifetime a ∧
  max_instance_lifetime a + hour ≤ ra_certificate_validity r.

Definition r2_ok (c : Config) (a : AkamaiConfig) (r : R2Config) : Prop :=
  secure_api (r2_api_base_url r) (r2_loopback_api r) ∧
  max_instance_lifetime a + Z.max (cfg_agent_command_timeout c) hour ≤ r2_temporary_credential_ttl r ∧
  as_secs (r2_temporary_credential_ttl r) ≤ MAX_R2_TEMPORARY_CREDENTIAL_TTL_SECONDS ∧
  r2_runtime_environment r = {["AWS_DEFAULT_REGION" := "auto"]} ∧
  str_len (r2_account_id r) = 32 ∧ bytes_all is_ascii_hexdigit (r2_account_id r) = true ∧
  validate_r2_bucket_name (r2_bucket r) = Ok tt.

Lemma from_secs_le a b : a ≤ b → from_secs a ≤ from_secs b.
Proof. unfold from_secs, NANOS_PER_SEC. lia. Qed.

Lemma node_operation_timeout_bounds n :
  1 ≤ n → response_budget (node_operation_timeout (from_secs n)) (from_secs n).
Proof.
  unfold response_budget, node_operation_timeout, duration_checked_sub, from_secs, NANOS_PER_SEC. intros Hn.
  destruct (Z.leb_spec (5 * 1000000000) (n * 1000000000)); [|lia].
  destruct (Z.eqb_spec (n * 1000000000 - 5 * 1000000000) 0); cbn; lia.
Qed.

Lemma to_ascii_lowercase_hex s :
  bytes_all is_ascii_hexdigit s = true →
  bytes_all is_ascii_hexdigit (to_ascii_lowercase s) = true.
Proof.
  unfold bytes_all. induction s as [|c s IH]; cbn; [done|]. intros [Hc Hs]%andb_true_iff.
  rewrite IH by done. rewrite andb_true_r. clear -Hc. by destruct c as [[] [] [] [] [] [] [] []].
Qed.
Lemma to_ascii_lowercase_len s : str_len (to_ascii_lowercase s) = str_len s.
Proof. unfold str_len. f_equal. induction s; cbn; congruence. Qed.

Lemma identifier_set_nonempty name default values :
  parse_identifier_set env name default = Ok values → values ≠ [].
Proof.
  unfold parse_identifier_set. intros Hp. inv_res. case_match eqn:Hc; inv_res.
  by match goal with H : bool_decide _ = false |- _ => apply bool_decide_eq_false in H end.
Qed.

Lemma u64_set_positive name values :
  parse_positive_u64_set env name = Ok values → values ≠ [] ∧ 0 ∉ values.
Proof.
  unfold parse_positive_u64_set. intros Hp. inv_res. case_match; [|done].
  case_match eqn:Hc; inv_res.
  match goal with H : bool_decide _ = false |- _ => apply bool_decide_eq_false in H end.
  split; [done|]. intros Hin.
  assert (existsb (Z.eqb 0) (collect_set Z.compare a) = true) as He; [|congruence].
  apply existsb_exists. exists 0. split; [by apply list_elem_of_In|done].
Qed.

Lemma non_blank_ok name value maximum : validate_non_blank name value maximum = Ok tt → text_ok value maximum.
Proof. unfold validate_non_blank. intros Hv. inv_res. bz. done. Qed.
Lemma required_non_blank_ok name maximum v :
  required_non_blank env name maximum = Ok v → text_ok v maximum.
Proof. unfold required_non_blank. intros Hv. inv_res. by eapply non_blank_ok. Qed.

Lemma dns_name_plain value : dns_name_ok value = true → bytes_all plain_byte value = true.
Proof.
  unfold dns_name_ok. intros Hd. inv_res. apply (str_split_all _ "."); [done|].
  apply forallb_forall. intros label Hin.
  match goal with Hl : forallb _ _ = true |- _ => rewrite forallb_forall in Hl; apply Hl in Hin end.
  unfold dns_label_ok in Hin. inv_res. eapply bytes_all_impl; [|eassumption].
  intros c. by destruct c as [[] [] [] [] [] [] [] []].
Qed.
Lemma host_port_plain value : validate_host_port value = Ok tt → bytes_all plain_byte value = true.
Proof.
  unfold validate_host_port. destruct (parse_socket_addr value) as [address|] eqn:Ha.
  { intros _. by eapply socket_addr_plain. }
  destruct (rsplit_once ":" value) as [[host port]|] eqn:Hr; [|done]. intros Hp.
  unfold validate_dns_name, parse_u16 in Hp. inv_res. apply rsplit_once_app in Hr as ->.
  rewrite bytes_all_app. rewrite dns_name_plain by done. cbn.
  match goal with H : (v ← parse_u64 port; _) = Some _ |- _ => rename H into Hport end.
  destruct (parse_u64 port) as [v|] eqn:E; [|done]. by apply parse_u64_plain in E.
Qed.

Lemma remote_agent_config_ok frame n r :
  1 ≤ n → remote_agent_config url_parse env frame (from_secs n) = Ok (Some r) →
  text_ok (ra_public_address r) MAX_ADDRESS_CHARS ∧
  bytes_all plain_byte (ra_public_address r) = true ∧
  text_ok (ra_tls_server_name r) Environment.MAX_SERVER_NAME_CHARS ∧ ra_max_frame_bytes r = frame ∧
  sa_port (ra_listen_address r) ≠ 0 ∧
  response_budget (ra_node_operation_timeout r) (from_secs n) ∧
  dns_name_ok (ra_tls_server_name r) = true ∧ dns_name_ok (ra_trust_domain r) = true ∧
  str_len (ra_node_agent_sha256 r) = SHA256_HEX_CHARS ∧
  bytes_all is_ascii_hexdigit (ra_node_agent_sha256 r) = true ∧
  (∃ v, 1 ≤ v ∧ ra_certificate_validity r = from_secs v) ∧
  ∃ url, url_parse (ra_node_agent_download_url r) = Some url ∧ url_scheme url = "https".
Proof.
  unfold remote_agent_config. intros Hn Hr. apply bind_ok in Hr as ([listen|] & _ & Hr); [|by inv_res].
  unfold validate_dns_name, validate_https_url in Hr. inv_res. cbn [ra_listen_address
    ra_node_operation_timeout ra_tls_server_name ra_trust_domain ra_node_agent_sha256
    ra_node_agent_download_url ra_public_address ra_max_frame_bytes ra_certificate_validity].
  rewrite to_ascii_lowercase_len. bz. split_and!; try done; try (by eapply required_non_blank_ok).
  - by apply host_port_plain.
  - by apply node_operation_timeout_bounds.
  - by apply to_ascii_lowercase_hex.
  - eapply positive_duration; [|eassumption]. by vm_compute.
  - eexists. split; [eassumption|]. by apply String.eqb_eq.
Qed.

Lemma akamai_config_ok remote a :
  akamai_config url_parse env files remote = Ok (Some a) →
  ∃ r, remote = Some r ∧ akamai_ok a r.
Proof.
  unfold akamai_config. intros Ha. apply bind_ok in Ha as ([token|] & _ & Ha); [|by inv_res].
  unfold optional_scope in Ha. inv_res. eexists. split; [done|]. unfold akamai_ok. cbn [scope akamai_api_base_url loopback_api
    allowed_regions allowed_images allowed_instance_types allowed_firewall_ids max_active_instances
    max_instance_lifetime].
  unfold duration_checked_add in *. case_match; simplify_eq. bz.
  split_and!; try (by eapply identifier_set_nonempty); try (by eapply u64_set_positive); try done.
  - match goal with H : validate_non_blank "MCSERVER_AKAMAI_SCOPE" _ _ = Ok _ |- _ =>
      apply non_blank_ok in H as (? & ? & ?) end. done.
  - by eapply base_url_secure.
  - eapply positive_usize; [|eassumption]. by vm_compute.
  - match goal with H : parse_positive_duration _ "MCSERVER_AKAMAI_MAX_INSTANCE_LIFETIME_SECONDS" _ = _ |- _ =>
      apply positive_duration in H as (n & Hn & ->); [|by vm_compute] end. by apply from_secs_le.
Qed.

Lemma r2_config_ok akamai timeout r :
  r2_config url_parse env files akamai timeout = Ok r →
  match r with
  | None => akamai = None
  | Some r => ∃ a, akamai = Some a ∧ secure_api (r2_api_base_url r) (r2_loopback_api r) ∧
      max_instance_lifetime a + Z.max timeout hour ≤ r2_temporary_credential_ttl r ∧
      as_secs (r2_temporary_credential_ttl r) ≤ MAX_R2_TEMPORARY_CREDENTIAL_TTL_SECONDS ∧
      r2_runtime_environment r = {["AWS_DEFAULT_REGION" := "auto"]} ∧
      str_len (r2_account_id r) = 32 ∧ bytes_all is_ascii_hexdigit (r2_account_id r) = true ∧
      validate_r2_bucket_name (r2_bucket r) = Ok tt
  end.
Proof.
  unfold r2_config. intros Hr. apply bind_ok in Hr as ([token|] & _ & Hr); inv_res.
  2:{ by destruct akamai. }
  eexists. split; [done|]. cbn [r2_api_base_url r2_loopback_api r2_temporary_credential_ttl
    r2_runtime_environment r2_account_id r2_bucket].
  unfold duration_checked_add in *. case_match; simplify_eq. bz.
  split_and!; [by eapply base_url_secure|done|done|by eapply runtime_environment_is_region|done..].
Qed.

(** Nothing the program waits for is zero. *)
Definition config_durations (c : Config) : list Z :=
  [cfg_reconcile_interval c; cfg_reconcile_retry c; cfg_shutdown_timeout c;
   cfg_agent_command_timeout c; cfg_local_control_timeout c; cfg_local_process_stop_timeout c].

Record config_ok (c : Config) : Prop := {
  config_socket_mode : 0 ≤ cfg_socket_mode c ≤ MAX_SOCKET_MODE;
  config_frames : 1 ≤ cfg_max_frame_bytes c ≤ u64_max;
  config_waits : Forall (λ d, from_secs 1 ≤ d) (config_durations c);
  config_command_timeout : ∃ v, 1 ≤ v ≤ u64_max ∧ cfg_agent_command_timeout c = from_secs v;
  config_listen : is_loopback (sa_ip (cfg_agent_listen_address c)) = true ∧
    sa_port (cfg_agent_listen_address c) ≠ 0;
  config_remote : ∀ r, cfg_remote_agent c = Some r → remote_agent_ok c r;
  config_akamai : ∀ a, cfg_akamai c = Some a → ∃ r, cfg_remote_agent c = Some r ∧ akamai_ok a r;
  config_r2 : ∀ r, cfg_r2 c = Some r → ∃ a, cfg_akamai c = Some a ∧ r2_ok c a r;
  config_both : is_Some (cfg_akamai c) ↔ is_Some (cfg_r2 c);
}.

Ltac duration_facts :=
  repeat match goal with
  | H : parse_positive_duration _ _ _ = Ok _ |- _ =>
      apply positive_duration in H as (? & ? & ->); [|by vm_compute]
  end.

Lemma from_env_ok c : from_env url_parse env files = Ok c → config_ok c.
Proof.
  unfold from_env. intros Hc. inv_res.
  repeat match goal with
  | H : parse_socket_mode _ = Ok _ |- _ => apply socket_mode_bounds in H
  | H : parse_positive_usize _ _ _ = Ok _ |- _ => apply positive_usize in H; [|by vm_compute]
  end.
  match goal with
  | H : parse_positive_duration _ "MCSERVER_CONTROL_PLANE_AGENT_COMMAND_TIMEOUT_SECONDS" _ = Ok _ |- _ =>
      apply duration_bound in H as Hbound; [|by vm_compute]
  end.
  duration_facts.
  match goal with
  | Hr : remote_agent_config _ _ _ _ = Ok ?r, Ha : akamai_config _ _ _ _ = Ok ?a,
    H2 : r2_config _ _ _ _ _ = Ok ?r2 |- _ =>
      apply r2_config_ok in H2; rename Hr into Hremote; rename Ha into Hakamai; rename H2 into Hr2
  end.
  bz. constructor; cbn -[from_secs]; try done.
  - repeat constructor; by apply from_secs_le.
  - eexists. split; [|reflexivity]. unfold from_secs, NANOS_PER_SEC in Hbound. lia.
  - intros r ->. apply remote_agent_config_ok in Hremote; done.
  - intros a ->. by apply akamai_config_ok in Hakamai.
  - intros r ->. done.
  - match type of Hr2 with match ?r with _ => _ end => destruct r end.
    + destruct Hr2 as (a & -> & _). split; by eexists.
    + rewrite Hr2. split; by intros [].
Qed.

(** C31. A configuration that the control plane accepts is consistent: the local
    agents' listener is on this host, every limit and timeout is positive, secrets
    go over TLS unless to this host, the cloud provider comes together with remote
    agents and storage credentials, certificates outlive the longest machine by
    the shutdown buffer, storage credentials outlive it long enough for its last
    command and not longer than the storage allows, and the only setting given to
    machines is the storage region. *)
Theorem accepted_configuration_is_consistent c :
  from_env url_parse env files = Ok c → config_ok c.
Proof. apply from_env_ok. Qed.
End control_plane.

(** ** The node agent *)

Section node_agent.
Context `{Codec}.
Variable env : environment_vars.
Variable effective_uid : result io_error Z.

Lemma node_env_integer_bounds name default v :
  0 ≤ default ≤ u64_max → node_env_integer env name default = Ok v → 0 ≤ v ≤ u64_max.
Proof.
  unfold node_env_integer. intros Hd. destruct (env_var env name) as [value|[]]; intros Hv; inv_res; [|done].
  by eapply parse_u64_bounds.
Qed.

Lemma node_positive_duration name default d :
  0 ≤ default ≤ u64_max → node_parse_positive_duration env name default = Ok d → from_secs 1 ≤ d.
Proof.
  unfold node_parse_positive_duration. intros Hd Hp. inv_res.
  match goal with H : node_env_integer _ _ _ = Ok _ |- _ => apply node_env_integer_bounds in H; [|done] end.
  bz. apply from_secs_le. lia.
Qed.

Definition token_ok (token : string) : Prop :=
  str_is_blank token = false ∧ str_contains_nul token = false ∧
  str_char_count token ≤ NODE_MAX_CONNECTION_TOKEN_CHARS.

(** A node agent never presents its token in clear text to another host: without
    TLS its control plane address is a loopback address. Its token is well-formed,
    its timeouts are positive, and its reconnection delays are a range. *)
Theorem accepted_agent_configuration_is_safe n :
  node_from_env env effective_uid = Ok n →
  (nc_tls n = None → ∃ address, parse_socket_addr (nc_control_plane_address n) = Some address ∧
     is_loopback (sa_ip address) = true) ∧
  (∀ tls, nc_tls n = Some tls → dns_name_ok (tls_server_name tls) = true) ∧
  token_ok (nc_connection_token n) ∧ nc_max_frame_bytes n ≠ 0 ∧
  from_secs 1 ≤ nc_command_timeout n ∧ from_secs 1 ≤ nc_restic_retry_lock n ∧
  from_secs 1 ≤ nc_reconnect_min n ≤ nc_reconnect_max n.
Proof.
  unfold node_from_env. intros Hn. inv_res.
  repeat match goal with
  | H : node_parse_positive_duration _ _ _ = Ok _ |- _ => apply node_positive_duration in H; [|by vm_compute]
  end.
  unfold node_parse_positive_usize, node_validate_text in *. inv_res. bz.
  split_and!; try done.
  - intros Ht. cbn in Ht |- *. subst. unfold check_plain_address in *. inv_res. eauto.
  - intros tls Ht. cbn in Ht. subst. unfold tls_config in *. inv_res. repeat case_match; inv_res.
    unfold node_validate_dns_name in *. by inv_res.
Qed.
End node_agent.

(** ** Examples *)

Section witnesses.
#[local] Existing Instance bits_codec.

(** The URLs of the example. *)
Definition example_url (host : string) : Url := {|
  url_scheme := "https"; url_host := Some host; url_port := None; url_path := "/";
  url_username := EmptyString; url_password := None;
  url_query := None; url_fragment := None |}.
Definition example_urls (value : string) : option Url :=
  if String.eqb value "https://downloads.example.com/agent" then Some (example_url "downloads.example.com")
  else if String.eqb value DEFAULT_AKAMAI_API_BASE_URL then Some (example_url "api.linode.com")
  else if String.eqb value DEFAULT_CLOUDFLARE_API_BASE_URL then Some (example_url "api.cloudflare.com")
  else None.

Definition sha_of_zeros : string := "0000000000000000000000000000000000000000000000000000000000000000".
Definition example_env : environment_vars := with_vars [
  ("MCSERVER_CONTROL_PLANE_REMOTE_AGENT_LISTEN_ADDRESS", "0.0.0.0:39002");
  ("MCSERVER_CONTROL_PLANE_REMOTE_AGENT_PUBLIC_ADDRESS", "control.example.com:39002");
  ("MCSERVER_CONTROL_PLANE_REMOTE_AGENT_TLS_SERVER_NAME", "control.example.com");
  ("MCSERVER_CONTROL_PLANE_REMOTE_AGENT_TLS_CERTIFICATE", "/etc/mcserver/server.pem");
  ("MCSERVER_CONTROL_PLANE_REMOTE_AGENT_TLS_PRIVATE_KEY", "/etc/mcserver/server.key");
  ("MCSERVER_CONTROL_PLANE_REMOTE_AGENT_TLS_CA_CERTIFICATE", "/etc/mcserver/ca.pem");
  ("MCSERVER_CONTROL_PLANE_AGENT_CLIENT_CA_CERTIFICATE", "/etc/mcserver/client-ca.pem");
  ("MCSERVER_CONTROL_PLANE_AGENT_CLIENT_CA_PRIVATE_KEY", "/etc/mcserver/client-ca.key");
  ("MCSERVER_CONTROL_PLANE_AGENT_TRUST_DOMAIN", "agents.example.com");
  ("MCSERVER_CONTROL_PLANE_NODE_AGENT_DOWNLOAD_URL", "https://downloads.example.com/agent");
  ("MCSERVER_CONTROL_PLANE_NODE_AGENT_SHA256", sha_of_zeros);
  ("MCSERVER_AKAMAI_API_TOKEN", "secret");
  ("MCSERVER_AKAMAI_AUTHORIZED_KEYS_FILE", "/etc/mcserver/keys");
  ("MCSERVER_AKAMAI_ALLOWED_FIREWALL_IDS", "42, 7");
  ("MCSERVER_R2_API_TOKEN", "secret");
  ("MCSERVER_R2_ACCOUNT_ID", "0123456789abcdef0123456789abcdef");
  ("MCSERVER_R2_PARENT_ACCESS_KEY_ID", "parent");
  ("MCSERVER_R2_BUCKET", "mcserver-snapshots");
  ("MCSERVER_R2_RUNTIME_ENVIRONMENT_FILE", "/etc/mcserver/runtime.env")] (λ _, None).
Definition example_files (path : string) : result io_error string :=
  if String.eqb path "/etc/mcserver/runtime.env" then Ok "AWS_DEFAULT_REGION=auto"
  else Err IoNotFound.

Lemma accepted_configuration_is_consistent_witness :
  ∃ c a, from_env example_urls example_env example_files = Ok c ∧ cfg_akamai c = Some a ∧
    allowed_firewall_ids a = [7; 42] ∧ config_ok example_urls c.
Proof.
  destruct (from_env example_urls example_env example_files) as [c|] eqn:Hc.
  2:{ exfalso. assert (is_ok (from_env example_urls example_env example_files) = true) as Hok
        by by vm_compute. by rewrite Hc in Hok. }
  destruct (cfg_akamai c) as [a|] eqn:Ha.
  2:{ exfalso. assert (match from_env example_urls example_env example_files with
        | Ok c => is_some (cfg_akamai c) | Err _ => false end = true) as Hok by by vm_compute.
      by rewrite Hc, Ha in Hok. }
  exists c, a. split; [done|]. split; [done|]. split.
  - assert (match from_env example_urls example_env example_files with
      | Ok c => allowed_firewall_ids <$> cfg_akamai c | Err _ => None end = Some [7; 42]) as Hok
      by by vm_compute.
    rewrite Hc, Ha in Hok. by injection Hok.
  - exact (accepted_configuration_is_consistent example_urls example_env example_files c Hc).
Defined.

Definition example_agent_env : environment_vars := with_vars [
  ("MCSERVER_NODE_AGENT_CONTROL_PLANE_ADDRESS", "[::1]:39001");
  ("MCSERVER_NODE_AGENT_COMPUTE_INSTANCE_ID", bits_of_pos (N.succ_pos 13));
  ("MCSERVER_NODE_AGENT_CONNECTION_TOKEN", "token");
  ("MCSERVER_NODE_AGENT_STATE_DIRECTORY", "/var/lib/agent")] (λ _, None).

Lemma accepted_agent_configuration_is_safe_witness :
  ∃ n address, node_from_env example_agent_env (Ok 0) = Ok n ∧ nc_tls n = None ∧
    parse_socket_addr (nc_control_plane_address n) = Some address ∧
    is_loopback (sa_ip address) = true.
Proof.
  destruct (node_from_env example_agent_env (Ok 0)) as [n|] eqn:Hn.
  2:{ exfalso. assert (is_ok (node_from_env example_agent_env (Ok 0)) = true) as Hok by by vm_compute.
      by rewrite Hn in Hok. }
  assert (nc_tls n = None) as Ht.
  { assert (match node_from_env example_agent_env (Ok 0) with
      | Ok n => is_none (nc_tls n) | Err _ => false end = true) as Hok by by vm_compute.
    rewrite Hn in Hok. by destruct (nc_tls n). }
  destruct (accepted_agent_configuration_is_safe example_agent_env (Ok 0) n Hn) as (Hl & _).
  destruct (Hl Ht) as (address & Ha & Hip). by exists n, address.
Defined.
End witnesses.
