(* ===== verification/NodeProcess.v ===== *)
(** The process of the node agent (crates/mcserver-node-agent/src/main.rs): its command
    line, its start, the signals and the end of the transport; and its connections to
    the control plane (transport.rs: [connect]): plain TCP without TLS in the
    configuration, and otherwise TLS with the configured roots, server name and, after
    the enrollment, the agent's own certificate. *)
From S2P Require Import Prelude Cancellation Text Net NetFacts Environment Config Programs.
From S2P Require Import JsonRpc Framing Server ServerFacts Instances Database Codecs Effects.
From S2P Require Import NodeConfig NodeAgent NodeTransport R2Credentials ConfigProperties.
From Stdlib Require Import Ascii.
#[local] Open Scope string_scope.
#[local] Open Scope Z_scope.
#[local] Open Scope prog_scope.

(** [cancellation.rs] is the code of the control plane's token again. *)
Definition NodeCancellationState : Type := CancellationState.
Definition NodeCancellationToken_new : NodeCancellationState := CancellationToken_new.
Definition node_is_cancelled : NodeCancellationState → bool := is_cancelled.
Definition node_cancelled_step : NodeCancellationState → waiter → option waiter := cancelled_step.
Definition node_cancel_step : NodeCancellationState → canceller → option (NodeCancellationState * canceller) :=
  cancel_step.

Module NM.
(** What the command line asks for. *)
Inductive NodeCommand := Serve | Version | Help.

(** The errors [main] returns, boxed in the code. *)
Inductive NodeMainError :=
| InvalidCommandLine (arguments : list string)
| Configuration (source : NodeConfigError)
| Io (source : io_error)
| Transport (source : TransportError).
End NM.

(** The [match] on the arguments. *)
Definition node_arguments (arguments : list string) : result NM.NodeMainError NM.NodeCommand :=
  match arguments with
  | [] => Ok NM.Serve
  | [argument] =>
      if String.eqb argument "--version" || String.eqb argument "-V" then Ok NM.Version
      else if String.eqb argument "--help" || String.eqb argument "-h" then Ok NM.Help
      else Err (NM.InvalidCommandLine arguments)
  | _ => Err (NM.InvalidCommandLine arguments)
  end.

Definition newline : string := String "010"%char EmptyString.
Definition version_text (package_version : string) : string := "mcserver-node-agent " ++ package_version.
Definition help_text (package_version : string) : string :=
  "mcserver-node-agent " ++ package_version ++ newline ++ newline ++ "USAGE:" ++ newline ++
  "    mcserver-node-agent [--version]".

Inductive node_main_op : Type → Type :=
| PrintLine (text : string) : node_main_op unit
| InitLogging : node_main_op unit
| CreateStateDirectory (path : string) : node_main_op (result io_error unit)
| SetStateDirectoryMode (path : string) (mode : Z) : node_main_op (result io_error unit)
(* [SignalKind::interrupt()] and [SignalKind::terminate()] *)
| ListenForInterrupt : node_main_op (result io_error unit)
| ListenForTerminate : node_main_op (result io_error unit)
(* the task that cancels the token on a signal, and ends when it is cancelled *)
| SpawnSignalTask : node_main_op unit
| OnTransport {X} (o : transport_op X) : node_main_op X
| CancelToken : node_main_op unit
(* its errors are only logged *)
| JoinSignalTask : node_main_op unit.
Abbreviation node_main_prog := (gprog node_main_op).
Definition on_transport (X : Type) (o : transport_op X) : node_main_op X := OnTransport o.

Section main.
Context `{Codec} `{JsonText}.
Context `{Deserialize Request} `{Deserialize WireResponse} `{Serialize Response}.
Context `{Serialize EnrollParams} `{Deserialize EnrollResult}.
Context `{Serialize RegisterParams} `{Deserialize RegisterResult}.
Context `{Deserialize AgentInspectParams} `{Deserialize RestoreDataParams}.
Context `{Deserialize StartServerParams} `{Deserialize StopServerParams}.
Context `{Deserialize SnapshotDataParams} `{Deserialize CleanupInstanceParams}.
Context `{Serialize AgentInspectResult} `{Serialize ChangedResult} `{Serialize SnapshotDataResult}.
Context `{Serialize ShutdownResult}.
Variable from_utf8_lossy : bytes → string.
Variable describe : ExecutorError → string.
Variable package_version : string.

(** What is set up before the transport runs. *)
Definition prepare_node (config : NodeConfig) : node_main_prog (result NM.NodeMainError unit) :=
  let? _ := perform (CreateStateDirectory (nc_state_directory config)) via NM.Io in
  (* 0o700 *)
  let? _ := perform (SetStateDirectoryMode (nc_state_directory config) 448) via NM.Io in
  let? _ := perform ListenForInterrupt via NM.Io in
  let? _ := perform ListenForTerminate via NM.Io in
  Ret (Ok tt).

(** From the accepted configuration on; [None] when the transport did not end in
    [fuel] connections. *)
Definition serve_node (fuel : nat) (config : NodeConfig) :
    node_main_prog (option (result NM.NodeMainError unit)) :=
  let! prepared := prepare_node config in
  match prepared with
  | Err error => Ret (Some (Err error))
  | Ok _ =>
      let! _ := perform SpawnSignalTask in
      let! ended := prog_map on_transport (transport_run from_utf8_lossy describe config fuel) in
      match ended with
      | None => Ret None
      | Some r =>
          let! _ := perform CancelToken in
          let! _ := perform JoinSignalTask in
          Ret (Some (map_err NM.Transport r))
      end
  end.

(** [main]. *)
Definition node_main (fuel : nat) (env : environment_vars) (effective_uid : result io_error Z) (arguments : list string) :
    node_main_prog (option (result NM.NodeMainError unit)) :=
  match node_arguments arguments with
  | Err error => Ret (Some (Err error))
  | Ok NM.Version => let! _ := perform (PrintLine (version_text package_version)) in Ret (Some (Ok tt))
  | Ok NM.Help => let! _ := perform (PrintLine (help_text package_version)) in Ret (Some (Ok tt))
  | Ok NM.Serve =>
      let! _ := perform InitLogging in
      match node_from_env env effective_uid with
      | Err error => Ret (Some (Err (NM.Configuration error)))
      | Ok config => serve_node fuel config
      end
  end.
End main.

(** ** Start and end *)

Section properties.
Context `{Codec} `{JsonText}.
Context `{Deserialize Request} `{Deserialize WireResponse} `{Serialize Response}.
Context `{Serialize EnrollParams} `{Deserialize EnrollResult}.
Context `{Serialize RegisterParams} `{Deserialize RegisterResult}.
Context `{Deserialize AgentInspectParams} `{Deserialize RestoreDataParams}.
Context `{Deserialize StartServerParams} `{Deserialize StopServerParams}.
Context `{Deserialize SnapshotDataParams} `{Deserialize CleanupInstanceParams}.
Context `{Serialize AgentInspectResult} `{Serialize ChangedResult} `{Serialize SnapshotDataResult}.
Context `{Serialize ShutdownResult}.
Context (from_utf8_lossy : bytes → string) (describe : ExecutorError → string) (package_version : string).

Lemma prepare_node_trace config evs : trace (prepare_node config) evs (Some (Ok tt)) →
  evs = [GEvent (CreateStateDirectory (nc_state_directory config)) (Ok tt);
         GEvent (SetStateDirectoryMode (nc_state_directory config) 448) (Ok tt);
         GEvent ListenForInterrupt (Ok tt); GEvent ListenForTerminate (Ok tt)].
Proof.
  unfold prepare_node. intros (e1 & ? & [] & -> & ->%trace_perform & Ht)%trace_try_ok.
  apply trace_try_ok in Ht as (e2 & ? & [] & -> & ->%trace_perform & Ht).
  apply trace_try_ok in Ht as (e3 & ? & [] & -> & ->%trace_perform & Ht).
  by apply trace_try_ok in Ht as (e4 & ? & [] & -> & ->%trace_perform & [-> _]%trace_ret_inv).
Qed.

Lemma prepare_node_error config evs error : trace (prepare_node config) evs (Some (Err error)) →
  ∃ source, error = NM.Io source.
Proof.
  intros Ht. apply (trace_gtraced (λ _ _ _, True) (λ _ r, match r with
    | Ok _ => True | Err e => ∃ source, e = NM.Io source end) _ _ _ []) in Ht as [_ Hr].
  { exact (Hr _ eq_refl). }
  unfold prepare_node. repeat (gfollow_step; cbv beta); eauto.
Qed.

(** A node agent that ends its service has run its transport, with the configuration that
    its checks accepted, in a state directory that only its user can open; the token is
    cancelled and the signal task joined before it returns what the transport returned. *)
Theorem node_runs_privately fuel env uid evs r :
  trace (node_main from_utf8_lossy describe package_version fuel env uid []) evs (Some (Some r)) →
  match node_from_env env uid with
  | Err error => evs = [GEvent InitLogging tt] ∧ r = Err (NM.Configuration error)
  | Ok config =>
      (∃ error, r = Err (NM.Io error)) ∨
      ∃ served ended, trace (transport_run from_utf8_lossy describe config fuel) served (Some (Some ended)) ∧
        r = map_err NM.Transport ended ∧
        evs = ([GEvent InitLogging tt; GEvent (CreateStateDirectory (nc_state_directory config)) (Ok tt);
                GEvent (SetStateDirectoryMode (nc_state_directory config) 448) (Ok tt);
                GEvent ListenForInterrupt (Ok tt); GEvent ListenForTerminate (Ok tt);
                GEvent SpawnSignalTask tt] ++ map (event_map on_transport) served ++
               [GEvent CancelToken tt; GEvent JoinSignalTask tt])%list
  end.
Proof.
  unfold node_main. cbn [node_arguments].
  intros [[_ ?]|(e0 & evs' & [] & -> & ->%trace_perform & Ht)]%trace_bind_inv; [done|].
  destruct (node_from_env env uid) as [config|error].
  2:{ apply trace_ret_inv in Ht as [-> [= ->]]. done. }
  unfold serve_node in Ht. apply trace_bind_inv in Ht as [[_ ?]|(e1 & e2 & prepared & -> & Hp & Ht)]; [done|].
  destruct prepared as [[]|error].
  2:{ left. apply trace_ret_inv in Ht as [-> [= ->]].
      destruct (prepare_node_error _ _ _ Hp) as [source ->]. eauto. }
  right. apply prepare_node_trace in Hp as ->.
  apply trace_bind_inv in Ht as [[_ ?]|(e3 & e4 & [] & -> & ->%trace_perform & Ht)]; [done|].
  apply trace_bind_inv in Ht as [[_ ?]|(e5 & e6 & ended & -> & Hm & Ht)]; [done|].
  apply trace_map_inv in Hm as (served & -> & Hm). destruct ended as [ended|].
  2:{ by apply trace_ret_inv in Ht as [_ [=]]. }
  apply trace_bind_inv in Ht as [[_ ?]|(e7 & e8 & [] & -> & ->%trace_perform & Ht)]; [done|].
  apply trace_bind_inv in Ht as [[_ ?]|(e9 & e10 & [] & -> & ->%trace_perform & Ht)]; [done|].
  apply trace_ret_inv in Ht as [-> [= ->]]. exists served, ended. by rewrite !app_nil_r.
Qed.
End properties.

Section connect.
(** rustls: configurations of a client and names of servers. *)
Context {ClientConfig ServerName : Type}.

Inductive connect_op : Type → Type :=
| TcpConnect (address : string) : connect_op (result io_error unit)
| SetNodelay : connect_op (result io_error unit)
| ReadPem (path : string) : connect_op (result io_error string)
| TlsHandshake (client : ClientConfig) (name : ServerName) : connect_op (result io_error unit).

(** rustls and rustls_pemfile: the certificates and the private key of a PEM file, a root
    of trust, the configuration with these roots and, if any, this identity, and the
    name that the certificate of the server has to have. *)
Variable pem_certs : string → result io_error (list string).
Variable pem_private_key : string → result io_error (option string).
Variable root_certificate : string → result string unit.
Variable with_client_auth : list string → option (list string * string) → result string ClientConfig.
Variable server_name : string → result string ServerName.

Variable config : NodeConfig.

(** The agent's certificates and their private key. *)
Definition client_identity : gprog connect_op (result TransportError (list string * string)) :=
  let? certificate_pem := perform (ReadPem (credential_path config CertificateFile)) via TE.Io in
  let? certificates := Ret (pem_certs certificate_pem) via TE.Io in
  if bool_decide (certificates = [])
  then Ret (Err (TE.TlsConfiguration "client certificate file contains no certificates"))
  else
    let? private_key_pem := perform (ReadPem (credential_path config PrivateKeyFile)) via TE.Io in
    let? private_key := Ret (pem_private_key private_key_pem) via TE.Io in
    let? private_key := Ret (ok_or (TE.TlsConfiguration
      "client private key file contains no supported private key") private_key) via id in
    Ret (Ok (certificates, private_key)).

Definition connect (use_client_identity : bool) : gprog connect_op (result TransportError unit) :=
  let? _ := perform (TcpConnect (nc_control_plane_address config)) via TE.Io in
  let? _ := perform SetNodelay via TE.Io in
  match nc_tls config with
  | None => Ret (Ok tt)
  | Some tls =>
      let? ca_pem := perform (ReadPem (ca_certificate tls)) via TE.Io in
      let? certificates := Ret (pem_certs ca_pem) via TE.Io in
      if bool_decide (certificates = [])
      then Ret (Err (TE.TlsConfiguration "CA certificate file contains no certificates"))
      else
        let? _ := Ret (for_each root_certificate certificates) via TE.TlsConfiguration in
        let? identity :=
          (if use_client_identity
           then let? identity := client_identity via id in Ret (Ok (Some identity))
           else Ret (Ok None)) via id in
        let? client_config := Ret (with_client_auth certificates identity) via TE.TlsConfiguration in
        let? name := Ret (server_name (tls_server_name tls)) via TE.TlsConfiguration in
        let? _ := perform (TlsHandshake client_config name) via TE.Io in
        Ret (Ok tt)
  end.

(** ** Connections *)

(** The agent's own certificates and key, as its files have them. *)
Definition identity_of (evs : list (gevent connect_op)) (certificates : list string) (key : string) : Prop :=
  ∃ certificate_pem key_pem,
    evs = [GEvent (ReadPem (credential_path config CertificateFile)) (Ok certificate_pem);
           GEvent (ReadPem (credential_path config PrivateKeyFile)) (Ok key_pem)] ∧
    pem_certs certificate_pem = Ok certificates ∧ certificates ≠ [] ∧
    pem_private_key key_pem = Ok (Some key).

Lemma client_identity_ok evs certificates key :
  trace client_identity evs (Some (Ok (certificates, key))) → identity_of evs certificates key.
Proof.
  unfold client_identity.
  intros (e1 & ? & certificate_pem & -> & ->%trace_perform & Ht)%trace_try_ok.
  apply trace_try_ok in Ht as (e2 & ? & certificates' & -> & [-> Hc]%trace_ret_inv & Ht).
  case_bool_decide; [by apply trace_ret_inv in Ht as [_ ?]|].
  apply trace_try_ok in Ht as (e3 & ? & key_pem & -> & ->%trace_perform & Ht).
  apply trace_try_ok in Ht as (e4 & ? & found & -> & [-> Hk]%trace_ret_inv & Ht).
  apply trace_try_ok in Ht as (e5 & ? & key' & -> & [-> Ho]%trace_ret_inv & Ht).
  apply trace_ret_inv in Ht as [-> [= -> ->]]. symmetry in Ho. apply ok_or_ok in Ho as ->.
  by exists certificate_pem, key_pem.
Qed.

(** How a connection was made: TLS, or plain TCP when the configuration has no TLS. *)
Definition made (use_client_identity : bool) (evs : list (gevent connect_op)) : Prop :=
  match nc_tls config with
  | None => evs = []
  | Some tls => ∃ ca_pem roots identity e client name,
      evs = (GEvent (ReadPem (ca_certificate tls)) (Ok ca_pem) :: e ++
             [GEvent (TlsHandshake client name) (Ok tt)])%list ∧
      pem_certs ca_pem = Ok roots ∧ roots ≠ [] ∧ Forall (λ root, root_certificate root = Ok tt) roots ∧
      with_client_auth roots identity = Ok client ∧ server_name (tls_server_name tls) = Ok name ∧
      match identity with
      | Some (certificates, key) => use_client_identity = true ∧ identity_of e certificates key
      | None => use_client_identity = false ∧ e = []
      end
  end.

Lemma connect_ok use_client_identity evs : trace (connect use_client_identity) evs (Some (Ok tt)) →
  ∃ rest, evs = (GEvent (TcpConnect (nc_control_plane_address config)) (Ok tt) ::
                 GEvent SetNodelay (Ok tt) :: rest)%list ∧ made use_client_identity rest.
Proof.
  unfold connect, made. intros (e1 & ? & [] & -> & ->%trace_perform & Ht)%trace_try_ok.
  apply trace_try_ok in Ht as (e2 & rest & [] & -> & ->%trace_perform & Ht).
  exists rest. split; [done|]. destruct (nc_tls config) as [tls|].
  2:{ by apply trace_ret_inv in Ht as [-> _]. }
  apply trace_try_ok in Ht as (e3 & ? & ca_pem & -> & ->%trace_perform & Ht).
  apply trace_try_ok in Ht as (e4 & ? & roots & -> & [-> Hroots]%trace_ret_inv & Ht).
  case_bool_decide; [by apply trace_ret_inv in Ht as [_ ?]|].
  apply trace_try_ok in Ht as (e5 & ? & [] & -> & [-> Hadd]%trace_ret_inv & Ht).
  apply trace_try_ok in Ht as (e6 & ? & identity & -> & Hid & Ht).
  apply trace_try_ok in Ht as (e7 & ? & client & -> & [-> Hclient]%trace_ret_inv & Ht).
  apply trace_try_ok in Ht as (e8 & ? & name & -> & [-> Hname]%trace_ret_inv & Ht).
  apply trace_try_ok in Ht as (e9 & ? & [] & -> & ->%trace_perform & [-> _]%trace_ret_inv).
  exists ca_pem, roots, identity, e6, client, name.
  symmetry in Hadd. apply for_each_ok in Hadd. split_and!; try done.
  destruct use_client_identity; [|by apply trace_ret_inv in Hid as [-> [= ->]]].
  apply trace_try_ok in Hid as (e10 & ? & [certificates key] & -> & Hid & [-> [= ->]]%trace_ret_inv).
  rewrite app_nil_r. split; [done|]. by apply client_identity_ok.
Qed.
End connect.

Section secrecy.
Context `{Codec} {ClientConfig ServerName : Type}.
Context (pem_certs : string → result io_error (list string)).
Context (pem_private_key : string → result io_error (option string)).
Context (root_certificate : string → result string unit).
Context (with_client_auth : list string → option (list string * string) → result string ClientConfig).
Context (server_name : string → result string ServerName).

(** C37. A node agent talks to its control plane in private: every connection that an
    accepted configuration leads to is plain TCP to a loopback address of its own host, or
    TLS with the certificates of the configured file as the only roots of trust and the
    configured name for the server, where the agent shows its own certificate exactly
    when it is asked to; so its tokens never reach another host in clear text. *)
Theorem connections_are_private env uid n use_client_identity evs :
  node_from_env env uid = Ok n →
  trace (connect pem_certs pem_private_key root_certificate with_client_auth server_name n
    use_client_identity) evs (Some (Ok tt)) →
  ∃ rest, evs = (GEvent (TcpConnect (nc_control_plane_address n)) (Ok tt) ::
                 GEvent SetNodelay (Ok tt) :: rest)%list ∧
    made pem_certs pem_private_key root_certificate with_client_auth server_name n use_client_identity rest ∧
    (rest = [] → ∃ address, parse_socket_addr (nc_control_plane_address n) = Some address ∧
       is_loopback (sa_ip address) = true) ∧
    (∀ tls, nc_tls n = Some tls → dns_name_ok (tls_server_name tls) = true).
Proof.
  intros Hn (rest & -> & Hmade)%connect_ok.
  destruct (accepted_agent_configuration_is_safe _ _ _ Hn) as (Hplain & Htls & _).
  exists rest. split_and!; [done..| |done]. intros ->. apply Hplain.
  unfold made in Hmade. destruct (nc_tls n); [|done]. by destruct Hmade as (? & ? & ? & ? & ? & ? & ? & _).
Qed.
End secrecy.

Section witnesses.
#[local] Existing Instance bits_codec.

Definition example_tls_env : environment_vars := with_vars [
  ("MCSERVER_NODE_AGENT_CONTROL_PLANE_ADDRESS", "control.example.com:39002");
  ("MCSERVER_NODE_AGENT_TLS_CA_CERTIFICATE", "/etc/agent/ca.pem");
  ("MCSERVER_NODE_AGENT_TLS_SERVER_NAME", "control.example.com");
  ("MCSERVER_NODE_AGENT_COMPUTE_INSTANCE_ID", bits_of_pos (N.succ_pos 13));
  ("MCSERVER_NODE_AGENT_CONNECTION_TOKEN", "token");
  ("MCSERVER_NODE_AGENT_STATE_DIRECTORY", "/var/lib/agent")] (λ _, None).
Abbreviation example_op := (@connect_op (list string * option (list string * string)) string).
Definition example_connect (n : NodeConfig) : gprog example_op (result TransportError unit) :=
  connect (λ pem, Ok [pem]) (λ pem, Ok (Some pem)) (λ _, Ok tt) (λ roots identity, Ok (roots, identity))
    (λ name, Ok name) n true.
Definition example_connected (X : Type) (o : example_op X) : option X :=
  match o in @connect_op _ _ Y return option Y with
  | ReadPem path => Some (Ok path)
  | TcpConnect _ | SetNodelay | TlsHandshake _ _ => Some (Ok tt)
  end.

Lemma connections_are_private_witness : ∃ n rest, node_from_env example_tls_env (Ok 0) = Ok n ∧
  made (λ pem, Ok [pem]) (λ pem, Ok (Some pem)) (λ _, Ok tt) (λ roots identity, Ok (roots, identity))
    (λ name, Ok name) n true rest ∧ rest ≠ [].
Proof.
  destruct (node_from_env example_tls_env (Ok 0)) as [n|] eqn:Hn.
  2:{ exfalso. assert (is_ok (node_from_env example_tls_env (Ok 0)) = true) as Hok by by vm_compute.
      by rewrite Hn in Hok. }
  pose proof (replay_trace example_connected (example_connect n)) as Ht.
  assert (match node_from_env example_tls_env (Ok 0) with
    | Ok n => match (replay example_connected (example_connect n)).2 with Some (Ok _) => true | _ => false end
              && is_some (nc_tls n)
    | Err _ => false end = true) as Hok by by vm_compute.
  rewrite Hn in Hok. destruct (replay example_connected (example_connect n)).2 as [[[]|]|]; try done.
  unfold example_connect in Ht.
  destruct (connections_are_private _ _ _ _ _ _ _ _ _ _ Hn Ht) as (rest & _ & Hmade & _).
  exists n, rest. split_and!; [done..|]. intros ->. unfold made in Hmade. destruct (nc_tls n); [|done].
  by destruct Hmade as (? & ? & ? & ? & ? & ? & ? & _).
Defined.
End witnesses.
