(* ===== verification/FramingProperties.v ===== *)
(** What reading frames guarantees: a frame is the next line of the stream,
    however the stream arrives in pieces, and messages written one after another
    are read back one after another. *)
From S2P Require Import Prelude Text JsonRpc Framing Server Database Effects NodeConfig NodeAgent.
From S2P Require Import NodeTransport AgentServer Codecs.
#[local] Open Scope string_scope.
#[local] Open Scope Z_scope.

(** C22. Reading a frame is the same as splitting the whole stream at its first
    newline: the chunks in which the bytes arrive do not matter. A line longer
    than the maximum is refused after at most its own length, an error of the
    stream is reported when it comes before the line is complete, and otherwise
    exactly the line is consumed; at the end of the stream what is left is the
    last line. *)
Theorem read_frame_is_first_line {E} (from_io : io_error → E) frame_too_large reader maximum :
  0 ≤ maximum < u64_max →
  let '(r, frame, reader') := read_frame from_io frame_too_large reader maximum in
  line_read from_io frame_too_large [] maximum (stream_bytes reader) (stream_error reader)
    r frame reader'.
Proof. exact (read_frame_loop_spec from_io frame_too_large reader [] maximum). Qed.

(** Messages written one after another, each within the frame limit, are read
    back as the same messages in the same order, whatever the chunks in which the
    bytes arrive; then the end of the stream is reported as a disconnection, and
    an error of the stream as that error. *)
Theorem messages_round_trip `{JsonTextLaws} {E} (from_io : io_error → E) frame_too_large serialization
    disconnected values written reader maximum :
  write_values serialization values = Ok written →
  Forall (λ v, ∀ line, write_value serialization v = Ok line → Z.of_nat (length line) ≤ maximum) values →
  0 ≤ maximum < u64_max → stream_bytes reader = written →
  read_values from_io frame_too_large serialization disconnected (S (length values)) reader maximum =
    ((Ok <$> values) ++ [Err (from_option from_io disconnected (stream_error reader))])%list.
Proof. apply read_values_of. Qed.

(** ** Examples *)

Section witnesses.
#[local] Existing Instances bits_json_text bits_json_text_laws.


Definition example_text : bytes := String.list_ascii_of_string "ab".

Lemma read_frame_is_first_line_witness :
  read_frame TE.Io TE.FrameTooLarge [Chunk example_text; Chunk (NEWLINE :: example_text)] 100 =
    (Ok 3, (example_text ++ [NEWLINE])%list, [Chunk example_text]) ∧
  line_read TE.Io TE.FrameTooLarge [] 100 ((example_text ++ [NEWLINE]) ++ example_text)%list None
    (Ok 3) (example_text ++ [NEWLINE])%list [Chunk example_text].
Proof.
  split; [by vm_compute|].
  apply (read_frame_is_first_line TE.Io TE.FrameTooLarge
    [Chunk example_text; Chunk (NEWLINE :: example_text)] 100). vm_compute; split; done.
Defined.

Definition example_messages : list json := [JString "a"; JNull].
Definition example_written : bytes :=
  match write_values ASE.Serialization example_messages with Ok w => w | Err _ => [] end.

Lemma messages_round_trip_witness :
  read_values ASE.Io ASE.FrameTooLarge ASE.Serialization ASE.Disconnected 3
    [Chunk (take 5 example_written); Chunk (drop 5 example_written)] 1000 =
  [Ok (JString "a"); Ok JNull; Err ASE.Disconnected].
Proof.
  apply (messages_round_trip ASE.Io ASE.FrameTooLarge ASE.Serialization ASE.Disconnected
    example_messages example_written
    [Chunk (take 5 example_written); Chunk (drop 5 example_written)] 1000).
  - by vm_compute.
  - repeat constructor; intros line [= <-]; by vm_compute.
  - by vm_compute.
  - by vm_compute.
Defined.
End witnesses.
