(* ===== verification/AgentProperties.v ===== *)
(** What the control plane guarantees about the agents connected to it: who is
    registered, which certificate an enrollment gives, and that a session's
    answers belong to its commands. *)
From S2P Require Import Prelude Text Programs JsonRpc Framing Server ServerFacts Instances.
From S2P Require Import InstanceFacts Database RowFacts Repositories ComputeRepository Invariant.
From S2P Require Import RepositoryFacts LifecycleFacts ComputeFacts Persistence.
From S2P Require Import Effects NodeConfig NodeAgent NodeTransport AgentServer.
From S2P Require Import Codecs MessageCodecs PersistenceProperties.
#[local] Open Scope string_scope.
#[local] Open Scope Z_scope.

(** ** Executions *)

Section executions.
Context `{CodecLaws}.

(** A repository call may fail before or after it took effect; everything else
    may be answered in any way. *)
Inductive agent_answer (db : Database) : ∀ {X}, agent_op X → X → Database → Prop :=
| agent_repo {A} (m : repo A) r db' : m db = (r, db') → agent_answer db (ARepo m) r db'
| agent_refused {A} (m : repo A) e : agent_answer db (ARepo m) (Err (RE.Database e)) db
| agent_lost {A} (m : repo A) r db' e :
    m db = (r, db') → agent_answer db (ARepo m) (Err (RE.Database e)) db'
| agent_world {X} (o : agent_op X) x :
    match o with ARepo _ => False | _ => True end → agent_answer db o x db.

(** Other tasks write to the database in between, and the connection may be
    dropped at any point. *)
Variable env : Database → Database → Prop.

Inductive agent_exec {A} :
    Database → agent_prog A → list (gevent agent_op) → Database → option A → Prop :=
| agent_ret db a : agent_exec db (Ret a) [] db (Some a)
| agent_stop db db1 p : rtc env db db1 → agent_exec db p [] db1 None
| agent_step {X} (o : agent_op X) k x db db1 db2 evs db' r :
    rtc env db db1 → agent_answer db1 o x db2 → agent_exec db2 (k x) evs db' r →
    agent_exec db (Op o k) (GEvent o x :: evs) db' r.

Lemma agent_exec_trace {A} db (p : agent_prog A) evs db' r : agent_exec db p evs db' r → trace p evs r.
Proof. induction 1; by constructor. Qed.

(** A successful repository call led from a database the execution had reached to
    one that it reached. *)
Definition repo_call_at (P P' : Database → Prop) (ev : gevent agent_op) : Prop :=
  match ev with
  | GEvent o x =>
      match o in agent_op X return X → Prop with
      | ARepo m => λ r, match r with Ok a => ∃ db db', P db ∧ P' db' ∧ m db = (Ok a, db') | Err _ => True end
      | _ => λ _, True
      end x
  end.

Lemma exec_repo_call {A} db (p : agent_prog A) e1 ev e2 db' r :
  agent_exec db p (e1 ++ ev :: e2) db' r →
  repo_call_at (λ db1, agent_exec db p e1 db1 None) (λ db1, agent_exec db p (e1 ++ [ev]) db1 None) ev.
Proof.
  revert db p. induction e1 as [|ev1 e1 IH]; intros db p He; cbn in He;
    inversion He as [| |X o k x ? db1 db2 evs ? ? Henv Ha He']; subst.
  - destruct Ha as [A' m r' db'' Hm|A' m e|A' m r' db'' e Hm|X o x Ho]; cbn; [|done|done|by destruct o].
    destruct r'; [|done]. exists db1, db''. split_and!; [by constructor| |done].
    eapply agent_step; [done|by apply agent_repo|by constructor].
  - specialize (IH _ _ He'). destruct ev as [Y o' y]. destruct o'; cbn in *; try done.
    destruct y; [|done]. destruct IH as (dba & dbb & Hp & Hp' & Hm). exists dba, dbb.
    split_and!; [by econstructor..|done].
Qed.
End executions.

(** ** Registration *)

Section registration.
Context `{CodecLaws}.
Context `{Deserialize Request} `{Deserialize AgentWireResponse} `{Serialize Response}.
Context `{Deserialize EnrollParams} `{Serialize EnrollResult}.
Context `{Deserialize RegisterParams} `{Serialize RegisterResult}.
Context (describe : AgentServerError → string) (context : ConnectionContext).
Context (peer : option string).

Definition authentication_accepted (c : ComputeInstanceId) (token : string)
    (past : list (gevent agent_op)) : Prop :=
  ∃ now earlier,
    GEvent (ARepo (ComputeInstanceRepository_authenticate_agent c (expected_provider context)
      token peer now)) (Ok AA.Accepted) :: GEvent ANow (Ok now) :: earlier `suffix_of` past.

(** The registration request was read, and the compute instance it names was
    authenticated with the token it presents and the certificate of the peer, at
    the time that the clock showed just before. *)
Definition authenticated (c : ComputeInstanceId) (past : list (gevent agent_op)) : Prop :=
  ∃ value request params,
    GEvent AReadFirst (Some (Ok value)) ∈ past ∧ from_value value = Ok request ∧
    req_method request = AGENT_REGISTER ∧ from_value (req_params request) = Ok params ∧
    register_protocol_version params = PROTOCOL_VERSION ∧ register_compute_instance_id params = c ∧
    authentication_accepted c (register_connection_token params) past.

(** An agent is registered only after that. *)
Definition registers (past : list (gevent agent_op)) {X} (o : agent_op X) : Prop :=
  match o with ARegister c _ => authenticated c past | _ => True end.
Definition registers_nothing {X} (o : agent_op X) : Prop :=
  match o with ARegister _ _ => False | _ => True end.

Lemma registers_nothing_registers X (o : agent_op X) : registers_nothing o → ∀ past, registers past o.
Proof. by destruct o. Qed.

Lemma galways_mono {A} (P P' : ∀ X, agent_op X → Prop) (Q : A → Prop) p :
  (∀ X o, P X o → P' X o) → galways P Q p → galways P' Q p.
Proof.
  intros HP. induction p as [a|X o k IH]; cbn; [done|]. intros [? ?]. split; auto.
Qed.

Lemma harmless_extends {A} (p : agent_prog A) past :
  galways (λ X o, registers_nothing o) (λ _, True) p →
  gtraced (λ past X o, registers past o) (λ past' _, past `suffix_of` past') past p.
Proof.
  intros Hp. eapply gtraced_post.
  - apply (galways_suffix _ (λ _, True)). eapply galways_mono; [|exact Hp]. intros X o Ho past'.
    by apply registers_nothing_registers.
  - by intros past' a [? _].
Qed.

Ltac harmless := repeat (galways_step; simplify_eq); try done.

Lemma write_response_harmless r : galways (λ X o, registers_nothing o) (λ _, True) (write_response r).
Proof. unfold write_response. harmless. Qed.
Lemma registration_request_id_harmless r :
  galways (λ X o, registers_nothing o) (λ _, True) (registration_request_id r).
Proof. unfold registration_request_id, write_response. harmless. Qed.
Lemma handle_enrollment_harmless r i p :
  galways (λ X o, registers_nothing o) (λ _, True) (handle_enrollment context r i p).
Proof.
  unfold handle_enrollment, enrollment_result, rejected, reject_registration, reject_invalid_params,
    validate_protocol_version, write_response. harmless.
Qed.
Lemma agent_session_harmless fuel id :
  galways (λ X o, registers_nothing o) (λ _, True) (agent_session describe fuel id).
Proof.
  revert id. induction fuel as [|fuel IH]; intros id; cbn [agent_session]; [done|].
  unfold exchange, racing, read_wire_response. harmless.
Qed.

(** What [admit_agent] has done when it admits. *)
Lemma admit_agent_traced params i past :
  gtraced (λ past X o, registers past o) (λ past' r, past `suffix_of` past' ∧
    match r with
    | Ok (Some _) => register_protocol_version params = PROTOCOL_VERSION ∧
        authentication_accepted (register_compute_instance_id params)
          (register_connection_token params) past'
    | _ => True
    end) past (admit_agent context params i peer).
Proof.
  unfold admit_agent, validate_protocol_version, rejected, reject_registration, write_response,
    runtime_environment_for_registration.
  gfollow; (split; [repeat (reflexivity || apply suffix_cons_r)|]); try exact Logic.I;
    (split; [by apply Z.eqb_eq|]); eexists _, _;
    repeat match goal with H : bool_decide _ = false |- _ => apply bool_decide_eq_false in H end;
    match goal with H : ¬ ?a ≠ AA.Accepted |- _ => destruct a; [|by destruct H] end;
    repeat (reflexivity || apply suffix_cons_r).
Qed.

Lemma handle_connection_traced fuel :
  gtraced (λ past X o, registers past o) (λ _ _, True) [] (handle_connection describe context fuel peer).
Proof.
  unfold handle_connection. apply gtraced_perform; [done|].
  intros [[value|error]|]; [|done|done]. destruct (from_value value) as [request|] eqn:Hreq; [|done].
  eapply gtraced_bind; [apply harmless_extends, registration_request_id_harmless|].
  intros past1 [i|error] Hpast1; [|done].
  assert (∀ p : agent_prog (result AgentServerError unit),
    galways (λ X o, registers_nothing o) (λ _, True) p →
    gtraced (λ past X o, registers past o) (λ _ _, True) past1 (prog_bind p (λ r, Ret (Some r)))) as Hh.
  { intros p Hp. eapply gtraced_bind; [by apply harmless_extends|]. done. }
  destruct (negb _); [apply Hh, write_response_harmless|].
  destruct (String.eqb (req_method request) AGENT_ENROLL); [apply Hh, handle_enrollment_harmless|].
  destruct (String.eqb_spec (req_method request) AGENT_REGISTER) as [Hm|]; cbn [negb].
  2:{ apply Hh. eapply galways_bind; [apply write_response_harmless|]. by intros []. }
  destruct (from_value (req_params request)) as [params|error] eqn:Hparams;
    [|apply Hh, write_response_harmless].
  eapply gtraced_bind; [apply admit_agent_traced|]. intros past2 [[[compute environment]|]|error] [Hpast2 Ha];
    [|done|done]. destruct Ha as (Hv & now & earlier & Ha).
  unfold serve_registered.
  eapply gtraced_bind; [apply harmless_extends|].
  { unfold write_response. harmless. }
  intros past3 [[]|error] Hpast3; [|done].
  apply gtraced_perform; [done|]. intros session. apply gtraced_perform.
  { exists value, request, params. split_and!; try done.
    - destruct Hpast1 as [? ->], Hpast2 as [? ->], Hpast3 as [? ->]. set_solver.
    - exists now, earlier. apply suffix_cons_r. by etrans. }
  intros []. apply gtraced_perform; [done|]. intros [].
  eapply gtraced_bind; [apply harmless_extends, agent_session_harmless|].
  intros past4 [ended|] _; [|done].
  apply gtraced_perform; [done|]. intros []. by apply gtraced_perform.
Qed.

(** The row that an accepted authentication has seen. *)
Definition admits (r : compute_instances_row) (provider : ComputeProvider) (token : string)
    (certificate : option string) (now : Z) : Prop :=
  cr_terminated_at_ms r = None ∧ cr_connection_token r = token ∧
  match provider with
  | CP.LocalProcess => cr_provider r = "local_process"
  | CP.Akamai => cr_provider r = "akamai" ∧ ∃ der expires, certificate = Some der ∧
      cr_agent_certificate_der r = Some der ∧
      cr_agent_certificate_expires_at_ms r = Some expires ∧ now < expires
  end.

Lemma update_one key cond set (db db' : Database) :
  update_compute_instances key cond set db = (Ok 1, db') →
  ∃ r, compute_instances db !! key = Some r ∧ cond r = true.
Proof.
  unfold update_compute_instances. destruct (compute_instances db !! key) as [r|]; [|done].
  destruct (cond r) eqn:Hc; [|done]. eauto.
Qed.

Lemma accepted_row id provider token certificate now db db' :
  ComputeInstanceRepository_authenticate_agent id provider token certificate now db =
    (Ok AA.Accepted, db') →
  ∃ r, compute_instances db !! uuid_to_string id = Some r ∧ admits r provider token certificate now.
Proof.
  unfold ComputeInstanceRepository_authenticate_agent. intros Hrun.
  assert (∀ cond set, (rows ← execute (update_compute_instances (uuid_to_string id) cond set);
    mret (if rows =? 1 then AA.Accepted else AA.Rejected)) db = (Ok AA.Accepted, db') →
    ∃ r, compute_instances db !! uuid_to_string id = Some r ∧ cond r = true) as Hup.
  { intros cond set Hu. rewrite run_bind in Hu. unfold execute in Hu.
    destruct (update_compute_instances (uuid_to_string id) cond set db) as [[rows|] db1] eqn:E;
      cbn in Hu; [|done]. destruct (Z.eqb_spec rows 1) as [->|]; [|by destruct rows as [|[]|]].
    by eapply update_one. }
  unfold admits. destruct provider.
  - apply Hup in Hrun as (r & Hr & Hc). exists r. split; [done|].
    rewrite !andb_true_iff, String.eqb_eq in Hc. destruct Hc as [[Hp Ht] Ha].
    apply String.eqb_eq in Hp. unfold cr_is_active in Ha. by destruct (cr_terminated_at_ms r).
  - destruct certificate as [der|]; [|done]. apply Hup in Hrun as (r & Hr & Hc). exists r.
    split; [done|]. rewrite !andb_true_iff, String.eqb_eq in Hc.
    destruct Hc as [[[[Hp Ht] Hd] He] Ha]. apply String.eqb_eq in Hp. unfold cr_is_active in Ha.
    unfold sql_eq in Hd. destruct (cr_agent_certificate_der r) as [der'|]; [|done].
    apply String.eqb_eq in Hd as <-. destruct (cr_agent_certificate_expires_at_ms r) as [t|]; [|done].
    cbn in He. apply Z.ltb_lt in He. destruct (cr_terminated_at_ms r); [done|].
    split_and!; [done..|]. by exists der, t.
Qed.

(** C14. An agent enters the registry only as the compute instance that its
    registration request names, and only after the database, as the connection
    found it, had that compute instance active with the presented token and, for
    a cloud machine, with the certificate the peer used, not expired at the time
    that the connection had just read from the clock. *)
Theorem registration_is_authenticated env db fuel evs db' out c s :
  agent_exec env db (handle_connection describe context fuel peer) evs db' out →
  GEvent (ARegister c s) tt ∈ evs →
  ∃ value request params now e1 db1 r,
    GEvent AReadFirst (Some (Ok value)) ∈ evs ∧ from_value value = Ok request ∧
    req_method request = AGENT_REGISTER ∧ from_value (req_params request) = Ok params ∧
    register_protocol_version params = PROTOCOL_VERSION ∧ register_compute_instance_id params = c ∧
    agent_exec env db (handle_connection describe context fuel peer) e1 db1 None ∧ e1 `prefix_of` evs ∧
    last e1 = Some (GEvent ANow (Ok now)) ∧
    compute_instances db1 !! uuid_to_string c = Some r ∧
    admits r (expected_provider context) (register_connection_token params) peer now.
Proof.
  intros He (e1 & e2 & ->)%list_elem_of_split. pose proof (agent_exec_trace _ _ _ _ _ _ He) as Ht.
  eapply trace_gtraced in Ht as [Hp _]; [|apply (handle_connection_traced fuel)].
  specialize (Hp e1 _ (ARegister c s) tt e2 eq_refl). rewrite app_nil_r in Hp.
  destruct Hp as (value & request & params & Hv & Hreq & Hm & Hparams & Hver & Hc & now & earlier & later & Ha).
  rewrite elem_of_rev in Hv. apply (f_equal (@rev _)) in Ha. rewrite rev_involutive in Ha.
  rewrite !rev_app_distr in Ha. cbn in Ha. subst e1. set (e3 := (rev earlier ++ [GEvent ANow (Ok now)])%list) in *.
  rewrite <- !app_assoc in He. cbn in He.
  pose proof (exec_repo_call _ _ _ _ _ _ _ _ He) as (dba & dbb & Hpre & _ & Hauth).
  apply accepted_row in Hauth as (r & Hr & Had).
  exists value, request, params, now, e3, dba, r. split_and!; try done.
  - set_solver.
  - rewrite <- !app_assoc. by eexists.
  - apply last_snoc.
Qed.
End registration.

(** ** Enrollment *)

Section enrollment.
Context `{CodecLaws}.
Context `{Deserialize Request} `{Serialize Response}.
Context `{Deserialize EnrollParams} `{Serialize EnrollResult}.
Context (context : ConnectionContext) (peer : option string).

(** The certificate chain and connection token are those the database has for the
    compute instance and the signing request. *)
Definition recorded_enrollment (c : ComputeInstanceId) (csr : string) (result : EnrollResult)
    (db : Database) : Prop :=
  ∃ r, compute_instances db !! uuid_to_string c = Some r ∧ cr_provider r = "akamai" ∧
    cr_terminated_at_ms r = None ∧ cr_agent_csr_pem r = Some csr ∧
    cr_agent_certificate_chain_pem r = Some (enrolled_client_certificate_chain_pem result).

(** How the past shows it. *)
Definition enrollment_known (params : EnrollParams) (result : EnrollResult)
    (past : list (gevent agent_op)) : Prop :=
  let c := enroll_compute_instance_id params in
  let csr := enroll_certificate_signing_request_pem params in
  (∃ e, GEvent (ARepo (ComputeInstanceRepository_get_agent_enrollment c
          (enroll_enrollment_token params))) (Ok (Some e)) ∈ past ∧
     ae_certificate_signing_request_pem e = Some csr ∧
     ae_certificate_chain_pem e = Some (enrolled_client_certificate_chain_pem result) ∧
     ae_connection_token e = enrolled_connection_token result) ∨
  (∃ record, GEvent (ARepo (ComputeInstanceRepository_record_agent_certificate c
          (enroll_enrollment_token params) record)) (Ok true) ∈ past ∧
     acr_certificate_signing_request_pem record = csr ∧
     acr_certificate_chain_pem record = enrolled_client_certificate_chain_pem result).

(** What may be written: an error, or a certificate that is recorded. *)
Definition enrollment_answer (request : Request) (past : list (gevent agent_op)) {X} (o : agent_op X) : Prop :=
  match o with
  | AWriteValue v => ∃ response, to_value response = Ok v ∧
      (is_Some (resp_error response) ∨
       ∃ params result value, from_value (req_params request) = Ok params ∧
         to_value result = Ok value ∧ resp_result response = Some value ∧
         enrollment_known params result past)
  | _ => True
  end.

Lemma handle_enrollment_traced request i :
  gtraced (λ past X o, enrollment_answer request past o) (λ _ _, True) []
    (handle_enrollment context request i peer).
Proof.
  unfold handle_enrollment, enrollment_result, rejected, reject_registration, reject_invalid_params,
    validate_protocol_version, write_response.
  gfollow; (eexists; split; [eassumption|]); try (left; by eexists).
  all: right; eexists _, _, _; (split_and!; [done|eassumption|done|]);
    repeat match goal with
    | H : String.eqb _ _ = true |- _ => apply String.eqb_eq in H; subst
    | H : negb _ = false |- _ => apply negb_false_iff in H
    | H : bool_decide _ = true |- _ => apply bool_decide_eq_true in H
    end.
  - left. eexists. split_and!; [apply list_elem_of_here|done..].
  - right. eexists. split_and!; [apply list_elem_of_here|done..].
  - left. eexists. split_and!; [apply list_elem_of_here|done| |done].
    by match goal with H : ok_or _ _ = Ok _ |- _ => apply ok_or_ok in H end.
Qed.

Lemma get_agent_enrollment_row c token e db db' :
  ComputeInstanceRepository_get_agent_enrollment c token db = (Ok (Some e), db') →
  db' = db ∧ ∃ r, compute_instances db !! uuid_to_string c = Some r ∧ cr_provider r = "akamai" ∧
    cr_terminated_at_ms r = None ∧ cr_enrollment_token r = Some token ∧
    cr_connection_token r = ae_connection_token e ∧
    cr_agent_csr_pem r = ae_certificate_signing_request_pem e ∧
    cr_agent_certificate_chain_pem r = ae_certificate_chain_pem e.
Proof.
  unfold ComputeInstanceRepository_get_agent_enrollment. rewrite run_bind. unfold query, lift. cbn.
  destruct (compute_instances db !! uuid_to_string c) as [r|]; [|done]. cbn.
  destruct (_ && cr_is_active r) eqn:Hc; [|done]. cbn.
  destruct (optional_timestamp (cr_agent_certificate_expires_at_ms r)); [|done].
  intros [= <- <-]. split; [done|]. exists r. rewrite !andb_true_iff in Hc.
  destruct Hc as [[Hp Ht] Ha]. apply String.eqb_eq in Hp. unfold sql_eq in Ht.
  destruct (cr_enrollment_token r); [|done]. apply String.eqb_eq in Ht as <-.
  unfold cr_is_active in Ha. by destruct (cr_terminated_at_ms r).
Qed.

Lemma record_agent_certificate_row c token record db db' :
  ComputeInstanceRepository_record_agent_certificate c token record db = (Ok true, db') →
  ∃ r, compute_instances db' !! uuid_to_string c = Some r ∧ cr_provider r = "akamai" ∧
    cr_terminated_at_ms r = None ∧
    cr_agent_csr_pem r = Some (acr_certificate_signing_request_pem record) ∧
    cr_agent_certificate_chain_pem r = Some (acr_certificate_chain_pem record).
Proof.
  unfold ComputeInstanceRepository_record_agent_certificate. rewrite run_bind. unfold execute.
  unfold update_compute_instances. destruct (compute_instances db !! uuid_to_string c) as [r|]; [|done].
  cbn. destruct (_ && cr_is_active r) eqn:Hc; [|done]. destruct (compute_instances_check _); [|done].
  intros [= <-]. cbn. eexists. rewrite lookup_insert_eq. split; [done|]. cbn.
  rewrite !andb_true_iff in Hc. destruct Hc as [[[Hp _] _] Ha]. apply String.eqb_eq in Hp.
  unfold cr_is_active in Ha. by destruct (cr_terminated_at_ms r).
Qed.

(** C15. Every response to an enrollment is an error, or carries the certificate
    chain that the database, at some point of the connection, has for the compute
    instance under the very signing request; so a repeated enrollment with the
    same request gives the same certificate. *)
Theorem enrollment_gives_recorded_certificate env db request i evs db' out v x :
  agent_exec env db (handle_enrollment context request i peer) evs db' out →
  GEvent (AWriteValue v) x ∈ evs →
  ∃ response, to_value response = Ok v ∧
    (is_Some (resp_error response) ∨
     ∃ params result value e1 db1, from_value (req_params request) = Ok params ∧
       to_value result = Ok value ∧ resp_result response = Some value ∧
       agent_exec env db (handle_enrollment context request i peer) e1 db1 None ∧ e1 `prefix_of` evs ∧
       recorded_enrollment (enroll_compute_instance_id params)
         (enroll_certificate_signing_request_pem params) result db1).
Proof.
  intros He (e1 & e2 & ->)%list_elem_of_split. pose proof (agent_exec_trace _ _ _ _ _ _ He) as Ht.
  eapply trace_gtraced in Ht as [Hp _]; [|apply (handle_enrollment_traced request i)].
  specialize (Hp e1 _ (AWriteValue v) x e2 eq_refl). rewrite app_nil_r in Hp.
  destruct Hp as (response & Hv & [Herr|(params & result & value & Hparams & Hval & Hres & Hk)]);
    exists response; (split; [done|]); [by left|right].
  exists params, result, value.
  destruct Hk as [(e & Hev & Hcsr & Hchain & _)|(record & Hev & Hcsr & Hchain)];
    rewrite elem_of_rev in Hev;
    apply list_elem_of_split in Hev as (e3 & e4 & ->); rewrite <- app_assoc in He; cbn in He;
    pose proof (exec_repo_call _ _ _ _ _ _ _ _ He) as (dba & dbb & Hpre & Hpost & Hrun).
  - apply get_agent_enrollment_row in Hrun as (_ & r & Hr & Hp & Ha & _ & _ & Hc & Hch).
    exists e3, dba. split_and!; [done..|rewrite <- app_assoc; by eexists|].
    exists r. by rewrite Hc, Hch, Hcsr, Hchain.
  - apply record_agent_certificate_row in Hrun as (r & Hr & Hp & Ha & Hc & Hch).
    eexists (e3 ++ [_])%list, dbb. split_and!; [done..|exact Hpost| |].
    + exists (e4 ++ GEvent (AWriteValue v) x :: e2)%list. by rewrite <- !app_assoc.
    + exists r. by rewrite Hc, Hch, Hcsr, Hchain.
Qed.
End enrollment.

(** ** Sessions *)

Section session.
Context `{Deserialize AgentWireResponse} (describe : AgentServerError → string).

(** No reply so far has made the session unusable. *)
Definition usable (ev : gevent agent_op) : Prop :=
  match ev with GEvent (AReply r) _ => session_unusable r = false | _ => True end.

(** The five steps that lead to an answer, the latest first. *)
Definition answered (v : json) (past : list (gevent agent_op)) : Prop :=
  ∃ method params id value response rest,
    past = GEvent AReadValue (Ok value) :: GEvent ARace StillRunning ::
           GEvent (AWriteRequest (request_object method params (JNumber (JInt id)))) (Ok tt) ::
           GEvent ARace StillRunning :: GEvent ANextInput (InputCommand method params) :: rest ∧
    from_value value = Ok response ∧ awr_jsonrpc response = VERSION ∧
    awr_id response = JNumber (JInt id) ∧ awr_result response = Some v ∧ awr_error response = None.

Definition in_step (past : list (gevent agent_op)) {X} (o : agent_op X) : Prop :=
  Forall usable past ∧ match o with AReply (Ok v) => answered v past | _ => True end.

Lemma command_result_ok id response v :
  command_result id response = Ok v →
  awr_jsonrpc response = VERSION ∧ awr_id response = JNumber (JInt id) ∧
  awr_result response = Some v ∧ awr_error response = None.
Proof.
  unfold command_result. destruct (String.eqb_spec (awr_jsonrpc response) VERSION); [|done].
  cbn. case_bool_decide; [|done]. cbn.
  destruct (awr_result response), (awr_error response); naive_solver.
Qed.

(** Answers after which the agent may still send what belongs to the command. *)
Definition out_of_step (r : result AgentCallError json) : Prop :=
  r = Err ACE.Timeout ∨ r = Err ACE.Disconnected ∨ (∃ source, r = Err (ACE.Io source)) ∨
  ∃ message, r = Err (ACE.Protocol message).

Lemma out_of_step_unusable r : out_of_step r → session_unusable r = true.
Proof. by intros [->|[->|[[? ->]|[? ->]]]]. Qed.

Lemma agent_session_traced fuel id past :
  Forall usable past →
  gtraced (λ past X o, in_step past o) (λ _ _, True) past (agent_session describe fuel id).
Proof.
  revert id past. induction fuel as [|fuel IH]; intros id past Hu; cbn [agent_session]; [done|].
  unfold exchange, racing, read_wire_response.
  gfollow; try (by split; [repeat constructor|]); try (apply IH; by repeat constructor).
  split; [by repeat constructor|]. destruct r as [v|]; [|done].
  destruct (from_value a0) as [response|] eqn:Hr; cbn in *; simplify_eq.
  match goal with Hc : command_result _ _ = Ok _ |- _ =>
    apply command_result_ok in Hc as (? & ? & ? & ?) end.
  destruct a. by exists method, params, id, a0, response, past.
Qed.

(** C17. A session stays in step with its agent. A command is answered with a result
    only when the message read right after its own request was written is a
    response with the request's id; and after a timeout, a disconnection, an I/O
    or a protocol error nothing more is read or written on the connection, so no
    late response can be taken for the answer to another command. *)
Theorem session_stays_in_step fuel evs out :
  trace (agent_session describe fuel 1) evs out →
  (∀ e1 v e2, evs = (e1 ++ GEvent (AReply (Ok v)) tt :: e2)%list → answered v (rev e1)) ∧
  (∀ e1 r e2, evs = (e1 ++ GEvent (AReply r) tt :: e2)%list → out_of_step r → e2 = []).
Proof.
  intros Ht. eapply trace_gtraced in Ht as [Hp _]; [|apply (agent_session_traced fuel 1 []); constructor].
  split.
  - intros e1 v e2 ->. specialize (Hp e1 _ (AReply (Ok v)) tt e2 eq_refl).
    rewrite app_nil_r in Hp. apply Hp.
  - intros e1 r e2 -> Hr%out_of_step_unusable. destruct e2 as [|[X o x] e2]; [done|]. exfalso.
    specialize (Hp (e1 ++ [GEvent (AReply r) tt])%list X o x e2).
    destruct Hp as [Hu _]; [by rewrite <- app_assoc|]. rewrite app_nil_r, rev_app_distr in Hu.
    apply Forall_cons in Hu as [Hu _]. cbn in Hu. by rewrite Hr in Hu.
Qed.
End session.

(** ** The registry *)

Inductive registry_op :=
| Registered (c : ComputeInstanceId) (session : Uuid)
| Unregistered (c : ComputeInstanceId) (session : Uuid).

Definition registry_apply (r : Registry) (o : registry_op) : Registry :=
  match o with
  | Registered c session => registry_register c session r
  | Unregistered c session => registry_unregister c session r
  end.

(** The newest session of [c], unless it has ended. *)
Definition current_session (h : list registry_op) (c : ComputeInstanceId) (session : Uuid) : Prop :=
  ∃ h1 h2, h = (h1 ++ Registered c session :: h2)%list ∧
    (∀ session', Registered c session' ∉ h2) ∧ Unregistered c session ∉ h2.

Lemma current_session_snoc h o c session :
  current_session (h ++ [o]) c session ↔
  o = Registered c session ∨
  (current_session h c session ∧ (∀ session', o ≠ Registered c session') ∧ o ≠ Unregistered c session).
Proof.
  split.
  - intros (h1 & h2 & Heq & Hr & Hu). destruct h2 as [|o' h3 _] using rev_ind.
    + apply app_inj_tail in Heq as [-> ->]. by left.
    + right. rewrite app_comm_cons, app_assoc in Heq. apply app_inj_tail in Heq as [-> ->].
      split_and!; [|set_solver..]. exists h1, h3. split; [done|]. set_solver.
  - intros [->|((h1 & h2 & -> & Hr & Hu) & Ho & Hu')].
    + exists h, []. split; [done|]. set_solver.
    + exists h1, (h2 ++ [o])%list. split; [by rewrite <- app_assoc|]. set_solver.
Qed.

(** Whatever registrations and ends of sessions happened, in any order, the
    registry has for a compute instance the session that was registered last
    unless that very session has ended: an old connection that ends late does not
    disconnect the agent's new one. *)
Theorem registry_has_newest_session h c session :
  foldl registry_apply ∅ h !! c = Some session ↔ current_session h c session.
Proof.
  revert c session. induction h as [|o h IH] using rev_ind; intros c session.
  { cbn. rewrite lookup_empty. split; [done|]. by intros ([] & ? & ? & _). }
  rewrite foldl_app, current_session_snoc, <- IH. cbn [foldl].
  destruct o as [c' session'|c' session']; cbn [registry_apply].
  - unfold registry_register. rewrite lookup_insert_Some. naive_solver.
  - unfold registry_unregister. destruct (foldl registry_apply ∅ h !! c') as [s|] eqn:Hc; cbn.
    + destruct (N.eqb_spec session' s) as [->|].
      * rewrite lookup_delete_Some. naive_solver.
      * naive_solver.
    + naive_solver.
Qed.

(** ** Examples *)

Section witnesses.
#[local] Existing Instance bits_codec.
#[local] Existing Instance bits_codec_laws.
#[local] Existing Instance request_from_json.
#[local] Existing Instance wire_response_from_json.
#[local] Existing Instance response_to_json.
#[local] Instance: Serialize EnrollResult := bits_to_value EnrollResult.
#[local] Instance: Deserialize EnrollParams := bits_from_value EnrollParams.
#[local] Instance: Serialize RegisterResult := bits_to_value RegisterResult.
#[local] Instance: Deserialize RegisterParams := bits_from_value RegisterParams.

(** A run in which no other task interferes: [respond] answers for the world. *)
Fixpoint agent_eval {A} (respond : ∀ X, agent_op X → option X) (p : agent_prog A) (db : Database) :
    list (gevent agent_op) * Database :=
  match p with
  | Ret a => ([], db)
  | @Op _ _ X o k =>
      match o in agent_op Y return (Y → list (gevent agent_op) * Database) →
          (Y → Database → list (gevent agent_op) * Database) → list (gevent agent_op) * Database with
      | ARepo m => λ _ continue, let '(r, db1) := m db in continue r db1
      | o => λ stay _, match respond _ o with Some x => stay x | None => ([], db) end
      end (λ x, let '(evs, db') := agent_eval respond (k x) db in (GEvent o x :: evs, db'))
          (λ x db1, let '(evs, db') := agent_eval respond (k x) db1 in (GEvent o x :: evs, db'))
  end.

Lemma agent_eval_exec {A} respond (p : agent_prog A) db :
  ∃ out, agent_exec (λ _ _, False) db p (agent_eval respond p db).1 (agent_eval respond p db).2 out.
Proof.
  revert db. induction p as [a|X o k IH]; intros db.
  { exists (Some a). constructor. }
  destruct o; cbn [agent_eval];
    try (match goal with |- context [respond ?Y ?o] => destruct (respond Y o) as [x|] end;
         [|exists None; by constructor];
         destruct (IH x db) as [out Hx]; destruct (agent_eval respond (k x) db) as [evs db'] eqn:E;
         exists out; cbn in *; eapply agent_step; [done|by apply agent_world|done]).
  destruct (m db) as [r db1] eqn:E. destruct (IH r db1) as [out Hx].
  destruct (agent_eval respond (k r) db1) as [evs db'] eqn:E'. exists out. cbn in *.
  eapply agent_step; [done|by apply agent_repo|done].
Qed.

Definition registration_of (ev : gevent agent_op) : option (ComputeInstanceId * Uuid) :=
  match ev with GEvent (ARegister c s) _ => Some (c, s) | _ => None end.
Definition written_by (ev : gevent agent_op) : option json :=
  match ev with GEvent (AWriteValue v) _ => Some v | _ => None end.

Lemma registration_of_elem c s (evs : list (gevent agent_op)) :
  (c, s) ∈ omap registration_of evs → GEvent (ARegister c s) tt ∈ evs.
Proof.
  intros ([X o x] & Hin & He)%list_elem_of_omap. destruct o; cbn in He; try done.
  injection He as -> ->. by destruct x.
Qed.
Lemma written_by_elem v (evs : list (gevent agent_op)) :
  v ∈ omap written_by evs → ∃ x, GEvent (AWriteValue v) x ∈ evs.
Proof.
  intros ([X o x] & Hin & He)%list_elem_of_omap. destruct o; cbn in He; try done.
  injection He as ->. eauto.
Qed.

Definition agent_example_context : ConnectionContext := {|
  expected_provider := CP.Akamai; has_certificate_authority := true;
  has_server_instance_repository := true; has_r2_credentials := true |}.
Definition example_request (method : string) (params : result string json) : json :=
  request_object method (match params with Ok v => v | Err _ => JNull end) (JNumber (JInt 1)).
Definition example_register : json := example_request AGENT_REGISTER
  (bits_to_value RegisterParams {| register_protocol_version := PROTOCOL_VERSION;
     register_compute_instance_id := 13%N; register_connection_token := "token" |}).
Definition example_enroll : json := example_request AGENT_ENROLL
  (bits_to_value EnrollParams {| enroll_protocol_version := PROTOCOL_VERSION;
     enroll_compute_instance_id := 13%N; enroll_enrollment_token := "enroll";
     enroll_certificate_signing_request_pem := "csr" |}).

(** The agent sends [first]; the session ends at once. *)
Definition example_world (first : json) (X : Type) (o : agent_op X) : option X :=
  match o in agent_op Y return option Y with
  | ANow => Some (Ok 7000)
  | ANewSession => Some 99%N
  | AReadFirst => Some (Some (Ok first))
  | AReadValue => Some (Ok JNull)
  | AWriteValue _ => Some (Ok tt)
  | AWriteRequest _ => Some (Ok tt)
  | ASign _ _ _ => Some (Ok {| signed_certificate_chain_pem := "chain"; signed_leaf_der := "der";
                               signed_expires_at := 100000 |})
  | AR2Environment _ => Some (Ok [])
  | ARegister _ _ | AUnregister _ _ | AEnqueueInstance _ | AReply _ => Some tt
  | ANextInput => Some InputCancelled
  | ARace => Some StillRunning
  | ARepo _ => None
  end.

Definition example_describe (e : AgentServerError) : string := "error".

Lemma registration_is_authenticated_witness :
  ∃ db1 r token now, compute_instances db1 !! uuid_to_string 13%N = Some r ∧
    admits r CP.Akamai token (Some "der") now.
Proof.
  destruct (agent_eval_exec (example_world example_register)
    (handle_connection example_describe agent_example_context 5 (Some "der")) example_enrolled_db)
    as [out Hrun].
  destruct (registration_is_authenticated example_describe agent_example_context (Some "der")
    (λ _ _, False) example_enrolled_db 5 _ _ out 13%N 99%N Hrun)
    as (value & request & params & now & e1 & db1 & r & _ & _ & _ & _ & _ & _ & _ & _ & _ & Hr & Ha).
  { apply registration_of_elem. refine (bool_decide_eq_true_1 _ _). by vm_compute. }
  by exists db1, r, (register_connection_token params), now.
Defined.

Definition example_enroll_request : Request := {|
  req_jsonrpc := VERSION; req_method := AGENT_ENROLL;
  req_params := default JNull (json_get "params" example_enroll);
  req_id := RI.Present (JNumber (JInt 1)) |}.
Definition example_enrolled : json :=
  match bits_to_value EnrollResult {| enrolled_client_certificate_chain_pem := "chain";
                                      enrolled_connection_token := "token" |} with
  | Ok v => JObject [("id", JNumber (JInt 1)); ("jsonrpc", JString VERSION); ("result", v)]
  | Err _ => JNull
  end.

Lemma enrollment_gives_recorded_certificate_witness :
  ∃ params result db1, recorded_enrollment (enroll_compute_instance_id params)
    (enroll_certificate_signing_request_pem params) result db1.
Proof.
  destruct (agent_eval_exec (example_world example_enroll)
    (handle_enrollment agent_example_context example_enroll_request (JNumber (JInt 1)) None) example_db)
    as [out Hrun].
  destruct (written_by_elem example_enrolled (agent_eval (example_world example_enroll)
    (handle_enrollment agent_example_context example_enroll_request (JNumber (JInt 1)) None)
    example_db).1) as [x Hx].
  { refine (bool_decide_eq_true_1 _ _). by vm_compute. }
  destruct (enrollment_gives_recorded_certificate agent_example_context None (λ _ _, False) example_db
    example_enroll_request (JNumber (JInt 1)) _ _ out example_enrolled x Hrun Hx)
    as (response & Hv & [[e He]|(params & result & value & e1 & db1 & _ & _ & _ & _ & _ & Hrec)]).
  - apply (f_equal (λ r, match r with Ok v => is_some (json_get "error" v) | Err _ => false end)) in Hv.
    unfold to_value, response_to_json in Hv. rewrite He in Hv. vm_compute in Hv. discriminate Hv.
  - by exists params, result, db1.
Defined.

Definition example_session : list (gevent agent_op) :=
  [GEvent ANextInput (InputCommand AGENT_INSPECT (JObject []));
   GEvent ARace StillRunning;
   GEvent (AWriteRequest (request_object AGENT_INSPECT (JObject []) (JNumber (JInt 1)))) (Ok tt);
   GEvent ARace StillRunning;
   GEvent AReadValue (Ok (JObject [("id", JNumber (JInt 1)); ("jsonrpc", JString VERSION);
                                   ("result", json_accepted)]))].

Lemma session_stays_in_step_witness :
  trace (agent_session example_describe 2 1)
    (example_session ++ [GEvent (AReply (Ok json_accepted)) tt; GEvent ANextInput InputClosed])
    (Some (Some (Ok tt))) ∧
  answered json_accepted (rev example_session).
Proof.
  assert (trace (agent_session example_describe 2 1)
    (example_session ++ [GEvent (AReply (Ok json_accepted)) tt; GEvent ANextInput InputClosed])
    (Some (Some (Ok tt)))) as Ht.
  { by repeat (apply trace_op || apply trace_ret). }
  split; [exact Ht|].
  destruct (session_stays_in_step example_describe 2 _ _ Ht) as [Ha _].
  by apply (Ha example_session json_accepted [GEvent ANextInput InputClosed]).
Defined.
End witnesses.
