(* ===== verification/ProtocolProperties.v ===== *)
(** The control plane and a node agent together: a command of a session, the
    frames that carry it, what the agent runs for it and what the control plane
    makes of the response. *)
From S2P Require Import Prelude Text Programs JsonRpc Framing Server Instances Database.
From S2P Require Import Repositories Effects NodeConfig NodeAgent NodeSemantics NodeFacts.
From S2P Require Import NodeRequests NodeHealthy NodeProperties NodeTransport AgentServer.
From S2P Require Import Codecs MessageCodecs.
From stdpp Require Import countable.
#[local] Open Scope string_scope.
#[local] Open Scope Z_scope.

(** ** How messages are encoded *)

(** An [Option<Value>] field is [None] for [null]. *)
Definition non_null (o : option json) : option json :=
  match o with Some JNull => None | o => o end.

(** What the control plane reads in a response. *)
Definition wire_response (response : Response) : AgentWireResponse := {|
  awr_jsonrpc := resp_jsonrpc response;
  awr_result := non_null (resp_result response);
  awr_error := (λ e, {| eow_code := err_code e; eow_message := err_message e;
                        eow_data := non_null (err_data e) |}) <$> resp_error response;
  awr_id := resp_id response |}.

(** Documented behaviour of the derived [Serialize] and [Deserialize]: fields by
    their names, skipped when [None]. *)
Class ProtocolLaws `{Deserialize Request} `{Serialize Response} `{Deserialize AgentWireResponse} :
    Prop := {
  request_decodes method params id :
    from_value (request_object method params id) =
      Ok {| req_jsonrpc := VERSION; req_method := method; req_params := params;
            req_id := RI.Present id |};
  response_decodes response v :
    to_value response = Ok v → from_value v = Ok (wire_response response);
}.

Section protocol.
Context `{Codec} `{JsonText}.
Context `{ProtocolLaws}.
Context `{Deserialize AgentInspectParams} `{Deserialize RestoreDataParams}.
Context `{Deserialize StartServerParams} `{Deserialize StopServerParams}.
Context `{Deserialize SnapshotDataParams} `{Deserialize CleanupInstanceParams}.
Context `{Serialize AgentInspectResult} `{Serialize ChangedResult} `{Serialize SnapshotDataResult}.
Context `{Serialize ShutdownResult}.
Context (lossy : bytes → string) (describe : ExecutorError → string) (config : NodeConfig).

(** The control plane's request as the agent reads it, the agent's response as the
    control plane reads it. *)
Definition remote_call (id : Z) (method : string) (params : json) (n n' : node)
    (r : result AgentCallError json) : Prop :=
  ∃ request response_id_ response shutdown v wire,
    from_value (request_object method params (JNumber (JInt id))) = Ok request ∧
    response_id (req_id request) = Some response_id_ ∧
    node_run n (dispatch lossy describe config request response_id_) n' (Some (response, shutdown)) ∧
    to_value response = Ok v ∧ from_value v = Ok wire ∧ command_result id wire = r.

(** What the control plane sees of an answer. *)
Definition seen (a : result DispatchError json) : result AgentCallError json :=
  match a with
  | Ok JNull =>
      Err (ACE.Protocol "node-agent response must contain exactly one of result or error")
  | Ok v => Ok v
  | Err e =>
      let error := into_error_object describe e in
      Err (ACE.Remote (err_code error) (remote_message {| eow_code := err_code error;
        eow_message := err_message error; eow_data := non_null (err_data error) |}))
  end.

Lemma call_executes id method params n n' r :
  method ≠ EmptyString → params_are_structured params = true →
  remote_call id method params n n' r →
  ∃ a, node_run n (dispatch_method lossy config method params) n' (Some a) ∧ r = seen a.
Proof.
  intros Hm Hp (request & rid & response & shutdown & v & wire & Hreq & Hid & Hrun & Hv & Hw & <-).
  rewrite request_decodes in Hreq. injection Hreq as <-. injection Hid as <-.
  rewrite (response_decodes _ _ Hv) in Hw. injection Hw as <-. unfold dispatch in Hrun.
  unfold request_is_valid in Hrun. cbn [req_jsonrpc req_method req_id req_params id_is_valid] in Hrun.
  rewrite String.eqb_refl, Hp in Hrun. destruct method as [|c method]; [done|].
  cbn [str_is_empty negb andb] in Hrun. apply node_run_bind_inv in Hrun as (a & n1 & Hrun & Heq).
  apply node_run_ret_inv in Heq as [-> Heq].
  exists a. split; [done|]. destruct a as [value|e]; injection Heq as -> ->; unfold command_result; cbn.
  - rewrite bool_decide_eq_true_2 by done. cbn. by destruct value.
  - rewrite bool_decide_eq_true_2 by done. done.
Qed.


(** ** Snapshots the control plane is told of *)

(** A call whose answer decodes was answered by a success of the method. *)
Lemma answered_by {A B} `{Serialize B} `{Deserialize B} `{!SerdeLaws B} (f : A → B)
    (p : node_prog (result ExecutorError A)) call method pv n n' v reported :
  method ≠ EmptyString → params_are_structured pv = true →
  dispatch_method lossy config method pv = respond_with f p →
  remote_call call method pv n n' (Ok v) → from_value v = Ok reported →
  ∃ a, node_run n p n' (Some (Ok a)) ∧ reported = f a.
Proof.
  intros Hm Hst Hd Hcall Hrep. apply call_executes in Hcall as (answer & Hrun & Hseen); [|done..].
  rewrite Hd in Hrun. unfold respond_with, try_bind in Hrun.
  apply node_run_bind_inv in Hrun as (r & n1 & Hrun & Hret).
  destruct r as [a|e]; apply node_run_ret_inv in Hret as [-> ->]; [|done].
  destruct (to_value (f a)) as [w|] eqn:Hw; [|done]. cbn in Hseen.
  assert (v = w) as -> by (destruct w; naive_solver).
  rewrite (serde_round_trip _ _ Hw) in Hrep. injection Hrep as <-. by exists a.
Qed.

Context `{Serialize SnapshotDataParams} `{Deserialize SnapshotDataResult}.
Context `{!SerdeLaws SnapshotDataParams} `{!SerdeLaws SnapshotDataResult}.
Context `{Serialize AgentInspectParams} `{Deserialize AgentInspectResult}.
Context `{!SerdeLaws AgentInspectParams} `{!SerdeLaws AgentInspectResult}.

Lemma dispatch_snapshot params pv :
  to_value params = Ok pv →
  dispatch_method lossy config DATA_SNAPSHOT pv =
    respond_with Build_SnapshotDataResult (executor_snapshot_data lossy config params).
Proof.
  intros Hpv. change (dispatch_method lossy config DATA_SNAPSHOT pv) with
    (try_bind id (Ret (parse_params (A := SnapshotDataParams) pv)) (λ params,
      respond_with Build_SnapshotDataResult (executor_snapshot_data lossy config params))).
  unfold parse_params. by rewrite (serde_round_trip _ _ Hpv).
Qed.
Lemma dispatch_inspect params pv :
  to_value params = Ok pv →
  dispatch_method lossy config AGENT_INSPECT pv =
    respond_with id (executor_inspect lossy (inspect_instance params)).
Proof.
  intros Hpv. change (dispatch_method lossy config AGENT_INSPECT pv) with
    (try_bind id (Ret (parse_params (A := AgentInspectParams) pv)) (λ params,
      respond_with id (executor_inspect lossy (inspect_instance params)))).
  unfold parse_params. by rewrite (serde_round_trip _ _ Hpv).
Qed.

End protocol.

(** ** Examples *)

Section witnesses.
#[local] Existing Instances bits_codec bits_json_text.
#[local] Existing Instances request_from_json response_to_json wire_response_from_json.
#[local] Instance: Serialize SnapshotDataParams := bits_to_value SnapshotDataParams.
#[local] Instance: Deserialize SnapshotDataParams := bits_from_value SnapshotDataParams.
#[local] Instance: Serialize SnapshotDataResult := bits_to_value SnapshotDataResult.
#[local] Instance: Deserialize SnapshotDataResult := bits_from_value SnapshotDataResult.
#[local] Instance: Serialize AgentInspectParams := bits_to_value AgentInspectParams.
#[local] Instance: Deserialize AgentInspectParams := bits_from_value AgentInspectParams.
#[local] Instance: Serialize AgentInspectResult := bits_to_value AgentInspectResult.
#[local] Instance: Deserialize AgentInspectResult := bits_from_value AgentInspectResult.
#[local] Instance: SerdeLaws AgentInspectParams := bits_round_trip AgentInspectParams.
#[local] Instance: SerdeLaws AgentInspectResult := bits_round_trip AgentInspectResult.
#[local] Instance: SerdeLaws SnapshotDataParams := bits_round_trip SnapshotDataParams.
#[local] Instance: SerdeLaws SnapshotDataResult := bits_round_trip SnapshotDataResult.
(** The other messages do not occur in the examples. *)
#[local] Instance no_deserialize A : Deserialize A | 100 := λ _, Err "unexpected message".
#[local] Instance no_serialize A : Serialize A | 100 := λ _, Err "unexpected message".

Lemma error_from_to_json e :
  error_from_json (error_to_json e) =
    Some {| eow_code := err_code e; eow_message := err_message e; eow_data := non_null (err_data e) |}.
Proof. by destruct e as [code message [[]|]]. Qed.

#[local] Instance json_protocol_laws : ProtocolLaws.
Proof.
  constructor; [done|]. intros [jsonrpc result [e|] i] v [= <-].
  - unfold from_value, wire_response_from_json.
    destruct result as [[]|]; cbn -[error_from_json error_to_json];
      rewrite error_from_to_json; by destruct (error_to_json e) eqn:?.
  - by destruct result as [[]|].
Qed.

Definition node_describe (e : ExecutorError) : string := "error".
Definition encoded {A} `{Countable A} (a : A) : json :=
  match bits_to_value A a with Ok v => v | Err _ => JNull end.
Definition example_snapshot_params : json := encoded example_snapshot.
Definition example_snapshot_result : json := encoded {| snapshot_data_id := "snapshot-1" |}.
Definition example_inspect : AgentInspectParams := {| inspect_instance := example_instance |}.
Definition example_inspected : AgentInspectResult :=
  {| data_prepared := true; process_running := false; last_snapshot_id := Some "snapshot-1" |}.

(** A request that the agent answers. *)
Definition example_request (method : string) (params : json) : node_prog (Response * bool) :=
  dispatch example_lossy node_describe node_example_config
    {| req_jsonrpc := VERSION; req_method := method; req_params := params;
       req_id := RI.Present (JNumber (JInt 4)) |} (JNumber (JInt 4)).
Definition example_call : node_prog (Response * bool) :=
  example_request DATA_SNAPSHOT example_snapshot_params.
Definition node_snapshotted : node := (eval example_call node_restored).2.

Lemma example_remote_call :
  remote_call example_lossy node_describe node_example_config 4 DATA_SNAPSHOT example_snapshot_params
    node_restored node_snapshotted (Ok example_snapshot_result).
Proof.
  eexists _, _, _, _, _, _. split; [reflexivity|]. split; [reflexivity|].
  split. { apply eval_run_to. refine (surjective_pairing _). }
  split; [reflexivity|]. split; [apply response_decodes; reflexivity|]. by vm_compute.
Qed.

Lemma example_remote_inspect :
  remote_call example_lossy node_describe node_example_config 4 AGENT_INSPECT (encoded example_inspect)
    node_snapshotted (eval (example_request AGENT_INSPECT (encoded example_inspect)) node_snapshotted).2
    (Ok (encoded example_inspected)).
Proof.
  eexists _, _, _, _, _, _. split; [reflexivity|]. split; [reflexivity|].
  split. { apply eval_run_to. refine (surjective_pairing _). }
  split; [reflexivity|]. split; [apply response_decodes; reflexivity|]. by vm_compute.
Qed.


(** The snapshot is taken by an unanswered request and found by an inspection. *)
Lemma node_snapshotted_kept :
  rtc (node_event example_lossy node_example_config keeps_data) node_restored node_snapshotted.
Proof.
  apply rtc_once. change node_snapshotted with
    (eval (execute example_lossy node_example_config (NodeSnapshotData example_snapshot)) node_restored).2.
  by apply eval_event.
Qed.

End witnesses.
