(* ===== verification/LocalCompute.v ===== *)
(** The local compute manager
    (crates/mcserver-control-plane/src/infrastructure/local_compute.rs): one
    node-agent process per compute instance on the control plane's host. *)
From S2P Require Import Prelude Text Programs Server Instances Database Repositories.
From S2P Require Import ComputeRepository.
From S2P Require Import Effects.
#[local] Open Scope string_scope.
#[local] Open Scope Z_scope.
#[local] Open Scope prog_scope.

Definition LOCAL_RUNTIME_STATE_SCHEMA_VERSION : Z := 1.

Section local_compute.
Context `{Codec}.

(** [self.local_scope]. *)
Variable local_scope : string.

(** [load_local_runtime_state]; a missing file is [None]. *)
Definition load_local_runtime_state (c : ComputeInstanceId) :
    prog (result LocalComputeError (option LocalRuntimeState)) :=
  let? file := perform (ReadRuntimeFile c) via id in
  match file with
  | None => Ret (Ok None)
  | Some state =>
      if negb (lrs_schema_version state =? LOCAL_RUNTIME_STATE_SCHEMA_VERSION)
      then Ret (Err (LE.UnsupportedRuntimeStateSchemaVersion (lrs_schema_version state)))
      else Ret (Ok (Some state))
  end.

(** [runtime_process_matches]: the process is the one that was spawned, by
    boot id and start time, and is not a zombie. *)
Definition runtime_process_matches (state : LocalRuntimeState) :
    prog (result LocalComputeError bool) :=
  let? boot_id := perform ReadBootId via LE.Io in
  if negb (String.eqb boot_id (lrs_linux_boot_id state)) then Ret (Ok false)
  else
    let! current := perform (ReadProcessState (lrs_process_id state)) in
    match current with
    | Ok current =>
        Ret (Ok (negb (byte_among "ZXx" (lps_state current))
                 && (lps_start_time_ticks current =? lrs_linux_process_start_time_ticks state)))
    | Err IoNotFound => Ret (Ok false)
    | Err error => Ret (Err (LE.Io error))
    end.

(** [runtime_state.process_id == .. && .compute_instance_id == .. && .local_scope == ..]. *)
Definition runtime_state_is_ours (state : LocalRuntimeState) (c : ComputeInstanceId) (pid : Z) :
    bool :=
  (lrs_process_id state =? pid) && (lrs_compute_instance_id state =? c)%N
  && String.eqb (lrs_local_scope state) local_scope.

Definition process_is_running (compute : ComputeInstance) : prog (result LocalComputeError bool) :=
  let? tracked := perform (ChildTryWait (ci_id compute)) via LE.Io in
  match tracked with
  | Some true => Ret (Ok true)
  | Some false =>
      let! _ := perform (ChildRemove (ci_id compute)) in
      Ret (Ok false)
  | None =>
      match ci_process_id compute with
      | None => Ret (Ok false)
      | Some pid =>
          let? state := load_local_runtime_state (ci_id compute) via id in
          match state with
          | None => Ret (Ok false)
          | Some state =>
              if runtime_state_is_ours state (ci_id compute) pid
              then runtime_process_matches state
              else Ret (Ok false)
          end
      end
  end.

(** [capture_local_runtime_state]. *)
Definition capture_local_runtime_state (pid : Z) (c : ComputeInstanceId) :
    prog (result LocalComputeError LocalRuntimeState) :=
  let? boot_id := perform ReadBootId via LE.Io in
  let? process_state := perform (ReadProcessState pid) via LE.Io in
  Ret (Ok {| lrs_schema_version := LOCAL_RUNTIME_STATE_SCHEMA_VERSION;
             lrs_compute_instance_id := c; lrs_local_scope := local_scope;
             lrs_process_id := pid; lrs_linux_boot_id := boot_id;
             lrs_linux_process_start_time_ticks := lps_start_time_ticks process_state |}).

(** [spawn_agent]; the child's handle is known by its compute instance. *)
Definition spawn_agent (compute : ComputeInstance) : prog (result LocalComputeError Z) :=
  let c := ci_id compute in
  let? _ := perform (CreateStateDirectory c) via LE.Io in
  let? spawned := perform (SpawnProcess c (ci_connection_token compute)) via id in
  match spawned with
  | None =>
      let! _ := perform (KillChild c) in
      Ret (Err LE.MissingProcessId)
  | Some pid =>
      let! captured := capture_local_runtime_state pid c in
      match captured with
      | Err error =>
          let! _ := perform (KillChild c) in
          Ret (Err error)
      | Ok state =>
          let! stored := perform (StoreRuntimeFile c state) in
          match stored with
          | Err error =>
              let! _ := perform (KillChild c) in
              Ret (Err error)
          | Ok _ => Ret (Ok pid)
          end
      end
  end.

(** The first [match] of [ensure_for_instance]: the compute instance and
    whether it was just created. *)
Definition local_find_or_create (instance : ServerInstance) (now : Z) :
    prog (result LocalComputeError (ComputeInstance * bool)) :=
  let? active := perform (Repo (ComputeInstanceRepository_get_active_for_instance (si_id instance)))
    via LE.Repository in
  match active with
  | Some compute =>
      if bool_decide (ci_provider compute = CP.LocalProcess) then Ret (Ok (compute, false))
      else Ret (Err LE.WrongProvider)
  | None =>
      let! token := perform NewConnectionToken in
      let! id := perform NewUuid in
      let? created := create_for_instance id (si_id instance) CP.LocalProcess token None now via LE.Repository in
      match created with
      | Some compute => Ret (Ok (compute, true))
      | None => Ret (Err LE.CreateConflict)
      end
  end.

(** The [if !self.process_is_running(..)] of [ensure_for_instance]: spawns and
    records the process, and says whether it did. *)
Definition local_ensure_process (compute : ComputeInstance) : prog (result LocalComputeError bool) :=
  let? running := process_is_running compute via id in
  if (running : bool) then Ret (Ok false)
  else
    let? pid := spawn_agent compute via id in
    let? spawned_at := perform Now via LE.Timestamp in
    let! recorded := perform (Repo (ComputeInstanceRepository_record_process_id (ci_id compute)
      pid spawned_at)) in
    match recorded with
    | Ok true =>
        let! _ := perform (ChildInsert (ci_id compute)) in
        Ret (Ok true)
    | Ok false =>
        let! _ := perform (KillChild (ci_id compute)) in
        Ret (Err LE.MissingAfterUpdate)
    | Err error =>
        let! _ := perform (KillChild (ci_id compute)) in
        Ret (Err (LE.Repository error))
    end.

Definition LocalComputeManager_ensure_for_instance (instance : ServerInstance) (now : Z) :
    prog (result LocalComputeError (ComputeInstance * bool)) :=
  let? found := local_find_or_create instance now via id in
  let? spawned := local_ensure_process (found.1) via id in
  let? refreshed := perform (Repo (ComputeInstanceRepository_get (ci_id found.1)))
    via LE.Repository in
  match refreshed with
  | Some compute => Ret (Ok (compute, (found.2 || spawned)))
  | None => Ret (Err LE.MissingAfterUpdate)
  end.

(** The [match (tracked_child, compute.process_id)] of [delete]. *)
Definition local_stop_process (compute : ComputeInstance) (tracked : bool) :
    prog (result LocalComputeError unit) :=
  let c := ci_id compute in
  match tracked, ci_process_id compute with
  | true, _ => perform (WaitTrackedExit c)
  | false, Some pid =>
      let? state := load_local_runtime_state c via id in
      match state with
      | Some state =>
          if runtime_state_is_ours state c pid then perform (WaitUntrackedExit state)
          else Ret (Ok tt)
      | None => Ret (Ok tt)
      end
  | false, None => Ret (Ok tt)
  end.

Definition LocalComputeManager_delete (compute : ComputeInstance) :
    prog (result LocalComputeError bool) :=
  let c := ci_id compute in
  let? shutdown_requested_at := perform Now via LE.Timestamp in
  let? _ := perform (Repo (ComputeInstanceRepository_request_shutdown c shutdown_requested_at))
    via LE.Repository in
  let! connected := perform (IsConnected c) in
  let! _ := (if (connected : bool) then perform (CallShutdown c) else Ret (Ok false)) in
  let! tracked := perform (ChildRemove c) in
  let? _ := local_stop_process compute tracked via id in
  let? _ := perform (RemoveStateDirectory c) via id in
  let? deleted_at := perform Now via LE.Timestamp in
  let? changed := perform (Repo (ComputeInstanceRepository_terminate c CTR.Deleted None
    deleted_at)) via LE.Repository in
  Ret (Ok changed).

(** [stop_process_from_runtime_state] of an orphaned directory. *)
Definition stop_process_from_runtime_state (c : ComputeInstanceId) :
    prog (result LocalComputeError bool) :=
  let? state := load_local_runtime_state c via id in
  match state with
  | None => Ret (Ok false)
  | Some state =>
      if negb (lrs_compute_instance_id state =? c)%N
         || negb (String.eqb (lrs_local_scope state) local_scope)
      then Ret (Ok false)
      else
        let? matches := runtime_process_matches state via id in
        if negb matches then Ret (Ok false)
        else
          let? _ := perform (WaitUntrackedExit state) via id in
          Ret (Ok true)
  end.
End local_compute.
