(* ===== verification/LocalHost.v ===== *)
(** The local compute manager on its host
    (crates/mcserver-control-plane/src/infrastructure/local_compute.rs): the processes,
    files and Podman commands behind the local operations of Effects, and the reaping of
    what an earlier run left behind. *)
From S2P Require Import Prelude Text Net Programs Framing Server Instances Database Effects.
From S2P Require Import Config NodeAgent LocalCompute.
#[local] Open Scope string_scope.
#[local] Open Scope Z_scope.
#[local] Open Scope prog_scope.

Definition LOCAL_RUNTIME_STATE_FILE_NAME : string := "local-runtime.json".
Definition LINUX_BOOT_ID_PATH : string := "/proc/sys/kernel/random/boot_id".

(** The fields of [LocalComputeManager] that do not change. *)
Record LocalComputeManager := {
  lm_node_agent_binary : string;
  lm_node_agent_root : string;
  lm_podman_binary : string;
  lm_local_scope : string;
  lm_control_plane_address : string;
  lm_command_timeout : Z;
  lm_max_frame_bytes : Z;
  lm_control_timeout : Z;
  lm_process_stop_timeout : Z;
}.

Record OrphanReapSummary := {
  containers_removed : Z;
  processes_stopped : Z;
  state_directories_removed : Z;
}.
Definition OrphanReapSummary_default : OrphanReapSummary :=
  {| containers_removed := 0; processes_stopped := 0; state_directories_removed := 0 |}.

(** A quotation mark. *)
Definition QUOTE : string := String (Ascii.ascii_of_nat 34) EmptyString.

(** An entry of a directory; its name is [None] when it is not UTF-8. *)
Record directory_entry := {
  entry_name : option string;
  entry_is_dir : result io_error bool;
}.

Inductive host_op : Type → Type :=
(* a command's output, [None] when it did not end in time *)
| HostOutput (program : string) (arguments : list string) (limit : Z) :
    host_op (option (result io_error Output))
(* the code a command exits with *)
| HostStatus (program : string) (arguments : list string) : host_op (result io_error (option Z))
| HostReadText (path : string) : host_op (result io_error string)
| HostReadFile (path : string) : host_op (result io_error string)
| HostCreateFile (path : string) : host_op (result io_error unit)
| HostWriteAll (path content : string) : host_op (result io_error unit)
| HostSync (path : string) : host_op (result io_error unit)
| HostRename (from to : string) : host_op (result io_error unit)
| HostCreateDirectory (path : string) : host_op (result io_error unit)
| HostSetPermissions (path : string) (mode : Z) : host_op (result io_error unit)
| HostReadDirectory (path : string) : host_op (result io_error (list (result io_error directory_entry)))
| HostExists (path : string) : host_op bool
| HostInstant : host_op Z
| HostSleep (duration : Z) : host_op unit
(* the child process of a compute instance *)
| HostSpawn (c : ComputeInstanceId) (binary : string) (environment : list (string * string)) :
    host_op (result io_error unit)
| HostChildId (c : ComputeInstanceId) : host_op (option Z)
| HostChildKill (c : ComputeInstanceId) : host_op (result io_error unit)
| HostChildWait (c : ComputeInstanceId) : host_op (result io_error unit)
| HostChildWaitFor (c : ComputeInstanceId) (limit : Z) : host_op (option (result io_error unit))
(* a loop that goes on for longer than its clock allows *)
| HostForever : host_op Empty_set
(* the operations of the control plane that are not the host's *)
| HostOther {X} (o : op X) : host_op X.
Abbreviation host_prog := (gprog host_op).

(** ** Processes of Linux *)

(** [parse_linux_process_stat]; of the state's character the first byte is kept, which
    tells Z, X and x from all others. *)
Definition parse_linux_process_stat (value : string) : option LinuxProcessState :=
  '(_, rest) ← rsplit_once ")" value;
  let fields := str_split_whitespace rest in
  first ← fields !! 0%nat;
  state ← str_first_byte first;
  ticks ← fields !! 19%nat;
  start_time_ticks ← parse_u64 ticks;
  Some {| lps_state := state; lps_start_time_ticks := start_time_ticks |}.

Definition proc_path (process_id : Z) : string := "/proc/" ++ u64_to_string process_id.

Definition read_linux_boot_id : host_prog (result io_error string) :=
  let? text := perform (HostReadText LINUX_BOOT_ID_PATH) via id in
  Ret (Ok (str_trim text)).

Definition read_linux_process_state (process_id : Z) : host_prog (result io_error LinuxProcessState) :=
  let? encoded := perform (HostReadText (proc_path process_id ++ "/stat")) via id in
  Ret (ok_or (IoOther ("invalid " ++ proc_path process_id ++ "/stat data"))
    (parse_linux_process_stat encoded)).

(** The operations that look at a process. *)
Definition process_impl {X} (o : op X) : host_prog X :=
  match o in op X return host_prog X with
  | ReadBootId => read_linux_boot_id
  | ReadProcessState process_id => read_linux_process_state process_id
  | o => perform (HostOther o)
  end.

(** [runtime_process_matches] on the host. *)
Definition host_process_matches (state : LocalRuntimeState) : host_prog (result LocalComputeError bool) :=
  prog_interp (@process_impl) (runtime_process_matches state).

Definition send_signal (process_id : Z) (signal : string) : host_prog (result LocalComputeError unit) :=
  let? status := perform (HostStatus "kill" ["-" ++ signal; u64_to_string process_id]) via LE.Io in
  if bool_decide (status = Some 0) then Ret (Ok tt)
  else
    let! exists_ := perform (HostExists (proc_path process_id)) in
    if negb exists_ then Ret (Ok tt)
    else Ret (Err (LE.SignalFailed process_id signal status)).

(** [while started.elapsed() < timeout { .. sleep(interval) }]: whether the process went
    away in time. *)
Fixpoint wait_until_gone (fuel : nat) (state : LocalRuntimeState) (started timeout interval : Z) :
    host_prog (result LocalComputeError bool) :=
  match fuel with
  | O => Op HostForever (λ x : Empty_set, match x with end)
  | S fuel =>
      let! now := perform HostInstant in
      if timeout <=? now - started then Ret (Ok false)
      else
        let? matches := host_process_matches state via id in
        if negb matches then Ret (Ok true)
        else
          let! _ := perform (HostSleep interval) in
          wait_until_gone fuel state started timeout interval
  end.
(** The rounds a clock leaves for. *)
Definition wait_rounds (timeout interval : Z) : nat := (Z.to_nat (timeout / interval) + 2)%nat.

Definition TERM_INTERVAL : Z := 100 * 1000000.
Definition KILL_INTERVAL : Z := 50 * 1000000.
Definition KILL_TIMEOUT : Z := from_secs 2.

Definition wait_for_untracked_process_exit (state : LocalRuntimeState) (timeout : Z) :
    host_prog (result LocalComputeError unit) :=
  let? matches := host_process_matches state via id in
  if negb matches then Ret (Ok tt)
  else
    let? _ := send_signal (lrs_process_id state) "TERM" via id in
    let! started := perform HostInstant in
    let? gone := wait_until_gone (wait_rounds timeout TERM_INTERVAL) state started timeout TERM_INTERVAL
      via id in
    if (gone : bool) then Ret (Ok tt)
    else
      let? _ := send_signal (lrs_process_id state) "KILL" via id in
      let! kill_started := perform HostInstant in
      let? gone := wait_until_gone (wait_rounds KILL_TIMEOUT KILL_INTERVAL) state kill_started
        KILL_TIMEOUT KILL_INTERVAL via id in
      if (gone : bool) then Ret (Ok tt)
      else Ret (Err (LE.ProcessDidNotExit (lrs_process_id state))).

Definition wait_for_tracked_process_exit (c : ComputeInstanceId) (timeout : Z) :
    host_prog (result LocalComputeError unit) :=
  let! ended := perform (HostChildWaitFor c timeout) in
  match ended with
  | Some result => Ret (map_err LE.Io result)
  | None =>
      let? _ := perform (HostChildKill c) via LE.Io in
      let? _ := perform (HostChildWait c) via LE.Io in
      Ret (Ok tt)
  end.

Definition terminate_spawned_child (c : ComputeInstanceId) : host_prog unit :=
  let! killed := perform (HostChildKill c) in
  match killed with
  | Err _ => Ret tt
  | Ok _ =>
      let! _ := perform (HostChildWait c) in
      Ret tt
  end.

Section manager.
Context `{Codec}.
(** [String::from_utf8_lossy], and the JSON of a runtime state. *)
Variable from_utf8_lossy : bytes → string.
Variable runtime_state_to_json : LocalRuntimeState → result string string.
Variable runtime_state_from_json : string → result string LocalRuntimeState.
Variable self : LocalComputeManager.

(** ** Files *)

Definition state_directory (c : ComputeInstanceId) : string :=
  path_join (lm_node_agent_root self) (uuid_to_string c).

Definition store_local_runtime_state (directory : string) (state : LocalRuntimeState) :
    host_prog (result LocalComputeError unit) :=
  let path := path_join directory LOCAL_RUNTIME_STATE_FILE_NAME in
  let temporary := path_join directory (LOCAL_RUNTIME_STATE_FILE_NAME ++ ".tmp") in
  let? encoded := Ret (runtime_state_to_json state) via LE.RuntimeStateSerialization in
  let? _ := perform (HostCreateFile temporary) via LE.Io in
  let? _ := perform (HostWriteAll temporary encoded) via LE.Io in
  let? _ := perform (HostSync temporary) via LE.Io in
  let? _ := perform (HostRename temporary path) via LE.Io in
  let? _ := perform (HostSync directory) via LE.Io in
  Ret (Ok tt).

(** Reading and decoding the file of [load_local_runtime_state]. *)
Definition read_runtime_file (directory : string) :
    host_prog (result LocalComputeError (option LocalRuntimeState)) :=
  let! encoded := perform (HostReadFile (path_join directory LOCAL_RUNTIME_STATE_FILE_NAME)) in
  match encoded with
  | Err IoNotFound => Ret (Ok None)
  | Err error => Ret (Err (LE.Io error))
  | Ok encoded =>
      let? state := Ret (runtime_state_from_json encoded) via LE.RuntimeStateSerialization in
      Ret (Ok (Some state))
  end.

(** ** Podman *)

Definition run_podman_control (arguments : list string) : host_prog (result LocalComputeError Output) :=
  let! output := perform (HostOutput (lm_podman_binary self) arguments (lm_control_timeout self)) in
  match output with
  | None => Ret (Err LE.ControlCommandTimeout)
  | Some (Err error) => Ret (Err (LE.Io error))
  | Some (Ok output) =>
      if succeeded output then Ret (Ok output)
      else Ret (Err (LE.PodmanCommandFailed (out_status output)
        (bounded_diagnostic from_utf8_lossy (out_stderr output))))
  end.

Definition remove_state_directory_in_user_namespace (path : string) :
    host_prog (result LocalComputeError unit) :=
  let? _ := run_podman_control ["unshare"; "rm"; "-rf"; "--"; path] via id in
  Ret (Ok tt).

(** ** Spawning *)

(** The variables that [spawn_agent] sets for the agent. *)
Definition spawn_environment (c : ComputeInstanceId) (connection_token : string) : list (string * string) :=
  [("MCSERVER_NODE_AGENT_CONTROL_PLANE_ADDRESS", lm_control_plane_address self);
   ("MCSERVER_NODE_AGENT_COMPUTE_INSTANCE_ID", uuid_to_string c);
   ("MCSERVER_NODE_AGENT_CONNECTION_TOKEN", connection_token);
   ("MCSERVER_NODE_AGENT_STATE_DIRECTORY", state_directory c);
   ("MCSERVER_NODE_AGENT_LOCAL_SCOPE", lm_local_scope self);
   ("MCSERVER_NODE_AGENT_MAX_FRAME_BYTES", u64_to_string (lm_max_frame_bytes self));
   ("MCSERVER_NODE_AGENT_COMMAND_TIMEOUT_SECONDS",
    u64_to_string (as_secs (node_operation_timeout (lm_command_timeout self))))].

Definition create_state_directory (c : ComputeInstanceId) : host_prog (result io_error unit) :=
  let? _ := perform (HostCreateDirectory (state_directory c)) via id in
  perform (HostSetPermissions (state_directory c) 448).

(** The command of [spawn_agent], and the child's process id. *)
Definition spawn_process (c : ComputeInstanceId) (connection_token : string) :
    host_prog (result LocalComputeError (option Z)) :=
  let? _ := perform (HostSpawn c (lm_node_agent_binary self) (spawn_environment c connection_token))
    via LE.Spawn in
  let! process_id := perform (HostChildId c) in
  Ret (Ok process_id).

(** The operations of the local manager on the host. *)
Definition host_impl {X} (o : op X) : host_prog X :=
  match o in op X return host_prog X with
  | ReadBootId => read_linux_boot_id
  | ReadProcessState process_id => read_linux_process_state process_id
  | ReadRuntimeFile c => read_runtime_file (state_directory c)
  | StoreRuntimeFile c state => store_local_runtime_state (state_directory c) state
  | CreateStateDirectory c => create_state_directory c
  | SpawnProcess c connection_token => spawn_process c connection_token
  | KillChild c => terminate_spawned_child c
  | WaitTrackedExit c => wait_for_tracked_process_exit c (lm_process_stop_timeout self)
  | WaitUntrackedExit state => wait_for_untracked_process_exit state (lm_process_stop_timeout self)
  | RemoveStateDirectory c => remove_state_directory_in_user_namespace (state_directory c)
  | o => perform (HostOther o)
  end.

(** ** Reaping *)

(** A line of [podman ps]: the container's name, its labels, and whether the line has
    more fields than it should. *)
Definition container_fields (line : string) :
    string * option ServerInstanceId * option ComputeInstanceId * bool :=
  let fields := str_split "|" line in
  let field n := default EmptyString (fields !! n) in
  let id value := match uuid_parse_str value with Ok u => Some u | Err _ => None end in
  (str_trim (field 0%nat), id (field 1%nat), id (field 2%nat), is_some (fields !! 3%nat)).

Definition belongs_to_active_runtime (active : gmap ComputeInstanceId ServerInstanceId)
    (instance_id : option ServerInstanceId) (compute_id : option ComputeInstanceId)
    (has_extra_fields : bool) : bool :=
  negb has_extra_fields
  && match compute_id ≫= λ id, active !! id with
     | Some expected => bool_decide (Some expected = instance_id)
     | None => false
     end.

(** The loop over the containers: how many were removed. *)
Fixpoint reap_containers (active : gmap ComputeInstanceId ServerInstanceId) (lines : list string)
    (removed : Z) : host_prog (result LocalComputeError Z) :=
  match lines with
  | [] => Ret (Ok removed)
  | line :: lines =>
      if str_is_blank line then reap_containers active lines removed
      else
        let '(name, instance_id, compute_id, has_extra_fields) := container_fields line in
        if str_is_empty name then reap_containers active lines removed
        else if belongs_to_active_runtime active instance_id compute_id has_extra_fields
        then reap_containers active lines removed
        else
          let? _ := run_podman_control ["rm"; "--force"; "--ignore"; name] via id in
          reap_containers active lines (usize_saturating_add removed 1)
  end.

(** [stop_process_from_runtime_state] reads the file of the directory it is given. *)
Definition orphan_impl (directory : string) {X} (o : op X) : host_prog X :=
  match o in op X return host_prog X with
  | ReadRuntimeFile _ => read_runtime_file directory
  | o => host_impl o
  end.
Definition stop_orphan (directory : string) (c : ComputeInstanceId) :
    host_prog (result LocalComputeError bool) :=
  prog_interp (@orphan_impl directory) (stop_process_from_runtime_state (lm_local_scope self) c).

(** The loop over the state directories. *)
Fixpoint reap_directories (active : gmap ComputeInstanceId ServerInstanceId)
    (entries : list (result io_error directory_entry)) (summary : OrphanReapSummary) :
    host_prog (result LocalComputeError OrphanReapSummary) :=
  match entries with
  | [] => Ret (Ok summary)
  | Err error :: _ => Ret (Err (LE.Io error))
  | Ok entry :: entries =>
      match entry_is_dir entry with
      | Err error => Ret (Err (LE.Io error))
      | Ok false => reap_directories active entries summary
      | Ok true =>
          match entry_name entry with
          | None => reap_directories active entries summary
          | Some name =>
              match uuid_parse_str name with
              | Err _ => reap_directories active entries summary
              | Ok c =>
                  if is_some (active !! c) then reap_directories active entries summary
                  else
                    let path := path_join (lm_node_agent_root self) name in
                    let? stopped := stop_orphan path c via id in
                    let? _ := remove_state_directory_in_user_namespace path via id in
                    reap_directories active entries {|
                      containers_removed := containers_removed summary;
                      processes_stopped := if (stopped : bool)
                        then usize_saturating_add (processes_stopped summary) 1
                        else processes_stopped summary;
                      state_directories_removed :=
                        usize_saturating_add (state_directories_removed summary) 1 |}
              end
          end
      end
  end.

Definition list_containers_arguments : list string :=
  ["ps"; "--all"; "--filter"; "label=io.mcserver.managed=true"; "--filter";
   "label=io.mcserver.local-scope=" ++ lm_local_scope self; "--format";
   "{{.Names}}|{{.Label " ++ QUOTE ++ "io.mcserver.server-instance-id" ++ QUOTE
     ++ "}}|{{.Label " ++ QUOTE ++ "io.mcserver.compute-instance-id" ++ QUOTE ++ "}}"].

(** [collect::<HashMap<_, _>>]: the last pair of an id counts. *)
Definition active_computes (ownership : list (ComputeInstanceId * ServerInstanceId)) :
    gmap ComputeInstanceId ServerInstanceId := list_to_map (reverse ownership).

Definition reap_orphans (ownership : list (ComputeInstanceId * ServerInstanceId)) :
    host_prog (result LocalComputeError OrphanReapSummary) :=
  let active := active_computes ownership in
  let? output := run_podman_control list_containers_arguments via id in
  let listed := String.string_of_list_ascii (out_stdout output) in
  if negb (utf8_valid listed) then Ret (Err LE.InvalidPodmanOutputEncoding)
  else
    let? removed := reap_containers active (str_lines listed) 0 via id in
    let summary := {| containers_removed := removed; processes_stopped := 0;
                      state_directories_removed := 0 |} in
    let! entries := perform (HostReadDirectory (lm_node_agent_root self)) in
    match entries with
    | Err IoNotFound => Ret (Ok summary)
    | Err error => Ret (Err (LE.Io error))
    | Ok entries => reap_directories active entries summary
    end.
End manager.
