(* ===== verification/LocalHostProperties.v ===== *)
(** What the local compute manager does to its host: which processes it signals, and
    what reaping removes. *)
From S2P Require Import Prelude Text Net NetFacts Programs Framing Server Instances Database Codecs.
From S2P Require Import Effects Config NodeAgent LocalCompute LocalHost.
#[local] Open Scope string_scope.
#[local] Open Scope Z_scope.

#[local] Abbreviation history := (list (gevent host_op)).

(** ** The clock *)

(** The earliest time it can be: the last reading and what was slept since. *)
Fixpoint clock_floor (past : history) : option Z :=
  match past with
  | [] => None
  | GEvent o x :: past =>
      match o in host_op X return X → option Z with
      | HostInstant => λ now, Some now
      | HostSleep duration => λ _, (λ floor, floor + duration) <$> clock_floor past
      | _ => λ _, clock_floor past
      end x
  end.
(** [Instant] does not go back, and a sleep takes its time. *)
Fixpoint clock_ok (past : history) : Prop :=
  match past with
  | [] => True
  | GEvent o x :: past => clock_ok past ∧
      match o in host_op X return X → Prop with
      | HostInstant => λ now, ∀ floor, clock_floor past = Some floor → floor ≤ now
      | _ => λ _, True
      end x
  end.
(** The clock is as it was. *)
Definition same_clock (past past' : history) : Prop :=
  clock_floor past' = clock_floor past ∧ (clock_ok past' → clock_ok past).

Lemma same_clock_trans a b c : same_clock a b → same_clock b c → same_clock a c.
Proof. intros [H1 H2] [H3 H4]. split; [congruence|auto]. Qed.

Ltac same_clock := split; [reflexivity|cbn; tauto].

(** ** Looking at a process *)

Definition stat_path (state : LocalRuntimeState) : string := proc_path (lrs_process_id state) ++ "/stat".

(** The process that a stat file shows is the recorded one, and lives. *)
Definition stat_shows (state : LocalRuntimeState) (stat : string) : Prop :=
  ∃ p, parse_linux_process_stat stat = Some p ∧ byte_among "ZXx" (lps_state p) = false ∧
    lps_start_time_ticks p = lrs_linux_process_start_time_ticks state.

Definition is_check (e : gevent host_op) : Prop :=
  match e with GEvent o _ => match o with HostReadText _ => True | _ => False end end.

(** A look just now showed the process: same boot, same start. *)
Definition just_seen (state : LocalRuntimeState) (past : history) : Prop :=
  ∃ boot stat earlier,
    past = GEvent (HostReadText (stat_path state)) (Ok stat) ::
           GEvent (HostReadText LINUX_BOOT_ID_PATH) (Ok boot) :: earlier ∧
    str_trim boot = lrs_linux_boot_id state ∧ stat_shows state stat.

(** The time that was slept. *)
Fixpoint slept (past : history) : Z :=
  match past with
  | [] => 0
  | GEvent o _ :: past => match o with HostSleep duration => duration | _ => 0 end + slept past
  end.
(** The last look showed it, and no more than [pause] was slept since. *)
Definition seen_within (pause : Z) (state : LocalRuntimeState) (past : history) : Prop :=
  ∃ later look, past = (later ++ look)%list ∧ Forall (λ e, ¬ is_check e) later ∧
    slept later ≤ pause ∧ just_seen state look.
(** The last look did not. *)
Definition gone (state : LocalRuntimeState) (past : history) : Prop :=
  ∃ earlier,
    (∃ boot, past = GEvent (HostReadText LINUX_BOOT_ID_PATH) (Ok boot) :: earlier ∧
       str_trim boot ≠ lrs_linux_boot_id state) ∨
    (∃ stat, past = GEvent (HostReadText (stat_path state)) stat :: earlier ∧
       (stat = Err IoNotFound ∨ ∃ text, stat = Ok text ∧ ¬ stat_shows state text)).

Lemma just_seen_within pause state past : 0 ≤ pause → just_seen state past → seen_within pause state past.
Proof. intros Hp Hs. exists [], past. by split_and!. Qed.
Lemma seen_later pause state e past :
  seen_within pause state past → ¬ is_check e → seen_within (slept [e] + pause) state (e :: past).
Proof.
  intros (later & look & -> & Hl & Hp & Hs) He. exists (e :: later), look.
  split_and!; [done|by constructor| |done]. destruct e as [X o x]. cbn in *. lia.
Qed.
Lemma seen_weaken pause pause' state past :
  seen_within pause state past → pause ≤ pause' → seen_within pause' state past.
Proof. intros (later & look & -> & Hl & Hp & Hs) Hle. exists later, look. split_and!; [done..|lia|done]. Qed.

Ltac seen_chain := first [eassumption | eapply seen_later; [seen_chain|by intros []]].
Ltac seen := eapply seen_weaken; [seen_chain|cbn; lia].

(** The pause between two looks. *)
Definition LOOK_PAUSE : Z := 100 * 1000000.

Section process.
Context (state : LocalRuntimeState) (stop_timeout : Z).

#[local] Abbreviation terminate := ["-TERM"; u64_to_string (lrs_process_id state)].
#[local] Abbreviation kill := ["-KILL"; u64_to_string (lrs_process_id state)].

(** The clock now shows that the timeout passed since a reading, and TERM was sent. *)
Definition waited (past : history) : Prop :=
  ∃ now started x earlier, past = GEvent HostInstant now :: earlier ∧
    GEvent HostInstant started ∈ past ∧ stop_timeout ≤ now - started ∧
    GEvent (HostStatus "kill" terminate) x ∈ past.

(** What may be done while a process is stopped: it is signalled only when the last look
    showed it, and a loop goes on only if the clock does not. *)
Definition stop_op_ok (past : history) (X : Type) (o : host_op X) : Prop :=
  match o with
  | HostStatus program arguments => program = "kill" ∧
      ((arguments = terminate ∧ just_seen state past) ∨
       (arguments = kill ∧ seen_within LOOK_PAUSE state past ∧ waited past))
  | HostForever => ¬ clock_ok past
  | HostReadText _ | HostExists _ | HostInstant | HostSleep _ => True
  | _ => False
  end.

Lemma matches_traced_by (h : ∀ X, op X → host_prog X) past :
  h _ ReadBootId = read_linux_boot_id →
  (∀ process_id, h _ (ReadProcessState process_id) = read_linux_process_state process_id) →
  gtraced stop_op_ok (λ past' r, same_clock past past' ∧
    match r with
    | Ok true => just_seen state past'
    | Ok false => gone state past'
    | Err _ => True
    end) past (prog_interp h (runtime_process_matches state)).
Proof.
  intros Hboot Hprocess. unfold runtime_process_matches. cbn -[byte_among]. rewrite Hboot.
  cbn -[byte_among]. split; [done|].
  intros [boot|e]; cbn -[byte_among]; [|split; [same_clock|done]].
  destruct (String.eqb_spec (str_trim boot) (lrs_linux_boot_id state)) as [Hb|Hb]; cbn -[byte_among].
  2:{ split; [same_clock|]. exists past. left. eauto. }
  rewrite Hprocess. cbn -[byte_among]. split; [done|]. intros [stat|[|e]]; cbn -[byte_among].
  - destruct (parse_linux_process_stat stat) as [p|] eqn:Hp; cbn -[byte_among]; (split; [same_clock|]); [|done].
    destruct (byte_among "ZXx" (lps_state p)) eqn:Hz; cbn [negb andb].
    { eexists. right. eexists. split; [reflexivity|]. right. exists stat. split; [done|].
      intros (q & Hq & Hn & _). congruence. }
    destruct (Z.eqb_spec (lps_start_time_ticks p) (lrs_linux_process_start_time_ticks state)).
    + exists boot, stat, past. split_and!; [done..|]. by exists p.
    + eexists. right. eexists. split; [reflexivity|]. right. exists stat. split; [done|].
      intros (q & Hq & _ & ?). congruence.
  - split; [same_clock|]. eexists. right. eexists. split; [reflexivity|]. by left.
  - split; [same_clock|done].
Qed.

Lemma matches_traced past :
  gtraced stop_op_ok (λ past' r, same_clock past past' ∧
    match r with
    | Ok true => just_seen state past'
    | Ok false => gone state past'
    | Err _ => True
    end) past (host_process_matches state).
Proof. by apply matches_traced_by. Qed.

(** Signalling keeps what was seen. *)
Lemma send_signal_traced signal pause past :
  stop_op_ok past _ (HostStatus "kill" ["-" ++ signal; u64_to_string (lrs_process_id state)]) →
  seen_within pause state past →
  gtraced stop_op_ok (λ past' r, match r with
    | Ok _ => seen_within pause state past' ∧ ∃ x,
        GEvent (HostStatus "kill" ["-" ++ signal; u64_to_string (lrs_process_id state)]) x ∈ past'
    | Err _ => True
    end) past (send_signal (lrs_process_id state) signal).
Proof.
  intros Hop Hc. unfold send_signal, try_bind. apply gtraced_perform; [done|].
  intros [status|e]; [|done]. destruct (bool_decide (status = Some 0)).
  { split; [seen|]. eexists. apply list_elem_of_here. }
  apply gtraced_perform; [done|]. intros []; [done|]. split; [seen|].
  eexists. apply list_elem_of_further, list_elem_of_here.
Qed.

(** A round of the loop is left for as long as the clock can show less than the timeout. *)
Definition rounds_left (n : nat) (started timeout interval : Z) (past : history) : Prop :=
  clock_ok past → ∃ floor, clock_floor past = Some floor ∧
    started + timeout ≤ floor + Z.of_nat n * interval.

(** How a wait ends: without the process, or when the clock shows that it is over. *)
Definition wait_ended (started timeout pause : Z) (past : history) (r : result LocalComputeError bool) :
    Prop :=
  match r with
  | Ok true => gone state past
  | Ok false => seen_within pause state past ∧
      ∃ now earlier, past = GEvent HostInstant now :: earlier ∧ timeout ≤ now - started
  | Err _ => True
  end.

Lemma wait_traced n started timeout interval pause past :
  0 ≤ interval ≤ pause → rounds_left n started timeout interval past → seen_within pause state past →
  gtraced stop_op_ok (wait_ended started timeout pause) past
    (wait_until_gone (S n) state started timeout interval).
Proof.
  intros Hi. revert past. induction n as [|n IH]; intros past Hleft Hc; cbn [wait_until_gone];
    apply gtraced_perform; try done; intros now;
    destruct (Z.leb_spec timeout (now - started)) as [Hle|Hgt];
    try (cbn [gtraced]; split; [seen|by exists now, past]);
    (eapply (gtraced_try _ (λ past' (m : bool), same_clock (GEvent HostInstant now :: past) past' ∧
       if m then just_seen state past' else gone state past'));
      [eapply gtraced_post; [apply matches_traced|]|]);
    try (by intros past' [[]|e] [Hclock Hr]);
    intros past' [] [Hclock Hseen]; try exact Hseen; cbn [negb];
    apply gtraced_perform; try done; intros [].
  - split; [|intros []]. intros [Hok _]. apply Hclock in Hok as [Hok Hfloor].
    destruct (Hleft Hok) as (floor & Hf & Hl). specialize (Hfloor _ Hf). lia.
  - apply IH.
    + intros [Hok _]. destruct Hclock as [Hfl Hclock]. apply Hclock in Hok as [Hok Hfloor].
      destruct (Hleft Hok) as (floor & Hf & Hl). specialize (Hfloor _ Hf).
      exists (now + interval). cbn. rewrite Hfl. split; [done|]. lia.
    + apply (just_seen_within 0) in Hseen; [|done]. seen.
Qed.

(** A wait that begins at a reading of the clock. *)
Lemma wait_from_now timeout interval pause now past :
  0 ≤ timeout → 0 < interval ≤ pause → seen_within pause state past →
  gtraced stop_op_ok (wait_ended now timeout pause) (GEvent HostInstant now :: past)
    (wait_until_gone (wait_rounds timeout interval) state now timeout interval).
Proof.
  intros Ht Hi Hc. unfold wait_rounds. rewrite Nat.add_comm. apply wait_traced; [lia| |seen].
  intros _. exists now. split; [done|]. destruct Hi as [Hi _].
  pose proof (Z.div_pos timeout interval Ht Hi). pose proof (Z.mul_succ_div_gt timeout interval Hi). lia.
Qed.

Lemma stop_traced :
  0 ≤ stop_timeout →
  ∀ past, gtraced stop_op_ok (λ past' r, r = Ok tt → gone state past') past
    (wait_for_untracked_process_exit state stop_timeout).
Proof.
  intros Ht past. unfold wait_for_untracked_process_exit.
  eapply (gtraced_try _ (λ past' (m : bool), if m then just_seen state past' else gone state past'));
    [eapply gtraced_post; [apply matches_traced|]; by intros past' [[]|e] [_ Hr]|].
  intros past1 [] Hc; cbn [negb]; [|by intros _].
  eapply (gtraced_try _ (λ past' (_ : unit), seen_within TERM_INTERVAL state past' ∧
    ∃ x, GEvent (HostStatus "kill" terminate) x ∈ past')).
  { eapply gtraced_post; [apply (send_signal_traced "TERM" TERM_INTERVAL)|].
    - split; [done|]. by left.
    - by apply just_seen_within.
    - by intros past' [[]|e]. }
  intros past2 _ [Hc2 [x Hterm]]. apply gtraced_perform; [done|]. intros started.
  eapply (gtraced_try _ (λ past' (m : bool), if m then gone state past'
    else seen_within LOOK_PAUSE state past' ∧ waited past')).
  { eapply (gtraced_from stop_op_ok); [auto| |by apply wait_from_now].
    intros past' [[]|e] Hs Hw; [done| |done]. destruct Hw as (Hseen & now & earlier & -> & Hle).
    split; [done|]. exists now, started, x, earlier. split_and!; [done| |done|]; set_solver. }
  intros past3 [] Hc3; [by intros _|].
  eapply (gtraced_try _ (λ past' (_ : unit), seen_within LOOK_PAUSE state past')).
  { eapply gtraced_post; [apply (send_signal_traced "KILL" LOOK_PAUSE)|].
    - split; [done|]. by right.
    - by destruct Hc3.
    - intros past' [[]|e]; [by intros [? _]|done]. }
  intros past4 _ Hc4. apply gtraced_perform; [done|]. intros kill_now.
  eapply (gtraced_try _ (λ past' (m : bool), m = true → gone state past')).
  { eapply gtraced_post; [by apply (wait_from_now _ _ LOOK_PAUSE)|].
    intros past' [[]|e] Hw; [by intros _|done|done]. }
  intros past5 [] Hc5; [by intros _; apply Hc5|done].
Qed.

(** C25. Stopping a recorded process signals that process alone: the only signals are
    TERM and KILL to the recorded id. TERM is sent right after a look at the process
    showed the recorded boot and start time and no zombie; KILL only when TERM was
    sent, the clock showed that the timeout passed, and the last look showed the same
    and was followed by no more than the pause of 100 ms between two looks, so that a
    process that has the id after it is left alone. Success is reported only when a
    look no longer shows the process; and the loops end as long as the clock
    advances. *)
Theorem processes_are_stopped_safely evs r :
  0 ≤ stop_timeout → trace (wait_for_untracked_process_exit state stop_timeout) evs r →
  (∀ e1 program arguments x e2, evs = (e1 ++ GEvent (HostStatus program arguments) x :: e2)%list →
     program = "kill" ∧
     ((arguments = ["-TERM"; u64_to_string (lrs_process_id state)] ∧ just_seen state (rev e1)) ∨
      (arguments = ["-KILL"; u64_to_string (lrs_process_id state)] ∧
       seen_within (100 * 1000000) state (rev e1) ∧ waited (rev e1)))) ∧
  (r = Some (Ok tt) → gone state (rev evs)) ∧
  gtraced (λ past X o, match o with HostForever => ¬ clock_ok past | _ => True end) (λ _ _, True) []
    (wait_for_untracked_process_exit state stop_timeout).
Proof.
  intros Ht Htr. pose proof (stop_traced Ht []) as Hg.
  destruct (trace_gtraced _ _ _ _ _ _ Htr Hg) as [HP HQ]. rewrite app_nil_r in HQ. split_and!.
  - intros e1 program arguments x e2 Heq. specialize (HP _ _ _ _ _ Heq). by rewrite app_nil_r in HP.
  - intros ->. by eapply HQ.
  - eapply gtraced_weaken; [| |exact Hg]; [|done]. intros past X []; cbn; auto.
Qed.
End process.

(** ** Reaping *)

Section reaping.
Context `{Codec} (from_utf8_lossy : bytes → string).
Context (runtime_state_to_json : LocalRuntimeState → result string string).
Context (runtime_state_from_json : string → result string LocalRuntimeState).
Context (self : LocalComputeManager) (ownership : list (ComputeInstanceId * ServerInstanceId)).

#[local] Abbreviation active := (active_computes ownership).
#[local] Abbreviation reap := (reap_orphans from_utf8_lossy runtime_state_to_json
  runtime_state_from_json self ownership).

(** A line of the listing of this scope's containers. *)
Definition listed_line (past : history) (line : string) : Prop :=
  ∃ output, GEvent (HostOutput (lm_podman_binary self) (list_containers_arguments self)
      (lm_control_timeout self)) (Some (Ok output)) ∈ past ∧ succeeded output = true ∧
    line ∈ str_lines (String.string_of_list_ascii (out_stdout output)).

(** A container that no active compute instance owns with its instance. *)
Definition orphan_container (past : history) (name : string) : Prop :=
  ∃ line instance_id compute_id extra, listed_line past line ∧
    container_fields line = (name, instance_id, compute_id, extra) ∧ name ≠ EmptyString ∧
    ∀ c i, compute_id = Some c → instance_id = Some i → extra = false → active !! c ≠ Some i.

(** A directory of the listing that is named after no active compute instance. *)
Definition orphan_directory (past : history) (path : string) (c : ComputeInstanceId) : Prop :=
  ∃ entries entry name, GEvent (HostReadDirectory (lm_node_agent_root self)) (Ok entries) ∈ past ∧
    Ok entry ∈ entries ∧ entry_is_dir entry = Ok true ∧ entry_name entry = Some name ∧
    path = path_join (lm_node_agent_root self) name ∧ uuid_parse_str name = Ok c ∧ active !! c = None.

(** The process that the metadata of an orphaned directory records. *)
Definition orphan_process (past : history) (state : LocalRuntimeState) : Prop :=
  ∃ path c text, orphan_directory past path c ∧
    GEvent (HostReadFile (path_join path LOCAL_RUNTIME_STATE_FILE_NAME)) (Ok text) ∈ past ∧
    runtime_state_from_json text = Ok state ∧ lrs_compute_instance_id state = c ∧
    lrs_local_scope state = lm_local_scope self.

(** What reaping may do to the host. *)
Definition reap_op_ok (past : history) (X : Type) (o : host_op X) : Prop :=
  match o with
  | HostOutput program arguments _ => program = lm_podman_binary self ∧
      (arguments = list_containers_arguments self ∨
       (∃ name, arguments = ["rm"; "--force"; "--ignore"; name] ∧ orphan_container past name) ∨
       (∃ path c, arguments = ["unshare"; "rm"; "-rf"; "--"; path] ∧ orphan_directory past path c))
  | HostStatus program arguments => program = "kill" ∧ ∃ state signal, orphan_process past state ∧
      arguments = [signal; u64_to_string (lrs_process_id state)] ∧ seen_within LOOK_PAUSE state past
  | HostForever => ¬ clock_ok past
  | HostReadText _ | HostReadFile _ | HostReadDirectory _ | HostExists _ | HostInstant | HostSleep _ => True
  | _ => False
  end.

Lemma orphan_directory_later past past' path c :
  past ⊆ past' → orphan_directory past path c → orphan_directory past' path c.
Proof. intros Hs (entries & entry & name & Hin & ?). exists entries, entry, name. split; [by apply Hs|done]. Qed.
Lemma orphan_process_later past past' state :
  past ⊆ past' → orphan_process past state → orphan_process past' state.
Proof.
  intros Hs (path & c & text & Hd & Hin & ?). exists path, c, text.
  split; [by eapply orphan_directory_later|]. split; [by apply Hs|done].
Qed.
Lemma listed_line_later past past' line : past ⊆ past' → listed_line past line → listed_line past' line.
Proof. intros Hs (output & Hin & ?). exists output. split; [by apply Hs|done]. Qed.

(** Stopping the process of an orphan is within what reaping may do. *)
Lemma stop_op_reaps state timeout past past' X (o : host_op X) :
  orphan_process past state → past ⊆ past' → stop_op_ok state timeout past' X o → reap_op_ok past' X o.
Proof.
  intros Hp Hs. destruct o; cbn; try done. intros (-> & Ha). split; [done|].
  assert (orphan_process past' state) by by eapply orphan_process_later.
  destruct Ha as [[-> Hc%(just_seen_within LOOK_PAUSE)] | (-> & Hc & _)]; [eauto 10|done|eauto 10].
Qed.

Lemma podman_traced arguments past :
  reap_op_ok past _ (HostOutput (lm_podman_binary self) arguments (lm_control_timeout self)) →
  gtraced reap_op_ok (λ past' r, past ⊆ past' ∧ match r with
    | Ok output => succeeded output = true ∧ GEvent (HostOutput (lm_podman_binary self) arguments
        (lm_control_timeout self)) (Some (Ok output)) ∈ past'
    | Err _ => True
    end) past (run_podman_control from_utf8_lossy self arguments).
Proof.
  intros Ho. unfold run_podman_control. apply gtraced_perform; [done|].
  intros [[output|e]|]; [destruct (succeeded output) eqn:Hs|..]; (split; [set_solver|]); try done.
  split; [done|]. apply list_elem_of_here.
Qed.

Lemma reap_containers_traced lines removed past :
  Forall (listed_line past) lines →
  gtraced reap_op_ok (λ past' _, past ⊆ past') past
    (reap_containers from_utf8_lossy self active lines removed).
Proof.
  revert removed past. induction lines as [|line lines IH]; intros removed past Hl; cbn [reap_containers].
  { cbn. reflexivity. }
  apply Forall_cons in Hl as [Hline Hl].
  destruct (str_is_blank line); [by apply IH|].
  destruct (container_fields line) as [[[name instance_id] compute_id] extra] eqn:Hf.
  destruct (str_is_empty name) eqn:Hn; [by apply IH|].
  destruct (belongs_to_active_runtime _ _ _ _) eqn:Hb; [by apply IH|].
  eapply (gtraced_try _ (λ past' _, past ⊆ past')).
  - eapply gtraced_post; [apply podman_traced|].
    + split; [done|]. right. left. exists name. split; [done|].
      exists line, instance_id, compute_id, extra. split_and!; [done..| |].
      { by intros ->. }
      intros c i -> -> -> Ha. unfold belongs_to_active_runtime in Hb. cbn in Hb. rewrite Ha in Hb.
      by rewrite bool_decide_eq_true_2 in Hb.
    + intros past' [output|e] [Hs _]; [done|]. exact Hs.
  - intros past' _ Hs. eapply gtraced_from; [| |apply IH].
    + auto.
    + intros past'' a _. by etrans.
    + eapply Forall_impl; [exact Hl|]. intros l. by apply listed_line_later.
Qed.

Hypothesis timeout_positive : 0 ≤ lm_process_stop_timeout self.

#[local] Abbreviation orphan path := (λ X, @orphan_impl _ from_utf8_lossy runtime_state_to_json
  runtime_state_from_json self path X).

(** What loading the metadata of an orphan shows. *)
Lemma load_orphan_traced path c past :
  orphan_directory past path c →
  gtraced reap_op_ok (λ past' r, past ⊆ past' ∧ match r with
    | Ok (Some state) => lrs_compute_instance_id state = c →
        lrs_local_scope state = lm_local_scope self → orphan_process past' state
    | _ => True
    end) past (prog_interp (orphan path) (load_local_runtime_state c)).
Proof.
  intros Hd. unfold load_local_runtime_state. cbn. split; [done|].
  intros [text|[|e]]; cbn; [|split; [set_solver|done]..].
  destruct (runtime_state_from_json text) as [state|e] eqn:Htext; cbn; [|split; [set_solver|done]].
  destruct (negb (lrs_schema_version state =? LOCAL_RUNTIME_STATE_SCHEMA_VERSION)); cbn;
    (split; [set_solver|]); [done|].
  intros Hc Hscope. exists path, c, text. split; [eapply orphan_directory_later; [|exact Hd]; set_solver|].
  split; [apply list_elem_of_here|done].
Qed.

Lemma stop_orphan_traced path c past :
  orphan_directory past path c →
  gtraced reap_op_ok (λ past' _, past ⊆ past') past
    (stop_orphan from_utf8_lossy runtime_state_to_json runtime_state_from_json self path c).
Proof.
  intros Hd. unfold stop_orphan, stop_process_from_runtime_state, try_bind.
  eapply gtraced_interp_bind; [by apply load_orphan_traced|].
  intros past1 [[state|]|e] [Hs Hp]; cbn [prog_interp gtraced]; try exact Hs.
  destruct (N.eqb_spec (lrs_compute_instance_id state) c) as [Hc|]; cbn [negb orb prog_interp gtraced]; [|exact Hs].
  destruct (String.eqb_spec (lrs_local_scope state) (lm_local_scope self)) as [Hscope|];
    cbn [negb prog_interp gtraced]; [|exact Hs].
  specialize (Hp Hc Hscope). eapply (gtraced_interp_bind _ (λ past' _, past1 ⊆ past')).
  - eapply gtraced_from; [| |by apply (matches_traced_by state (lm_process_stop_timeout self))]; [|done].
    intros past' X o Hs'. by eapply stop_op_reaps.
  - intros past2 [[]|e] Hs2; cbn [negb]; [|cbn [prog_interp gtraced]; by etrans..].
    assert (orphan_process past2 state) as Hp2 by by eapply orphan_process_later.
    eapply (gtraced_bind _ (λ past' _, past2 ⊆ past')).
    + eapply gtraced_from; [| |apply (stop_traced state _ timeout_positive past2)]; [|done].
      intros past' X o Hs'. by eapply stop_op_reaps.
    + intros past3 [u|e] Hs3; cbn; (transitivity past1; [done|]); by transitivity past2.
Qed.

Lemma reap_directories_traced all entries summary past :
  GEvent (HostReadDirectory (lm_node_agent_root self)) (Ok all) ∈ past → entries ⊆ all →
  gtraced reap_op_ok (λ past' _, True) past
    (reap_directories from_utf8_lossy runtime_state_to_json runtime_state_from_json self active
       entries summary).
Proof.
  intros Hin Hall. revert summary past Hin. induction entries as [|[entry|e] entries IH];
    intros summary past Hin; cbn [reap_directories]; [done| |done].
  assert (Ok entry ∈ all) as Hentry by (apply Hall; apply list_elem_of_here).
  specialize (IH ltac:(set_solver)).
  destruct (entry_is_dir entry) as [[]|e] eqn:Hdir; [|by apply IH|done].
  destruct (entry_name entry) as [name|] eqn:Hname; [|by apply IH].
  destruct (uuid_parse_str name) as [c|e] eqn:Hc; [|by apply IH].
  destruct (active !! c) eqn:Ha; cbn [is_some]; [by apply IH|].
  assert (orphan_directory past (path_join (lm_node_agent_root self) name) c) as Hd.
  { exists all, entry, name. done. }
  eapply (gtraced_try _ (λ past' _, past ⊆ past')).
  { eapply gtraced_post; [by apply stop_orphan_traced|]. by intros past' [stopped|e]. }
  intros past1 stopped Hs1. unfold remove_state_directory_in_user_namespace.
  eapply (gtraced_try _ (λ past' _, past ⊆ past')).
  - eapply (gtraced_try _ (λ past' _, past ⊆ past')); [eapply gtraced_post; [apply podman_traced|]|].
    + split; [done|]. right. right. eexists _, c. split; [done|]. by eapply orphan_directory_later.
    + intros past' [output|e] [Hs _]; [|done]. by etrans.
    + done.
  - intros past2 _ Hs2. apply IH. by apply Hs2.
Qed.

(** C26. Reaping spares what the active compute instances own: whatever Podman lists, the
    directories hold and the commands answer, it removes a container only if this
    scope's listing had it with labels that are not those of an active compute
    instance and its instance, a directory only if it is named after a compute
    instance that is not active, and it signals a process only if the metadata of such
    a directory records it for that compute instance and this scope, and the last look
    at the process, at most the pause between two looks before, showed it. *)
Theorem reaping_spares_active_runtimes evs r e1 X (o : host_op X) x e2 :
  trace reap evs r → evs = (e1 ++ GEvent o x :: e2)%list → reap_op_ok (rev e1) X o.
Proof.
  intros Ht Heq. rewrite <- (app_nil_r (rev e1)). eapply (trace_gtraced reap_op_ok (λ _ _, True));
    [exact Ht| |exact Heq].
  unfold reap_orphans. eapply gtraced_try; [eapply gtraced_post; [apply podman_traced|]|].
  - split; [done|]. by left.
  - intros past' [output|e] [_ Ho]; [exact Ho|done].
  - intros past1 output [Hs Hin]. destruct (negb _); [done|].
    eapply (gtraced_try _ (λ past' _, past1 ⊆ past')).
    + eapply gtraced_post; [apply reap_containers_traced|].
      * apply Forall_forall. intros line Hline. exists output. done.
      * by intros past' [removed|e].
    + intros past2 removed _. apply gtraced_perform; [done|].
      intros [entries|[|e]]; [|done..]. eapply reap_directories_traced; [apply list_elem_of_here|done].
Qed.
End reaping.

(** ** Examples *)

Section witnesses.
#[local] Existing Instances bits_codec bits_codec_laws.

Definition example_stat : string :=
  "42 (node agent (test)) S 1 2 3 4 5 6 7 8 9 10 11 12 13 14 15 16 17 18 987654 20".
Definition example_process : LocalRuntimeState := {|
  lrs_schema_version := 1; lrs_compute_instance_id := 13%N; lrs_local_scope := "home";
  lrs_process_id := 42; lrs_linux_boot_id := "boot"; lrs_linux_process_start_time_ticks := 987654 |}.

Example parses_process_stat :
  parse_linux_process_stat example_stat =
    Some {| lps_state := Ascii.ascii_of_nat 83; lps_start_time_ticks := 987654 |} ∧
  parse_linux_process_stat "42 (agent) S 1 2" = None.
Proof. by vm_compute. Qed.

(** The process is there until it was looked at once. *)
Definition example_host (looks : nat) (X : Type) (o : host_op X) : option (X * nat) :=
  match o in host_op X return option (X * nat) with
  | HostReadText path =>
      if String.eqb path LINUX_BOOT_ID_PATH then Some (Ok "boot", looks)
      else Some (match looks with O => Ok example_stat | S _ => Err IoNotFound end, S looks)
  | HostStatus _ _ => Some (Ok (Some 0), looks)
  | HostInstant => Some (0, looks)
  | _ => None
  end.
Definition example_stop :=
  replay_with example_host 0%nat (wait_for_untracked_process_exit example_process (from_secs 5)).

Lemma processes_are_stopped_safely_witness :
  example_stop.2 = Some (Ok tt) ∧ gone example_process (rev example_stop.1).
Proof.
  assert (example_stop.2 = Some (Ok tt)) as Hr by by vm_compute. split; [exact Hr|].
  pose proof (replay_with_trace example_host 0%nat
    (wait_for_untracked_process_exit example_process (from_secs 5))) as Ht.
  fold example_stop in Ht.
  destruct (processes_are_stopped_safely example_process (from_secs 5) _ _ ltac:(by vm_compute) Ht)
    as (_ & Hgone & _). apply Hgone. exact Hr.
Defined.

Definition example_manager : LocalComputeManager := {|
  lm_node_agent_binary := "mcserver-node-agent"; lm_node_agent_root := "/var/lib/mcserver/agents";
  lm_podman_binary := "podman"; lm_local_scope := "home"; lm_control_plane_address := "127.0.0.1:7443";
  lm_command_timeout := from_secs 900; lm_max_frame_bytes := 1048576;
  lm_control_timeout := from_secs 30; lm_process_stop_timeout := from_secs 10 |}.
Definition example_output (text : string) : Output :=
  {| out_status := Some 0; out_stdout := String.list_ascii_of_string text; out_stderr := [] |}.
(** Podman lists a container that nothing owns, and there are no directories. *)
Definition example_podman (X : Type) (o : host_op X) : option X :=
  match o in host_op X return option X with
  | HostOutput _ arguments _ =>
      Some (Some (Ok (example_output (if bool_decide (arguments = list_containers_arguments example_manager)
                                      then "mcserver-old|1|2" else EmptyString))))
  | HostReadDirectory _ => Some (Err IoNotFound)
  | _ => None
  end.
Definition example_reap :=
  reap_orphans (λ _, EmptyString) (λ _, Err "none") (λ _, Err "none") example_manager [].

Lemma reaping_spares_active_runtimes_witness :
  orphan_container example_manager []
    [GEvent (HostOutput "podman" (list_containers_arguments example_manager) (from_secs 30))
       (Some (Ok (example_output "mcserver-old|1|2")))] "mcserver-old".
Proof.
  destruct (reaping_spares_active_runtimes (λ _, EmptyString) (λ _, Err "none") (λ _, Err "none")
    example_manager [] ltac:(by vm_compute) (replay example_podman example_reap).1
    (replay example_podman example_reap).2
    [GEvent (HostOutput "podman" (list_containers_arguments example_manager) (from_secs 30))
       (Some (Ok (example_output "mcserver-old|1|2")))] _
    (HostOutput "podman" ["rm"; "--force"; "--ignore"; "mcserver-old"] (from_secs 30))
    (Some (Ok (example_output EmptyString)))
    [GEvent (HostReadDirectory "/var/lib/mcserver/agents") (Err IoNotFound)]
    (replay_trace example_podman example_reap) ltac:(reflexivity))
    as [_ [Hl|[(name & [= <-] & Ho)|(path & c & Hn & _)]]].
  - discriminate Hl.
  - exact Ho.
  - discriminate Hn.
Defined.
End witnesses.
