(* ===== verification/AkamaiCompute.v ===== *)
(** The Akamai compute manager
    (crates/mcserver-control-plane/src/infrastructure/akamai_compute.rs): one
    virtual machine per compute instance, found again by its label and tags. *)
From S2P Require Import Prelude Text Programs Framing Server Instances Database Repositories.
From S2P Require Import Config ComputeRepository Effects.
#[local] Open Scope string_scope.
#[local] Open Scope Z_scope.
#[local] Open Scope prog_scope.

(** ** Addresses *)

(** The four octets of a dotted address. *)
Definition ipv4_octets (address : string) : list Z :=
  map (λ digits, fold_left (λ acc c, acc * 10 + (byte_of c - 48)) digits 0)
    (split_dots (String.list_ascii_of_string address) []).

(** [Ipv4Addr::is_private] and [Ipv4Addr::is_loopback]. *)
Definition ipv4_is_private (address : string) : bool :=
  match ipv4_octets address with
  | a :: b :: _ => (a =? 10) || ((a =? 172) && sql_between 16 31 b) || ((a =? 192) && (b =? 168))
  | _ => false
  end.
Definition ipv4_is_loopback (address : string) : bool :=
  match ipv4_octets address with a :: _ => a =? 127 | [] => false end.

(** ** [ProviderInstance] *)

Definition MANAGED_TAG : string := "mcserver-managed".
Definition CLOUD_INIT_CAPABILITY : string := "cloud-init".
Definition METADATA_CAPABILITY : string := "Metadata".

(** [is_owned_by]. *)
Definition is_owned_by (p : ProviderInstance) (expected_label scope_tag : string) : bool :=
  String.eqb (pi_label p) expected_label
  && list_contains (pi_tags p) MANAGED_TAG
  && list_contains (pi_tags p) scope_tag.

Definition verify_configuration (p : ProviderInstance) (region instance_type image : string) :
    result AkamaiComputeError unit :=
  _ ← err_if (negb (String.eqb (pi_region p) region)
              || negb (String.eqb (pi_instance_type p) instance_type)
              || negb (String.eqb (pi_image p) image))
        (AE.ProviderConfigurationMismatch (pi_id p) region (pi_region p) instance_type
           (pi_instance_type p) image (pi_image p));
  err_if (bool_decide (pi_disk_encryption p ≠ DE.Disabled)) (AE.DiskEncryptionEnabled (pi_id p)).

(** [public_ipv4]: an accepted address prints as it was written, since it has no
    superfluous zeros. *)
Definition public_ipv4 (p : ProviderInstance) : option string :=
  List.find (λ v, parses_as_ipv4 v && negb (ipv4_is_private v) && negb (ipv4_is_loopback v))
    (pi_ipv4 p).

(** ** [AkamaiClient] *)

Definition checked_response {A} (r : api_response A) : result AkamaiComputeError (api_response A) :=
  if sql_between 200 299 (resp_status r) then Ok r
  else if resp_status r =? 429 then Err (AE.RateLimited (resp_retry_after r) (resp_errors r))
  else Err (AE.Api (resp_status r) (resp_errors r)).

(** [checked_response(response).await?.json().await]. *)
Definition response_json {A} (r : api_response A) : result AkamaiComputeError A :=
  checked ← checked_response r; resp_body checked.

(** [send().await?] then [checked_response] and [json]. *)
Definition api_call {A} (o : op (result AkamaiComputeError (api_response A))) :
    prog (result AkamaiComputeError A) :=
  let? response := perform o via id in Ret (response_json response).

Section akamai.
Context `{Codec}.

Variable config : AkamaiConfig.

Definition scope_tag : string := "mcserver-scope-" +:+ scope config.
Definition provider_label (compute_id : Uuid) : string := "mcserver-" +:+ uuid_to_string compute_id.

Definition list_managed_instances : prog (result AkamaiComputeError (list ProviderInstance)) :=
  let? instances := perform (ApiListInstances FilterManagedTag) via id in
  Ret (Ok (List.filter (λ p, list_contains (pi_tags p) MANAGED_TAG
                             && list_contains (pi_tags p) scope_tag) instances)).

Definition find_instance_by_label (label : string) :
    prog (result AkamaiComputeError (option ProviderInstance)) :=
  let? instances := perform (ApiListInstances (FilterLabel label)) via id in
  Ret match List.filter (λ p, String.eqb (pi_label p) label) instances with
      | [] => Ok None
      | [instance] => Ok (Some instance)
      | _ => Err (AE.DuplicateProviderLabel label)
      end.

Definition client_get_instance (id : Z) :
    prog (result AkamaiComputeError (option ProviderInstance)) :=
  let? response := perform (ApiGetInstance id) via (λ e, e) in
  if resp_status response =? 404 then Ret (Ok None)
  else Ret (Some <$> response_json response).

Definition client_delete_instance (id : Z) : prog (result AkamaiComputeError unit) :=
  let? response := perform (ApiDeleteInstance id) via (λ e, e) in
  if resp_status response =? 404 then Ret (Ok tt)
  else Ret (_ ← checked_response response; Ok tt).

Definition verify_bootstrap_compatibility (image region : string) :
    prog (result AkamaiComputeError unit) :=
  let? observed := api_call (ApiGetImage image) via id in
  if negb (String.eqb (image_id observed) image)
  then Ret (Err (AE.ImageIdentityMismatch image (image_id observed)))
  else if negb (String.eqb (image_status observed) "available")
  then Ret (Err (AE.ImageUnavailable image (image_status observed)))
  else if image_deprecated observed then Ret (Err (AE.ImageDeprecated image))
  else if negb (list_contains (image_capabilities observed) CLOUD_INIT_CAPABILITY)
  then Ret (Err (AE.ImageMissingCloudInit image))
  else
    let? place := api_call (ApiGetRegion region) via id in
    if negb (String.eqb (region_id place) region)
    then Ret (Err (AE.RegionIdentityMismatch region (region_id place)))
    else if negb (list_contains (region_capabilities place) METADATA_CAPABILITY)
    then Ret (Err (AE.RegionMissingMetadata region))
    else Ret (Ok tt).

Definition verify_instance_type (type_id : string) : prog (result AkamaiComputeError unit) :=
  let? observed := api_call (ApiGetType type_id) via id in
  Ret (err_if (negb (String.eqb observed type_id))
         (AE.InstanceTypeIdentityMismatch type_id observed)).

Definition verify_firewall (firewall_id : Z) : prog (result AkamaiComputeError unit) :=
  let? firewall := api_call (ApiGetFirewall firewall_id) via id in
  Ret (_ ← err_if (negb (firewall_id_of firewall =? firewall_id))
             (AE.FirewallIdentityMismatch firewall_id (firewall_id_of firewall));
       err_if (negb (String.eqb (firewall_status firewall) "enabled"))
         (AE.FirewallDisabled firewall_id (firewall_status firewall))).

Definition verify_instance_firewall (provider_instance_id firewall_id : Z) :
    prog (result AkamaiComputeError unit) :=
  let? firewalls := api_call (ApiListInstanceFirewalls provider_instance_id) via id in
  Ret match List.find (λ f, firewall_id_of f =? firewall_id) firewalls with
      | None => Err (AE.RequiredFirewallMissing provider_instance_id firewall_id)
      | Some firewall =>
          err_if (negb (String.eqb (firewall_status firewall) "enabled"))
            (AE.FirewallDisabled firewall_id (firewall_status firewall))
      end.

(** ** [AkamaiComputeManager] *)

(** The [for] loops and the limit of [preflight]. *)
Definition preflight : prog (result AkamaiComputeError Z) :=
  let? _ := prog_for_each (λ region,
      prog_for_each (λ image, verify_bootstrap_compatibility image region)
        (allowed_images config))
    (allowed_regions config) via id in
  let? _ := prog_for_each verify_instance_type (allowed_instance_types config) via id in
  let? _ := prog_for_each verify_firewall (allowed_firewall_ids config) via id in
  let? managed := list_managed_instances via id in
  let managed_instances := Z.of_nat (length managed) in
  if max_active_instances config <? managed_instances
  then Ret (Err (AE.ActiveInstanceLimitExceeded managed_instances (max_active_instances config)))
  else Ret (Ok managed_instances).

Definition akamai_lifetime_exceeded (compute : ComputeInstance) (now : Z) : bool :=
  if bool_decide (ci_provider compute ≠ CP.Akamai) then false
  else
    let maximum_millis := from_option id i64_max (i64_try_from (as_millis (max_instance_lifetime config))) in
    maximum_millis <=? i64_saturating_sub now (ci_created_at compute).

Definition require_live_operations_enabled : result AkamaiComputeError unit :=
  if mutations_enabled config then Ok tt else Err AE.LiveOperationsDisabled.

Definition validate_spec (region instance_type image : string) (firewall_id : Z) :
    result AkamaiComputeError unit :=
  _ ← err_if (negb (allows_region config region)) (AE.RegionNotAllowed region);
  _ ← err_if (negb (allows_image config image)) (AE.ImageNotAllowed image);
  _ ← err_if (negb (allows_instance_type config instance_type))
        (AE.InstanceTypeNotAllowed instance_type);
  err_if (negb (allows_firewall config firewall_id)) (AE.FirewallNotAllowed firewall_id).

Definition verify_provider_configuration (p : ProviderInstance)
    (region instance_type image : string) (firewall_id : Z) :
    prog (result AkamaiComputeError unit) :=
  let? _ := Ret (verify_configuration p region instance_type image) via id in
  verify_instance_firewall (pi_id p) firewall_id.

Definition find_or_create_instance (label region instance_type image : string) (firewall_id : Z)
    (instance : ServerInstance) (compute : ComputeInstance) (allow_create : bool) :
    prog (result AkamaiComputeError ProviderInstance) :=
  let? existing := find_instance_by_label label via id in
  match existing with
  | Some existing =>
      if negb (is_owned_by existing label scope_tag)
      then Ret (Err (AE.ProviderOwnershipMismatch (pi_id existing) label))
      else
        let? _ := verify_provider_configuration existing region instance_type image firewall_id
          via id in
        Ret (Ok existing)
  | None =>
      if negb allow_create then Ret (Err (AE.ProviderInstanceLost (si_id instance)))
      else
        let? _ := Ret require_live_operations_enabled via id in
        let? _ := verify_bootstrap_compatibility image region via id in
        let? _ := verify_instance_type instance_type via id in
        let? _ := verify_firewall firewall_id via id in
        let? managed := list_managed_instances via id in
        let active := Z.of_nat (length managed) in
        if max_active_instances config <=? active
        then Ret (Err (AE.ActiveInstanceLimitReached active (max_active_instances config)))
        else
          let? bootstrap := perform (BuildBootstrap instance compute) via id in
          let? provider := api_call (ApiCreateInstance
            {| request_region := region; request_instance_type := instance_type;
               request_image := image; request_label := label; request_booted := true;
               request_authorized_keys := authorized_keys bootstrap;
               request_tags := [MANAGED_TAG; scope_tag]; request_firewall_id := firewall_id;
               request_disk_encryption := DE.Disabled;
               request_user_data := user_data_base64 bootstrap |}) via id in
          let? _ := verify_provider_configuration provider region instance_type image firewall_id
            via id in
          Ret (Ok provider)
  end.

(** The first [match] of [ensure_for_instance]. *)
Definition akamai_find_or_create_compute (instance : ServerInstance) (now : Z) :
    prog (result AkamaiComputeError (ComputeInstance * bool)) :=
  let? active := perform (Repo (ComputeInstanceRepository_get_active_for_instance (si_id instance)))
    via AE.Repository in
  match active with
  | Some compute =>
      if bool_decide (ci_provider compute = CP.Akamai) then Ret (Ok (compute, false))
      else Ret (Err AE.WrongProvider)
  | None =>
      let? _ := Ret require_live_operations_enabled via id in
      let! connection_token := perform NewConnectionToken in
      let! enrollment_token := perform NewConnectionToken in
      let! id := perform NewUuid in
      let? created := create_for_instance id (si_id instance) CP.Akamai connection_token
        (Some enrollment_token) now via AE.Repository in
      match created with
      | Some compute => Ret (Ok (compute, true))
      | None => Ret (Err AE.CreateConflict)
      end
  end.

(** The [match compute.provider_instance_id] of [ensure_for_instance]: the
    virtual machine of a compute instance. A machine is created only while
    [instance.data_prepared_at] is [None]. *)
Definition akamai_ensure_provider (instance : ServerInstance) (compute : ComputeInstance)
    (region instance_type image : string) (firewall_id : Z) :
    prog (result AkamaiComputeError ProviderInstance) :=
  let label := provider_label (ci_id compute) in
  let find_or_create := find_or_create_instance label region instance_type image firewall_id
    instance compute (is_none (si_data_prepared_at instance)) in
  match ci_provider_instance_id compute with
  | Some provider_id =>
      match parse_u64 provider_id with
      | None => Ret (Err AE.InvalidProviderId)
      | Some provider_id =>
          let? provider := client_get_instance provider_id via id in
          match provider with
          | Some provider =>
              if is_owned_by provider label scope_tag then
                let? _ := verify_provider_configuration provider region instance_type image
                  firewall_id via id in
                Ret (Ok provider)
              else Ret (Err (AE.ProviderOwnershipMismatch (pi_id provider) label))
          | None => find_or_create
          end
      end
  | None => find_or_create
  end.

Definition option_string_eqb (a b : option string) : bool := bool_decide (a = b).

Definition AkamaiComputeManager_ensure_for_instance (instance : ServerInstance) (now : Z) :
    prog (result AkamaiComputeError (ComputeInstance * bool)) :=
  match spec_compute (si_resolved_spec instance) with
  | CS.Local => Ret (Err AE.WrongProvider)
  | CS.Akamai region instance_type image firewall_id =>
      let? _ := Ret (validate_spec region instance_type image firewall_id) via id in
      let? found := akamai_find_or_create_compute instance now via id in
      let compute := found.1 in
      let? provider := akamai_ensure_provider instance compute region instance_type image
        firewall_id via id in
      let provider_id := u64_to_string (pi_id provider) in
      let? recorded :=
        (if negb (option_string_eqb (ci_provider_instance_id compute) (Some provider_id))
            || negb (option_string_eqb (ci_public_ipv4 compute) (public_ipv4 provider))
         then
           let? observed_at := perform Now via AE.Timestamp in
           let? updated := perform (Repo (ComputeInstanceRepository_record_provider_instance
             (ci_id compute) provider_id (public_ipv4 provider) observed_at)) via AE.Repository in
           if negb updated then Ret (Err AE.MissingAfterUpdate) else Ret (Ok true)
         else Ret (Ok false)) via id in
      let? refreshed := perform (Repo (ComputeInstanceRepository_get (ci_id compute)))
        via AE.Repository in
      match refreshed with
      | Some compute => Ret (Ok (compute, found.2 || recorded))
      | None => Ret (Err AE.MissingAfterUpdate)
      end
  end.

(** The [let provider_id = match ..] of [delete]: the machine to delete. *)
Definition akamai_owned_provider (compute : ComputeInstance) :
    prog (result AkamaiComputeError (option Z)) :=
  let label := provider_label (ci_id compute) in
  let owned (provider : option ProviderInstance) (id : ProviderInstance → Z) :
      result AkamaiComputeError (option Z) :=
    match provider with
    | Some provider =>
        if is_owned_by provider label scope_tag then Ok (Some (id provider))
        else Err (AE.ProviderOwnershipMismatch (pi_id provider) label)
    | None => Ok None
    end in
  match ci_provider_instance_id compute with
  | Some value =>
      match parse_u64 value with
      | None => Ret (Err AE.InvalidProviderId)
      | Some provider_id =>
          let? provider := client_get_instance provider_id via id in
          Ret (owned provider (λ _, provider_id))
      end
  | None =>
      let? provider := find_instance_by_label label via id in
      Ret (owned provider pi_id)
  end.

Definition AkamaiComputeManager_delete (compute : ComputeInstance) :
    prog (result AkamaiComputeError bool) :=
  if bool_decide (ci_provider compute ≠ CP.Akamai) then Ret (Err AE.WrongProvider)
  else
    let c := ci_id compute in
    let? now := perform Now via AE.Timestamp in
    let? _ := perform (Repo (ComputeInstanceRepository_request_shutdown c now))
      via AE.Repository in
    let! connected := perform (IsConnected c) in
    let! _ := (if (connected : bool) then perform (CallShutdown c) else Ret (Ok false)) in
    let? provider_id := akamai_owned_provider compute via id in
    let? _ :=
      match provider_id with
      | Some provider_id => client_delete_instance provider_id
      | None => Ret (Ok tt)
      end via id in
    let? deleted_at := perform Now via AE.Timestamp in
    let? changed := perform (Repo (ComputeInstanceRepository_terminate c CTR.Deleted None
      deleted_at)) via AE.Repository in
    Ret (Ok changed).

(** [str::strip_prefix]. *)
Fixpoint strip_prefix (prefix s : string) : option string :=
  match prefix, s with
  | EmptyString, _ => Some s
  | String c p, String c' s' => if Ascii.eqb c c' then strip_prefix p s' else None
  | _, EmptyString => None
  end.

(** The compute instance a label names. *)
Definition label_compute_id (label : string) : option Uuid :=
  value ← strip_prefix "mcserver-" label;
  match uuid_parse_str value with Ok id => Some id | Err _ => None end.

(** One round of [reap_orphans] on a managed machine: how many were adopted
    and deleted. *)
Definition reap_provider (active : list ComputeInstance) (provider : ProviderInstance) :
    prog (result AkamaiComputeError (Z * Z)) :=
  let delete :=
    let? _ := client_delete_instance (pi_id provider) via id in Ret (Ok (0, 1)) in
  match label_compute_id (pi_label provider) with
  | None => delete
  | Some compute_id =>
      match List.find (λ c, (ci_id c =? compute_id)%N) active with
      | Some compute =>
          match ci_provider_instance_id compute with
          | None =>
              let? now := perform Now via AE.Timestamp in
              let? _ := perform (Repo (ComputeInstanceRepository_record_provider_instance
                (ci_id compute) (u64_to_string (pi_id provider)) (public_ipv4 provider) now))
                via AE.Repository in
              Ret (Ok (1, 0))
          | Some value =>
              if bool_decide (parse_u64 value = Some (pi_id provider)) then Ret (Ok (0, 0))
              else delete
          end
      | None => delete
      end
  end.

Fixpoint reap_providers (active : list ComputeInstance) (managed : list ProviderInstance)
    (adopted deleted : Z) : prog (result AkamaiComputeError (Z * Z)) :=
  match managed with
  | [] => Ret (Ok (adopted, deleted))
  | provider :: managed' =>
      let? counts := reap_provider active provider via id in
      reap_providers active managed' (usize_saturating_add adopted counts.1)
        (usize_saturating_add deleted counts.2)
  end.

Definition AkamaiComputeManager_reap_orphans (active : list ComputeInstance) :
    prog (result AkamaiComputeError (Z * Z)) :=
  let? _ := Ret require_live_operations_enabled via id in
  let? managed := list_managed_instances via id in
  reap_providers active managed 0 0.
End akamai.
