(* ===== verification/AkamaiClient.v ===== *)
(** The HTTP client of the cloud provider
    (crates/mcserver-control-plane/src/infrastructure/akamai_compute.rs: [AkamaiClient] and
    [checked_response]): requests and their addresses, pages of listings, and the text of
    error responses. The functions of AkamaiCompute over this client are the functions
    of the code. *)
From S2P Require Import Prelude Text Net NetFacts Programs Framing Server Instances Database.
From S2P Require Import Repositories Environment Config ComputeRepository Effects ConfigProperties.
From S2P Require Import AkamaiCompute.
#[local] Open Scope string_scope.
#[local] Open Scope Z_scope.
#[local] Open Scope prog_scope.

Definition MAX_API_ERROR_BODY_BYTES : Z := 64 * 1024.

(** ** HTTP *)

Inductive http_method := HttpGet | HttpDelete | HttpPost (body : CreateInstanceRequest).

(** A request with its [X-Filter], if any. *)
Record http_request := {
  hr_method : http_method;
  hr_url : string;
  hr_filter : option string;
}.

(** A response: its status, the text of [Retry-After], and the chunks in which its body
    arrives, the last of which may be an error. *)
Record http_response := {
  http_status : Z;
  http_retry_after : option string;
  http_chunks : list (result string bytes);
}.

(** [HttpForever] is a loop that the model gives up; any other operation of the manager
    is left as it is. *)
Inductive http_op : Type → Type :=
| HttpSend (r : http_request) : http_op (result string http_response)
| HttpForever : http_op Empty_set
| HttpOther {X} (o : op X) : http_op X.
Abbreviation http_prog := (gprog http_op).

(** [AkamaiClient]: its base URL and the headers of its requests. Redirects are not
    followed. *)
Record AkamaiClient := {
  client_base_url : string;
  client_headers : list (string * string);
  client_timeout : Z;
}.

(** [status.is_success()]. *)
Definition http_success (r : http_response) : bool := sql_between 200 299 (http_status r).
(** [RETRY_AFTER], when it is a number. *)
Definition retry_after_of (r : http_response) : option Z :=
  from_secs <$> (http_retry_after r ≫= parse_u64).

(** [while bounded.len() < MAX_API_ERROR_BODY_BYTES]. *)
Fixpoint error_body (chunks : list (result string bytes)) (bounded : bytes) : result string bytes :=
  if MAX_API_ERROR_BODY_BYTES <=? Z.of_nat (length bounded) then Ok bounded
  else match chunks with
       | [] => Ok bounded
       | Err error :: _ => Err error
       | Ok chunk :: chunks =>
           error_body chunks
             (bounded ++ take (Z.to_nat (MAX_API_ERROR_BODY_BYTES - Z.of_nat (length bounded))) chunk)
       end.

(** The whole body, as [json()] reads it. *)
Fixpoint full_body (chunks : list (result string bytes)) : result string bytes :=
  match chunks with
  | [] => Ok []
  | Err error :: _ => Err error
  | Ok chunk :: chunks => rest ← full_body chunks; Ok (chunk ++ rest)%list
  end.

Section client.
(** [HeaderValue::from_str] and the building of the client (reqwest), [serde_json] for the
    bodies and the filters, and [String::from_utf8_lossy]. A page has its instances and
    the number of pages. *)
Variable header_value : string → option string.
Variable http_client : list (string * string) → Z → result string unit.
Variable decode_page : bytes → result string (list ProviderInstance * Z).
Variable decode_instance : bytes → result string ProviderInstance.
Variable decode_image : bytes → result string ProviderImage.
Variable decode_region : bytes → result string ProviderRegion.
Variable decode_type : bytes → result string string.
Variable decode_firewall : bytes → result string ProviderFirewall.
Variable decode_firewalls : bytes → result string (list ProviderFirewall).
Variable decode_errors : bytes → result string (list (option string * string)).
Variable filter_text : list_filter → result string string.
Variable from_utf8_lossy : bytes → string.
Variable package_version : string.

(** [AkamaiClient::new]. *)
Definition AkamaiClient_new (token base_url : string) (timeout : Z) :
    result AkamaiComputeError AkamaiClient :=
  authorization ← ok_or AE.InvalidAuthorizationHeader (header_value ("Bearer " ++ token));
  let headers := [("authorization", authorization); ("accept", "application/json");
                  ("user-agent", "mcserver-control-plane/" ++ package_version)] in
  _ ← map_err AE.Http (http_client headers timeout);
  Ok {| client_base_url := trim_end_matches (byte_is "/") base_url;
        client_headers := headers; client_timeout := timeout |}.

Variable client : AkamaiClient.
Definition url_of (path : string) : string := client_base_url client ++ path.
Definition plain (method : http_method) (path : string) : http_request := {|
  hr_method := method; hr_url := url_of path; hr_filter := None |}.

(** The text that an error response is reported with. *)
Definition error_text (bounded : bytes) : string :=
  match decode_errors bounded with
  | Ok errors => String.concat "; " (map (λ error, match error.1 with
      | Some field => field ++ ": " ++ error.2
      | None => error.2
      end) errors)
  | Err _ => from_utf8_lossy bounded
  end.

(** [checked_response]. *)
Definition http_checked_response (r : http_response) : result AkamaiComputeError http_response :=
  if http_success r then Ok r
  else
    bounded ← map_err AE.Http (error_body (http_chunks r) []);
    let errors := error_text bounded in
    if http_status r =? 429 then Err (AE.RateLimited (retry_after_of r) errors)
    else Err (AE.Api (http_status r) errors).

(** [.json().await]. *)
Definition http_json {A} (decode : bytes → result string A) (r : http_response) :
    result AkamaiComputeError A :=
  body ← map_err AE.Http (full_body (http_chunks r)); map_err AE.Http (decode body).

(** [checked_response(request.send().await?).await?.json().await]. *)
Definition http_call {A} (request : http_request) (decode : bytes → result string A) :
    http_prog (result AkamaiComputeError A) :=
  let? response := perform (HttpSend request) via AE.Http in
  Ret (checked ← http_checked_response response; http_json decode checked).

Definition page_request (filter : string) (page : Z) : http_request := {|
  hr_method := HttpGet;
  hr_url := url_of ("/linode/instances?page=" ++ u64_to_string page ++ "&page_size=500");
  hr_filter := Some filter |}.

(** The loops over pages of [list_managed_instances] and [find_instance_by_label], which
    keep what they look for. *)
Fixpoint list_pages (fuel : nat) (filter : string) (keep : ProviderInstance → bool) (page : Z)
    (result_ : list ProviderInstance) : http_prog (result AkamaiComputeError (list ProviderInstance)) :=
  match fuel with
  | O => Op HttpForever (λ x : Empty_set, match x with end)
  | S fuel =>
      let? body := http_call (page_request filter page) decode_page via id in
      let result_ := (result_ ++ List.filter keep body.1)%list in
      if Z.max body.2 1 <=? page then Ret (Ok result_)
      else list_pages fuel filter keep (usize_saturating_add page 1) result_
  end.

Variable fuel : nat.
Variable config : AkamaiConfig.

Definition http_list_managed_instances : http_prog (result AkamaiComputeError (list ProviderInstance)) :=
  let? filter := Ret (filter_text FilterManagedTag) via AE.Serialization in
  list_pages fuel filter (λ p, list_contains (pi_tags p) MANAGED_TAG
                               && list_contains (pi_tags p) (scope_tag config)) 1 [].

Definition http_find_instance_by_label (label : string) :
    http_prog (result AkamaiComputeError (option ProviderInstance)) :=
  let? filter := Ret (filter_text (FilterLabel label)) via AE.Serialization in
  let? instances := list_pages fuel filter (λ p, String.eqb (pi_label p) label) 1 [] via id in
  Ret match instances with
      | [] => Ok None
      | [instance] => Ok (Some instance)
      | _ => Err (AE.DuplicateProviderLabel label)
      end.

Definition http_create_instance (request : CreateInstanceRequest) :
    http_prog (result AkamaiComputeError ProviderInstance) :=
  http_call (plain (HttpPost request) "/linode/instances") decode_instance.
Definition http_get_image (image : string) : http_prog (result AkamaiComputeError ProviderImage) :=
  http_call (plain HttpGet ("/images/" ++ image)) decode_image.
Definition http_get_region (region : string) : http_prog (result AkamaiComputeError ProviderRegion) :=
  http_call (plain HttpGet ("/regions/" ++ region)) decode_region.

Definition instance_path (id : Z) : string := "/linode/instances/" ++ u64_to_string id.
Definition http_get_instance (id : Z) : http_prog (result AkamaiComputeError (option ProviderInstance)) :=
  let? response := perform (HttpSend (plain HttpGet (instance_path id))) via AE.Http in
  if http_status response =? 404 then Ret (Ok None)
  else Ret (checked ← http_checked_response response; Some <$> http_json decode_instance checked).
Definition http_delete_instance (id : Z) : http_prog (result AkamaiComputeError unit) :=
  let? response := perform (HttpSend (plain HttpDelete (instance_path id))) via AE.Http in
  if http_status response =? 404 then Ret (Ok tt)
  else Ret (_ ← http_checked_response response; Ok tt).

(** ** The operations of the manager *)

(** What an exchange answers to an operation. A lenient caller looks at the status 404
    before it reads the body. *)
Definition api_answer {A} (lenient : bool) (decode : bytes → result string A) (r : http_response) :
    result AkamaiComputeError (api_response A) :=
  let answer errors := {| resp_status := http_status r; resp_retry_after := retry_after_of r;
                          resp_errors := errors; resp_body := http_json decode r |} in
  if http_success r || (lenient && (http_status r =? 404)) then Ok (answer EmptyString)
  else bounded ← map_err AE.Http (error_body (http_chunks r) []); Ok (answer (error_text bounded)).

Definition api_exchange {A} (lenient : bool) (request : http_request) (decode : bytes → result string A) :
    http_prog (result AkamaiComputeError (api_response A)) :=
  let? response := perform (HttpSend request) via AE.Http in Ret (api_answer lenient decode response).

(** The operations on the provider, as the client carries them out. *)
Definition api_handler (X : Type) (o : op X) : http_prog X :=
  match o in op Y return http_prog Y with
  | ApiListInstances f =>
      let? filter := Ret (filter_text f) via AE.Serialization in
      list_pages fuel filter (λ _, true) 1 []
  | ApiGetInstance id => api_exchange true (plain HttpGet (instance_path id)) decode_instance
  | ApiCreateInstance r => api_exchange false (plain (HttpPost r) "/linode/instances") decode_instance
  | ApiDeleteInstance id => api_exchange true (plain HttpDelete (instance_path id)) (λ _, Ok tt)
  | ApiGetImage image => api_exchange false (plain HttpGet ("/images/" ++ image)) decode_image
  | ApiGetRegion region => api_exchange false (plain HttpGet ("/regions/" ++ region)) decode_region
  | ApiGetType type_id => api_exchange false (plain HttpGet ("/linode/types/" ++ type_id)) decode_type
  | ApiGetFirewall id =>
      api_exchange false (plain HttpGet ("/networking/firewalls/" ++ u64_to_string id)) decode_firewall
  | ApiListInstanceFirewalls id =>
      api_exchange false (plain HttpGet (instance_path id ++ "/firewalls?page=1&page_size=500"))
        decode_firewalls
  | o => perform (HttpOther o)
  end.

(** ** The client carries out the operations *)

Lemma prog_bind_assoc_equiv {A B C} (m : http_prog A) (f : A → http_prog B) (g : B → http_prog C) :
  prog_bind (prog_bind m f) g ≡ prog_bind m (λ a, prog_bind (f a) g).
Proof. induction m as [a|X o k IH]; cbn; [done|]. by constructor. Qed.
Lemma prog_interp_bind {A B} (m : prog A) (f : A → prog B) :
  prog_interp api_handler (prog_bind m f) ≡
  prog_bind (prog_interp api_handler m) (λ a, prog_interp api_handler (f a)).
Proof.
  induction m as [a|X o k IH]; cbn; [done|]. rewrite prog_bind_assoc_equiv.
  apply prog_bind_proper; [done|]. intros x. apply IH.
Qed.
Lemma prog_bind_ret {A} (m : http_prog A) : prog_bind m Ret ≡ m.
Proof. induction m as [a|X o k IH]; cbn; [done|]. by constructor. Qed.

(** A call, and the operation for it. *)
Lemma exchange_call {A} request (decode : bytes → result string A) o :
  api_handler _ o = api_exchange false request decode →
  http_call request decode ≡ prog_interp api_handler (api_call o).
Proof.
  intros Ho. unfold api_call, try_bind, perform. cbn. rewrite Ho. unfold api_exchange, try_bind, perform. cbn.
  unfold http_call, try_bind, perform. cbn. constructor. intros [r|e]; cbn; [|done].
  unfold api_answer, http_checked_response, response_json, checked_response. cbn.
  unfold http_success. destruct (sql_between 200 299 (http_status r)) eqn:Hs; cbn [orb andb].
  - cbn. rewrite Hs. done.
  - destruct (error_body (http_chunks r) []) as [b|e]; cbn; [|done]. rewrite Hs.
    by destruct (http_status r =? 429).
Qed.

Lemma filter_all {A} (l : list A) : List.filter (λ _, true) l = l.
Proof. induction l as [|a l IH]; [done|]. cbn. by rewrite IH. Qed.

(** Keeping on each page is keeping at the end. *)
Lemma list_pages_filter rounds filter keep page found :
  list_pages rounds filter keep page (List.filter keep found) ≡
  prog_bind (list_pages rounds filter (λ _, true) page found) (λ r, Ret (List.filter keep <$> r)).
Proof.
  revert page found. induction rounds as [|rounds IH]; intros page found; cbn [list_pages].
  { constructor. intros []. }
  unfold try_bind. rewrite prog_bind_assoc_equiv. apply prog_bind_proper; [done|]. intros [[data pages]|e]; [|done].
  cbn [fst snd]. rewrite filter_all, <- List.filter_app.
  destruct (Z.max pages 1 <=? page); [done|]. apply IH.
Qed.

(** The functions of the code are those of the manager's model over the client. *)
Theorem client_carries_out_operations :
  http_list_managed_instances ≡ prog_interp api_handler (list_managed_instances config) ∧
  (∀ label, http_find_instance_by_label label ≡ prog_interp api_handler (find_instance_by_label label)) ∧
  (∀ id, http_get_instance id ≡ prog_interp api_handler (client_get_instance id)) ∧
  (∀ id, http_delete_instance id ≡ prog_interp api_handler (client_delete_instance id)) ∧
  (∀ r, http_create_instance r ≡ prog_interp api_handler (api_call (ApiCreateInstance r))) ∧
  (∀ i, http_get_image i ≡ prog_interp api_handler (api_call (ApiGetImage i))) ∧
  (∀ r, http_get_region r ≡ prog_interp api_handler (api_call (ApiGetRegion r))).
Proof.
  split_and!; intros; try (by apply exchange_call).
  - unfold http_list_managed_instances, list_managed_instances, try_bind, perform. cbn.
    destruct (filter_text FilterManagedTag) as [filter|e]; cbn; [|done].
    rewrite (list_pages_filter _ _ _ _ []). apply prog_bind_proper; [done|]. by intros [l|e].
  - unfold http_find_instance_by_label, find_instance_by_label, try_bind, perform. cbn.
    destruct (filter_text (FilterLabel label)) as [filter|e]; cbn; [|done].
    rewrite (list_pages_filter _ _ _ _ []), prog_bind_assoc_equiv. apply prog_bind_proper; [done|].
    by intros [l|e].
  - unfold http_get_instance, client_get_instance, try_bind, perform. cbn. constructor.
    intros [r|e]; cbn; [|done]. unfold api_answer, http_checked_response, response_json, checked_response.
    unfold http_success. destruct (http_status r =? 404) eqn:H4.
    + rewrite orb_true_r. cbn. by rewrite H4.
    + rewrite orb_false_r. destruct (sql_between 200 299 (http_status r)) eqn:Hs; cbn.
      * by rewrite H4, Hs.
      * destruct (error_body (http_chunks r) []) as [b|e]; cbn; [|done]. rewrite H4, Hs.
        by destruct (http_status r =? 429).
  - unfold http_delete_instance, client_delete_instance, try_bind, perform. cbn. constructor.
    intros [r|e]; cbn; [|done]. unfold api_answer, http_checked_response, checked_response.
    unfold http_success. destruct (http_status r =? 404) eqn:H4.
    + rewrite orb_true_r. cbn. by rewrite H4.
    + rewrite orb_false_r. destruct (sql_between 200 299 (http_status r)) eqn:Hs; cbn.
      * by rewrite H4, Hs.
      * destruct (error_body (http_chunks r) []) as [b|e]; cbn; [|done]. rewrite H4, Hs.
        by destruct (http_status r =? 429).
Qed.

(** ** Listings *)

(** The answer to the request for a page. *)
Definition answers_page (filter : string) (page : Z) (e : gevent http_op)
    (content : list ProviderInstance * Z) : Prop :=
  ∃ r, e = GEvent (HttpSend (page_request filter page)) (Ok r) ∧ http_success r = true ∧
    http_json decode_page r = Ok content.

(** The pages from [page] on, each asked for once and in their order, up to the one that
    says there are no more. *)
Inductive read_pages (filter : string) : Z → list (gevent http_op) →
    list (list ProviderInstance * Z) → Prop :=
| read_last page e content :
    answers_page filter page e content → Z.max content.2 1 ≤ page → read_pages filter page [e] [content]
| read_more page e content evs contents :
    answers_page filter page e content → page < Z.max content.2 1 →
    read_pages filter (page + 1) evs contents → read_pages filter page (e :: evs) (content :: contents).

Lemma http_call_ok {A} request (decode : bytes → result string A) evs a :
  trace (http_call request decode) evs (Some (Ok a)) →
  ∃ r, evs = [GEvent (HttpSend request) (Ok r)] ∧ http_success r = true ∧ http_json decode r = Ok a.
Proof.
  unfold http_call. intros (e1 & e2 & r & -> & ->%trace_perform & [-> Hr]%trace_ret_inv)%trace_try_ok.
  exists r. split; [done|]. unfold http_checked_response in Hr. destruct (http_success r); [done|].
  destruct (error_body (http_chunks r) []); cbn in Hr; [|done]. by destruct (http_status r =? 429).
Qed.

(** A listing that succeeds has everything that was to be kept on all pages. *)
Theorem listing_is_complete rounds filter keep page found evs l :
  page + Z.of_nat rounds ≤ u64_max →
  trace (list_pages rounds filter keep page found) evs (Some (Ok l)) →
  ∃ contents, read_pages filter page evs contents ∧
    l = (found ++ List.filter keep (mjoin (fst <$> contents)))%list.
Proof.
  revert page found evs. induction rounds as [|rounds IH]; intros page found evs Hp; cbn [list_pages].
  { intros [[_ ?]|([] & _)]%trace_inv; done. }
  intros (e1 & e2 & [data pages] & -> & (r & -> & Hok & Hr)%http_call_ok & Ht)%trace_try_ok. cbn in Ht.
  assert (answers_page filter page (GEvent (HttpSend (page_request filter page)) (Ok r)) (data, pages))
    as Hans by (by exists r).
  destruct (Z.leb_spec (Z.max pages 1) page) as [Hlast|Hmore].
  - apply trace_ret_inv in Ht as [-> [= ->]]. exists [(data, pages)]. split; [by apply read_last|].
    cbn. by rewrite app_nil_r.
  - replace (usize_saturating_add page 1) with (page + 1) in Ht by (unfold usize_saturating_add; lia).
    apply IH in Ht as (contents & Hread & ->); [|lia]. exists ((data, pages) :: contents).
    split; [by apply read_more|]. cbn. by rewrite List.filter_app, app_assoc.
Qed.

(** A listing is given up only after the provider reported more pages than [rounds]. *)
Theorem listing_ends rounds filter keep found :
  Z.of_nat rounds < u64_max →
  gtraced (λ past X o, match o with
    | HttpForever => rounds = 0%nat ∨ ∃ page e content, e ∈ past ∧ answers_page filter page e content ∧
        Z.of_nat rounds < content.2
    | _ => True
    end) (λ _ _, True) [] (list_pages rounds filter keep 1 found).
Proof.
  intros Hmax. assert (∀ left page found past, 1 ≤ page → page + Z.of_nat left = 1 + Z.of_nat rounds →
    (1 < page → ∃ e content, e ∈ past ∧ answers_page filter (page - 1) e content ∧ page ≤ content.2) →
    gtraced (λ past X o, match o with
    | HttpForever => rounds = 0%nat ∨ ∃ page e content, e ∈ past ∧ answers_page filter page e content ∧
        Z.of_nat rounds < content.2
    | _ => True
    end) (λ _ _, True) past (list_pages left filter keep page found)) as Hall.
  { clear found. intros left. induction left as [|left IH]; intros page found past Hp Hsum Hseen; cbn [list_pages].
    - split; [|by intros []]. destruct (decide (rounds = 0%nat)); [by left|right].
      destruct Hseen as (e & content & ? & ? & ?); [lia|]. exists (page - 1), e, content. split_and!; [done..|lia].
    - unfold http_call. unfold try_bind at 1 2. apply gtraced_bind_assoc, gtraced_perform; [done|].
      intros [r|e]; [|done]. cbn. destruct (http_checked_response r) as [r'|e] eqn:Hc; cbn; [|done].
      assert (http_success r = true ∧ r' = r) as [Hok ->].
      { unfold http_checked_response in Hc. destruct (http_success r); [by simplify_eq|].
        destruct (error_body (http_chunks r) []); cbn in Hc; [|done]. by destruct (http_status r =? 429). }
      destruct (http_json decode_page r) as [[data pages]|e] eqn:Hr; cbn; [|done].
      destruct (Z.leb_spec (Z.max pages 1) page) as [?|Hmore]; [done|].
      replace (usize_saturating_add page 1) with (page + 1) by (unfold usize_saturating_add; lia).
      apply IH; [lia..|]. intros _. eexists _, (data, pages). split; [by left|]. split; [|cbn; lia].
      exists r. by replace (page + 1 - 1) with page by lia. }
  apply Hall; lia.
Qed.

(** ** Error responses *)

(** An error is reported with the first 64 KiB of its body, in whatever chunks it arrives. *)
Theorem error_body_is_prefix chunks body :
  full_body chunks = Ok body →
  error_body chunks [] = Ok (take (Z.to_nat MAX_API_ERROR_BODY_BYTES) body).
Proof.
  assert (∀ bounded, Z.of_nat (length bounded) ≤ MAX_API_ERROR_BODY_BYTES → full_body chunks = Ok body →
    error_body chunks bounded = Ok (take (Z.to_nat MAX_API_ERROR_BODY_BYTES) (bounded ++ body)%list)) as Hgen;
    [|intros; by apply (Hgen []); [cbn; unfold MAX_API_ERROR_BODY_BYTES; lia|]].
  revert body. induction chunks as [|[chunk|e] chunks IH]; intros body bounded Hle Hbody; cbn in Hbody.
  - injection Hbody as <-. rewrite app_nil_r, take_ge by lia. cbn. by destruct (_ <=? _).
  - destruct (full_body chunks) as [rest|]; cbn in Hbody; [|done]. injection Hbody as <-. cbn [error_body].
    destruct (Z.leb_spec MAX_API_ERROR_BODY_BYTES (Z.of_nat (length bounded))) as [Hfull|Hroom].
    + rewrite take_app_le by lia. by rewrite take_ge by lia.
    + set (room := Z.to_nat (MAX_API_ERROR_BODY_BYTES - Z.of_nat (length bounded))).
      rewrite (IH rest); [|rewrite length_app, length_take; lia|done]. f_equal.
      assert (Z.to_nat MAX_API_ERROR_BODY_BYTES = length bounded + room)%nat as -> by lia.
      destruct (decide (length chunk ≤ room)%nat) as [Hc|Hc]; [by rewrite (take_ge chunk), app_assoc|].
      rewrite <- app_assoc, !take_app_add. f_equal. rewrite !take_app_le by (rewrite ?length_take; lia).
      by rewrite take_take, Nat.min_id.
  - done.
Qed.

(** ** Where requests go *)

(** A request to the base URL of the client. *)
Definition at_provider (X : Type) (o : http_op X) : Prop :=
  match o with HttpSend r => ∃ path, hr_url r = url_of ("/" ++ path) | _ => True end.

Lemma call_at_provider {A} method path filter (decode : bytes → result string A) :
  galways at_provider (λ _, True)
    (http_call {| hr_method := method; hr_url := url_of ("/" ++ path); hr_filter := filter |} decode).
Proof. split; [by exists path|]. by intros []. Qed.
Lemma exchange_at_provider {A} lenient method path (decode : bytes → result string A) :
  galways at_provider (λ _, True) (api_exchange lenient (plain method ("/" ++ path)) decode).
Proof. split; [by exists path|]. by intros []. Qed.
Lemma pages_at_provider rounds filter keep page found :
  galways at_provider (λ _, True) (list_pages rounds filter keep page found).
Proof.
  revert page found. induction rounds as [|rounds IH]; intros page found; cbn [list_pages]; [by split|].
  eapply galways_bind; [apply (call_at_provider HttpGet ("linode/instances?page=" ++ _ ++ _))|].
  intros [body|e] _; [|done]. by destruct (_ <=? _).
Qed.

Lemma handler_at_provider X (o : op X) : galways at_provider (λ _, True) (api_handler X o).
Proof.
  destruct o; try (by split); try apply (exchange_at_provider _ _ (String.append _ _));
    try apply (exchange_at_provider _ _ "linode/instances").
  unfold api_handler, try_bind. cbn. destruct (filter_text f); [apply pages_at_provider|done].
Qed.

(** Whatever the manager does, its requests go to the base URL of the client. *)
Lemma requests_stay_at_provider {A} (p : prog A) : galways at_provider (λ _, True) (prog_interp api_handler p).
Proof.
  induction p as [a|X o k IH]; [done|]. cbn. eapply galways_bind; [apply handler_at_provider|]. auto.
Qed.
End client.

Lemma trim_end_idempotent p s : trim_end_matches p (trim_end_matches p s) = trim_end_matches p s.
Proof.
  unfold trim_end_matches. set (drop := fix drop (s : list Ascii.ascii) : list Ascii.ascii := _).
  assert (∀ l, drop (drop l) = drop l) as Hd.
  { induction l as [|c l IH]; [done|]. cbn. destruct (p c) eqn:Hc; [done|]. cbn. by rewrite Hc. }
  rewrite String.list_ascii_of_string_of_list_ascii, rev_involutive, Hd. done.
Qed.

Section secrecy.
Context (url_parse : string → option Url) (env : environment_vars) (files : string → result io_error string).
Context (header_value : string → option string) (http_client : list (string * string) → Z → result string unit).
Context (decode_page : bytes → result string (list ProviderInstance * Z)).
Context (decode_instance : bytes → result string ProviderInstance).
Context (decode_image : bytes → result string ProviderImage).
Context (decode_region : bytes → result string ProviderRegion) (decode_type : bytes → result string string).
Context (decode_firewall : bytes → result string ProviderFirewall).
Context (decode_firewalls : bytes → result string (list ProviderFirewall)).
Context (decode_errors : bytes → result string (list (option string * string))).
Context (filter_text : list_filter → result string string) (from_utf8_lossy : bytes → string).
Context (package_version : string).

(** The token of the provider's API reaches the provider only: with an accepted
    configuration, every request of the manager, whatever it does, goes to the configured
    address, over TLS or to this host. *)
Theorem provider_requests_are_private c a timeout client {A} (p : prog A) fuel evs r request x :
  from_env url_parse env files = Ok c → cfg_akamai c = Some a →
  AkamaiClient_new header_value http_client package_version (akamai_api_token a) (akamai_api_base_url a)
    timeout = Ok client →
  trace (prog_interp (api_handler decode_page decode_instance decode_image decode_region decode_type
    decode_firewall decode_firewalls decode_errors filter_text from_utf8_lossy client fuel) p) evs r →
  GEvent (HttpSend request) x ∈ evs →
  (∃ path, hr_url request = akamai_api_base_url a ++ "/" ++ path) ∧
  secure_api url_parse (akamai_api_base_url a) (loopback_api a).
Proof.
  intros Hc%from_env_ok Ha Hnew Ht Hin. destruct (config_akamai _ _ Hc _ Ha) as (remote & _ & Hok).
  assert (secure_api url_parse (akamai_api_base_url a) (loopback_api a)) as Hsecure by apply Hok.
  split; [|done]. unfold AkamaiClient_new in Hnew. inv_res. 
  pose proof (trace_galways _ _ _ _ _ Ht (requests_stay_at_provider _ _ _ _ _ _ _ _ _ _ _ _ p)) as Hall.
  rewrite Forall_forall in Hall. destruct (Hall _ Hin) as [path Hpath]. exists path.
  rewrite Hpath. unfold url_of. cbn [client_base_url].
  destruct Hsecure as (value & ? & ? & -> & _). by rewrite trim_end_idempotent.
Qed.
End secrecy.
