(* ===== verification/Reconciliation.v ===== *)
(** The reconciliation worker
    (crates/mcserver-control-plane/src/reconciliation.rs) and the compute
    manager it drives (infrastructure/compute.rs): one pass brings a server one
    step closer to its desired state; passes repeat until nothing changes,
    something has to be awaited or an error is scheduled for a retry. *)
From S2P Require Import Prelude Text Programs Server Instances Database Repositories.
From S2P Require Import ComputeRepository.
From S2P Require Import Effects LocalCompute Config AkamaiCompute.
#[local] Open Scope string_scope.
#[local] Open Scope Z_scope.
#[local] Open Scope prog_scope.

Definition MAX_IMMEDIATE_TRANSITIONS : nat := 32.
Definition MAX_ERROR_RETRY_DELAY : Z := from_secs 300.

(** ** Errors and outcomes *)

Module RCE.
(** [ReconcileError]. *)
Inductive ReconcileError :=
| Repository (source : RepositoryError)
| Domain (source : ValidationError)
| Timestamp (source : TimestampError)
| Compute (source : ComputeError)
| Agent (source : AgentCallError)
| DidNotConverge (server : ServerId)
| WritableDataLost (instance : ServerInstanceId).
End RCE.
Abbreviation ReconcileError := RCE.ReconcileError.

Module SO.
(** [StepOutcome]. *)
Inductive StepOutcome := Changed | Stable | Awaiting.
End SO.
Abbreviation StepOutcome := SO.StepOutcome.

Module RO.
(** [ReconcileOutcome]. *)
Inductive ReconcileOutcome := Stable | Retry.
End RO.
Abbreviation ReconcileOutcome := RO.ReconcileOutcome.

(** [ReconcileError::retry_after]. *)
Definition ReconcileError_retry_after (e : ReconcileError) : option Z :=
  match e with
  | RCE.Compute error => ComputeError_retry_after error
  | _ => None
  end.

Definition error_retry_delay (base consecutive_failures : Z) : Z :=
  let exponent := Z.min (u32_saturating_sub consecutive_failures 1) 6 in
  let multiplier := Z.shiftl 1 exponent in
  Z.min (from_option id MAX_ERROR_RETRY_DELAY (duration_checked_mul base multiplier))
    MAX_ERROR_RETRY_DELAY.

(** The delay [reconcile_and_schedule] gives an error. *)
Definition retry_delay (retry_interval : Z) (e : ReconcileError) (consecutive_failures : Z) : Z :=
  match ReconcileError_retry_after e with
  | Some delay => Z.min (Z.max delay retry_interval) MAX_ERROR_RETRY_DELAY
  | None => error_retry_delay retry_interval consecutive_failures
  end.

(** ** Requests to the node agent *)

Definition identity (instance : ServerInstance) : InstanceIdentity :=
  {| server_instance_id := si_id instance; fencing_token := si_fencing_token instance |}.

(** The protocol's process specification copies the domain's. *)
Definition to_agent_process (process : ProcessSpec) : ProcessSpec :=
  {| container_image := container_image process; server_type := server_type process;
     version := version process; host_port := host_port process;
     stop_timeout_seconds := stop_timeout_seconds process; accept_eula := accept_eula process;
     environment := environment process |}.

Section reconciliation.
Context `{Codec}.

(** [LocalComputeManager]'s scope and the optional Akamai manager. *)
Variable local_scope : string.
Variable akamai : option AkamaiConfig.

(** ** [ComputeManager] *)

Definition map_prog_err {E F A} (f : E → F) (m : prog (result E A)) : prog (result F A) :=
  prog_bind m (λ r, Ret (map_err f r)).

Definition ComputeManager_ensure_for_instance (instance : ServerInstance) (now : Z) :
    prog (result ComputeError (ComputeInstance * bool)) :=
  match spec_compute (si_resolved_spec instance) with
  | CS.Local =>
      map_prog_err CE.Local (LocalComputeManager_ensure_for_instance local_scope instance now)
  | CS.Akamai _ _ _ _ =>
      match akamai with
      | None => Ret (Err CE.AkamaiNotConfigured)
      | Some config =>
          map_prog_err CE.Akamai (AkamaiComputeManager_ensure_for_instance config instance now)
      end
  end.

Definition ComputeManager_lifetime_exceeded (compute : ComputeInstance) (now : Z) : bool :=
  match ci_provider compute with
  | CP.LocalProcess => false
  | CP.Akamai => is_some_and (λ config, akamai_lifetime_exceeded config compute now) akamai
  end.

Definition ComputeManager_delete (compute : ComputeInstance) : prog (result ComputeError bool) :=
  match ci_provider compute with
  | CP.LocalProcess => map_prog_err CE.Local (LocalComputeManager_delete local_scope compute)
  | CP.Akamai =>
      match akamai with
      | None => Ret (Err CE.AkamaiNotConfigured)
      | Some config => map_prog_err CE.Akamai (AkamaiComputeManager_delete config compute)
      end
  end.

(** ** One pass *)

Definition persist_observations (instance : ServerInstance) (inspect : AgentInspectResult)
    (now : Z) : prog (result ReconcileError bool) :=
  if data_prepared inspect && is_none (si_data_prepared_at instance) then
    let? _ := perform (Repo (ServerInstanceRepository_mark_data_prepared (si_id instance) now))
      via RCE.Repository in
    Ret (Ok true)
  else if is_none (si_process_observed_at instance)
          || negb (Bool.eqb (si_process_running instance) (process_running inspect)) then
    let? _ := perform (Repo (ServerInstanceRepository_observe_process (si_id instance)
      (process_running inspect) now)) via RCE.Repository in
    Ret (Ok true)
  else Ret (Ok false).

(** The writable data of an instance exists and is in no snapshot yet. *)
Definition has_unpublished_data (instance : ServerInstance) : bool :=
  is_some (si_data_prepared_at instance) && is_none (si_result_snapshot_id instance).

Definition reconcile_running (server : Server) (instance : ServerInstance) :
    prog (result ReconcileError StepOutcome) :=
  let? provisioned_at := perform Now via RCE.Timestamp in
  let? ensured := ComputeManager_ensure_for_instance instance provisioned_at via RCE.Compute in
  let compute := ensured.1 in
  if ensured.2 then Ret (Ok SO.Changed)
  else if ComputeManager_lifetime_exceeded compute provisioned_at then
    let previous_generation := srv_generation server in
    let '(transition, stopped) := Server_set_desired_state server DS.Stopped provisioned_at in
    let? _ := Ret transition via RCE.Domain in
    let? _ := perform (Repo (ServerRepository_update_desired_state stopped previous_generation))
      via RCE.Repository in
    Ret (Ok SO.Changed)
  else
    let! connected := perform (IsConnected (ci_id compute)) in
    if negb connected then Ret (Ok SO.Awaiting)
    else
      let? inspect := perform (CallInspect (ci_id compute) (identity instance)) via RCE.Agent in
      if has_unpublished_data instance && negb (data_prepared inspect)
      then Ret (Err (RCE.WritableDataLost (si_id instance)))
      else
        let? observed_at := perform Now via RCE.Timestamp in
        let? observed := persist_observations instance inspect observed_at via id in
        if (observed : bool) then Ret (Ok SO.Changed)
        else if negb (data_prepared inspect) then
          let? _ := perform (CallRestore (ci_id compute)
            {| restore_instance := identity instance; restore_server_id := srv_id server;
               restore_repository := repository (spec_data (si_resolved_spec instance));
               restore_source_snapshot_id := si_source_snapshot_id instance |}) via RCE.Agent in
          let? prepared_at := perform Now via RCE.Timestamp in
          let? _ := perform (Repo (ServerInstanceRepository_mark_data_prepared (si_id instance)
            prepared_at)) via RCE.Repository in
          Ret (Ok SO.Changed)
        else if negb (process_running inspect) then
          let? _ := perform (CallStart (ci_id compute)
            {| start_instance := identity instance;
               start_process := to_agent_process (spec_process (si_resolved_spec instance)) |})
            via RCE.Agent in
          let? started_at := perform Now via RCE.Timestamp in
          let? _ := perform (Repo (ServerInstanceRepository_observe_process (si_id instance) true
            started_at)) via RCE.Repository in
          Ret (Ok SO.Changed)
        else Ret (Ok SO.Stable).

(** [if self.compute_manager.delete(&compute).await? { Changed } else { Awaiting }]. *)
Definition delete_compute (compute : ComputeInstance) : prog (result ReconcileError StepOutcome) :=
  let? deleted := ComputeManager_delete compute via RCE.Compute in
  Ret (Ok (if (deleted : bool) then SO.Changed else SO.Awaiting)).

(** [self.snapshot_repository.commit(..).await?; return Ok(Changed)]. *)
Definition commit_snapshot (instance : ServerInstance) (snapshot_id : string) :
    prog (result ReconcileError StepOutcome) :=
  let? committed_at := perform Now via RCE.Timestamp in
  let? _ := perform (Repo (SnapshotRepository_commit (si_id instance) (si_fencing_token instance)
    snapshot_id committed_at)) via RCE.Repository in
  Ret (Ok SO.Changed).

(** [reconcile_stopping] once the agent answered [inspect]. *)
Definition stop_inspected (server : Server) (instance : ServerInstance)
    (compute : ComputeInstance) (inspect : AgentInspectResult) :
    prog (result ReconcileError StepOutcome) :=
  if has_unpublished_data instance && negb (data_prepared inspect)
  then Ret (Err (RCE.WritableDataLost (si_id instance)))
  else
    let? observed_at := perform Now via RCE.Timestamp in
    let? observed := persist_observations instance inspect observed_at via id in
    if (observed : bool) then Ret (Ok SO.Changed)
    else if process_running inspect then
      let? _ := perform (CallStop (ci_id compute)
        {| stop_instance := identity instance;
           stop_stop_timeout_seconds :=
             stop_timeout_seconds (spec_process (si_resolved_spec instance)) |}) via RCE.Agent in
      let? stopped_at := perform Now via RCE.Timestamp in
      let? _ := perform (Repo (ServerInstanceRepository_observe_process (si_id instance) false
        stopped_at)) via RCE.Repository in
      Ret (Ok SO.Changed)
    else if has_unpublished_data instance then
      match last_snapshot_id inspect with
      | Some snapshot_id => commit_snapshot instance snapshot_id
      | None =>
          let? snapshot_id := perform (CallSnapshot (ci_id compute)
            {| snapshot_instance := identity instance; snapshot_server_id := srv_id server;
               snapshot_repository := repository (spec_data (si_resolved_spec instance)) |})
            via RCE.Agent in
          commit_snapshot instance snapshot_id
      end
    else
      let? changed := perform (CallCleanup (ci_id compute)
        {| cleanup_instance := identity instance |}) via RCE.Agent in
      if (changed : bool) then Ret (Ok SO.Changed) else delete_compute compute.

(** [compute.shutdown_requested_at.is_some() || !self.agents.is_connected(..)],
    asked only when the data may be discarded. *)
Definition may_delete_now (instance : ServerInstance) (compute : ComputeInstance) : prog bool :=
  if negb (is_none (si_data_prepared_at instance) || is_some (si_result_snapshot_id instance))
  then Ret false
  else if is_some (ci_shutdown_requested_at compute) then Ret true
  else
    let! connected := perform (IsConnected (ci_id compute)) in
    Ret (negb connected).

Definition reconcile_stopping (server : Server) (instance : ServerInstance) :
    prog (result ReconcileError StepOutcome) :=
  let? active := perform (Repo (ComputeInstanceRepository_get_active_for_instance (si_id instance)))
    via RCE.Repository in
  match active with
  | None =>
      if has_unpublished_data instance then Ret (Err (RCE.WritableDataLost (si_id instance)))
      else
        let? now := perform Now via RCE.Timestamp in
        let? completed := perform (Repo (ServerInstanceRepository_complete (si_id instance)
          TR.Completed now)) via RCE.Repository in
        Ret (Ok (if (completed : bool) then SO.Changed else SO.Stable))
  | Some compute =>
      let! delete_now := may_delete_now instance compute in
      if (delete_now : bool) then delete_compute compute
      else
        let? provisioned_at := perform Now via RCE.Timestamp in
        let? ensured := ComputeManager_ensure_for_instance instance provisioned_at
          via RCE.Compute in
        if ensured.2 then Ret (Ok SO.Changed)
        else
          let! connected := perform (IsConnected (ci_id compute)) in
          if negb connected then Ret (Ok SO.Awaiting)
          else
            let? inspect := perform (CallInspect (ci_id compute) (identity instance))
              via RCE.Agent in
            stop_inspected server instance compute inspect
  end.

(** [reconcile_once] when the server has no active instance. *)
Definition start_instance_if_wanted (server : Server) : prog (result ReconcileError StepOutcome) :=
  if bool_decide (srv_desired_state server = DS.Running) then
    let? now := perform Now via RCE.Timestamp in
    let! instance_id := perform NewUuid in
    let? created := create_for_running_server (srv_id server) instance_id now via RCE.Repository in
    Ret (Ok (if is_some created then SO.Changed else SO.Stable))
  else Ret (Ok SO.Stable).

(** [reconcile_once] on the active instance. *)
Definition reconcile_active (server : Server) (instance : ServerInstance) :
    prog (result ReconcileError StepOutcome) :=
  let continue :=
    if is_some (si_stop_requested_at instance) then reconcile_stopping server instance
    else reconcile_running server instance in
  if bool_decide (srv_desired_state server = DS.Stopped) && is_none (si_stop_requested_at instance)
  then
    let? now := perform Now via RCE.Timestamp in
    let? requested := perform (Repo (ServerInstanceRepository_request_stop (si_id instance) now))
      via RCE.Repository in
    if (requested : bool) then Ret (Ok SO.Changed) else continue
  else continue.

Definition reconcile_once (server_id : ServerId) : prog (result ReconcileError StepOutcome) :=
  let? server := perform (Repo (ServerRepository_get server_id)) via RCE.Repository in
  match server with
  | None => Ret (Ok SO.Stable)
  | Some server =>
      let? active := perform (Repo (ServerInstanceRepository_get_active_for_server server_id))
        via RCE.Repository in
      match active with
      | None => start_instance_if_wanted server
      | Some instance => reconcile_active server instance
      end
  end.

(** ** Repeated passes *)

Fixpoint reconcile_transitions (n : nat) (server_id : ServerId) :
    prog (result ReconcileError ReconcileOutcome) :=
  match n with
  | 0%nat => Ret (Err (RCE.DidNotConverge server_id))
  | S n' =>
      let? outcome := reconcile_once server_id via id in
      match outcome with
      | SO.Changed => reconcile_transitions n' server_id
      | SO.Stable => Ret (Ok RO.Stable)
      | SO.Awaiting => Ret (Ok RO.Retry)
      end
  end.

Definition reconcile_until_blocked (server_id : ServerId) :
    prog (result ReconcileError ReconcileOutcome) :=
  reconcile_transitions MAX_IMMEDIATE_TRANSITIONS server_id.

(** [error.to_string()]: the [Display] of the error, around the text of its
    cause, a parameter. *)
Variable cause : ReconcileError → string.

Definition ReconcileError_to_string (e : ReconcileError) : string :=
  match e with
  | RCE.Repository _ => "reconciliation persistence operation failed: " ++ cause e
  | RCE.Domain _ => "reconciliation domain transition failed: " ++ cause e
  | RCE.Timestamp _ => "reconciliation timestamp operation failed: " ++ cause e
  | RCE.Compute _ => "compute operation failed: " ++ cause e
  | RCE.Agent _ => "node-agent operation failed: " ++ cause e
  | RCE.DidNotConverge server =>
      "server reconciliation did not converge for " ++ uuid_to_string server
  | RCE.WritableDataLost instance =>
      "writable data for server instance " ++ uuid_to_string instance
      ++ " has no surviving compute instance"
  end%string.

Definition record_error (server_id : ServerId) (error : ReconcileError) : prog unit :=
  let! active := perform (Repo (ServerInstanceRepository_get_active_for_server server_id)) in
  match active with
  | Ok (Some instance) =>
      let! now := perform Now in
      match now with
      | Ok now =>
          let! _ := perform (Repo (ServerInstanceRepository_record_error (si_id instance)
            (ReconcileError_to_string error) now)) in
          Ret tt
      | Err _ => Ret tt
      end
  | _ => Ret tt
  end.

(** [RetryState]; instants are nanoseconds. *)
Record RetryState := { consecutive_failures : Z; retry_at : Z }.

Definition reconcile_and_schedule (retry_interval : Z) (server_id : ServerId)
    (previous_failures : Z) (pending : gmap N RetryState) : prog (gmap N RetryState) :=
  let! outcome := reconcile_until_blocked server_id in
  match outcome with
  | Ok RO.Stable => Ret pending
  | Ok RO.Retry =>
      let! now := perform InstantNow in
      Ret (<[server_id := {| consecutive_failures := 0; retry_at := now + retry_interval |}]>
             pending)
  | Err error =>
      let failures := u32_saturating_add previous_failures 1 in
      let! now := perform InstantNow in
      let pending := <[server_id := {| consecutive_failures := failures;
        retry_at := now + retry_delay retry_interval error failures |}]> pending in
      let! _ := record_error server_id error in
      Ret pending
  end.

Inductive ReconcileRequest := RequestServer (id : ServerId) | RequestInstance (id : ServerInstanceId).

Definition resolve_request (request : ReconcileRequest) : prog (option ServerId) :=
  match request with
  | RequestServer server_id => Ret (Some server_id)
  | RequestInstance instance_id =>
      let! found := perform (Repo (ServerInstanceRepository_get instance_id)) in
      match found with
      | Ok (Some instance) => Ret (Some (si_server_id instance))
      | _ => Ret None
      end
  end.

(** ** The worker's loop *)

Variable retry_interval : Z.

(** [HashMap]'s iteration order is not specified: any order. *)
Variable iteration_order : list ServerId → list ServerId.

(** [pending.remove(&server_id).map_or(0, |state| state.consecutive_failures)]
    and [reconcile_and_schedule]. *)
Definition reconcile_pending (server_id : ServerId) (pending : gmap N RetryState) :
    prog (gmap N RetryState) :=
  let previous_failures := from_option consecutive_failures 0 (pending !! server_id) in
  reconcile_and_schedule retry_interval server_id previous_failures (delete server_id pending).

(** The arm [request = self.receiver.recv()]. *)
Definition on_request (request : ReconcileRequest) (pending : gmap N RetryState) :
    prog (gmap N RetryState) :=
  let! resolved := resolve_request request in
  match resolved with
  | Some server_id => reconcile_pending server_id pending
  | None => Ret pending
  end.

(** The [for] loop of the arm [retry.tick()]. *)
Fixpoint retry_servers (server_ids : list ServerId) (pending : gmap N RetryState) :
    prog (gmap N RetryState) :=
  match server_ids with
  | [] => Ret pending
  | server_id :: rest =>
      let! cancelled := perform IsCancelled in
      if (cancelled : bool) then Ret pending
      else
        let! pending := reconcile_pending server_id pending in
        retry_servers rest pending
  end.

Definition due_servers (now : Z) (pending : gmap N RetryState) : list ServerId :=
  List.map fst (List.filter (λ '(_, state), retry_at state <=? now) (map_to_list pending)).

Definition on_retry_tick (pending : gmap N RetryState) : prog (gmap N RetryState) :=
  let! now := perform InstantNow in
  retry_servers (iteration_order (due_servers now pending)) pending.

(** The [for] loop of the arm [resync.tick()]. *)
Fixpoint resync_servers (now : Z) (servers : list Server) (pending : gmap N RetryState) :
    prog (gmap N RetryState) :=
  match servers with
  | [] => Ret pending
  | server :: rest =>
      let! cancelled := perform IsCancelled in
      if (cancelled : bool) then Ret pending
      else if is_some_and (λ state, now <? retry_at state) (pending !! srv_id server)
      then resync_servers now rest pending
      else
        let! pending := reconcile_pending (srv_id server) pending in
        resync_servers now rest pending
  end.

Definition on_resync_tick (pending : gmap N RetryState) : prog (gmap N RetryState) :=
  let! listed := perform (Repo ServerRepository_list_for_reconciliation) in
  match listed with
  | Ok servers =>
      let! now := perform InstantNow in
      resync_servers now servers pending
  | Err _ => Ret pending
  end.

(** An arm of [tokio::select!], and the arms [run] takes one after another
    until it is cancelled. *)
Inductive run_arm := ArmRequest (request : ReconcileRequest) | ArmRetry | ArmResync.

Definition run_one (arm : run_arm) (pending : gmap N RetryState) : prog (gmap N RetryState) :=
  match arm with
  | ArmRequest request => on_request request pending
  | ArmRetry => on_retry_tick pending
  | ArmResync => on_resync_tick pending
  end.

Fixpoint run_arms (arms : list run_arm) (pending : gmap N RetryState) : prog (gmap N RetryState) :=
  match arms with
  | [] => Ret pending
  | arm :: rest =>
      let! pending := run_one arm pending in
      run_arms rest pending
  end.
End reconciliation.
