(* ===== verification/Semantics.v ===== *)
(** Executions of programs against the database.

    Between any two operations other tasks may write to the database (any
    number of transitions of [env], some of the writes of the repositories), a
    database operation may fail before or after it took effect, and every other
    operation may be answered in any way its type allows. *)
From S2P Require Import Prelude Text Programs Server ServerFacts Instances InstanceFacts Database.
From S2P Require Import RowFacts.
From S2P Require Import Repositories ComputeRepository Invariant RepositoryFacts LifecycleFacts.
From S2P Require Import ComputeFacts Persistence Effects.
#[local] Open Scope string_scope.
#[local] Open Scope Z_scope.

(** ** Traces *)

Inductive event :=
| Event {X : Type} (o : op X) (x : X).

(** A property of an event's operation. *)
Definition on_event (P : ∀ X, op X → Prop) (ev : event) : Prop :=
  match ev with Event o _ => P _ o end.

Definition is_repo {X} (o : op X) : bool := match o with Repo _ => true | _ => false end.

Section semantics.
Context `{CodecLaws}.

Inductive answer (db : Database) : ∀ {X}, op X → X → Database → Prop :=
| answer_repo {A} (m : repo A) r db' : m db = (r, db') → answer db (Repo m) r db'
| answer_refused {A} (m : repo A) e : answer db (Repo m) (Err (RE.Database e)) db
| answer_lost {A} (m : repo A) r db' e : m db = (r, db') → answer db (Repo m) (Err (RE.Database e)) db'
| answer_world {X} (o : op X) x : is_repo o = false → valid_answer o x → answer db o x db.

(** What other tasks do meanwhile: some of the writes of the repositories. *)
Variable env : Database → Database → Prop.

Inductive exec {A} : Database → prog A → list event → Database → A → Prop :=
| exec_ret db a : exec db (Ret a) [] db a
| exec_op {X} (o : op X) k x db db1 db2 evs db' a :
    rtc env db db1 → answer db1 o x db2 → exec db2 (k x) evs db' a →
    exec db (Op o k) (Event o x :: evs) db' a.

(** ** Composition *)

Lemma exec_inv {A} db (p : prog A) evs db' a :
  exec db p evs db' a →
  match p with
  | Ret a' => evs = [] ∧ db' = db ∧ a = a'
  | Op o k => ∃ x db1 db2 evs', rtc env db db1 ∧ answer db1 o x db2 ∧ exec db2 (k x) evs' db' a ∧
      evs = Event o x :: evs'
  end.
Proof. destruct 1; eauto 10. Qed.

Lemma exec_bind_inv {A B} (m : prog A) (f : A → prog B) db evs db' b :
  exec db (prog_bind m f) evs db' b →
  ∃ evs1 evs2 db1 a, exec db m evs1 db1 a ∧ exec db1 (f a) evs2 db' b ∧ evs = (evs1 ++ evs2)%list.
Proof.
  revert db evs. induction m as [a|X o k IH]; intros db evs; cbn [prog_bind].
  - intros He. exists [], evs, db, a. split; [constructor|done].
  - intros (x & db1 & db2 & evs' & Hst & Ha & He & ->)%exec_inv.
    destruct (IH _ _ _ He) as (evs1 & evs2 & dbm & a & Hm & Hf & ->).
    exists (Event o x :: evs1), evs2, dbm, a. split; [by econstructor|done].
Qed.

Lemma exec_try_inv {E F A B} (conv : E → F) (m : prog (result E A))
    (f : A → prog (result F B)) db evs db' r :
  exec db (try_bind conv m f) evs db' r →
  (∃ e, exec db m evs db' (Err e) ∧ r = Err (conv e)) ∨
  (∃ evs1 evs2 db1 a, exec db m evs1 db1 (Ok a) ∧ exec db1 (f a) evs2 db' r ∧
     evs = (evs1 ++ evs2)%list).
Proof.
  intros (evs1 & evs2 & db1 & [a|e] & Hm & Hf & ->)%exec_bind_inv.
  - right. eauto 10.
  - apply exec_inv in Hf as (-> & -> & ->). rewrite app_nil_r. eauto.
Qed.

(** Whatever the database, an execution does what the program always does. *)
Lemma exec_result {A} (P : ∀ X, op X → Prop) (Q : A → Prop) db p evs db' a :
  exec db p evs db' a → always P Q p → Forall (on_event P) evs ∧ Q a.
Proof.
  induction 1 as [|X o k x db db1 db2 evs db' a _ Ha _ IH]; cbn; [by split|].
  intros [Ho Hk]. assert (Hv : valid_answer o x) by (by destruct Ha).
  destruct (IH (Hk _ Hv)) as [? ?]. split; [by constructor|done].
Qed.

(** ** Programs that keep an assertion on the database *)

Definition repo_keeps (I : Database → Prop) {A} (m : repo A) : Prop := ∀ db, I db → I (m db).2.

Definition op_keeps (I : Database → Prop) {X} (o : op X) : Prop :=
  match o with Repo m => repo_keeps I m | _ => True end.

Lemma answer_keeps (I : Database → Prop) db {X} (o : op X) x db' :
  answer db o x db' → op_keeps I o → I db → I db'.
Proof.
  intros Ha Hk. destruct Ha as [A m r db' E|A m e|A m r db' e E|X o x Ho Hv]; try done.
  all: intros HI; specialize (Hk db HI); by rewrite E in Hk.
Qed.

Lemma env_keeps (I : Database → Prop) db db' :
  (∀ d d', env d d' → I d → I d') → rtc env db db' → I db → I db'.
Proof. intros Henv. induction 1; eauto. Qed.

Lemma exec_keeps {A} (I : Database → Prop) (Q : A → Prop) db (p : prog A) evs db' a :
  (∀ d d', env d d' → I d → I d') → always (λ X o, op_keeps I o) Q p →
  exec db p evs db' a → I db → I db'.
Proof.
  intros Henv Hp He. induction He as [|X o k x db db1 db2 evs db' a Hst Ha He IH]; [done|].
  intros HI. destruct Hp as [Ho Hk]. apply IH.
  - apply Hk. by destruct Ha.
  - eapply answer_keeps; [exact Ha|done|]. by eapply env_keeps.
Qed.

(** ** Programs that keep the invariant *)

Hypothesis env_step : ∀ d d', env d d' → db_step d d'.

(** [m] makes only transitions of the database, in every database that extends
    [db0]. *)
Definition repo_safe (db0 : Database) {A} (m : repo A) : Prop :=
  ∀ db, db_ok db → grows db0 db → rtc db_step db (m db).2.

Definition op_safe (db0 : Database) {X} (o : op X) : Prop :=
  match o with Repo m => repo_safe db0 m | _ => True end.

Lemma env_steps db db' : rtc env db db' → rtc db_step db db'.
Proof. intros Hs. eapply rtc_subrel; [|exact Hs]. exact env_step. Qed.

Lemma env_safe db db' : db_ok db → rtc env db db' → db_ok db' ∧ grows db db'.
Proof. intros Hok Hs%env_steps. by apply steps_safe. Qed.

Lemma answer_valid db {X} (o : op X) x db' : answer db o x db' → valid_answer o x.
Proof. by destruct 1. Qed.

Lemma answer_safe db0 db {X} (o : op X) x db' :
  answer db o x db' → op_safe db0 o → db_ok db → grows db0 db → rtc db_step db db'.
Proof.
  intros Ha Hs Hok Hg. destruct Ha as [A m r db' E|A m e|A m r db' e E|X o x Ho Hv].
  - specialize (Hs db Hok Hg). by rewrite E in Hs.
  - reflexivity.
  - specialize (Hs db Hok Hg). by rewrite E in Hs.
  - reflexivity.
Qed.

(** An execution of a safe program makes only transitions of the database; each
    of its operations and its result satisfy what the program always
    satisfies. *)
Lemma exec_always {A} db0 (P : ∀ X, op X → Prop) (Q : A → Prop) db p evs db' a :
  exec db p evs db' a → db_ok db → grows db0 db →
  always (λ X o, op_safe db0 o) (λ _, True) p → always P Q p →
  rtc db_step db db' ∧ Forall (on_event P) evs ∧ Q a.
Proof.
  intros He. induction He as [db a|X o k x db db1 db2 evs db' a Hst Ha He IH]; cbn.
  { intros Hok Hg _ HQ. split_and!; [reflexivity|constructor|done]. }
  intros Hok Hg [Hso Hsk] [HPo HPk].
  destruct (env_safe _ _ Hok Hst) as [Hok1 Hg1].
  assert (Hg01 : grows db0 db1) by (by transitivity db).
  pose proof (answer_safe _ _ _ _ _ Ha Hso Hok1 Hg01) as Hst2.
  destruct (steps_safe _ _ Hok1 Hst2) as [Hok2 Hg2].
  pose proof (answer_valid _ _ _ _ Ha) as Hv.
  destruct (IH Hok2) as (Hst3 & HP & HQ); [by transitivity db1|auto|auto|].
  split_and!; [|by constructor|done].
  etransitivity; [by apply env_steps|]. by transitivity db2.
Qed.
End semantics.
