(* ===== verification/ManagerFacts.v ===== *)
(** The database operations of the compute managers keep the invariant, and
    what the managers ask of the cloud provider and the host is guarded. *)
From S2P Require Import Prelude Text Programs Server ServerFacts Instances InstanceFacts Database.
From S2P Require Import RowFacts.
From S2P Require Import Repositories ComputeRepository Invariant RepositoryFacts LifecycleFacts.
From S2P Require Import ComputeFacts Persistence Effects Semantics LocalCompute AkamaiCompute.
From Stdlib Require Import Ascii.
#[local] Open Scope string_scope.
#[local] Open Scope Z_scope.

(** ** Texts the managers store *)

Lemma hexdigit_printable b : is_ascii_hexdigit b = true → printable b.
Proof.
  unfold printable, is_ascii_hexdigit, is_ascii_digit, byte_in.
  intros Hb. repeat (apply orb_true_iff in Hb as [Hb|Hb]); inv_res; bz; lia.
Qed.

Lemma connection_token_ok t :
  str_len t = 64 → bytes_all is_ascii_hexdigit t = true → text_ok MAX_CONNECTION_TOKEN_CHARS t.
Proof.
  intros Hlen Hall. apply printable_text_ok; [|lia|unfold MAX_CONNECTION_TOKEN_CHARS; lia].
  apply bytes_all_Forall in Hall. eapply Forall_impl; [exact Hall|]. apply hexdigit_printable.
Qed.

Lemma digit_char_printable d : 0 ≤ d < 10 → printable (digit_char d).
Proof.
  intros Hd. unfold printable, byte_of, digit_char. rewrite N_ascii_embedding by lia. lia.
Qed.

Lemma decimal_printable fuel n rest :
  Forall printable (String.list_ascii_of_string rest) →
  Forall printable (String.list_ascii_of_string (decimal fuel n rest)).
Proof.
  revert n rest. induction fuel as [|fuel IH]; intros n rest Hr; [done|]. cbn [decimal].
  assert (Hc : Forall printable
    (String.list_ascii_of_string (String (digit_char (n mod 10)) rest))).
  { cbn. constructor; [apply digit_char_printable, Z.mod_pos_bound; lia|done]. }
  destruct (n <? 10); auto.
Qed.

Lemma decimal_len fuel n rest :
  str_len rest ≤ str_len (decimal fuel n rest) ≤ str_len rest + Z.of_nat fuel.
Proof.
  revert n rest. induction fuel as [|fuel IH]; intros n rest; [cbn; lia|]. cbn [decimal].
  assert (Hl : str_len (String (digit_char (n mod 10)) rest) = str_len rest + 1)
    by (unfold str_len; cbn; lia).
  destruct (n <? 10); [rewrite Hl; lia|]. specialize (IH (n / 10) (String (digit_char (n mod 10)) rest)).
  lia.
Qed.

Lemma decimal_has_digits fuel n rest : 1 ≤ str_len (decimal (S fuel) n rest).
Proof.
  cbn [decimal]. assert (Hl : 1 ≤ str_len (String (digit_char (n mod 10)) rest))
    by (unfold str_len; cbn; lia).
  destruct (n <? 10); [done|].
  pose proof (decimal_len fuel (n / 10) (String (digit_char (n mod 10)) rest)). lia.
Qed.

Lemma provider_id_ok n : text_ok MAX_PROVIDER_INSTANCE_ID_CHARS (u64_to_string n).
Proof.
  unfold u64_to_string. apply printable_text_ok.
  - apply decimal_printable. constructor.
  - apply decimal_has_digits.
  - pose proof (decimal_len 20 n "") as Hl. change (str_len "") with 0 in Hl.
    unfold MAX_PROVIDER_INSTANCE_ID_CHARS. lia.
Qed.

(** Lengths and bytes of a dotted text, from its parts. *)
Lemma split_dots_facts (P : ascii → Prop) s part :
  Forall (Forall P) (split_dots s part) →
  Forall (λ b, P b ∨ b = "."%char) s ∧
  (length s + length part + 1 =
   sum_list (map length (split_dots s part)) + length (split_dots s part))%nat.
Proof.
  revert part. induction s as [|c s IH]; intros part; cbn [split_dots].
  - intros _. cbn. rewrite length_rev. split; [constructor|lia].
  - unfold byte_is. destruct (Ascii.eqb_spec "."%char c) as [<-|Hne].
    + intros [Hp Hs]%Forall_cons. destruct (IH _ Hs) as [H1 H2]. split.
      * constructor; [by right|done].
      * cbn [map length sum_list]. rewrite length_rev. cbn in H2 |- *. lia.
    + intros Hs. destruct (IH _ Hs) as [H1 H2]. split.
      * constructor; [|done]. left.
        assert (Hin : ∀ s' q, Forall (Forall P) (split_dots s' q) → Forall P q).
        { clear. induction s' as [|d s' IH]; intros q; cbn [split_dots].
          - intros [Hq _]%Forall_cons. rewrite <- rev_involutive. by apply Forall_rev.
          - destruct (byte_is _ d).
            + intros [Hq _]%Forall_cons. rewrite <- rev_involutive. by apply Forall_rev.
            + intros Hq%IH. by apply Forall_cons in Hq as [_ ?]. }
        apply Hin in Hs. by apply Forall_cons in Hs as [? _].
      * cbn in H2 |- *. lia.
Qed.

Lemma digit_printable b : is_ascii_digit b = true → printable b.
Proof. unfold printable, is_ascii_digit, byte_in. intros Hb. inv_res. bz. lia. Qed.

(** An address [Ipv4Addr] accepts fits its column. *)
Lemma ipv4_text_ok s : parses_as_ipv4 s = true → text_ok MAX_PUBLIC_IPV4_CHARS s.
Proof.
  unfold parses_as_ipv4. intros [Hn Hall]%andb_true_iff. bz.
  set (parts := split_dots _ _) in *.
  assert (Hoct : Forall (λ d, Forall (λ b, is_ascii_digit b = true) d ∧ (1 ≤ length d ≤ 3)%nat) parts).
  { apply List.Forall_forall. intros d Hd. rewrite forallb_forall in Hall. specialize (Hall d Hd).
    unfold is_ipv4_octet in Hall. inv_res. bz. split; [|lia].
    apply List.Forall_forall. intros b Hb. by apply (proj1 (forallb_forall is_ascii_digit d)). }
  destruct (split_dots_facts (λ b, is_ascii_digit b = true) (String.list_ascii_of_string s) [])
    as [Hbytes Hlen].
  { eapply Forall_impl; [exact Hoct|]. by intros d [? _]. }
  fold parts in Hlen.
  assert (Hsum : ∀ l : list (list ascii), Forall (λ d, Forall (λ b, is_ascii_digit b = true) d ∧
    (1 ≤ length d ≤ 3)%nat) l → (length l ≤ sum_list (map length l) ≤ 3 * length l)%nat).
  { induction l as [|d l IH]; [cbn; lia|]. intros [[_ Hd] Hl]%Forall_cons.
    specialize (IH Hl). cbn. lia. }
  specialize (Hsum parts Hoct).
  assert (Hl : Z.of_nat (length (String.list_ascii_of_string s)) = str_len s).
  { unfold str_len. f_equal. clear. induction s; cbn; congruence. }
  cbn in Hlen. apply printable_text_ok.
  - eapply Forall_impl; [exact Hbytes|]. intros b [Hb| ->]; [by apply digit_printable|].
    by vm_compute; split.
  - lia.
  - unfold MAX_PUBLIC_IPV4_CHARS. lia.
Qed.

Lemma public_ipv4_ok p a :
  public_ipv4 p = Some a → text_ok MAX_PUBLIC_IPV4_CHARS a ∧ parses_as_ipv4 a = true.
Proof.
  unfold public_ipv4. intros [_ Ha]%find_some. inv_res. split; [by apply ipv4_text_ok|done].
Qed.

(** ** Safe database operations *)

Section safe_operations.
Context `{CodecLaws}.

(** Reads. *)
Lemma repo_safe_read db0 {A} (m : repo A) : (∀ db, (m db).2 = db) → repo_safe db0 m.
Proof. intros Hr db Hok _. rewrite Hr. reflexivity. Qed.

(** Writes whose precondition does not depend on the state. *)
Lemma repo_safe_write db0 {A} (m : repo A) w :
  run_write w = outcome m → (∀ db, write_pre db w) → repo_safe db0 m.
Proof.
  intros Hw Hpre db Hok _. apply rtc_once. exists w. split; [done|]. rewrite Hw.
  unfold outcome. by destruct (m db) as [[] ?].
Qed.

Lemma safe_get_compute db0 id : repo_safe db0 (ComputeInstanceRepository_get id).
Proof. by apply repo_safe_read. Qed.
Lemma safe_get_active_compute db0 id :
  repo_safe db0 (ComputeInstanceRepository_get_active_for_instance id).
Proof. by apply repo_safe_read. Qed.
Lemma safe_get_server db0 id : repo_safe db0 (ServerRepository_get id).
Proof. by apply repo_safe_read. Qed.
Lemma safe_get_instance db0 id : repo_safe db0 (ServerInstanceRepository_get id).
Proof. by apply repo_safe_read. Qed.
Lemma safe_get_active_instance db0 id :
  repo_safe db0 (ServerInstanceRepository_get_active_for_server id).
Proof. by apply repo_safe_read. Qed.

Lemma safe_create_compute db0 id iid p t e now :
  0 ≤ now → text_ok MAX_CONNECTION_TOKEN_CHARS t →
  (∀ x, e = Some x → text_ok MAX_CONNECTION_TOKEN_CHARS x ∧ p = CP.Akamai) →
  repo_safe db0 (insert_compute id iid p t e now).
Proof.
  intros Hn Ht He db Hok Hg.
  assert ((insert_compute id iid p t e now db).2 =
    (ComputeInstanceRepository_create_for_instance id iid p t e now db).2) as ->.
  { unfold ComputeInstanceRepository_create_for_instance. rewrite run_bind.
    by destruct (insert_compute id iid p t e now db) as [[[]|] db']. }
  by apply (repo_safe_write db0 _ (WCreateCompute id iid p t e now)).
Qed.

Lemma safe_record_process_id db0 id pid now :
  0 ≤ now → 1 ≤ pid ≤ u32_max →
  repo_safe db0 (ComputeInstanceRepository_record_process_id id pid now).
Proof. intros. by apply (repo_safe_write _ _ (WRecordProcessId id pid now)). Qed.

Lemma safe_record_provider db0 id n p now :
  0 ≤ now →
  repo_safe db0 (ComputeInstanceRepository_record_provider_instance id (u64_to_string n)
    (public_ipv4 p) now).
Proof.
  intros. apply (repo_safe_write _ _ (WRecordProviderInstance id (u64_to_string n)
    (public_ipv4 p) now)); [done|]. intros db. split_and!; [done|apply provider_id_ok|].
  intros x Hx. by eapply public_ipv4_ok.
Qed.

Lemma safe_request_shutdown db0 id now :
  0 ≤ now → repo_safe db0 (ComputeInstanceRepository_request_shutdown id now).
Proof. intros. by apply (repo_safe_write _ _ (WRequestShutdown id now)). Qed.

Lemma safe_terminate_deleted db0 id now :
  0 ≤ now → repo_safe db0 (ComputeInstanceRepository_terminate id CTR.Deleted None now).
Proof. intros. by apply (repo_safe_write _ _ (WTerminate id CTR.Deleted None now)). Qed.

Lemma safe_create_instance db0 sid iid now :
  0 ≤ now → repo_safe db0 (create_instance_transaction sid iid now).
Proof.
  intros Hn db Hok Hg.
  assert ((create_instance_transaction sid iid now db).2 =
    (ServerInstanceRepository_create_for_running_server sid iid now db).2) as ->.
  { unfold ServerInstanceRepository_create_for_running_server. rewrite run_bind.
    by destruct (create_instance_transaction sid iid now db) as [[[]|] db']. }
  by apply (repo_safe_write db0 _ (WCreateInstance sid iid now)).
Qed.

Lemma safe_request_stop db0 id now :
  0 ≤ now → repo_safe db0 (ServerInstanceRepository_request_stop id now).
Proof. intros. by apply (repo_safe_write _ _ (WRequestStop id now)). Qed.

Lemma safe_mark_data_prepared db0 id now :
  0 ≤ now → repo_safe db0 (ServerInstanceRepository_mark_data_prepared id now).
Proof. intros. by apply (repo_safe_write _ _ (WMarkDataPrepared id now)). Qed.

Lemma safe_observe_process db0 id b now :
  0 ≤ now → repo_safe db0 (ServerInstanceRepository_observe_process id b now).
Proof. intros. by apply (repo_safe_write _ _ (WObserveProcess id b now)). Qed.

Lemma safe_complete db0 id r now :
  0 ≤ now → repo_safe db0 (ServerInstanceRepository_complete id r now).
Proof. intros. by apply (repo_safe_write _ _ (WComplete id r now)). Qed.

Lemma safe_commit db0 id t s now :
  0 ≤ now → repo_safe db0 (SnapshotRepository_commit id t s now).
Proof. intros. by apply (repo_safe_write _ _ (WCommit id t s now)). Qed.
End safe_operations.

#[export] Hint Resolve safe_get_compute safe_get_active_compute safe_get_server safe_get_instance
  safe_get_active_instance safe_record_process_id safe_record_provider safe_request_shutdown
  safe_terminate_deleted safe_create_instance safe_request_stop safe_mark_data_prepared
  safe_observe_process safe_complete safe_commit : mcserver.

(** ** Walking programs *)

(** [walk] goes through every branch of a program of which [always] is to be
    shown, up to the operations it cannot discharge by the hints. *)
Ltac walk_step :=
  match goal with
  | |- always _ _ (Ret _) => apply always_ret; try exact I
  | |- always _ _ (Op _ _) => apply always_op; [|intros ? ?]
  | |- always _ _ (perform _) => unfold perform
  | |- always _ _ (create_for_instance _ _ _ _ _ _) => unfold create_for_instance
  | |- always _ _ (create_for_running_server _ _ _) => unfold create_for_running_server
  | |- always _ _ (try_bind _ (perform _) _) =>
      apply always_try_perform; [|intros ? ?; try exact I|intros ? ?]
  | |- always _ _ (try_bind _ (Ret _) _) => apply always_try_ret; [intros ? ?; try exact I|intros ? ?]
  | |- always _ _ (try_bind _ _ _) => apply always_try_any; [|intros ?; try exact I|intros ?]
  | |- always _ _ (prog_bind (perform _) _) => apply always_perform; [|intros ? ?]
  | |- always _ _ (prog_bind (Ret _) _) => cbn [prog_bind]
  | |- always _ _ (prog_bind (Op _ _) _) => cbn [prog_bind]
  | |- always _ _ (prog_bind _ _) => eapply (always_bind _ (λ _, True)); [|intros ? ?]
  | |- always _ _ (match ?x with _ => _ end) => destruct x eqn:?
  | |- always _ _ (let _ := _ in _) => cbv zeta
  | H : valid_answer _ (Ok _) |- _ => cbn in H
  | H : valid_answer _ (Some _) |- _ => cbn in H
  | H : valid_answer Now _ |- _ => progress cbn in H
  | H : valid_answer NewConnectionToken _ |- _ => cbn in H; destruct H
  end.
Ltac walk := repeat (walk_step; cbv beta in *).

Section managers.
Context `{CodecLaws}.
Variable db0 : Database.
Abbreviation safe := (always (λ X o, op_safe db0 o) (λ _, True)).


Ltac safe_ops := walk; try exact I; cbn [op_safe]; eauto with mcserver.

Lemma load_local_runtime_state_safe c : safe (load_local_runtime_state c).
Proof. unfold load_local_runtime_state. safe_ops. Qed.

Lemma runtime_process_matches_safe s : safe (runtime_process_matches s).
Proof. unfold runtime_process_matches. safe_ops. Qed.

#[local] Hint Resolve load_local_runtime_state_safe runtime_process_matches_safe : mcserver.

Lemma process_is_running_safe scope c : safe (process_is_running scope c).
Proof. unfold process_is_running. safe_ops. Qed.

Lemma spawn_agent_pid scope c :
  always (λ X o, op_safe db0 o)
    (λ r, match r with Ok pid => 1 ≤ pid ≤ u32_max | Err _ => True end) (spawn_agent scope c).
Proof. unfold spawn_agent, capture_local_runtime_state. cbv zeta. safe_ops. Qed.

Lemma local_find_or_create_safe i now : 0 ≤ now → safe (local_find_or_create i now).
Proof.
  intros Hn. unfold local_find_or_create. safe_ops.
  apply safe_create_compute; [done|by apply connection_token_ok|done].
Qed.

Lemma local_ensure_process_safe scope c : safe (local_ensure_process scope c).
Proof.
  unfold local_ensure_process. apply always_try_any; [apply process_is_running_safe|done|].
  intros running. destruct running; [done|].
  eapply (always_try _ (λ pid, 1 ≤ pid ≤ u32_max)).
  { eapply always_mono; [done| |apply spawn_agent_pid]. by intros []. }
  intros pid Hpid. safe_ops.
Qed.

Lemma local_ensure_safe scope i now :
  0 ≤ now → safe (LocalComputeManager_ensure_for_instance scope i now).
Proof.
  intros Hn. unfold LocalComputeManager_ensure_for_instance. safe_ops.
  - by apply local_find_or_create_safe.
  - apply local_ensure_process_safe.
Qed.

Lemma local_delete_safe scope c : safe (LocalComputeManager_delete scope c).
Proof.
  unfold LocalComputeManager_delete, local_stop_process. cbv zeta. safe_ops.
Qed.

(** ** Akamai *)

Lemma list_managed_instances_safe config : safe (list_managed_instances config).
Proof. unfold list_managed_instances. safe_ops. Qed.
Lemma find_instance_by_label_safe label : safe (find_instance_by_label label).
Proof. unfold find_instance_by_label. safe_ops. Qed.
Lemma client_get_instance_safe id : safe (client_get_instance id).
Proof. unfold client_get_instance. safe_ops. Qed.
Lemma client_delete_instance_safe id : safe (client_delete_instance id).
Proof. unfold client_delete_instance. safe_ops. Qed.
Lemma verify_bootstrap_safe image region : safe (verify_bootstrap_compatibility image region).
Proof. unfold verify_bootstrap_compatibility, api_call. safe_ops. Qed.
Lemma verify_instance_type_safe t : safe (verify_instance_type t).
Proof. unfold verify_instance_type, api_call. safe_ops. Qed.
Lemma verify_firewall_safe f : safe (verify_firewall f).
Proof. unfold verify_firewall, api_call. safe_ops. Qed.
Lemma verify_provider_configuration_safe p r t i f :
  safe (verify_provider_configuration p r t i f).
Proof. unfold verify_provider_configuration, verify_instance_firewall, api_call. safe_ops. Qed.

#[local] Hint Resolve list_managed_instances_safe find_instance_by_label_safe
  client_get_instance_safe client_delete_instance_safe verify_bootstrap_safe
  verify_instance_type_safe verify_firewall_safe verify_provider_configuration_safe : mcserver.

Lemma find_or_create_instance_safe config l r t i f inst c b :
  safe (find_or_create_instance config l r t i f inst c b).
Proof. unfold find_or_create_instance, api_call. safe_ops. Qed.

#[local] Hint Resolve find_or_create_instance_safe : mcserver.

Lemma akamai_ensure_provider_safe config inst c r t i f :
  safe (akamai_ensure_provider config inst c r t i f).
Proof. unfold akamai_ensure_provider. cbv zeta. safe_ops. Qed.

Lemma akamai_find_or_create_compute_safe config i now :
  0 ≤ now → safe (akamai_find_or_create_compute config i now).
Proof.
  intros Hn. unfold akamai_find_or_create_compute. safe_ops.
  apply safe_create_compute; [done|by apply connection_token_ok|].
  intros ? [= <-]. split; [by apply connection_token_ok|done].
Qed.

#[local] Hint Resolve akamai_ensure_provider_safe akamai_find_or_create_compute_safe : mcserver.

Lemma akamai_ensure_safe config i now :
  0 ≤ now → safe (AkamaiComputeManager_ensure_for_instance config i now).
Proof. intros Hn. unfold AkamaiComputeManager_ensure_for_instance. cbv zeta. safe_ops. Qed.

Lemma akamai_delete_safe config c : safe (AkamaiComputeManager_delete config c).
Proof. unfold AkamaiComputeManager_delete, akamai_owned_provider. cbv zeta. safe_ops. Qed.

Lemma akamai_reap_safe config active : safe (AkamaiComputeManager_reap_orphans config active).
Proof.
  unfold AkamaiComputeManager_reap_orphans.
  apply always_try_ret; [done|]. intros _ _. apply always_try_any; [apply list_managed_instances_safe|done|].
  intros managed. generalize 0 at 1. generalize 0.
  induction managed as [|p managed IH]; intros deleted adopted; cbn [reap_providers]; [done|].
  apply always_try_any; [|done|intros counts; apply IH].
  unfold reap_provider, client_delete_instance. cbv zeta. safe_ops.
Qed.
End managers.
