(* ===== verification/ReconcileFacts.v ===== *)
(** What a reconciliation pass may do, whatever the world answers. *)
From S2P Require Import Prelude Text Programs Server ServerFacts Instances InstanceFacts Database.
From S2P Require Import RowFacts.
From S2P Require Import Repositories ComputeRepository Invariant RepositoryFacts LifecycleFacts.
From S2P Require Import ComputeFacts Persistence Effects Semantics LocalCompute AkamaiCompute.
From S2P Require Import Reconciliation ManagerFacts.
#[local] Open Scope string_scope.
#[local] Open Scope Z_scope.

(** ** Reads give what is stored *)

Section reads.
Context `{CodecLaws}.

(** [inst] is what decoding the row of an active instance gives. *)
Definition active_in (db : Database) (inst : ServerInstance) : Prop :=
  ∃ r, server_instances db !! uuid_to_string (si_id inst) = Some r ∧
    decode_instance (uuid_to_string (si_id inst)) r = Ok inst ∧ ir_terminated_at_ms r = None.

(** [server] is what decoding its row gives. *)
Definition server_in (db : Database) (server : Server) : Prop :=
  ∃ r, servers db !! uuid_to_string (srv_id server) = Some r ∧
    decode_server (uuid_to_string (srv_id server)) r = Ok server.

(** The fields of a server and of its row. *)
Lemma server_in_row db s :
  db_ok db → server_in db s →
  ∃ r, servers db !! uuid_to_string (srv_id s) = Some r ∧ sr_name r = srv_name s ∧
    sr_generation r = srv_generation s ∧
    sr_desired_state r = DesiredState_as_str (srv_desired_state s) ∧
    spec_from_json (sr_spec_json r) = Ok (srv_spec s) ∧
    sr_archived_at_ms r = srv_archived_at s ∧ sr_created_at_ms r = srv_created_at s ∧
    sr_updated_at_ms r = srv_updated_at s ∧ server_row_wf (uuid_to_string (srv_id s)) r.
Proof.
  intros Hok (r & Hr & Hd). pose proof (ok_servers _ Hok _ _ Hr) as Hwf.
  destruct (server_row_wf_decode _ _ Hwf) as (spec & d & Hs & Hds & Hd').
  rewrite Hd' in Hd. injection Hd as Hd. exists r. rewrite <- Hd. done.
Qed.

Lemma find_row_some {R} (p : string → R → bool) (m : gmap string R) k r :
  find_row p m = Some (k, r) → m !! k = Some r ∧ p k r = true.
Proof.
  unfold find_row. intros [Hin Hp]%find_some. split; [|done].
  by apply elem_of_map_to_list, list_elem_of_In.
Qed.

Lemma get_active_instance_read sid db inst db' :
  db_ok db → ServerInstanceRepository_get_active_for_server sid db = (Ok (Some inst), db') →
  db' = db ∧ si_server_id inst = sid ∧ active_in db inst.
Proof.
  intros Hok. unfold ServerInstanceRepository_get_active_for_server. rewrite run_bind.
  unfold query, lift, decode_optional.
  destruct (find_row _ _) as [[k r]|] eqn:Ef; cbn [transpose_map]; [|done].
  apply find_row_some in Ef as [Hr Hp]. unfold is_active_for_server in Hp. inv_res.
  rewrite is_none_true in *. rewrite String.eqb_eq in *.
  pose proof (ok_instances _ Hok _ _ Hr) as Hwf. destruct (irw_id _ _ Hwf) as [iid ->].
  destruct (instance_row_wf_decode _ _ Hwf) as (sid' & spec & res & Hsid & _ & _ & Hd).
  rewrite Hd. cbn. intros [= <- <-]. split; [done|]. cbn. split.
  - apply uuid_to_string_inj. congruence.
  - exists r. cbn. done.
Qed.

Lemma get_server_read sid db s db' :
  db_ok db → ServerRepository_get sid db = (Ok (Some s), db') →
  db' = db ∧ srv_id s = sid ∧ server_in db s.
Proof.
  intros Hok. unfold ServerRepository_get. rewrite run_bind.
  unfold query, lift, decode_optional.
  destruct (servers db !! uuid_to_string sid) as [r|] eqn:Hr; [|done].
  pose proof (ok_servers _ Hok _ _ Hr) as Hwf.
  destruct (server_row_wf_decode _ _ Hwf) as (spec & d & _ & _ & Hd).
  cbn [fmap option_fmap option_map transpose_map]. rewrite Hd. cbn. intros [= <- <-].
  split; [done|]. split; [done|]. exists r. done.
Qed.

(** What [db] holds of a server read before: nothing older, and what was read
    if it still has its generation. *)
Lemma server_in_later db0 db s :
  db_ok db0 → server_in db0 s → grows db0 db →
  ∃ r, servers db !! uuid_to_string (srv_id s) = Some r ∧ sr_name r = srv_name s ∧
    sr_created_at_ms r = srv_created_at s ∧ srv_created_at s ≤ srv_updated_at s ∧
    1 ≤ srv_generation s ≤ sr_generation r ∧
    (sr_generation r = srv_generation s →
       sr_desired_state r = DesiredState_as_str (srv_desired_state s) ∧
       spec_from_json (sr_spec_json r) = Ok (srv_spec s) ∧
       sr_archived_at_ms r = srv_archived_at s).
Proof.
  intros Hok0 Hin [Gs _ _ _].
  destruct (server_in_row _ _ Hok0 Hin) as (r0 & Hr0 & Hn & Hg & Hd & Hs & Ha & Hc & Hu & Hwf).
  destruct (Gs _ _ Hr0) as (r & Hr & En & Ec & Hle & _ & Hsame & _).
  pose proof (srw_generation _ _ Hwf). pose proof (srw_updated _ _ Hwf).
  exists r. split_and!; try congruence; try lia.
  all: intros Eg; destruct Hsame as (E1 & E2 & E3); [lia|split_and!; congruence].
Qed.

(** The update of a server read before: out of range it is refused, in range
    it is a compare-and-swap; either way it is safe. *)
Lemma safe_set_desired_state db0 s d now b s' :
  db_ok db0 → server_in db0 s → Server_set_desired_state s d now = (Ok b, s') →
  repo_safe db0 (ServerRepository_update_desired_state s' (srv_generation s)).
Proof.
  intros Hok0 Hin E db Hok Hg.
  destruct (server_in_later _ _ _ Hok0 Hin Hg) as (r & Hr & _ & Hc & Hcu & Hge & Hsame).
  assert (Hs : srv_id s' = srv_id s ∧ srv_generation s ≤ srv_generation s' ∧
    srv_updated_at s ≤ srv_updated_at s' ∧ (srv_generation s = srv_generation s' → s' = s)).
  { apply set_desired_state_cases in E as [(_ & ? & _)|[(_ & _ & _ & ->)|[(_ & _ & _ & ? & _)|
      (_ & _ & _ & _ & ->)]]]; try done; cbn; split_and!; lia || done. }
  destruct Hs as (Ei & Hle & Hu & Heq).
  destruct (decide (srv_generation s' ≤ i64_max)) as [Hmax|Hgt].
  - apply rtc_once. exists (WUpdateDesiredState s' (srv_generation s)). split.
    + pose proof (srw_generation _ _ (ok_servers _ Hok _ _ Hr)).
      cbn [write_pre]. unfold writable. rewrite Ei, Hr.
      split; [split; [lia|split; [lia|by intros ? [= <-]; lia]]|]. split; [lia|].
      intros Eg r' [= <-] Er. rewrite (Heq Eg). apply Hsame. lia.
    + cbn [run_write]. unfold outcome.
      by destruct (ServerRepository_update_desired_state s' _ db) as [[] ?].
  - unfold ServerRepository_update_desired_state. rewrite run_lift.
    destruct (generation_to_i64 (srv_generation s')) as [g|e] eqn:E'; [|reflexivity].
    apply positive_u64_to_i64_ok in E' as (_ & _ & ?). lia.
Qed.
End reads.

(** ** The guards of a pass *)

(** What the operations on an instance's data and machine require of the
    instance: starting needs recorded data, and whatever can discard the data
    (restoring over it, cleaning up, stopping or deleting the machine, creating
    a fresh one) needs it published or never prepared. Every request to the
    agent carries the instance's id and fencing token. *)
Definition guarded (inst : ServerInstance) {X} (o : op X) : Prop :=
  match o with
  | CallStart _ p => si_data_prepared_at inst ≠ None ∧ start_instance p = identity inst
  | CallRestore _ p => has_unpublished_data inst = false ∧ restore_instance p = identity inst
  | CallCleanup _ p => has_unpublished_data inst = false ∧ cleanup_instance p = identity inst
  | CallStop _ p => stop_instance p = identity inst
  | CallSnapshot _ p => has_unpublished_data inst = true ∧ snapshot_instance p = identity inst
  | CallInspect _ i => i = identity inst
  | CallShutdown _ | WaitTrackedExit _ | WaitUntrackedExit _ | RemoveStateDirectory _
  | ApiDeleteInstance _ => has_unpublished_data inst = false
  | ApiCreateInstance _ => si_data_prepared_at inst = None
  | _ => True
  end.

Lemma unpublished_spec inst :
  has_unpublished_data inst = false ↔
  si_data_prepared_at inst = None ∨ is_Some (si_result_snapshot_id inst).
Proof.
  unfold has_unpublished_data. rewrite andb_false_iff, is_none_false.
  destruct (si_data_prepared_at inst); cbn; naive_solver.
Qed.

Section guards.
Context `{Codec}.
Variable inst : ServerInstance.
Abbreviation guards := (always (λ X o, guarded inst o) (λ _, True)).

Ltac guard_ops := walk; try exact I; try done; eauto with mcserver.

(** Creating the machine of an instance: only while its data was never
    prepared. *)
Lemma find_or_create_guards config l r t i f c :
  guards (find_or_create_instance config l r t i f inst c (is_none (si_data_prepared_at inst))).
Proof.
  unfold find_or_create_instance, find_instance_by_label, verify_provider_configuration,
    verify_instance_firewall, verify_bootstrap_compatibility, verify_instance_type,
    verify_firewall, list_managed_instances, api_call.
  guard_ops; cbn [guarded]; apply is_none_true; by apply negb_false_iff.
Qed.

Lemma ensure_guards scope akamai now :
  guards (ComputeManager_ensure_for_instance scope akamai inst now).
Proof.
  unfold ComputeManager_ensure_for_instance, map_prog_err.
  destruct (spec_compute _); [|destruct akamai as [config|]; [|done]];
    eapply (always_bind _ (λ _, True)); try done.
  - unfold LocalComputeManager_ensure_for_instance, local_find_or_create, local_ensure_process,
      process_is_running, spawn_agent, capture_local_runtime_state, load_local_runtime_state,
      runtime_process_matches. cbv zeta. guard_ops.
  - unfold AkamaiComputeManager_ensure_for_instance, akamai_find_or_create_compute,
      akamai_ensure_provider, client_get_instance, verify_provider_configuration,
      verify_instance_firewall, api_call. cbv zeta.
    guard_ops; apply find_or_create_guards.
Qed.

(** Deleting the machine of an instance: only when nothing would be lost. *)
Lemma delete_guards scope akamai c :
  has_unpublished_data inst = false → guards (delete_compute scope akamai c).
Proof.
  intros Hd. unfold delete_compute, ComputeManager_delete, map_prog_err.
  apply always_try_any; [|done|intros ?; guard_ops].
  destruct (ci_provider c); [|destruct akamai as [config|]; [|done]];
    eapply (always_bind _ (λ _, True)); try done.
  - unfold LocalComputeManager_delete, local_stop_process, load_local_runtime_state. cbv zeta.
    guard_ops.
  - unfold AkamaiComputeManager_delete, akamai_owned_provider, client_get_instance,
      client_delete_instance, find_instance_by_label. cbv zeta. guard_ops.
Qed.

Lemma persist_observations_guards inspect now : guards (persist_observations inst inspect now).
Proof. unfold persist_observations. guard_ops. Qed.

(** [persist_observations] answers [false] only when nothing new was seen. *)
Lemma persist_observations_false inspect now :
  always (λ _ _, True)
    (λ r, r = Ok false → data_prepared inspect = true → is_some (si_data_prepared_at inst) = true)
    (persist_observations inst inspect now).
Proof.
  unfold persist_observations. walk; try done.
  intros _ Hd. rewrite Hd in *. cbn in *. unfold is_none in *. by apply negb_false_iff.
Qed.
(** After a read of the agent's view that recorded nothing new. *)
Lemma observe_guards {B} inspect now (k : bool → prog (result ReconcileError B)) :
  (∀ observed, (observed = false → data_prepared inspect = true →
     is_some (si_data_prepared_at inst) = true) → guards (k observed)) →
  guards (try_bind id (persist_observations inst inspect now) k).
Proof.
  intros Hk. eapply (always_try _ (λ observed, observed = false → data_prepared inspect = true →
    is_some (si_data_prepared_at inst) = true)); [|done].
  eapply always_mono; [| |exact (always_conj _ _ _ _ _ (persist_observations_guards inspect now)
    (persist_observations_false inspect now))].
  - by intros X o [? _].
  - intros [b|e] [_ Hb]; [|done]. intros ->. by apply Hb.
Qed.

(** [walk], keeping what [persist_observations] tells. *)
Ltac walk_observed :=
  repeat (first [apply observe_guards; intros ? ? | walk_step]; cbv beta in * ); try exact I; try done.

Lemma reconcile_running_guards scope akamai server :
  guards (reconcile_running scope akamai server inst).
Proof.
  unfold reconcile_running.
  walk_observed; try (by apply ensure_guards); cbn [guarded]; split; try done.
  - repeat match goal with Hx : _ = true |- _ => revert Hx | Hx : _ = false |- _ => revert Hx end.
    destruct (data_prepared _), (has_unpublished_data inst); naive_solver.
  - repeat match goal with Hx : _ = true |- _ => revert Hx | Hx : _ = false |- _ => revert Hx end.
    destruct (data_prepared _), (si_data_prepared_at inst); naive_solver.
Qed.

Lemma commit_snapshot_guards id : guards (commit_snapshot inst id).
Proof. unfold commit_snapshot. guard_ops. Qed.

Lemma stop_inspected_guards scope akamai server c inspect :
  guards (stop_inspected scope akamai server inst c inspect).
Proof.
  unfold stop_inspected.
  walk_observed; try (by apply commit_snapshot_guards).
  all: first [by apply delete_guards | by split].
Qed.

Lemma may_delete_now_spec c :
  always (λ X o, guarded inst o)
    (λ b, b = true → has_unpublished_data inst = false) (may_delete_now inst c).
Proof.
  unfold may_delete_now. unfold has_unpublished_data.
  walk; try exact I; try done; intros _; 
    destruct (si_data_prepared_at inst), (si_result_snapshot_id inst); done.
Qed.

Lemma reconcile_stopping_guards scope akamai server :
  guards (reconcile_stopping scope akamai server inst).
Proof.
  unfold reconcile_stopping.
  walk_step; cbv beta in *; [exact I|]. destruct a as [c|]; [|walk; done].
  eapply always_bind; [apply may_delete_now_spec|]. intros [] Hb.
  - by apply delete_guards, Hb.
  - walk; try exact I; try done; [by apply ensure_guards|by apply stop_inspected_guards].
Qed.

Lemma reconcile_active_guards scope akamai server :
  guards (reconcile_active scope akamai server inst).
Proof.
  unfold reconcile_active. cbv zeta.
  walk; try exact I; try done;
    first [apply reconcile_stopping_guards | apply reconcile_running_guards].
Qed.
End guards.

(** ** A pass keeps the database invariant *)

Section safety.
Context `{CodecLaws}.
Variable db0 : Database.
Abbreviation safe := (always (λ X o, op_safe db0 o) (λ _, True)).

Ltac safe_pass := walk; try exact I; cbn [op_safe]; eauto with mcserver.

Lemma map_prog_err_safe {E F A} (f : E → F) (m : prog (result E A)) :
  safe m → safe (map_prog_err f m).
Proof. intros Hm. unfold map_prog_err. by eapply always_bind; [exact Hm|]. Qed.

Lemma ensure_safe scope akamai inst now :
  0 ≤ now → safe (ComputeManager_ensure_for_instance scope akamai inst now).
Proof.
  intros Hn. unfold ComputeManager_ensure_for_instance.
  destruct (spec_compute _); [|destruct akamai; [|done]]; apply map_prog_err_safe;
    [by apply local_ensure_safe|by apply akamai_ensure_safe].
Qed.

Lemma delete_safe scope akamai c : safe (delete_compute scope akamai c).
Proof.
  unfold delete_compute, ComputeManager_delete. apply always_try_any; [|done|done].
  destruct (ci_provider c); [|destruct akamai; [|done]]; apply map_prog_err_safe;
    [by apply local_delete_safe|by apply akamai_delete_safe].
Qed.

Lemma persist_observations_safe inst inspect now :
  0 ≤ now → safe (persist_observations inst inspect now).
Proof. intros Hn. unfold persist_observations. safe_pass. Qed.

#[local] Hint Resolve ensure_safe delete_safe persist_observations_safe : mcserver.

Lemma reconcile_running_safe scope akamai server inst :
  db_ok db0 → server_in db0 server → safe (reconcile_running scope akamai server inst).
Proof. intros Hok Hs. unfold reconcile_running. safe_pass. subst; by eapply safe_set_desired_state. Qed.

Lemma commit_snapshot_safe inst id : safe (commit_snapshot inst id).
Proof. unfold commit_snapshot. safe_pass. Qed.

#[local] Hint Resolve commit_snapshot_safe : mcserver.

Lemma reconcile_stopping_safe scope akamai server inst :
  safe (reconcile_stopping scope akamai server inst).
Proof. unfold reconcile_stopping, may_delete_now, stop_inspected. safe_pass. Qed.

#[local] Hint Resolve reconcile_running_safe reconcile_stopping_safe : mcserver.

Lemma reconcile_active_safe scope akamai server inst :
  db_ok db0 → server_in db0 server → safe (reconcile_active scope akamai server inst).
Proof. intros Hok Hs. unfold reconcile_active. cbv zeta. safe_pass. Qed.

Lemma start_instance_safe server : safe (start_instance_if_wanted server).
Proof. unfold start_instance_if_wanted. safe_pass. Qed.
End safety.
