(* ===== verification/PassFacts.v ===== *)
(** Executions of the reconciliation worker: every pass keeps the database
    invariant, and what it does is guarded by the state of the one instance it
    read as active. *)
From S2P Require Import Prelude Text Programs Server ServerFacts Instances InstanceFacts Database.
From S2P Require Import RowFacts.
From S2P Require Import Repositories ComputeRepository Invariant RepositoryFacts LifecycleFacts.
From S2P Require Import ComputeFacts Persistence Effects Semantics LocalCompute AkamaiCompute.
From S2P Require Import Config.
From S2P Require Import Reconciliation ManagerFacts ReconcileFacts.
#[local] Open Scope string_scope.
#[local] Open Scope Z_scope.

(** ** Error texts *)

Section error_texts.
Context `{CodecLaws}.
Variable cause : ReconcileError → string.

(** The text of an error starts with a letter, also where it is cut. *)
Lemma error_text_not_blank e :
  str_is_blank (truncate_chars (ReconcileError_to_string cause e) (Z.to_nat MAX_ERROR_CHARS))
  = false.
Proof.
  assert (Hc : ∃ c s, ReconcileError_to_string cause e = String c s ∧
    utf8_extra c = 0%nat ∧ char_is_whitespace (String c "") = false).
  { destruct e; eexists _, _; (split; [reflexivity|by split]). }
  destruct Hc as (c & s & -> & Hl & Hw). unfold truncate_chars, str_is_blank.
  replace (Z.to_nat MAX_ERROR_CHARS) with (S (Z.to_nat (MAX_ERROR_CHARS - 1)))
    by (unfold MAX_ERROR_CHARS; lia).
  destruct (_ <=? _); [|rewrite str_chars_take]; rewrite str_chars_cons, Hl;
    cbn [take_bytes take forallb]; by rewrite Hw.
Qed.

(** Recording an error, whatever its cause says. *)
Lemma safe_record_error db0 id e now :
  0 ≤ now →
  repo_safe db0 (ServerInstanceRepository_record_error id (ReconcileError_to_string cause e) now).
Proof.
  intros Hn. apply (repo_safe_write _ _ (WRecordError id (ReconcileError_to_string cause e) now));
    [done|]. intros db. split; [done|apply error_text_not_blank].
Qed.
End error_texts.

(** ** One pass *)

Section passes.
Context `{CodecLaws}.
Variable env : Database → Database → Prop.
Hypothesis env_step : ∀ d d', env d d' → db_step d d'.
Variable local_scope : string.
Variable akamai : option AkamaiConfig.

(** Operations on no machine and no data. *)
Definition idle {X} (o : op X) : bool :=
  match o with
  | Now | NewUuid | InstantNow | Enqueue _ | IsCancelled | Repo _ => true
  | _ => false
  end.

(** What a pass over server [sid] did: nothing to any machine or data, or it
    worked on the one instance [inst] that it read as the server's active
    instance, from a database between the pass's first and last. *)
Definition pass_on (sid : ServerId) (db db' : Database) (evs : list event) : Prop :=
  Forall (on_event (λ X o, idle o = true)) evs ∨
  ∃ dbr inst, db_ok dbr ∧ grows db dbr ∧ grows dbr db' ∧ active_in dbr inst ∧
    si_server_id inst = sid ∧ Forall (on_event (λ X o, guarded inst o)) evs.

Lemma answer_inv {X} db (o : op X) x db' :
  answer db o x db' →
  match o in op X return X → Prop with
  | Repo m => λ r, (m db = (r, db')) ∨
      (∃ e, r = Err (RE.Database e) ∧ (db' = db ∨ db' = (m db).2))
  | _ => λ _, db' = db
  end x.
Proof.
  destruct 1 as [A m r db' E|A m e|A m r db' e E|X o x Ho Hv]; [by left|by right; eauto| |].
  - right. exists e. rewrite E. eauto.
  - by destruct o.
Qed.

(** A read followed by the rest of a program. *)
Lemma exec_read_inv {A E B} (conv : RepositoryError → E) (m : repo A)
    (k : A → prog (result E B)) db evs db' r :
  (∀ d, (m d).2 = d) → db_ok db →
  exec env db (try_bind conv (perform (Repo m)) k) evs db' r →
  ∃ db1 x evs', db_ok db1 ∧ grows db db1 ∧ rtc env db db1 ∧ evs = Event (Repo m) x :: evs' ∧
    ((∃ e, x = Err e ∧ r = Err (conv e) ∧ evs' = [] ∧ db' = db1) ∨
     (∃ a, x = Ok a ∧ m db1 = (Ok a, db1) ∧ exec env db1 (k a) evs' db' r)).
Proof.
  intros Hm Hok (x & db1 & db2 & evs' & Hst & Ha & He & ->)%exec_inv.
  destruct (env_safe env env_step _ _ Hok Hst) as [Hok1 Hg1].
  assert (db2 = db1 ∧ (m db1 = (x, db1) ∨ ∃ e, x = Err e)) as [-> Hx].
  { destruct (answer_inv _ _ _ _ Ha) as [Eq|(e & -> & [->| ->])]; [|by eauto|].
    - specialize (Hm db1). rewrite Eq in Hm. cbn in Hm. subst. eauto.
    - rewrite Hm. eauto. }
  exists db1, x, evs'. split_and!; try done. destruct x as [a|e]; cbn in He.
  - right. exists a. split_and!; [done| |done]. by destruct Hx as [?|[e ?]].
  - left. exists e. apply exec_inv in He as (-> & -> & ->). done.
Qed.

Lemma start_instance_idle server :
  always (λ X o, idle o = true) (λ _, True) (start_instance_if_wanted server).
Proof. unfold start_instance_if_wanted. walk; done. Qed.

Lemma pass_spec sid db evs db' r :
  db_ok db → exec env db (reconcile_once local_scope akamai sid) evs db' r →
  rtc db_step db db' ∧ pass_on sid db db' evs.
Proof.
  intros Hok He.
  apply exec_read_inv in He as (db1 & x & evs1 & Hok1 & Hg1 & Hst1%env_steps & -> & He);
    [|done..].
  destruct He as [(e & -> & -> & -> & ->)|([server|] & -> & Hs & He)].
  { split; [done|]. left. by constructor. }
  2: { apply exec_inv in He as (-> & -> & ->). split; [done|]. left. by constructor. }
  destruct (get_server_read _ _ _ _ Hok1 Hs) as (_ & <- & Hin).
  apply exec_read_inv in He as (db2 & y & evs2 & Hok2 & Hg2 & Hst2%env_steps & -> & He);
    [|done..].
  assert (Hg : grows db db2) by (by transitivity db1).
  assert (Hst : rtc db_step db db2) by (by transitivity db1).
  destruct He as [(e & -> & -> & -> & ->)|([inst|] & -> & Hi & He)].
  - split; [done|]. left. by repeat constructor.
  - destruct (get_active_instance_read _ _ _ _ Hok2 Hi) as (_ & Hsid & Hact).
    destruct (exec_always env env_step db1 _ _ _ _ _ _ _ He Hok2 Hg2
      (reconcile_active_safe _ _ _ _ _ Hok1 Hin) (reconcile_active_guards _ _ _ _))
      as (Hst' & Hall & _).
    split; [by transitivity db2|]. right. exists db2, inst.
    split_and!; try done; [by eapply steps_safe|by repeat constructor].
  - destruct (exec_always env env_step db2 _ _ _ _ _ _ _ He Hok2 (reflexivity _)
      (start_instance_safe _ _) (start_instance_idle _)) as (Hst' & Hall & _).
    split; [by transitivity db2|]. left. by repeat constructor.
Qed.
End passes.
