(* ===== verification/DataSafety.v ===== *)
(** No instance terminates with data that is in no snapshot.

    The worker is the only task that writes to [server_instances]; the other
    tasks of the control plane serve clients and agents and write to
    [servers] and [compute_instances]. *)
From S2P Require Import Prelude Text Programs Server ServerFacts Instances InstanceFacts Database.
From S2P Require Import RowFacts.
From S2P Require Import Repositories ComputeRepository Invariant RepositoryFacts LifecycleFacts.
From S2P Require Import ComputeFacts Persistence Effects Semantics LocalCompute AkamaiCompute.
From S2P Require Import Config.
From S2P Require Import Reconciliation ManagerFacts ReconcileFacts PassFacts.
#[local] Open Scope string_scope.
#[local] Open Scope Z_scope.

(** ** Assertions on the instances table *)

(** An instance that terminated after its data was prepared published it. *)
Definition lossless (r : server_instances_row) : Prop :=
  is_Some (ir_terminated_at_ms r) → is_Some (ir_data_prepared_at_ms r) →
  is_Some (ir_result_snapshot_id r).

Definition no_loss (t : gmap string server_instances_row) : Prop := map_Forall (λ _, lossless) t.

(** The data of instance [key] is published or was never prepared. *)
Definition settled (key : string) (t : gmap string server_instances_row) : Prop :=
  ∀ r, t !! key = Some r → is_Some (ir_data_prepared_at_ms r) → is_Some (ir_result_snapshot_id r).

Lemma lossless_active r : ir_terminated_at_ms r = None → lossless r.
Proof. intros Ha [t Ht]. congruence. Qed.

(** ** Writes of the other tasks *)

Section other_tasks.
Context `{CodecLaws}.

(** The writes of the client interface and of the agent server. *)
Definition by_other_task (w : write) : bool :=
  match w with
  | WCreateServer _ | WUpdateDesiredState _ _ | WUpdateSpec _ _ | WArchive _ _
  | WRecordCertificate _ _ _ | WAuthenticate _ _ _ _ _ => true
  | _ => false
  end.

Definition other_step (db db' : Database) : Prop :=
  ∃ w, by_other_task w = true ∧ write_pre db w ∧ (run_write w db).2 = db'.

Lemma other_step_db_step db db' : other_step db db' → db_step db db'.
Proof. intros (w & _ & ? & ?). by exists w. Qed.

(** ** Repository code that keeps an assertion *)

Section keeps.
Variable I : Database → Prop.

Lemma keeps_ret {A} (a : A) : repo_keeps I (mret a).
Proof. by intros db. Qed.
Lemma keeps_lift {A} (r : result RepositoryError A) : repo_keeps I (lift r).
Proof. by intros db. Qed.
Lemma keeps_query {A} (f : Database → A) : repo_keeps I (query f).
Proof. by intros db. Qed.

Lemma keeps_bind {A B} (m : repo A) (f : A → repo B) :
  repo_keeps I m → (∀ a, repo_keeps I (f a)) → repo_keeps I (m ≫= f).
Proof.
  intros Hm Hf db Hdb. rewrite run_bind. specialize (Hm db Hdb).
  destruct (m db) as [[a|e] db']; [by apply Hf|done].
Qed.

Lemma keeps_execute stmt : (∀ db, I db → I (stmt db).2) → repo_keeps I (execute stmt).
Proof. intros Hs db Hdb. specialize (Hs db Hdb). unfold execute. by destruct (stmt db). Qed.

Lemma keeps_transaction {A} (body : repo unit → repo A) :
  (∀ rollback, repo_keeps I rollback → repo_keeps I (body rollback)) →
  repo_keeps I (transaction body).
Proof.
  intros Hb db Hdb. unfold transaction.
  specialize (Hb (λ _, (Ok tt, db)) (λ _ _, Hdb) db Hdb).
  by destruct (body _ db) as [[a|e] db'].
Qed.
End keeps.

(** Statements on the other tables leave the instances alone. *)
Lemma update_servers_instances key cond set db :
  server_instances (update_servers key cond set db).2 = server_instances db.
Proof. unfold update_servers. repeat case_match; done. Qed.
Lemma insert_servers_instances key row db :
  server_instances (insert_servers key row db).2 = server_instances db.
Proof. unfold insert_servers. repeat case_match; done. Qed.
Lemma update_computes_instances key cond set db :
  server_instances (update_compute_instances key cond set db).2 = server_instances db.
Proof. unfold update_compute_instances. repeat case_match; done. Qed.
Lemma insert_computes_instances key row db :
  server_instances (insert_compute_instances key row db).2 = server_instances db.
Proof. unfold insert_compute_instances. repeat case_match; done. Qed.
Lemma insert_snapshots_instances sid id row db :
  server_instances (insert_snapshots sid id row db).2 = server_instances db.
Proof. unfold insert_snapshots. repeat case_match; done. Qed.

(** ** Code that writes no instance *)

Abbreviation on_instances J := (λ db, J (server_instances db)).

Ltac keeps_step :=
  match goal with
  | |- repo_keeps _ (mret _) => apply keeps_ret
  | |- repo_keeps _ (lift _) => apply keeps_lift
  | |- repo_keeps _ (query _) => apply keeps_query
  | |- repo_keeps _ (execute _) => apply keeps_execute; intros ? ?
  | |- repo_keeps _ (transaction _) => apply keeps_transaction; intros ? ?
  | |- repo_keeps _ (mbind _ _) => apply keeps_bind; [|intros ?]
  | |- repo_keeps _ (match ?x with _ => _ end) => destruct x eqn:?
  | |- context [server_instances (update_servers _ _ _ _).2] => rewrite update_servers_instances
  | |- context [server_instances (update_compute_instances _ _ _ _).2] =>
      rewrite update_computes_instances
  | |- context [server_instances (insert_snapshots _ _ _ _).2] => rewrite insert_snapshots_instances
  end.
Ltac keeps := repeat (keeps_step; cbv beta in * ); try done.

Section quiet.
Variable J : gmap string server_instances_row → Prop.

Lemma update_desired_state_quiet s p :
  repo_keeps (on_instances J) (ServerRepository_update_desired_state s p).
Proof. unfold ServerRepository_update_desired_state. keeps. Qed.
Lemma update_spec_quiet s p : repo_keeps (on_instances J) (ServerRepository_update_spec s p).
Proof. unfold ServerRepository_update_spec. keeps. Qed.
Lemma archive_quiet s p : repo_keeps (on_instances J) (ServerRepository_archive s p).
Proof. unfold ServerRepository_archive. keeps. Qed.
Lemma create_server_quiet s : repo_keeps (on_instances J) (ServerRepository_create s).
Proof.
  unfold ServerRepository_create. keeps. intros db Hdb.
  pose proof (insert_servers_instances (uuid_to_string (srv_id s)) (servers_row_of s a0 a) db) as E.
  destruct (insert_servers _ _ db) as [[n|e] db']; cbn in *; [by rewrite E|].
  destruct (is_unique_violation e); cbn; by rewrite E.
Qed.
Lemma record_certificate_quiet c t r :
  repo_keeps (on_instances J) (ComputeInstanceRepository_record_agent_certificate c t r).
Proof. unfold ComputeInstanceRepository_record_agent_certificate. keeps. Qed.
Lemma authenticate_quiet c p t d now :
  repo_keeps (on_instances J) (ComputeInstanceRepository_authenticate_agent c p t d now).
Proof. unfold ComputeInstanceRepository_authenticate_agent. keeps. Qed.
Lemma create_compute_quiet c i p t e now : repo_keeps (on_instances J) (insert_compute c i p t e now).
Proof.
  intros db Hdb.
  assert (E : ∀ k ik row,
    server_instances (insert_compute_for_active_instance k ik row db).2 = server_instances db).
  { intros. unfold insert_compute_for_active_instance.
    destruct (_ && _); [apply insert_computes_instances|done]. }
  unfold insert_compute. cbv zeta.
  match goal with |- context [insert_compute_for_active_instance ?k ?ik ?row db] =>
    specialize (E k ik row); destruct (insert_compute_for_active_instance k ik row db) as [[n|x] db']
  end; cbn [snd] in E; rewrite <- E in Hdb; [|destruct (is_unique_violation x)]; exact Hdb.
Qed.
Lemma record_process_id_quiet c p now :
  repo_keeps (on_instances J) (ComputeInstanceRepository_record_process_id c p now).
Proof. unfold ComputeInstanceRepository_record_process_id. keeps. Qed.
Lemma record_provider_quiet c p a now :
  repo_keeps (on_instances J) (ComputeInstanceRepository_record_provider_instance c p a now).
Proof. unfold ComputeInstanceRepository_record_provider_instance. keeps. Qed.
Lemma request_shutdown_quiet c now :
  repo_keeps (on_instances J) (ComputeInstanceRepository_request_shutdown c now).
Proof. unfold ComputeInstanceRepository_request_shutdown. keeps. Qed.
Lemma terminate_quiet c r m now :
  repo_keeps (on_instances J) (ComputeInstanceRepository_terminate c r m now).
Proof. unfold ComputeInstanceRepository_terminate. keeps. Qed.
End quiet.

(** The other tasks write no instance. *)
Lemma other_step_keeps (J : gmap string server_instances_row → Prop) db db' :
  other_step db db' → J (server_instances db) → J (server_instances db').
Proof.
  intros (w & Hw & _ & <-) HJ.
  assert (Hout : ∀ A (m : repo A), repo_keeps (on_instances J) m →
    J (server_instances (outcome m db).2)).
  { intros A m Hm. specialize (Hm db HJ). unfold outcome. by destruct (m db) as [[] ?]. }
  destruct w; try done; cbn [run_write]; apply Hout;
    first [apply create_server_quiet | apply update_desired_state_quiet | apply update_spec_quiet
          | apply archive_quiet | apply record_certificate_quiet | apply authenticate_quiet].
Qed.

(** ** Instance writes that terminate nothing *)

Abbreviation safe_data := (on_instances no_loss).

Lemma update_instances_no_loss key cond set db :
  (∀ r, cond r = true → lossless r → lossless (set r)) →
  no_loss (server_instances db) →
  no_loss (server_instances (update_server_instances key cond set db).2).
Proof.
  intros Hs Hdb. unfold update_server_instances.
  destruct (server_instances db !! key) as [r|] eqn:Hr; [|done].
  destruct (cond r) eqn:Hc; [|done]. destruct (server_instances_check _); [|done].
  cbn. apply map_Forall_insert_2; [|done]. apply Hs; [done|]. by eapply Hdb.
Qed.

Ltac active_update :=
  apply update_instances_no_loss; [|assumption]; intros r Hc _; apply lossless_active; cbn;
  inv_res; by apply is_none_true.

Lemma request_stop_no_loss id now : repo_keeps safe_data (ServerInstanceRepository_request_stop id now).
Proof. unfold ServerInstanceRepository_request_stop. keeps. active_update. Qed.
Lemma mark_data_prepared_no_loss id now :
  repo_keeps safe_data (ServerInstanceRepository_mark_data_prepared id now).
Proof. unfold ServerInstanceRepository_mark_data_prepared. keeps. active_update. Qed.
Lemma observe_process_no_loss id b now :
  repo_keeps safe_data (ServerInstanceRepository_observe_process id b now).
Proof. unfold ServerInstanceRepository_observe_process. keeps. active_update. Qed.
Lemma record_error_no_loss id m now :
  repo_keeps safe_data (ServerInstanceRepository_record_error id m now).
Proof. unfold ServerInstanceRepository_record_error. keeps. active_update. Qed.
Lemma commit_no_loss id t snap now : repo_keeps safe_data (SnapshotRepository_commit id t snap now).
Proof.
  unfold SnapshotRepository_commit. cbv zeta. keeps. active_update.
Qed.

Lemma create_instance_no_loss sid iid now :
  repo_keeps safe_data (create_instance_transaction sid iid now).
Proof.
  unfold create_instance_transaction. keeps.
  unfold insert_running_instance, insert_server_instances. repeat case_match; try done.
  cbn. by apply map_Forall_insert_2; [apply lossless_active|].
Qed.

(** ** Completing an instance *)

(** Completing keeps the assertion when the instance's data is settled. *)
Lemma complete_no_loss id res now db :
  no_loss (server_instances db) → settled (uuid_to_string id) (server_instances db) →
  no_loss (server_instances (ServerInstanceRepository_complete id res now db).2).
Proof.
  intros Hdb Hset. unfold ServerInstanceRepository_complete. rewrite run_bind. unfold execute.
  set (key := uuid_to_string id) in *. unfold update_server_instances.
  destruct (server_instances db !! key) as [r|] eqn:Hr; [|done].
  destruct (ir_is_active r); [|done]. destruct (server_instances_check _); [|done].
  cbn. apply map_Forall_insert_2; [|done]. intros _. cbn. by apply Hset.
Qed.

Lemma keeps_read (I : Database → Prop) {A} (m : repo A) : (∀ db, (m db).2 = db) → repo_keeps I m.
Proof. intros Hr db. by rewrite Hr. Qed.

Lemma reads_keep (I : Database → Prop) :
  (∀ id, repo_keeps I (ServerRepository_get id)) ∧
  (∀ id, repo_keeps I (ServerInstanceRepository_get id)) ∧
  (∀ id, repo_keeps I (ServerInstanceRepository_get_active_for_server id)) ∧
  (∀ id, repo_keeps I (ComputeInstanceRepository_get id)) ∧
  (∀ id, repo_keeps I (ComputeInstanceRepository_get_active_for_instance id)).
Proof. split_and!; intros id; by apply keeps_read. Qed.
End other_tasks.

#[export] Hint Resolve request_stop_no_loss mark_data_prepared_no_loss observe_process_no_loss
  record_error_no_loss commit_no_loss create_instance_no_loss : mcserver.
#[export] Hint Extern 1 (repo_keeps _ (ServerRepository_update_desired_state _ _)) =>
  apply update_desired_state_quiet : mcserver.
#[export] Hint Extern 1 (repo_keeps _ (insert_compute _ _ _ _ _ _)) =>
  apply create_compute_quiet : mcserver.
#[export] Hint Extern 1 (repo_keeps _ (ComputeInstanceRepository_record_process_id _ _ _)) =>
  apply record_process_id_quiet : mcserver.
#[export] Hint Extern 1 (repo_keeps _ (ComputeInstanceRepository_record_provider_instance _ _ _ _)) =>
  apply record_provider_quiet : mcserver.
#[export] Hint Extern 1 (repo_keeps _ (ComputeInstanceRepository_request_shutdown _ _)) =>
  apply request_shutdown_quiet : mcserver.
#[export] Hint Extern 1 (repo_keeps _ (ComputeInstanceRepository_terminate _ _ _ _)) =>
  apply terminate_quiet : mcserver.
#[export] Hint Extern 2 (repo_keeps _ _) => apply reads_keep : mcserver.

(** ** The worker's passes *)

Section worker.
Context `{CodecLaws}.
Variable local_scope : string.
Variable akamai : option AkamaiConfig.

Abbreviation safe_data := (λ db, no_loss (server_instances db)).
Abbreviation keeps_data := (always (λ X o, op_keeps safe_data o) (λ _, True)).

Ltac data_ops := walk; try exact I; cbn [op_keeps]; eauto with mcserver.

Lemma local_ensure_keeps_data inst now :
  keeps_data (LocalComputeManager_ensure_for_instance local_scope inst now).
Proof.
  unfold LocalComputeManager_ensure_for_instance, local_find_or_create, local_ensure_process,
    process_is_running, spawn_agent, capture_local_runtime_state, load_local_runtime_state,
    runtime_process_matches. cbv zeta. data_ops.
Qed.

Lemma local_delete_keeps_data c : keeps_data (LocalComputeManager_delete local_scope c).
Proof.
  unfold LocalComputeManager_delete, local_stop_process, load_local_runtime_state. cbv zeta.
  data_ops.
Qed.

Lemma akamai_ensure_keeps_data config inst now :
  keeps_data (AkamaiComputeManager_ensure_for_instance config inst now).
Proof.
  unfold AkamaiComputeManager_ensure_for_instance, akamai_find_or_create_compute,
    akamai_ensure_provider, client_get_instance, find_or_create_instance, find_instance_by_label,
    verify_provider_configuration, verify_instance_firewall, verify_bootstrap_compatibility,
    verify_instance_type, verify_firewall, list_managed_instances, api_call. cbv zeta. data_ops.
Qed.

Lemma akamai_delete_keeps_data config c : keeps_data (AkamaiComputeManager_delete config c).
Proof.
  unfold AkamaiComputeManager_delete, akamai_owned_provider, client_get_instance,
    client_delete_instance, find_instance_by_label. cbv zeta. data_ops.
Qed.

Lemma ensure_keeps_data inst now :
  keeps_data (ComputeManager_ensure_for_instance local_scope akamai inst now).
Proof.
  unfold ComputeManager_ensure_for_instance, map_prog_err.
  destruct (spec_compute _); [|destruct akamai as [config|]; [|done]];
    eapply (always_bind _ (λ _, True)); try done.
  - apply local_ensure_keeps_data.
  - apply akamai_ensure_keeps_data.
Qed.

Lemma delete_keeps_data c : keeps_data (delete_compute local_scope akamai c).
Proof.
  unfold delete_compute, ComputeManager_delete, map_prog_err.
  apply always_try_any; [|done|done].
  destruct (ci_provider c); [|destruct akamai as [config|]; [|done]];
    eapply (always_bind _ (λ _, True)); try done.
  - apply local_delete_keeps_data.
  - apply akamai_delete_keeps_data.
Qed.

#[local] Hint Resolve ensure_keeps_data delete_keeps_data : mcserver.

Lemma reconcile_running_keeps_data server inst :
  keeps_data (reconcile_running local_scope akamai server inst).
Proof. unfold reconcile_running, persist_observations. data_ops. Qed.

Lemma stop_inspected_keeps_data server inst c inspect :
  keeps_data (stop_inspected local_scope akamai server inst c inspect).
Proof. unfold stop_inspected, persist_observations, commit_snapshot. data_ops. Qed.

#[local] Hint Resolve reconcile_running_keeps_data stop_inspected_keeps_data : mcserver.

(** The worker's database: the assertion, and that the data of the instance of
    the pass is settled when it was so when read. *)
Definition pass_data (inst : ServerInstance) (db : Database) : Prop :=
  no_loss (server_instances db) ∧
  (has_unpublished_data inst = false →
   settled (uuid_to_string (si_id inst)) (server_instances db)).

Lemma pass_data_other inst d d' : other_step d d' → pass_data inst d → pass_data inst d'.
Proof.
  intros Hs. exact (other_step_keeps (λ t, no_loss t ∧ (has_unpublished_data inst = false →
    settled (uuid_to_string (si_id inst)) t)) d d' Hs).
Qed.

Lemma no_loss_other d d' :
  other_step d d' → no_loss (server_instances d) → no_loss (server_instances d').
Proof. apply other_step_keeps. Qed.

(** One operation that keeps an assertion, then the rest of the program. *)
Lemma exec_step_keeps {E F A B} (I : Database → Prop) (conv : E → F) (o : op (result E A))
    (k : A → prog (result F B)) db evs db' r :
  (∀ d d', other_step d d' → I d → I d') → op_keeps I o →
  exec other_step db (try_bind conv (perform o) k) evs db' r → I db →
  I db' ∨ ∃ a db1 evs', I db1 ∧ valid_answer o (Ok a) ∧ exec other_step db1 (k a) evs' db' r.
Proof.
  intros Henv Ho (x & db1 & db2 & evs' & Hst & Ha & He & ->)%exec_inv HI.
  assert (HI2 : I db2) by (eapply answer_keeps; [exact Ha|done|]; by eapply env_keeps).
  pose proof (answer_valid _ _ _ _ Ha) as Hv.
  destruct x as [a|e]; cbn in He; [right; eauto 10|].
  left. by apply exec_inv in He as (-> & -> & ->).
Qed.

(** Finishing an instance that has no machine. *)
Lemma stopping_no_loss server inst db evs db' r :
  exec other_step db (reconcile_stopping local_scope akamai server inst) evs db' r →
  pass_data inst db → no_loss (server_instances db').
Proof.
  intros He HI. unfold reconcile_stopping in He.
  apply (exec_step_keeps (pass_data inst)) in He as [[? _]|(active & db1 & evs1 & HI1 & _ & He)];
    [done| |apply pass_data_other|by apply keeps_read|done].
  destruct active as [c|].
  { refine (exec_keeps other_step safe_data (λ _, True) _ _ _ _ _ no_loss_other _ He _);
      [|apply HI1]. unfold may_delete_now. data_ops. }
  destruct (has_unpublished_data inst) eqn:Hu.
  { apply exec_inv in He as (_ & -> & _). apply HI1. }
  apply (exec_step_keeps (pass_data inst)) in He as [[? _]|(now & db2 & evs2 & HI2 & _ & He)];
    [done| |apply pass_data_other|done|done].
  apply exec_inv in He as (x & db3 & db4 & evs3 & Hst & Ha & He & _).
  assert (Hend : db' = db4) by (destruct x as [a|e]; by apply exec_inv in He as (_ & -> & _)).
  rewrite Hend.
  assert (HI3 : pass_data inst db3) by (eapply env_keeps; [apply pass_data_other|done|done]).
  destruct HI3 as [Hl3 Hs3]. pose proof (complete_no_loss (si_id inst) TR.Completed now db3 Hl3
    (Hs3 Hu)) as Hl4.
  destruct (answer_inv _ _ _ _ Ha) as [Eq|(e & _ & [->| ->])]; [by rewrite Eq in Hl4|done..].
Qed.

Lemma request_stop_pass_data inst now :
  repo_keeps (pass_data inst) (ServerInstanceRepository_request_stop (si_id inst) now).
Proof.
  intros db [Hl Hs]. split; [by apply request_stop_no_loss|]. intros Hu. specialize (Hs Hu).
  revert Hs. unfold ServerInstanceRepository_request_stop. rewrite run_bind. unfold execute.
  set (key := uuid_to_string (si_id inst)). unfold update_server_instances.
  destruct (server_instances db !! key) as [r|] eqn:Hr; [|done].
  destruct (_ && _); [|done]. destruct (server_instances_check _); [|done].
  intros Hs r'. cbn. rewrite lookup_insert, decide_True by done. intros [= <-]. cbn. by apply Hs.
Qed.

Lemma active_no_loss server inst db evs db' r :
  exec other_step db (reconcile_active local_scope akamai server inst) evs db' r →
  pass_data inst db → no_loss (server_instances db').
Proof.
  assert (Hcont : ∀ db evs,
    exec other_step db (if is_some (si_stop_requested_at inst)
      then reconcile_stopping local_scope akamai server inst
      else reconcile_running local_scope akamai server inst) evs db' r →
    pass_data inst db → no_loss (server_instances db')).
  { intros d ev He HI. destruct (is_some _); [by eapply stopping_no_loss|].
    refine (exec_keeps other_step safe_data (λ _, True) _ _ _ _ _ no_loss_other _ He _);
      [apply reconcile_running_keeps_data|apply HI]. }
  unfold reconcile_active. cbv zeta. destruct (_ && _); [|by apply Hcont].
  intros He HI.
  apply (exec_step_keeps (pass_data inst)) in He as [[? _]|(now & db1 & evs1 & HI1 & _ & He)];
    [done| |apply pass_data_other|done|done].
  apply (exec_step_keeps (pass_data inst)) in He as [[? _]|(b & db2 & evs2 & HI2 & _ & He)];
    [done| |apply pass_data_other|apply request_stop_pass_data|done].
  destruct b; [|by eapply Hcont]. apply exec_inv in He as (_ & -> & _). apply HI2.
Qed.

(** What was read of an active instance. *)
Lemma active_in_pass_data db inst :
  db_ok db → active_in db inst → no_loss (server_instances db) → pass_data inst db.
Proof.
  intros Hok (r & Hr & Hd & _) Hl. split; [done|]. intros Hu r' Hr'. rewrite Hr in Hr'.
  injection Hr' as <-. pose proof (ok_instances _ Hok _ _ Hr) as Hwf.
  destruct (instance_row_wf_decode _ _ Hwf) as (sid & spec & res & _ & _ & _ & Hd').
  rewrite Hd' in Hd. injection Hd as Hd. apply unpublished_spec in Hu. rewrite <- Hd in Hu. cbn in Hu.
  destruct Hu as [->|?]; [by intros []|done].
Qed.

Lemma pass_no_loss sid db evs db' r :
  db_ok db → no_loss (server_instances db) →
  exec other_step db (reconcile_once local_scope akamai sid) evs db' r →
  no_loss (server_instances db').
Proof.
  intros Hok Hl He.
  apply exec_read_inv in He as (db1 & x & evs1 & Hok1 & _ & Hst1 & -> & He);
    [|apply other_step_db_step|done|done].
  apply (env_keeps other_step safe_data _ _ no_loss_other Hst1) in Hl.
  destruct He as [(e & -> & -> & -> & ->)|([server|] & -> & Hs & He)]; [done| |].
  2: by apply exec_inv in He as (-> & -> & ->).
  apply exec_read_inv in He as (db2 & y & evs2 & Hok2 & _ & Hst2 & -> & He);
    [|apply other_step_db_step|done|done].
  apply (env_keeps other_step safe_data _ _ no_loss_other Hst2) in Hl.
  destruct He as [(e & -> & -> & -> & ->)|([inst|] & -> & Hi & He)]; [done| |].
  - destruct (get_active_instance_read _ _ _ _ Hok2 Hi) as (_ & _ & Hact).
    eapply active_no_loss; [exact He|]. by apply active_in_pass_data.
  - refine (exec_keeps other_step safe_data (λ _, True) _ _ _ _ _ no_loss_other _ He Hl).
    unfold start_instance_if_wanted. data_ops.
Qed.
End worker.
