(* ===== verification/System.v ===== *)
(** The running control plane: the worker's passes and the recovery of machines when
    the process starts, interleaved with the writes of the tasks that serve clients
    and agents. *)
From S2P Require Import Prelude Text Programs Server ServerFacts Instances InstanceFacts Database.
From S2P Require Import RowFacts.
From S2P Require Import Repositories ComputeRepository Invariant RepositoryFacts LifecycleFacts.
From S2P Require Import ComputeFacts Persistence Effects Semantics LocalCompute AkamaiCompute.
From S2P Require Import Config.
From S2P Require Import Reconciliation ManagerFacts ReconcileFacts PassFacts DataSafety.
#[local] Open Scope string_scope.
#[local] Open Scope Z_scope.

(** Operations that can discard the data of an instance: restoring a snapshot
    over it, cleaning it up, ending its agent, removing its directory, deleting
    its machine or making a new one. *)
Definition discards {X} (o : op X) : bool :=
  match o with
  | CallRestore _ _ | CallCleanup _ _ | CallShutdown _ | WaitTrackedExit _ | WaitUntrackedExit _
  | RemoveStateDirectory _ | ApiDeleteInstance _ | ApiCreateInstance _ => true
  | _ => false
  end.

Section system.
Context `{CodecLaws}.
Variable local_scope : string.
Variable akamai : option AkamaiConfig.
Variable cause : ReconcileError → string.

(** What the worker's loop itself reads: the queue, the clock, the list of
    servers. *)
Inductive loop_op : ∀ {X}, op X → Prop :=
| loop_instant : loop_op InstantNow
| loop_cancelled : loop_op IsCancelled
| loop_list : loop_op (Repo ServerRepository_list_for_reconciliation)
| loop_resolve id : loop_op (Repo (ServerInstanceRepository_get id)).

(** A step of the worker: one pass over a server, recording the error of one,
    or an operation of the loop. *)
Definition worker_step (db : Database) (evs : list event) (db' : Database) : Prop :=
  (∃ sid r, exec other_step db (reconcile_once local_scope akamai sid) evs db' r) ∨
  (∃ sid e r, exec other_step db (record_error cause sid e) evs db' r) ∨
  (∃ X (o : op X) x, loop_op o ∧ exec other_step db (perform o) evs db' x).

(** The recovery of Akamai machines when the process starts: whatever it read as the
    active compute instances, it adopts machines for them and deletes others. *)
Definition recovery_step (db : Database) (evs : list event) (db' : Database) : Prop :=
  ∃ config active r, akamai = Some config ∧
    exec other_step db (AkamaiComputeManager_reap_orphans config active) evs db' r.

(** A history of the system: its events are those of the worker and of recoveries. *)
Inductive history : Database → list event → Database → Prop :=
| history_nil db : history db [] db
| history_other db db1 evs db' :
    other_step db db1 → history db1 evs db' → history db evs db'
| history_worker db evs1 db1 evs db' :
    worker_step db evs1 db1 → history db1 evs db' → history db (evs1 ++ evs)%list db'
| history_recovery db evs1 db1 evs db' :
    recovery_step db evs1 db1 → history db1 evs db' → history db (evs1 ++ evs)%list db'.

Lemma history_app db evs db1 evs' db' :
  history db evs db1 → history db1 evs' db' → history db (evs ++ evs')%list db'.
Proof.
  induction 1 as [|db db1 evs db2 Hs _ IH|db evs1 db1 evs db2 Hw _ IH|db evs1 db1 evs db2 Hw _ IH];
    intros Hh; [done| | |].
  - eapply history_other; eauto.
  - rewrite <- app_assoc. eapply history_worker; eauto.
  - rewrite <- app_assoc. eapply history_recovery; eauto.
Qed.

Lemma history_quiet db db1 evs db' :
  history db [] db1 → history db1 evs db' → history db evs db'.
Proof. intros Hq. exact (history_app _ [] _ evs _ Hq). Qed.

Lemma history_step db evs db' : worker_step db evs db' → history db evs db'.
Proof.
  intros Hs. rewrite <- (app_nil_r evs). eapply history_worker; [exact Hs|apply history_nil].
Qed.

(** The worker's loop consists of such steps. *)
Lemma transitions_history n sid db evs db' r :
  exec other_step db (reconcile_transitions local_scope akamai n sid) evs db' r →
  history db evs db'.
Proof.
  revert db evs. induction n as [|n IH]; intros db evs He; cbn [reconcile_transitions] in He.
  { apply exec_inv in He as (-> & -> & _). apply history_nil. }
  apply exec_try_inv in He as [(e & He & _)|(evs1 & evs2 & db1 & out & He1 & He2 & ->)].
  { apply history_step. left. eauto. }
  eapply history_app; [apply history_step; left; eauto|].
  destruct out; [by apply IH|..]; apply exec_inv in He2 as (-> & -> & _); apply history_nil.
Qed.

Lemma loop_history {X} (o : op X) db evs db' x :
  loop_op o → exec other_step db (perform o) evs db' x → history db evs db'.
Proof. intros. apply history_step. right; right. eauto. Qed.

Lemma history_bind {A B} (m : prog A) (f : A → prog B) db evs db' b :
  (∀ db evs db' a, exec other_step db m evs db' a → history db evs db') →
  (∀ a db evs db', exec other_step db (f a) evs db' b → history db evs db') →
  exec other_step db (prog_bind m f) evs db' b → history db evs db'.
Proof.
  intros Hm Hf (evs1 & evs2 & db1 & a & He1 & He2 & ->)%exec_bind_inv. eapply history_app; eauto.
Qed.

Lemma history_ret {A} (a b : A) db evs db' : exec other_step db (Ret a) evs db' b → history db evs db'.
Proof. intros (-> & -> & _)%exec_inv. apply history_nil. Qed.

Lemma record_error_history sid e db evs db' r :
  exec other_step db (record_error cause sid e) evs db' r → history db evs db'.
Proof. intros He. apply history_step. right; left. eauto. Qed.

Lemma schedule_history interval sid failures pending db evs db' pending' :
  exec other_step db (reconcile_and_schedule local_scope akamai cause interval sid failures
    pending) evs db' pending' →
  history db evs db'.
Proof.
  apply history_bind; [intros *; apply transitions_history|]. clear db evs db'.
  intros [[]|e] db evs db'; [apply history_ret|..].
  - apply history_bind; [intros *; apply loop_history; constructor|]. intros *. apply history_ret.
  - apply history_bind; [intros *; apply loop_history; constructor|]. intros now *. cbv zeta.
    apply history_bind; [intros *; apply record_error_history|]. intros u *. apply history_ret.
Qed.

(** The arms of the worker's loop make histories. *)
Lemma retry_servers_history interval ids pending db evs db' pending' :
  exec other_step db (retry_servers local_scope akamai cause interval ids pending) evs db' pending' →
  history db evs db'.
Proof.
  revert pending db evs db'. induction ids as [|sid ids IH]; intros pending db evs db'; cbn [retry_servers];
    [apply history_ret|].
  apply history_bind; [intros *; apply loop_history; constructor|].
  intros [] *; [apply history_ret|]. apply history_bind; [intros *; apply schedule_history|].
  intros *. apply IH.
Qed.

Lemma resync_servers_history interval now servers pending db evs db' pending' :
  exec other_step db (resync_servers local_scope akamai cause interval now servers pending) evs db'
    pending' →
  history db evs db'.
Proof.
  revert pending db evs db'. induction servers as [|s servers IH]; intros pending db evs db';
    cbn [resync_servers]; [apply history_ret|].
  apply history_bind; [intros *; apply loop_history; constructor|].
  intros [] *; [apply history_ret|]. destruct (is_some_and _ _); [apply IH|].
  apply history_bind; [intros *; apply schedule_history|]. intros *. apply IH.
Qed.

Lemma run_one_history interval order arm pending db evs db' pending' :
  exec other_step db (run_one local_scope akamai cause interval order arm pending) evs db' pending' →
  history db evs db'.
Proof.
  destruct arm as [[sid|iid]| |]; cbn [run_one].
  - apply schedule_history.
  - apply history_bind.
    + intros *. apply history_bind; [intros *; apply loop_history; constructor|].
      intros [[i|]|e] *; apply history_ret.
    + intros [sid|] *; [apply schedule_history|apply history_ret].
  - apply history_bind; [intros *; apply loop_history; constructor|].
    intros *. apply retry_servers_history.
  - apply history_bind; [intros *; apply loop_history; constructor|].
    intros [servers|e] *; [|apply history_ret].
    apply history_bind; [intros *; apply loop_history; constructor|].
    intros *. apply resync_servers_history.
Qed.

Lemma run_arms_history interval order arms pending db evs db' pending' :
  exec other_step db (run_arms local_scope akamai cause interval order arms pending) evs db'
    pending' →
  history db evs db'.
Proof.
  revert pending db evs db'. induction arms as [|arm arms IH]; intros pending db evs db'; cbn [run_arms];
    [apply history_ret|].
  apply history_bind; [intros *; apply run_one_history|]. intros *. apply IH.
Qed.

(** ** Steps *)

(** Every event is on no machine and no data, or was done for the active
    instance of [sid] as its pass had read it. *)
Definition passes_on (sid : ServerId) (db db' : Database) (evs : list event) : Prop :=
  ∀ X (o : op X) x, Event o x ∈ evs → idle o = true ∨
  ∃ dbr inst, db_ok dbr ∧ grows db dbr ∧ grows dbr db' ∧ active_in dbr inst ∧
    si_server_id inst = sid ∧ guarded inst o.

Lemma pass_on_passes_on sid db db' evs : pass_on sid db db' evs → passes_on sid db db' evs.
Proof.
  intros [Hall|(dbr & inst & Hok & Hg & Hg' & Hact & Hsid & Hall)] X o x Hin;
    rewrite Forall_forall in Hall; specialize (Hall _ Hin); [by left|].
  right. exists dbr, inst. done.
Qed.

Record step_ok (sid : ServerId) (db db' : Database) (evs : list event) : Prop := {
  step_steps : rtc db_step db db';
  step_no_loss : no_loss (server_instances db) → no_loss (server_instances db');
  step_events : passes_on sid db db' evs;
}.

Lemma pass_step_ok sid db evs db' r :
  db_ok db → exec other_step db (reconcile_once local_scope akamai sid) evs db' r →
  step_ok sid db db' evs.
Proof.
  intros Hok He.
  destruct (pass_spec other_step other_step_db_step _ _ _ _ _ _ _ Hok He) as [Hst Hp].
  constructor; [done| |by apply pass_on_passes_on]. intros Hl.
  exact (pass_no_loss _ _ _ _ _ _ _ Hok Hl He).
Qed.

Lemma record_error_step_ok sid db e evs db' r :
  db_ok db → exec other_step db (record_error cause sid e) evs db' r → step_ok sid db db' evs.
Proof.
  intros Hok He.
  assert (Hsafe : always (λ X o, op_safe db o) (λ _, True) (record_error cause sid e)).
  { unfold record_error. walk; try exact I; cbn [op_safe].
    - apply safe_get_active_instance.
    - by apply safe_record_error. }
  assert (Hidle : always (λ X o, idle o = true) (λ _, True) (record_error cause sid e)).
  { unfold record_error. walk; done. }
  destruct (exec_always other_step other_step_db_step db _ _ _ _ _ _ _ He Hok (reflexivity _)
    Hsafe Hidle) as (Hst & Hall & _).
  constructor; [done| |].
  - refine (exec_keeps other_step (λ db, no_loss (server_instances db)) (λ _, True) _ _ _ _ _
      no_loss_other _ He).
    unfold record_error. walk; try exact I; cbn [op_keeps]; eauto with mcserver.
  - intros X o x Hin. left. rewrite Forall_forall in Hall. by apply (Hall (Event o x)).
Qed.

Lemma loop_step_ok sid {X} (o : op X) db evs db' x :
  db_ok db → loop_op o → exec other_step db (perform o) evs db' x → step_ok sid db db' evs.
Proof.
  intros Hok Ho He.
  assert (Hsafe : always (λ X o, op_safe db o) (λ _, True) (perform o)).
  { split; [|done]. destruct Ho; cbn; try exact I; by apply repo_safe_read. }
  assert (Hidle : always (λ X o, idle o = true) (λ _, True) (perform o)).
  { split; [|done]. by destruct Ho. }
  assert (Hkeeps : always (λ X o, op_keeps (λ db, no_loss (server_instances db)) o) (λ _, True)
    (perform o)).
  { split; [|done]. destruct Ho; cbn; try exact I; by apply keeps_read. }
  destruct (exec_always other_step other_step_db_step db _ _ _ _ _ _ _ He Hok (reflexivity _)
    Hsafe Hidle) as (Hst & Hall & _).
  constructor; [done| |].
  - by apply (exec_keeps other_step _ _ _ _ _ _ _ no_loss_other Hkeeps He).
  - intros Y o' y Hin. left. rewrite Forall_forall in Hall. by apply (Hall (Event o' y)).
Qed.

Lemma worker_step_ok db evs db' : db_ok db → worker_step db evs db' → ∃ sid, step_ok sid db db' evs.
Proof.
  intros Hok [(sid & r & He)|[(sid & e & r & He)|(X & o & x & Ho & He)]];
    [exists sid; by eapply pass_step_ok|exists sid; by eapply record_error_step_ok|].
  exists 0%N. by eapply loop_step_ok.
Qed.

(** A recovery lists machines, deletes some, and records the others. *)
Lemma reaping_always (P : ∀ X, op X → Prop) config active :
  (∀ id pid p now, P _ (Repo (ComputeInstanceRepository_record_provider_instance id (u64_to_string pid)
     (public_ipv4 p) now))) →
  (∀ filter, P _ (ApiListInstances filter)) → (∀ id, P _ (ApiDeleteInstance id)) → P _ Now →
  always P (λ _, True) (AkamaiComputeManager_reap_orphans config active).
Proof.
  intros Hrepo Hlist Hdelete Hnow. unfold AkamaiComputeManager_reap_orphans.
  apply always_try_ret; [done|]. intros _ _.
  apply always_try_any; [unfold list_managed_instances; by walk|done|].
  intros managed. generalize 0 at 1. generalize 0.
  induction managed as [|p managed IH]; intros deleted adopted; cbn [reap_providers]; [done|].
  apply always_try_any; [|done|intros counts; apply IH].
  unfold reap_provider, client_delete_instance. cbv zeta. walk; done.
Qed.

(** What a recovery asks the provider for. *)
Definition recovers {X} (o : op X) : bool :=
  match o with ApiListInstances _ | ApiDeleteInstance _ => true | _ => false end.

Lemma recovery_step_ok db evs db' :
  db_ok db → recovery_step db evs db' →
  rtc db_step db db' ∧ (no_loss (server_instances db) → no_loss (server_instances db')) ∧
  Forall (on_event (λ X o, idle o || recovers o = true)) evs.
Proof.
  intros Hok (config & active & r & _ & He).
  assert (Hops : always (λ X o, idle o || recovers o = true) (λ _, True)
    (AkamaiComputeManager_reap_orphans config active)).
  { apply reaping_always; [|done..]. intros id pid p now. done. }
  assert (Hkeeps : always (λ X o, op_keeps (λ db, no_loss (server_instances db)) o) (λ _, True)
    (AkamaiComputeManager_reap_orphans config active)).
  { apply reaping_always; [|done..]. intros id pid p now. apply record_provider_quiet. }
  destruct (exec_always other_step other_step_db_step db _ _ _ _ _ _ _ He Hok (reflexivity _)
    (akamai_reap_safe db config active) Hops) as (Hst & Hall & _).
  split_and!; [done| |done]. by apply (exec_keeps other_step _ _ _ _ _ _ _ no_loss_other Hkeeps He).
Qed.

(** ** Histories *)

Lemma history_ok db evs db' :
  history db evs db' → db_ok db →
  rtc db_step db db' ∧ (no_loss (server_instances db) → no_loss (server_instances db')).
Proof.
  induction 1 as [db|db db1 evs db' Hs _ IH|db evs1 db1 evs db' Hw _ IH|db evs1 db1 evs db' Hw _ IH];
    intros Hok; [done| | |].
  - pose proof (rtc_once _ _ (other_step_db_step _ _ Hs)) as Hst.
    destruct (steps_safe _ _ Hok Hst) as [Hok1 _].
    destruct (IH Hok1) as (? & Hl). split; [by transitivity db1|].
    intros. by eapply Hl, no_loss_other.
  - destruct (worker_step_ok _ _ _ Hok Hw) as [sid [Hst Hl1 _]].
    destruct (steps_safe _ _ Hok Hst) as [Hok1 _].
    destruct (IH Hok1) as (? & Hl). split; [by transitivity db1|by auto].
  - destruct (recovery_step_ok _ _ _ Hok Hw) as (Hst & Hl1 & _).
    destruct (steps_safe _ _ Hok Hst) as [Hok1 _].
    destruct (IH Hok1) as (? & Hl). split; [by transitivity db1|by auto].
Qed.

(** Every event is [idle], of a recovery, or was done for the instance its pass had
    read. *)
Lemma history_events db evs db' X (o : op X) x :
  history db evs db' → db_ok db → Event o x ∈ evs → idle o || recovers o = false →
  ∃ dbr inst, db_ok dbr ∧ grows db dbr ∧ grows dbr db' ∧ active_in dbr inst ∧ guarded inst o.
Proof.
  induction 1 as [db|db db1 evs db' Hs _ IH|db evs1 db1 evs db' Hw Hh IH|db evs1 db1 evs db' Hw Hh IH];
    intros Hok Hin Hidle.
  - by apply not_elem_of_nil in Hin.
  - destruct (env_safe other_step other_step_db_step db db1 Hok) as [Hok1 Hg1];
      [by apply rtc_once|].
    destruct (IH Hok1 Hin Hidle) as (dbr & inst & ? & ? & ? & ? & ?).
    exists dbr, inst. split_and!; try done. by transitivity db1.
  - destruct (worker_step_ok _ _ _ Hok Hw) as [sid [Hst Hl1 Hev]].
    destruct (steps_safe _ _ Hok Hst) as [Hok1 Hg1].
    destruct (history_ok _ _ _ Hh Hok1) as [[_ Hgh]%(steps_safe _ _ Hok1) _].
    apply elem_of_app in Hin as [Hin|Hin].
    + destruct (Hev _ _ _ Hin) as [Hi|(dbr & inst & ? & ? & ? & ? & _ & ?)]; [by rewrite Hi in Hidle|].
      exists dbr, inst. split_and!; try done. by transitivity db1.
    + destruct (IH Hok1 Hin Hidle) as (dbr & inst & ? & ? & ? & ? & ?).
      exists dbr, inst. split_and!; try done. by transitivity db1.
  - destruct (recovery_step_ok _ _ _ Hok Hw) as (Hst & _ & Hev).
    destruct (steps_safe _ _ Hok Hst) as [Hok1 Hg1].
    apply elem_of_app in Hin as [Hin|Hin].
    + rewrite Forall_forall in Hev. specialize (Hev _ Hin). cbn in Hev. congruence.
    + destruct (IH Hok1 Hin Hidle) as (dbr & inst & ? & ? & ? & ? & ?).
      exists dbr, inst. split_and!; try done. by transitivity db1.
Qed.

(** What a row tells of the instance decoded from it. *)
Lemma active_in_row db inst :
  db_ok db → active_in db inst →
  ∃ r, server_instances db !! uuid_to_string (si_id inst) = Some r ∧
    ir_terminated_at_ms r = None ∧ ir_server_id r = uuid_to_string (si_server_id inst) ∧
    ir_fencing_token r = si_fencing_token inst ∧
    ir_data_prepared_at_ms r = si_data_prepared_at inst ∧
    ir_result_snapshot_id r = si_result_snapshot_id inst.
Proof.
  intros Hok (r & Hr & Hd & Ha). pose proof (ok_instances _ Hok _ _ Hr) as Hwf.
  destruct (instance_row_wf_decode _ _ Hwf) as (sid & spec & res & Hsid & _ & _ & Hd').
  rewrite Hd' in Hd. injection Hd as Hd. exists r. rewrite <- Hd at 2 3 4 5. cbn. done.
Qed.

(** A row that was active in [db] and is what a later [db'] has of it. *)
Lemma grows_instance db db' k r :
  grows db db' → server_instances db !! k = Some r →
  ∃ r', server_instances db' !! k = Some r' ∧ instance_grows r r'.
Proof. intros [_ Gi _ _]. apply Gi. Qed.

(** An instance that was started has its data recorded from then on. *)
Lemma started_row db evs db' c p x :
  history db evs db' → db_ok db → Event (CallStart c p) x ∈ evs →
  ∃ r, server_instances db' !! uuid_to_string (server_instance_id (start_instance p)) = Some r ∧
    ir_fencing_token r = fencing_token (start_instance p) ∧ is_Some (ir_data_prepared_at_ms r).
Proof.
  intros Hh Hok Hin.
  destruct (history_events _ _ _ _ _ _ Hh Hok Hin eq_refl)
    as (dbr & inst & Hokr & _ & Hg & Hact & Hprep & ->).
  destruct (active_in_row _ _ Hokr Hact) as (r & Hr & _ & _ & Ht & Hd & _).
  destruct (grows_instance _ _ _ _ Hg Hr) as (r' & Hr' & Hgr).
  exists r'. destruct Hgr as (_ & _ & _ & Et & _ & _ & _ & _ & Ed & _). split_and!.
  - done.
  - cbn. congruence.
  - rewrite Ed, Hd by (rewrite Hd; by apply not_eq_None_Some). by apply not_eq_None_Some.
Qed.

(** A guarded operation that discards data. *)
Lemma discards_settled inst {X} (o : op X) :
  guarded inst o → discards o = true → has_unpublished_data inst = false.
Proof.
  destruct o; try done; cbn; try (intros []; done); try (by intros ->).
  intros Hn _. apply unpublished_spec. by left.
Qed.

(** What the pass had read of an instance whose data is recorded and that is
    active: the one it works on. *)
Lemma discard_published sid db db' evs X (o : op X) y k r :
  passes_on sid db db' evs → no_loss (server_instances db') → db_ok db' →
  Event o y ∈ evs → discards o = true →
  server_instances db !! k = Some r → ir_server_id r = uuid_to_string sid →
  is_Some (ir_data_prepared_at_ms r) →
  ∃ r', server_instances db' !! k = Some r' ∧ is_Some (ir_result_snapshot_id r').
Proof.
  intros Hev Hl Hok' Hin Ho Hr Hsid Hprep.
  destruct (Hev _ _ _ Hin) as [Hi|(dbr & inst & Hokr & Hg & Hg' & Hact & Hs & Hgu)];
    [by destruct o|].
  destruct (grows_instance _ _ _ _ Hg Hr) as (r1 & Hr1 & Hgr1).
  destruct (grows_instance _ _ _ _ Hg' Hr1) as (r2 & Hr2 & Hgr2).
  exists r2. split; [done|].
  destruct Hgr1 as (Es1 & _ & _ & _ & _ & _ & _ & _ & Ed1 & _).
  destruct Hgr2 as (_ & _ & _ & _ & _ & _ & _ & Er2 & Ed2 & _ & Et2).
  assert (Hprep1 : is_Some (ir_data_prepared_at_ms r1)) by (by rewrite Ed1).
  destruct (ir_terminated_at_ms r1) as [t|] eqn:Ht.
  - apply (Hl _ _ Hr2); [rewrite Et2 by done; by rewrite Ht|by rewrite Ed2].
  - destruct (active_in_row _ _ Hokr Hact) as (r3 & Hr3 & Ht3 & Hs3 & _ & Hd3 & Hres3).
    assert (k = uuid_to_string (si_id inst)) as ->.
    { eapply (one_active_instance _ _ _ _ _ Hokr); [exact Hr1|exact Hr3|congruence|done|done]. }
    rewrite Hr1 in Hr3. injection Hr3 as ->.
    apply discards_settled in Hgu; [|done]. apply unpublished_spec in Hgu as [Hn|Hres].
    + rewrite Hd3, Hn in Hprep1. by destruct Hprep1.
    + rewrite <- Hres3 in Hres. by rewrite Er2.
Qed.
End system.
