(* ===== verification/World.v ===== *)
(** A cooperative world to evaluate programs in: a host that runs one node
    agent, an agent that does as it is told, and a cloud provider with one kind
    of everything. It shows that the hypotheses of the theorems about
    executions can be met, by evaluation. *)
From Stdlib Require Import Ascii.
From S2P Require Import Prelude Text Programs Server ServerFacts Instances InstanceFacts Database.
From S2P Require Import RowFacts.
From S2P Require Import Repositories ComputeRepository Invariant RepositoryFacts LifecycleFacts.
From S2P Require Import ComputeFacts Persistence Effects Semantics LocalCompute AkamaiCompute.
From S2P Require Import Reconciliation.
#[local] Open Scope string_scope.
#[local] Open Scope Z_scope.

Record world := {
  w_clock : Z;
  w_next_uuid : N;
  w_file : option LocalRuntimeState;
  w_child : bool;
  w_prepared : bool;
  w_running : bool;
  w_snapshot : option string;
  w_machines : list ProviderInstance;
}.

Definition initial_world : world :=
  {| w_clock := 10000; w_next_uuid := 100%N; w_file := None; w_child := false;
     w_prepared := false; w_running := false; w_snapshot := None; w_machines := [] |}.

Definition set_child (b : bool) (w : world) : world :=
  {| w_clock := w_clock w; w_next_uuid := w_next_uuid w; w_file := w_file w; w_child := b;
     w_prepared := w_prepared w; w_running := w_running w; w_snapshot := w_snapshot w;
     w_machines := w_machines w |}.
Definition set_file (f : option LocalRuntimeState) (w : world) : world :=
  {| w_clock := w_clock w; w_next_uuid := w_next_uuid w; w_file := f; w_child := w_child w;
     w_prepared := w_prepared w; w_running := w_running w; w_snapshot := w_snapshot w;
     w_machines := w_machines w |}.
Definition set_data (prepared running : bool) (snapshot : option string) (w : world) : world :=
  {| w_clock := w_clock w; w_next_uuid := w_next_uuid w; w_file := w_file w;
     w_child := w_child w; w_prepared := prepared; w_running := running; w_snapshot := snapshot;
     w_machines := w_machines w |}.
Definition tick (w : world) : world :=
  {| w_clock := w_clock w + 1000; w_next_uuid := (w_next_uuid w + 1)%N; w_file := w_file w;
     w_child := w_child w; w_prepared := w_prepared w; w_running := w_running w;
     w_snapshot := w_snapshot w;
     w_machines := w_machines w |}.

Definition set_machines (l : list ProviderInstance) (w : world) : world :=
  {| w_clock := w_clock w; w_next_uuid := w_next_uuid w; w_file := w_file w;
     w_child := w_child w; w_prepared := w_prepared w; w_running := w_running w;
     w_snapshot := w_snapshot w; w_machines := l |}.

(** Machines get consecutive numbers. *)
Definition created_machine (q : CreateInstanceRequest) (w : world) : ProviderInstance :=
  {| pi_id := Z.of_nat (length (w_machines w)) + 1; pi_label := request_label q;
     pi_region := request_region q; pi_instance_type := request_instance_type q;
     pi_image := request_image q; pi_disk_encryption := request_disk_encryption q;
     pi_ipv4 := ["203.0.113.7"]; pi_tags := request_tags q |}.

Definition ok_response {A} (status : Z) (body : A) : api_response A :=
  {| resp_status := status; resp_retry_after := None; resp_errors := "no error";
     resp_body := Ok body |}.

Definition find_machine (id : Z) (w : world) : option ProviderInstance :=
  List.find (λ p, pi_id p =? id) (w_machines w).

Definition example_token : string :=
  "0123456789abcdef0123456789abcdef0123456789abcdef0123456789abcdef".

(** The answer of the world to an operation that is not on the database. *)
Definition respond {X} (o : op X) (w : world) : X * world :=
  match o in op X return X * world with
  | Now => (Ok (w_clock w), tick w)
  | NewUuid => (w_next_uuid w, tick w)
  | NewConnectionToken => (example_token, w)
  | InstantNow => (w_clock w * 1000000, w)
  | Enqueue _ => (tt, w)
  | IsCancelled => (false, w)
  | Repo _ => (Err (RE.Database Unavailable), w)
  | IsConnected _ => (w_child w, w)
  | CallInspect _ _ =>
      (Ok {| data_prepared := w_prepared w; process_running := w_running w;
             last_snapshot_id := w_snapshot w |}, w)
  | CallRestore _ _ => (Ok true, set_data true false None w)
  | CallStart _ _ => (Ok true, set_data (w_prepared w) true (w_snapshot w) w)
  | CallStop _ _ => (Ok true, set_data (w_prepared w) false (w_snapshot w) w)
  | CallSnapshot _ _ => (Ok "snapshot-1", set_data (w_prepared w) false (Some "snapshot-1") w)
  | CallCleanup _ _ => (Ok (w_prepared w), set_data false false (w_snapshot w) w)
  | CallShutdown _ => (Ok true, w)
  | ChildTryWait _ => (Ok (if w_child w then Some true else None), w)
  | ChildRemove _ => (w_child w, set_child false w)
  | ChildInsert _ => (tt, set_child true w)
  | KillChild _ => (tt, set_child false w)
  | WaitTrackedExit _ => (Ok tt, set_child false w)
  | WaitUntrackedExit _ => (Ok tt, set_child false w)
  | ReadRuntimeFile _ => (Ok (w_file w), w)
  | StoreRuntimeFile _ s => (Ok tt, set_file (Some s) w)
  | ReadBootId => (Ok "boot", w)
  | ReadProcessState _ => (Ok {| lps_state := "S"%char; lps_start_time_ticks := 77 |}, w)
  | CreateStateDirectory _ => (Ok tt, w)
  | SpawnProcess _ _ => (Ok (Some 4242), w)
  | RemoveStateDirectory _ => (Ok tt, set_file None (set_data false false None w))
  | ApiListInstances _ => (Ok (w_machines w), w)
  | ApiGetInstance id =>
      (Ok match find_machine id w with
          | Some p => ok_response 200 p
          | None => {| resp_status := 404; resp_retry_after := None; resp_errors := "not found";
                       resp_body := Err (AE.Serialization "not a machine") |}
          end, w)
  | ApiCreateInstance q =>
      (Ok (ok_response 200 (created_machine q w)),
       set_machines (created_machine q w :: w_machines w) w)
  | ApiDeleteInstance id =>
      (Ok (ok_response 200 tt),
       set_machines (List.filter (λ p, negb (pi_id p =? id)) (w_machines w)) w)
  | ApiGetImage id =>
      (Ok (ok_response 200 {| image_id := id; image_status := "available";
             image_deprecated := false; image_capabilities := [CLOUD_INIT_CAPABILITY] |}), w)
  | ApiGetRegion id =>
      (Ok (ok_response 200 {| region_id := id; region_capabilities := [METADATA_CAPABILITY] |}), w)
  | ApiGetType id => (Ok (ok_response 200 id), w)
  | ApiGetFirewall id =>
      (Ok (ok_response 200 {| firewall_id_of := id; firewall_status := "enabled" |}), w)
  | ApiListInstanceFirewalls _ =>
      (Ok (ok_response 200 [{| firewall_id_of := 42; firewall_status := "enabled" |}]), w)
  | BuildBootstrap _ _ => (Ok {| authorized_keys := []; user_data_base64 := "I2Nsb3VkLWNvbmZpZw==" |}, w)
  end.

(** The clock stays a timestamp. *)
Definition world_ok (w : world) : Prop := 0 ≤ w_clock w.

Lemma respond_valid {X} (o : op X) w :
  world_ok w → valid_answer o (respond o w).1 ∧ world_ok (respond o w).2.
Proof.
  intros Hw. unfold world_ok in *. destruct o; cbn; (split; [|lia]); try done.
Qed.

Section simulation.
Context `{CodecLaws}.

Definition perform_in {X} (o : op X) (w : world) (db : Database) : X * world * Database :=
  match o in op X return X * world * Database with
  | Repo m => let '(r, db') := m db in (r, w, db')
  | o => (respond o w, db)
  end.

(** Runs a program with no interference. *)
Fixpoint simulate {A} (p : prog A) (w : world) (db : Database) :
    list event * world * Database * A :=
  match p with
  | Ret a => ([], w, db, a)
  | Op o k =>
      let '(x, w1, db1) := perform_in o w db in
      let '(evs, w2, db2, a) := simulate (k x) w1 db1 in
      (Event o x :: evs, w2, db2, a)
  end.

Lemma perform_in_answer {X} (o : op X) w db x w' db' :
  world_ok w → perform_in o w db = (x, w', db') → answer db o x db' ∧ world_ok w'.
Proof.
  intros Hw. destruct (is_repo o) eqn:Ho.
  - destruct o; try done. cbn. destruct (m db) as [r d] eqn:E. intros [= <- <- <-].
    split; [by constructor|done].
  - intros E. pose proof (respond_valid o w Hw) as [Hv Hw'].
    assert (E' : perform_in o w db = (respond o w, db)) by (by destruct o).
    rewrite E in E'. destruct (respond o w) as [y v]. injection E' as -> -> ->.
    split; [by apply answer_world|done].
Qed.

Lemma simulate_exec env {A} (p : prog A) w db evs w' db' a :
  world_ok w → simulate p w db = (evs, w', db', a) →
  exec env db p evs db' a ∧ world_ok w'.
Proof.
  revert w db evs. induction p as [a0|X o k IH]; intros w db evs Hw; cbn.
  - intros [= <- <- <- <-]. split; [constructor|done].
  - destruct (perform_in o w db) as [[x w1] db1] eqn:E.
    destruct (simulate (k x) w1 db1) as [[[evs' w2] db2] a'] eqn:E2.
    intros [= <- <- <- <-]. apply perform_in_answer in E as [Ha Hw1]; [|done].
    destruct (IH _ _ _ _ Hw1 E2) as [He Hw2]. split; [|done].
    econstructor; [reflexivity|exact Ha|exact He].
Qed.
End simulation.
