(* ===== verification/SystemProperties.v ===== *)
(** What the running control plane guarantees about the data of its servers. *)
From S2P Require Import Prelude Text Programs Server ServerFacts Instances InstanceFacts Database.
From S2P Require Import RowFacts.
From S2P Require Import Repositories ComputeRepository Invariant RepositoryFacts LifecycleFacts.
From S2P Require Import ComputeFacts Persistence Effects Semantics LocalCompute AkamaiCompute.
From S2P Require Import Config.
From S2P Require Import Reconciliation ManagerFacts ReconcileFacts PassFacts DataSafety System.
From S2P Require Import World Codecs PersistenceProperties.
#[local] Open Scope string_scope.
#[local] Open Scope Z_scope.

(** ** An example history: a server is started, stopped and cleaned up *)

Section example.
#[local] Existing Instance bits_codec.
#[local] Existing Instance bits_codec_laws.

Abbreviation example_history := (history "scope" None (λ _, "cause")).

(** The worker reconciles the running server until it is blocked, a client
    stops the server, the worker makes three passes and then a fourth. *)
Definition example_turn : prog (gmap N RetryState) :=
  reconcile_and_schedule "scope" None (λ _, "cause") (from_secs 5) 7%N 0 ∅.
Definition first_turn := simulate example_turn initial_world example_stopped_db.
Definition example_stopping : Server := (Server_set_desired_state example_running DS.Stopped 90000).2.
Definition example_stopping_db : Database :=
  (run_write (WUpdateDesiredState example_stopping 2) first_turn.1.2).2.
Definition three_passes :=
  simulate (reconcile_transitions "scope" None 3 7%N) first_turn.1.1.2 example_stopping_db.
Definition fourth_pass :=
  simulate (reconcile_once "scope" None 7%N) three_passes.1.1.2 three_passes.1.2.

(** The first [CallStart] of a trace. *)
Fixpoint find_start (evs : list event) :
    option (ComputeInstanceId * StartServerParams * result AgentCallError bool) :=
  match evs with
  | [] => None
  | Event o x :: evs' =>
      match o in op X return X → _ with
      | CallStart c p => λ x, Some (c, p, x)
      | _ => λ _, find_start evs'
      end x
  end.

Lemma find_start_in evs c p x : find_start evs = Some (c, p, x) → Event (CallStart c p) x ∈ evs.
Proof.
  induction evs as [|[X o y] evs IH]; cbn; [done|].
  destruct o; try (intros ?%IH; by apply list_elem_of_further).
  intros [= -> -> ->]. apply list_elem_of_here.
Qed.

(** The first [CallCleanup] of a trace. *)
Fixpoint find_cleanup (evs : list event) :
    option (ComputeInstanceId * CleanupInstanceParams * result AgentCallError bool) :=
  match evs with
  | [] => None
  | Event o x :: evs' =>
      match o in op X return X → _ with
      | CallCleanup c p => λ x, Some (c, p, x)
      | _ => λ _, find_cleanup evs'
      end x
  end.

Lemma find_cleanup_in evs c p x :
  find_cleanup evs = Some (c, p, x) → Event (CallCleanup c p) x ∈ evs.
Proof.
  induction evs as [|[X o y] evs IH]; cbn; [done|].
  destruct o; try (intros ?%IH; by apply list_elem_of_further).
  intros [= -> -> ->]. apply list_elem_of_here.
Qed.

(** What a simulation shows of the program it runs. *)
Lemma simulated {A} (p : prog A) w db :
  world_ok w →
  exec other_step db p (simulate p w db).1.1.1 (simulate p w db).1.2 (simulate p w db).2 ∧
  world_ok (simulate p w db).1.1.2.
Proof.
  intros Hw. destruct (simulate p w db) as [[[evs w'] db'] a] eqn:E.
  by apply (simulate_exec other_step _ _ _ _ _ _ _ Hw E).
Qed.

Lemma example_setup_history : example_history empty_database [] example_stopped_db.
Proof.
  eapply history_other.
  { exists (WCreateServer example_server). split_and!; [done| |reflexivity].
    split_and!; [exact example_server_wf|done|done]. }
  eapply history_other; [|apply history_nil].
  exists (WUpdateDesiredState example_running 1). split_and!; [done| |reflexivity].
  split; [|done]. split_and!; try done. apply row_created_le. vm_compute. reflexivity.
Qed.

Lemma example_stopping_step : other_step first_turn.1.2 example_stopping_db.
Proof.
  exists (WUpdateDesiredState example_stopping 2). split; [done|]. split; [|reflexivity].
  split; [|split; [by vm_compute|intros E; exfalso; by vm_compute in E]].
  split; [by vm_compute|]. split; [by vm_compute|].
  apply row_created_le. vm_compute. reflexivity.
Qed.

Lemma first_world_ok : world_ok first_turn.1.1.2.
Proof. unfold first_turn. by apply (simulated example_turn initial_world example_stopped_db). Qed.

Lemma three_passes_world_ok : world_ok three_passes.1.1.2.
Proof.
  unfold three_passes.
  exact (proj2 (simulated (reconcile_transitions "scope" None 3 7%N) _ example_stopping_db first_world_ok)).
Qed.

(** The history up to the fourth pass. *)
Lemma example_started_history :
  example_history empty_database (first_turn.1.1.1 ++ three_passes.1.1.1)%list three_passes.1.2.
Proof.
  eapply history_quiet; [apply example_setup_history|]. eapply history_app.
  - unfold first_turn. eapply schedule_history.
    by apply (simulated example_turn initial_world example_stopped_db).
  - eapply history_other; [apply example_stopping_step|].
    unfold three_passes. eapply transitions_history.
    exact (proj1 (simulated (reconcile_transitions "scope" None 3 7%N) _ example_stopping_db first_world_ok)).
Qed.
End example.

(** ** Properties *)

Section properties.
Context `{CodecLaws}.
Variable local_scope : string.
Variable akamai : option AkamaiConfig.
Variable cause : ReconcileError → string.
Abbreviation history_of := (history local_scope akamai cause).

(** C1. No instance terminates with data that is in no snapshot. In every state
    the control plane can reach by passes of the worker, by the recovery of machines
    when it starts and by the writes of the tasks that serve clients and agents, whatever
    the agents, the hosts, the clock and the cloud provider answer, whichever operations
    fail or are lost, and however all of these interleave, an instance that terminated after
    its data was prepared has published a snapshot, and that snapshot is
    recorded for its server and belongs to it. *)
Theorem terminated_data_is_published evs db k i :
  history_of empty_database evs db →
  server_instances db !! k = Some i →
  is_Some (ir_terminated_at_ms i) → is_Some (ir_data_prepared_at_ms i) →
  ∃ snap n, ir_result_snapshot_id i = Some snap ∧
    snapshots db !! (ir_server_id i, snap) = Some n ∧ nr_server_instance_id n = k.
Proof.
  intros Hh Hi Ht Hp.
  destruct (history_ok _ _ _ _ _ _ Hh empty_database_ok) as [Hok%reachable_ok Hl].
  destruct (Hl (map_Forall_empty _) k i Hi Ht Hp) as [snap Hs].
  destruct (ok_published _ Hok _ _ _ Hi Hs) as (n & Hn & Hk & _). eauto.
Qed.

(** C2. Data a server process may have written is never discarded. Once the
    worker has asked an agent to start an instance, any later pass over that
    server that restores a snapshot, cleans up, ends the agent, removes its
    directory, deletes the machine or creates a new one finds the instance's
    data published: a snapshot of it is recorded. *)
Theorem started_data_is_published_before_discard evs db sid evs' db' res X (o : op X) y c p x r :
  history_of empty_database evs db →
  Event (CallStart c p) x ∈ evs →
  exec other_step db (reconcile_once local_scope akamai sid) evs' db' res →
  Event o y ∈ evs' → discards o = true →
  server_instances db !! uuid_to_string (server_instance_id (start_instance p)) = Some r →
  ir_server_id r = uuid_to_string sid →
  ∃ r' snap n,
    server_instances db' !! uuid_to_string (server_instance_id (start_instance p)) = Some r' ∧
    ir_result_snapshot_id r' = Some snap ∧
    snapshots db' !! (ir_server_id r', snap) = Some n ∧
    nr_server_instance_id n = uuid_to_string (server_instance_id (start_instance p)).
Proof.
  intros Hh Hstart He Ho Hd Hr Hsid.
  destruct (history_ok _ _ _ _ _ _ Hh empty_database_ok) as [Hok%reachable_ok Hl].
  specialize (Hl (map_Forall_empty _)).
  destruct (started_row _ _ _ _ _ _ _ _ _ Hh empty_database_ok Hstart) as (r0 & Hr0 & _ & Hp).
  rewrite Hr in Hr0. injection Hr0 as <-.
  apply pass_step_ok in He as [[Hok' _]%(steps_safe _ _ Hok) Hl' Hev]; [|done].
  destruct (discard_published _ _ _ _ _ _ _ _ _ Hev (Hl' Hl) Hok' Ho Hd Hr Hsid Hp)
    as (r' & Hr' & [snap Hs]).
  destruct (ok_published _ Hok' _ _ _ Hr' Hs) as (n & Hn & Hk & _). eauto 10.
Qed.

(** The worker's loop is covered by the histories above: whatever sequence of
    requests, retry ticks and resync ticks it handles, in whatever order it
    visits the servers, is a history, and every state the running system
    reaches is one the repositories' transitions reach, so all that holds of
    reachable databases holds of it. *)
Theorem worker_loop_refines_transitions interval order arms pending db0 evs0 db evs db' pending' :
  history_of db0 evs0 db →
  exec other_step db (run_arms local_scope akamai cause interval order arms pending) evs db'
    pending' →
  history_of db0 (evs0 ++ evs)%list db' ∧ (reachable db0 → reachable db').
Proof.
  intros Hh He%run_arms_history.
  pose proof (history_app _ _ _ _ _ _ _ _ Hh He) as Hh'. split; [done|].
  intros Hr. unfold reachable. etransitivity; [exact Hr|].
  eapply history_ok; [exact Hh'|by apply reachable_ok].
Qed.

(** C3. Every pass, under any interference by other writers and any answers,
    leaves a reachable database that only adds to the one before, and either
    touches no machine and no data or acts for one instance that it read as
    the active instance of its server: agents are called with that instance's
    id and fencing token, a process is started only when its data is recorded
    as prepared, a snapshot is taken only of unpublished data, and whatever can
    discard data happens only when the data is published or was never
    prepared. *)
Theorem pass_is_guarded db sid evs db' r :
  reachable db → exec db_step db (reconcile_once local_scope akamai sid) evs db' r →
  reachable db' ∧ grows db db' ∧
  (Forall (on_event (λ X o, idle o = true)) evs ∨
   ∃ dbr inst, grows db dbr ∧ grows dbr db' ∧ active_in dbr inst ∧ si_server_id inst = sid ∧
     Forall (on_event (λ X o, guarded inst o)) evs).
Proof.
  intros Hr He. pose proof (reachable_ok _ Hr) as Hok.
  destruct (pass_spec db_step (λ _ _ Hs, Hs) _ _ _ _ _ _ _ Hok He) as [Hst Hp].
  split_and!; [by unfold reachable; transitivity db|by eapply steps_safe|]. destruct Hp as [?|(dbr & inst & _ & ?)]; [by left|by right; eauto].
Qed.
End properties.

(** ** Witnesses *)

Section witnesses.
#[local] Existing Instance bits_codec.
#[local] Existing Instance bits_codec_laws.
Abbreviation example_history := (history "scope" None (λ _, "cause")).

(** The only row of a table, by evaluation. *)
Lemma lookup_is_some {R} (m : gmap string R) (k : string) (f : R → bool) :
  match m !! k with Some r => f r | None => false end = true → ∃ r, m !! k = Some r ∧ f r = true.
Proof. destruct (m !! k); [eauto|done]. Qed.

Lemma terminated_data_is_published_witness :
  ∃ evs db k i snap, example_history empty_database evs db ∧ server_instances db !! k = Some i ∧
    ir_result_snapshot_id i = Some snap.
Proof.
  set (rest := simulate example_turn fourth_pass.1.1.2 fourth_pass.1.2).
  assert (Hf := simulated (reconcile_once "scope" None 7%N) _ three_passes.1.2 three_passes_world_ok).
  fold fourth_pass in Hf. destruct Hf as [Hf Hw].
  assert (Hh : example_history empty_database
    ((first_turn.1.1.1 ++ three_passes.1.1.1) ++ fourth_pass.1.1.1 ++ rest.1.1.1)%list rest.1.2).
  { eapply (history_app _ _ _ _ _ _ _ _ example_started_history).
    eapply history_worker.
    - left. exists 7%N, fourth_pass.2. exact Hf.
    - eapply schedule_history. apply (simulated example_turn _ fourth_pass.1.2 Hw). }
  destruct (lookup_is_some (server_instances rest.1.2) (uuid_to_string 101%N)
    (λ r, is_some (ir_terminated_at_ms r) && is_some (ir_data_prepared_at_ms r)))
    as (i & Hi & Hb); [vm_compute; reflexivity|].
  apply andb_true_iff in Hb as [Ht Hp].
  destruct (terminated_data_is_published "scope" None (λ _, "cause") _ _ _ _ Hh Hi)
    as (snap & n & Hs & _).
  - by destruct (ir_terminated_at_ms i).
  - by destruct (ir_data_prepared_at_ms i).
  - eauto 10.
Defined.

Lemma started_data_is_published_before_discard_witness :
  ∃ evs db p c x, example_history empty_database evs db ∧ Event (CallStart c p) x ∈ evs ∧
    ∃ r' snap, server_instances fourth_pass.1.2 !!
      uuid_to_string (server_instance_id (start_instance p)) = Some r' ∧
      ir_result_snapshot_id r' = Some snap.
Proof.
  assert (Hf := proj1 (simulated (reconcile_once "scope" None 7%N) _ three_passes.1.2 three_passes_world_ok)).
  fold fourth_pass in Hf.
  destruct (find_start (first_turn.1.1.1 ++ three_passes.1.1.1)) as [[[c p] x]|] eqn:Es.
  2: { exfalso. assert (Hb : is_some (find_start (first_turn.1.1.1 ++ three_passes.1.1.1)) = true)
         by (vm_compute; reflexivity). by rewrite Es in Hb. }
  destruct (find_cleanup fourth_pass.1.1.1) as [[[c' p'] y]|] eqn:Ec.
  2: { exfalso. assert (Hb : is_some (find_cleanup fourth_pass.1.1.1) = true)
         by (vm_compute; reflexivity). by rewrite Ec in Hb. }
  exists (first_turn.1.1.1 ++ three_passes.1.1.1)%list, three_passes.1.2, p, c, x.
  split; [apply example_started_history|]. split; [by apply find_start_in|].
  assert (Hp : server_instance_id (start_instance p) = 101%N).
  { assert (Hb : match find_start (first_turn.1.1.1 ++ three_passes.1.1.1) with
      | Some (_, p, _) => N.eqb (server_instance_id (start_instance p)) 101 | None => false end
      = true) by (vm_compute; reflexivity). rewrite Es in Hb. by apply N.eqb_eq. }
  destruct (lookup_is_some (server_instances three_passes.1.2) (uuid_to_string 101%N)
    (λ r, String.eqb (ir_server_id r) (uuid_to_string 7%N))) as (r & Hr & Hb);
    [vm_compute; reflexivity|].
  destruct (started_data_is_published_before_discard "scope" None (λ _, "cause")
    _ _ 7%N _ fourth_pass.1.2 fourth_pass.2 _ (CallCleanup c' p') y c p x r example_started_history
    (find_start_in _ _ _ _ Es) Hf
    (find_cleanup_in _ _ _ _ Ec) eq_refl) as (r' & snap & n & Hr' & Hs & _).
  - by rewrite Hp.
  - by apply String.eqb_eq.
  - eauto.
Defined.

Lemma worker_loop_refines_transitions_witness :
  reachable (simulate (run_arms "scope" None (λ _, "cause") (from_secs 5) id
    [ArmRequest (RequestServer 7%N); ArmRetry; ArmResync] ∅) initial_world example_stopped_db).1.2.
Proof.
  destruct (simulate _ initial_world example_stopped_db) as [[[evs w] db] p] eqn:E.
  apply (simulate_exec other_step) in E as [He _]; [|done].
  apply (worker_loop_refines_transitions "scope" None (λ _, "cause") _ _ _ _ _ _ _ _ _ _
    example_setup_history He). unfold reachable. reflexivity.
Defined.

Lemma pass_is_guarded_witness :
  reachable example_db ∧
  reachable (simulate (reconcile_once "scope" None 7%N) initial_world example_db).1.2.
Proof.
  split; [exact example_reachable|].
  destruct (simulate (reconcile_once "scope" None 7%N) initial_world example_db)
    as [[[evs w] db] r] eqn:E.
  apply (simulate_exec db_step) in E as [He _]; [|done].
  apply (pass_is_guarded "scope" None _ _ _ _ _ example_reachable He).
Defined.
End witnesses.
