(* ===== verification/Traces.v ===== *)
(** Programs and the past of their operations: what a program has seen before it
    performs an operation. *)
From S2P Require Import Prelude Text Programs Server ServerFacts Instances InstanceFacts Database.
From S2P Require Import RowFacts.
From S2P Require Import Repositories ComputeRepository Invariant RepositoryFacts LifecycleFacts.
From S2P Require Import ComputeFacts Persistence Effects Semantics.
#[local] Open Scope string_scope.
#[local] Open Scope Z_scope.

(** Every operation of [p] satisfies [P] of the events before it, the latest
    first, and its result satisfies [Q] of all its events. *)
Fixpoint traced {A} (P : list event → ∀ X, op X → Prop) (Q : list event → A → Prop)
    (past : list event) (p : prog A) : Prop :=
  match p with
  | Ret a => Q past a
  | Op o k => P past _ o ∧ ∀ x, valid_answer o x → traced P Q (Event o x :: past) (k x)
  end.

Section traced.
Context (P : list event → ∀ X, op X → Prop).

Lemma traced_ret {A} (Q : list event → A → Prop) past a : Q past a → traced P Q past (Ret a).
Proof. done. Qed.

Lemma traced_op {A B} (Q : list event → B → Prop) (o : op A) (k : A → prog B) past :
  P past _ o → (∀ x, valid_answer o x → traced P Q (Event o x :: past) (k x)) →
  traced P Q past (Op o k).
Proof. by split. Qed.

Lemma traced_bind_op {A B C} (Q : list event → C → Prop) (o : op A) (k : A → prog B)
    (f : B → prog C) past :
  P past _ o → (∀ x, valid_answer o x → traced P Q (Event o x :: past) (prog_bind (k x) f)) →
  traced P Q past (prog_bind (Op o k) f).
Proof. by split. Qed.

Lemma traced_bind_assoc {A B C} (Q : list event → C → Prop) (m : prog A) (f : A → prog B)
    (g : B → prog C) past :
  traced P Q past (prog_bind m (λ a, prog_bind (f a) g)) →
  traced P Q past (prog_bind (prog_bind m f) g).
Proof.
  revert past. induction m as [a|X o k IH]; intros past; cbn; [done|].
  intros [Ho Hk]. split; [done|]. intros x Hx. auto.
Qed.

(** A subprogram of which only its own guarantee is used. *)
Lemma traced_bind {A B} (R : list event → A → Prop) (Q : list event → B → Prop)
    (m : prog A) (f : A → prog B) past :
  traced P R past m → (∀ past' a, R past' a → traced P Q past' (f a)) →
  traced P Q past (prog_bind m f).
Proof.
  intros Hm Hf. revert past Hm. induction m as [a|X o k IH]; intros past Hm; cbn in *; [auto|].
  destruct Hm as [Ho Hk]. split; [done|]. intros x Hx. auto.
Qed.

(** An execution meets what the program guarantees. *)
Lemma exec_traced `{CodecLaws} env {A} (Q : list event → A → Prop) db (p : prog A) evs db' a past :
  exec env db p evs db' a → traced P Q past p →
  (∀ e1 X (o : op X) x e2, evs = (e1 ++ Event o x :: e2)%list → P (rev e1 ++ past)%list X o) ∧
  Q (rev evs ++ past)%list a.
Proof.
  intros He. revert past.
  induction He as [|Y o k y db db1 db2 evs db' a Hst Ha He IH]; intros past Ht.
  { split; [|done]. by intros [] ? ? ? ?. }
  destruct Ht as [Ho Hk]. pose proof (answer_valid _ _ _ _ Ha) as Hv.
  destruct (IH _ (Hk _ Hv)) as [IHP IHQ]. split; [|cbn; by rewrite <- app_assoc].
  intros e1 X o' x e2. destruct e1 as [|ev e1]; cbn.
  - intros E. pose proof (f_equal (λ evs, match evs with
      | @Event Z oz _ :: _ => P past Z oz | [] => True end) E) as EP.
    cbn in EP. by rewrite <- EP.
  - intros [= <- ->]. rewrite <- app_assoc. by eapply IHP.
Qed.
End traced.

(** [follow] goes through a program operation by operation, keeping every
    answer in the past. *)
Ltac follow_step :=
  match goal with
  | |- traced _ _ _ (Ret _) => apply traced_ret; try exact I
  | |- traced _ _ _ (Op _ _) => apply traced_op; [try exact I|intros ? ?]
  | |- traced _ _ _ (perform _) => unfold perform
  | |- traced _ _ _ (try_bind _ _ _) => unfold try_bind at 1
  | |- traced _ _ _ (prog_bind (Ret _) _) => cbn [prog_bind]
  | |- traced _ _ _ (prog_bind (perform _) _) => unfold perform at 1
  | |- traced _ _ _ (prog_bind (try_bind _ _ _) _) => unfold try_bind at 1
  | |- traced _ _ _ (prog_bind (Op _ _) _) => apply traced_bind_op; [try exact I|intros ? ?]
  | |- traced _ _ _ (prog_bind (prog_bind _ _) _) => apply traced_bind_assoc
  | |- traced _ _ _ (prog_bind (match ?x with _ => _ end) _) => destruct x eqn:?
  | |- traced _ _ _ (match ?x with _ => _ end) => destruct x eqn:?
  | |- traced _ _ _ (let _ := _ in _) => cbv zeta
  end.
Ltac follow := repeat (follow_step; cbv beta zeta in *; simplify_eq).
