(* ===== verification/AkamaiProperties.v ===== *)
(** What the Akamai compute manager asks of the cloud provider: machines are
    created only within the configured policy, and only machines the control
    plane owns are deleted. *)
From S2P Require Import Prelude Text Programs Server ServerFacts Instances InstanceFacts Database.
From S2P Require Import RowFacts.
From S2P Require Import Repositories ComputeRepository Invariant RepositoryFacts LifecycleFacts.
From S2P Require Import ComputeFacts Persistence Effects Semantics AkamaiCompute Traces World.
From S2P Require Import Config.
From S2P Require Import Codecs PersistenceProperties.
#[local] Open Scope string_scope.
#[local] Open Scope Z_scope.

(** A machine that carries the tags of this installation. *)
Definition managed_by (config : AkamaiConfig) (p : ProviderInstance) : bool :=
  list_contains (pi_tags p) MANAGED_TAG && list_contains (pi_tags p) (scope_tag config).

Section policy.
Context `{CodecLaws}.
Variable config : AkamaiConfig.
Variable inst : ServerInstance.

(** Finds an event of the past. *)
Ltac in_past := repeat (apply list_elem_of_here || apply list_elem_of_further).

(** What creating a machine requires of the past. *)
Definition creation_allowed (past : list event) {X} (o : op X) : Prop :=
  match o with
  | ApiCreateInstance q =>
      si_data_prepared_at inst = None ∧ mutations_enabled config = true ∧
      spec_compute (si_resolved_spec inst) = CS.Akamai (request_region q)
        (request_instance_type q) (request_image q) (request_firewall_id q) ∧
      validate_spec config (request_region q) (request_instance_type q) (request_image q)
        (request_firewall_id q) = Ok tt ∧
      request_tags q = [MANAGED_TAG; scope_tag config] ∧
      request_disk_encryption q = DE.Disabled ∧
      (∃ named, Event (ApiListInstances (FilterLabel (request_label q))) (Ok named) ∈ past ∧
         List.filter (λ p, String.eqb (pi_label p) (request_label q)) named = []) ∧
      (∃ machines, Event (ApiListInstances FilterManagedTag) (Ok machines) ∈ past ∧
         Z.of_nat (length (List.filter (managed_by config) machines)) < max_active_instances config)
  | _ => True
  end.

Lemma ensure_creation now :
  traced (λ past X o, creation_allowed past o) (λ _ _, True) []
    (AkamaiComputeManager_ensure_for_instance config inst now).
Proof.
  unfold AkamaiComputeManager_ensure_for_instance, akamai_find_or_create_compute, create_for_instance,
    akamai_ensure_provider, client_get_instance, find_or_create_instance, find_instance_by_label,
    verify_provider_configuration, verify_instance_firewall, verify_bootstrap_compatibility,
    verify_instance_type, verify_firewall, list_managed_instances, api_call.
  follow; try exact I.
  all: split_and!; cbn [request_region request_instance_type request_image request_firewall_id
    request_tags request_disk_encryption request_label]; try done.
  all: try (apply is_none_true; by apply negb_false_iff).
  all: try (by destruct u || by destruct a).
  all: try (unfold require_live_operations_enabled in *; by destruct (mutations_enabled config)).
  all: eexists; split; [in_past|].
  all: try (by bz).
  all: by match goal with Hf : match List.filter ?f ?l with _ => _ end = Ok None |- _ =>
    destruct (List.filter f l) as [|? []] end.
Qed.

(** What deleting the machine of a compute instance requires of the past: the
    provider has shown it with the instance's label and this installation's
    tags. *)
Definition deletion_owned (label : string) (past : list event) {X} (o : op X) : Prop :=
  match o with
  | ApiDeleteInstance id =>
      (∃ resp p, Event (ApiGetInstance id) (Ok resp) ∈ past ∧ response_json resp = Ok p ∧
         is_owned_by p label (scope_tag config) = true) ∨
      (∃ named p, Event (ApiListInstances (FilterLabel label)) (Ok named) ∈ past ∧
         List.filter (λ p, String.eqb (pi_label p) label) named = [p] ∧ pi_id p = id ∧
         is_owned_by p label (scope_tag config) = true)
  | _ => True
  end.

Lemma delete_owned compute :
  traced (λ past X o, deletion_owned (provider_label (ci_id compute)) past o) (λ _ _, True) []
    (AkamaiComputeManager_delete config compute).
Proof.
  unfold AkamaiComputeManager_delete, akamai_owned_provider, client_get_instance,
    client_delete_instance, find_instance_by_label.
  follow; try exact I.
  all: match goal with Hm : match ?o with Some _ => _ | None => _ end = Ok (Some _) |- _ =>
    destruct o as [provider|] eqn:?; [|done]; destruct (is_owned_by provider _ _) eqn:Howned;
    [|done]; injection Hm as Hm; subst end.
  1, 3: left; match goal with Hj : Some <$> response_json ?r = Ok (Some ?pr) |- _ =>
    exists r, pr; destruct (response_json r); [|done]; injection Hj as -> end;
    split; [in_past|done].
  all: right; match goal with Hf : match List.filter ?f ?l with _ => _ end = Ok (Some ?pr) |- _ =>
    exists l, pr; destruct (List.filter f l) as [|? []] eqn:?; try done; injection Hf as -> end;
    split; [in_past|done].
Qed.

(** A machine no active compute instance claims. *)
Definition orphaned (active : list ComputeInstance) (p : ProviderInstance) : Prop :=
  match label_compute_id (pi_label p) with
  | None => True
  | Some cid =>
      match List.find (λ c, (ci_id c =? cid)%N) active with
      | None => True
      | Some c => ∃ v, ci_provider_instance_id c = Some v ∧ parse_u64 v ≠ Some (pi_id p)
      end
  end.

(** What reaping deletes. *)
Definition reaps_orphans (active : list ComputeInstance) (past : list event) {X} (o : op X) : Prop :=
  match o with
  | ApiDeleteInstance id =>
      mutations_enabled config = true ∧
      ∃ machines p, Event (ApiListInstances FilterManagedTag) (Ok machines) ∈ past ∧
        p ∈ machines ∧ managed_by config p = true ∧ pi_id p = id ∧ orphaned active p
  | _ => True
  end.

Lemma reap_providers_orphans active machines l adopted deleted past :
  mutations_enabled config = true →
  Event (ApiListInstances FilterManagedTag) (Ok machines) ∈ past →
  (∀ p, p ∈ l → p ∈ machines ∧ managed_by config p = true) →
  traced (λ past X o, reaps_orphans active past o) (λ _ _, True) past
    (reap_providers active l adopted deleted).
Proof.
  intros Hm. revert adopted deleted past.
  induction l as [|p l IH]; intros adopted deleted past Hin Hl; cbn [reap_providers]; [done|].
  assert (Hp : p ∈ machines ∧ managed_by config p = true) by (apply Hl, list_elem_of_here).
  assert (Hrest : ∀ q, q ∈ l → q ∈ machines ∧ managed_by config q = true)
    by (intros; by apply Hl, list_elem_of_further).
  unfold reap_provider, client_delete_instance. cbv zeta.
  repeat (match goal with |- traced _ _ _ (reap_providers _ _ _ _) =>
    apply IH; [repeat apply list_elem_of_further; exact Hin|done] | _ => follow_step end;
    cbv beta zeta in *; simplify_eq); try exact I.
  all: split; [done|]; exists machines, p; destruct Hp as [Hp1 Hp2]; split_and!; try done.
  all: unfold orphaned; repeat case_match; simplify_eq; try done.
  eexists. split; [done|]. by eapply bool_decide_eq_false_1.
Qed.

Lemma reap_orphans_traced active :
  traced (λ past X o, reaps_orphans active past o) (λ _ _, True) []
    (AkamaiComputeManager_reap_orphans config active).
Proof.
  unfold AkamaiComputeManager_reap_orphans, list_managed_instances,
    require_live_operations_enabled.
  destruct (mutations_enabled config) eqn:Hm; [|exact I].
  repeat (follow_step; cbv beta zeta in *; simplify_eq); try exact I.
  eapply reap_providers_orphans; [done|apply list_elem_of_here|].
  intros p Hp. apply list_elem_of_In, filter_In in Hp as [Hp Hb].
  split; [by apply list_elem_of_In|done].
Qed.

(** ** Properties *)

Variable env : Database → Database → Prop.

(** C23. A machine is created only within the configured policy. Whatever the
    provider answers, when [ensure_for_instance] sends a create request the
    instance's data was never prepared (a lost machine is never replaced by an
    empty one), live operations are enabled, the request is the instance's
    specification and every part of it is on the allow lists, it carries this
    installation's tags and no disk encryption; the provider has shown before
    that no machine has the label, and that fewer machines of this
    installation exist than the configured maximum. *)
Theorem machines_are_created_within_policy now db evs db' r e1 q x e2 :
  exec env db (AkamaiComputeManager_ensure_for_instance config inst now) evs db' r →
  evs = (e1 ++ Event (ApiCreateInstance q) x :: e2)%list →
  si_data_prepared_at inst = None ∧ mutations_enabled config = true ∧
  spec_compute (si_resolved_spec inst) = CS.Akamai (request_region q)
    (request_instance_type q) (request_image q) (request_firewall_id q) ∧
  (allows_region config (request_region q) = true ∧
   allows_image config (request_image q) = true ∧
   allows_instance_type config (request_instance_type q) = true ∧
   allows_firewall config (request_firewall_id q) = true) ∧
  request_tags q = [MANAGED_TAG; scope_tag config] ∧ request_disk_encryption q = DE.Disabled ∧
  (∃ named, Event (ApiListInstances (FilterLabel (request_label q))) (Ok named) ∈ e1 ∧
     List.filter (λ p, String.eqb (pi_label p) (request_label q)) named = []) ∧
  (∃ machines, Event (ApiListInstances FilterManagedTag) (Ok machines) ∈ e1 ∧
     Z.of_nat (length (List.filter (managed_by config) machines)) < max_active_instances config).
Proof.
  intros He Heq.
  pose proof (proj1 (exec_traced _ _ _ _ _ _ _ _ _ He (ensure_creation now)) _ _ _ _ _ Heq) as Hc.
  rewrite app_nil_r in Hc.
  destruct Hc as (Hd & Hm & Hs & Hv & Ht & Hen & (named & Hn & Hnf) & machines & Hl & Hlt).
  split_and!; try done.
  1-4: unfold validate_spec in Hv; inv_res; done.
  - exists named. by rewrite <- elem_of_rev.
  - exists machines. by rewrite <- elem_of_rev.
Qed.

(** C24. Deleting a compute instance deletes no foreign machine: a delete request
    for a machine is sent only after the provider has shown that very machine
    with the label of the compute instance and the tags of this installation,
    found by the recorded id or as the only machine with the label. *)
Theorem only_owned_machines_are_deleted compute db evs db' r e1 id x e2 :
  exec env db (AkamaiComputeManager_delete config compute) evs db' r →
  evs = (e1 ++ Event (ApiDeleteInstance id) x :: e2)%list →
  ∃ p, is_owned_by p (provider_label (ci_id compute)) (scope_tag config) = true ∧
    ((∃ resp, Event (ApiGetInstance id) (Ok resp) ∈ e1 ∧ response_json resp = Ok p) ∨
     (∃ named, Event (ApiListInstances (FilterLabel (provider_label (ci_id compute)))) (Ok named)
        ∈ e1 ∧ pi_id p = id ∧
        List.filter (λ p, String.eqb (pi_label p) (provider_label (ci_id compute))) named = [p])).
Proof.
  intros He Heq.
  pose proof (proj1 (exec_traced _ _ _ _ _ _ _ _ _ He (delete_owned compute)) _ _ _ _ _ Heq) as Hc.
  rewrite app_nil_r in Hc.
  destruct Hc as [(resp & p & Hin & Hr & Ho)|(named & p & Hin & Hf & Hid & Ho)]; exists p;
    (split; [done|]).
  - left. exists resp. by rewrite <- elem_of_rev.
  - right. exists named. by rewrite <- elem_of_rev.
Qed.

(** C40. Reaping orphans deletes only machines that carry this installation's
    tags and that no active compute instance claims: the label names no active
    compute instance, or one whose recorded machine is another one. *)
Theorem reaping_spares_claimed_machines active db evs db' r e1 id x e2 :
  exec env db (AkamaiComputeManager_reap_orphans config active) evs db' r →
  evs = (e1 ++ Event (ApiDeleteInstance id) x :: e2)%list →
  mutations_enabled config = true ∧
  ∃ machines p, Event (ApiListInstances FilterManagedTag) (Ok machines) ∈ e1 ∧
    p ∈ machines ∧ managed_by config p = true ∧ pi_id p = id ∧ orphaned active p.
Proof.
  intros He Heq.
  pose proof (proj1 (exec_traced _ _ _ _ _ _ _ _ _ He (reap_orphans_traced active)) _ _ _ _ _ Heq) as Hc.
  rewrite app_nil_r in Hc. destruct Hc as (Hm & machines & p & Hin & ?).
  split; [done|]. exists machines, p. by rewrite <- elem_of_rev.
Qed.
End policy.

(** ** Witnesses *)

Section witnesses.
#[local] Existing Instance bits_codec.
#[local] Existing Instance bits_codec_laws.

Definition example_config : AkamaiConfig := {|
  akamai_api_token := "secret"; akamai_api_base_url := "https://api.linode.com/v4";
  authorized_keys_file := "/etc/mcserver/keys"; akamai_request_timeout := from_secs 30;
  akamai_reap_orphans_on_start := false; scope := "home"; live_enabled := true;
  loopback_api := false;
  allowed_regions := ["us-east"]; allowed_images := ["linode/ubuntu24.04"];
  allowed_instance_types := ["g6-standard-2"]; allowed_firewall_ids := [42];
  max_active_instances := 2; max_instance_lifetime := from_secs 86400 |}.

(** An instance that has just been created from an Akamai specification. *)
Definition example_instance : ServerInstance := {|
  si_id := 11%N; si_server_id := 7%N; si_server_generation := 2;
  si_resolved_spec := example_akamai_spec; si_fencing_token := 1; si_source_snapshot_id := None;
  si_data_prepared_at := None; si_process_running := false; si_process_observed_at := None;
  si_result_snapshot_id := None; si_stop_requested_at := None; si_terminated_at := None;
  si_terminal_result := None; si_last_error := None; si_created_at := 3000;
  si_updated_at := 3000 |}.

Definition example_ensured :=
  simulate (AkamaiComputeManager_ensure_for_instance example_config example_instance 6000)
    initial_world example_db.

(** The first create and the first delete request of a trace. *)
Fixpoint find_create (evs : list event) : option (CreateInstanceRequest * event) :=
  match evs with
  | [] => None
  | Event o x :: evs' =>
      match o in op X return X → _ with
      | ApiCreateInstance q => λ x, Some (q, Event (ApiCreateInstance q) x)
      | _ => λ _, find_create evs'
      end x
  end.
Fixpoint find_delete (evs : list event) : option (Z * event) :=
  match evs with
  | [] => None
  | Event o x :: evs' =>
      match o in op X return X → _ with
      | ApiDeleteInstance id => λ x, Some (id, Event (ApiDeleteInstance id) x)
      | _ => λ _, find_delete evs'
      end x
  end.

Lemma find_create_split evs q ev :
  find_create evs = Some (q, ev) →
  ∃ e1 x e2, ev = Event (ApiCreateInstance q) x ∧ evs = (e1 ++ Event (ApiCreateInstance q) x :: e2)%list.
Proof.
  induction evs as [|[X o y] evs IH]; cbn; [done|].
  destruct o; try (intros (e1 & x & e2 & -> & ->)%IH; by eexists (_ :: e1), _, _).
  intros [= -> <-]. by exists [], y, evs.
Qed.

Lemma find_delete_split evs id ev :
  find_delete evs = Some (id, ev) →
  ∃ e1 x e2, ev = Event (ApiDeleteInstance id) x ∧ evs = (e1 ++ Event (ApiDeleteInstance id) x :: e2)%list.
Proof.
  induction evs as [|[X o y] evs IH]; cbn; [done|].
  destruct o; try (intros (e1 & x & e2 & -> & ->)%IH; by eexists (_ :: e1), _, _).
  intros [= -> <-]. by exists [], y, evs.
Qed.

Lemma machines_are_created_within_policy_witness :
  ∃ q, fst <$> find_create example_ensured.1.1.1 = Some q ∧
    allows_region example_config (request_region q) = true.
Proof.
  destruct (find_create example_ensured.1.1.1) as [[q ev]|] eqn:Ec.
  2: { exfalso. assert (Hb : is_some (find_create example_ensured.1.1.1) = true)
         by (vm_compute; reflexivity). by rewrite Ec in Hb. }
  exists q. split; [done|]. unfold example_ensured in Ec.
  destruct (simulate _ initial_world example_db) as [[[evs w] db] r] eqn:E. cbn in Ec.
  apply (simulate_exec db_step) in E as [He _]; [|done].
  apply find_create_split in Ec as (e1 & x & e2 & _ & Hevs).
  by apply (machines_are_created_within_policy example_config example_instance db_step
    6000 _ _ _ _ _ _ _ _ He Hevs).
Defined.

(** The compute instance of the example database, and the machine of it. *)
Definition example_compute : ComputeInstance := {|
  ci_id := 13%N; ci_server_instance_id := 11%N; ci_provider := CP.Akamai;
  ci_provider_instance_id := Some "1"; ci_public_ipv4 := Some "203.0.113.7";
  ci_connection_token := "token"; ci_enrollment_token := Some "enroll"; ci_process_id := None;
  ci_agent_connected_at := None; ci_shutdown_requested_at := None; ci_terminated_at := None;
  ci_terminal_result := None; ci_failure_message := None; ci_created_at := 5000;
  ci_updated_at := 5000 |}.

Definition example_world : world := example_ensured.1.1.2.

Definition example_deleted :=
  simulate (AkamaiComputeManager_delete example_config example_compute) example_world example_db.

Lemma example_world_ok : world_ok example_world.
Proof.
  unfold example_world, example_ensured.
  destruct (simulate _ initial_world example_db) as [[[evs w] db] r] eqn:E.
  by apply (simulate_exec db_step) in E as [_ Hw].
Qed.

Lemma only_owned_machines_are_deleted_witness :
  ∃ p, is_owned_by p (provider_label (ci_id example_compute)) (scope_tag example_config) = true.
Proof.
  destruct (find_delete example_deleted.1.1.1) as [[id ev]|] eqn:Ec.
  2: { exfalso. assert (Hb : is_some (find_delete example_deleted.1.1.1) = true)
         by (vm_compute; reflexivity). by rewrite Ec in Hb. }
  unfold example_deleted in Ec.
  destruct (simulate _ example_world example_db) as [[[evs w] db] r] eqn:E. cbn in Ec.
  apply (simulate_exec db_step) in E as [He _]; [|exact example_world_ok].
  apply find_delete_split in Ec as (e1 & x & e2 & _ & Hevs).
  destruct (only_owned_machines_are_deleted example_config db_step example_compute
    _ _ _ _ _ _ _ _ He Hevs) as (p & Hp & _).
  by exists p.
Defined.

(** No compute instance is active: the machine is an orphan. *)
Definition example_reaped :=
  simulate (AkamaiComputeManager_reap_orphans example_config []) example_world example_db.

Lemma reaping_spares_claimed_machines_witness :
  ∃ p, managed_by example_config p = true ∧ orphaned [] p.
Proof.
  destruct (find_delete example_reaped.1.1.1) as [[id ev]|] eqn:Ec.
  2: { exfalso. assert (Hb : is_some (find_delete example_reaped.1.1.1) = true)
         by (vm_compute; reflexivity). by rewrite Ec in Hb. }
  unfold example_reaped in Ec.
  destruct (simulate _ example_world example_db) as [[[evs w] db] r] eqn:E. cbn in Ec.
  apply (simulate_exec db_step) in E as [He _]; [|exact example_world_ok].
  apply find_delete_split in Ec as (e1 & x & e2 & _ & Hevs).
  destruct (reaping_spares_claimed_machines example_config db_step []
    _ _ _ _ _ _ _ _ He Hevs) as (_ & machines & p & _ & _ & Hp & _ & Ho).
  by exists p.
Defined.
End witnesses.
