(* ===== verification/ReconcileProperties.v ===== *)
(** What the reconciliation loop guarantees: what its outcomes mean, that lost
    data is reported and not replaced, and when failures are retried. *)
From S2P Require Import Prelude Text Programs Server ServerFacts Instances InstanceFacts Database.
From S2P Require Import RowFacts.
From S2P Require Import Repositories ComputeRepository Invariant RepositoryFacts LifecycleFacts.
From S2P Require Import ComputeFacts Persistence Effects Semantics LocalCompute AkamaiCompute.
From S2P Require Import Config.
From S2P Require Import Reconciliation ManagerFacts ReconcileFacts PassFacts DataSafety System.
From S2P Require Import Traces World Codecs PersistenceProperties SystemProperties.
#[local] Open Scope string_scope.
#[local] Open Scope Z_scope.

(** ** Retry delays *)

Lemma error_retry_delay_spec base n :
  0 ≤ base →
  error_retry_delay base n =
  Z.min (base * 2 ^ Z.min (u32_saturating_sub n 1) 6) MAX_ERROR_RETRY_DELAY.
Proof.
  intros Hb. unfold error_retry_delay, duration_checked_mul.
  set (k := Z.min (u32_saturating_sub n 1) 6).
  assert (Hk : 0 ≤ k ≤ 6) by (unfold k, u32_saturating_sub; lia).
  rewrite Z.shiftl_1_l. destruct (_ <=? _) eqn:E; cbn; [done|]. bz.
  assert (MAX_ERROR_RETRY_DELAY ≤ duration_max) by (by vm_compute). lia.
Qed.

(** The delay before a failed server is tried again is at most five
    minutes and at least the configured interval (up to five minutes); it never
    shrinks as failures repeat; a delay the cloud provider asked for is kept up
    to five minutes; and without such a request the first failures double it,
    up to 64 times the interval. *)
Theorem retry_delay_is_bounded interval e n :
  0 ≤ interval →
  retry_delay interval e n ≤ MAX_ERROR_RETRY_DELAY ∧
  Z.min interval MAX_ERROR_RETRY_DELAY ≤ retry_delay interval e n ∧
  (∀ m, n ≤ m → retry_delay interval e n ≤ retry_delay interval e m) ∧
  (∀ asked, ReconcileError_retry_after e = Some asked →
     Z.min asked MAX_ERROR_RETRY_DELAY ≤ retry_delay interval e n) ∧
  (ReconcileError_retry_after e = None → 1 ≤ n →
     retry_delay interval e n = Z.min (interval * 2 ^ Z.min (n - 1) 6) MAX_ERROR_RETRY_DELAY).
Proof.
  intros Hi. unfold retry_delay. destruct (ReconcileError_retry_after e) as [asked|].
  { split_and!; [lia|lia|lia| |done]. intros ? [= ->]. lia. }
  rewrite !error_retry_delay_spec by done.
  set (k := Z.min (u32_saturating_sub n 1) 6).
  assert (Hk : 0 ≤ k ≤ 6) by (unfold k, u32_saturating_sub; lia).
  pose proof (Z.pow_pos_nonneg 2 k ltac:(lia) ltac:(lia)).
  split_and!; [lia|nia| |done|].
  - intros m Hm. rewrite error_retry_delay_spec by done.
    assert (2 ^ k ≤ 2 ^ Z.min (u32_saturating_sub m 1) 6).
    { apply Z.pow_le_mono_r; [lia|]. unfold k, u32_saturating_sub. lia. }
    nia.
  - intros _ Hn. unfold k. do 2 f_equal. unfold u32_saturating_sub. f_equal. f_equal. lia.
Qed.

Lemma retry_delay_is_bounded_witness :
  retry_delay (from_secs 5) (RCE.Agent ACE.Timeout) 3 = from_secs 20.
Proof.
  destruct (retry_delay_is_bounded (from_secs 5) (RCE.Agent ACE.Timeout) 3)
    as (_ & _ & _ & _ & Hd); [by vm_compute|]. rewrite Hd by done. reflexivity.
Defined.

(** ** Outcomes of the loop *)

Section outcomes.
Context `{CodecLaws}.
Variable env : Database → Database → Prop.
Variable local_scope : string.
Variable akamai : option AkamaiConfig.

(** [n] passes over [sid] in a row, each of which changed something. *)
Inductive changed_passes (sid : ServerId) : nat → Database → list event → Database → Prop :=
| changed_none db : changed_passes sid 0 db [] db
| changed_more n db evs1 db1 evs2 db' :
    exec env db (reconcile_once local_scope akamai sid) evs1 db1 (Ok SO.Changed) →
    changed_passes sid n db1 evs2 db' →
    changed_passes sid (S n) db (evs1 ++ evs2)%list db'.

(** A pass itself never reports that the server did not converge. *)
Definition converging {A} (r : result ReconcileError A) : Prop :=
  ∀ sid, r ≠ Err (RCE.DidNotConverge sid).

Abbreviation converges := (always (λ _ _, True) converging).

Ltac converge := walk; try exact I; try done; try (by apply always_true).

Lemma persist_observations_converges inst inspect now :
  converges (persist_observations inst inspect now).
Proof. unfold persist_observations. converge. Qed.

Lemma observe_converges {B} inst inspect now (k : bool → prog (result ReconcileError B)) :
  (∀ b, converges (k b)) → converges (try_bind id (persist_observations inst inspect now) k).
Proof.
  intros Hk. eapply (always_try _ (λ _, True)); [|by auto].
  eapply always_mono; [done| |apply persist_observations_converges].
  intros [b|e] He; [done|]. intros sid [= ->]. by apply (He sid).
Qed.

Ltac converge_observed :=
  repeat (first [apply observe_converges; intros ? | walk_step]; cbv beta in * );
  try exact I; try done; try (by apply always_true).

Lemma delete_compute_converges c : converges (delete_compute local_scope akamai c).
Proof. unfold delete_compute. converge. Qed.

Lemma reconcile_once_converges sid : converges (reconcile_once local_scope akamai sid).
Proof.
  unfold reconcile_once, start_instance_if_wanted, reconcile_active, reconcile_running,
    reconcile_stopping, may_delete_now, stop_inspected, commit_snapshot. cbv zeta.
  converge_observed; try apply delete_compute_converges.
Qed.

(** How the passes of a turn end. *)
Definition last_pass (r : result ReconcileError ReconcileOutcome) :
    result ReconcileError StepOutcome :=
  match r with
  | Ok RO.Stable => Ok SO.Stable
  | Ok RO.Retry => Ok SO.Awaiting
  | Err e => Err e
  end.

Lemma transitions_spec n sid db evs db' r :
  exec env db (reconcile_transitions local_scope akamai n sid) evs db' r →
  (r = Err (RCE.DidNotConverge sid) ∧ changed_passes sid n db evs db') ∨
  (∃ k evs1 db1 evs2, (k < n)%nat ∧ changed_passes sid k db evs1 db1 ∧
     exec env db1 (reconcile_once local_scope akamai sid) evs2 db' (last_pass r) ∧
     evs = (evs1 ++ evs2)%list).
Proof.
  revert db evs. induction n as [|n IH]; intros db evs He; cbn [reconcile_transitions] in He.
  { apply exec_inv in He as (-> & -> & ->). left. split; [done|constructor]. }
  apply exec_try_inv in He as [(e & He & ->)|(evs1 & evs2 & db1 & out & He1 & He2 & ->)].
  { right. exists 0%nat, [], db, evs. split_and!; [lia|constructor|done|done]. }
  destruct out.
  - apply IH in He2 as [[-> Hc]|(k & e1 & d1 & e2 & Hk & Hc & He & ->)].
    + left. split; [done|]. by econstructor.
    + right. exists (S k), (evs1 ++ e1)%list, d1, e2.
      split_and!; [lia|by econstructor|done|by rewrite app_assoc].
  - apply exec_inv in He2 as (-> & -> & ->). rewrite app_nil_r. right.
    exists 0%nat, [], db, evs1. split_and!; [lia|constructor|done|done].
  - apply exec_inv in He2 as (-> & -> & ->). rewrite app_nil_r. right.
    exists 0%nat, [], db, evs1. split_and!; [lia|constructor|done|done].
Qed.

(** A turn of the worker makes at most 32 passes. It reports that the server
    did not converge only after 32 passes that each changed something; any
    other outcome is that of its last pass, before which fewer than 32 passes
    changed something. *)
Theorem reconcile_until_blocked_spec sid db evs db' r :
  exec env db (reconcile_until_blocked local_scope akamai sid) evs db' r →
  (r = Err (RCE.DidNotConverge sid) ∧ changed_passes sid 32 db evs db') ∨
  (∃ k evs1 db1 evs2, (k < 32)%nat ∧ changed_passes sid k db evs1 db1 ∧
     exec env db1 (reconcile_once local_scope akamai sid) evs2 db' (last_pass r) ∧
     evs = (evs1 ++ evs2)%list ∧ r ≠ Err (RCE.DidNotConverge sid)).
Proof.
  intros [?|(k & evs1 & db1 & evs2 & Hk & Hc & He & ->)]%transitions_spec; [by left|right].
  exists k, evs1, db1, evs2. split_and!; try done. intros ->.
  by destruct (proj2 (exec_result env _ _ _ _ _ _ _ He (reconcile_once_converges sid)) sid).
Qed.

(** ** What a pass reports *)

(** The inspections an agent answered in a trace. *)
Definition inspection (ev : event) :
    list (ComputeInstanceId * InstanceIdentity * AgentInspectResult) :=
  match ev with
  | Event o x =>
      match o in op X return X → _ with
      | CallInspect c i => λ r, match r with Ok a => [(c, i, a)] | Err _ => [] end
      | _ => λ _, []
      end x
  end.
Fixpoint inspections (evs : list event) :
    list (ComputeInstanceId * InstanceIdentity * AgentInspectResult) :=
  match evs with [] => [] | ev :: evs' => (inspection ev ++ inspections evs')%list end.

Lemma inspections_in evs c i a :
  Event (CallInspect c i) (Ok a) ∈ evs → (c, i, a) ∈ inspections evs.
Proof.
  induction evs as [|ev evs IH]; [by intros ?%not_elem_of_nil|].
  intros [E|Hin]%elem_of_cons; cbn; apply elem_of_app; [left|right; auto].
  rewrite <- E. apply list_elem_of_here.
Qed.

Lemma inspections_of evs c i a :
  (c, i, a) ∈ inspections evs → Event (CallInspect c i) (Ok a) ∈ evs.
Proof.
  induction evs as [|[X o x] evs IH]; cbn; [by intros ?%not_elem_of_nil|].
  intros [Hin|Hin]%elem_of_app; [|by apply list_elem_of_further, IH].
  destruct o; try (by apply not_elem_of_nil in Hin).
  destruct x as [a'|]; [|by apply not_elem_of_nil in Hin].
  apply list_elem_of_singleton in Hin as [= -> -> ->]. apply list_elem_of_here.
Qed.

Definition inspects {X} (o : op X) : bool := match o with CallInspect _ _ => true | _ => false end.

(** A subprogram that does not inspect. *)
Lemma traced_quiet {A} (p : prog A) past :
  always (λ X o, inspects o = false) (λ _, True) p →
  traced (λ _ _ _, True) (λ past' _, inspections past' = inspections past) past p.
Proof.
  assert (H' : ∀ past', always (λ X o, inspects o = false) (λ _, True) p →
    inspections past' = inspections past →
    traced (λ _ _ _, True) (λ past' _, inspections past' = inspections past) past' p); [|by auto].
  induction p as [a|X o k IH]; intros past' Hp E; cbn; [done|]. destruct Hp as [Ho Hk].
  split; [done|]. intros x Hx. apply IH; [by apply Hk|]. cbn. rewrite <- E. by destruct o.
Qed.

Lemma ensure_quiet inst now :
  always (λ X o, inspects o = false) (λ _, True)
    (ComputeManager_ensure_for_instance local_scope akamai inst now).
Proof.
  unfold ComputeManager_ensure_for_instance, map_prog_err.
  destruct (spec_compute _); [|destruct akamai as [config|]; [|done]];
    eapply (always_bind _ (λ _, True)); try done.
  - unfold LocalComputeManager_ensure_for_instance, local_find_or_create, local_ensure_process,
      process_is_running, spawn_agent, capture_local_runtime_state, load_local_runtime_state,
      runtime_process_matches. cbv zeta. walk; done.
  - unfold AkamaiComputeManager_ensure_for_instance, akamai_find_or_create_compute,
      akamai_ensure_provider, client_get_instance, find_or_create_instance,
      find_instance_by_label, verify_provider_configuration, verify_instance_firewall,
      verify_bootstrap_compatibility, verify_instance_type, verify_firewall,
      list_managed_instances, api_call. cbv zeta. walk; done.
Qed.

Lemma delete_quiet c :
  always (λ X o, inspects o = false) (λ _, True) (ComputeManager_delete local_scope akamai c).
Proof.
  unfold ComputeManager_delete, map_prog_err.
  destruct (ci_provider c); [|destruct akamai as [config|]; [|done]];
    eapply (always_bind _ (λ _, True)); try done.
  - unfold LocalComputeManager_delete, local_stop_process, load_local_runtime_state. cbv zeta.
    walk; done.
  - unfold AkamaiComputeManager_delete, akamai_owned_provider, client_get_instance,
      client_delete_instance, find_instance_by_label. cbv zeta. walk; done.
Qed.

Section reports.
Variable inst : ServerInstance.

(** What the report of a pass means, given the inspections of its trace. *)
Definition meaning (evs : list event) (r : result ReconcileError StepOutcome) : Prop :=
  (has_unpublished_data inst = true →
   (∃ c i a, (c, i, a) ∈ inspections evs ∧ data_prepared a = false) →
   r = Err (RCE.WritableDataLost (si_id inst))) ∧
  (r = Ok SO.Stable → is_some (si_stop_requested_at inst) = false →
   ∃ c a, (c, identity inst, a) ∈ inspections evs ∧ data_prepared a = true ∧
     process_running a = true).

Abbreviation reports := (traced (λ _ _ _, True) meaning).

(** [follow], with the subprograms that do not inspect as boxes. *)
Ltac report :=
  repeat (match goal with
    | |- traced _ _ _ (prog_bind (ComputeManager_ensure_for_instance _ _ _ _) _) =>
        eapply traced_bind; [apply traced_quiet, ensure_quiet|intros ? ? ?]
    | |- traced _ _ _ (prog_bind (ComputeManager_delete _ _ _) _) =>
        eapply traced_bind; [apply traced_quiet, delete_quiet|intros ? ? ?]
    | |- traced _ _ _ (Ret (Ok (if ?b then _ else _))) => destruct b eqn:?
    | _ => follow_step
    end; cbv beta zeta in *; simplify_eq).

Lemma no_inspection evs (r : result ReconcileError StepOutcome) :
  inspections evs = [] → r ≠ Ok SO.Stable ∨ is_some (si_stop_requested_at inst) = true →
  meaning evs r.
Proof.
  intros E Hr. split; [|by destruct Hr as [?| ->]]. rewrite E.
  by intros _ (c & i & a & ?%not_elem_of_nil & _).
Qed.

Lemma one_inspection evs c a r :
  inspections evs = [(c, identity inst, a)] →
  has_unpublished_data inst && negb (data_prepared a) = false ∨
    r = Err (RCE.WritableDataLost (si_id inst)) →
  (r = Ok SO.Stable → data_prepared a = true ∧ process_running a = true) → meaning evs r.
Proof.
  intros E Hlost Hstable. split; rewrite E.
  - intros Hu (c' & i & a' & Hin & Hm). apply list_elem_of_singleton in Hin as [= -> -> ->].
    destruct Hlost as [Hl|?]; [|done]. by rewrite Hu, Hm in Hl.
  - intros [? ?]%Hstable _. exists c, a. split; [apply list_elem_of_here|done].
Qed.

Ltac observed :=
  cbn; first [f_equal; congruence | etransitivity; [eassumption|f_equal; congruence]].

(** Closes the end of a path: nothing or one thing was inspected. *)
Ltac conclude :=
  repeat match goal with Hq : inspections ?p = inspections _ |- _ => cbn in Hq end;
  first
    [ by (apply no_inspection; [cbn; congruence|by left])
    | by (apply no_inspection; [cbn; congruence|by right])
    | by (eapply one_inspection; [observed|left; congruence|done])
    | by (eapply one_inspection; [observed|by right|done])
    | by (eapply one_inspection; [observed|left; congruence|
          intros _; split; apply negb_false_iff; done]) ].

Lemma running_reports server past :
  inspections past = [] → is_some (si_stop_requested_at inst) = false →
  reports past (reconcile_running local_scope akamai server inst).
Proof.
  intros E Hstop. unfold reconcile_running, persist_observations. report; conclude.
Qed.

Lemma stopping_reports server past :
  inspections past = [] → is_some (si_stop_requested_at inst) = true →
  reports past (reconcile_stopping local_scope akamai server inst).
Proof.
  intros E Hstop. unfold reconcile_stopping, may_delete_now, stop_inspected,
    persist_observations, commit_snapshot, delete_compute. report; conclude.
Qed.

Lemma active_reports server :
  reports [] (reconcile_active local_scope akamai server inst).
Proof.
  unfold reconcile_active. cbv zeta.
  destruct (is_some (si_stop_requested_at inst)) eqn:Hstop.
  all: repeat (first
    [ by apply stopping_reports | by apply running_reports | follow_step ];
    cbv beta zeta in *; simplify_eq); apply no_inspection; auto.
Qed.

(** What a pass reports can be relied on. When the data of the instance is
    recorded but not published and the agent answers that it has none, the pass
    ends with [WritableDataLost] (and not with a restore over it). When a pass
    over an instance that is to run reports that nothing is left to do, the
    agent has just answered, for this instance and its fencing token, that its
    data is prepared and its process runs. *)
Theorem pass_reports_faithfully server db evs db' r :
  exec env db (reconcile_active local_scope akamai server inst) evs db' r →
  (∀ c i a, has_unpublished_data inst = true →
     Event (CallInspect c i) (Ok a) ∈ evs → data_prepared a = false →
     r = Err (RCE.WritableDataLost (si_id inst))) ∧
  (r = Ok SO.Stable → si_stop_requested_at inst = None →
   ∃ c a, Event (CallInspect c (identity inst)) (Ok a) ∈ evs ∧
     data_prepared a = true ∧ process_running a = true).
Proof.
  intros He. destruct (exec_traced _ _ _ _ _ _ _ _ _ He (active_reports server)) as [_ [Hl Hs]].
  rewrite app_nil_r in *. split.
  - intros c i a Hu Hin Ha. apply Hl; [done|]. exists c, i, a. split; [|done].
    apply inspections_in. by rewrite list_elem_of_In, <- in_rev, <- list_elem_of_In.
  - intros Hr Hn. destruct (Hs Hr) as (c & a & Hin & Ha); [by rewrite Hn|].
    exists c, a. split; [|done]. apply inspections_of in Hin.
    by rewrite list_elem_of_In, in_rev, <- list_elem_of_In.
Qed.
End reports.

Variable cause : ReconcileError → string.

(** Scheduling: a turn changes the schedule of its own server only. A stable
    server is not scheduled again; one that awaits something is tried again
    after the interval with its failures forgotten; one that failed is tried
    again after the delay of its error, with one failure more, and the error is
    recorded. *)
Theorem turn_schedules_its_server interval sid failures pending db evs db' pending' :
  exec env db (reconcile_and_schedule local_scope akamai cause interval sid failures pending)
    evs db' pending' →
  ∃ r evs1 db1 evs2, exec env db (reconcile_until_blocked local_scope akamai sid) evs1 db1 r ∧
    evs = (evs1 ++ evs2)%list ∧
    match r with
    | Ok RO.Stable => pending' = pending ∧ evs2 = []
    | Ok RO.Retry => ∃ now, evs2 = [Event InstantNow now] ∧
        pending' = <[sid := {| consecutive_failures := 0; retry_at := now + interval |}]> pending
    | Err e => ∃ now db2 evs3, evs2 = Event InstantNow now :: evs3 ∧
        exec env db2 (record_error cause sid e) evs3 db' tt ∧
        pending' = <[sid := {| consecutive_failures := Z.min (failures + 1) u32_max;
          retry_at := now + retry_delay interval e (Z.min (failures + 1) u32_max) |}]> pending
    end.
Proof.
  intros (evs1 & evs2 & db1 & r & He1 & He2 & ->)%exec_bind_inv.
  exists r, evs1, db1, evs2. split; [done|]. split; [done|]. destruct r as [[]|e].
  - by apply exec_inv in He2 as (-> & -> & ->).
  - apply exec_inv in He2 as (now & d1 & d2 & evs' & _ & _ & He & ->).
    apply exec_inv in He as (-> & -> & ->). by exists now.
  - apply exec_inv in He2 as (now & d1 & d2 & evs' & _ & _ & He & ->).
    cbn [prog_bind] in He. cbv zeta in He.
    apply exec_bind_inv in He as (evs3 & evs4 & d3 & [] & He3 & He4 & ->).
    apply exec_inv in He4 as (-> & -> & ->). exists now, d2, evs3. by rewrite app_nil_r.
Qed.

(** What a stretch of the loop does to the schedule: an entry is old, or was
    made at a time the stretch read, for a bounded delay. *)
Definition postponed (interval : Z) (pending : gmap N RetryState) (evs : list event)
    (pending' : gmap N RetryState) : Prop :=
  ∀ k st, pending' !! k = Some st →
    pending !! k = Some st ∨
    ∃ now, Event InstantNow now ∈ evs ∧
      now + Z.min interval MAX_ERROR_RETRY_DELAY ≤ retry_at st ∧
      retry_at st ≤ now + Z.max interval MAX_ERROR_RETRY_DELAY.

Lemma postponed_app interval p0 evs1 p1 evs2 p2 :
  postponed interval p0 evs1 p1 → postponed interval p1 evs2 p2 →
  postponed interval p0 (evs1 ++ evs2) p2.
Proof.
  intros H1 H2 k st [Hk|(now & Hin & ?)]%H2.
  - destruct (H1 _ _ Hk) as [?|(now & Hin & ?)]; [by left|right].
    exists now. split; [apply elem_of_app; by left|done].
  - right. exists now. split; [apply elem_of_app; by right|done].
Qed.

Lemma postponed_same interval p evs : postponed interval p evs p.
Proof. intros k st. by left. Qed.

Lemma postponed_insert interval p evs sid now n delay :
  Event InstantNow now ∈ evs → Z.min interval MAX_ERROR_RETRY_DELAY ≤ delay →
  delay ≤ Z.max interval MAX_ERROR_RETRY_DELAY →
  postponed interval p evs
    (<[sid := {| consecutive_failures := n; retry_at := now + delay |}]> p).
Proof.
  intros Hin H1 H2 k st. rewrite lookup_insert_Some. intros [[<- <-]|[_ ?]]; [|by left].
  right. exists now. cbn. split; [done|]. lia.
Qed.

Lemma retry_delay_between interval e n :
  0 ≤ interval →
  Z.min interval MAX_ERROR_RETRY_DELAY ≤ retry_delay interval e n ≤
  Z.max interval MAX_ERROR_RETRY_DELAY.
Proof.
  intros Hi. unfold retry_delay. destruct (ReconcileError_retry_after e); [lia|].
  rewrite error_retry_delay_spec by done.
  set (k := Z.min (u32_saturating_sub n 1) 6).
  assert (Hk : 0 ≤ k ≤ 6) by (unfold k, u32_saturating_sub; lia).
  pose proof (Z.pow_pos_nonneg 2 k ltac:(lia) ltac:(lia)). split; [nia|lia].
Qed.

Section postponing.
Variable interval : Z.
Hypothesis interval_nonneg : 0 ≤ interval.

(** [p] started with schedule [pending] postpones within the bounds. *)
Definition postpones (pending : gmap N RetryState) (p : prog (gmap N RetryState)) : Prop :=
  ∀ db evs db' pending', exec env db p evs db' pending' → postponed interval pending evs pending'.

Lemma postpones_ret pending : postpones pending (Ret pending).
Proof. intros db evs db' pending' (_ & _ & ->)%exec_inv. apply postponed_same. Qed.

Lemma postpones_bind pending m f :
  postpones pending m → (∀ p, postpones p (f p)) → postpones pending (prog_bind m f).
Proof.
  intros Hm Hf db evs db' pending' (evs1 & evs2 & db1 & a & He1 & He2 & ->)%exec_bind_inv.
  eapply postponed_app; [by eapply Hm|by eapply Hf].
Qed.

Lemma postpones_after {A} pending (m : prog A) f :
  (∀ a, postpones pending (f a)) → postpones pending (prog_bind m f).
Proof.
  intros Hf db evs db' pending' (evs1 & evs2 & db1 & a & He1 & He2 & ->)%exec_bind_inv.
  eapply postponed_app; [apply postponed_same|by eapply Hf].
Qed.

Lemma pending_postpones sid pending :
  postpones pending (reconcile_pending local_scope akamai cause interval sid pending).
Proof.
  intros db evs db' pending' He.
  assert (Hd : postponed interval pending [] (delete sid pending)).
  { intros k st. rewrite lookup_delete_Some. intros [_ ?]. by left. }
  eapply (postponed_app _ _ [] _ _ _ Hd).
  apply exec_bind_inv in He as (evs1 & evs2 & db1 & r & He1 & He2 & ->).
  eapply postponed_app; [apply postponed_same|]. destruct r as [[]|e].
  - apply exec_inv in He2 as (-> & -> & ->). apply postponed_same.
  - apply exec_inv in He2 as (now & d1 & d2 & evs' & _ & _ & He & ->).
    apply exec_inv in He as (-> & -> & ->).
    apply postponed_insert; [apply list_elem_of_here|lia|lia].
  - apply exec_inv in He2 as (now & d1 & d2 & evs' & _ & _ & He & ->).
    cbn [prog_bind] in He. cbv zeta in He.
    apply exec_bind_inv in He as (evs3 & evs4 & d3 & [] & He3 & He4 & ->).
    apply exec_inv in He4 as (-> & -> & ->).
    apply postponed_insert; [apply list_elem_of_here|by apply retry_delay_between..].
Qed.

Lemma retry_servers_postpones ids pending :
  postpones pending (retry_servers local_scope akamai cause interval ids pending).
Proof.
  revert pending. induction ids as [|sid ids IH]; intros pending; [apply postpones_ret|].
  apply postpones_after. intros []; [apply postpones_ret|].
  by apply postpones_bind; [apply pending_postpones|].
Qed.

Lemma resync_servers_postpones now servers pending :
  postpones pending (resync_servers local_scope akamai cause interval now servers pending).
Proof.
  revert pending. induction servers as [|s servers IH]; intros pending; [apply postpones_ret|].
  apply postpones_after. intros []; [apply postpones_ret|]. cbv beta.
  destruct (is_some_and _ _); [apply IH|]. by apply postpones_bind; [apply pending_postpones|].
Qed.

Lemma run_one_postpones order arm pending :
  postpones pending (run_one local_scope akamai cause interval order arm pending).
Proof.
  destruct arm; cbn [run_one].
  - apply postpones_after. intros []; [apply pending_postpones|apply postpones_ret].
  - apply postpones_after. intros now. apply retry_servers_postpones.
  - apply postpones_after. intros [servers|e]; [|apply postpones_ret].
    apply postpones_after. intros now. apply resync_servers_postpones.
Qed.

(** No server is forgotten for long. Whatever sequence of requests, retry
    ticks and resync ticks the worker's loop handles, an entry of its schedule
    that was not there before names a time at most the larger of the retry
    interval and five minutes after an instant the loop has read, and no
    earlier than the smaller of the two after it. *)
Theorem postponement_is_bounded order arms pending db evs db' pending' k st :
  exec env db (run_arms local_scope akamai cause interval order arms pending) evs db' pending' →
  pending' !! k = Some st →
  pending !! k = Some st ∨
  ∃ now, Event InstantNow now ∈ evs ∧
    now + Z.min interval MAX_ERROR_RETRY_DELAY ≤ retry_at st ∧
    retry_at st ≤ now + Z.max interval MAX_ERROR_RETRY_DELAY.
Proof.
  assert (Hp : ∀ pending, postpones pending
    (run_arms local_scope akamai cause interval order arms pending)).
  { induction arms as [|arm arms IH]; intros p; [apply postpones_ret|].
    by apply postpones_bind; [apply run_one_postpones|]. }
  intros He. exact (Hp _ _ _ _ _ He k st).
Qed.
End postponing.

(** ** The schedule *)

Section schedule.
Variable interval : Z.

(** One turn for a server: it is reconciled until it is blocked, and what came of it
    is its new entry in the schedule. *)
Definition turn (sid : ServerId) (pending : gmap N RetryState) (db : Database) (evs : list event)
    (db' : Database) (pending' : gmap N RetryState) : Prop :=
  ∃ r evs1 db1 evs2, exec env db (reconcile_until_blocked local_scope akamai sid) evs1 db1 r ∧
    evs = (evs1 ++ evs2)%list ∧
    match r with
    | Ok RO.Stable => evs2 = [] ∧ pending' = delete sid pending
    | Ok RO.Retry => ∃ now, evs2 = [Event InstantNow now] ∧
        pending' = <[sid := {| consecutive_failures := 0; retry_at := now + interval |}]> pending
    | Err e => ∃ now db2 evs3 failures, evs2 = Event InstantNow now :: evs3 ∧
        exec env db2 (record_error cause sid e) evs3 db' tt ∧
        failures = match pending !! sid with
                   | Some st => Z.min (consecutive_failures st + 1) u32_max
                   | None => 1
                   end ∧
        pending' = <[sid := {| consecutive_failures := failures;
          retry_at := now + retry_delay interval e failures |}]> pending
    end.

(** Turns for [sids] one after another, each after a look at the cancellation; a server
    may be skipped after the look. [stopped]: a look showed the cancellation. *)
Inductive turns : list ServerId → bool → gmap N RetryState → Database → list event → Database →
    gmap N RetryState → Prop :=
| turns_done pending db : turns [] false pending db [] db pending
| turns_stopped pending db db' :
    exec env db (perform IsCancelled) [Event IsCancelled true] db' true →
    turns [] true pending db [Event IsCancelled true] db' pending
| turns_skip sids stopped pending db db1 evs db' pending' :
    exec env db (perform IsCancelled) [Event IsCancelled false] db1 false →
    turns sids stopped pending db1 evs db' pending' →
    turns sids stopped pending db (Event IsCancelled false :: evs) db' pending'
| turns_next sid sids stopped pending db db1 evs1 db2 pending1 evs2 db' pending' :
    exec env db (perform IsCancelled) [Event IsCancelled false] db1 false →
    turn sid pending db1 evs1 db2 pending1 →
    turns sids stopped pending1 db2 evs2 db' pending' →
    turns (sid :: sids) stopped pending db (Event IsCancelled false :: evs1 ++ evs2) db' pending'.

(** A server is due at [now], or waits for a later time. *)
Definition due (now : Z) (pending : gmap N RetryState) (sid : ServerId) : Prop :=
  ∃ st, pending !! sid = Some st ∧ retry_at st ≤ now.
Definition waits (now : Z) (pending : gmap N RetryState) (sid : ServerId) : Prop :=
  ∃ st, pending !! sid = Some st ∧ now < retry_at st.

(** What an arm of the loop has to do. *)
Definition arm_followed (arm : run_arm) (pending : gmap N RetryState) (db : Database)
    (evs : list event) (db' : Database) (pending' : gmap N RetryState) : Prop :=
  match arm with
  | ArmRequest (RequestServer sid) => turn sid pending db evs db' pending'
  | ArmRequest (RequestInstance iid) => ∃ found evs' db1,
      evs = Event (Repo (ServerInstanceRepository_get iid)) found :: evs' ∧
      match found with
      | Ok (Some i) => turn (si_server_id i) pending db1 evs' db' pending'
      | _ => evs' = [] ∧ pending' = pending
      end
  | ArmRetry => ∃ now evs' db1 sids stopped,
      evs = Event InstantNow now :: evs' ∧ turns sids stopped pending db1 evs' db' pending' ∧
      NoDup sids ∧ (∀ sid, sid ∈ sids → due now pending sid) ∧
      (stopped = false → ∀ sid, due now pending sid → sid ∈ sids)
  | ArmResync => ∃ listed evs',
      evs = Event (Repo ServerRepository_list_for_reconciliation) listed :: evs' ∧
      match listed with
      | Err _ => evs' = [] ∧ pending' = pending
      | Ok servers => ∃ now evs'' db1 sids stopped,
          evs' = Event InstantNow now :: evs'' ∧
          turns sids stopped pending db1 evs'' db' pending' ∧
          (∀ sid, sid ∈ sids → sid ∈ map srv_id servers ∧ ¬ waits now pending sid) ∧
          (stopped = false → ∀ sid, sid ∈ map srv_id servers → ¬ waits now pending sid → sid ∈ sids)
      end
  end.

Fixpoint arms_followed (arms : list run_arm) (pending : gmap N RetryState) (db : Database)
    (evs : list event) (db' : Database) (pending' : gmap N RetryState) : Prop :=
  match arms with
  | [] => evs = [] ∧ db' = db ∧ pending' = pending
  | arm :: arms => ∃ evs1 evs2 db1 pending1, evs = (evs1 ++ evs2)%list ∧
      arm_followed arm pending db evs1 db1 pending1 ∧
      arms_followed arms pending1 db1 evs2 db' pending'
  end.

Lemma pending_turn sid pending db evs db' pending' :
  exec env db (reconcile_pending local_scope akamai cause interval sid pending) evs db' pending' →
  turn sid pending db evs db' pending'.
Proof.
  intros (r & evs1 & db1 & evs2 & He & -> & Hr)%turn_schedules_its_server.
  exists r, evs1, db1, evs2. split; [done|]. split; [done|]. destruct r as [[]|e].
  - by destruct Hr as [-> ->].
  - destruct Hr as (now & -> & ->). exists now. by rewrite insert_delete_eq.
  - destruct Hr as (now & db2 & evs3 & -> & Hx & ->). eexists now, db2, evs3, _.
    split; [done|]. split; [done|]. rewrite insert_delete_eq. split; [|reflexivity].
    by destruct (pending !! sid).
Qed.

Lemma turn_other sid pending db evs db' pending' k :
  turn sid pending db evs db' pending' → k ≠ sid → pending' !! k = pending !! k.
Proof.
  intros (r & evs1 & db1 & evs2 & _ & _ & Hr) Hk. destruct r as [[]|e].
  - destruct Hr as [_ ->]. by rewrite lookup_delete_ne.
  - destruct Hr as (now & _ & ->). by rewrite lookup_insert_ne.
  - destruct Hr as (now & db2 & evs3 & n & _ & _ & _ & ->). by rewrite lookup_insert_ne.
Qed.

(** A look at the cancellation, then the rest. *)
Lemma look_inv (k : bool → prog (gmap N RetryState)) db evs db' pending' :
  exec env db (prog_bind (perform IsCancelled) k) evs db' pending' →
  ∃ b db1 evs', evs = Event IsCancelled b :: evs' ∧
    exec env db (perform IsCancelled) [Event IsCancelled b] db1 b ∧
    exec env db1 (k b) evs' db' pending'.
Proof.
  intros (b & d1 & db1 & evs' & Hst & Ha & He & ->)%exec_inv. exists b, db1, evs'.
  split; [done|]. split; [|done]. econstructor; [exact Hst|exact Ha|constructor].
Qed.

Lemma retry_servers_turns ids pending db evs db' pending' :
  exec env db (retry_servers local_scope akamai cause interval ids pending) evs db' pending' →
  ∃ sids stopped, turns sids stopped pending db evs db' pending' ∧ sids `prefix_of` ids ∧
    (stopped = false → sids = ids).
Proof.
  revert pending db evs. induction ids as [|sid ids IH]; intros pending db evs; cbn [retry_servers].
  { intros (-> & -> & ->)%exec_inv. exists [], false. split; [constructor|]. done. }
  intros ([] & db1 & evs' & -> & Hl & He)%look_inv.
  { apply exec_inv in He as (-> & -> & ->). exists [], true. split; [by constructor|].
    split; [apply prefix_nil|done]. }
  apply exec_bind_inv in He as (evs1 & evs2 & db2 & p1 & Ht%pending_turn & (sids & stopped & Hs & Hp & Ha)%IH & ->).
  exists (sid :: sids), stopped. split; [by eapply turns_next|].
  split; [by apply prefix_cons|]. intros Hc. by rewrite Ha.
Qed.

Lemma due_servers_spec now pending sid : sid ∈ due_servers now pending ↔ due now pending sid.
Proof.
  unfold due_servers. rewrite list_elem_of_In, in_map_iff. unfold due. split.
  - intros ([k st] & <- & [Hin Hle]%filter_In). exists st.
    rewrite <- elem_of_map_to_list, list_elem_of_In. split; [done|by apply Z.leb_le].
  - intros (st & Hl & Hle). exists (sid, st). split; [done|]. apply filter_In.
    rewrite <- list_elem_of_In, elem_of_map_to_list. split; [done|by apply Z.leb_le].
Qed.

Lemma due_servers_nodup now pending : NoDup (due_servers now pending).
Proof.
  unfold due_servers. pose proof (NoDup_fst_map_to_list pending) as Hn. revert Hn.
  induction (map_to_list pending) as [|[k st] l IH]; cbn; [constructor|].
  intros [Hk Hn]%NoDup_cons. destruct (_ <=? _); [|by apply IH]. cbn. constructor; [|by apply IH].
  rewrite list_elem_of_In, in_map_iff. intros ([k' st'] & <- & [Hin _]%filter_In). apply Hk.
  rewrite list_elem_of_In. by apply (in_map fst _ (k', st')).
Qed.

Lemma waits_guard now pending sid :
  is_some_and (λ state, now <? retry_at state) (pending !! sid) = true ↔ waits now pending sid.
Proof.
  unfold waits. destruct (pending !! sid) as [st|]; cbn; [|by split; [|intros (? & ? & _)]].
  rewrite Z.ltb_lt. split; [by exists st|]. by intros (? & [= <-] & ?).
Qed.

Lemma resync_servers_turns now servers pending db evs db' pending' :
  exec env db (resync_servers local_scope akamai cause interval now servers pending) evs db' pending' →
  ∃ sids stopped, turns sids stopped pending db evs db' pending' ∧
    (∀ sid, sid ∈ sids → sid ∈ map srv_id servers ∧ ¬ waits now pending sid) ∧
    (stopped = false → ∀ sid, sid ∈ map srv_id servers → ¬ waits now pending sid → sid ∈ sids).
Proof.
  revert pending db evs. induction servers as [|s servers IH]; intros pending db evs;
    cbn [resync_servers].
  { intros (-> & -> & ->)%exec_inv. exists [], false. split; [constructor|].
    split; [by intros sid ?%not_elem_of_nil|]. by intros _ sid ?%not_elem_of_nil. }
  intros ([] & db1 & evs' & -> & Hl & He)%look_inv.
  { apply exec_inv in He as (-> & -> & ->). exists [], true. split; [by constructor|].
    split; [by intros sid ?%not_elem_of_nil|done]. }
  destruct (is_some_and _ _) eqn:Hg in He.
  - apply waits_guard in Hg. apply IH in He as (sids & stopped & Hs & Hin & Hall).
    exists sids, stopped. split; [by eapply turns_skip|]. split.
    + intros sid [? ?]%Hin. split; [by apply list_elem_of_further|done].
    + intros Hc sid [->|?]%elem_of_cons Hw; [done|]. by apply Hall.
  - assert (¬ waits now pending (srv_id s)) as Hw by (rewrite <- waits_guard; by rewrite Hg).
    apply exec_bind_inv in He as (evs1 & evs2 & db2 & p1 & Ht%pending_turn & (sids & stopped & Hs & Hin & Hall)%IH & ->).
    assert (∀ sid, sid ≠ srv_id s → waits now p1 sid ↔ waits now pending sid) as Hsame.
    { intros sid Hne. unfold waits. by rewrite (turn_other _ _ _ _ _ _ _ Ht Hne). }
    exists (srv_id s :: sids), stopped. split; [by eapply turns_next|]. split.
    + intros sid [->|[Hsid Hn]%Hin]%elem_of_cons; (split; [set_solver|]); [done|].
      destruct (decide (sid = srv_id s)) as [->|Hne]; [done|]. by rewrite <- Hsame.
    + intros Hc sid Hsid Hn. destruct (decide (sid = srv_id s)) as [->|Hne]; [apply list_elem_of_here|].
      apply list_elem_of_further, Hall; [done| |by rewrite Hsame].
      cbn in Hsid. by apply elem_of_cons in Hsid as [->|?].
Qed.

(** C12. The worker keeps to its schedule, however other tasks interfere and whatever
    order it visits servers in. A request gives a turn to the server it names, at once. A
    retry tick gives one turn to each server whose time has come and to no other, and a
    resync gives turns to the listed servers except those that wait for a later time;
    only a cancellation ends either early. A turn that leaves its server stable takes it
    off the schedule; one that awaits something sets it to the interval from then with no
    failures; one that failed sets it to the delay of the error, with one failure more
    than before, up to the largest count, and records the error; and no turn changes the
    entry of another server. *)
Theorem worker_follows_schedule order arms pending db evs db' pending' :
  (∀ sids, order sids ≡ₚ sids) →
  exec env db (run_arms local_scope akamai cause interval order arms pending) evs db' pending' →
  arms_followed arms pending db evs db' pending'.
Proof.
  intros Horder. revert pending db evs. induction arms as [|arm arms IH]; intros pending db evs.
  { intros (-> & -> & ->)%exec_inv. done. }
  intros (evs1 & evs2 & db1 & p1 & He & Hrest & ->)%exec_bind_inv.
  exists evs1, evs2, db1, p1. split; [done|]. split; [clear Hrest|by apply IH].
  destruct arm as [[sid|iid]| |]; cbn [run_one] in He.
  - by apply pending_turn.
  - apply exec_inv in He as (found & d1 & d2 & evs' & _ & _ & He & ->). exists found, evs', d2.
    split; [done|]. destruct found as [[i|]|e]; [by apply pending_turn|..];
      by apply exec_inv in He as (-> & -> & ->).
  - apply exec_inv in He as (now & d1 & d2 & evs' & _ & _ & He & ->).
    apply retry_servers_turns in He as (sids & stopped & Ht & Hp & Ha).
    exists now, evs', d2, sids, stopped. split; [done|]. split; [done|]. split_and!.
    + destruct Hp as [rest Hp]. pose proof (due_servers_nodup now pending) as Hn.
      rewrite <- Horder, Hp in Hn. by apply NoDup_app in Hn as (? & _).
    + intros sid Hin. rewrite <- due_servers_spec, <- Horder. by eapply elem_of_prefix.
    + intros Hc sid. rewrite <- due_servers_spec, <- Horder. by rewrite Ha.
  - apply exec_inv in He as (listed & d1 & d2 & evs' & _ & _ & He & ->). exists listed, evs'.
    split; [done|]. destruct listed as [servers|e]; [|by apply exec_inv in He as (-> & -> & ->)].
    apply exec_inv in He as (now & d3 & d4 & evs'' & _ & _ & He & ->).
    apply resync_servers_turns in He as (sids & stopped & ? & ? & ?). by exists now, evs'', d4, sids, stopped.
Qed.
End schedule.
End outcomes.

(** ** Witnesses and a complete lifecycle *)

Section witnesses.
#[local] Existing Instance bits_codec.
#[local] Existing Instance bits_codec_laws.

Lemma reconcile_until_blocked_spec_witness :
  ∃ evs db r k evs1 db1,
    exec other_step example_stopped_db (reconcile_until_blocked "scope" None 7%N) evs db r ∧
    (k < 32)%nat ∧ changed_passes other_step "scope" None 7%N k example_stopped_db evs1 db1.
Proof.
  destruct (simulate (reconcile_until_blocked "scope" None 7%N) initial_world example_stopped_db)
    as [[[evs w] db] r] eqn:E.
  assert (Hr : match r with Err (RCE.DidNotConverge _) => false | _ => true end = true).
  { change r with (evs, w, db, r).2. rewrite <- E. vm_compute. reflexivity. }
  apply (simulate_exec other_step) in E as [He _]; [|done].
  destruct (reconcile_until_blocked_spec _ _ _ _ _ _ _ _ He)
    as [[-> _]|(k & evs1 & db1 & evs2 & Hk & Hc & _)]; [done|].
  exists evs, db, r, k, evs1, db1. by split.
Defined.

Lemma turn_schedules_its_server_witness :
  ∃ evs db pending' r evs1 db1,
    exec other_step example_stopped_db example_turn evs db pending' ∧
    exec other_step example_stopped_db (reconcile_until_blocked "scope" None 7%N) evs1 db1 r.
Proof.
  destruct (simulate example_turn initial_world example_stopped_db) as [[[evs w] db] p] eqn:E.
  apply (simulate_exec other_step) in E as [He _]; [|done].
  destruct (turn_schedules_its_server _ _ _ _ _ _ _ _ _ _ _ _ He) as (r & evs1 & db1 & _ & Hr & _).
  exists evs, db, p, r, evs1, db1. by split.
Defined.

(** A server the worker cannot work for: its machine's provider is not
    configured. *)
Definition example_akamai_server : Server := set_srv_spec example_server example_akamai_spec.
Definition example_akamai_running : Server :=
  (Server_set_desired_state example_akamai_server DS.Running 2000).2.
Definition example_failing_db : Database :=
  run_writes [WCreateServer example_akamai_server; WUpdateDesiredState example_akamai_running 1]
    empty_database.

Lemma postponement_is_bounded_witness :
  ∃ evs db pending' st now,
    exec other_step example_failing_db (run_arms "scope" None (λ _, "cause") (from_secs 5) id
      [ArmRequest (RequestServer 7%N); ArmResync] ∅) evs db pending' ∧
    pending' !! 7%N = Some st ∧ Event InstantNow now ∈ evs ∧
    retry_at st ≤ now + from_secs 300.
Proof.
  destruct (simulate (run_arms "scope" None (λ _, "cause") (from_secs 5) id
    [ArmRequest (RequestServer 7%N); ArmResync] ∅) initial_world example_failing_db)
    as [[[evs w] db] pending'] eqn:E.
  destruct (pending' !! 7%N) as [st|] eqn:Hst.
  2: { exfalso. assert (Hb : is_some (pending' !! 7%N) = true).
       { change pending' with (evs, w, db, pending').2. rewrite <- E. vm_compute. reflexivity. }
       by rewrite Hst in Hb. }
  apply (simulate_exec other_step) in E as [He _]; [|done].
  destruct (postponement_is_bounded other_step "scope" None (λ _, "cause") (from_secs 5)
    ltac:(by vm_compute) _ _ _ _ _ _ _ 7%N st He Hst) as [Hn|(now & Hin & _ & Hle)]; [done|].
  exists evs, db, pending', st, now. split; [exact He|]. split; [done|]. split; [done|]. exact Hle.
Defined.

Lemma worker_follows_schedule_witness :
  ∃ evs db pending', exec other_step example_failing_db (run_arms "scope" None (λ _, "cause")
      (from_secs 5) id [ArmRequest (RequestServer 7%N); ArmRetry; ArmResync] ∅) evs db pending' ∧
    arms_followed other_step "scope" None (λ _, "cause") (from_secs 5)
      [ArmRequest (RequestServer 7%N); ArmRetry; ArmResync] ∅ example_failing_db evs db pending'.
Proof.
  destruct (simulate (run_arms "scope" None (λ _, "cause") (from_secs 5) id
    [ArmRequest (RequestServer 7%N); ArmRetry; ArmResync] ∅) initial_world example_failing_db)
    as [[[evs w] db] pending'] eqn:E.
  apply (simulate_exec other_step) in E as [He _]; [|done]. exists evs, db, pending'. split; [exact He|].
  by apply (worker_follows_schedule other_step "scope" None (λ _, "cause") (from_secs 5) id).
Defined.

(** The instance after the first turn of the example. *)
Definition example_active : ServerInstance := {|
  si_id := 101%N; si_server_id := 7%N; si_server_generation := 2;
  si_resolved_spec := example_spec; si_fencing_token := 1; si_source_snapshot_id := None;
  si_data_prepared_at := Some 19000; si_process_running := true;
  si_process_observed_at := Some 20000; si_result_snapshot_id := None;
  si_stop_requested_at := None; si_terminated_at := None; si_terminal_result := None;
  si_last_error := None; si_created_at := 10000; si_updated_at := 20000 |}.

Lemma pass_reports_faithfully_witness :
  ∃ evs db c a,
    exec other_step first_turn.1.2 (reconcile_active "scope" None example_running example_active)
      evs db (Ok SO.Stable) ∧
    Event (CallInspect c (identity example_active)) (Ok a) ∈ evs ∧ process_running a = true.
Proof.
  destruct (simulate (reconcile_active "scope" None example_running example_active)
    first_turn.1.1.2 first_turn.1.2) as [[[evs w] db] r] eqn:E.
  assert (Hr : r = Ok SO.Stable).
  { change r with (evs, w, db, r).2. rewrite <- E. vm_compute. reflexivity. }
  apply (simulate_exec other_step) in E as [He _]; [|exact first_world_ok].
  destruct (pass_reports_faithfully _ _ _ _ _ _ _ _ _ He) as [_ Hs].
  destruct (Hs Hr eq_refl) as (c & a & Hin & _ & Ha). rewrite Hr in He.
  exists evs, db, c, a. split; [exact He|]. by split.
Defined.

Definition second_turn := simulate example_turn first_turn.1.1.2 example_stopping_db.

Definition observed_instance (db : Database) :=
  (λ r, (ir_terminal_result r, ir_process_running r, is_some (ir_data_prepared_at_ms r),
         ir_result_snapshot_id r)) <$> server_instances db !! uuid_to_string 101%N.

(** The whole lifecycle, by evaluation in a cooperative world: one turn of
    the worker takes a server that should run from no instance to a running
    process on prepared data, and schedules no retry; after a client stops the
    server, one more turn stops the process, publishes a snapshot, makes it the
    server's current snapshot, deletes the machine and completes the
    instance. *)
Theorem lifecycle_completes :
  observed_instance first_turn.1.2 = Some (None, true, true, None) ∧
  first_turn.2 = ∅ ∧
  observed_instance second_turn.1.2 = Some (Some "completed", false, true, Some "snapshot-1") ∧
  sr_current_snapshot_id <$> servers second_turn.1.2 !! uuid_to_string 7%N =
    Some (Some "snapshot-1") ∧
  forallb (λ '(_, r), bool_decide (cr_terminal_result r = Some "deleted"))
    (map_to_list (compute_instances second_turn.1.2)) = true ∧
  second_turn.2 = ∅.
Proof. split_and!; vm_compute; reflexivity. Qed.
End witnesses.
