(* ===== verification/Application.v ===== *)
(** The application services
    (crates/mcserver-control-plane/src/application/server_service.rs,
    server_instance_service.rs and server_status_service.rs): what a client
    request does to a server, with the optimistic retries. *)
From S2P Require Import Prelude Text Programs Server Instances Database Repositories.
From S2P Require Import ComputeRepository.
From S2P Require Import Effects.
#[local] Open Scope string_scope.
#[local] Open Scope Z_scope.
#[local] Open Scope prog_scope.

Module APE.
(** [ApplicationError]. *)
Inductive ApplicationError :=
| Validation (source : ValidationError)
| NotFound
| ServerInstanceNotFound
| ServerHasActiveInstance
| GenerationConflict (expected : option Z) (actual : Z)
| ConcurrentUpdate
| Repository (source : RepositoryError)
| Timestamp (source : TimestampError).
End APE.
Abbreviation ApplicationError := APE.ApplicationError.

(** [for _ in 0..3]. *)
Definition UPDATE_ATTEMPTS : nat := 3.

(** [expected_generation.is_some_and(|expected| expected != actual)]. *)
Definition generation_mismatch (expected : option Z) (actual : Z) : bool :=
  is_some_and (λ expected, negb (expected =? actual)) expected.

Record ServerStatus := {
  status_server : Server;
  status_active_instance : option ServerInstance;
  status_active_compute : option ComputeInstance;
  status_agent_connected : bool;
}.

Section application.
Context `{Codec}.

(** [self.r2_repository_base]. *)
Variable r2_repository_base : option string.

(** [r2_repository]. *)
Definition ServerService_r2_repository (server_name : string) : option string :=
  (λ base, (base ++ "/servers/" ++ server_name ++ "/restic")%string) <$> r2_repository_base.

Definition ServerService_create (name : string) (desired_spec : DesiredServerSpec) :
    prog (result ApplicationError Server) :=
  let? now := perform Now via APE.Timestamp in
  let? name := Ret (ServerName_new name) via APE.Validation in
  let! id := perform NewUuid in
  let? spec := Ret (DesiredServerSpec_resolve desired_spec None (ServerService_r2_repository name))
    via APE.Validation in
  let? server := Ret (Server_new id name spec now) via APE.Validation in
  let? _ := perform (Repo (ServerRepository_create server)) via APE.Repository in
  let! _ := perform (Enqueue (srv_id server)) in
  Ret (Ok server).

Definition ServerService_get (id : ServerId) : prog (result ApplicationError Server) :=
  let? found := perform (Repo (ServerRepository_get id)) via APE.Repository in
  Ret (ok_or APE.NotFound found).

Definition ServerService_get_by_name (name : string) : prog (result ApplicationError Server) :=
  let? name := Ret (ServerName_new name) via APE.Validation in
  let? found := perform (Repo (ServerRepository_get_by_name name)) via APE.Repository in
  Ret (ok_or APE.NotFound found).

Definition ServerService_list (include_archived : bool) :
    prog (result ApplicationError (list Server)) :=
  let? servers := perform (Repo (ServerRepository_list include_archived)) via APE.Repository in
  Ret (Ok servers).

(** The loop of [apply]. *)
Fixpoint apply_attempts (attempts : nat) (name : string) (desired_spec : DesiredServerSpec)
    (expected_generation : option Z) : prog (result ApplicationError Server) :=
  match attempts with
  | 0%nat => Ret (Err APE.ConcurrentUpdate)
  | S attempts' =>
      let? found := perform (Repo (ServerRepository_get_by_name name)) via APE.Repository in
      match found with
      | None =>
          if is_some expected_generation then Ret (Err APE.NotFound)
          else ServerService_create name desired_spec
      | Some server =>
          if generation_mismatch expected_generation (srv_generation server)
          then Ret (Err (APE.GenerationConflict expected_generation (srv_generation server)))
          else
            let? spec := Ret (DesiredServerSpec_resolve desired_spec
              (Some (spec_data (srv_spec server))) None) via APE.Validation in
            let previous_generation := srv_generation server in
            let? now := perform Now via APE.Timestamp in
            let '(transition, updated) := Server_update_spec server spec now in
            let? changed := Ret transition via APE.Validation in
            if negb changed then Ret (Ok updated)
            else
              let? stored := perform (Repo (ServerRepository_update_spec updated
                previous_generation)) via APE.Repository in
              if (stored : bool) then
                let! _ := perform (Enqueue (srv_id updated)) in
                Ret (Ok updated)
              else if is_some expected_generation then
                let? actual := ServerService_get (srv_id updated) via id in
                Ret (Err (APE.GenerationConflict expected_generation (srv_generation actual)))
              else apply_attempts attempts' name desired_spec expected_generation
      end
  end.

Definition ServerService_apply (name : string) (desired_spec : DesiredServerSpec)
    (expected_generation : option Z) : prog (result ApplicationError Server) :=
  let? name := Ret (ServerName_new name) via APE.Validation in
  apply_attempts UPDATE_ATTEMPTS name desired_spec expected_generation.

(** The loop of [set_desired_state]. *)
Fixpoint set_desired_state_attempts (attempts : nat) (name : string) (desired_state : DesiredState)
    (expected_generation : option Z) : prog (result ApplicationError Server) :=
  match attempts with
  | 0%nat => Ret (Err APE.ConcurrentUpdate)
  | S attempts' =>
      let? found := perform (Repo (ServerRepository_get_by_name name)) via APE.Repository in
      let? server := Ret (ok_or APE.NotFound found) via id in
      if generation_mismatch expected_generation (srv_generation server)
      then Ret (Err (APE.GenerationConflict expected_generation (srv_generation server)))
      else
        let previous_generation := srv_generation server in
        let? now := perform Now via APE.Timestamp in
        let '(transition, updated) := Server_set_desired_state server desired_state now in
        let? changed := Ret transition via APE.Validation in
        if negb changed then Ret (Ok updated)
        else
          let? stored := perform (Repo (ServerRepository_update_desired_state updated
            previous_generation)) via APE.Repository in
          if (stored : bool) then
            let! _ := perform (Enqueue (srv_id updated)) in
            Ret (Ok updated)
          else if is_some expected_generation then
            let? actual := ServerService_get_by_name name via id in
            Ret (Err (APE.GenerationConflict expected_generation (srv_generation actual)))
          else set_desired_state_attempts attempts' name desired_state expected_generation
  end.

Definition ServerService_set_desired_state (name : string) (desired_state : DesiredState)
    (expected_generation : option Z) : prog (result ApplicationError Server) :=
  let? name := Ret (ServerName_new name) via APE.Validation in
  set_desired_state_attempts UPDATE_ATTEMPTS name desired_state expected_generation.

(** The loop of [archive]. *)
Fixpoint archive_attempts (attempts : nat) (name : string) (expected_generation : option Z) :
    prog (result ApplicationError Server) :=
  match attempts with
  | 0%nat => Ret (Err APE.ConcurrentUpdate)
  | S attempts' =>
      let? found := perform (Repo (ServerRepository_get_by_name name)) via APE.Repository in
      let? server := Ret (ok_or APE.NotFound found) via id in
      if generation_mismatch expected_generation (srv_generation server)
      then Ret (Err (APE.GenerationConflict expected_generation (srv_generation server)))
      else if is_some (srv_archived_at server) then Ret (Ok server)
      else
        let? active := perform (Repo (ServerRepository_has_active_instance (srv_id server)))
          via APE.Repository in
        if (active : bool) then Ret (Err APE.ServerHasActiveInstance)
        else
          let previous_generation := srv_generation server in
          let? now := perform Now via APE.Timestamp in
          let '(transition, archived) := Server_archive server now in
          let? _ := Ret transition via APE.Validation in
          let? stored := perform (Repo (ServerRepository_archive archived previous_generation))
            via APE.Repository in
          if (stored : bool) then Ret (Ok archived)
          else if is_some expected_generation then
            let? actual := ServerService_get_by_name name via id in
            Ret (Err (APE.GenerationConflict expected_generation (srv_generation actual)))
          else archive_attempts attempts' name expected_generation
  end.

Definition ServerService_archive (name : string) (expected_generation : option Z) :
    prog (result ApplicationError Server) :=
  let? name := Ret (ServerName_new name) via APE.Validation in
  archive_attempts UPDATE_ATTEMPTS name expected_generation.

(** ** [ServerInstanceService] and [ServerStatusService] *)

Definition ServerInstanceService_get (id : ServerInstanceId) :
    prog (result ApplicationError ServerInstance) :=
  let? found := perform (Repo (ServerInstanceRepository_get id)) via APE.Repository in
  Ret (ok_or APE.ServerInstanceNotFound found).

Definition ServerInstanceService_list_for_server (server_id : ServerId) :
    prog (result ApplicationError (list ServerInstance)) :=
  let? instances := perform (Repo (ServerInstanceRepository_list_for_server server_id))
    via APE.Repository in
  Ret (Ok instances).

Definition ServerStatusService_get (server_id : ServerId) :
    prog (result ApplicationError ServerStatus) :=
  let? found := perform (Repo (ServerRepository_get server_id)) via APE.Repository in
  let? server := Ret (ok_or APE.NotFound found) via id in
  let? active_instance := perform (Repo (ServerInstanceRepository_get_active_for_server server_id))
    via APE.Repository in
  let? active_compute :=
    match active_instance with
    | Some instance =>
        perform (Repo (ComputeInstanceRepository_get_active_for_instance (si_id instance)))
    | None => Ret (Ok None)
    end via APE.Repository in
  let! agent_connected :=
    match active_compute with
    | Some compute => perform (IsConnected (ci_id compute))
    | None => Ret false
    end in
  Ret (Ok {| status_server := server; status_active_instance := active_instance;
             status_active_compute := active_compute;
             status_agent_connected := agent_connected |}).
End application.
