(* ===== verification/ApplicationFacts.v ===== *)
(** Executions of the application services: a request makes only transitions
    of the database, and what it returns was stored while it ran. *)
From S2P Require Import Prelude Text Programs Server ServerFacts Instances InstanceFacts Database.
From S2P Require Import RowFacts.
From S2P Require Import Repositories ComputeRepository Invariant RepositoryFacts LifecycleFacts.
From S2P Require Import ComputeFacts Persistence Effects Semantics LocalCompute AkamaiCompute.
From S2P Require Import Reconciliation ManagerFacts ReconcileFacts PassFacts Application.
#[local] Open Scope string_scope.
#[local] Open Scope Z_scope.

(** Equal in every field but the current snapshot, which a commit may change
    without a new generation. *)
Definition same_but_snapshot (a b : Server) : Prop :=
  srv_id a = srv_id b ∧ srv_name a = srv_name b ∧ srv_generation a = srv_generation b ∧
  srv_desired_state a = srv_desired_state b ∧ srv_spec a = srv_spec b ∧
  srv_archived_at a = srv_archived_at b ∧ srv_created_at a = srv_created_at b ∧
  srv_updated_at a = srv_updated_at b.

Section facts.
Context `{CodecLaws}.

(** [s] was stored at a moment between [db] and [db']. *)
Definition served (db db' : Database) (s : Server) : Prop :=
  ∃ db1 s1, rtc db_step db db1 ∧ rtc db_step db1 db' ∧ server_in db1 s1 ∧ same_but_snapshot s s1.

Lemma served_app db0 db db' db1 s :
  rtc db_step db0 db → rtc db_step db' db1 → served db db' s → served db0 db1 s.
Proof.
  intros H1 H2 (d & s1 & Hd1 & Hd2 & ? & ?). exists d, s1.
  split_and!; [by transitivity db|by transitivity db'|done..].
Qed.

Lemma get_by_name_read name db s db' :
  db_ok db → ServerRepository_get_by_name name db = (Ok (Some s), db') →
  db' = db ∧ srv_name s = name ∧ server_in db s.
Proof.
  intros Hok. unfold ServerRepository_get_by_name. rewrite run_bind.
  unfold query, lift, decode_optional.
  destruct (find_row _ _) as [[k r]|] eqn:Ef; cbn [transpose_map]; [|done].
  apply find_row_some in Ef as [Hr Hn]. apply String.eqb_eq in Hn.
  pose proof (ok_servers _ Hok _ _ Hr) as Hwf. destruct (srw_id _ _ Hwf) as [id ->].
  destruct (server_row_wf_decode _ _ Hwf) as (spec & d & _ & _ & Hd).
  rewrite Hd. cbn. intros [= <- <-]. split; [done|]. split; [done|]. exists r. done.
Qed.

(** A row with the fields of a server holds that server. *)
Lemma server_of_row db s r :
  db_ok db → servers db !! uuid_to_string (srv_id s) = Some r →
  sr_name r = srv_name s → sr_generation r = srv_generation s →
  sr_desired_state r = DesiredState_as_str (srv_desired_state s) →
  spec_from_json (sr_spec_json r) = Ok (srv_spec s) → sr_archived_at_ms r = srv_archived_at s →
  sr_created_at_ms r = srv_created_at s → sr_updated_at_ms r = srv_updated_at s →
  ∃ s1, server_in db s1 ∧ same_but_snapshot s s1.
Proof.
  intros Hok Hr En Eg Ed Es Ea Ec Eu. pose proof (ok_servers _ Hok _ _ Hr) as Hwf.
  destruct (server_row_wf_decode _ _ Hwf) as (spec & d & Hs & Hd & Hdec).
  match type of Hdec with _ = Ok ?s1 => exists s1 end. split; [by exists r|].
  assert (d = srv_desired_state s) as ->.
  { rewrite Hd in Ed. by destruct d, (srv_desired_state s). }
  unfold same_but_snapshot. cbn. split_and!; congruence.
Qed.

(** Two servers of one name are the same server at two times. *)
Lemma same_name_later db0 db s s' :
  db_ok db0 → db_ok db → grows db0 db → server_in db0 s → server_in db s' →
  srv_name s = srv_name s' →
  srv_id s = srv_id s' ∧ srv_generation s ≤ srv_generation s' ∧
  (∀ r, servers db !! uuid_to_string (srv_id s) = Some r → sr_generation r = srv_generation s').
Proof.
  intros Hok0 Hok Hg Hin Hin' Hn.
  destruct (server_in_later _ _ _ Hok0 Hin Hg) as (r & Hr & En & _ & _ & Hge & _).
  destruct (server_in_row _ _ Hok Hin') as (r' & Hr' & En' & Eg' & _).
  assert (E : uuid_to_string (srv_id s) = uuid_to_string (srv_id s')).
  { eapply (ok_names _ Hok); [exact Hr|exact Hr'|congruence]. }
  apply uuid_to_string_inj in E. rewrite E in *. rewrite Hr in Hr'. injection Hr' as ->.
  split_and!; [done|lia|]. intros r0 Hr0. congruence.
Qed.

(** ** Compare and swap *)

(** A row changed by a compare-and-swap with the generation of [s]. *)
Lemma cas_row db0 db s r :
  db_ok db0 → server_in db0 s → grows db0 db →
  servers db !! uuid_to_string (srv_id s) = Some r → sr_generation r = srv_generation s →
  sr_name r = srv_name s ∧ sr_created_at_ms r = srv_created_at s ∧
  sr_desired_state r = DesiredState_as_str (srv_desired_state s) ∧
  spec_from_json (sr_spec_json r) = Ok (srv_spec s) ∧ sr_archived_at_ms r = srv_archived_at s.
Proof.
  intros Hok0 Hin Hg Hr Eg.
  destruct (server_in_later _ _ _ Hok0 Hin Hg) as (r' & Hr' & En & Ec & _ & _ & Hsame).
  rewrite Hr in Hr'. injection Hr' as <-. destruct (Hsame Eg) as (? & ? & ?). done.
Qed.

(** A server that one of its operations has changed. *)
Definition advanced (s s' : Server) : Prop :=
  srv_id s' = srv_id s ∧ srv_name s' = srv_name s ∧ srv_generation s' = srv_generation s + 1 ∧
  srv_created_at s' = srv_created_at s ∧ srv_updated_at s ≤ srv_updated_at s' ∧
  srv_archived_at s = None.

Lemma advanced_writable db0 db s s' r :
  db_ok db0 → server_in db0 s → grows db0 db → db_ok db → advanced s s' →
  servers db !! uuid_to_string (srv_id s) = Some r → srv_generation s' ≤ i64_max →
  writable db s' (srv_generation s) ∧ srv_created_at s' ≤ srv_updated_at s' ∧
  sr_created_at_ms r = srv_created_at s'.
Proof.
  intros Hok0 Hin Hg Hok (Ei & _ & Eg & Ec & Hu & _) Hr Hmax.
  destruct (server_in_later _ _ _ Hok0 Hin Hg) as (r' & Hr' & _ & Ec' & Hcu & Hge & _).
  rewrite Hr in Hr'. injection Hr' as <-.
  split_and!; [|lia|congruence]. unfold writable. rewrite Ei, Hr.
  split_and!; try lia. intros ? [= <-]. lia.
Qed.

(** What a compare-and-swap update answers. *)
Definition cas_answer (s s' : Server) (db : Database) (b : bool) (db' : Database) : Prop :=
  if b then ∃ s1, server_in db' s1 ∧ same_but_snapshot s' s1
  else db' = db.

(** The row a successful compare-and-swap leaves holds the new server. *)
Ltac stored_row :=
  match goal with
  | Hok' : db_ok ?db', Edb : ?db' = set_servers _ _, Ei : srv_id ?s' = _
    |- cas_answer _ ?s' _ _ ?db' =>
      eapply (server_of_row db' s' _ Hok');
        [rewrite Ei, Edb; cbn; by rewrite lookup_insert, decide_True|..];
      rewrite ?is_none_true in *; cbn; congruence
  end.

Lemma update_desired_state_cas db0 db s d now s' b db' :
  db_ok db0 → server_in db0 s → grows db0 db → db_ok db →
  Server_set_desired_state s d now = (Ok true, s') →
  ServerRepository_update_desired_state s' (srv_generation s) db = (Ok b, db') →
  cas_answer s s' db b db' ∧
  (b = false → ∀ r, servers db !! uuid_to_string (srv_id s) = Some r →
     srv_generation s < sr_generation r).
Proof.
  intros Hok0 Hin Hg Hok E Hu.
  assert (Hadv : advanced s s' ∧ srv_desired_state s' = d ∧ srv_spec s' = srv_spec s ∧
    srv_archived_at s' = None).
  { apply set_desired_state_cases in E as [(_ & ? & _)|[(_ & _ & ? & _)|[(_ & _ & _ & ? & _)|
      (Ha & _ & _ & _ & ->)]]]; try done. unfold advanced. cbn. split_and!; try done; lia. }
  destruct Hadv as (Hadv & Ed & Es & Ea).
  destruct (server_in_later _ _ _ Hok0 Hin Hg) as (r & Hr & _ & _ & _ & Hge & Hsame).
  assert (Hmax : srv_generation s' ≤ i64_max).
  { unfold ServerRepository_update_desired_state in Hu. rewrite run_lift in Hu.
    destruct (generation_to_i64 (srv_generation s')) as [g|e] eqn:E'; [|done].
    by apply positive_u64_to_i64_ok in E' as (_ & _ & ?). }
  destruct (advanced_writable _ _ _ _ _ Hok0 Hin Hg Hok Hadv Hr Hmax) as (Hw & Hcu & Ec).
  destruct (update_desired_state_spec db s' (srv_generation s) Hok Hw) as (b' & d' & Hu' & Hok' & Hc).
  rewrite Hu in Hu'. injection Hu' as <- <-. destruct Hadv as (Ei & En & Eg & _ & _ & Hna).
  rewrite Ei in Hc. destruct b; (split; [|intros Hb]); try done; [|cbn; by destruct Hc|].
  - destruct Hc as (r0 & Hr0 & Hcond & Edb). rewrite Hr in Hr0. injection Hr0 as <-. inv_res. bz.
    destruct (cas_row _ _ _ _ Hok0 Hin Hg Hr) as (Hn & _ & Hd & Hs & Ha); [done|].
    stored_row.
  - destruct Hc as [_ Hf]. intros r0 Hr0. rewrite Hr in Hr0. injection Hr0 as <-.
    specialize (Hf r Hr). destruct (decide (sr_generation r = srv_generation s)) as [Eq|]; [|lia].
    destruct (Hsame Eq) as (_ & _ & Har). rewrite Eq, Z.eqb_refl, Har in Hf.
    by rewrite Hna in Hf.
Qed.

Lemma update_spec_cas db0 db s spec now s' b db' :
  db_ok db0 → server_in db0 s → grows db0 db → db_ok db →
  Server_update_spec s spec now = (Ok true, s') →
  ServerRepository_update_spec s' (srv_generation s) db = (Ok b, db') →
  cas_answer s s' db b db' ∧
  (b = false → ∀ r, servers db !! uuid_to_string (srv_id s) = Some r →
     srv_generation s < sr_generation r).
Proof.
  intros Hok0 Hin Hg Hok E Hu.
  assert (Hadv : advanced s s' ∧ srv_desired_state s = DS.Stopped ∧
    srv_desired_state s' = DS.Stopped ∧ srv_archived_at s' = None ∧
    ServerSpec_validate (srv_spec s') = Ok tt).
  { apply update_spec_cases in E as [(e & _ & ? & _)|(Hv & [(_ & ? & _)|[(_ & _ & ? & _)|
      [(_ & _ & _ & ? & _)|[(_ & _ & _ & _ & ? & _)|(Ha & _ & Hd & _ & _ & ->)]]]])]; try done.
    unfold advanced. cbn. split_and!; try done; lia. }
  destruct Hadv as (Hadv & Hds & Ed & Ea & Hv).
  destruct (server_in_later _ _ _ Hok0 Hin Hg) as (r & Hr & _ & _ & _ & Hge & Hsame).
  assert (Hmax : srv_generation s' ≤ i64_max).
  { destruct (spec_round_trip (srv_spec s')) as (json & Hj & _).
    unfold ServerRepository_update_spec in Hu. rewrite run_lift, Hj in Hu. cbn [map_err] in Hu.
    rewrite run_lift in Hu.
    destruct (generation_to_i64 (srv_generation s')) as [g|e] eqn:E'; [|done].
    by apply positive_u64_to_i64_ok in E' as (_ & _ & ?). }
  destruct (advanced_writable _ _ _ _ _ Hok0 Hin Hg Hok Hadv Hr Hmax) as (Hw & Hcu & Ec).
  destruct (update_spec_spec db s' (srv_generation s) Hok Hw Hv)
    as (json & b' & d' & Hj & Hu' & Hok' & Hc).
  rewrite Hu in Hu'. injection Hu' as <- <-. destruct Hadv as (Ei & En & Eg & _ & _ & Hna).
  rewrite Ei in Hc. destruct b; (split; [|intros Hb]); try done; [|cbn; by destruct Hc|].
  - destruct Hc as (r0 & Hr0 & Hcond & Edb). rewrite Hr in Hr0. injection Hr0 as <-. inv_res. bz.
    destruct (cas_row _ _ _ _ Hok0 Hin Hg Hr) as (Hn & _ & Hd & Hs & Ha); [done|].
    destruct (spec_round_trip (srv_spec s')) as (json' & Hj' & Hjs & _).
    rewrite Hj in Hj'. injection Hj' as <-. stored_row.
  - destruct Hc as [_ Hf]. intros r0 Hr0. rewrite Hr in Hr0. injection Hr0 as <-.
    specialize (Hf r Hr). destruct (decide (sr_generation r = srv_generation s)) as [Eq|]; [|lia].
    destruct (Hsame Eq) as (Hd & _ & Har). rewrite Eq, Z.eqb_refl, Har, Hna, Hd, Hds in Hf. done.
Qed.

Lemma archive_cas db0 db s now s' b db' :
  db_ok db0 → server_in db0 s → grows db0 db → db_ok db →
  Server_archive s now = (Ok true, s') →
  ServerRepository_archive s' (srv_generation s) db = (Ok b, db') →
  cas_answer s s' db b db' ∧
  (b = true → exists_row (is_active_for_server (uuid_to_string (srv_id s))) (server_instances db)
     = false).
Proof.
  intros Hok0 Hin Hg Hok E Hu.
  assert (Hadv : advanced s s' ∧ srv_desired_state s = DS.Stopped ∧
    srv_desired_state s' = DS.Stopped ∧ srv_spec s' = srv_spec s ∧
    srv_archived_at s' = Some (srv_updated_at s')).
  { apply archive_cases in E as [(_ & ? & _)|[(_ & _ & ? & _)|[(_ & _ & _ & ? & _)|
      (Ha & Hd & _ & _ & ->)]]]; try done. unfold advanced. cbn. split_and!; try done; lia. }
  destruct Hadv as (Hadv & Hds & Ed & Es & Ea).
  destruct (server_in_later _ _ _ Hok0 Hin Hg) as (r & Hr & _ & _ & _ & Hge & Hsame).
  assert (Hmax : srv_generation s' ≤ i64_max).
  { unfold ServerRepository_archive in Hu. rewrite run_lift, Ea in Hu. cbn [ok_or] in Hu.
    rewrite run_lift in Hu.
    destruct (generation_to_i64 (srv_generation s')) as [g|e] eqn:E'; [|done].
    by apply positive_u64_to_i64_ok in E' as (_ & _ & ?). }
  destruct (advanced_writable _ _ _ _ _ Hok0 Hin Hg Hok Hadv Hr Hmax) as (Hw & Hcu & Ec).
  pose proof Hadv as (Ei & En & Eg & _ & _ & Hna).
  destruct (archive_spec db s' (srv_generation s) _ Hok Hw Ea) as (b' & d' & Hu' & Hok' & Hc).
  { rewrite Ei. intros r0 Hr0. rewrite Hr in Hr0. injection Hr0 as <-. lia. }
  rewrite Hu in Hu'. injection Hu' as <- <-. rewrite Ei in Hc.
  destruct b; [|by split; [destruct Hc|]].
  destruct Hc as (r0 & Hr0 & Hcond & Edb). rewrite Hr in Hr0. injection Hr0 as <-. inv_res. bz.
  destruct (cas_row _ _ _ _ Hok0 Hin Hg Hr) as (Hn & _ & Hd & Hs & Ha); [done|].
  split; [stored_row|]. intros _. done.
Qed.

(** ** The writes are transitions *)

Lemma safe_update_spec db0 s spec now s' :
  db_ok db0 → server_in db0 s → Server_update_spec s spec now = (Ok true, s') →
  repo_safe db0 (ServerRepository_update_spec s' (srv_generation s)).
Proof.
  intros Hok0 Hin E db Hok Hg.
  assert (Hadv : advanced s s' ∧ ServerSpec_validate (srv_spec s') = Ok tt).
  { apply update_spec_cases in E as [(e & _ & ? & _)|(Hv & [(_ & ? & _)|[(_ & _ & ? & _)|
      [(_ & _ & _ & ? & _)|[(_ & _ & _ & _ & ? & _)|(Ha & _ & Hd & _ & _ & ->)]]]])]; try done.
    unfold advanced. cbn. split_and!; try done; lia. }
  destruct Hadv as [Hadv Hv].
  destruct (server_in_later _ _ _ Hok0 Hin Hg) as (r & Hr & _).
  destruct (decide (srv_generation s' ≤ i64_max)) as [Hmax|Hgt].
  - destruct (advanced_writable _ _ _ _ _ Hok0 Hin Hg Hok Hadv Hr Hmax) as (Hw & _).
    apply rtc_once. exists (WUpdateSpec s' (srv_generation s)). split.
    + destruct Hadv as (_ & _ & ? & _). split_and!; [done|lia|done].
    + cbn [run_write]. unfold outcome.
      by destruct (ServerRepository_update_spec s' _ db) as [[] ?].
  - destruct (spec_round_trip (srv_spec s')) as (json & Hj & _).
    unfold ServerRepository_update_spec. rewrite run_lift, Hj. cbn [map_err]. rewrite run_lift.
    destruct (generation_to_i64 (srv_generation s')) as [g|e] eqn:E'; [|reflexivity].
    apply positive_u64_to_i64_ok in E' as (_ & _ & ?). lia.
Qed.

Lemma safe_archive db0 s now s' :
  db_ok db0 → server_in db0 s → Server_archive s now = (Ok true, s') →
  repo_safe db0 (ServerRepository_archive s' (srv_generation s)).
Proof.
  intros Hok0 Hin E db Hok Hg.
  assert (Hadv : advanced s s' ∧ srv_archived_at s' = Some (srv_updated_at s')).
  { apply archive_cases in E as [(_ & ? & _)|[(_ & _ & ? & _)|[(_ & _ & _ & ? & _)|
      (Ha & Hd & _ & _ & ->)]]]; try done. unfold advanced. cbn. split_and!; try done; lia. }
  destruct Hadv as [Hadv Ha].
  destruct (server_in_later _ _ _ Hok0 Hin Hg) as (r & Hr & _).
  destruct (decide (srv_generation s' ≤ i64_max)) as [Hmax|Hgt].
  - destruct (advanced_writable _ _ _ _ _ Hok0 Hin Hg Hok Hadv Hr Hmax) as (Hw & Hcu & Ec).
    apply rtc_once. exists (WArchive s' (srv_generation s)). split.
    + destruct Hadv as (Ei & _ & ? & _). split_and!; [done|lia|].
      exists (srv_updated_at s'). split; [done|]. rewrite Ei. intros r0 Hr0.
      rewrite Hr in Hr0. injection Hr0 as <-. lia.
    + cbn [run_write]. unfold outcome. by destruct (ServerRepository_archive s' _ db) as [[] ?].
  - unfold ServerRepository_archive. rewrite run_lift, Ha. cbn [ok_or]. rewrite run_lift.
    destruct (generation_to_i64 (srv_generation s')) as [g|e] eqn:E'; [|reflexivity].
    apply positive_u64_to_i64_ok in E' as (_ & _ & ?). lia.
Qed.

Lemma Server_new_fields id name spec now s :
  Server_new id name spec now = Ok s →
  srv_name s = name ∧ srv_current_snapshot_id s = None ∧ srv_generation s = 1 ∧
  srv_spec s = spec ∧ srv_desired_state s = DS.Stopped ∧ srv_archived_at s = None.
Proof. unfold Server_new. intros E. inv_res. done. Qed.

Lemma safe_create_server db0 s :
  Server_wf s → srv_current_snapshot_id s = None → srv_generation s = 1 →
  repo_safe db0 (ServerRepository_create s).
Proof.
  intros Hwf Hs Hg db Hok _. apply rtc_once. exists (WCreateServer s). split.
  - split_and!; [done|done|rewrite Hg; by vm_compute].
  - cbn [run_write]. unfold outcome. by destruct (ServerRepository_create s db) as [[] ?].
Qed.

(** A server that was just created is stored. *)
Lemma create_stored db s db' :
  db_ok db → Server_wf s → srv_current_snapshot_id s = None → srv_generation s = 1 →
  ServerRepository_create s db = (Ok tt, db') → ∃ s1, server_in db' s1 ∧ same_but_snapshot s s1.
Proof.
  intros Hok Hwf Hs Hg E.
  destruct (create_server_spec db s Hok Hwf Hs) as (json & Hj & [[E' _]|(E' & _ & _ & Hok')]);
    [rewrite Hg; by vm_compute|rewrite E in E'; done|].
  rewrite E in E'. injection E' as ->.
  destruct (spec_round_trip (srv_spec s)) as (json' & Hj' & Hjs & _).
  rewrite Hj in Hj'. injection Hj' as <-.
  eapply (server_of_row _ s _ Hok'); [cbn; by rewrite lookup_insert, decide_True|..]; done.
Qed.

(** ** Executions *)

Variable env : Database → Database → Prop.
Hypothesis env_step : ∀ d d', env d d' → db_step d d'.

(** A write followed by the rest of a request. *)
Lemma exec_write_inv {A E B} db0 (conv : RepositoryError → E) (m : repo A)
    (k : A → prog (result E B)) db evs db' r :
  repo_safe db0 m → db_ok db → grows db0 db →
  exec env db (try_bind conv (perform (Repo m)) k) evs db' r →
  ∃ db1 db2, rtc db_step db db1 ∧ rtc db_step db1 db2 ∧
    ((∃ e, r = Err (conv e) ∧ db' = db2) ∨
     (∃ a evs', m db1 = (Ok a, db2) ∧ exec env db2 (k a) evs' db' r)).
Proof.
  intros Hm Hok Hg (x & db1 & db2 & evs' & Hst%(env_steps env env_step) & Ha & He & ->)%exec_inv.
  destruct (steps_safe _ _ Hok Hst) as [Hok1 Hg1].
  assert (Hst2 : rtc db_step db1 db2).
  { eapply (answer_safe db0 _ (Repo m)); [exact Ha|exact Hm|done|by transitivity db]. }
  exists db1, db2. split; [done|]. split; [done|].
  destruct x as [a|e]; cbn in He.
  - right. exists a, evs'. split; [|done].
    by destruct (answer_inv _ _ _ _ Ha) as [?|(e & ? & _)].
  - left. apply exec_inv in He as (-> & -> & ->). eauto.
Qed.

Lemma answer_world_inv {X} (o : op X) x db db' :
  is_repo o = false → answer db o x db' → db' = db.
Proof. intros Ho Ha. destruct Ha; done. Qed.

(** An operation that is not on the database, with [?]. *)
Lemma exec_world_inv {A E F B} (conv : E → F) (o : op (result E A))
    (k : A → prog (result F B)) db evs db' r :
  is_repo o = false →
  exec env db (try_bind conv (perform o) k) evs db' r →
  ∃ db1, rtc db_step db db1 ∧
    ((∃ e, r = Err (conv e) ∧ db' = db1) ∨
     (∃ a evs', valid_answer o (Ok a) ∧ exec env db1 (k a) evs' db' r)).
Proof.
  intros Ho (x & db1 & db2 & evs' & Hst%(env_steps env env_step) & Ha & He & ->)%exec_inv.
  pose proof (answer_valid _ _ _ _ Ha) as Hv. apply (answer_world_inv _ _ _ _ Ho) in Ha as ->.
  exists db1. split; [done|]. destruct x as [a|e]; cbn in He; [right; eauto|].
  left. apply exec_inv in He as (-> & -> & ->). eauto.
Qed.

Lemma exec_plain_inv {A B} (o : op A) (k : A → prog B) db evs db' r :
  is_repo o = false → exec env db (prog_bind (perform o) k) evs db' r →
  ∃ db1 a evs', rtc db_step db db1 ∧ exec env db1 (k a) evs' db' r.
Proof.
  intros Ho (x & db1 & db2 & evs' & Hst%(env_steps env env_step) & Ha & He & ->)%exec_inv.
  apply (answer_world_inv _ _ _ _ Ho) in Ha as ->.
  exists db1, x, evs'. done.
Qed.

(** A value with [?]. *)
Lemma exec_value_inv {A E F B} (conv : E → F) (v : result E A)
    (k : A → prog (result F B)) db evs db' r :
  exec env db (try_bind conv (Ret v) k) evs db' r →
  (∃ e, v = Err e ∧ r = Err (conv e) ∧ db' = db) ∨
  (∃ a, v = Ok a ∧ exec env db (k a) evs db' r).
Proof.
  destruct v as [a|e]; cbn; intros He; [right; eauto|left].
  apply exec_inv in He as (-> & -> & ->). eauto.
Qed.
End facts.
