(* ===== verification/ApplicationProperties.v ===== *)
(** What a client may rely on when it asks the control plane to change a
    server. *)
From Stdlib Require Import Ascii.
From S2P Require Import Prelude Text Programs Server ServerFacts Instances InstanceFacts Database.
From S2P Require Import RowFacts.
From S2P Require Import Repositories ComputeRepository Invariant RepositoryFacts LifecycleFacts.
From S2P Require Import ComputeFacts Persistence Effects Semantics LocalCompute AkamaiCompute.
From S2P Require Import Reconciliation ManagerFacts ReconcileFacts PassFacts Application.
From S2P Require Import ApplicationFacts World Codecs PersistenceProperties.
#[local] Open Scope string_scope.
#[local] Open Scope Z_scope.

Section requests.
Context `{CodecLaws}.
Variable env : Database → Database → Prop.
Hypothesis env_step : ∀ d d', env d d' → db_step d d'.
Variable r2_base : option string.

(** The errors of a request that concern generations. *)
Definition conflict_ok (expected : option Z) (e : ApplicationError) : Prop :=
  match e with
  | APE.ConcurrentUpdate => expected = None
  | APE.GenerationConflict e actual => e = expected ∧ ∃ g, expected = Some g ∧ actual ≠ g
  | _ => True
  end.

(** The generation of an answer: the expected one, or the next. *)
Definition generation_ok (expected : option Z) (s : Server) : Prop :=
  ∀ g, expected = Some g → srv_generation s = g ∨ srv_generation s = g + 1.

(** How a request ends: [P] of a server that was stored meanwhile, or an error. *)
Definition request_ok (expected : option Z) (P : Server → Prop) (db db' : Database)
    (r : result ApplicationError Server) : Prop :=
  rtc db_step db db' ∧
  match r with
  | Ok s => P s ∧ served db db' s ∧ generation_ok expected s
  | Err e => conflict_ok expected e
  end.

Lemma request_ok_later expected P db0 db db' r :
  rtc db_step db0 db → request_ok expected P db db' r → request_ok expected P db0 db' r.
Proof.
  intros Hs [Hst Hr]. split; [by transitivity db|]. destruct r as [s|e]; [|done].
  destruct Hr as (? & ? & ?). split_and!; [done| |done].
  eapply served_app; [exact Hs|reflexivity|done].
Qed.

(** The generation check at the start of an attempt. *)
Lemma mismatch_conflict expected actual :
  generation_mismatch expected actual = true →
  conflict_ok expected (APE.GenerationConflict expected actual).
Proof.
  unfold generation_mismatch. destruct expected as [g|]; [|done]. cbn. intros Hb.
  split; [done|]. exists g. split; [done|]. apply negb_true_iff in Hb. bz. lia.
Qed.

Lemma match_generation expected s s' :
  generation_mismatch expected (srv_generation s) = false →
  srv_generation s' = srv_generation s ∨ srv_generation s' = srv_generation s + 1 →
  generation_ok expected s'.
Proof.
  unfold generation_mismatch. intros Hm Hg g ->. cbn in Hm. apply negb_false_iff in Hm. bz. lia.
Qed.

(** Reading the conflicting generation by name after a lost race. *)
Lemma conflict_by_name expected db0 s r0 db evs db' r :
  db_ok db0 → server_in db0 s → db_ok db → grows db0 db →
  servers db !! uuid_to_string (srv_id s) = Some r0 → srv_generation s < sr_generation r0 →
  expected = Some (srv_generation s) →
  exec env db (try_bind id (ServerService_get_by_name (srv_name s))
    (λ actual, Ret (Err (APE.GenerationConflict expected (srv_generation actual)))))
    evs db' r →
  rtc db_step db db' ∧ ∃ e, (r : result ApplicationError Server) = Err e ∧ conflict_ok expected e.
Proof.
  intros Hok0 Hin Hok Hg Hr0 Hlt -> He.
  apply exec_try_inv in He as [(e & He & ->)|(evs1 & evs2 & db1 & a & He & He2 & ->)].
  - apply exec_value_inv in He as [(e' & _ & [= ->] & ->)|(name & Hname & He)].
    { split; [reflexivity|]. by eexists. }
    apply exec_read_inv in He as (db1 & x & evs1 & Hok1 & Hg1 & Hst1 & _ & He); [|done..].
    apply (env_steps env env_step) in Hst1.
    destruct He as [(e' & _ & [= ->] & _ & ->)|(found & _ & _ & He)]; [split; [done|]; by eexists|].
    apply exec_inv in He as (_ & -> & He). split; [done|].
    destruct found; cbn in He; [done|]. injection He as ->. by eexists.
  - apply exec_inv in He2 as (_ & -> & ->).
    apply exec_value_inv in He as [(e' & _ & ? & _)|(name & Hname & He)]; [done|].
    apply ServerName_new_value in Hname as ->.
    apply exec_read_inv in He as (db2 & x & evs3 & Hok2 & Hg2 & Hst2 & _ & He); [|done..].
    apply (env_steps env env_step) in Hst2.
    destruct He as [(e' & _ & ? & _)|([s2|] & _ & Hread & He)]; [done| |];
      apply exec_inv in He as (_ & -> & He); cbn in He; [|done]. injection He as ->.
    destruct (get_by_name_read _ _ _ _ Hok2 Hread) as (_ & Hn & Hin2).
    destruct (same_name_later db0 db2 s s2) as (_ & _ & Hgen); try done; [by transitivity db|].
    destruct (gr_servers _ _ Hg2 _ _ Hr0) as (r2 & Hr2 & _ & _ & Hle & _).
    specialize (Hgen _ Hr2). split; [done|]. eexists. split; [reflexivity|]. split; [done|].
    exists (srv_generation s). split; [done|]. lia.
Qed.

(** An answer that is the server as it was read. *)
Lemma served_read db db1 s : rtc db_step db db1 → server_in db1 s → served db db1 s.
Proof. intros Hst Hin. exists db1, s. by split_and!. Qed.

(** The server a compare-and-swap stored. *)
Lemma served_stored db db2 db' s' :
  rtc db_step db db2 → rtc db_step db2 db' →
  (∃ s1, server_in db2 s1 ∧ same_but_snapshot s' s1) → served db db' s'.
Proof. intros H1 H2 (s1 & Hin & Hsame). by exists db2, s1. Qed.

Lemma steps_three a b c d :
  rtc db_step a b → rtc db_step b c → rtc db_step c d → rtc db_step a d.
Proof. intros H1 H2 H3. etransitivity; [exact H1|]. by etransitivity. Qed.

(** ** [set_desired_state] *)

Definition desired_as (name : string) (d : DesiredState) (s : Server) : Prop :=
  srv_name s = name ∧ srv_desired_state s = d ∧ srv_archived_at s = None.

(** The start of an attempt: the server is read and its generation compared. *)
Lemma attempt_read expected name db evs db' r (k : Server → prog (result ApplicationError Server)) :
  db_ok db →
  exec env db (try_bind APE.Repository (perform (Repo (ServerRepository_get_by_name name)))
    (λ found, try_bind id (Ret (ok_or APE.NotFound found)) (λ server,
       if generation_mismatch expected (srv_generation server)
       then Ret (Err (APE.GenerationConflict expected (srv_generation server)))
       else k server))) evs db' r →
  (rtc db_step db db' ∧ ∃ e, r = Err e ∧ conflict_ok expected e) ∨
  (∃ db1 s evs', rtc db_step db db1 ∧ db_ok db1 ∧ server_in db1 s ∧ srv_name s = name ∧
     generation_mismatch expected (srv_generation s) = false ∧ exec env db1 (k s) evs' db' r).
Proof.
  intros Hok He.
  apply exec_read_inv in He as (db1 & x & evs1 & Hok1 & _ & Hst & _ & He); [|done..].
  apply (env_steps env env_step) in Hst.
  destruct He as [(e & _ & -> & _ & ->)|(found & _ & Hread & He)]; [left; by split; [|eexists]|].
  apply exec_value_inv in He as [(e & Hf & -> & ->)|(s & Hf & He)].
  { left. split; [done|]. destruct found; [done|]. injection Hf as <-. by eexists. }
  destruct found as [s0|]; [|done]. injection Hf as ->.
  destruct (get_by_name_read _ _ _ _ Hok1 Hread) as (_ & Hn & Hin).
  destruct (generation_mismatch expected (srv_generation s)) eqn:Hm.
  { left. apply exec_inv in He as (_ & -> & ->). split; [done|]. eexists.
    split; [reflexivity|]. by apply mismatch_conflict. }
  right. exists db1, s, evs1. done.
Qed.

Lemma matched_generation g n : generation_mismatch (Some g) n = false → g = n.
Proof. unfold generation_mismatch. cbn. intros Hm%negb_false_iff. bz. done. Qed.

(** What a change of the desired state leaves. *)
Lemma set_desired_state_result s d now changed s' :
  Server_set_desired_state s d now = (Ok changed, s') → desired_as (srv_name s) d s' ∧
  if changed then srv_generation s' = srv_generation s + 1 else s' = s.
Proof.
  intros [(_ & ? & _)|[(Ha & Hd & [= ->] & ->)|[(_ & _ & _ & ? & _)|(Ha & _ & _ & [= ->] & ->)]]]%set_desired_state_cases;
    done.
Qed.

Lemma set_desired_state_attempts_ok n name d expected db evs db' r :
  (n = 0%nat → expected = None) → db_ok db →
  exec env db (set_desired_state_attempts n name d expected) evs db' r →
  request_ok expected (desired_as name d) db db' r.
Proof.
  revert db evs. induction n as [|n IH]; intros db evs Hn Hok He;
    cbn [set_desired_state_attempts] in He.
  { apply exec_inv in He as (_ & -> & ->). split; [reflexivity|]. by apply Hn. }
  apply attempt_read in He as [[Hst (e & -> & ?)]|(db1 & s & evs1 & Hst1 & Hok1 & Hin & <- & Hm & He)];
    [by split|..|done].
  apply (request_ok_later _ _ _ db1); [done|]. clear db evs Hok Hst1.
  apply exec_world_inv in He as (db2 & Hst2 & [(e & -> & ->)|(now & evs2 & Hnow & He)]);
    [by split|..|done|done].
  destruct (Server_set_desired_state s d now) as [tr s'] eqn:Etr.
  apply exec_value_inv in He as [(e & -> & -> & ->)|(changed & -> & He)]; [by split|].
  destruct (steps_safe _ _ Hok1 Hst2) as [Hok2 Hg2].
  destruct (set_desired_state_result _ _ _ _ _ Etr) as [Hdes Hgen]. destruct changed.
  2: { subst s'. apply exec_inv in He as (_ & -> & ->). split; [done|].
       split_and!; [done| |exact (match_generation _ s _ Hm (or_introl eq_refl))].
       eapply served_app; [reflexivity|exact Hst2|by apply served_read]. }
  apply (exec_write_inv env env_step db1) in He
    as (db3 & db4 & Hst3 & Hst4 & [(e & -> & ->)|(stored & evs3 & Hw & He)]);
    [split; [exact (steps_three _ _ _ _ Hst2 Hst3 Hst4)|done]| |by eapply safe_set_desired_state|done|done].
  destruct (steps_safe _ _ Hok2 Hst3) as [Hok3 Hg3].
  assert (Hg13 : grows db1 db3) by (by transitivity db2).
  pose proof (steps_three _ _ _ _ Hst2 Hst3 Hst4) as H14.
  destruct (update_desired_state_cas _ _ _ _ _ _ _ _ Hok1 Hin Hg13 Hok3 Etr Hw) as [Hans Hlost].
  destruct stored.
  { apply exec_plain_inv in He as (db5 & u & evs4 & Hst5 & He); [|done|done].
    apply exec_inv in He as (_ & -> & ->). split; [by transitivity db4|].
    split_and!; [done|exact (served_stored _ _ _ _ H14 Hst5 Hans)|exact (match_generation _ s _ Hm (or_intror Hgen))]. }
  cbn in Hans. subst db4.
  destruct (is_some expected) eqn:Hex.
  - destruct (server_in_later _ _ _ Hok1 Hin Hg13) as (r0 & Hr0 & _).
    destruct expected as [g|]; [|done].
    apply matched_generation in Hm as ->.
    eapply (conflict_by_name _ db1 s r0) in He as (Hst5 & e & -> & Hc); try done.
    + split; [by transitivity db3|done].
    + by apply Hlost.
  - destruct expected; [done|]. eapply request_ok_later; [exact H14|]. by eapply IH.
Qed.

(** ** [archive] *)

Definition archived_as (name : string) (s : Server) : Prop :=
  srv_name s = name ∧ is_Some (srv_archived_at s).

(** How an archive request ends. *)
Definition archive_ok (expected : option Z) (name : string) (db db' : Database)
    (r : result ApplicationError Server) : Prop :=
  rtc db_step db db' ∧
  match r with
  | Ok s => archived_as name s ∧ served db db' s ∧ generation_ok expected s
  | Err APE.ConcurrentUpdate => expected = None
  | Err (APE.GenerationConflict e _) => e = expected ∧ is_Some expected
  | Err _ => True
  end.

Lemma archive_ok_later expected name db0 db db' r :
  rtc db_step db0 db → archive_ok expected name db db' r → archive_ok expected name db0 db' r.
Proof.
  intros Hs [Hst Hr]. split; [by transitivity db|]. destruct r as [s|e]; [|done].
  destruct Hr as (? & ? & ?). split_and!; [done| |done].
  eapply served_app; [exact Hs|reflexivity|done].
Qed.

Lemma conflict_archive expected name db db' e :
  rtc db_step db db' → conflict_ok expected e → archive_ok expected name db db' (Err e).
Proof.
  intros Hst He. split; [done|]. destruct e; try done. destruct He as (-> & g & -> & _). eauto.
Qed.

Lemma archive_conflict_read expected name db evs db' r :
  db_ok db → is_Some expected →
  exec env db (try_bind id (ServerService_get_by_name name)
    (λ actual, Ret (Err (APE.GenerationConflict expected (srv_generation actual)))))
    evs db' r → archive_ok expected name db db' r.
Proof.
  intros Hok Hex He.
  assert (Hget : ∀ evs db' r, exec env db (ServerService_get_by_name name) evs db' r →
    rtc db_step db db' ∧ match r with
      | Err APE.ConcurrentUpdate | Err (APE.GenerationConflict _ _) => False | _ => True end).
  { clear evs db' r He. intros evs db' r He.
    apply exec_value_inv in He as [(e & _ & -> & ->)|(n & _ & He)]; [done|].
    apply exec_read_inv in He as (db1 & x & evs1 & _ & _ & Hst & _ & He); [|done..].
    apply (env_steps env env_step) in Hst.
    destruct He as [(e & _ & -> & _ & ->)|(found & _ & _ & He)]; [done|].
    apply exec_inv in He as (_ & -> & ->). split; [done|]. by destruct found. }
  apply exec_try_inv in He as [(e & He & ->)|(evs1 & evs2 & db1 & a & He & He2 & ->)].
  - apply Hget in He as [? He]. split; [done|]. by destruct e.
  - apply exec_inv in He2 as (_ & -> & ->). by apply Hget in He as [? _].
Qed.

Lemma archive_attempts_ok n name expected db evs db' r :
  (n = 0%nat → expected = None) → db_ok db →
  exec env db (archive_attempts n name expected) evs db' r → archive_ok expected name db db' r.
Proof.
  revert db evs. induction n as [|n IH]; intros db evs Hn Hok He; cbn [archive_attempts] in He.
  { apply exec_inv in He as (_ & -> & ->). split; [reflexivity|]. by apply Hn. }
  apply attempt_read in He as [[Hst (e & -> & ?)]|(db1 & s & evs1 & Hst1 & Hok1 & Hin & <- & Hm & He)];
    [by apply conflict_archive|..|done].
  apply (archive_ok_later _ _ _ db1); [done|]. clear db evs Hok Hst1.
  destruct (is_some (srv_archived_at s)) eqn:Har.
  { apply exec_inv in He as (_ & -> & ->). split; [reflexivity|].
    split_and!; [by split; [|apply is_some_true]|by apply served_read|].
    exact (match_generation _ s _ Hm (or_introl eq_refl)). }
  apply exec_read_inv in He as (dba & x & evsa & Hoka & Hga & Hsta & _ & He); [|done..].
  apply (env_steps env env_step) in Hsta.
  destruct He as [(e & _ & -> & _ & ->)|(act & _ & _ & He)]; [by split|].
  destruct act; [by apply exec_inv in He as (_ & -> & ->)|].
  apply exec_world_inv in He as (db2 & Hst2 & [(e & -> & ->)|(now & evs2 & Hnow & He)]);
    [split; [by transitivity dba|done]|..|done|done].
  destruct (Server_archive s now) as [tr s'] eqn:Etr.
  assert (H12 : rtc db_step db1 db2) by (by transitivity dba).
  apply exec_value_inv in He as [(e & -> & -> & ->)|(changed & -> & He)]; [by split|].
  destruct (steps_safe _ _ Hok1 H12) as [Hok2 Hg2].
  assert (Hs' : changed = true ∧ archived_as (srv_name s) s' ∧
    srv_generation s' = srv_generation s + 1).
  { apply archive_cases in Etr as [([t Ht] & _)|[(_ & _ & ? & _)|[(_ & _ & _ & ? & _)|
      (_ & _ & _ & [= ->] & ->)]]]; try done; rewrite Ht in Har; done. }
  destruct Hs' as (-> & Harch & Hgen).
  apply (exec_write_inv env env_step db1) in He
    as (db3 & db4 & Hst3 & Hst4 & [(e & -> & ->)|(stored & evs3 & Hw & He)]);
    [split; [exact (steps_three _ _ _ _ H12 Hst3 Hst4)|done]| |by eapply safe_archive|done|done].
  destruct (steps_safe _ _ Hok2 Hst3) as [Hok3 Hg3].
  assert (Hg13 : grows db1 db3) by (by transitivity db2).
  pose proof (steps_three _ _ _ _ H12 Hst3 Hst4) as H14.
  destruct (archive_cas _ _ _ _ _ _ _ Hok1 Hin Hg13 Hok3 Etr Hw) as [Hans _].
  destruct stored.
  { apply exec_inv in He as (_ & -> & ->). split; [done|].
    split_and!; [done|exact (served_stored _ _ _ _ H14 (reflexivity _) Hans)|].
    exact (match_generation _ s _ Hm (or_intror Hgen)). }
  destruct (steps_safe _ _ Hok1 H14) as [Hok4 _]. apply (archive_ok_later _ _ _ db4); [done|].
  destruct (is_some expected) eqn:Hex.
  - eapply archive_conflict_read; [exact Hok4|by apply is_some_true|exact He].
  - destruct expected; [done|]. by eapply IH.
Qed.

(** ** [create] and [apply] *)

Definition specified_as (name : string) (desired : DesiredServerSpec) (s : Server) : Prop :=
  srv_name s = name ∧ srv_archived_at s = None ∧ spec_compute (srv_spec s) = desired_compute desired ∧
  spec_process (srv_spec s) = desired_process desired ∧ ServerSpec_validate (srv_spec s) = Ok tt.

(** The data is of the backend asked for and, when it is local, in the repository asked
    for. *)
Definition data_as (desired : DesiredServerSpec) (data : DataSpec) : Prop :=
  match desired_data desired with
  | DDS.LocalRestic repo => backend data = DB.LocalRestic ∧ repository data = repo
  | DDS.R2Restic => backend data = DB.R2Restic
  end.
(** The server is new, with the repository that the service gives; or a database after
    [db0] had it with the same data, at this generation or the one before. *)
Definition data_kept (db0 : Database) (s : Server) : Prop :=
  ∃ dbm before, rtc db_step db0 dbm ∧ server_in dbm before ∧ srv_id before = srv_id s ∧
    spec_data (srv_spec before) = spec_data (srv_spec s) ∧
    (srv_generation s = srv_generation before ∨ srv_generation s = srv_generation before + 1).
Definition data_given (db0 : Database) (name : string) (s : Server) : Prop :=
  (srv_generation s = 1 ∧ (backend (spec_data (srv_spec s)) = DB.R2Restic →
     ServerService_r2_repository r2_base name = Some (repository (spec_data (srv_spec s))))) ∨
  data_kept db0 s.

Lemma resolve_new desired r2 spec :
  DesiredServerSpec_resolve desired None r2 = Ok spec →
  data_as desired (spec_data spec) ∧
  (backend (spec_data spec) = DB.R2Restic → r2 = Some (repository (spec_data spec))).
Proof.
  unfold DesiredServerSpec_resolve, data_as. intros Hr. destruct (desired_data desired); inv_res; done.
Qed.
Lemma resolve_keeps_data desired data r2 spec :
  DesiredServerSpec_resolve desired (Some data) r2 = Ok spec →
  data_as desired (spec_data spec) ∧ spec_data spec = data.
Proof.
  unfold DesiredServerSpec_resolve, data_as. intros Hr. destruct (desired_data desired) as [repo|].
  - case_bool_decide as Hb; [done|].
    destruct (String.eqb_spec (repository data) repo); cbn [negb] in Hr; inv_res; done.
  - apply bind_ok in Hr as (d & Hd & Hr). case_bool_decide as Hb; [|done]. injection Hd as <-.
    inv_res. split; [done|]. by destruct data; cbn in *; subst.
Qed.

(** What a server that [apply] returns is. *)
Definition applied_as (db0 : Database) (name : string) (desired : DesiredServerSpec) (s : Server) : Prop :=
  specified_as name desired s ∧ data_as desired (spec_data (srv_spec s)) ∧ data_given db0 name s.

Lemma resolve_specified desired existing r2 spec :
  DesiredServerSpec_resolve desired existing r2 = Ok spec →
  spec_compute spec = desired_compute desired ∧ spec_process spec = desired_process desired ∧
  ServerSpec_validate spec = Ok tt.
Proof. unfold DesiredServerSpec_resolve. intros E. inv_res; by split_and!. Qed.

Lemma update_spec_specified desired db0 db r2 s spec now changed s' :
  DesiredServerSpec_resolve desired (Some (spec_data (srv_spec s))) r2 = Ok spec →
  rtc db_step db0 db → server_in db s → Server_update_spec s spec now = (Ok changed, s') →
  applied_as db0 (srv_name s) desired s' ∧ srv_id s' = srv_id s ∧
  if changed then srv_generation s' = srv_generation s + 1 else s' = s.
Proof.
  intros Hr Hst Hin Etr. destruct (resolve_keeps_data _ _ _ _ Hr) as [Hd Hk].
  apply resolve_specified in Hr as (Hc & Hp & Hv).
  assert (specified_as (srv_name s) desired s' ∧ srv_spec s' = spec ∧ srv_id s' = srv_id s ∧
    if changed then srv_generation s' = srv_generation s + 1 else s' = s) as (Hs & Hspec & Hid & Hg).
  2:{ split_and!; [|done|done]. split; [done|]. rewrite Hspec. split; [done|]. right.
      exists db, s. rewrite Hspec. split_and!; try done. destruct changed; [by right|subst s'; by left]. }
  apply update_spec_cases in Etr as [(e & _ & ? & _)|(_ & [(_ & ? & _)|[(Ha & Hsp & [= ->] & ->)|
    [(_ & _ & _ & ? & _)|[(_ & _ & _ & _ & ? & _)|(Ha & _ & _ & _ & [= ->] & ->)]]]])]; try done.
  unfold specified_as. by rewrite Hsp.
Qed.

Lemma create_ok db0 name desired db evs db' r :
  db_ok db → exec env db (ServerService_create r2_base name desired) evs db' r →
  request_ok None (applied_as db0 name desired) db db' r.
Proof.
  intros Hok He.
  apply exec_world_inv in He as (db1 & Hst1 & [(e & -> & ->)|(now & evs1 & Hnow & He)]);
    [by split|..|done|done].
  apply (request_ok_later _ _ _ db1); [done|]. destruct (steps_safe _ _ Hok Hst1) as [Hok1 _].
  clear db evs Hok Hst1.
  apply exec_value_inv in He as [(e & _ & -> & ->)|(n & Hname & He)]; [by split|].
  apply exec_plain_inv in He as (db2 & id & evs2 & Hst2 & He); [|done|done].
  apply (request_ok_later _ _ _ db2); [done|]. destruct (steps_safe _ _ Hok1 Hst2) as [Hok2 _].
  clear db1 evs1 Hok1 Hst2.
  apply exec_value_inv in He as [(e & _ & -> & ->)|(spec & Hspec & He)]; [by split|].
  apply exec_value_inv in He as [(e & _ & -> & ->)|(s & Hs & He)]; [by split|].
  pose proof (Server_new_fields _ _ _ _ _ Hs) as (En & Esn & Eg & Es & _ & Ea).
  assert (Hwf : Server_wf s).
  { eapply Server_new_wf; [|exact Hnow|exact Hs]. apply ServerName_new_ok.
    by pose proof (ServerName_new_value _ _ Hname) as ->. }
  apply (exec_write_inv env env_step db2) in He
    as (db3 & db4 & Hst3 & Hst4 & [(e & -> & ->)|([] & evs3 & Hw & He)]);
    [split; [by transitivity db3|done]| |by apply safe_create_server|done|done].
  destruct (steps_safe _ _ Hok2 Hst3) as [Hok3 _].
  apply exec_plain_inv in He as (db5 & u & evs4 & Hst5 & He); [|done|done].
  apply exec_inv in He as (_ & -> & ->).
  split; [exact (steps_three _ _ _ _ Hst3 Hst4 Hst5)|]. split_and!; [| |done].
  - destruct (resolve_specified _ _ _ _ Hspec) as (? & ? & ?), (resolve_new _ _ _ Hspec) as [? Hd].
    apply ServerName_new_value in Hname as ->. unfold applied_as, specified_as, data_given.
    rewrite Es, En. split_and!; try done. by left.
  - apply (served_stored _ db4); [by transitivity db3|done|].
    by eapply (create_stored db3).
Qed.

(** Reading the conflicting generation by id after a lost race. *)
Lemma conflict_by_id expected db0 s r0 db evs db' r :
  db_ok db0 → server_in db0 s → db_ok db → grows db0 db →
  servers db !! uuid_to_string (srv_id s) = Some r0 → srv_generation s < sr_generation r0 →
  expected = Some (srv_generation s) →
  exec env db (try_bind id (ServerService_get (srv_id s))
    (λ actual, Ret (Err (APE.GenerationConflict expected (srv_generation actual)))))
    evs db' r →
  rtc db_step db db' ∧ ∃ e, (r : result ApplicationError Server) = Err e ∧ conflict_ok expected e.
Proof.
  intros Hok0 Hin Hok Hg Hr0 Hlt -> He.
  apply exec_try_inv in He as [(e & He & ->)|(evs1 & evs2 & db1 & a & He & He2 & ->)];
    [|apply exec_inv in He2 as (_ & -> & ->)];
    (apply exec_read_inv in He as (db2 & x & evs3 & Hok2 & Hg2 & Hst2 & _ & He); [|done..]);
    apply (env_steps env env_step) in Hst2.
  - destruct He as [(e' & _ & [= ->] & _ & ->)|(found & _ & _ & He)]; [split; [done|]; by eexists|].
    apply exec_inv in He as (_ & -> & He). split; [done|].
    destruct found; cbn in He; [done|]. injection He as ->. by eexists.
  - destruct He as [(e' & _ & ? & _)|([s2|] & _ & Hread & He)]; [done| |];
      apply exec_inv in He as (_ & -> & He); cbn in He; [|done]. injection He as ->.
    destruct (get_server_read _ _ _ _ Hok2 Hread) as (_ & Hid & Hin2).
    destruct (gr_servers _ _ Hg2 _ _ Hr0) as (r2 & Hr2 & _ & _ & Hle & _).
    destruct (server_in_row _ _ Hok2 Hin2) as (r3 & Hr3 & _ & Eg & _).
    rewrite Hid, Hr2 in Hr3. injection Hr3 as <-.
    split; [done|]. eexists. split; [reflexivity|]. split; [done|].
    exists (srv_generation s). split; [done|]. lia.
Qed.

Lemma apply_attempts_ok db0 n name desired expected db evs db' r :
  (n = 0%nat → expected = None) → db_ok db → rtc db_step db0 db →
  exec env db (apply_attempts r2_base n name desired expected) evs db' r →
  request_ok expected (applied_as db0 name desired) db db' r.
Proof.
  revert db evs. induction n as [|n IH]; intros db evs Hn Hok H00 He; cbn [apply_attempts] in He.
  { apply exec_inv in He as (_ & -> & ->). split; [reflexivity|]. by apply Hn. }
  apply exec_read_inv in He as (db1 & x & evs1 & Hok1 & _ & Hst & _ & He); [|done..].
  apply (env_steps env env_step) in Hst. apply (request_ok_later _ _ _ db1); [done|].
  assert (rtc db_step db0 db1) as H01 by (by transitivity db). clear db evs Hok Hst H00.
  destruct He as [(e & _ & -> & _ & ->)|([s|] & _ & Hread & He)]; [by split| |].
  2: { destruct expected; [by apply exec_inv in He as (_ & -> & ->)|]. by eapply create_ok. }
  destruct (get_by_name_read _ _ _ _ Hok1 Hread) as (_ & <- & Hin).
  destruct (generation_mismatch expected (srv_generation s)) eqn:Hm.
  { apply exec_inv in He as (_ & -> & ->). split; [reflexivity|]. by apply mismatch_conflict. }
  apply exec_value_inv in He as [(e & _ & -> & ->)|(spec & Hspec & He)]; [by split|].
  apply exec_world_inv in He as (db2 & Hst2 & [(e & -> & ->)|(now & evs2 & Hnow & He)]);
    [by split|..|done|done].
  destruct (Server_update_spec s spec now) as [tr s'] eqn:Etr.
  apply exec_value_inv in He as [(e & -> & -> & ->)|(changed & -> & He)]; [by split|].
  destruct (steps_safe _ _ Hok1 Hst2) as [Hok2 Hg2].
  destruct (update_spec_specified _ _ _ _ _ _ _ _ _ Hspec H01 Hin Etr) as (Hspd & Hid & Hgen). destruct changed.
  2: { subst s'. apply exec_inv in He as (_ & -> & ->). split; [done|].
       split_and!; [done| |exact (match_generation _ s _ Hm (or_introl eq_refl))].
       eapply served_app; [reflexivity|exact Hst2|by apply served_read]. }
  apply (exec_write_inv env env_step db1) in He
    as (db3 & db4 & Hst3 & Hst4 & [(e & -> & ->)|(stored & evs3 & Hw & He)]);
    [split; [exact (steps_three _ _ _ _ Hst2 Hst3 Hst4)|done]| |by eapply safe_update_spec|done|done].
  destruct (steps_safe _ _ Hok2 Hst3) as [Hok3 Hg3].
  assert (Hg13 : grows db1 db3) by (by transitivity db2).
  pose proof (steps_three _ _ _ _ Hst2 Hst3 Hst4) as H14.
  destruct (update_spec_cas _ _ _ _ _ _ _ _ Hok1 Hin Hg13 Hok3 Etr Hw) as [Hans Hlost].
  destruct stored.
  { apply exec_plain_inv in He as (db5 & u & evs4 & Hst5 & He); [|done|done].
    apply exec_inv in He as (_ & -> & ->). split; [by transitivity db4|].
    split_and!; [done|exact (served_stored _ _ _ _ H14 Hst5 Hans)|].
    exact (match_generation _ s _ Hm (or_intror Hgen)). }
  cbn in Hans. subst db4.
  destruct (is_some expected) eqn:Hex.
  - destruct (server_in_later _ _ _ Hok1 Hin Hg13) as (r0 & Hr0 & _).
    destruct expected as [g|]; [|done].
    apply matched_generation in Hm as ->.
    rewrite Hid in He. eapply (conflict_by_id _ db1 s r0) in He as (Hst5 & e & -> & Hcf); try done.
    + split; [by transitivity db3|done].
    + by apply Hlost.
  - destruct expected; [done|]. eapply request_ok_later; [exact H14|]. eapply IH; [done|done|by transitivity db1|done].
Qed.
End requests.

(** ** Properties *)

Section properties.
Context `{CodecLaws}.
Variable r2_base : option string.

(** A reachable database stays reachable. *)
Lemma reachable_later db db' : reachable db → rtc db_step db db' → reachable db'.
Proof. intros Hr Hst. unfold reachable. by transitivity db. Qed.

Lemma set_desired_state_outcome db name d expected evs db' r :
  reachable db → exec db_step db (ServerService_set_desired_state name d expected) evs db' r →
  reachable db' ∧
  match r with
  | Ok s => srv_name s = name ∧ srv_desired_state s = d ∧ srv_archived_at s = None ∧
      served db db' s ∧
      (∀ g, expected = Some g → srv_generation s = g ∨ srv_generation s = g + 1)
  | Err APE.ConcurrentUpdate => expected = None
  | Err (APE.GenerationConflict e actual) => e = expected ∧ ∃ g, expected = Some g ∧ actual ≠ g
  | Err _ => True
  end.
Proof.
  intros Hr [(e & _ & -> & ->)|(n & Hn & He)]%exec_value_inv; [done|].
  apply ServerName_new_value in Hn as ->.
  apply set_desired_state_attempts_ok in He as [Hst Ho]; [|done|done|by apply reachable_ok].
  split; [by eapply reachable_later|]. destruct r as [s|e]; [|by destruct e].
  destruct Ho as ((? & ? & ?) & ? & ?). done.
Qed.

(** [ServerService::set_desired_state] under any interference and failures:
    it makes only transitions of the database; a server it returns has the
    name and desired state asked for, is not archived, and was stored with this
    generation, state, specification and times at a moment during the request;
    with an expected generation, the answer's generation is the expected one or
    the next; [ConcurrentUpdate] is answered only when no generation was
    expected, and [GenerationConflict] only when one was, with an actual
    generation that differs from it. *)
Theorem set_desired_state_request db name d expected evs db' r :
  reachable db → exec db_step db (ServerService_set_desired_state name d expected) evs db' r →
  reachable db' ∧
  match r with
  | Ok s => srv_name s = name ∧ srv_desired_state s = d ∧ srv_archived_at s = None ∧
      served db db' s ∧
      (∀ g, expected = Some g → srv_generation s = g ∨ srv_generation s = g + 1)
  | Err APE.ConcurrentUpdate => expected = None
  | Err (APE.GenerationConflict e actual) => e = expected ∧ ∃ g, expected = Some g ∧ actual ≠ g
  | Err _ => True
  end.
Proof. apply set_desired_state_outcome. Qed.

Lemma apply_outcome db name desired expected evs db' r :
  reachable db → exec db_step db (ServerService_apply r2_base name desired expected) evs db' r →
  reachable db' ∧
  match r with
  | Ok s => srv_name s = name ∧ srv_archived_at s = None ∧
      spec_compute (srv_spec s) = desired_compute desired ∧
      spec_process (srv_spec s) = desired_process desired ∧
      ServerSpec_validate (srv_spec s) = Ok tt ∧ data_as desired (spec_data (srv_spec s)) ∧
      data_given r2_base db name s ∧ served db db' s ∧
      (∀ g, expected = Some g → srv_generation s = g ∨ srv_generation s = g + 1)
  | Err APE.ConcurrentUpdate => expected = None
  | Err (APE.GenerationConflict e actual) => e = expected ∧ ∃ g, expected = Some g ∧ actual ≠ g
  | Err _ => True
  end.
Proof.
  intros Hr [(e & _ & -> & ->)|(n & Hn & He)]%exec_value_inv; [done|].
  apply ServerName_new_value in Hn as ->.
  eapply (apply_attempts_ok db_step) in He as [Hst Ho]; [|done|done|by apply reachable_ok|reflexivity].
  split; [by eapply reachable_later|]. destruct r as [s|e]; [|by destruct e].
  destruct Ho as (((? & ? & ? & ? & ?) & ? & ?) & ? & ?). done.
Qed.

(** [ServerService::apply]: likewise for a specification, whether it finds
    the server or creates it. A server it returns has the name and the compute
    and process specification asked for and data as asked for, which is that of the
    server before when there was one; its specification validates, it is not
    archived and was stored so at a moment during the request; with an expected
    generation, the answer's generation is the expected one or the next;
    [ConcurrentUpdate] is answered only when no generation was expected, and
    [GenerationConflict] only when one was, with another actual one. *)
Theorem apply_request db name desired expected evs db' r :
  reachable db → exec db_step db (ServerService_apply r2_base name desired expected) evs db' r →
  reachable db' ∧
  match r with
  | Ok s => srv_name s = name ∧ srv_archived_at s = None ∧
      spec_compute (srv_spec s) = desired_compute desired ∧
      spec_process (srv_spec s) = desired_process desired ∧
      ServerSpec_validate (srv_spec s) = Ok tt ∧ data_as desired (spec_data (srv_spec s)) ∧
      data_given r2_base db name s ∧ served db db' s ∧
      (∀ g, expected = Some g → srv_generation s = g ∨ srv_generation s = g + 1)
  | Err APE.ConcurrentUpdate => expected = None
  | Err (APE.GenerationConflict e actual) => e = expected ∧ ∃ g, expected = Some g ∧ actual ≠ g
  | Err _ => True
  end.
Proof. apply apply_outcome. Qed.

Lemma archive_outcome db name expected evs db' r :
  reachable db → exec db_step db (ServerService_archive name expected) evs db' r →
  reachable db' ∧
  match r with
  | Ok s => srv_name s = name ∧ is_Some (srv_archived_at s) ∧ served db db' s ∧
      (∀ g, expected = Some g → srv_generation s = g ∨ srv_generation s = g + 1) ∧
      ∀ k i, server_instances db' !! k = Some i → ir_server_id i = uuid_to_string (srv_id s) →
        is_Some (ir_terminated_at_ms i)
  | Err APE.ConcurrentUpdate => expected = None
  | Err (APE.GenerationConflict e actual) => e = expected ∧ is_Some expected
  | Err _ => True
  end.
Proof.
  intros Hr [(e & _ & -> & ->)|(n & Hn & He)]%exec_value_inv; [done|].
  apply ServerName_new_value in Hn as ->.
  apply archive_attempts_ok in He as [Hst Ho]; [|done|done|by apply reachable_ok].
  split; [by eapply reachable_later|]. destruct r as [s|e]; [|by destruct e].
  destruct Ho as ((Hn & Har) & Hsv & Hg). split_and!; try done.
  intros k i Hi Hs. destruct (ir_terminated_at_ms i) eqn:Ht; [done|]. exfalso.
  destruct Hsv as (db1 & s1 & H1 & H2 & Hin & Eid & _ & _ & _ & _ & Ea & _).
  pose proof (reachable_ok _ (reachable_later _ _ Hr H1)) as Hok1.
  destruct (steps_safe _ _ Hok1 H2) as [Hok' Hgr].
  destruct (server_in_row _ _ Hok1 Hin) as (r1 & Hr1 & _ & _ & _ & _ & Ea1 & _).
  destruct (gr_servers _ _ Hgr _ _ Hr1) as (r2 & Hr2 & _ & _ & _ & _ & _ & Hfix).
  rewrite Hfix in Hr2 by (rewrite Ea1, <- Ea; done).
  rewrite Eid in Hs. rewrite <- Hs in Hr2.
  pose proof (ok_archived _ Hok' _ _ _ Hi Ht Hr2) as Hnone.
  rewrite Ea1, <- Ea in Hnone. rewrite Hnone in Har. by destruct Har.
Qed.

(** [ServerService::archive]: a server it returns is archived and was stored
    so at a moment during the request, when no instance of it was active (as in
    every reachable database); a conflict is answered only when a generation
    was expected. *)
Theorem archive_request db name expected evs db' r :
  reachable db → exec db_step db (ServerService_archive name expected) evs db' r →
  reachable db' ∧
  match r with
  | Ok s => srv_name s = name ∧ is_Some (srv_archived_at s) ∧ served db db' s ∧
      (∀ g, expected = Some g → srv_generation s = g ∨ srv_generation s = g + 1) ∧
      ∀ k i, server_instances db' !! k = Some i → ir_server_id i = uuid_to_string (srv_id s) →
        is_Some (ir_terminated_at_ms i)
  | Err APE.ConcurrentUpdate => expected = None
  | Err (APE.GenerationConflict e actual) => e = expected ∧ is_Some expected
  | Err _ => True
  end.
Proof. apply archive_outcome. Qed.

(** ** Repositories of the snapshots *)

Definition slash : Ascii.ascii := "/"%char.

Lemma app_cons c a z : String.append (String c a) z = String c (String.append a z).
Proof. reflexivity. Qed.

Lemma prefix_cons c s c' s' :
  String.prefix (String c s) (String c' s') = true ↔ c = c' ∧ String.prefix s s' = true.
Proof. cbn. destruct (Ascii.ascii_dec c c'); naive_solver. Qed.

Lemma prefix_split a b x y :
  (∀ c, In c (String.list_ascii_of_string a) → c ≠ slash) →
  (∀ c, In c (String.list_ascii_of_string b) → c ≠ slash) →
  String.prefix (String.append a (String slash x)) (String.append b (String slash y)) = true →
  a = b.
Proof.
  revert b. induction a as [|c a IH]; intros [|c' b] Ha Hb; rewrite ?app_cons;
    [done|change (String.append "" ?z) with z..|]; rewrite prefix_cons.
  - intros [<- _]. by destruct (Hb slash (or_introl eq_refl)).
  - intros [-> _]. by destruct (Ha slash (or_introl eq_refl)).
  - intros [<- Hp]. f_equal.
    apply IH; [intros ? ?; apply Ha; by right|intros ? ?; apply Hb; by right|done].
Qed.

Lemma prefix_app_same p x y :
  String.prefix (String.append p x) (String.append p y) = true → String.prefix x y = true.
Proof.
  induction p as [|c p IH]; [done|]. rewrite !app_cons, prefix_cons. intros [_ Hp]. auto.
Qed.

Lemma dns_label_no_slash name :
  is_dns_label name → ∀ c, In c (String.list_ascii_of_string name) → c ≠ slash.
Proof.
  intros (_ & Hall & _) c Hin ->. rewrite List.Forall_forall in Hall.
  destruct (Hall slash Hin) as [Hb|Hb]; [by vm_compute in Hb|done].
Qed.

(** The R2 repositories of different servers are disjoint: the repository of
    one is never a prefix of the other's, since a server name has no slash. *)
Theorem r2_repositories_are_disjoint name name' repo repo' :
  is_dns_label name → is_dns_label name' → name ≠ name' →
  ServerService_r2_repository r2_base name = Some repo →
  ServerService_r2_repository r2_base name' = Some repo' →
  String.prefix repo repo' = false.
Proof.
  intros Hn Hn' Hne. unfold ServerService_r2_repository. destruct r2_base as [base|]; [|done].
  cbn. intros [= <-] [= <-]. apply not_true_iff_false. intros Hp. apply Hne.
  apply prefix_app_same, (prefix_app_same "/servers/") in Hp.
  by apply (prefix_split name name' "restic" "restic"); [apply dns_label_no_slash..|].
Qed.
End properties.

(** ** Witnesses *)

Section witnesses.
#[local] Existing Instance bits_codec.
#[local] Existing Instance bits_codec_laws.

Definition example_request :=
  simulate (ServerService_set_desired_state "survival" DS.Stopped (Some 2)) initial_world
    example_stopped_db.

Lemma set_desired_state_request_witness :
  ∃ s, example_request.2 = Ok s ∧ srv_desired_state s = DS.Stopped ∧ srv_generation s = 3.
Proof.
  destruct example_request as [[[evs w] db] r] eqn:E.
  assert (Hr : match r with Ok s => srv_generation s =? 3 | Err _ => false end = true).
  { change r with (evs, w, db, r).2. rewrite <- E. vm_compute. reflexivity. }
  unfold example_request in E. apply (simulate_exec db_step) in E as [He _]; [|done].
  destruct (set_desired_state_request _ _ _ _ _ _ _ example_stopped_reachable He) as [_ Ho].
  destruct r as [s|e]; [|done]. apply Z.eqb_eq in Hr. exists s. by destruct Ho as (_ & ? & _).
Defined.

Definition example_desired : DesiredServerSpec := {|
  desired_compute := CS.Local; desired_process := example_process;
  desired_data := DDS.LocalRestic "/srv/restic/creative" |}.

Definition example_apply :=
  simulate (ServerService_apply None "creative" example_desired None) initial_world
    example_stopped_db.

Lemma apply_request_witness :
  ∃ s, example_apply.2 = Ok s ∧ spec_process (srv_spec s) = example_process.
Proof.
  destruct example_apply as [[[evs w] db] r] eqn:E.
  assert (Hr : match r with Ok _ => true | Err _ => false end = true).
  { change r with (evs, w, db, r).2. rewrite <- E. vm_compute. reflexivity. }
  unfold example_apply in E. apply (simulate_exec db_step) in E as [He _]; [|done].
  destruct (apply_request _ _ _ _ _ _ _ _ example_stopped_reachable He) as [_ Ho].
  destruct r as [s|e]; [|done]. exists s. by destruct Ho as (_ & _ & _ & ? & _).
Defined.

(** A server that was created and never started. *)
Definition example_created_db : Database := run_writes [WCreateServer example_server] empty_database.

Lemma example_created_reachable : reachable example_created_db.
Proof.
  apply run_writes_steps. split; [|done]. split_and!; [exact example_server_wf|done|done].
Qed.

Definition example_archive :=
  simulate (ServerService_archive "survival" (Some 1)) initial_world example_created_db.

Lemma archive_request_witness : ∃ s, example_archive.2 = Ok s ∧ is_Some (srv_archived_at s).
Proof.
  destruct example_archive as [[[evs w] db] r] eqn:E.
  assert (Hr : match r with Ok _ => true | Err _ => false end = true).
  { change r with (evs, w, db, r).2. rewrite <- E. vm_compute. reflexivity. }
  unfold example_archive in E. apply (simulate_exec db_step) in E as [He _]; [|done].
  destruct (archive_request _ _ _ _ _ _ example_created_reachable He) as [_ Ho].
  destruct r as [s|e]; [|done]. exists s. by destruct Ho as (_ & ? & _).
Defined.

Lemma r2_repositories_are_disjoint_witness :
  String.prefix "s3:https://r2.example/b/servers/lobby/restic"
    "s3:https://r2.example/b/servers/lobby-2/restic" = false.
Proof.
  apply (r2_repositories_are_disjoint (Some "s3:https://r2.example/b") "lobby" "lobby-2");
    [apply ServerName_new_ok; reflexivity|apply ServerName_new_ok; reflexivity|done|done|done].
Defined.
End witnesses.
