(* ===== verification/ClientProtocol.v ===== *)
(** Messages between clients and the control plane
    (crates/mcserver-protocol/src/client.rs), and how the control plane's own data
    is shown in them (the conversions of
    crates/mcserver-control-plane/src/interface/client_rpc.rs). *)
From S2P Require Import Prelude Text Server Instances Application.
#[local] Open Scope string_scope.
#[local] Open Scope Z_scope.

(** ** Methods *)

Definition SYSTEM_PING : string := "system.ping".
Definition SERVER_CREATE : string := "server.create".
Definition SERVER_APPLY : string := "server.apply".
Definition SERVER_GET : string := "server.get".
Definition SERVER_LIST : string := "server.list".
Definition SERVER_STATUS : string := "server.status".
Definition SERVER_SET_DESIRED_STATE : string := "server.set_desired_state".
Definition SERVER_ARCHIVE : string := "server.archive".
Definition SERVER_INSTANCE_GET : string := "server_instance.get".
Definition SERVER_INSTANCE_LIST : string := "server_instance.list".

(** ** The protocol's own data *)

Module client.
Inductive DesiredState := Running | Stopped.
Inductive TerminalResult := Completed | TerminalFailed.
Inductive ComputeTerminalResult := Deleted | ComputeFailed.
Inductive ComputeProvider := LocalProcess | AkamaiProvider.
Inductive ComputeSpec :=
| Local
| Akamai (region instance_type image : string) (firewall_id : Z).
Record ProcessSpec := {
  c_container_image : string;
  c_server_type : string;
  c_version : string;
  c_host_port : Z;
  c_stop_timeout_seconds : Z;
  c_accept_eula : bool;
  c_environment : list (string * string);
}.
Inductive DesiredDataSpec := LocalResticAt (repository : string) | R2ResticData.
Inductive DataBackend := LocalRestic | R2Restic.
Record DataSpec := { c_backend : DataBackend; c_repository : string }.
Record DesiredServerSpec := {
  c_desired_compute : ComputeSpec;
  c_desired_process : ProcessSpec;
  c_desired_data : DesiredDataSpec;
}.
Record ServerSpec := {
  c_spec_compute : ComputeSpec;
  c_spec_process : ProcessSpec;
  c_spec_data : DataSpec;
}.
End client.

(** ** Parameters *)

Record CreateServerParams := {
  create_name : string;
  create_spec : client.DesiredServerSpec;
}.
Record ApplyServerParams := {
  apply_name : string;
  apply_spec : client.DesiredServerSpec;
  apply_expected_generation : option Z;
}.
Record GetServerParams := { get_server_name : string }.
Record ListServersParams := { list_include_archived : bool }.
Record SetServerDesiredStateParams := {
  set_server_name : string;
  set_desired_state_ : client.DesiredState;
  set_expected_generation : option Z;
}.
Record ArchiveServerParams := {
  archive_server_name : string;
  archive_expected_generation : option Z;
}.
Record GetServerInstanceParams := { get_server_instance_id : Uuid }.
Record ListServerInstancesParams := { list_server_name : string }.

(** [ListServersParams::default]. *)
Definition ListServersParams_default : ListServersParams := {| list_include_archived := false |}.

(** ** Results *)

Record PingResult := { ping_status : string; ping_version : string }.
Record ServerResource := {
  res_id : Uuid;
  res_name : string;
  res_generation : Z;
  res_desired_state : client.DesiredState;
  res_spec : client.ServerSpec;
  res_created_at_ms : Z;
  res_current_snapshot_id : option string;
  res_archived_at_ms : option Z;
  res_updated_at_ms : Z;
}.
Record ListServersResult := { listed_servers : list ServerResource }.
Record ServerInstanceResource := {
  rin_id : Uuid;
  rin_server_id : Uuid;
  rin_server_generation : Z;
  rin_resolved_spec : client.ServerSpec;
  rin_fencing_token : Z;
  rin_source_snapshot_id : option string;
  rin_data_prepared_at_ms : option Z;
  rin_process_running : bool;
  rin_process_observed_at_ms : option Z;
  rin_result_snapshot_id : option string;
  rin_last_error : option string;
  rin_stop_requested_at_ms : option Z;
  rin_terminated_at_ms : option Z;
  rin_terminal_result : option client.TerminalResult;
  rin_created_at_ms : Z;
  rin_updated_at_ms : Z;
}.
Record ListServerInstancesResult := { listed_instances : list ServerInstanceResource }.
Record ComputeInstanceResource := {
  rci_id : Uuid;
  rci_server_instance_id : Uuid;
  rci_provider : client.ComputeProvider;
  rci_provider_instance_id : option string;
  rci_public_ipv4 : option string;
  rci_process_id : option Z;
  rci_agent_connected_at_ms : option Z;
  rci_shutdown_requested_at_ms : option Z;
  rci_terminated_at_ms : option Z;
  rci_terminal_result : option client.ComputeTerminalResult;
  rci_failure_message : option string;
  rci_created_at_ms : Z;
  rci_updated_at_ms : Z;
}.
Record ServerStatusResource := {
  rst_server : ServerResource;
  rst_active_instance : option ServerInstanceResource;
  rst_active_compute : option ComputeInstanceResource;
  rst_agent_connected : bool;
}.

(** ** Conversions *)

Definition domain_desired_spec (spec : client.DesiredServerSpec) : DesiredServerSpec :=
  let process := client.c_desired_process spec in {|
  desired_compute :=
    match client.c_desired_compute spec with
    | client.Local => CS.Local
    | client.Akamai region instance_type image firewall_id =>
        CS.Akamai region instance_type image firewall_id
    end;
  desired_process := {|
    container_image := client.c_container_image process;
    server_type := client.c_server_type process;
    version := client.c_version process;
    host_port := client.c_host_port process;
    stop_timeout_seconds := client.c_stop_timeout_seconds process;
    accept_eula := client.c_accept_eula process;
    environment := client.c_environment process |};
  desired_data :=
    match client.c_desired_data spec with
    | client.LocalResticAt repository => DDS.LocalRestic repository
    | client.R2ResticData => DDS.R2Restic
    end |}.

Definition protocol_spec (spec : ServerSpec) : client.ServerSpec :=
  let process := spec_process spec in {|
  client.c_spec_compute :=
    match spec_compute spec with
    | CS.Local => client.Local
    | CS.Akamai region instance_type image firewall_id =>
        client.Akamai region instance_type image firewall_id
    end;
  client.c_spec_process := {|
    client.c_container_image := container_image process;
    client.c_server_type := server_type process;
    client.c_version := version process;
    client.c_host_port := host_port process;
    client.c_stop_timeout_seconds := stop_timeout_seconds process;
    client.c_accept_eula := accept_eula process;
    client.c_environment := environment process |};
  client.c_spec_data := {|
    client.c_backend :=
      match backend (spec_data spec) with
      | DB.LocalRestic => client.LocalRestic
      | DB.R2Restic => client.R2Restic
      end;
    client.c_repository := repository (spec_data spec) |} |}.

Definition domain_desired_state (state : client.DesiredState) : DesiredState :=
  match state with client.Running => DS.Running | client.Stopped => DS.Stopped end.
Definition protocol_desired_state (state : DesiredState) : client.DesiredState :=
  match state with DS.Running => client.Running | DS.Stopped => client.Stopped end.

Definition protocol_server (server : Server) : ServerResource := {|
  res_id := srv_id server;
  res_name := srv_name server;
  res_generation := srv_generation server;
  res_desired_state := protocol_desired_state (srv_desired_state server);
  res_spec := protocol_spec (srv_spec server);
  res_created_at_ms := srv_created_at server;
  res_current_snapshot_id := srv_current_snapshot_id server;
  res_archived_at_ms := srv_archived_at server;
  res_updated_at_ms := srv_updated_at server |}.

Definition protocol_terminal_result (r : TerminalResult) : client.TerminalResult :=
  match r with TR.Completed => client.Completed | TR.Failed => client.TerminalFailed end.
Definition protocol_compute_terminal_result (r : ComputeTerminalResult) :
    client.ComputeTerminalResult :=
  match r with CTR.Deleted => client.Deleted | CTR.Failed => client.ComputeFailed end.

Definition protocol_server_instance (instance : ServerInstance) : ServerInstanceResource := {|
  rin_id := si_id instance;
  rin_server_id := si_server_id instance;
  rin_server_generation := si_server_generation instance;
  rin_resolved_spec := protocol_spec (si_resolved_spec instance);
  rin_fencing_token := si_fencing_token instance;
  rin_source_snapshot_id := si_source_snapshot_id instance;
  rin_data_prepared_at_ms := si_data_prepared_at instance;
  rin_process_running := si_process_running instance;
  rin_process_observed_at_ms := si_process_observed_at instance;
  rin_result_snapshot_id := si_result_snapshot_id instance;
  rin_last_error := si_last_error instance;
  rin_stop_requested_at_ms := si_stop_requested_at instance;
  rin_terminated_at_ms := si_terminated_at instance;
  rin_terminal_result := protocol_terminal_result <$> si_terminal_result instance;
  rin_created_at_ms := si_created_at instance;
  rin_updated_at_ms := si_updated_at instance |}.

Definition protocol_compute_instance (compute : ComputeInstance) : ComputeInstanceResource := {|
  rci_id := ci_id compute;
  rci_server_instance_id := ci_server_instance_id compute;
  rci_provider :=
    match ci_provider compute with
    | CP.LocalProcess => client.LocalProcess
    | CP.Akamai => client.AkamaiProvider
    end;
  rci_provider_instance_id := ci_provider_instance_id compute;
  rci_public_ipv4 := ci_public_ipv4 compute;
  rci_process_id := ci_process_id compute;
  rci_agent_connected_at_ms := ci_agent_connected_at compute;
  rci_shutdown_requested_at_ms := ci_shutdown_requested_at compute;
  rci_terminated_at_ms := ci_terminated_at compute;
  rci_terminal_result := protocol_compute_terminal_result <$> ci_terminal_result compute;
  rci_failure_message := ci_failure_message compute;
  rci_created_at_ms := ci_created_at compute;
  rci_updated_at_ms := ci_updated_at compute |}.

Definition protocol_server_status (status : ServerStatus) : ServerStatusResource := {|
  rst_server := protocol_server (status_server status);
  rst_active_instance := protocol_server_instance <$> status_active_instance status;
  rst_active_compute := protocol_compute_instance <$> status_active_compute status;
  rst_agent_connected := status_agent_connected status |}.
