(* ===== verification/ClientRpc.v ===== *)
(** The client interface: JSON-RPC requests onto the services
    (crates/mcserver-control-plane/src/interface/client_rpc.rs). *)
From S2P Require Import Prelude Text Programs JsonRpc Framing Server Instances Database.
From S2P Require Import Repositories ComputeRepository Effects Application ClientProtocol.
#[local] Open Scope string_scope.
#[local] Open Scope Z_scope.
#[local] Open Scope prog_scope.

Module RPE.
(** [RpcDispatchError]. *)
Inductive RpcDispatchError :=
| MethodNotFound
| InvalidParams (detail : string)
| Application (source : ApplicationError)
| Serialization (source : string).
End RPE.
Abbreviation RpcDispatchError := RPE.RpcDispatchError.

Section client_rpc.
Context `{Codec}.
Context `{Deserialize Request} `{Serialize Response}.
Context `{Deserialize CreateServerParams} `{Deserialize ApplyServerParams}.
Context `{Deserialize GetServerParams} `{Deserialize ListServersParams}.
Context `{Deserialize SetServerDesiredStateParams} `{Deserialize ArchiveServerParams}.
Context `{Deserialize GetServerInstanceParams} `{Deserialize ListServerInstancesParams}.
Context `{Serialize PingResult} `{Serialize ServerResource} `{Serialize ListServersResult}.
Context `{Serialize ServerStatusResource} `{Serialize ServerInstanceResource}.
Context `{Serialize ListServerInstancesResult}.

(** [env!("CARGO_PKG_VERSION")] and the texts of errors. *)
Variable package_version : string.
Variable describe_validation : ValidationError → string.
Variable describe_application : ApplicationError → string.
Variable r2_repository_base : option string.

(** ** Answers *)

Definition rpc_error_object (error : RpcDispatchError) : ErrorObject :=
  let conflict e :=
    with_data (ErrorObject_new CONFLICT "Resource conflict") (detail (describe_application e)) in
  match error with
  | RPE.MethodNotFound => ErrorObject_new METHOD_NOT_FOUND "Method not found"
  | RPE.InvalidParams d =>
      with_data (ErrorObject_new INVALID_PARAMS "Invalid params") (detail d)
  | RPE.Application (APE.Validation e) =>
      with_data (ErrorObject_new INVALID_PARAMS "Invalid params") (detail (describe_validation e))
  | RPE.Application APE.NotFound => ErrorObject_new NOT_FOUND "Server not found"
  | RPE.Application APE.ServerInstanceNotFound =>
      ErrorObject_new NOT_FOUND "Server instance not found"
  | RPE.Application ((APE.GenerationConflict _ _ | APE.ConcurrentUpdate
      | APE.ServerHasActiveInstance | APE.Repository (RE.Conflict _)) as e) => conflict e
  | RPE.Application _ => ErrorObject_new INTERNAL_ERROR "Internal error"
  | RPE.Serialization _ => ErrorObject_new INTERNAL_ERROR "Internal error"
  end.

(** The literal [response_value] falls back to. *)
Definition internal_error_response : json :=
  JObject [("error", JObject [("code", JNumber (JInt INTERNAL_ERROR));
                              ("message", JString "Internal error")]);
           ("id", JNull); ("jsonrpc", JString VERSION)].

Definition response_value (response : Response) : json :=
  match to_value response with Ok value => value | Err _ => internal_error_response end.

Definition rpc_parse_params {A} `{Deserialize A} (params : json) : result RpcDispatchError A :=
  map_err RPE.InvalidParams (from_value params).
Definition parse_optional_params {A} `{Deserialize A} (default : A) (params : json) :
    result RpcDispatchError A :=
  match params with JNull => Ok default | _ => rpc_parse_params params end.

(** A service's answer, shown by [show]. *)
Definition rpc_respond {A B} `{Serialize B} (show : A → B) (p : prog (result ApplicationError A)) :
    prog (result RpcDispatchError json) :=
  let? a := p via RPE.Application in
  Ret (map_err RPE.Serialization (to_value (show a))).

(** ** Methods *)

Definition rpc_dispatch (method : string) (params : json) : prog (result RpcDispatchError json) :=
  if String.eqb method SYSTEM_PING then
    let? _ := Ret (require_no_params RPE.InvalidParams params) via id in
    Ret (map_err RPE.Serialization
      (to_value {| ping_status := "ok"; ping_version := package_version |}))
  else if String.eqb method SERVER_CREATE then
    let? params := Ret (rpc_parse_params (A := CreateServerParams) params) via id in
    rpc_respond protocol_server (ServerService_create r2_repository_base (create_name params)
      (domain_desired_spec (create_spec params)))
  else if String.eqb method SERVER_APPLY then
    let? params := Ret (rpc_parse_params (A := ApplyServerParams) params) via id in
    rpc_respond protocol_server (ServerService_apply r2_repository_base (apply_name params)
      (domain_desired_spec (apply_spec params)) (apply_expected_generation params))
  else if String.eqb method SERVER_GET then
    let? params := Ret (rpc_parse_params (A := GetServerParams) params) via id in
    rpc_respond protocol_server (ServerService_get_by_name (get_server_name params))
  else if String.eqb method SERVER_LIST then
    let? params := Ret (parse_optional_params ListServersParams_default params) via id in
    rpc_respond (λ servers, {| listed_servers := map protocol_server servers |})
      (ServerService_list (list_include_archived params))
  else if String.eqb method SERVER_STATUS then
    let? params := Ret (rpc_parse_params (A := GetServerParams) params) via id in
    let? server := ServerService_get_by_name (get_server_name params) via RPE.Application in
    rpc_respond protocol_server_status (ServerStatusService_get (srv_id server))
  else if String.eqb method SERVER_SET_DESIRED_STATE then
    let? params := Ret (rpc_parse_params (A := SetServerDesiredStateParams) params) via id in
    rpc_respond protocol_server (ServerService_set_desired_state (set_server_name params)
      (domain_desired_state (set_desired_state_ params)) (set_expected_generation params))
  else if String.eqb method SERVER_ARCHIVE then
    let? params := Ret (rpc_parse_params (A := ArchiveServerParams) params) via id in
    rpc_respond protocol_server (ServerService_archive (archive_server_name params)
      (archive_expected_generation params))
  else if String.eqb method SERVER_INSTANCE_GET then
    let? params := Ret (rpc_parse_params (A := GetServerInstanceParams) params) via id in
    rpc_respond protocol_server_instance
      (ServerInstanceService_get (get_server_instance_id params))
  else if String.eqb method SERVER_INSTANCE_LIST then
    let? params := Ret (rpc_parse_params (A := ListServerInstancesParams) params) via id in
    let? server := ServerService_get_by_name (list_server_name params) via RPE.Application in
    rpc_respond (λ instances, {| listed_instances := map protocol_server_instance instances |})
      (ServerInstanceService_list_for_server (srv_id server))
  else Ret (Err RPE.MethodNotFound).

(** ** Requests *)

Definition handle_single (value : json) : prog (option json) :=
  match from_value (A := Request) value with
  | Err error =>
      Ret (Some (response_value (Response_error JNull
        (with_data (ErrorObject_new INVALID_REQUEST "Invalid Request") (detail error)))))
  | Ok request =>
      if negb (String.eqb (req_jsonrpc request) VERSION) || str_is_empty (req_method request)
         || negb (id_is_valid (req_id request))
      then Ret (Some (response_value (Response_error (from_option id JNull (response_id (req_id request)))
        (ErrorObject_new INVALID_REQUEST "Invalid Request"))))
      else if negb (params_are_structured (req_params request))
      then Ret ((λ id, response_value (Response_error id
        (ErrorObject_new INVALID_PARAMS "Invalid params"))) <$> response_id (req_id request))
      else
        let! result := rpc_dispatch (req_method request) (req_params request) in
        if is_notification (req_id request) then Ret None
        else
          let response_id := from_option id JNull (response_id (req_id request)) in
          Ret (Some match result with
            | Ok result => response_value (Response_success response_id result)
            | Err error => response_value (Response_error response_id (rpc_error_object error))
            end)
  end.

(** The loop over a batch. *)
Fixpoint handle_batch (requests : list json) : prog (list json) :=
  match requests with
  | [] => Ret []
  | request :: requests =>
      let! response := handle_single request in
      let! responses := handle_batch requests in
      Ret match response with Some response => response :: responses | None => responses end
  end.

Definition handle_value (value : json) : prog (option json) :=
  match value with
  | JArray [] =>
      Ret (Some (response_value (Response_error JNull
        (ErrorObject_new INVALID_REQUEST "Invalid Request"))))
  | JArray requests =>
      let! responses := handle_batch requests in
      Ret match responses with [] => None | _ => Some (JArray responses) end
  | request => handle_single request
  end.

(** [handle_json]; [from_str] is [from_slice] of the text's bytes. *)
Definition handle_json `{JsonText} (input : bytes) : prog (option json) :=
  match from_slice input with
  | Ok value => handle_value value
  | Err error =>
      Ret (Some (response_value (Response_error JNull
        (with_data (ErrorObject_new PARSE_ERROR "Parse error") (detail error)))))
  end.
End client_rpc.
