(* ===== verification/UnixSocket.v ===== *)
(** Client connections over the Unix socket
    (crates/mcserver-control-plane/src/interface/unix_socket.rs). *)
From S2P Require Import Prelude Text Net Programs JsonRpc Framing Server Instances Database.
From S2P Require Import Repositories Effects Application ClientProtocol ClientRpc.
#[local] Open Scope string_scope.
#[local] Open Scope Z_scope.
#[local] Open Scope prog_scope.

Module USE.
(** [UnixSocketError]. *)
Inductive UnixSocketError :=
| Io (source : io_error)
| Serialization (source : string)
| InvalidUtf8
| MissingParent (path : string)
| AlreadyRunning (path : string)
| SocketProbe (path : string) (source : io_error)
| PathOccupied (path : string)
| FrameTooLarge (actual maximum : Z).
End USE.
Abbreviation UnixSocketError := USE.UnixSocketError.

(** ** Connections *)

Inductive client_op : Type → Type :=
| Serve {X} (o : op X) : client_op X
(* whether the cancellation comes before the next frame, or has come by now *)
| ClientCancelled : client_op bool
| ClientWrite (text : bytes) : client_op (result io_error unit).
Abbreviation client_prog := (gprog client_op).

Definition serve_op (X : Type) (o : op X) : client_op X := Serve o.

Definition socket_read_frame : list fill → Z → result UnixSocketError Z * bytes * list fill :=
  read_frame USE.Io USE.FrameTooLarge.

Definition write_json_line `{JsonText} (value : json) : client_prog (result UnixSocketError unit) :=
  let? encoded := Ret (to_vec value) via USE.Serialization in
  let? _ := perform (ClientWrite (encoded ++ [NEWLINE])) via USE.Io in
  Ret (Ok tt).

Section connection.
Context `{JsonText}.

(** [handler.handle_json]. *)
Variable handle : bytes → prog (option json).
Variable max_frame_bytes : Z.

(** The response is written before the cancellation is looked at; [None] to go on. *)
Definition respond_line (answer : prog (option json)) :
    client_prog (option (result UnixSocketError unit)) :=
  let! response := prog_map serve_op answer in
  let! written :=
    match response with Some response => write_json_line response | None => Ret (Ok tt) end in
  match written with
  | Err error => Ret (Some (Err error))
  | Ok _ =>
      let! cancelled := perform ClientCancelled in
      Ret (if (cancelled : bool) then Some (Ok tt) else None)
  end.

(** [handle_connection]; [None] when it did not end in [fuel] frames. *)
Fixpoint handle_client (fuel : nat) (reader : list fill) :
    client_prog (option (result UnixSocketError unit)) :=
  match fuel with
  | 0%nat => Ret None
  | S fuel =>
      let! cancelled := perform ClientCancelled in
      if (cancelled : bool) then Ret (Some (Ok tt))
      else
        let '(read, frame, reader) := socket_read_frame reader max_frame_bytes in
        match read with
        | Err error => Ret (Some (Err error))
        | Ok read =>
            if read =? 0 then Ret (Some (Ok tt))
            else
              let input := trim_line_ending frame in
              match input with
              | [] => handle_client fuel reader
              | _ =>
                  if negb (utf8_valid (String.string_of_list_ascii input))
                  then Ret (Some (Err USE.InvalidUtf8))
                  else
                    let! ended := respond_line (handle input) in
                    match ended with
                    | Some outcome => Ret (Some outcome)
                    | None => handle_client fuel reader
                    end
              end
        end
  end.
End connection.

(** ** The socket's path *)

(** [UnixStream::connect] on an existing socket. *)
Inductive probe :=
| ProbeConnected
| ProbeRefused
| ProbeFailed (source : io_error).

Inductive socket_op : Type → Type :=
| CreateParent : socket_op (result io_error unit)
(* whether the path is a socket *)
| SocketMetadata : socket_op (result io_error bool)
| ConnectSocket : socket_op probe
| RemoveSocket : socket_op (result io_error unit)
| BindSocket : socket_op (result io_error unit)
| SetSocketMode (mode : Z) : socket_op (result io_error unit).
Abbreviation socket_prog := (gprog socket_op).

(** [path.parent()] is [Some]: the path has a component besides its root. *)
Definition path_has_parent (path : string) : bool :=
  let pieces := str_split "/" path in
  existsb (λ piece, negb (str_is_empty piece || String.eqb piece ".")) pieces
  || bool_decide (head pieces = Some ".").

Definition prepare_socket_path (path : string) : socket_prog (result UnixSocketError unit) :=
  if negb (path_has_parent path) then Ret (Err (USE.MissingParent path))
  else
    let? _ := perform CreateParent via USE.Io in
    let! metadata := perform SocketMetadata in
    match metadata with
    | Ok true =>
        let! connected := perform ConnectSocket in
        match connected with
        | ProbeConnected => Ret (Err (USE.AlreadyRunning path))
        | ProbeRefused | ProbeFailed IoNotFound =>
            let? _ := perform RemoveSocket via USE.Io in
            Ret (Ok tt)
        | ProbeFailed source => Ret (Err (USE.SocketProbe path source))
        end
    | Ok false => Ret (Err (USE.PathOccupied path))
    | Err IoNotFound => Ret (Ok tt)
    | Err error => Ret (Err (USE.Io error))
    end.

(** [UnixSocketServer::bind]. *)
Definition UnixSocketServer_bind (path : string) (mode : Z) : socket_prog (result UnixSocketError unit) :=
  let? _ := prepare_socket_path path via id in
  let? _ := perform BindSocket via USE.Io in
  let? _ := perform (SetSocketMode mode) via USE.Io in
  Ret (Ok tt).

(** [SocketPathGuard]'s [drop]: a failed removal is only logged. *)
Definition SocketPathGuard_drop : socket_prog unit :=
  let! _ := perform RemoveSocket in Ret tt.
