(* ===== verification/ClientProperties.v ===== *)
(** What clients of the control plane can rely on: which requests are answered and
    how, and that a successful answer shows what was stored. *)
From S2P Require Import Prelude Text Programs JsonRpc Framing Server ServerFacts Instances.
From S2P Require Import InstanceFacts Database RowFacts Repositories ComputeRepository Invariant.
From S2P Require Import RepositoryFacts LifecycleFacts ComputeFacts Persistence.
From S2P Require Import Codecs PersistenceProperties.
From S2P Require Import Effects Semantics ReconcileFacts Application ApplicationFacts.
From S2P Require Import ApplicationProperties.
From S2P Require Import MessageCodecs World ClientProtocol ClientRpc.
#[local] Open Scope string_scope.
#[local] Open Scope Z_scope.

(** The error codes that a request can be answered with. *)
Lemma rpc_error_codes describe_validation describe_application e :
  err_code (rpc_error_object describe_validation describe_application e)
    ∈ [METHOD_NOT_FOUND; INVALID_PARAMS; NOT_FOUND; CONFLICT; INTERNAL_ERROR].
Proof. destruct e as [| |[| | | | | |[]|]|]; cbn; set_solver. Qed.

Section client.
Context `{CodecLaws}.
Context `{Deserialize Request} `{Serialize Response}.
Context `{Deserialize CreateServerParams} `{Deserialize ApplyServerParams}.
Context `{Deserialize GetServerParams} `{Deserialize ListServersParams}.
Context `{Deserialize SetServerDesiredStateParams} `{Deserialize ArchiveServerParams}.
Context `{Deserialize GetServerInstanceParams} `{Deserialize ListServerInstancesParams}.
Context `{Serialize PingResult} `{Serialize ServerResource} `{Serialize ListServersResult}.
Context `{Serialize ServerStatusResource} `{Serialize ServerInstanceResource}.
Context `{Serialize ListServerInstancesResult}.
Context (package_version : string).
Context (describe_validation : ValidationError → string).
Context (describe_application : ApplicationError → string).
Context (r2_base : option string).

#[local] Abbreviation single :=
  (handle_single package_version describe_validation describe_application r2_base).
#[local] Abbreviation batch :=
  (handle_batch package_version describe_validation describe_application r2_base).
#[local] Abbreviation handle :=
  (handle_value package_version describe_validation describe_application r2_base).

(** ** Which requests are answered *)

(** JSON-RPC: everything is answered but a well-formed notification. *)
Definition expects_answer (value : json) : bool :=
  match from_value (A := Request) value with
  | Ok request =>
      negb (is_notification (req_id request) && String.eqb (req_jsonrpc request) VERSION
            && negb (str_is_empty (req_method request)))
  | Err _ => true
  end.

(** The id of the answer: [null] when there is none that can be read. *)
Definition answer_id (value : json) : json :=
  match from_value (A := Request) value with
  | Ok request => from_option id JNull (response_id (req_id request))
  | Err _ => JNull
  end.

(** A response with the request's id and either a result or an error. *)
Definition answers (value answer : json) : Prop :=
  ∃ response, answer = response_value response ∧ resp_jsonrpc response = VERSION ∧
    resp_id response = answer_id value ∧
    (is_Some (resp_result response) ∧ resp_error response = None ∨
     resp_result response = None ∧ is_Some (resp_error response)).

Lemma answers_error value i e :
  i = answer_id value → answers value (response_value (Response_error i e)).
Proof. intros ->. eexists. split_and!; [done..|]. right. by split; [|eexists]. Qed.
Lemma answers_success value i v :
  i = answer_id value → answers value (response_value (Response_success i v)).
Proof. intros ->. eexists. split_and!; [done..|]. left. by split; [eexists|]. Qed.

Lemma single_answered env db value evs db' out :
  exec env db (single value) evs db' out →
  match out with
  | Some answer => expects_answer value = true ∧ answers value answer
  | None => expects_answer value = false
  end.
Proof.
  unfold handle_single, expects_answer. pose proof (answers_error value) as He.
  pose proof (answers_success value) as Hs. unfold answer_id in *.
  destruct (from_value value) as [[version method params i]|e]; cbn in *.
  2:{ intros (_ & _ & ->)%exec_inv. split; [done|by apply He]. }
  destruct (String.eqb version VERSION), (str_is_empty method), i as [|i]; cbn;
    try (by intros (_ & _ & ->)%exec_inv; (split; [done|by apply He])).
  - destruct (params_are_structured params); cbn; [|by intros (_ & _ & ->)%exec_inv].
    intros (evs1 & evs2 & db1 & r & _ & Hr & ->)%exec_bind_inv.
    by apply exec_inv in Hr as (_ & _ & ->).
  - case_match; cbn; [by intros (_ & _ & ->)%exec_inv; (split; [done|by apply He])|].
    destruct (params_are_structured params); cbn;
      [|by intros (_ & _ & ->)%exec_inv; (split; [done|by apply He])].
    intros (evs1 & evs2 & db1 & r & _ & Hr & ->)%exec_bind_inv.
    apply exec_inv in Hr as (_ & _ & ->). split; [done|]. destruct r; [by apply Hs|by apply He].
Qed.

Lemma batch_answered env db requests evs db' responses :
  exec env db (batch requests) evs db' responses →
  Forall2 answers (List.filter expects_answer requests) responses.
Proof.
  revert db evs db' responses. induction requests as [|value requests IH]; intros db evs db' responses; cbn.
  { intros (_ & _ & ->)%exec_inv. constructor. }
  intros (evs1 & evs2 & db1 & out & Hsingle & Hrest & ->)%exec_bind_inv.
  apply exec_bind_inv in Hrest as (evs3 & evs4 & db2 & rest & Hrest & Hret & ->).
  apply exec_inv in Hret as (_ & _ & ->). apply IH in Hrest. apply single_answered in Hsingle.
  destruct out as [answer|].
  - destruct Hsingle as [-> Ha]. by constructor.
  - by rewrite Hsingle.
Qed.

(** C30. Every request of a client is answered as JSON-RPC asks, whatever the services
    do: a batch is answered with the responses of its requests in their order, one
    for each but the well-formed notifications; each response has the id of its
    request ([null] when none can be read) and either a result or an error; and
    nothing is sent when nothing is to be answered. *)
Theorem client_requests_are_answered env db value evs db' out :
  exec env db (handle value) evs db' out →
  match value, out with
  | JArray ((_ :: _) as requests), Some v => ∃ responses, v = JArray responses ∧ responses ≠ [] ∧
      Forall2 answers (List.filter expects_answer requests) responses
  | JArray ((_ :: _) as requests), None => List.filter expects_answer requests = []
  | JArray [], answer => ∃ e, answer = Some (response_value (Response_error JNull e))
  | _, Some answer => expects_answer value = true ∧ answers value answer
  | _, None => expects_answer value = false
  end.
Proof.
  intros He. destruct value as [| | | |[|value requests]|]; try (by apply single_answered in He).
  - apply exec_inv in He as (_ & _ & ->). by eexists.
  - apply exec_bind_inv in He as (evs1 & evs2 & db1 & responses & Hb & Hret & ->).
    apply exec_inv in Hret as (_ & _ & ->). apply batch_answered in Hb.
    destruct responses as [|answer responses].
    + by apply Forall2_nil_inv_r in Hb.
    + eexists. split; [done|]. by split.
Qed.

(** ** Changes *)

(** The requests that change a server. *)
Inductive client_change :=
| ChangeState (p : SetServerDesiredStateParams)
| ChangeSpec (p : ApplyServerParams)
| ChangeArchived (p : ArchiveServerParams).

Definition change_method (c : client_change) : string :=
  match c with
  | ChangeState _ => SERVER_SET_DESIRED_STATE
  | ChangeSpec _ => SERVER_APPLY
  | ChangeArchived _ => SERVER_ARCHIVE
  end.
Definition change_decodes (c : client_change) (params : json) : Prop :=
  match c with
  | ChangeState p => from_value params = Ok p
  | ChangeSpec p => from_value params = Ok p
  | ChangeArchived p => from_value params = Ok p
  end.
Definition change_expected (c : client_change) : option Z :=
  match c with
  | ChangeState p => set_expected_generation p
  | ChangeSpec p => apply_expected_generation p
  | ChangeArchived p => archive_expected_generation p
  end.

(** The specification is the one asked for, field by field. *)
Definition compute_asked (asked : client.ComputeSpec) (stored : ComputeSpec) : Prop :=
  match asked, stored with
  | client.Local, CS.Local => True
  | client.Akamai region type image firewall, CS.Akamai region' type' image' firewall' =>
      region' = region ∧ type' = type ∧ image' = image ∧ firewall' = firewall
  | _, _ => False
  end.
Definition process_asked (asked : client.ProcessSpec) (stored : ProcessSpec) : Prop :=
  container_image stored = client.c_container_image asked ∧
  server_type stored = client.c_server_type asked ∧ version stored = client.c_version asked ∧
  host_port stored = client.c_host_port asked ∧
  stop_timeout_seconds stored = client.c_stop_timeout_seconds asked ∧
  accept_eula stored = client.c_accept_eula asked ∧ environment stored = client.c_environment asked.
Definition data_asked (asked : client.DesiredDataSpec) (stored : DataSpec) : Prop :=
  match asked with
  | client.LocalResticAt repo => backend stored = DB.LocalRestic ∧ repository stored = repo
  | client.R2ResticData => backend stored = DB.R2Restic
  end.
Definition spec_asked (asked : client.DesiredServerSpec) (stored : ServerSpec) : Prop :=
  compute_asked (client.c_desired_compute asked) (spec_compute stored) ∧
  process_asked (client.c_desired_process asked) (spec_process stored) ∧
  data_asked (client.c_desired_data asked) (spec_data stored).
Definition state_asked (asked : client.DesiredState) (stored : DesiredState) : Prop :=
  match asked with client.Running => stored = DS.Running | client.Stopped => stored = DS.Stopped end.

(** The server is as the request asks. *)
Definition change_made (c : client_change) (s : Server) : Prop :=
  match c with
  | ChangeState p => srv_name s = set_server_name p ∧ srv_archived_at s = None ∧
      state_asked (set_desired_state_ p) (srv_desired_state s)
  | ChangeSpec p => srv_name s = apply_name p ∧ srv_archived_at s = None ∧
      spec_asked (apply_spec p) (srv_spec s) ∧ ServerSpec_validate (srv_spec s) = Ok tt
  | ChangeArchived p => srv_name s = archive_server_name p ∧ is_Some (srv_archived_at s)
  end.

(** An applied server is new, with the repository that the storage's base address gives
    its name when it is stored there; or it was there during the request with the very
    same data, and at most one generation before. *)
Definition change_keeps_data (c : client_change) (db : Database) (s : Server) : Prop :=
  match c with
  | ChangeSpec p =>
      (srv_generation s = 1 ∧ (backend (spec_data (srv_spec s)) = DB.R2Restic → ∃ base,
         r2_base = Some base ∧
         repository (spec_data (srv_spec s)) = base ++ "/servers/" ++ apply_name p ++ "/restic")) ∨
      ∃ dbm before, rtc db_step db dbm ∧ server_in dbm before ∧ srv_id before = srv_id s ∧
        spec_data (srv_spec before) = spec_data (srv_spec s) ∧
        (srv_generation s = srv_generation before ∨ srv_generation s = srv_generation before + 1)
  | _ => True
  end.

Lemma spec_asked_domain asked s :
  spec_compute s = desired_compute (domain_desired_spec asked) →
  spec_process s = desired_process (domain_desired_spec asked) →
  data_as (domain_desired_spec asked) (spec_data s) → spec_asked asked s.
Proof.
  unfold spec_asked, data_as. intros -> -> Hd. split_and!.
  - cbn. by destruct (client.c_desired_compute asked).
  - by split_and!.
  - cbn in Hd. by destruct (client.c_desired_data asked).
Qed.

(** The service that a change is handed to. *)
Definition change_service (c : client_change) : prog (result ApplicationError Server) :=
  match c with
  | ChangeState p => ServerService_set_desired_state (set_server_name p)
      (domain_desired_state (set_desired_state_ p)) (set_expected_generation p)
  | ChangeSpec p => ServerService_apply r2_base (apply_name p) (domain_desired_spec (apply_spec p))
      (apply_expected_generation p)
  | ChangeArchived p => ServerService_archive (archive_server_name p) (archive_expected_generation p)
  end.

Lemma dispatch_change c params :
  change_decodes c params →
  rpc_dispatch package_version r2_base (change_method c) params =
    rpc_respond protocol_server (change_service c).
Proof.
  destruct c as [p|p|p]; cbn [change_decodes change_method change_service]; intros Hp.
  - change (rpc_dispatch package_version r2_base SERVER_SET_DESIRED_STATE params) with
      (try_bind id (Ret (rpc_parse_params (A := SetServerDesiredStateParams) params)) (λ p,
        rpc_respond protocol_server (change_service (ChangeState p)))).
    unfold rpc_parse_params. by rewrite Hp.
  - change (rpc_dispatch package_version r2_base SERVER_APPLY params) with
      (try_bind id (Ret (rpc_parse_params (A := ApplyServerParams) params)) (λ p,
        rpc_respond protocol_server (change_service (ChangeSpec p)))).
    unfold rpc_parse_params. by rewrite Hp.
  - change (rpc_dispatch package_version r2_base SERVER_ARCHIVE params) with
      (try_bind id (Ret (rpc_parse_params (A := ArchiveServerParams) params)) (λ p,
        rpc_respond protocol_server (change_service (ChangeArchived p)))).
    unfold rpc_parse_params. by rewrite Hp.
Qed.

Lemma change_service_outcome c db evs db' r :
  reachable db → exec db_step db (change_service c) evs db' r →
  reachable db' ∧ ∀ s, r = Ok s → change_made c s ∧ served db db' s ∧ change_keeps_data c db s ∧
    ∀ g, change_expected c = Some g → srv_generation s = g ∨ srv_generation s = g + 1.
Proof.
  intros Hr. destruct c as [p|p|p]; cbn [change_service]; intros He.
  - apply set_desired_state_outcome in He as [Hr' Ho]; [|done]. split; [done|]. intros s ->.
    destruct Ho as (? & Hd & ? & ? & ?). split_and!; try done. split_and!; [done..|].
    rewrite Hd. by destruct (set_desired_state_ p).
  - apply apply_outcome in He as [Hr' Ho]; [|done]. split; [done|]. intros s ->.
    destruct Ho as (? & ? & ? & ? & ? & ? & Hd & ? & ?). split_and!; try done.
    { split_and!; [done..| |done]. by apply spec_asked_domain. }
    destruct Hd as [[Hg Hd]|Hd]; [left|by right]. split; [done|]. intros Hb%Hd.
    unfold ServerService_r2_repository in Hb. destruct r2_base as [base|]; [|done].
    exists base. split; [done|]. by injection Hb.
  - apply archive_outcome in He as [Hr' Ho]; [|done]. split; [done|]. intros s ->.
    destruct Ho as (? & ? & ? & ? & ?). done.
Qed.

(** A request that is executed: well-formed, with an id. *)
Definition asks (value : json) (method : string) (params i : json) : Prop :=
  from_value value = Ok {| req_jsonrpc := VERSION; req_method := method; req_params := params;
                           req_id := RI.Present i |} ∧
  method ≠ EmptyString ∧ id_is_valid (RI.Present i) = true ∧ params_are_structured params = true.

Lemma asks_single value method params i :
  asks value method params i →
  single value = prog_bind (rpc_dispatch package_version r2_base method params) (λ r,
    Ret (Some match r with
      | Ok v => response_value (Response_success i v)
      | Err e => response_value (Response_error i
          (rpc_error_object describe_validation describe_application e))
      end)).
Proof.
  intros (Hv & Hm & Hi & Hp). unfold handle_single. rewrite Hv.
  cbn [req_jsonrpc req_method req_params req_id]. rewrite String.eqb_refl, Hi, Hp.
  by destruct method.
Qed.

End client.

(** ** Examples *)

Section witnesses.
#[local] Existing Instances bits_codec bits_codec_laws.
#[local] Existing Instances request_from_json response_to_json.

(** The parts of the messages that the examples look at. *)
#[local] Instance: Deserialize SetServerDesiredStateParams := λ v,
  match json_string_field "server_name" v, json_string_field "desired_state" v with
  | Some name, Some state =>
      if String.eqb state "running" then
        Ok {| set_server_name := name; set_desired_state_ := client.Running;
              set_expected_generation := None |}
      else if String.eqb state "stopped" then
        Ok {| set_server_name := name; set_desired_state_ := client.Stopped;
              set_expected_generation := None |}
      else Err "unknown variant"
  | _, _ => Err "missing field"
  end.
#[local] Instance: Serialize ServerResource := λ r,
  Ok (JObject [("generation", JNumber (JInt (res_generation r))); ("name", JString (res_name r))]).
#[local] Instance other_deserialize A : Deserialize A | 100 := λ _, Err "unexpected message".
#[local] Instance other_serialize A : Serialize A | 100 := λ _, Err "unexpected message".

Definition example_params : json :=
  JObject [("desired_state", JString "stopped"); ("server_name", JString "survival")].
Definition example_call : json :=
  JObject [("id", JString "a"); ("jsonrpc", JString VERSION);
           ("method", JString SERVER_SET_DESIRED_STATE); ("params", example_params)].
Definition example_notification : json :=
  JObject [("jsonrpc", JString VERSION); ("method", JString SYSTEM_PING)].

Definition example_batch :=
  simulate (handle_value "0.1.0" (λ _, "invalid") (λ _, "failed") None
    (JArray [example_call; example_notification; JNull])) initial_world example_stopped_db.

Lemma client_requests_are_answered_witness :
  ∃ responses, example_batch.2 = Some (JArray responses) ∧ length responses = 2%nat ∧
    Forall2 answers [example_call; JNull] responses.
Proof.
  destruct example_batch as [[[evs w] db] out] eqn:E.
  assert (is_some out = true) as Ho.
  { change out with (evs, w, db, out).2. rewrite <- E. by vm_compute. }
  unfold example_batch in E. apply (simulate_exec db_step) in E as [He _]; [|done].
  apply client_requests_are_answered in He. destruct out as [v|]; [|discriminate Ho].
  destruct He as (responses & -> & _ & Hf). exists responses. split; [done|].
  change (List.filter expects_answer _) with [example_call; JNull] in Hf.
  split; [|exact Hf]. by apply Forall2_length in Hf as <-.
Defined.

Definition example_change :=
  simulate (handle_single "0.1.0" (λ _, "invalid") (λ _, "failed") None example_call)
    initial_world example_stopped_db.

End witnesses.
