(* ===== verification/SocketProperties.v ===== *)
(** What the client socket guarantees: a connection handles the messages of its
    stream one after another, and starting up takes a path away from nobody. *)
From S2P Require Import Prelude Text Net Programs JsonRpc Framing Server Instances Database.
From S2P Require Import Repositories Codecs MessageCodecs Effects Application.
From S2P Require Import ClientProtocol ClientRpc UnixSocket.
#[local] Open Scope string_scope.
#[local] Open Scope Z_scope.
#[local] Open Scope prog_scope.

Section connection.
Context `{JsonTextLaws}.

(** [handle] answers the text of a value as [answer] answers the value. *)
Variable handle : bytes → prog (option json).
Variable answer : json → prog (option json).
Hypothesis handle_text : ∀ text v, from_slice text = Ok v → handle text = answer v.
Variable maximum : Z.

(** The reference: the messages in their order, then the end of the stream. *)
Fixpoint serve_messages (values : list json) (ending : result UnixSocketError unit) :
    client_prog (option (result UnixSocketError unit)) :=
  let! cancelled := perform ClientCancelled in
  if (cancelled : bool) then Ret (Some (Ok tt))
  else match values with
  | [] => Ret (Some ending)
  | v :: values =>
      let! ended := respond_line (answer v) in
      match ended with
      | Some outcome => Ret (Some outcome)
      | None => serve_messages values ending
      end
  end.

(** How the stream ends. *)
Definition stream_ending (reader : list fill) : result UnixSocketError unit :=
  match stream_error reader with Some e => Err (USE.Io e) | None => Ok tt end.

Lemma read_at_end reader :
  0 ≤ maximum < u64_max → stream_bytes reader = [] →
  socket_read_frame reader maximum =
    match stream_error reader with
    | Some e => (Err (USE.Io e), [], snd (socket_read_frame reader maximum))
    | None => (Ok 0, [], snd (socket_read_frame reader maximum))
    end.
Proof. intros Hm. by destruct reader as [|[[|]|] reader]. Qed.

Lemma client_serves values written reader fuel :
  write_values USE.Serialization values = Ok written →
  Forall (λ v, ∀ line, write_value USE.Serialization v = Ok line →
    Z.of_nat (length line) ≤ maximum) values →
  0 ≤ maximum < u64_max → stream_bytes reader = written → fuel = S (length values) →
  handle_client handle maximum fuel reader ≡ serve_messages values (stream_ending reader).
Proof.
  intros Hw Hl Hm. revert written reader fuel Hw.
  induction Hl as [|v values Hv Hl IH]; intros written reader fuel Hw Hs Hfuel.
  - injection Hw as <-. subst fuel. constructor. intros [|]; [reflexivity|].
    cbn -[socket_read_frame]. rewrite read_at_end by done. unfold stream_ending.
    by destruct (stream_error reader).
  - cbn [write_values] in Hw. inv_res. unfold write_value in *. inv_res.
    match goal with Ht : to_vec v = Ok ?t |- _ => rename t into text; rename Ht into Htext end.
    match goal with Ht : write_values _ values = Ok ?t |- _ =>
      rename t into rest; rename Ht into Hrest end.
    rewrite Htext in Hv. specialize (Hv _ eq_refl).
    destruct (read_frame_of USE.Io USE.FrameTooLarge v text rest reader maximum Htext
      ltac:(lia) Hs) as (reader' & Hf & Hr & He & Hline).
    specialize (IH rest reader' (S (length values)) Hrest Hr eq_refl).
    cbn [length]. generalize dependent (S (length values)). intros fuel IH.
    constructor. intros [|]; [reflexivity|]. cbv beta iota.
    cbn -[socket_read_frame respond_line trim_line_ending utf8_valid handle_client serve_messages].
    unfold socket_read_frame. rewrite Hf, Hline, length_app. cbn [length].
    destruct (Z.eqb_spec (Z.of_nat (length text + 1)) 0); [lia|].
    pose proof (json_text_one_line _ _ Htext) as [Hne _].
    rewrite (json_text_utf8 _ _ Htext), (handle_text _ _ (json_text_round_trip _ _ Htext)).
    destruct text as [|c text]; [done|].
    apply prog_bind_proper; [reflexivity|]. intros [outcome|]; [reflexivity|].
    rewrite IH. unfold stream_ending. by rewrite He.
Qed.
End connection.

Section server.
Context `{Codec} `{JsonTextLaws} `{Deserialize Request} `{Serialize Response}.
Context `{Deserialize CreateServerParams} `{Deserialize ApplyServerParams}.
Context `{Deserialize GetServerParams} `{Deserialize ListServersParams}.
Context `{Deserialize SetServerDesiredStateParams} `{Deserialize ArchiveServerParams}.
Context `{Deserialize GetServerInstanceParams} `{Deserialize ListServerInstancesParams}.
Context `{Serialize PingResult} `{Serialize ServerResource} `{Serialize ListServersResult}.
Context `{Serialize ServerStatusResource} `{Serialize ServerInstanceResource}.
Context `{Serialize ListServerInstancesResult}.
Context (package_version : string).
Context (describe_validation : ValidationError → string).
Context (describe_application : ApplicationError → string).
Context (r2_base : option string).

(** A connection whose client writes JSON messages, each within the frame limit, is
    the reference server: whatever the chunks in which the bytes arrive, each message
    is handled and answered before the next one is looked at, nothing else is done,
    and the connection ends when the stream does, when an answer cannot be written or
    when it is cancelled; it never stops half-way through a message. *)
Theorem connection_serves_messages values written reader maximum :
  write_values USE.Serialization values = Ok written →
  Forall (λ v, ∀ line, write_value USE.Serialization v = Ok line →
    Z.of_nat (length line) ≤ maximum) values →
  0 ≤ maximum < u64_max → stream_bytes reader = written →
  handle_client (handle_json package_version describe_validation describe_application r2_base)
    maximum (S (length values)) reader ≡
  serve_messages (handle_value package_version describe_validation describe_application r2_base)
    values (stream_ending reader).
Proof.
  intros Hw Hl Hm Hs. eapply client_serves; [|done..].
  intros text v Hv. unfold handle_json. by rewrite Hv.
Qed.
End server.

(** ** The socket's path *)

(** Nothing is at the path. *)
Definition path_free (past : list (gevent socket_op)) : Prop :=
  GEvent SocketMetadata (Err IoNotFound) ∈ past ∨ GEvent RemoveSocket (Ok tt) ∈ past.

(** What the past has to show before an operation on the path. *)
Definition socket_op_justified (mode : Z) (past : list (gevent socket_op)) (X : Type) (o : socket_op X) :
    Prop :=
  match o with
  | RemoveSocket => GEvent SocketMetadata (Ok true) ∈ past ∧
      (GEvent ConnectSocket ProbeRefused ∈ past ∨ GEvent ConnectSocket (ProbeFailed IoNotFound) ∈ past)
  | BindSocket => path_free past
  | SetSocketMode m => m = mode ∧ GEvent BindSocket (Ok tt) ∈ past
  | _ => True
  end.

(** What the past has to show for an error, and for a success. *)
Definition socket_path_outcome (path : string) (bound : Prop) (past : list (gevent socket_op))
    (r : result UnixSocketError unit) : Prop :=
  match r with
  | Ok _ => bound
  | Err (USE.AlreadyRunning p) => p = path ∧ GEvent ConnectSocket ProbeConnected ∈ past
  | Err (USE.PathOccupied p) => p = path ∧ GEvent SocketMetadata (Ok false) ∈ past
  | Err (USE.SocketProbe p e) => p = path ∧ GEvent ConnectSocket (ProbeFailed e) ∈ past
  | Err (USE.Io e) => GEvent CreateParent (Err e) ∈ past ∨ GEvent SocketMetadata (Err e) ∈ past ∨
      GEvent RemoveSocket (Err e) ∈ past ∨ GEvent BindSocket (Err e) ∈ past ∨
      ∃ mode, GEvent (SetSocketMode mode) (Err e) ∈ past
  | Err (USE.MissingParent p) => p = path ∧ path_has_parent path = false ∧ past = []
  | Err _ => False
  end.

Lemma prepare_socket_path_traced path mode :
  gtraced (socket_op_justified mode) (λ past, socket_path_outcome path (path_free past) past) []
    (prepare_socket_path path).
Proof.
  assert (∀ (e : gevent socket_op) past, e ∈ e :: past) by (intros; by left).
  assert (∀ (e e' : gevent socket_op) past, e ∈ past → e ∈ e' :: past) by (intros; by right).
  unfold prepare_socket_path, path_free. destruct (path_has_parent path) eqn:Hp; cbn [negb]; [|done].
  repeat (gfollow_step; cbv beta);
    repeat match goal with a : unit |- _ => destruct a end;
    cbn [socket_op_justified socket_path_outcome]; eauto 10.
Qed.

Lemma bind_traced path mode :
  gtraced (socket_op_justified mode)
    (λ past, socket_path_outcome path (GEvent (SetSocketMode mode) (Ok tt) ∈ past) past) []
    (UnixSocketServer_bind path mode).
Proof.
  eapply (gtraced_try _ (λ past _, path_free past)).
  { eapply gtraced_post; [apply prepare_socket_path_traced|]. intros past [u|e]; [done|]. by destruct e. }
  intros past [] Hfree. apply gtraced_perform; [done|]. intros [[]|e]; [|cbn; set_solver].
  apply gtraced_perform; [split; [done|]; by left|]. intros [[]|e]; cbn; [by left|].
  do 4 right. exists mode. by left.
Qed.

(** Starting up takes the socket's path away from nobody: what is there is removed
    only after it was seen to be a socket and connecting to it was refused or found
    nothing. The socket is bound only when nothing was there or the removal succeeded,
    and the start succeeds only when the bound socket has got the configured
    permissions; a socket that answers, a file that is no socket and a failed probe are
    each reported as what they are. *)
Theorem socket_takeover_is_safe path mode evs r :
  trace (UnixSocketServer_bind path mode) evs r →
  (∀ e1 x e2, evs = (e1 ++ GEvent RemoveSocket x :: e2)%list →
    GEvent SocketMetadata (Ok true) ∈ e1 ∧
    (GEvent ConnectSocket ProbeRefused ∈ e1 ∨ GEvent ConnectSocket (ProbeFailed IoNotFound) ∈ e1)) ∧
  (∀ e1 x e2, evs = (e1 ++ GEvent BindSocket x :: e2)%list → path_free e1) ∧
  (∀ e1 m x e2, evs = (e1 ++ GEvent (SetSocketMode m) x :: e2)%list →
    m = mode ∧ GEvent BindSocket (Ok tt) ∈ e1) ∧
  ∀ outcome, r = Some outcome →
    socket_path_outcome path (GEvent (SetSocketMode mode) (Ok tt) ∈ evs) (rev evs) outcome.
Proof.
  intros Ht. destruct (trace_gtraced _ _ _ _ _ _ Ht (bind_traced path mode)) as [HP HQ].
  split_and!.
  - intros e1 x e2 He. specialize (HP _ _ _ _ _ He). rewrite app_nil_r in HP. cbn in HP.
    by rewrite !elem_of_rev in HP.
  - intros e1 x e2 He. specialize (HP _ _ _ _ _ He). rewrite app_nil_r in HP.
    unfold socket_op_justified, path_free in *. by rewrite !elem_of_rev in HP.
  - intros e1 m x e2 He. specialize (HP _ _ _ _ _ He). rewrite app_nil_r in HP. cbn in HP.
    by rewrite !elem_of_rev in HP.
  - intros outcome Ho. specialize (HQ _ Ho). rewrite app_nil_r in HQ.
    destruct outcome; cbn in *; [|done]. by rewrite elem_of_rev in HQ.
Qed.

(** ** Examples *)

Section witnesses.
#[local] Existing Instances bits_codec bits_json_text bits_json_text_laws.
#[local] Existing Instances request_from_json response_to_json.
#[local] Instance other_deserialize A : Deserialize A | 100 := λ _, Err "unexpected message".
#[local] Instance other_serialize A : Serialize A | 100 := λ _, Err "unexpected message".

Definition example_requests : list json :=
  [JObject [("id", JString "a"); ("jsonrpc", JString VERSION); ("method", JString "unknown")]; JNull].
Definition example_request_text : bytes :=
  match write_values USE.Serialization example_requests with Ok w => w | Err _ => [] end.
Definition example_stream : list fill :=
  [Chunk (take 7 example_request_text); Chunk (drop 7 example_request_text)].

Lemma connection_serves_messages_witness :
  handle_client (handle_json "0.1.0" (λ _, "invalid") (λ _, "failed") None) 1000 3 example_stream ≡
  serve_messages (handle_value "0.1.0" (λ _, "invalid") (λ _, "failed") None)
    example_requests (Ok tt).
Proof.
  apply (connection_serves_messages "0.1.0" (λ _, "invalid") (λ _, "failed") None
    example_requests example_request_text example_stream 1000).
  - by vm_compute.
  - repeat constructor; intros line [= <-]; by vm_compute.
  - by vm_compute.
  - by vm_compute.
Defined.

Lemma socket_takeover_is_safe_witness :
  let evs := [GEvent CreateParent (Ok tt); GEvent SocketMetadata (Ok true);
              GEvent ConnectSocket ProbeRefused; GEvent RemoveSocket (Ok tt);
              GEvent BindSocket (Ok tt); GEvent (SetSocketMode 384) (Ok tt)] in
  GEvent (SetSocketMode 384) (Ok tt) ∈ evs ∧
  path_free [GEvent CreateParent (Ok tt); GEvent SocketMetadata (Ok true);
             GEvent ConnectSocket ProbeRefused; GEvent RemoveSocket (Ok tt)].
Proof.
  intros evs. destruct (socket_takeover_is_safe "/run/mcserver/control.sock" 384 evs (Some (Ok tt)))
    as (_ & Hbound & _ & Hout); [by repeat constructor|]. split.
  - exact (Hout (Ok tt) eq_refl).
  - exact (Hbound [_; _; _; _] _ _ eq_refl).
Defined.
End witnesses.
