(* ===== verification/Listeners.v ===== *)
(** The listeners of the control plane: accepting the connections of node agents
    (crates/mcserver-control-plane/src/agent/server.rs: [AgentServer], [TlsAgentServer],
    [run_listener], [accept_stream]) and of clients (interface/unix_socket.rs:
    [UnixSocketServer]). The loop that accepts runs beside the tasks it has spawned: it is
    a step relation over the loop's own state and the rest of each task's program. *)
From S2P Require Import Prelude Text Net Programs JsonRpc Framing Server Instances Database.
From S2P Require Import Repositories ComputeRepository Effects NodeConfig NodeAgent NodeTransport.
From S2P Require Import AgentServer Application ClientProtocol ClientRpc UnixSocket.
#[local] Open Scope string_scope.
#[local] Open Scope Z_scope.
#[local] Open Scope prog_scope.

Definition MAX_CONCURRENT_AGENT_CONNECTIONS : nat := 256.

(** ** The loop that accepts connections *)

Section accept_loop.
Context {O : Type → Type} {E : Type}.

(** [From<io::Error>] for the error of the loop. *)
Variable accept_error : io_error → E.
(** The permits of the semaphore, where there is one. *)
Variable limit : option nat.
(** The task of the connection with this number; [None] when the model of it was
    given too little fuel, which no task ends with. *)
Variable serve : nat → gprog O (option unit).

(** A task of the [JoinSet]: what is left of it, or how it ended. *)
Inductive task :=
| Running (rest : gprog O (option unit))
| Ended (panicked : bool).

Inductive loop_phase :=
| Accepting
| Draining
| Returned (r : result E unit).

(** The connections carry the numbers in which they were accepted. *)
Record accept_loop := {
  al_permits : option nat;
  al_connections : gmap nat task;
  al_next : nat;
  al_phase : loop_phase;
}.

Definition accept_loop_start : accept_loop := {|
  al_permits := limit; al_connections := ∅; al_next := 0; al_phase := Accepting |}.

Definition with_phase (phase : loop_phase) (s : accept_loop) : accept_loop := {|
  al_permits := al_permits s; al_connections := al_connections s;
  al_next := al_next s; al_phase := phase |}.

(** [try_acquire_owned]; a loop without a semaphore has no limit. *)
Definition try_acquire (permits : option nat) : option (option nat) :=
  match permits with
  | None => Some None
  | Some 0%nat => None
  | Some (S permits) => Some (Some permits)
  end.

(** An accepted connection is dropped when there is no permit for it, and is a task of
    its own otherwise. *)
Definition on_accepted (s : accept_loop) : bool * accept_loop :=
  match try_acquire (al_permits s) with
  | None => (false, s)
  | Some permits =>
      (true, {| al_permits := permits;
                al_connections := <[al_next s := Running (serve (al_next s))]> (al_connections s);
                al_next := S (al_next s); al_phase := al_phase s |})
  end.

(** [accepted?]: the loop returns, and its [JoinSet] is dropped with all its tasks. *)
Definition on_accept_failed (error : io_error) (s : accept_loop) : accept_loop := {|
  al_permits := limit; al_connections := ∅; al_next := al_next s;
  al_phase := Returned (Err (accept_error error)) |}.

(** A task that ends, by itself or by a panic, drops its permit. *)
Definition on_task_ended (id : nat) (panicked : bool) (s : accept_loop) : accept_loop := {|
  al_permits := S <$> al_permits s;
  al_connections := <[id := Ended panicked]> (al_connections s);
  al_next := al_next s; al_phase := al_phase s |}.

Definition on_joined (id : nat) (s : accept_loop) : accept_loop := {|
  al_permits := al_permits s; al_connections := delete id (al_connections s);
  al_next := al_next s; al_phase := al_phase s |}.

Inductive loop_event :=
| EvCancelled
| EvAccepted (spawned : bool)
| EvAcceptFailed (error : io_error)
| EvDid (id : nat) (e : gevent O)
| EvEnded (id : nat) (panicked : bool)
| EvJoined (id : nat)
| EvReturned.

Definition loop_returned (s : accept_loop) : bool :=
  match al_phase s with Returned _ => true | _ => false end.

(** The branches of [select!], the loop that drains the tasks, and the tasks. *)
Inductive accept_step (s : accept_loop) : loop_event → accept_loop → Prop :=
| step_cancelled :
    al_phase s = Accepting → accept_step s EvCancelled (with_phase Draining s)
| step_accepted spawned s' :
    al_phase s = Accepting → on_accepted s = (spawned, s') → accept_step s (EvAccepted spawned) s'
| step_accept_failed error :
    al_phase s = Accepting → accept_step s (EvAcceptFailed error) (on_accept_failed error s)
| step_did id X (o : O X) k x :
    al_connections s !! id = Some (Running (Op o k)) →
    accept_step s (EvDid id (GEvent o x)) {|
      al_permits := al_permits s;
      al_connections := <[id := Running (k x)]> (al_connections s);
      al_next := al_next s; al_phase := al_phase s |}
| step_ended id :
    al_connections s !! id = Some (Running (Ret (Some tt))) →
    accept_step s (EvEnded id false) (on_task_ended id false s)
| step_panicked id rest :
    al_connections s !! id = Some (Running rest) →
    accept_step s (EvEnded id true) (on_task_ended id true s)
| step_joined id panicked :
    loop_returned s = false → al_connections s !! id = Some (Ended panicked) →
    accept_step s (EvJoined id) (on_joined id s)
| step_returned :
    al_phase s = Draining → al_connections s = ∅ →
    accept_step s EvReturned (with_phase (Returned (Ok tt)) s).

(** What happened so far, and the state it led to. *)
Inductive accept_history : list loop_event → accept_loop → Prop :=
| history_start : accept_history [] accept_loop_start
| history_step h s e s' :
    accept_history h s → accept_step s e s' → accept_history (h ++ [e]) s'.
End accept_loop.
Arguments task : clear implicits.
Arguments accept_loop : clear implicits.
Arguments loop_event : clear implicits.

(** ** Node agents *)

(** The operations of a connection's task: the TLS handshake, [None] when it timed out,
    with the certificates of the peer, and what is done on the stream. *)
Inductive stream_op : Type → Type :=
| Handshake : stream_op (option (result io_error (option (list string))))
| OnStream {X} (o : agent_op X) : stream_op X.

Definition on_stream (X : Type) (o : agent_op X) : stream_op X := OnStream o.

(** [accept_stream]: the certificate that the peer showed. *)
Definition accept_stream (tls : bool) : gprog stream_op (result AgentServerError (option string)) :=
  if negb tls then Ret (Ok None)
  else
    let! shaken := perform Handshake in
    Ret match shaken with
        | None => Err ASE.TlsHandshakeTimeout
        | Some (Err error) => Err (ASE.TlsHandshake error)
        | Some (Ok certificates) => Ok (from_option head None certificates)
        end.

(** The contexts of the two listeners. *)
Definition local_context : ConnectionContext := {|
  expected_provider := CP.LocalProcess; has_certificate_authority := false;
  has_server_instance_repository := false; has_r2_credentials := false |}.
Definition remote_context : ConnectionContext := {|
  expected_provider := CP.Akamai; has_certificate_authority := true;
  has_server_instance_repository := true; has_r2_credentials := true |}.

Section agent_listener.
Context `{Codec}.
Context `{Deserialize Request} `{Deserialize AgentWireResponse} `{Serialize Response}.
Context `{Deserialize EnrollParams} `{Serialize EnrollResult}.
Context `{Deserialize RegisterParams} `{Serialize RegisterResult}.
Variable describe : AgentServerError → string.
Variable context : ConnectionContext.
Variable tls : bool.

(** The task that is spawned for a connection: its errors are only logged. *)
Definition serve_agent (fuel : nat) : gprog stream_op (option unit) :=
  let! stream := accept_stream tls in
  match stream with
  | Ok peer_certificate_der =>
      let! ended := prog_map on_stream (handle_connection describe context fuel peer_certificate_der) in
      Ret (match ended with Some _ => Some tt | None => None end)
  | Err _ => Ret (Some tt)
  end.

(** [run_listener]; [fuel] bounds the commands of each session. *)
Definition run_listener (fuel : nat → nat) :
    list (loop_event stream_op) → accept_loop stream_op AgentServerError → Prop :=
  accept_history ASE.Io (Some MAX_CONCURRENT_AGENT_CONNECTIONS) (λ id, serve_agent (fuel id)).
End agent_listener.

(** ** TLS *)

Inductive bind_op : Type → Type :=
| BindRead (path : string) : bind_op (result io_error string)
| BindTcp (address : string) : bind_op (result io_error unit)
(* [local_addr()?], for the log *)
| BindLocalAddress : bind_op (result io_error unit).

(** [AgentServer::bind] and the context of its connections. *)
Definition AgentServer_bind (address : string) : gprog bind_op (result AgentServerError ConnectionContext) :=
  let? _ := perform (BindTcp address) via ASE.Io in
  let? _ := perform BindLocalAddress via ASE.Io in
  Ret (Ok local_context).

Record TlsAgentServerOptions := {
  tls_address : string;
  tls_certificate_path : string;
  tls_private_key_path : string;
  tls_client_ca_certificate_path : string;
}.

Section tls.
(** rustls and rustls_pemfile: the certificates and the private key of a PEM file, a
    root of trust, the verifier that the roots make, which lets clients without a
    certificate in, and the configuration of the server. *)
Context {Verifier ServerConfig : Type}.
Variable pem_certs : string → result io_error (list string).
Variable pem_private_key : string → result io_error (option string).
Variable root_certificate : string → result string unit.
Variable client_verifier : list string → result string Verifier.
Variable with_single_cert : Verifier → list string → string → result string ServerConfig.

Definition TlsAgentServer_bind (options : TlsAgentServerOptions) :
    gprog bind_op (result AgentServerError (ServerConfig * ConnectionContext)) :=
  let? certificate := perform (BindRead (tls_certificate_path options)) via ASE.Io in
  let? private_key := perform (BindRead (tls_private_key_path options)) via ASE.Io in
  let? client_ca := perform (BindRead (tls_client_ca_certificate_path options)) via ASE.Io in
  let? certificates := Ret (pem_certs certificate) via ASE.Io in
  if bool_decide (certificates = [])
  then Ret (Err (ASE.TlsConfiguration "TLS certificate file contains no certificates"))
  else
    let? private_key := Ret (pem_private_key private_key) via ASE.Io in
    let? private_key := Ret (ok_or (ASE.TlsConfiguration
      "TLS private key file contains no supported private key") private_key) via id in
    let? client_ca_certificates := Ret (pem_certs client_ca) via ASE.Io in
    if bool_decide (client_ca_certificates = [])
    then Ret (Err (ASE.TlsConfiguration "agent client CA file contains no certificates"))
    else
      let? _ := Ret (for_each root_certificate client_ca_certificates) via ASE.TlsConfiguration in
      let? verifier := Ret (client_verifier client_ca_certificates) via ASE.TlsConfiguration in
      let? server_config := Ret (with_single_cert verifier certificates private_key)
        via ASE.TlsConfiguration in
      let? _ := perform (BindTcp (tls_address options)) via ASE.Io in
      let? _ := perform BindLocalAddress via ASE.Io in
      Ret (Ok (server_config, remote_context)).
End tls.

(** ** Clients *)

Section client_listener.
Context `{JsonText}.
Variable handle : bytes → prog (option json).
Variable max_frame_bytes : Z.

(** The task of a client's connection: its errors are only logged. *)
Definition serve_client (fuel : nat) (reader : list fill) : gprog client_op (option unit) :=
  let! ended := handle_client handle max_frame_bytes fuel reader in
  Ret (match ended with Some _ => Some tt | None => None end).

(** The loop of [UnixSocketServer::run]; what the clients send is [readers]. *)
Definition run_clients (fuel : nat → nat) (readers : nat → list fill) :
    list (loop_event client_op) → accept_loop client_op UnixSocketError → Prop :=
  accept_history USE.Io None (λ id, serve_client (fuel id) (readers id)).
End client_listener.
