(* ===== verification/ListenerProperties.v ===== *)
(** What the listeners guarantee: the number of connections that are served at the same
    time is bounded, each is served as if it were alone, and a listener that is told to
    end serves all of them to their end. *)
From S2P Require Import Prelude Text Net Programs JsonRpc Framing Server Instances Database.
From S2P Require Import Repositories ComputeRepository Effects NodeConfig NodeAgent NodeTransport.
From S2P Require Import PersistenceProperties Codecs MessageCodecs AgentServer.
From S2P Require Import AgentProperties Application ClientProtocol ClientRpc UnixSocket Listeners.
#[local] Open Scope Z_scope.
#[local] Open Scope prog_scope.

(** ** Histories *)

Section histories.
Context {O : Type → Type}.

(** What the task of a connection did. *)
Definition did (id : nat) (e : loop_event O) : option (gevent O) :=
  match e with EvDid i ev => if decide (i = id) then Some ev else None | _ => None end.
Definition events_of (id : nat) (h : list (loop_event O)) : list (gevent O) := omap (did id) h.

Definition spawned (h : list (loop_event O)) : nat :=
  length (List.filter (λ e, match e with EvAccepted spawned => spawned | _ => false end) h).
Definition ended_ids (h : list (loop_event O)) : list nat :=
  omap (λ e, match e with EvEnded id _ => Some id | _ => None end) h.
(** The tasks that ended by themselves. *)
Definition finished_ids (h : list (loop_event O)) : list nat :=
  omap (λ e, match e with EvEnded id false => Some id | _ => None end) h.
(** The connections that were accepted and whose tasks have not ended. *)
Definition open_connections (h : list (loop_event O)) : nat := spawned h - length (ended_ids h).

Lemma events_of_snoc id h e :
  events_of id (h ++ [e]) = (events_of id h ++ from_option (λ ev, [ev]) [] (did id e))%list.
Proof. unfold events_of. rewrite omap_app. cbn. by destruct (did id e). Qed.
Lemma spawned_snoc h e : spawned (h ++ [e]) =
  (spawned h + match e with EvAccepted true => 1 | _ => 0 end)%nat.
Proof. unfold spawned. rewrite List.filter_app, length_app. by destruct e as [|[]| | | | |]. Qed.
Lemma ended_ids_snoc h e : ended_ids (h ++ [e]) =
  (ended_ids h ++ match e with EvEnded id _ => [id] | _ => [] end)%list.
Proof. unfold ended_ids. rewrite omap_app. by destruct e. Qed.
Lemma elem_of_ended_ids id h : id ∈ ended_ids h ↔ ∃ panicked, EvEnded id panicked ∈ h.
Proof.
  unfold ended_ids. rewrite list_elem_of_omap. split.
  - intros (e & Hin & He). destruct e; simplify_eq. eauto.
  - intros [b Hin]. by exists (EvEnded id b).
Qed.
Lemma elem_of_finished_ids id h : id ∈ finished_ids h ↔ EvEnded id false ∈ h.
Proof.
  unfold finished_ids. rewrite list_elem_of_omap. split.
  - intros (e & Hin & He). destruct e as [| | | |i []| |]; by simplify_eq.
  - intros Hin. by exists (EvEnded id false).
Qed.
Lemma distinct_below n (l : list nat) : NoDup l → (∀ id, id ∈ l → (id < n)%nat) → (length l ≤ n)%nat.
Proof.
  intros Hn Hl. trans (length (seq 0 n)); [|by rewrite length_seq]. apply submseteq_length, NoDup_submseteq; [done|].
  intros id Hid. apply elem_of_seq. specialize (Hl _ Hid). lia.
Qed.
End histories.

(** ** The loop *)

Section accept_loop.
Context {O : Type → Type} {E : Type} (accept_error : io_error → E) (limit : option nat).
Context (serve : nat → gprog O (option unit)).
#[local] Abbreviation history := (accept_history accept_error limit serve).

(** What is done so far, and what [p] will do, is something that [q] does. *)
Definition follows (q : gprog O (option unit)) (evs : list (gevent O)) (p : gprog O (option unit)) : Prop :=
  ∀ evs' r, trace p evs' r → trace q (evs ++ evs') r.

Record loop_ok (h : list (loop_event O)) (s : accept_loop O E) : Prop := {
  lo_next : al_next s = spawned h;
  lo_numbers : ∀ id t, al_connections s !! id = Some t → (id < al_next s)%nat;
  lo_running : ∀ id p, al_connections s !! id = Some (Running p) →
    follows (serve id) (events_of id h) p ∧ id ∉ ended_ids h;
  lo_later : ∀ id, (al_next s ≤ id)%nat → events_of id h = [];
  lo_ended_numbers : ∀ id, id ∈ ended_ids h → (id < al_next s)%nat;
  lo_ended_once : NoDup (ended_ids h);
  lo_kept : ∀ id, (id < al_next s)%nat → (∀ e, al_phase s ≠ Returned (Err e)) →
    id ∈ ended_ids h ∨ ∃ p, al_connections s !! id = Some (Running p);
  lo_prefix : ∀ id, trace (serve id) (events_of id h) None;
  lo_whole : ∀ id, EvEnded id false ∈ h → trace (serve id) (events_of id h) (Some (Some tt));
  lo_permits : (∀ e, al_phase s ≠ Returned (Err e)) →
    limit = (λ permits, permits + open_connections h)%nat <$> al_permits s;
  lo_bound : ∀ n, limit = Some n → (open_connections h ≤ n)%nat;
  lo_gone : (∃ e, al_phase s = Returned (Err e)) → al_connections s = ∅;
  lo_returned : al_phase s = Returned (Ok tt) → al_connections s = ∅;
  lo_phase : al_phase s = Draining ∨ al_phase s = Returned (Ok tt) → EvCancelled ∈ h;
}.

Lemma open_snoc h e s : loop_ok h s →
  open_connections (h ++ [e]) = match e with
    | EvAccepted true => S (open_connections h)
    | EvEnded _ _ => pred (open_connections h)
    | _ => open_connections h
    end.
Proof.
  intros Hs. unfold open_connections. rewrite spawned_snoc, ended_ids_snoc, length_app.
  pose proof (distinct_below _ _ (lo_ended_once _ _ Hs) (lo_ended_numbers _ _ Hs)) as Hle.
  rewrite (lo_next _ _ Hs) in Hle. destruct e as [|[]| | | | |]; cbn; lia.
Qed.

(** A task that is running is counted. *)
Lemma running_open h s id p : loop_ok h s → al_connections s !! id = Some (Running p) →
  (0 < open_connections h)%nat.
Proof.
  intros Hs Hid. destruct (lo_running _ _ Hs _ _ Hid) as [_ Hend].
  assert (length (id :: ended_ids h) ≤ al_next s)%nat as Hle.
  { apply distinct_below; [constructor; [done|apply (lo_ended_once _ _ Hs)]|].
    intros i [->|Hi]%elem_of_cons; [by eapply lo_numbers|by apply (lo_ended_numbers _ _ Hs)]. }
  rewrite (lo_next _ _ Hs) in Hle. cbn in Hle. unfold open_connections. lia.
Qed.

(** A step that neither starts nor ends a task, nor does anything in one. *)
Lemma quiet_step h s e s' :
  loop_ok h s → (∀ id, did id e = None) → match e with EvAccepted true | EvEnded _ _ => False | _ => True end →
  al_next s' = al_next s → al_permits s' = al_permits s →
  (∀ id t, al_connections s' !! id = Some t → al_connections s !! id = Some t) →
  (∀ id p, al_connections s !! id = Some (Running p) → al_connections s' !! id = Some (Running p)) →
  ((∃ e', al_phase s' = Returned (Err e')) ↔ ∃ e', al_phase s = Returned (Err e')) →
  (al_phase s' = Returned (Ok tt) → al_connections s' = ∅) →
  (al_phase s' = Draining ∨ al_phase s' = Returned (Ok tt) → EvCancelled ∈ h ++ [e]) →
  loop_ok (h ++ [e]) s'.
Proof.
  intros Hs Hdid He Hnext Hpermits Hsub Hkeep Hphase Hret Hcancel.
  assert (spawned (h ++ [e]) = spawned h) as Hsp.
  { rewrite spawned_snoc. destruct e as [|[]| | | | |]; cbn in *; try done; lia. }
  assert (ended_ids (h ++ [e]) = ended_ids h) as Hend.
  { rewrite ended_ids_snoc. destruct e; cbn in *; try done; by rewrite app_nil_r. }
  assert (∀ id, events_of id (h ++ [e]) = events_of id h) as Hev.
  { intros id. by rewrite events_of_snoc, Hdid, app_nil_r. }
  assert (open_connections (h ++ [e]) = open_connections h) as Hopen.
  { unfold open_connections. by rewrite Hsp, Hend. }
  assert (∀ P : Prop, ((∀ e', al_phase s ≠ Returned (Err e')) → P) →
    (∀ e', al_phase s' ≠ Returned (Err e')) → P) as Hno by naive_solver.
  split; rewrite ?Hsp, ?Hend, ?Hopen, ?Hnext, ?Hpermits.
  - apply (lo_next _ _ Hs).
  - intros id t Hid. by eapply (lo_numbers _ _ Hs), Hsub.
  - intros id p Hid. rewrite Hev. by apply (lo_running _ _ Hs), Hsub.
  - intros id. rewrite Hev. apply (lo_later _ _ Hs).
  - apply (lo_ended_numbers _ _ Hs).
  - apply (lo_ended_once _ _ Hs).
  - intros id Hid. apply Hno. intros Hp. destruct (lo_kept _ _ Hs id Hid Hp) as [|[p Hr]]; eauto.
  - intros id. rewrite Hev. apply (lo_prefix _ _ Hs).
  - intros id. rewrite Hev. intros [Hin|Hin]%elem_of_app; [by apply (lo_whole _ _ Hs)|].
    apply list_elem_of_singleton in Hin as <-. done.
  - apply Hno, (lo_permits _ _ Hs).
  - apply (lo_bound _ _ Hs).
  - intros Hp. apply map_eq. intros id. rewrite lookup_empty.
    destruct (al_connections s' !! id) as [t|] eqn:Ht; [|done]. apply Hsub in Ht.
    by rewrite (lo_gone _ _ Hs (proj1 Hphase Hp)) in Ht.
  - done.
  - done.
Qed.

Lemma start_ok : loop_ok [] (accept_loop_start limit).
Proof.
  split; cbn; try done.
  - intros id Hid. inversion Hid.
  - constructor.
  - intros id Hid. inversion Hid.
  - intros id. constructor.
  - intros id Hid. inversion Hid.
  - intros _. unfold open_connections. cbn. destruct limit; cbn; [f_equal; lia|done].
  - intros n _. unfold open_connections. cbn. lia.
  - by intros [|].
Qed.

(** The number of a new task is new. *)
Lemma spawn_ok h s permits : loop_ok h s → al_phase s = Accepting → try_acquire (al_permits s) = Some permits →
  loop_ok (h ++ [EvAccepted true]) {| al_permits := permits;
    al_connections := <[al_next s := Running (serve (al_next s))]> (al_connections s);
    al_next := S (al_next s); al_phase := al_phase s |}.
Proof.
  intros Hs Hphase Hp.
  assert (∀ e, al_phase s ≠ Returned (Err e)) as Hne by (rewrite Hphase; done).
  assert (∀ id, events_of id (h ++ [EvAccepted true]) = events_of id h) as Hev.
  { intros id. by rewrite events_of_snoc, app_nil_r. }
  assert (limit = (λ n, n + S (open_connections h))%nat <$> permits) as Hlimit.
  { rewrite (lo_permits _ _ Hs Hne). destruct (al_permits s) as [[|n]|]; cbn in *; simplify_eq; cbn;
      f_equal; lia. }
  split; cbn [al_next al_connections al_permits al_phase]; rewrite ?(open_snoc _ _ _ Hs), ?ended_ids_snoc,
    ?app_nil_r.
  - rewrite spawned_snoc, (lo_next _ _ Hs). lia.
  - intros id t [[<- _]|[_ Hid]]%lookup_insert_Some; [lia|].
    apply (lo_numbers _ _ Hs) in Hid. lia.
  - intros id p [[<- [= <-]]|[_ Hid]]%lookup_insert_Some; rewrite Hev.
    + rewrite (lo_later _ _ Hs) by lia. split; [by intros evs r|].
      intros Hend%(lo_ended_numbers _ _ Hs). lia.
    + by apply (lo_running _ _ Hs).
  - intros id Hid. rewrite Hev. apply (lo_later _ _ Hs). lia.
  - intros id Hid%(lo_ended_numbers _ _ Hs). lia.
  - apply (lo_ended_once _ _ Hs).
  - intros id Hid _. destruct (decide (id = al_next s)) as [->|].
    + right. rewrite lookup_insert_eq. eauto.
    + rewrite lookup_insert_ne by done. apply (lo_kept _ _ Hs); [lia|done].
  - intros id. rewrite Hev. apply (lo_prefix _ _ Hs).
  - intros id. rewrite Hev. intros [Hin|Hin%list_elem_of_singleton]%elem_of_app; [|done].
    by apply (lo_whole _ _ Hs).
  - intros _. exact Hlimit.
  - intros n Hn. rewrite Hn in Hlimit. destruct permits as [m|]; cbn in Hlimit; [|done].
    injection Hlimit as ->. lia.
  - intros [e He]. by destruct (Hne e).
  - by rewrite Hphase.
  - rewrite Hphase. by intros [|].
Qed.

(** A task does something. *)
Lemma did_ok h s id X (o : O X) k x : loop_ok h s → al_connections s !! id = Some (Running (Op o k)) →
  loop_ok (h ++ [EvDid id (GEvent o x)]) {| al_permits := al_permits s;
    al_connections := <[id := Running (k x)]> (al_connections s);
    al_next := al_next s; al_phase := al_phase s |}.
Proof.
  intros Hs Hid. destruct (lo_running _ _ Hs _ _ Hid) as [Hf Hend].
  assert (events_of id (h ++ [EvDid id (GEvent o x)]) = events_of id h ++ [GEvent o x]) as Hown.
  { rewrite events_of_snoc. cbn. by rewrite decide_True. }
  assert (∀ i, i ≠ id → events_of i (h ++ [EvDid id (GEvent o x)]) = events_of i h) as Hother.
  { intros i Hi. rewrite events_of_snoc. cbn. rewrite decide_False by done. apply app_nil_r. }
  assert (follows (serve id) (events_of id h ++ [GEvent o x]) (k x)) as Hf'.
  { intros evs r Ht. rewrite <- app_assoc. apply Hf. by constructor. }
  split; cbn [al_next al_connections al_permits al_phase]; rewrite ?(open_snoc _ _ _ Hs), ?ended_ids_snoc,
    ?app_nil_r; try apply Hs.
  - rewrite spawned_snoc, (lo_next _ _ Hs). lia.
  - intros i t [[<- _]|[_ Hi]]%lookup_insert_Some; by eapply (lo_numbers _ _ Hs).
  - intros i p [[<- [= <-]]|[Hne Hi]]%lookup_insert_Some; [by rewrite Hown|].
    rewrite Hother by done. by apply (lo_running _ _ Hs).
  - intros i Hi. apply (lo_numbers _ _ Hs) in Hid. rewrite Hother by lia. by apply (lo_later _ _ Hs).
  - intros i Hi Hne. destruct (decide (i = id)) as [->|].
    + right. rewrite lookup_insert_eq. eauto.
    + rewrite lookup_insert_ne by done. by apply (lo_kept _ _ Hs).
  - intros i. destruct (decide (i = id)) as [->|]; [|rewrite Hother by done; apply Hs].
    rewrite Hown. rewrite <- (app_nil_r (_ ++ _)). apply Hf'. constructor.
  - intros i [Hin|Hin%list_elem_of_singleton]%elem_of_app; [|done].
    destruct (decide (i = id)) as [->|]; [|rewrite Hother by done; by apply Hs].
    destruct Hend. apply elem_of_ended_ids. eauto.
  - intros He. rewrite (lo_gone _ _ Hs He) in Hid. done.
  - intros He. rewrite (lo_returned _ _ Hs He) in Hid. done.
  - intros Hp. apply elem_of_app. left. by apply (lo_phase _ _ Hs).
Qed.

(** A task ends. *)
Lemma ended_ok h s id p panicked : loop_ok h s → al_connections s !! id = Some (Running p) →
  (panicked = false → p = Ret (Some tt)) →
  loop_ok (h ++ [EvEnded id panicked]) (on_task_ended id panicked s).
Proof.
  intros Hs Hid Hp. destruct (lo_running _ _ Hs _ _ Hid) as [Hf Hend].
  pose proof (running_open _ _ _ _ Hs Hid) as Hpos.
  assert (∀ i, events_of i (h ++ [EvEnded id panicked]) = events_of i h) as Hev.
  { intros i. by rewrite events_of_snoc, app_nil_r. }
  split; cbn [on_task_ended al_next al_connections al_permits al_phase];
    rewrite ?(open_snoc _ _ _ Hs), ?ended_ids_snoc; try apply Hs.
  - rewrite spawned_snoc, (lo_next _ _ Hs). lia.
  - intros i t [[<- _]|[_ Hi]]%lookup_insert_Some; by eapply (lo_numbers _ _ Hs).
  - intros i q [[<- [=]]|[Hne Hi]]%lookup_insert_Some. rewrite Hev.
    destruct (lo_running _ _ Hs _ _ Hi) as [? Hni]. split; [done|]. set_solver.
  - intros i Hi. rewrite Hev. by apply (lo_later _ _ Hs).
  - intros i [Hi|Hi%list_elem_of_singleton]%elem_of_app; [by apply (lo_ended_numbers _ _ Hs)|].
    subst. by eapply (lo_numbers _ _ Hs).
  - apply NoDup_app. split_and!; [apply (lo_ended_once _ _ Hs)|set_solver|apply NoDup_singleton].
  - intros i Hi Hne. destruct (decide (i = id)) as [->|]; [left; set_solver|].
    rewrite lookup_insert_ne by done. destruct (lo_kept _ _ Hs i Hi Hne); [left; set_solver|by right].
  - intros i. rewrite Hev. apply (lo_prefix _ _ Hs).
  - intros i [Hin|Hin%list_elem_of_singleton]%elem_of_app; rewrite Hev; [by apply (lo_whole _ _ Hs)|].
    injection Hin as -> <-. rewrite <- (app_nil_r (events_of _ _)). apply Hf. rewrite (Hp eq_refl).
    constructor.
  - intros Hne. rewrite (lo_permits _ _ Hs Hne). destruct (al_permits s); cbn; [f_equal; lia|done].
  - intros n Hn. apply (lo_bound _ _ Hs) in Hn. lia.
  - intros He. rewrite (lo_gone _ _ Hs He) in Hid. done.
  - intros He. rewrite (lo_returned _ _ Hs He) in Hid. done.
  - intros He. apply elem_of_app. left. by apply (lo_phase _ _ Hs).
Qed.

(** The loop fails: its tasks are dropped. *)
Lemma failed_ok h s error : loop_ok h s →
  loop_ok (h ++ [EvAcceptFailed error]) (on_accept_failed accept_error limit error s).
Proof.
  intros Hs.
  assert (∀ i, events_of i (h ++ [EvAcceptFailed error]) = events_of i h) as Hev.
  { intros i. by rewrite events_of_snoc, app_nil_r. }
  split; cbn [on_accept_failed al_next al_connections al_permits al_phase];
    rewrite ?(open_snoc _ _ _ Hs), ?ended_ids_snoc, ?app_nil_r; try apply Hs; try done.
  - rewrite spawned_snoc, (lo_next _ _ Hs). lia.
  - intros i Hi. rewrite Hev. by apply (lo_later _ _ Hs).
  - intros i _ Hne. by destruct (Hne (accept_error error)).
  - intros i. rewrite Hev. apply (lo_prefix _ _ Hs).
  - intros i [Hin|Hin%list_elem_of_singleton]%elem_of_app; [|done]. rewrite Hev. by apply (lo_whole _ _ Hs).
  - intros Hne. by destruct (Hne (accept_error error)).
  - by intros [|].
Qed.

Lemma step_ok h s e s' : loop_ok h s → accept_step accept_error limit serve s e s' → loop_ok (h ++ [e]) s'.
Proof.
  intros Hs Hstep. assert (∀ e', EvCancelled ∈ h → EvCancelled ∈ h ++ [e']) as Happ by set_solver.
  destruct Hstep as [Hp|spawned s' Hp Ha|error Hp|id X o k x Hid|id Hid|id rest Hid|id b Hr Hid|Hp He].
  - apply (quiet_step h s); try done; cbn; rewrite ?Hp; try by naive_solver. set_solver.
  - unfold on_accepted in Ha. destruct (try_acquire (al_permits s)) as [permits|] eqn:Hacq;
      injection Ha as <- <-; [by apply spawn_ok|].
    apply (quiet_step h s); try done; try apply Hs. intros. by apply Happ, (lo_phase _ _ Hs).
  - by apply failed_ok.
  - by apply did_ok.
  - by eapply ended_ok.
  - by eapply ended_ok.
  - apply (quiet_step h s); try done; cbn.
    + by intros i t [_ Hi]%lookup_delete_Some.
    + intros i p Hi. rewrite lookup_delete_ne; [done|]. congruence.
    + unfold loop_returned in Hr. by intros Hp; rewrite Hp in Hr.
    + intros. by apply Happ, (lo_phase _ _ Hs).
  - apply (quiet_step h s); try done; cbn; rewrite ?Hp; try by naive_solver.
    intros _. apply Happ, (lo_phase _ _ Hs). by left.
Qed.

Lemma loop_history_ok h s : history h s → loop_ok h s.
Proof. induction 1; [apply start_ok|by eapply step_ok]. Qed.

(** The state in the middle of a history. *)
Lemma history_split h1 e h2 s : history (h1 ++ e :: h2) s →
  ∃ s1 s2, history h1 s1 ∧ accept_step accept_error limit serve s1 e s2.
Proof.
  intros Hh. remember (h1 ++ e :: h2) as h eqn:Eh. revert h2 Eh.
  induction Hh as [|h s0 e0 s' Hh IH Hs]; intros h2 Eh; [by destruct h1|].
  destruct h2 as [|e2 h2 _] using rev_ind.
  - apply app_inj_tail in Eh as [-> ->]. eauto.
  - rewrite app_comm_cons, app_assoc in Eh. apply app_inj_tail in Eh as [-> ->]. eauto.
Qed.

(** A connection is turned away only when all permits are taken. *)
Lemma refused_at_limit h1 h2 s : history (h1 ++ EvAccepted false :: h2) s →
  limit = Some (open_connections h1).
Proof.
  intros (s1 & s2 & Hh & Hstep)%history_split. inversion Hstep as [|spawned s' Hp Ha| | | | | |]; subst.
  unfold on_accepted in Ha. destruct (try_acquire (al_permits s1)) eqn:Hacq; [done|].
  rewrite (lo_permits _ _ (loop_history_ok _ _ Hh)); [|by rewrite Hp].
  by destruct (al_permits s1) as [[|]|].
Qed.

(** Once the loop is told to end, it accepts nothing. *)
Lemma cancelled_accepts_nothing h1 h2 s spawned : history (h1 ++ EvCancelled :: h2) s →
  EvAccepted spawned ∉ h2.
Proof.
  intros Hh. cut (al_phase s ≠ Accepting ∧ EvAccepted spawned ∉ h2); [by intros []|].
  remember (h1 ++ EvCancelled :: h2) as h eqn:Eh. revert h2 Eh.
  induction Hh as [|h s0 e0 s' Hh IH Hs]; intros h2 Eh; [by destruct h1|].
  destruct h2 as [|e2 h2 _] using rev_ind.
  - apply app_inj_tail in Eh as [-> ->]. inversion Hs; subst. cbn. split; [done|]. set_solver.
  - rewrite app_comm_cons, app_assoc in Eh. apply app_inj_tail in Eh as [-> ->].
    destruct (IH _ eq_refl) as [Hp Hn]. split.
    + inversion Hs; subst; cbn; try done.
    + rewrite not_elem_of_app, list_elem_of_singleton. split; [done|]. intros <-. inversion Hs. done.
Qed.

(** The history of a task is a history of its program. *)
Lemma served h s id : history h s → trace (serve id) (events_of id h)
  (if bool_decide (id ∈ finished_ids h) then Some (Some tt) else None).
Proof.
  intros Hs%loop_history_ok. case_bool_decide as Hid; [|apply (lo_prefix _ _ Hs)].
  by apply (lo_whole _ _ Hs), elem_of_finished_ids.
Qed.

Lemma returned_all_ended h s : history h s → al_phase s = Returned (Ok tt) →
  EvCancelled ∈ h ∧ open_connections h = 0%nat.
Proof.
  intros Hs%loop_history_ok Hp. split; [by apply (lo_phase _ _ Hs); right|].
  assert (length (seq 0 (al_next s)) ≤ length (ended_ids h))%nat as Hle.
  { apply submseteq_length, NoDup_submseteq; [apply NoDup_seq|]. intros id Hid%elem_of_seq.
    destruct (lo_kept _ _ Hs id) as [|[p Hr]]; [lia|by rewrite Hp|done|].
    by rewrite (lo_returned _ _ Hs Hp) in Hr. }
  rewrite length_seq, (lo_next _ _ Hs) in Hle. unfold open_connections. lia.
Qed.

(** When no task is left running, the loop joins them all and returns. *)
Lemma drained_returns h s : history h s → al_phase s = Draining →
  open_connections h = 0%nat →
  ∃ h' s', history (h ++ h') s' ∧ al_phase s' = Returned (Ok tt) ∧
    Forall (λ e, match e with EvJoined _ | EvReturned => True | _ => False end) h'.
Proof.
  intros Hh0 Hp0 Hopen. assert (∀ id p, al_connections s !! id ≠ Some (Running p)) as Hrun0.
  { intros id p Hid. pose proof (running_open _ _ _ _ (loop_history_ok _ _ Hh0) Hid). lia. }
  clear Hopen. revert Hh0 Hp0 Hrun0. remember (al_connections s) as m eqn:Hm. revert h s Hm.
  induction m as [|id t m Hid IH] using map_ind; intros h s Hm Hh Hp Hrun.
  - exists [EvReturned], (with_phase (Returned (Ok tt)) s). split_and!; [|done|by repeat constructor].
    eapply history_step; [done|]. by constructor.
  - assert (al_connections s !! id = Some t) as Ht by (rewrite <- Hm; apply lookup_insert_eq).
    destruct t as [p|b]; [by destruct (Hrun id p); rewrite lookup_insert_eq|].
    destruct (IH (h ++ [EvJoined id]) (on_joined id s)) as (h' & s' & Hh' & Hr & Hall); [| |done| |].
    + cbn. by rewrite <- Hm, delete_insert_id.
    + eapply history_step; [done|]. econstructor; [|done]. unfold loop_returned. by rewrite Hp.
    + intros i p Hi. destruct (Hrun i p). rewrite lookup_insert_ne; [done|]. congruence.
    + exists (EvJoined id :: h'), s'. rewrite <- app_assoc in Hh'. split_and!; [done..|]. by constructor.
Qed.

(** A task can go on as its program does. *)
Lemma history_task h s id p evs r : history h s → al_connections s !! id = Some (Running p) →
  trace p evs r → ∃ s' p', history (h ++ map (EvDid id) evs) s' ∧ al_phase s' = al_phase s ∧
    al_connections s' !! id = Some (Running p') ∧ ∀ a, r = Some a → p' = Ret a.
Proof.
  intros Hh Hid Ht. revert h s Hh Hid. induction Ht as [p|a|X o k x evs r Ht IH]; intros h s Hh Hid.
  - exists s, p. by rewrite app_nil_r.
  - exists s, (Ret a). rewrite app_nil_r. split_and!; [done..|]. by intros ? [= <-].
  - edestruct IH as (s' & p' & Hh' & Hp & Hr & Ha).
    + eapply history_step; [exact Hh|]. by apply step_did.
    + cbn. apply lookup_insert_eq.
    + exists s', p'. cbn [map]. rewrite <- app_assoc in Hh'. by split_and!.
Qed.
End accept_loop.

(** ** Node agents *)

Section agents.
Context `{CodecLaws}.
Context `{Deserialize Request} `{Deserialize AgentWireResponse} `{Serialize Response}.
Context `{Deserialize EnrollParams} `{Serialize EnrollResult}.
Context `{Deserialize RegisterParams} `{Serialize RegisterResult}.
Context (describe : AgentServerError → string) (context : ConnectionContext) (tls : bool).

(** What was done on the stream of a connection. *)
Definition stream_event (e : gevent stream_op) : option (gevent agent_op) :=
  match e with GEvent o x =>
    match o in stream_op X return X → option (gevent agent_op) with
    | Handshake => λ _, None
    | OnStream o => λ x, Some (GEvent o x)
    end x
  end.
(** The certificate that the peer of a connection showed. *)
Definition shown (evs : list (gevent stream_op)) (peer : option string) : Prop :=
  if tls then ∃ certificates, GEvent Handshake (Some (Ok certificates)) ∈ evs ∧
    peer = from_option head None certificates
  else peer = None.

Lemma stream_events_map evs : omap stream_event (map (event_map on_stream) evs) = evs.
Proof. induction evs as [|[X o x] evs IH]; [done|]. cbn. by f_equal. Qed.

Lemma accept_stream_trace evs r : trace (accept_stream tls) evs r →
  omap stream_event evs = [] ∧ ∀ peer, r = Some (Ok peer) → shown evs peer.
Proof.
  unfold accept_stream, shown. destruct tls; cbn [negb].
  - intros [[-> ->]|(x & evs' & -> & Ht)]%trace_inv; [done|].
    apply trace_inv in Ht as [[-> ->]|[-> ->]]; [done|]. split; [done|]. intros peer.
    destruct x as [[certificates|]|]; intros [= <-]. eexists. split; [by left|done].
  - intros [[-> ->]|[-> ->]]%trace_inv; [done|]. split; [done|]. by intros peer [= <-].
Qed.

(** The task of a connection: the handshake, and then [handle_connection] with the
    certificate that was shown. *)
Lemma serve_agent_trace fuel evs r : trace (serve_agent describe context tls fuel) evs r →
  ∃ e1 e2, evs = e1 ++ map (event_map on_stream) e2 ∧ omap stream_event e1 = [] ∧
    (e2 = [] ∨ ∃ peer r', shown e1 peer ∧ trace (handle_connection describe context fuel peer) e2 r').
Proof.
  unfold serve_agent. intros [[Ht _]|(e1 & e2 & stream & -> & Ha & Ht)]%trace_bind_inv.
  { exists evs, []. rewrite app_nil_r. split_and!; [done| |by left]. by apply accept_stream_trace in Ht as []. }
  apply accept_stream_trace in Ha as [He1 Hshown]. destruct stream as [peer|error].
  - apply trace_bind_inv in Ht as [[Ht _]|(e3 & e4 & ended & -> & Ht & Hr)].
    + apply trace_map_inv in Ht as (e2' & -> & Ht). exists e1, e2'. split_and!; [done..|]. eauto 10.
    + apply trace_map_inv in Ht as (e2' & -> & Ht). apply trace_inv in Hr as [[-> _]|[-> _]];
        exists e1, e2'; rewrite app_nil_r; split_and!; eauto 10.
  - apply trace_inv in Ht as [[-> _]|[-> _]]; exists e1, []; split_and!; auto.
Qed.

(** In the task of a connection an agent is registered only after it was authenticated
    with the certificate that this connection showed. *)
Lemma serve_agent_registers fuel evs r e1 c session e2 :
  trace (serve_agent describe context tls fuel) evs r →
  evs = e1 ++ GEvent (OnStream (ARegister c session)) tt :: e2 →
  ∃ peer, shown e1 peer ∧ authenticated context peer c (rev (omap stream_event e1)).
Proof.
  intros (e0 & e3 & -> & He0 & Hserved)%serve_agent_trace Heq.
  assert (∃ e4, e1 = e0 ++ e4 ∧
    map (event_map on_stream) e3 = e4 ++ GEvent (OnStream (ARegister c session)) tt :: e2) as (e4 & -> & He3).
  { apply app_eq_app in Heq as [l [[-> Hl]|[-> Hl]]]; [|by eauto].
    destruct l as [|e l]; [by exists []; rewrite !app_nil_r|]. injection Hl as <- _.
    by rewrite omap_app in He0; apply app_nil in He0 as [_ He0]. }
  pose proof (f_equal (omap stream_event) He3) as He. rewrite stream_events_map, omap_app in He. cbn in He.
  destruct Hserved as [->|(peer & r' & Hshown & Ht)]; [by destruct (omap stream_event e4)|].
  exists peer. split.
  - unfold shown in *. destruct tls; [|done]. destruct Hshown as (certs & ? & ->). exists certs. set_solver.
  - eapply trace_gtraced in Ht as [Hp _]; [|apply handle_connection_traced].
    specialize (Hp _ _ _ _ _ He). rewrite app_nil_r in Hp. cbn in Hp.
    by rewrite omap_app, He0.
Qed.

(** C19. However many agents connect and however their connections interleave: at most 256
    are served at a time, and one is turned away only when 256 are; each is served by
    [handle_connection] alone, a connection that ended normally to its end; an agent
    enters the registry only after it was authenticated with the certificate that this
    very connection has shown; once told to end, the listener accepts nothing more, it
    returns without an error only when all connections ended, and then it does. *)
Theorem agents_are_served_in_bounds fuel h s :
  run_listener describe context tls fuel h s →
  (open_connections h ≤ 256)%nat ∧
  (∀ h1 h2, h = h1 ++ EvAccepted false :: h2 → open_connections h1 = 256%nat) ∧
  (∀ id, trace (serve_agent describe context tls (fuel id)) (events_of id h)
     (if bool_decide (id ∈ finished_ids h) then Some (Some tt) else None)) ∧
  (∀ h1 id c session h2, h = h1 ++ EvDid id (GEvent (OnStream (ARegister c session)) tt) :: h2 →
     ∃ peer, shown (events_of id h1) peer ∧
       authenticated context peer c (rev (omap stream_event (events_of id h1)))) ∧
  (∀ h1 h2 spawned, h = h1 ++ EvCancelled :: h2 → EvAccepted spawned ∉ h2) ∧
  (al_phase s = Returned (Ok tt) → EvCancelled ∈ h ∧ open_connections h = 0%nat) ∧
  (al_phase s = Draining → open_connections h = 0%nat →
     ∃ h' s', run_listener describe context tls fuel (h ++ h') s' ∧ al_phase s' = Returned (Ok tt)).
Proof.
  unfold run_listener. intros Hh. pose proof (loop_history_ok _ _ _ _ _ Hh) as Hs. split_and!.
  - by apply (lo_bound _ _ _ _ Hs).
  - intros h1 h2 ->. apply refused_at_limit in Hh. by injection Hh.
  - intros id. by apply (served _ _ _ _ _ _ Hh).
  - intros h1 id c session h2 Heq.
    eapply serve_agent_registers; [by apply (lo_prefix _ _ _ _ Hs)|].
    rewrite Heq at 1. unfold events_of. rewrite omap_app. cbn. by rewrite decide_True.
  - intros h1 h2 b ->. by eapply cancelled_accepts_nothing.
  - by eapply returned_all_ended.
  - intros Hp Hopen. destruct (drained_returns _ _ _ _ _ Hh Hp Hopen) as (h' & s' & Hh' & Hr & _). eauto.
Qed.
End agents.

(** ** Clients *)

Section clients.
Context `{JsonText} (handle : bytes → prog (option json)) (max_frame_bytes : Z).

(** Clients are served beside each other without a limit: no connection is turned away,
    each is served by [handle_connection] alone, and a server that is told to end
    accepts nothing more and returns when the last connection has ended. *)
Theorem clients_are_served_alone fuel readers h s :
  run_clients handle max_frame_bytes fuel readers h s →
  EvAccepted false ∉ h ∧
  (∀ id, trace (serve_client handle max_frame_bytes (fuel id) (readers id)) (events_of id h)
     (if bool_decide (id ∈ finished_ids h) then Some (Some tt) else None)) ∧
  (∀ h1 h2 spawned, h = h1 ++ EvCancelled :: h2 → EvAccepted spawned ∉ h2) ∧
  (al_phase s = Returned (Ok tt) → EvCancelled ∈ h ∧ open_connections h = 0%nat) ∧
  (al_phase s = Draining → open_connections h = 0%nat →
     ∃ h' s', run_clients handle max_frame_bytes fuel readers (h ++ h') s' ∧
       al_phase s' = Returned (Ok tt)).
Proof.
  unfold run_clients. intros Hh. split_and!.
  - intros (h1 & h2 & ->)%list_elem_of_split. by apply refused_at_limit in Hh.
  - intros id. by apply (served _ _ _ _ _ _ Hh).
  - intros h1 h2 b ->. by eapply cancelled_accepts_nothing.
  - by eapply returned_all_ended.
  - intros Hp Hopen. destruct (drained_returns _ _ _ _ _ Hh Hp Hopen) as (h' & s' & Hh' & Hr & _). eauto.
Qed.
End clients.

(** ** Witnesses *)

Section witnesses.
#[local] Existing Instance bits_codec.
#[local] Existing Instance bits_codec_laws.
#[local] Existing Instance request_from_json.
#[local] Existing Instance wire_response_from_json.
#[local] Existing Instance response_to_json.
#[local] Instance: Serialize EnrollResult := bits_to_value EnrollResult.
#[local] Instance: Deserialize EnrollParams := bits_from_value EnrollParams.
#[local] Instance: Serialize RegisterResult := bits_to_value RegisterResult.
#[local] Instance: Deserialize RegisterParams := bits_from_value RegisterParams.

(** An agent with the recorded certificate registers; its session ends at once. *)
Definition example_answers (X : Type) (o : stream_op X) : option X :=
  match o in stream_op Y return option Y with
  | Handshake => Some (Some (Ok (Some ["der"%string])))
  | @OnStream Y o =>
      match o in agent_op Z return option Z → option Z with
      | ARepo m => λ _, Some (m example_enrolled_db).1
      | _ => id
      end (example_world example_register Y o)
  end.
Definition example_serve : gprog stream_op (option unit) :=
  serve_agent example_describe remote_context true 5.

Lemma stream_registration c session (evs : list (gevent stream_op)) :
  (c, session) ∈ omap (λ e, stream_event e ≫= registration_of) evs →
  GEvent (OnStream (ARegister c session)) tt ∈ evs.
Proof.
  intros ([X o x] & Hin & He)%list_elem_of_omap. destruct o as [|X o]; [done|].
  destruct o; cbn in He; try done. injection He as -> ->. by destruct x.
Qed.

Lemma example_served : (replay example_answers example_serve).2 = Some (Some tt).
Proof. by vm_compute. Qed.

Lemma agents_are_served_in_bounds_witness :
  (∃ evs peer, authenticated remote_context peer 13%N evs) ∧
  ∃ h s, run_listener example_describe remote_context true (λ _, 5%nat) h s ∧
    al_phase s = Returned (Ok tt).
Proof.
  pose proof (replay_trace example_answers example_serve) as Ht. rewrite example_served in Ht.
  assert (∃ s, run_listener example_describe remote_context true (λ _, 5%nat) [EvAccepted true] s ∧
    al_phase s = Accepting ∧ al_connections s !! 0%nat = Some (Running example_serve)) as (s & Hh & Hp & Hid).
  { eexists. split; [eapply (history_step _ _ _ []); [constructor|]; by eapply step_accepted|].
    split; [done|]. by cbn. }
  unfold run_listener in Hh. destruct (history_task _ _ _ _ _ _ _ _ _ Hh Hid Ht) as
    (s1 & p1 & Hh1 & Hp1 & Hid1 & Hr1). rewrite (Hr1 _ eq_refl) in Hid1. rewrite Hp in Hp1.
  assert (GEvent (OnStream (ARegister 13%N 99%N)) tt ∈ (replay example_answers example_serve).1) as Hreg.
  { apply stream_registration. refine (bool_decide_eq_true_1 _ _). by vm_compute. }
  assert (∃ h s, run_listener example_describe remote_context true (λ _, 5%nat) h s ∧
    al_phase s = Draining ∧ open_connections h = 0%nat ∧
    EvDid 0 (GEvent (OnStream (ARegister 13%N 99%N)) tt) ∈ h) as (h & s2 & Hh2 & Hp2 & Hopen & Hin).
  { eexists _, _. split; [eapply history_step; [eapply history_step; [exact Hh1|]|]|].
    - by apply step_ended.
    - by apply step_cancelled.
    - split_and!; [done|by vm_compute|]. rewrite !elem_of_app. left. left. right. by apply list_elem_of_fmap_2. }
  destruct (agents_are_served_in_bounds _ _ _ _ _ _ Hh2) as (_ & _ & _ & Hauth & _ & _ & Hdrain).
  apply list_elem_of_split in Hin as (h1 & h2 & Hin).
  destruct (Hauth _ _ _ _ _ Hin) as (peer & _ & Ha).
  destruct (Hdrain Hp2 Hopen) as (h' & s' & Hh' & Hs'). split; eauto.
Defined.
End witnesses.
