(* ===== verification/Sessions.v ===== *)
(** Calls of node agents through the registry
    (crates/mcserver-control-plane/src/agent/registry.rs: [AgentRegistry::call]; agent/server.rs:
    the channel of [run_session]). Callers and sessions run beside each other and share
    the registry, the bounded channel of each session and the one-shot channel of each
    call; an interleaving of them is a list of events. The queue of the reconciliation
    worker (reconciliation.rs: [ReconcileScheduler]) is a channel of the same kind. A
    command reaches a session of the right compute instance at most once, and the result
    of a call is the one that session replied. *)
From S2P Require Import Prelude Text Programs JsonRpc Framing Server Instances Database.
From S2P Require Import Repositories ComputeRepository Effects NodeConfig NodeAgent.
From S2P Require Import NodeTransport AgentServer Reconciliation.
#[local] Open Scope Z_scope.

Definition COMMAND_CHANNEL_CAPACITY : nat := 32.

(** [AgentCommand]; its [response] is the one-shot channel with the number of the call. *)
Record AgentCommand := {
  command_method : string;
  command_params : json;
  command_response : nat;
}.

(** What a session is doing. *)
Inductive session_phase :=
| SessionIdle
| SessionBusy (command : AgentCommand)
(* the result of its last command has made it unusable *)
| SessionLeaving
| SessionGone.

Record session := {
  ses_compute : ComputeInstanceId;
  ses_commands : list AgentCommand;
  ses_phase : session_phase;
}.

(** [oneshot::channel]: open, with a value, or with its sender dropped. *)
Inductive oneshot :=
| OneshotOpen
| OneshotSent (r : result AgentCallError json)
| OneshotDropped.

(** Where a call of [AgentRegistry::call] is, once it has its handle. *)
Inductive call_phase :=
| CallSending (session : Uuid) (command : AgentCommand)
| CallWaiting
| CallReturned (r : result AgentCallError json).

Record agents := {
  ag_registry : Registry;
  ag_sessions : gmap Uuid session;
  ag_calls : gmap nat call_phase;
  ag_oneshots : gmap nat oneshot;
  (* what happened: the calls in the order of their numbers, the commands that sessions
     took out of their channels, and the replies *)
  ag_asked : list (ComputeInstanceId * string * result string json);
  ag_taken : list (ComputeInstanceId * AgentCommand);
  ag_replied : list (nat * result AgentCallError json);
}.
Definition agents_start : agents := {|
  ag_registry := ∅; ag_sessions := ∅; ag_calls := ∅; ag_oneshots := ∅;
  ag_asked := []; ag_taken := []; ag_replied := [] |}.

Definition with_call (id : nat) (phase : call_phase) (a : agents) : agents := {|
  ag_registry := ag_registry a; ag_sessions := ag_sessions a;
  ag_calls := <[id := phase]> (ag_calls a); ag_oneshots := ag_oneshots a;
  ag_asked := ag_asked a; ag_taken := ag_taken a; ag_replied := ag_replied a |}.
Definition with_oneshot (id : nat) (o : oneshot) (a : agents) : agents := {|
  ag_registry := ag_registry a; ag_sessions := ag_sessions a; ag_calls := ag_calls a;
  ag_oneshots := <[id := o]> (ag_oneshots a);
  ag_asked := ag_asked a; ag_taken := ag_taken a; ag_replied := ag_replied a |}.
Definition with_session (s : Uuid) (state : session) (a : agents) : agents := {|
  ag_registry := ag_registry a; ag_sessions := <[s := state]> (ag_sessions a);
  ag_calls := ag_calls a; ag_oneshots := ag_oneshots a;
  ag_asked := ag_asked a; ag_taken := ag_taken a; ag_replied := ag_replied a |}.
Definition with_registry (r : Registry) (a : agents) : agents := {|
  ag_registry := r; ag_sessions := ag_sessions a; ag_calls := ag_calls a;
  ag_oneshots := ag_oneshots a;
  ag_asked := ag_asked a; ag_taken := ag_taken a; ag_replied := ag_replied a |}.
Definition logging (asked : list (ComputeInstanceId * string * result string json))
    (taken : list (ComputeInstanceId * AgentCommand)) (replied : list (nat * result AgentCallError json))
    (a : agents) : agents := {|
  ag_registry := ag_registry a; ag_sessions := ag_sessions a; ag_calls := ag_calls a;
  ag_oneshots := ag_oneshots a; ag_asked := ag_asked a ++ asked; ag_taken := ag_taken a ++ taken;
  ag_replied := ag_replied a ++ replied |}.
Definition with_queue (commands : list AgentCommand) (phase : session_phase) (s : session) : session := {|
  ses_compute := ses_compute s; ses_commands := commands; ses_phase := phase |}.

(** ** Callers *)

(** The start of a call: the handle of the session is cloned, the parameters are
    encoded and the one-shot channel is made. *)
Definition call_started (compute : ComputeInstanceId) (method : string) (params : result string json)
    (a : agents) : agents :=
  let id := length (ag_asked a) in
  let a := logging [(compute, method, params)] [] [] a in
  match ag_registry a !! compute with
  | None => with_call id (CallReturned (Err ACE.NotConnected)) a
  | Some session =>
      match params with
      | Err error => with_call id (CallReturned (Err (ACE.Serialization error))) a
      | Ok params =>
          with_oneshot id OneshotOpen (with_call id (CallSending session {|
            command_method := method; command_params := params; command_response := id |}) a)
      end
  end.

(** [sender.send(..).await]: it waits while the channel is full, and fails when the
    receiver is gone. *)
Definition call_sent (id : nat) (a : agents) : option agents :=
  match ag_calls a !! id with
  | Some (CallSending session command) =>
      match ag_sessions a !! session with
      | None => None
      | Some state =>
          match ses_phase state with
          | SessionGone =>
              Some (with_oneshot id OneshotDropped
                (with_call id (CallReturned (Err ACE.Disconnected)) a))
          | _ =>
              if decide (length (ses_commands state) < COMMAND_CHANNEL_CAPACITY)%nat
              then Some (with_call id CallWaiting (with_session session
                (with_queue (ses_commands state ++ [command]) (ses_phase state) state) a))
              else None
          end
      end
  | _ => None
  end.

(** [response_receiver] is ready. *)
Definition call_resumed (id : nat) (a : agents) : option agents :=
  match ag_calls a !! id, ag_oneshots a !! id with
  | Some CallWaiting, Some (OneshotSent r) => Some (with_call id (CallReturned r) a)
  | Some CallWaiting, Some OneshotDropped =>
      Some (with_call id (CallReturned (Err ACE.Disconnected)) a)
  | _, _ => None
  end.

(** [watchdog_timeout]: five seconds after the timeout of the session itself. *)
Definition watchdog_timeout (timeout : Z) : Z :=
  from_option id timeout (duration_checked_add timeout (from_secs 5)).

(** The watchdog ends the wait for the response. *)
Definition call_timed_out (id : nat) (a : agents) : option agents :=
  match ag_calls a !! id with
  | Some CallWaiting => Some (with_call id (CallReturned (Err ACE.Timeout)) a)
  | _ => None
  end.

(** ** Sessions *)

(** [AgentRegistry::register] with the sender of a new channel. *)
Definition session_started (compute : ComputeInstanceId) (s : Uuid) (a : agents) : option agents :=
  match ag_sessions a !! s with
  | Some _ => None
  | None =>
      Some (with_registry (registry_register compute s (ag_registry a)) (with_session s {|
        ses_compute := compute; ses_commands := []; ses_phase := SessionIdle |} a))
  end.

(** [commands.recv()]. *)
Definition session_received (s : Uuid) (a : agents) : option agents :=
  match ag_sessions a !! s with
  | Some state =>
      match ses_phase state, ses_commands state with
      | SessionIdle, command :: commands =>
          Some (logging [] [(ses_compute state, command)] []
            (with_session s (with_queue commands (SessionBusy command) state) a))
      | _, _ => None
      end
  | None => None
  end.

(** [command.response.send(result)], and whether the session goes on. *)
Definition session_replied (s : Uuid) (r : result AgentCallError json) (a : agents) : option agents :=
  match ag_sessions a !! s with
  | Some state =>
      match ses_phase state with
      | SessionBusy command =>
          Some (logging [] [] [(command_response command, r)]
            (with_oneshot (command_response command) (OneshotSent r) (with_session s
               (with_queue (ses_commands state)
                  (if session_unusable r then SessionLeaving else SessionIdle) state) a)))
      | _ => None
      end
  | None => None
  end.

(** [run_session] returns: the receiver is dropped with all the commands that are left
    in the channel, and so is a command that was not replied to. *)
Definition session_ended (s : Uuid) (a : agents) : option agents :=
  match ag_sessions a !! s with
  | Some state =>
      match ses_phase state with
      | SessionGone => None
      | phase =>
          let dropped := (match phase with SessionBusy command => [command] | _ => [] end
                          ++ ses_commands state)%list in
          Some (foldr (λ command, with_oneshot (command_response command) OneshotDropped)
                  (with_session s (with_queue [] SessionGone state) a) dropped)
      end
  | None => None
  end.

(** [AgentRegistry::unregister], after [run_session]. *)
Definition session_unregistered (s : Uuid) (a : agents) : option agents :=
  match ag_sessions a !! s with
  | Some state =>
      match ses_phase state with
      | SessionGone => Some (with_registry (registry_unregister (ses_compute state) s (ag_registry a)) a)
      | _ => None
      end
  | None => None
  end.

(** ** Interleavings *)

Inductive agents_event :=
| EvCall (compute : ComputeInstanceId) (method : string) (params : result string json)
| EvSent (id : nat)
| EvResumed (id : nat)
| EvTimedOut (id : nat)
| EvStarted (compute : ComputeInstanceId) (s : Uuid)
| EvReceived (s : Uuid)
| EvReplied (s : Uuid) (r : result AgentCallError json)
| EvLeft (s : Uuid)
| EvUnregistered (s : Uuid).

Definition agents_step (e : agents_event) (a : agents) : option agents :=
  match e with
  | EvCall compute method params => Some (call_started compute method params a)
  | EvSent id => call_sent id a
  | EvResumed id => call_resumed id a
  | EvTimedOut id => call_timed_out id a
  | EvStarted compute s => session_started compute s a
  | EvReceived s => session_received s a
  | EvReplied s r => session_replied s r a
  | EvLeft s => session_ended s a
  | EvUnregistered s => session_unregistered s a
  end.

Definition agents_run (h : list agents_event) : option agents :=
  foldl (λ a e, a ≫= agents_step e) (Some agents_start) h.

(** ** The queue of the reconciliation worker *)

Definition RECONCILE_QUEUE_CAPACITY : nat := 256.

(** The channel between [ReconcileScheduler] and [ReconcileWorker::run], and whether the
    worker is there. *)
Record reconcile_queue := {
  rq_open : bool;
  rq_waiting : list ReconcileRequest;
}.
Definition reconcile_channel : reconcile_queue := {| rq_open := true; rq_waiting := [] |}.

(** [try_send]; a request that it refuses is only logged. *)
Definition try_send (request : ReconcileRequest) (q : reconcile_queue) : bool * reconcile_queue :=
  if rq_open q && bool_decide (length (rq_waiting q) < RECONCILE_QUEUE_CAPACITY)%nat
  then (true, {| rq_open := rq_open q; rq_waiting := rq_waiting q ++ [request] |})
  else (false, q).
Definition enqueue_best_effort (server_id : ServerId) (q : reconcile_queue) : bool * reconcile_queue :=
  try_send (RequestServer server_id) q.
Definition enqueue_best_effort_for_instance (instance_id : ServerInstanceId) (q : reconcile_queue) :
    bool * reconcile_queue :=
  try_send (RequestInstance instance_id) q.
(** [receiver.recv()], when there is something. *)
Definition queue_receive (q : reconcile_queue) : option (ReconcileRequest * reconcile_queue) :=
  match rq_waiting q with
  | [] => None
  | request :: waiting => Some (request, {| rq_open := rq_open q; rq_waiting := waiting |})
  end.

(** The commands that a session has, the one it works on first. *)
Definition pending (s : session) : list AgentCommand :=
  match ses_phase s with SessionBusy command => [command] | _ => [] end ++ ses_commands s.

Definition taken_ids (a : agents) : list nat := (λ t, command_response t.2) <$> ag_taken a.

(** The call that a command belongs to asked for it, of this compute instance. *)
Definition asks (a : agents) (compute : ComputeInstanceId) (command : AgentCommand) : Prop :=
  ag_asked a !! command_response command =
    Some (compute, command_method command, Ok (command_params command)).

(** The result of a call: what was replied to it, or an error of the registry's own;
    a call that found no session or could not be encoded was taken by none. *)
Definition result_ok (a : agents) (id : nat) (r : result AgentCallError json) : Prop :=
  (id, r) ∈ ag_replied a ∨ r = Err ACE.Disconnected ∨ r = Err ACE.Timeout ∨
  id ∉ taken_ids a ∧ (r = Err ACE.NotConnected ∨ ∃ e, r = Err (ACE.Serialization e)).

Definition held (a : agents) (id : nat) : Prop :=
  ∃ s state command, ag_sessions a !! s = Some state ∧ command ∈ pending state ∧
    command_response command = id.

Record agents_ok (a : agents) : Prop := {
  ok_registry : ∀ c s, ag_registry a !! c = Some s →
    ∃ state, ag_sessions a !! s = Some state ∧ ses_compute state = c;
  ok_sending : ∀ id s command, ag_calls a !! id = Some (CallSending s command) →
    command_response command = id ∧ ag_oneshots a !! id = Some OneshotOpen ∧ id ∉ taken_ids a ∧
    ∃ state, ag_sessions a !! s = Some state ∧ asks a (ses_compute state) command;
  ok_pending : ∀ s state command, ag_sessions a !! s = Some state → command ∈ pending state →
    ag_oneshots a !! command_response command = Some OneshotOpen ∧ asks a (ses_compute state) command ∧
    (ag_calls a !! command_response command = Some CallWaiting ∨
     ag_calls a !! command_response command = Some (CallReturned (Err ACE.Timeout)));
  ok_apart : ∀ s state i command s' state' j command',
    ag_sessions a !! s = Some state → pending state !! i = Some command →
    ag_sessions a !! s' = Some state' → pending state' !! j = Some command' →
    command_response command = command_response command' → s = s' ∧ i = j;
  ok_waiting : ∀ id, ag_calls a !! id = Some CallWaiting →
    (∃ r, ag_oneshots a !! id = Some (OneshotSent r)) ∨ ag_oneshots a !! id = Some OneshotDropped ∨
    held a id;
  ok_queue : ∀ s state, ag_sessions a !! s = Some state →
    (length (ses_commands state) ≤ COMMAND_CHANNEL_CAPACITY)%nat ∧
    (ses_phase state = SessionGone → ses_commands state = []) ∧
    ∀ command, command ∈ ses_commands state → command_response command ∉ taken_ids a;
  ok_busy : ∀ s state command, ag_sessions a !! s = Some state → ses_phase state = SessionBusy command →
    command_response command ∈ taken_ids a;
  ok_known : ∀ id phase, ag_calls a !! id = Some phase → (id < length (ag_asked a))%nat;
  ok_sent : ∀ id r, ag_oneshots a !! id = Some (OneshotSent r) → (id, r) ∈ ag_replied a;
  ok_replied : ∀ id r, (id, r) ∈ ag_replied a → id ∈ taken_ids a;
  ok_taken : ∀ compute command, (compute, command) ∈ ag_taken a → asks a compute command;
  ok_once : NoDup (taken_ids a);
  ok_returned : ∀ id r, ag_calls a !! id = Some (CallReturned r) → result_ok a id r;
}.

Lemma agents_start_ok : agents_ok agents_start.
Proof.
  split; unfold taken_ids; cbn; try done; try (by intros; simplify_map_eq).
  all: intros; try by (match goal with H : _ ∈ [] |- _ => by inversion H end). constructor.
Qed.

(** What stays when [a] becomes [a'] without anything taken, asked or replied. *)
Lemma taken_ids_same a a' : ag_taken a' = ag_taken a → taken_ids a' = taken_ids a.
Proof. unfold taken_ids. by intros ->. Qed.

(** The phase of one call changes to waiting or returned. *)
Lemma with_call_ok a id phase : agents_ok a → 
  (∃ phase0, ag_calls a !! id = Some phase0 ∧ (∀ r, phase0 ≠ CallReturned r)) →
  match phase with
  | CallSending _ _ => False
  | CallWaiting => held a id
  | CallReturned r => result_ok a id r ∧ (r = Err ACE.Timeout ∨ ¬ held a id)
  end → agents_ok (with_call id phase a).
Proof.
  intros Ha (phase0 & Hid & Hphase0) Hphase. split; cbn; try apply Ha.
  - intros i s command [[<- ->]|[Hne Hi]]%lookup_insert_Some; [done|]. by apply Ha.
  - intros s state command Hs Hc. destruct (ok_pending _ Ha _ _ _ Hs Hc) as (Ho & Hasks & Hcall).
    split_and!; [done|done|]. destruct (decide (command_response command = id)) as [<-|].
    2:{ by rewrite lookup_insert_ne. }
    rewrite lookup_insert_eq. destruct phase as [| |r]; [done|by left|right].
    destruct Hphase as [_ [->|Hno]]; [done|]. destruct Hno. by exists s, state, command.
  - intros i [[<- ->]|[Hne Hi]]%lookup_insert_Some; [by do 2 right|]. by apply (ok_waiting _ Ha).
  - intros i p [[<- _]|[Hne Hi]]%lookup_insert_Some; by eapply (ok_known _ Ha).
  - intros i r [[<- ->]|[Hne Hi]]%lookup_insert_Some; [apply Hphase|]. by apply (ok_returned _ Ha).
Qed.

Lemma taken_asked a id : agents_ok a → id ∈ taken_ids a → (id < length (ag_asked a))%nat.
Proof.
  intros Ha ([compute command] & -> & Hin)%list_elem_of_fmap. cbn.
  apply lookup_lt_is_Some. eexists. by apply (ok_taken _ Ha).
Qed.

(** A new call. *)
Lemma new_call_ok a compute method params phase (o : option oneshot) :
  let id := length (ag_asked a) in
  agents_ok a →
  match phase with
  | CallSending s command => o = Some OneshotOpen ∧ command = {| command_method := method;
      command_params := match params with Ok p => p | Err _ => JNull end; command_response := id |} ∧
      (∃ p, params = Ok p) ∧ ag_registry a !! compute = Some s
  | CallWaiting => False
  | CallReturned r => o = None ∧ (r = Err ACE.NotConnected ∨ ∃ e, r = Err (ACE.Serialization e))
  end →
  agents_ok {| ag_registry := ag_registry a; ag_sessions := ag_sessions a;
    ag_calls := <[id := phase]> (ag_calls a);
    ag_oneshots := match o with Some o => <[id := o]> (ag_oneshots a) | None => ag_oneshots a end;
    ag_asked := ag_asked a ++ [(compute, method, params)]; ag_taken := ag_taken a ++ [];
    ag_replied := ag_replied a ++ [] |}.
Proof.
  intros id Ha Hphase. rewrite !app_nil_r.
  assert (id ∉ taken_ids a) as Hfresh by (intros ?%taken_asked; [lia|done]).
  assert (∀ i p, ag_calls a !! i = Some p → i ≠ id) as Hcall.
  { intros i p Hi%(ok_known _ Ha). subst id. lia. }
  assert (o = None ∨ o = Some OneshotOpen) as Ho by (destruct phase; naive_solver).
  set (oneshots := match o with Some o => _ | None => _ end).
  assert (∀ i, i ≠ id → oneshots !! i = ag_oneshots a !! i) as Hone.
  { intros i Hi. subst oneshots. destruct o; [by rewrite lookup_insert_ne|done]. }
  assert (∀ c command, asks a c command → (ag_asked a ++ [(compute, method, params)]) !!
    command_response command = Some (c, command_method command, Ok (command_params command))) as Hasks.
  { intros c command Hc. by apply lookup_app_l_Some. }
  split; unfold taken_ids, asks, held; cbn; try apply Ha.
  - intros i s command [[<- ->]|[Hne Hi]]%lookup_insert_Some.
    + destruct Hphase as (-> & -> & [p ->] & Hreg). cbn. subst oneshots.
      rewrite lookup_insert_eq. destruct (ok_registry _ Ha _ _ Hreg) as (state & Hs & Hcomp).
      split_and!; [done|done|done|]. exists state. split; [done|]. rewrite Hcomp.
      subst id. by rewrite lookup_app_r, Nat.sub_diag.
    + destruct (ok_sending _ Ha _ _ _ Hi) as (Hr & Hopen & Hnot & state & Hs & Hc).
      rewrite Hone by done. split_and!; [done..|]. exists state. split; [done|]. by apply Hasks.
  - intros s state command Hs Hc. destruct (ok_pending _ Ha _ _ _ Hs Hc) as (Hopen & Hc' & Hcalls).
    assert (command_response command ≠ id) as Hne by (destruct Hcalls as [H|H]; by eapply Hcall).
    rewrite Hone, !lookup_insert_ne by done. auto.
  - intros i [[<- ->]|[Hne Hi]]%lookup_insert_Some; [done|]. rewrite Hone by done.
    by apply (ok_waiting _ Ha).
  - intros i p Hi. rewrite length_app. cbn. apply lookup_insert_Some in Hi as [[<- _]|[Hne Hi]];
      [subst id; lia|]. apply (ok_known _ Ha) in Hi. lia.
  - intros i r. destruct (decide (i = id)) as [->|]; [|rewrite Hone by done; by apply Ha].
    subst oneshots. destruct Ho as [->| ->]; [by apply Ha|]. by rewrite lookup_insert_eq.
  - intros c command Hin. by apply Hasks, (ok_taken _ Ha).
  - intros i r [[<- ->]|[Hne Hi]]%lookup_insert_Some; [|by apply (ok_returned _ Ha)].
    destruct Hphase as [_ Hr]. do 3 right. split; [done|exact Hr].
Qed.

Lemma call_started_ok a compute method params : agents_ok a →
  agents_ok (call_started compute method params a).
Proof.
  intros Ha. unfold call_started. cbn. destruct (ag_registry a !! compute) as [s|] eqn:Hreg.
  - destruct params as [p|e].
    + apply (new_call_ok a compute method (Ok p) (CallSending s _) (Some OneshotOpen)); [done|].
      split_and!; eauto.
    + apply (new_call_ok a compute method (Err e) (CallReturned _) None); eauto.
  - apply (new_call_ok a compute method params (CallReturned _) None); eauto.
Qed.

(** A call that is still waiting for its answer, or for a place in the channel. *)
Lemma sending_not_held a id s command : agents_ok a → ag_calls a !! id = Some (CallSending s command) →
  ¬ held a id.
Proof.
  intros Ha Hid (s' & state & command' & Hs & Hc & <-).
  destruct (ok_pending _ Ha _ _ _ Hs Hc) as (_ & _ & [H|H]); congruence.
Qed.
Lemma open_not_held a id o : agents_ok a → ag_oneshots a !! id = Some o → o ≠ OneshotOpen → ¬ held a id.
Proof.
  intros Ha Ho Hne (s' & state & command' & Hs & Hc & <-).
  destruct (ok_pending _ Ha _ _ _ Hs Hc) as (H & _). congruence.
Qed.

Lemma call_resumed_ok a id a' : agents_ok a → call_resumed id a = Some a' → agents_ok a'.
Proof.
  intros Ha. unfold call_resumed. destruct (ag_calls a !! id) as [[| |]|] eqn:Hid; try done.
  destruct (ag_oneshots a !! id) as [[|r|]|] eqn:Ho; try done; intros [= <-];
    apply with_call_ok; try done; try (eexists; by split).
  - split; [left; by apply (ok_sent _ Ha)|]. right. by eapply open_not_held.
  - split; [by right; left|]. right. by eapply open_not_held.
Qed.
Lemma call_timed_out_ok a id a' : agents_ok a → call_timed_out id a = Some a' → agents_ok a'.
Proof.
  intros Ha. unfold call_timed_out. destruct (ag_calls a !! id) as [[| |]|] eqn:Hid; try done.
  intros [= <-]. apply with_call_ok; [done|eexists; by split|]. split; [by do 2 right; left|by left].
Qed.

Lemma with_oneshot_ok a id : agents_ok a → ¬ held a id →
  (∀ s command, ag_calls a !! id ≠ Some (CallSending s command)) → agents_ok (with_oneshot id OneshotDropped a).
Proof.
  intros Ha Hheld Hsend. split; cbn; try apply Ha.
  - intros i s command Hi. rewrite lookup_insert_ne; [by apply (ok_sending _ Ha)|]. intros <-. by destruct (Hsend s command).
  - intros s state command Hs Hc. rewrite lookup_insert_ne; [by apply (ok_pending _ Ha s)|]. intros ->. destruct Hheld.
    by exists s, state, command.
  - intros i Hi. destruct (decide (i = id)) as [->|]; [rewrite lookup_insert_eq; auto|].
    rewrite lookup_insert_ne by done. by apply (ok_waiting _ Ha).
  - intros i r [[<- ?]|[Hne Hi]]%lookup_insert_Some; [done|]. by apply Ha.
Qed.

(** The sessions after one of them changed. *)
Lemma session_forth a s state state' : ag_sessions a !! s = Some state →
  ses_compute state' = ses_compute state → ∀ t st0, ag_sessions a !! t = Some st0 →
  ∃ st, <[s := state']> (ag_sessions a) !! t = Some st ∧ ses_compute st = ses_compute st0.
Proof.
  intros Hs Hc t st0 Ht. destruct (decide (t = s)) as [->|]; [|exists st0; by rewrite lookup_insert_ne].
  rewrite Hs in Ht. injection Ht as <-. exists state'. by rewrite lookup_insert_eq.
Qed.
Lemma enqueued_where a s state state' command t st i c :
  pending state' = pending state ++ [command] → <[s := state']> (ag_sessions a) !! t = Some st →
  pending st !! i = Some c → ag_sessions a !! s = Some state →
  (∃ st0, ag_sessions a !! t = Some st0 ∧ pending st0 !! i = Some c) ∨
  t = s ∧ i = length (pending state) ∧ c = command.
Proof.
  intros Hpend [[<- <-]|[Hts Ht]]%lookup_insert_Some Hc Hs; [|by left; exists st].
  rewrite Hpend in Hc. apply lookup_app_Some in Hc as [Hc|[Hi Hc]]; [left; eauto|right].
  apply list_lookup_singleton_Some in Hc as [? ->]. split_and!; [done|lia|done].
Qed.

(** A command enters the channel of a session. *)
Lemma enqueued_ok a id s state command : agents_ok a →
  ag_calls a !! id = Some (CallSending s command) → ag_sessions a !! s = Some state →
  ses_phase state ≠ SessionGone → (length (ses_commands state) < COMMAND_CHANNEL_CAPACITY)%nat →
  agents_ok (with_call id CallWaiting (with_session s
    (with_queue (ses_commands state ++ [command]) (ses_phase state) state) a)).
Proof.
  intros Ha Hid Hs Hgone Hlen. set (state' := with_queue _ _ state).
  assert (pending state' = pending state ++ [command]) as Hpend by apply app_assoc.
  pose proof (sending_not_held _ _ _ _ Ha Hid) as Hheld.
  destruct (ok_sending _ Ha _ _ _ Hid) as (Hresp & Hopen & Hnot & state0 & Hs0 & Hasks).
  rewrite Hs in Hs0. injection Hs0 as <-.
  assert (∀ t st c, ag_sessions a !! t = Some st → c ∈ pending st → command_response c ≠ id) as Hne.
  { intros t st c Ht Hc <-. destruct Hheld. by exists t, st, c. }
  pose proof (λ t st i c, enqueued_where a s state state' command t st i c Hpend) as Hwhere.
  pose proof (session_forth a s state state' Hs eq_refl) as Hforth.
  split; cbn; try apply Ha.
  - intros c t Hreg. destruct (ok_registry _ Ha _ _ Hreg) as (st & Ht & <-). by apply Hforth.
  - intros i t c [[<- ?]|[Hii Hi]]%lookup_insert_Some; [done|].
    destruct (ok_sending _ Ha _ _ _ Hi) as (? & ? & ? & st & Ht & Hc). split_and!; [done..|].
    destruct (Hforth _ _ Ht) as (st' & Ht' & Hc'). exists st'. by rewrite Hc'.
  - intros t st c Ht Hc. apply list_elem_of_lookup in Hc as [i Hc].
    assert (ses_compute st = from_option ses_compute 0%N (ag_sessions a !! t)) as Hcompute.
    { apply lookup_insert_Some in Ht as [[<- <-]|[_ Ht]]; [by rewrite Hs|by rewrite Ht]. }
    destruct (Hwhere _ _ _ _ Ht Hc Hs) as [(st0 & Ht0 & Hc0)|(-> & _ & ->)].
    + apply list_elem_of_lookup_2 in Hc0. destruct (ok_pending _ Ha _ _ _ Ht0 Hc0) as (? & ? & ?).
      rewrite Hcompute, Ht0. rewrite !lookup_insert_ne by (by eapply not_eq_sym, Hne). auto.
    + rewrite Hcompute, Hs, Hresp, lookup_insert_eq. auto.
  - intros t st i c t' st' j c' Ht Hi Ht' Hj Heq.
    destruct (Hwhere _ _ _ _ Ht Hi Hs) as [(st0 & Ht0 & Hi0)|(-> & -> & ->)],
      (Hwhere _ _ _ _ Ht' Hj Hs) as [(st0' & Ht0' & Hj0)|(-> & -> & ->)].
    + by eapply (ok_apart _ Ha).
    + destruct (Hne t st0 c); [done|by eapply list_elem_of_lookup_2|congruence].
    + destruct (Hne t' st0' c'); [done|by eapply list_elem_of_lookup_2|congruence].
    + done.
  - intros i Hi. destruct (decide (i = id)) as [->|].
    + do 2 right. exists s, state', command.
      split_and!; [exact (lookup_insert_eq _ _ _)|rewrite Hpend; set_solver|done].
    + rewrite lookup_insert_ne in Hi by done.
      destruct (ok_waiting _ Ha _ Hi) as [?|[?|(t & st & c & Ht & Hc & Hci)]]; [auto..|]. do 2 right.
      destruct (decide (t = s)) as [->|].
      * rewrite Hs in Ht. injection Ht as <-. exists s, state', c.
        split_and!; [exact (lookup_insert_eq _ _ _)|rewrite Hpend; set_solver|done].
      * exists t, st, c. cbn. by rewrite lookup_insert_ne.
  - intros t st [[<- <-]|[_ Ht]]%lookup_insert_Some; [|by apply (ok_queue _ Ha t)].
    destruct (ok_queue _ Ha _ _ Hs) as (_ & _ & Hq). cbn. rewrite length_app. cbn.
    split_and!; [lia|done|]. intros c [Hc|Hc%list_elem_of_singleton]%elem_of_app; [by apply Hq|].
    by rewrite Hc, Hresp.
  - intros t st c [[<- <-]|[_ Ht]]%lookup_insert_Some Hc; by eapply (ok_busy _ Ha).
  - intros i p [[<- _]|[Hne' Hi]]%lookup_insert_Some; by eapply (ok_known _ Ha).
  - intros i r [[<- ?]|[Hne' Hi]]%lookup_insert_Some; [done|]. by apply (ok_returned _ Ha).
Qed.

Lemma same_pending a s state state' : ag_sessions a !! s = Some state →
  pending state' = pending state → ses_compute state' = ses_compute state →
  (∀ t st, <[s := state']> (ag_sessions a) !! t = Some st → ∃ st0, ag_sessions a !! t = Some st0 ∧
     pending st = pending st0 ∧ ses_compute st = ses_compute st0) ∧
  (∀ t st0, ag_sessions a !! t = Some st0 → ∃ st, <[s := state']> (ag_sessions a) !! t = Some st ∧
     pending st = pending st0 ∧ ses_compute st = ses_compute st0).
Proof.
  intros Hs Hp Hc. split.
  - intros t st [[<- <-]|[_ Ht]]%lookup_insert_Some; eauto.
  - intros t st0 Ht. destruct (decide (t = s)) as [->|]; [|exists st0; by rewrite lookup_insert_ne].
    rewrite Hs in Ht. injection Ht as <-. exists state'. by rewrite lookup_insert_eq.
Qed.

(** A command that is taken is not in the channel any more. *)
Lemma taken_leaves_queues a s state command commands t st c : agents_ok a →
  ag_sessions a !! s = Some state → ses_phase state = SessionIdle → ses_commands state = command :: commands →
  <[s := with_queue commands (SessionBusy command) state]> (ag_sessions a) !! t = Some st →
  c ∈ ses_commands st → command_response c ≠ command_response command.
Proof.
  intros Ha Hs Hidle Hcommands [[<- <-]|[Hts Ht]]%lookup_insert_Some Hc Heq.
  - apply list_elem_of_lookup in Hc as [i Hc].
    destruct (ok_apart _ Ha s state (S i) c s state 0 command) as [_ ?]; try done;
      unfold pending; rewrite Hidle, Hcommands; done.
  - assert (command ∈ pending state) as [i Hin]%list_elem_of_lookup by (unfold pending; rewrite Hcommands; set_solver).
    assert (c ∈ pending st) as [j Hj]%list_elem_of_lookup by (unfold pending; set_solver).
    by destruct (ok_apart _ Ha t st j c s state i command Ht Hj Hs Hin Heq).
Qed.

(** A session takes the first command out of its channel. *)
Lemma taken_ok a s state command commands : agents_ok a →
  ag_sessions a !! s = Some state → ses_phase state = SessionIdle → ses_commands state = command :: commands →
  agents_ok (logging [] [(ses_compute state, command)] []
    (with_session s (with_queue commands (SessionBusy command) state) a)).
Proof.
  intros Ha Hs Hidle Hcommands. set (state' := with_queue _ _ state).
  assert (pending state' = pending state) as Hpend by (unfold pending; by rewrite Hidle, Hcommands).
  destruct (same_pending a s state state' Hs Hpend eq_refl) as [Hback Hforth].
  assert (command ∈ pending state) as Hin by (unfold pending; rewrite Hcommands; set_solver).
  assert (∀ b, taken_ids (logging [] [(ses_compute state, command)] [] b) =
    taken_ids b ++ [command_response command]) as Htaken.
  { intros b. unfold taken_ids. cbn. by rewrite fmap_app. }
  destruct (ok_queue _ Ha _ _ Hs) as (Hlen & _ & Hq). rewrite Hcommands in Hlen, Hq.
  assert (command_response command ∉ taken_ids a) as Hnew by (apply Hq; by left).
  destruct (ok_pending _ Ha _ _ _ Hs Hin) as (Hopen & Hasks & Hcall).
  split; rewrite ?Htaken; cbn; rewrite ?app_nil_r; try apply Ha.
  - intros c t Hreg. destruct (ok_registry _ Ha _ _ Hreg) as (st & Ht & Hc).
    destruct (Hforth _ _ Ht) as (st' & Ht' & _ & Hc'). exists st'. by rewrite Hc'.
  - intros i t c Hi. destruct (ok_sending _ Ha _ _ _ Hi) as (Hr & Ho & Hn & st & Ht & Hc).
    destruct (Hforth _ _ Ht) as (st' & Ht' & _ & Hc').
    split_and!; [done|done| |exists st'; split; [done|]; unfold asks; cbn; by rewrite app_nil_r, Hc'].
    rewrite not_elem_of_app, list_elem_of_singleton. split; [done|]. intros ->. destruct Hcall; congruence.
  - intros t st c Ht Hc. destruct (Hback _ _ Ht) as (st0 & Ht0 & Hp & Hcomp).
    unfold asks. cbn. rewrite app_nil_r, Hcomp. apply (ok_pending _ Ha t); [done|]. by rewrite <- Hp.
  - intros t st i c t' st' j c' Ht Hi Ht' Hj. destruct (Hback _ _ Ht) as (st0 & Ht0 & Hp & _).
    destruct (Hback _ _ Ht') as (st0' & Ht0' & Hp' & _). rewrite Hp in Hi. rewrite Hp' in Hj.
    by eapply (ok_apart _ Ha).
  - intros i Hi. destruct (ok_waiting _ Ha _ Hi) as [?|[?|(t & st & c & Ht & Hc & Hci)]]; [auto..|].
    do 2 right. destruct (Hforth _ _ Ht) as (st' & Ht' & Hp & _). exists t, st', c. by rewrite Hp.
  - intros t st Hst. pose proof (λ c, taken_leaves_queues _ _ _ _ _ _ _ c Ha Hs Hidle Hcommands Hst) as Hleft.
    assert (∀ c, c ∈ ses_commands st → command_response c ∉ taken_ids a →
      command_response c ∉ taken_ids a ++ [command_response command]) as Hqueue.
    { intros c Hc Hn. rewrite not_elem_of_app, list_elem_of_singleton. auto. }
    apply lookup_insert_Some in Hst as [[<- <-]|[Hts Ht]].
    + cbn in *. split_and!; [lia|done|]. intros c Hc. apply Hqueue; [done|]. apply Hq. by right.
    + destruct (ok_queue _ Ha _ _ Ht) as (? & ? & Hqt). split_and!; [done..|]. auto.
  - intros t st c [[<- <-]|[_ Ht]]%lookup_insert_Some Hc; apply elem_of_app.
    + injection Hc as <-. right. by left.
    + left. by eapply (ok_busy _ Ha).
  - intros i r Hin'. apply elem_of_app. left. by apply (ok_replied _ Ha) in Hin'.
  - intros c c' [Hc|Hc%list_elem_of_singleton]%elem_of_app; unfold asks; cbn; rewrite app_nil_r.
    + by apply (ok_taken _ Ha).
    + by injection Hc as -> ->.
  - apply NoDup_app. split_and!; [apply Ha|set_solver|apply NoDup_singleton].
  - intros i r Hi. destruct (ok_returned _ Ha _ _ Hi) as [Hin'|[->|[->|[Hni Hr]]]];
      [left; cbn; by rewrite app_nil_r|by right; left|by do 2 right; left|do 3 right].
    split; [|done]. rewrite Htaken. change (taken_ids (with_session _ _ a)) with (taken_ids a).
    rewrite not_elem_of_app, list_elem_of_singleton. split; [done|]. intros ->.
    destruct Hcall as [H|H]; rewrite H in Hi; [done|]. injection Hi as <-. by destruct Hr as [|[]].
Qed.

(** What is pending after a session let go of its first commands was pending before. *)
Lemma released_where a s state state' gone t st i c : ag_sessions a !! s = Some state →
  ses_compute state' = ses_compute state → pending state = gone ++ pending state' →
  <[s := state']> (ag_sessions a) !! t = Some st → pending st !! i = Some c →
  ∃ st0, ag_sessions a !! t = Some st0 ∧ ses_compute st = ses_compute st0 ∧
    pending st0 !! ((if decide (t = s) then length gone else 0) + i)%nat = Some c.
Proof.
  intros Hs Hcompute Hpend [[<- <-]|[Hne Ht]]%lookup_insert_Some Hc.
  - exists state. rewrite decide_True by done. split_and!; [done..|].
    rewrite Hpend, lookup_app_r by lia. by rewrite Nat.add_comm, Nat.add_sub.
  - exists st. by rewrite decide_False.
Qed.
Lemma released_kept a s state state' gone t st i c : agents_ok a → ag_sessions a !! s = Some state →
  ses_compute state' = ses_compute state → pending state = gone ++ pending state' →
  <[s := state']> (ag_sessions a) !! t = Some st → pending st !! i = Some c →
  command_response c ∉ command_response <$> gone.
Proof.
  intros Ha Hs Hcompute Hpend Ht Hi (g & Hg & [j Hj]%list_elem_of_lookup)%list_elem_of_fmap.
  destruct (released_where _ _ _ _ _ _ _ _ _ Hs Hcompute Hpend Ht Hi) as (st0 & Ht0 & _ & Hi0).
  pose proof (lookup_lt_Some _ _ _ Hj) as Hlt.
  destruct (ok_apart _ Ha _ _ _ _ s state j g Ht0 Hi0 Hs) as [-> Heq]; try done.
  - rewrite Hpend. by apply lookup_app_l_Some.
  - rewrite decide_True in Heq by done. lia.
Qed.

(** A session lets go of its first commands: their one-shot channels have a value or
    have lost their sender. *)
Lemma released_ok a s state state' gone oneshots extra : agents_ok a →
  ag_sessions a !! s = Some state → ses_compute state' = ses_compute state →
  pending state = gone ++ pending state' →
  (length (ses_commands state') ≤ COMMAND_CHANNEL_CAPACITY)%nat →
  (ses_phase state' = SessionGone → ses_commands state' = []) → ses_commands state' ⊆ ses_commands state →
  (∀ id, id ∉ command_response <$> gone → oneshots !! id = ag_oneshots a !! id) →
  (∀ id, id ∈ command_response <$> gone → oneshots !! id = Some OneshotDropped ∨
     ∃ r, oneshots !! id = Some (OneshotSent r) ∧ (id, r) ∈ extra) →
  (∀ id r, (id, r) ∈ extra → id ∈ taken_ids a) → (∀ c, ses_phase state' ≠ SessionBusy c) →
  agents_ok {| ag_registry := ag_registry a; ag_sessions := <[s := state']> (ag_sessions a);
    ag_calls := ag_calls a; ag_oneshots := oneshots; ag_asked := ag_asked a; ag_taken := ag_taken a;
    ag_replied := ag_replied a ++ extra |}.
Proof.
  intros Ha Hs Hcompute Hpend Hlen Hgone Hsub Hsame Hfreed Hextra Hbusy.
  pose proof (session_forth a s state state' Hs Hcompute) as Hforth.
  pose proof (λ t st i c, released_where a s state state' gone t st i c Hs Hcompute Hpend) as Hback.
  pose proof (λ t st i c, released_kept a s state state' gone t st i c Ha Hs Hcompute Hpend) as Hkept.
  split; unfold asks; cbn; try apply Ha.
  - intros c t Hreg. destruct (ok_registry _ Ha _ _ Hreg) as (st & Ht & Hc).
    destruct (Hforth _ _ Ht) as (st' & Ht' & Hc'). exists st'. by rewrite Hc'.
  - intros i t c Hi. pose proof (sending_not_held _ _ _ _ Ha Hi) as Hno.
    destruct (ok_sending _ Ha _ _ _ Hi) as (Hr & Ho & Hn & st & Ht & Hc).
    destruct (Hforth _ _ Ht) as (st' & Ht' & Hc'). rewrite Hsame; [split_and!; [done..|exists st'; by rewrite Hc']|].
    intros (g & -> & Hg)%list_elem_of_fmap. destruct Hno. exists s, state, g. rewrite Hpend. set_solver.
  - intros t st c Ht [i Hc]%list_elem_of_lookup. rewrite Hsame by (by eapply Hkept).
    destruct (Hback _ _ _ _ Ht Hc) as (st0 & Ht0 & -> & Hc0).
    apply (ok_pending _ Ha t); [done|]. by eapply list_elem_of_lookup_2.
  - intros t st i c t' st' j c' Ht Hi Ht' Hj Heq.
    destruct (Hback _ _ _ _ Ht Hi) as (st0 & Ht0 & _ & Hi0).
    destruct (Hback _ _ _ _ Ht' Hj) as (st0' & Ht0' & _ & Hj0).
    destruct (ok_apart _ Ha _ _ _ _ _ _ _ _ Ht0 Hi0 Ht0' Hj0 Heq) as [-> ?]. split; [done|]. lia.
  - intros i Hi. destruct (decide (i ∈ command_response <$> gone)) as [Hin|Hin].
    { destruct (Hfreed _ Hin) as [?|(r & ? & _)]; eauto. }
    rewrite Hsame by done.
    destruct (ok_waiting _ Ha _ Hi) as [?|[?|(t & st & c & Ht & Hc & Hci)]]; [auto..|]. do 2 right.
    destruct (decide (t = s)) as [->|]; [|exists t, st, c; cbn; by rewrite lookup_insert_ne].
    rewrite Hs in Ht. injection Ht as <-. exists s, state', c.
    split_and!; [exact (lookup_insert_eq _ _ _)| |done].
    rewrite Hpend in Hc. apply elem_of_app in Hc as [Hc|Hc]; [|done]. destruct Hin. subst i.
    by apply list_elem_of_fmap_2.
  - intros t st [[<- <-]|[Hts Ht]]%lookup_insert_Some; [|by apply (ok_queue _ Ha t)].
    split_and!; [done..|]. intros c Hc. apply (ok_queue _ Ha _ _ Hs). by apply Hsub.
  - intros t st c [[<- <-]|[_ Ht]]%lookup_insert_Some Hc; [by destruct (Hbusy c)|by eapply (ok_busy _ Ha)].
  - intros i r Hi. apply elem_of_app. destruct (decide (i ∈ command_response <$> gone)) as [Hin|Hin].
    + destruct (Hfreed _ Hin) as [?|(r' & Hr & ?)]; [congruence|]. rewrite Hr in Hi. injection Hi as <-. by right.
    + rewrite Hsame in Hi by done. left. by apply (ok_sent _ Ha).
  - intros i r [Hin|Hin]%elem_of_app; [by eapply (ok_replied _ Ha)|by eapply Hextra].
  - intros i r Hi. destruct (ok_returned _ Ha _ _ Hi) as [Hin|[->|[->|Hni]]];
      [left; cbn; set_solver|by right; left|by do 2 right; left|by do 3 right].
Qed.

Lemma session_replied_ok a s r a' : agents_ok a → session_replied s r a = Some a' → agents_ok a'.
Proof.
  intros Ha. unfold session_replied. destruct (ag_sessions a !! s) as [state|] eqn:Hs; [|done].
  destruct (ses_phase state) as [|command| |] eqn:Hphase; try done. intros [= <-].
  unfold logging. cbn. rewrite !app_nil_r.
  destruct (ok_queue _ Ha _ _ Hs) as (Hlen & _ & _).
  apply (released_ok a s state _ [command]); try done.
  - unfold pending. cbn. rewrite Hphase. by destruct (session_unusable r).
  - cbn. by destruct (session_unusable r).
  - intros id Hid. cbn in Hid. rewrite lookup_insert_ne; [done|]. set_solver.
  - intros id ->%list_elem_of_singleton. right. exists r. rewrite lookup_insert_eq. split; [done|]. by left.
  - intros id r' Hin%list_elem_of_singleton. injection Hin as -> ->. by eapply (ok_busy _ Ha).
  - cbn. by destruct (session_unusable r).
Qed.

(** Dropping commands touches nothing but their one-shot channels. *)
Lemma dropped_oneshots commands a :
  foldr (λ command, with_oneshot (command_response command) OneshotDropped) a commands =
  {| ag_registry := ag_registry a; ag_sessions := ag_sessions a; ag_calls := ag_calls a;
     ag_oneshots := foldr (λ command, <[command_response command := OneshotDropped]>) (ag_oneshots a) commands;
     ag_asked := ag_asked a; ag_taken := ag_taken a; ag_replied := ag_replied a |}.
Proof. induction commands as [|command commands IH]; [by destruct a|]. cbn. by rewrite IH. Qed.
Lemma dropped_lookup commands (m : gmap nat oneshot) id :
  foldr (λ command, <[command_response command := OneshotDropped]>) m commands !! id =
  if decide (id ∈ command_response <$> commands) then Some OneshotDropped else m !! id.
Proof.
  induction commands as [|command commands IH]; [done|]. cbn. rewrite lookup_insert, IH.
  repeat case_decide; set_solver.
Qed.

Lemma session_ended_ok a s a' : agents_ok a → session_ended s a = Some a' → agents_ok a'.
Proof.
  intros Ha. unfold session_ended. destruct (ag_sessions a !! s) as [state|] eqn:Hs; [|done].
  intros Hend. assert (a' = {| ag_registry := ag_registry a;
    ag_sessions := <[s := with_queue [] SessionGone state]> (ag_sessions a); ag_calls := ag_calls a;
    ag_oneshots := foldr (λ command, <[command_response command := OneshotDropped]>)
      (ag_oneshots a) (pending state);
    ag_asked := ag_asked a; ag_taken := ag_taken a; ag_replied := ag_replied a ++ [] |}) as ->.
  { rewrite app_nil_r. unfold pending. destruct (ses_phase state); try done; injection Hend as <-;
      by rewrite ?dropped_oneshots. }
  apply (released_ok a s state _ (pending state)); try done.
  - by rewrite app_nil_r.
  - cbn. lia.
  - by intros c ?%elem_of_nil.
  - intros id Hid. by rewrite dropped_lookup, decide_False.
  - intros id Hid. left. by rewrite dropped_lookup, decide_True.
  - by intros id r ?%elem_of_nil.
Qed.

Lemma call_sent_ok a id a' : agents_ok a → call_sent id a = Some a' → agents_ok a'.
Proof.
  intros Ha. unfold call_sent. destruct (ag_calls a !! id) as [[s command| |]|] eqn:Hid; try done.
  destruct (ag_sessions a !! s) as [state|] eqn:Hs; [|done].
  pose proof (sending_not_held _ _ _ _ Ha Hid) as Hheld.
  assert (ses_phase state = SessionGone ∨ ses_phase state ≠ SessionGone) as [Hgone|Hgone]
    by (destruct (ses_phase state); auto).
  - rewrite Hgone. intros [= <-]. apply with_oneshot_ok; [|done|].
    + apply with_call_ok; [done|eexists; by split|]. split; [by right; left|by right].
    + intros s' command'. cbn. by rewrite lookup_insert_eq.
  - intros Hsent. assert ((length (ses_commands state) < COMMAND_CHANNEL_CAPACITY)%nat ∧
      a' = with_call id CallWaiting (with_session s
        (with_queue (ses_commands state ++ [command]) (ses_phase state) state) a)) as [Hlen ->].
    { destruct (ses_phase state); try done; by case_decide; simplify_eq. }
    by eapply enqueued_ok.
Qed.

Lemma session_started_ok a compute s a' : agents_ok a → session_started compute s a = Some a' → agents_ok a'.
Proof.
  intros Ha. unfold session_started. destruct (ag_sessions a !! s) eqn:Hs; [done|]. intros [= <-].
  assert (∀ t st, ag_sessions a !! t = Some st → t ≠ s) as Hne by congruence.
  set (state := {| ses_compute := compute; ses_commands := []; ses_phase := SessionIdle |}).
  assert (∀ t st i c, <[s := state]> (ag_sessions a) !! t = Some st → pending st !! i = Some c →
    ag_sessions a !! t = Some st) as Hold.
  { by intros t st i c [[<- <-]|[_ Ht]]%lookup_insert_Some Hc. }
  split; cbn; try apply Ha.
  - intros c t. unfold registry_register. intros [[<- <-]|[_ Hreg]]%lookup_insert_Some.
    + exists state. by rewrite lookup_insert_eq.
    + destruct (ok_registry _ Ha _ _ Hreg) as (st & Ht & Hc). exists st.
      by rewrite lookup_insert_ne by (by eapply not_eq_sym, Hne).
  - intros i t c Hi. destruct (ok_sending _ Ha _ _ _ Hi) as (? & ? & ? & st & Ht & Hc).
    split_and!; [done..|]. exists st. by rewrite lookup_insert_ne by (by eapply not_eq_sym, Hne).
  - intros t st c Ht Hc. destruct (proj1 (list_elem_of_lookup _ _) Hc) as [i Hi].
    apply (ok_pending _ Ha t); [|done]. by eapply Hold.
  - intros t st i c t' st' j c' Ht Hi Ht' Hj. eapply (ok_apart _ Ha); try done; by eapply Hold.
  - intros i Hi. destruct (ok_waiting _ Ha _ Hi) as [?|[?|(t & st & c & Ht & Hc & Hci)]]; [auto..|].
    do 2 right. exists t, st, c. cbn. by rewrite lookup_insert_ne by (by eapply not_eq_sym, Hne).
  - intros t st [[<- <-]|[_ Ht]]%lookup_insert_Some; [|by apply (ok_queue _ Ha t)].
    cbn. split_and!; [lia|done|]. by intros c ?%elem_of_nil.
  - intros t st c [[<- <-]|[_ Ht]]%lookup_insert_Some Hc; [done|by eapply (ok_busy _ Ha)].
Qed.

Lemma session_unregistered_ok a s a' : agents_ok a → session_unregistered s a = Some a' → agents_ok a'.
Proof.
  intros Ha. unfold session_unregistered. destruct (ag_sessions a !! s) as [state|]; [|done].
  destruct (ses_phase state); try done. intros [= <-]. split; try apply Ha.
  intros c t. cbn. unfold registry_unregister. destruct (is_some_and _ _); [|apply Ha].
  intros [_ Hreg]%lookup_delete_Some. by apply Ha.
Qed.

Lemma agents_step_ok a e a' : agents_ok a → agents_step e a = Some a' → agents_ok a'.
Proof.
  intros Ha. destruct e as [compute method params|id|id|id|compute s|s|s r|s|s]; cbn.
  - intros [= <-]. by apply call_started_ok.
  - by apply call_sent_ok.
  - by apply call_resumed_ok.
  - by apply call_timed_out_ok.
  - by apply session_started_ok.
  - unfold session_received. destruct (ag_sessions a !! s) as [state|] eqn:Hs; [|done].
    destruct (ses_phase state) eqn:Hp; try done. destruct (ses_commands state) as [|c cs] eqn:Hc; [done|].
    intros [= <-]. by eapply taken_ok.
  - by apply session_replied_ok.
  - by apply session_ended_ok.
  - by apply session_unregistered_ok.
Qed.

Lemma agents_run_ok h a : agents_run h = Some a → agents_ok a.
Proof.
  revert a. induction h as [|e h IH] using rev_ind; intros a.
  - intros [= <-]. apply agents_start_ok.
  - unfold agents_run. rewrite foldl_snoc. fold (agents_run h).
    destruct (agents_run h) as [a0|]; [|done]. intros Hstep. by eapply agents_step_ok; [apply IH|].
Qed.

(** ** The session's program *)

Inductive session_place := PlaceIdle | PlaceBusy | PlaceLeaving.

(** Where a session is after what it did, the latest first. *)
Definition place_after (e : gevent agent_op) (before : session_place) : session_place :=
  match e with GEvent o x =>
    match o in agent_op X return X → session_place with
    | ANextInput => λ input, match input with InputCommand _ _ => PlaceBusy | _ => PlaceLeaving end
    | AReply r => λ _, if session_unusable r then PlaceLeaving else PlaceIdle
    | _ => λ _, before
    end x
  end.
Definition place (past : list (gevent agent_op)) : session_place := foldr place_after PlaceIdle past.

(** It takes a command only when it is idle and replies only to a command. *)
Definition follows_channel (past : list (gevent agent_op)) (X : Type) (o : agent_op X) : Prop :=
  match o with
  | ANextInput => place past = PlaceIdle
  | AReply _ => place past = PlaceBusy
  | _ => True
  end.
Definition off_channel (X : Type) (o : agent_op X) : Prop :=
  match o with ANextInput | AReply _ => False | _ => True end.

Lemma off_channel_keeps {A} (p : agent_prog A) past :
  galways off_channel (λ _, True) p → gtraced follows_channel (λ past' _, place past' = place past) past p.
Proof.
  intros Hp. assert (∀ past', place past' = place past →
    gtraced follows_channel (λ past' _, place past' = place past) past' p) as H; [|by apply H].
  induction p as [a|X o k IH]; intros past' Hpast; cbn in *; [done|]. destruct Hp as [Ho Hk].
  split; [by destruct o|]. intros x. apply IH; [done|]. by destruct o.
Qed.

(** The program of a session moves as the session of the model does: it takes a command,
    replies to it, and is done after a result that makes it unusable. *)
Theorem session_follows_channel `{Deserialize AgentWireResponse} describe fuel id past :
  place past = PlaceIdle → gtraced follows_channel (λ _ _, True) past (agent_session describe fuel id).
Proof.
  revert id past. induction fuel as [|fuel IH]; intros id past Hpast; cbn [agent_session]; [done|].
  apply gtraced_perform; [done|]. intros [| |method params]; [done..|].
  eapply gtraced_bind; [apply off_channel_keeps|].
  { unfold exchange, racing, read_wire_response. repeat (galways_step; simplify_eq); done. }
  intros past' [r|] Hp; [|done]. apply gtraced_perform; [done|]. intros [].
  destruct (session_unusable r) eqn:Hr; [done|]. apply IH. cbn. by rewrite Hr.
Qed.

(** ** Calls *)

(** C18. However callers, sessions, reconnections and timeouts interleave: a call that
    returns a value returns what a session of its compute instance replied to exactly
    this method and these parameters; no command is taken by a session twice, none by a
    session of another compute instance, and none of a call that found no session; at
    most 32 commands wait in the channel of a session; and no call waits for nothing:
    each has returned, can go on, or waits for a session that is there. *)
Theorem calls_are_answered_once h a : agents_run h = Some a →
  (∀ id r, ag_calls a !! id = Some (CallReturned r) → result_ok a id r) ∧
  (∀ id v, ag_calls a !! id = Some (CallReturned (Ok v)) → ∃ compute command,
     (compute, command) ∈ ag_taken a ∧ (id, Ok v) ∈ ag_replied a ∧
     ag_asked a !! id = Some (compute, command_method command, Ok (command_params command))) ∧
  (∀ compute command, (compute, command) ∈ ag_taken a → asks a compute command) ∧ NoDup (taken_ids a) ∧
  (∀ s state, ag_sessions a !! s = Some state → (length (ses_commands state) ≤ 32)%nat) ∧
  ∀ id phase, ag_calls a !! id = Some phase →
    (∃ r, phase = CallReturned r) ∨ is_Some (call_resumed id a) ∨ is_Some (call_sent id a) ∨
    ∃ s state, ag_sessions a !! s = Some state ∧ ses_phase state ≠ SessionGone ∧
      (id ∈ command_response <$> pending state ∨ length (ses_commands state) = 32%nat).
Proof.
  intros Ha%agents_run_ok. split_and!; try apply Ha.
  - intros id v Hid. destruct (ok_returned _ Ha _ _ Hid) as [Hr|[?|[?|[_ [?|[? ?]]]]]]; try done.
    destruct (proj1 (list_elem_of_fmap _ _ _) (ok_replied _ Ha _ _ Hr)) as ([compute command] & -> & Hin).
    exists compute, command. split_and!; [done..|]. by apply (ok_taken _ Ha).
  - intros id phase Hid. destruct phase as [s command| |r]; [| |by eauto].
    + destruct (ok_sending _ Ha _ _ _ Hid) as (_ & _ & _ & state & Hs & _).
      destruct (ok_queue _ Ha _ _ Hs) as (Hlen & _). unfold call_sent. rewrite Hid, Hs.
      do 2 right. destruct (ses_phase state) eqn:Hp; [| | |by left].
      all: case_decide as Hd; [by left|right; exists s, state; rewrite Hp; split_and!; [done..|right]];
        unfold COMMAND_CHANNEL_CAPACITY in *; lia.
    + unfold call_resumed. rewrite Hid.
      destruct (ok_waiting _ Ha _ Hid) as [[r Hr]|[Hr|(s & state & command & Hs & Hc & <-)]].
      * rewrite Hr. right. left. by eexists.
      * rewrite Hr. right. left. by eexists.
      * do 3 right. exists s, state. split_and!; [done| |left; by apply list_elem_of_fmap_2].
        intros Hgone. destruct (ok_queue _ Ha _ _ Hs) as (_ & Hq & _). unfold pending in Hc.
        rewrite Hgone, (Hq Hgone) in Hc. by apply elem_of_nil in Hc.
Qed.

(** A call whose session is replaced by a new one while it is waiting. *)
Definition example_calls : list agents_event :=
  [EvStarted 13%N 1%N; EvCall 13%N "instance.inspect" (Ok JNull); EvSent 0; EvReceived 1%N;
   EvCall 13%N "server.start" (Ok (JBool true)); EvSent 1; EvStarted 13%N 2%N;
   EvReplied 1%N (Ok (JBool true)); EvLeft 1%N; EvUnregistered 1%N; EvResumed 1; EvResumed 0;
   EvCall 14%N "agent.shutdown" (Ok JNull)].

Definition example_result (id : nat) : option (option call_phase) :=
  (λ a, ag_calls a !! id) <$> agents_run example_calls.
Lemma example_results : example_result 0 = Some (Some (CallReturned (Ok (JBool true)))) ∧
  example_result 1 = Some (Some (CallReturned (Err ACE.Disconnected))) ∧
  example_result 2 = Some (Some (CallReturned (Err ACE.NotConnected))).
Proof. by vm_compute. Qed.

Lemma calls_are_answered_once_witness : ∃ a, agents_run example_calls = Some a ∧
  (∃ compute command, (compute, command) ∈ ag_taken a ∧ (0%nat, Ok (JBool true)) ∈ ag_replied a ∧
     ag_asked a !! 0%nat = Some (compute, command_method command, Ok (command_params command))) ∧
  result_ok a 1 (Err ACE.Disconnected) ∧ result_ok a 2 (Err ACE.NotConnected).
Proof.
  destruct example_results as (H0 & H1 & H2). unfold example_result in *.
  destruct (agents_run example_calls) as [a|] eqn:Ha; [|discriminate H0]. exists a. split; [reflexivity|].
  destruct (calls_are_answered_once _ _ Ha) as (Hresult & Hvalue & _).
  injection H0 as H0. injection H1 as H1. injection H2 as H2. auto.
Defined.

(** ** The queue of the reconciliation worker *)

Inductive queue_event := QueueSend (request : ReconcileRequest) | QueueReceive.
(** The queue with the requests it took and those the worker received. *)
Definition queue_step (e : queue_event)
    (s : reconcile_queue * list ReconcileRequest * list ReconcileRequest) :
    reconcile_queue * list ReconcileRequest * list ReconcileRequest :=
  let '(q, accepted, received) := s in
  match e with
  | QueueSend request =>
      let '(sent, q) := try_send request q in
      (q, if sent then accepted ++ [request] else accepted, received)
  | QueueReceive =>
      match queue_receive q with
      | Some (request, q) => (q, accepted, received ++ [request])
      | None => s
      end
  end.

(** The worker receives the requests that were accepted, each once and in their order; at
    most 256 wait, and one is refused only when that many do. *)
Theorem requests_arrive_in_order events :
  let '(q, accepted, received) := foldl (λ s e, queue_step e s) (reconcile_channel, [], []) events in
  accepted = received ++ rq_waiting q ∧ (length (rq_waiting q) ≤ RECONCILE_QUEUE_CAPACITY)%nat ∧
  ∀ request, (try_send request q).1 = false ↔ length (rq_waiting q) = RECONCILE_QUEUE_CAPACITY.
Proof.
  assert (∀ s, (let '(q, accepted, received) := s in rq_open q = true ∧ accepted = received ++ rq_waiting q ∧
    (length (rq_waiting q) ≤ RECONCILE_QUEUE_CAPACITY)%nat) →
    let '(q, accepted, received) := foldl (λ s e, queue_step e s) s events in rq_open q = true ∧
    accepted = received ++ rq_waiting q ∧ (length (rq_waiting q) ≤ RECONCILE_QUEUE_CAPACITY)%nat) as Hrun.
  { induction events as [|e events IH]; intros s Hs; [done|]. cbn. apply IH. clear IH.
    destruct s as [[q accepted] received], e as [request|]; destruct Hs as (Ho & -> & Hl); cbn.
    - unfold try_send. rewrite Ho. cbn. case_bool_decide as Hd; cbn; [|done].
      rewrite app_assoc, length_app. cbn. split_and!; [done..|lia].
    - unfold queue_receive. destruct q as [open [|request waiting]]; cbn in *; [done|].
      rewrite <- app_assoc. cbn. split_and!; [done..|lia]. }
  specialize (Hrun (reconcile_channel, [], [])). destruct (foldl _ _ _) as [[q accepted] received].
  destruct Hrun as (Ho & ? & Hl); [split_and!; [done..|cbn; lia]|]. split_and!; [done..|]. intros request.
  unfold try_send. rewrite Ho. cbn. case_bool_decide as Hd; cbn; (split; [|]); try done; intros; lia.
Qed.
