(* ===== verification/R2Properties.v ===== *)
(** What temporary storage credentials guarantee: they open the storage of one
    server only, and the agent accepts the environment they are given in. *)
From S2P Require Import Prelude Text Net NetFacts Programs Framing Server ServerFacts Database.
From S2P Require Import Effects Application Environment Config NodeAgent NodeTransport.
From S2P Require Import ConfigProperties.
From S2P Require Import R2Credentials.
From Stdlib Require Import Ascii.
#[local] Open Scope string_scope.
#[local] Open Scope Z_scope.

(** Documented behaviour of [Url::parse] (the WHATWG URL standard): on an address of
    the storage, the host is given in lower case and a path of plain segments as it
    is. *)
Definition UrlLaws (url_parse : string → option Url) : Prop :=
  ∀ account segments,
    account ≠ EmptyString → bytes_all is_ascii_hexdigit account = true →
    segments ≠ [] → Forall (λ segment, is_safe_prefix_segment segment = true) segments →
    url_parse ("https://" ++ r2_host account ++ "/" ++ join_path segments) = Some {|
      url_scheme := "https"; url_host := Some (to_ascii_lowercase (r2_host account));
      url_port := None; url_path := "/" ++ join_path segments; url_username := EmptyString;
      url_password := None; url_query := None; url_fragment := None |}.

(** ** Paths *)

Lemma safe_segment_lacks c s :
  is_ascii_alphanumeric c || byte_among "-_." c = false → is_safe_prefix_segment s = true → lacks c s.
Proof.
  unfold is_safe_prefix_segment. intros Hc (_ & Hs)%andb_true_iff. unfold lacks.
  eapply bytes_all_impl; [|exact Hs]. intros d Hd. cbv beta in Hd.
  destruct (byte_is_spec c d) as [<-|]; [congruence|done].
Qed.

Lemma join_path_cons segment segments :
  segments ≠ [] → join_path (segment :: segments) = segment ++ String "/" (join_path segments).
Proof. by destruct segments. Qed.

Lemma join_path_lacks c segments :
  c ≠ "/"%char → Forall (lacks c) segments → lacks c (join_path segments).
Proof.
  intros Hc. induction 1 as [|s segments Hs Hss IH]; [done|].
  destruct segments as [|s' segments]; [done|].
  rewrite join_path_cons by done. by rewrite lacks_app, lacks_cons.
Qed.

Lemma split_join segments :
  segments ≠ [] → Forall (lacks "/") segments → str_split "/" (join_path segments) = segments.
Proof.
  intros Hne. induction 1 as [|s segments Hs Hss IH]; [done|].
  destruct segments as [|s' segments]; [by apply str_split_whole|].
  rewrite join_path_cons, str_split_app by done. by rewrite IH.
Qed.

Lemma split_on_nonempty c l piece : split_on c l piece ≠ [].
Proof. revert piece. induction l as [|d l IH]; intros piece; cbn; [done|]. by case_match. Qed.
Lemma join_split_on l piece :
  join_path (split_on "/" l piece) = String.string_of_list_ascii (rev piece ++ l).
Proof.
  revert piece. induction l as [|d l IH]; intros piece; cbn [split_on]; [by rewrite app_nil_r|].
  destruct (byte_is_spec "/" d) as [<-|Hd].
  - rewrite join_path_cons, IH by apply split_on_nonempty.
    induction (rev piece) as [|e piece' IHp]; [done|]. cbn. by rewrite <- IHp, string_app_cons.
  - rewrite IH. cbn. by rewrite <- app_assoc.
Qed.
Lemma join_split s : join_path (str_split "/" s) = s.
Proof. unfold str_split. rewrite join_split_on. apply String.string_of_list_ascii_of_string. Qed.

Lemma existsb_negb_false {A} (f : A → bool) l :
  existsb (λ x, negb (f x)) l = false ↔ Forall (λ x, f x = true) l.
Proof.
  induction l as [|x l IH]; [by split; [constructor|]|]. cbn. rewrite orb_false_iff, negb_false_iff, IH.
  by rewrite Forall_cons.
Qed.

(** ** The repositories of the services *)

Lemma dns_label_safe name : is_dns_label name → is_safe_prefix_segment name = true.
Proof.
  intros (Hlen & Hall & (c & Hfirst & Hc) & _). unfold is_safe_prefix_segment.
  assert (bytes_all (λ c, is_ascii_alphanumeric c || byte_among "-_." c) name = true) as ->.
  { apply bytes_all_Forall. eapply Forall_impl; [exact Hall|]. cbn. intros d [Hd| ->]; [|done].
    unfold label_byte in Hd. unfold is_ascii_alphanumeric, is_ascii_alphabetic.
    apply orb_true_iff in Hd as [->| ->]; by rewrite ?orb_true_r. }
  destruct (String.eqb_spec name ".") as [->|]; [by injection Hfirst as <-|].
  destruct (String.eqb_spec name "..") as [->|]; [by injection Hfirst as <-|].
  by destruct name.
Qed.

Lemma bucket_safe bucket :
  validate_r2_bucket_name bucket = Ok tt → is_safe_prefix_segment bucket = true.
Proof.
  unfold validate_r2_bucket_name. intros Hb.
  match type of Hb with (if ?v then _ else _) = _ => destruct v eqn:Hv; [clear Hb|done] end.
  repeat apply andb_true_iff in Hv as [Hv ?]. unfold is_safe_prefix_segment.
  assert (bytes_all (λ c, is_ascii_alphanumeric c || byte_among "-_." c) bucket = true) as ->.
  { eapply bytes_all_impl; [|eassumption]. intros c. cbn. clear.
    by destruct c as [[] [] [] [] [] [] [] []]. }
  destruct (String.eqb_spec bucket ".") as [->|]; [done|].
  destruct (String.eqb_spec bucket "..") as [->|]; [done|].
  by destruct bucket.
Qed.

Lemma to_ascii_lowercase_app a b :
  to_ascii_lowercase (a ++ b) = to_ascii_lowercase a ++ to_ascii_lowercase b.
Proof. induction a as [|c a IH]; [done|]. rewrite !string_app_cons. cbn. by rewrite IH. Qed.

Section r2.
Context (url_parse : string → option Url) (envelope_from_slice : bytes → result string CloudflareEnvelope).
Context (r2 : R2Config).
Hypothesis url_laws : UrlLaws url_parse.

(** What an accepted configuration has (config_r2 of [config_ok]). *)
Hypothesis account_hex : bytes_all is_ascii_hexdigit (r2_account_id r2) = true.
Hypothesis account_length : str_len (r2_account_id r2) = 32.
Hypothesis bucket_ok : validate_r2_bucket_name (r2_bucket r2) = Ok tt.

(** The repository that the services give to a server, and its place in the bucket. *)
Definition server_repository (name : string) : string :=
  from_option id EmptyString (ServerService_r2_repository (Some (r2_repository_base r2)) name).
Definition server_prefix (name : string) : string := "servers/" ++ name ++ "/restic/".

Lemma server_repository_url name :
  server_repository name =
    "s3:" ++ "https://" ++ r2_host (r2_account_id r2) ++ "/" ++
      join_path [r2_bucket r2; "servers"; name; "restic"].
Proof.
  unfold server_repository, ServerService_r2_repository, r2_repository_base, r2_host. cbn.
  rewrite <- !string_app_assoc. done.
Qed.

Lemma server_url name :
  is_dns_label name →
  url_parse ("https://" ++ r2_host (r2_account_id r2) ++ "/" ++
      join_path [r2_bucket r2; "servers"; name; "restic"]) = Some {|
    url_scheme := "https"; url_host := Some (to_ascii_lowercase (r2_host (r2_account_id r2)));
    url_port := None; url_path := "/" ++ join_path [r2_bucket r2; "servers"; name; "restic"];
    url_username := EmptyString; url_password := None; url_query := None; url_fragment := None |}.
Proof.
  intros Hn. apply url_laws; [|done|done|].
  - intros He. by rewrite He in account_length.
  - repeat constructor; [by apply bucket_safe|by apply dns_label_safe].
Qed.

Lemma server_prefix_valid name : is_dns_label name → validate_prefix (server_prefix name) = Ok tt.
Proof.
  intros Hn. pose proof (dns_label_safe _ Hn) as Hs. destruct Hn as (Hlen & _).
  assert (bytes_all (λ c, is_ascii c && negb (byte_is Ascii.zero c)) (server_prefix name) = true) as Hb.
  { unfold server_prefix. rewrite !bytes_all_app, andb_true_iff. split; [done|].
    rewrite andb_true_r. unfold is_safe_prefix_segment in Hs. apply andb_true_iff in Hs as [_ Hs].
    eapply bytes_all_impl; [|exact Hs]. intros c. clear. by destruct c as [[] [] [] [] [] [] [] []]. }
  unfold validate_prefix. rewrite ascii_char_count.
  2:{ eapply bytes_all_impl; [|exact Hb]. by intros c [? _]%andb_true_iff. }
  rewrite lacks_nul.
  2:{ eapply bytes_all_impl; [|exact Hb]. by intros c [_ ?]%andb_true_iff. }
  replace (str_last_byte (server_prefix name)) with (Some "/"%char).
  2:{ unfold server_prefix. change "/restic/" with ("/restic" ++ "/").
      by rewrite !string_app_assoc, str_last_byte_app. }
  unfold server_prefix at 3. rewrite !str_len_app.
  change (str_len "servers/") with 8. change (str_len "/restic/") with 8.
  unfold MAX_REPOSITORY_PREFIX_CHARS. destruct (Z.ltb_spec 1024 (8 + (str_len name + 8))); [lia|done].
Qed.

(** The prefix of an address of the bucket, when the account is in lower case. *)
Lemma address_prefix segments :
  to_ascii_lowercase (r2_account_id r2) = r2_account_id r2 →
  segments ≠ [] → Forall (λ segment, is_safe_prefix_segment segment = true) segments →
  validate_prefix (join_path segments ++ "/") = Ok tt →
  repository_prefix url_parse ("s3:" ++ "https://" ++ r2_host (r2_account_id r2) ++ "/" ++
      join_path (r2_bucket r2 :: segments)) (r2_account_id r2) (r2_bucket r2) =
    Ok (join_path segments ++ "/").
Proof.
  intros Hlower Hne Hsafe Hvalid. unfold repository_prefix. rewrite strip_prefix_app.
  assert (Forall (λ segment, is_safe_prefix_segment segment = true) (r2_bucket r2 :: segments)) as Hall
    by (constructor; [by apply bucket_safe|done]).
  assert (Forall (lacks "/") (r2_bucket r2 :: segments)) as Hslash.
  { eapply Forall_impl; [exact Hall|]. intros s. by apply safe_segment_lacks. }
  cbn [ok_or mbind result_bind]. rewrite url_laws; [|by intros He; rewrite He in account_length|done..].
  cbn [ok_or mbind result_bind url_scheme url_host url_port url_path url_username url_password url_query
    url_fragment].
  assert (to_ascii_lowercase (r2_host (r2_account_id r2)) = r2_host (r2_account_id r2)) as ->.
  { unfold r2_host. rewrite to_ascii_lowercase_app. by rewrite Hlower. }
  rewrite bool_decide_eq_true_2, String.eqb_refl by done. rewrite strip_prefix_app.
  cbn [from_option id negb orb is_some str_is_empty err_if mbind result_bind].
  rewrite str_contains_lacks.
  2:{ apply join_path_lacks; [done|]. eapply Forall_impl; [exact Hall|].
      intros s. by apply safe_segment_lacks. }
  rewrite split_join by done. rewrite String.eqb_refl. cbn [negb err_if mbind result_bind].
  rewrite bool_decide_eq_false_2.
  2:{ intros [l ->]%last_Some. apply Forall_app in Hsafe as [_ Hs]. by inversion Hs. }
  rewrite (proj2 (existsb_negb_false _ _) Hsafe). rewrite Hvalid. by destruct segments.
Qed.

Lemma server_prefix_path name : server_prefix name = join_path ["servers"; name; "restic"] ++ "/".
Proof. unfold server_prefix. cbn. by rewrite <- !string_app_assoc. Qed.

Lemma server_repository_prefix name :
  to_ascii_lowercase (r2_account_id r2) = r2_account_id r2 → is_dns_label name →
  repository_prefix url_parse (server_repository name) (r2_account_id r2) (r2_bucket r2) =
    Ok (server_prefix name).
Proof.
  intros Hlower Hn. rewrite server_repository_url, server_prefix_path. apply address_prefix; [done|done| |].
  - repeat constructor. by apply dns_label_safe.
  - rewrite <- server_prefix_path. by apply server_prefix_valid.
Qed.

(** An account with a letter in upper case. *)
Lemma upper_case_account_refused name :
  to_ascii_lowercase (r2_account_id r2) ≠ r2_account_id r2 → is_dns_label name →
  repository_prefix url_parse (server_repository name) (r2_account_id r2) (r2_bucket r2) =
    Err (R2E.UnsupportedRepository (server_repository name)).
Proof.
  intros Hupper Hn. unfold repository_prefix. rewrite server_repository_url, strip_prefix_app.
  cbn [ok_or mbind result_bind]. rewrite server_url by done. cbn [ok_or mbind result_bind url_scheme
    url_host url_port url_path url_username url_password url_query url_fragment].
  rewrite bool_decide_eq_false_2; [done|]. intros [= He]. apply Hupper.
  unfold r2_host in He. rewrite to_ascii_lowercase_app in He. by apply string_app_inj_r in He.
Qed.
End r2.

(** ** What is asked for *)

(** The objects a request opens, and the objects of a server's repository. *)
Definition granted (request : CreateTemporaryCredentialRequest) (key : string) : Prop :=
  ∃ prefix, prefix ∈ ask_prefixes request ∧ starts_with prefix key = true.
Definition stored_for (name key : string) : Prop := starts_with (server_prefix name) key = true.

Lemma stored_for_one name name' key :
  is_dns_label name → is_dns_label name' → stored_for name key → stored_for name' key → name = name'.
Proof.
  intros Hn Hn' (x & Hx)%starts_with_spec (y & Hy)%starts_with_spec. rewrite Hx in Hy.
  unfold server_prefix in Hy. rewrite <- !string_app_assoc in Hy.
  apply string_app_inj_l in Hy. change "/restic/" with (String "/" "restic/") in Hy.
  rewrite !string_app_cons in Hy.
  eapply (until_inj "/"); [..|exact Hy]; by apply safe_segment_lacks, dns_label_safe.
Qed.

Definition asks_for (r2 : R2Config) (prefix : string) (ttl : Z) (X : Type) (o : r2_op X) : Prop :=
  match o with
  | PostCredentials endpoint token request =>
      token = r2_api_token r2 ∧ request = credential_request r2 prefix ttl
  end.

(** The path that a repository's address names in the bucket of the configuration. *)
Definition names_path (url_parse : string → option Url) (r2 : R2Config) (repository : string)
    (segments : list string) : Prop :=
  segments ≠ [] ∧ Forall (λ segment, is_safe_prefix_segment segment = true) segments ∧
  ∃ address url path, repository = "s3:" ++ address ∧ url_parse address = Some url ∧
    url_scheme url = "https" ∧ url_host url = Some (r2_host (r2_account_id r2)) ∧
    (url_path url = path ∨ url_path url = "/" ++ path) ∧
    (path = join_path (r2_bucket r2 :: segments) ∨ path = join_path (r2_bucket r2 :: segments) ++ "/").

Lemma join_path_app_slash segments :
  segments ≠ [] → join_path (segments ++ [EmptyString])%list = join_path segments ++ "/".
Proof.
  induction segments as [|s segments IH]; [done|]. intros _.
  destruct segments as [|s' segments]; [done|].
  change ((s :: s' :: segments) ++ [EmptyString])%list with (s :: ((s' :: segments) ++ [EmptyString]))%list.
  rewrite !join_path_cons, IH by done. by rewrite <- string_app_assoc.
Qed.

Lemma split_path path bucket rest :
  str_split "/" path = bucket :: rest →
  let segments := if bool_decide (last rest = Some EmptyString) then removelast rest else rest in
  path = join_path (bucket :: segments) ∨ path = join_path (bucket :: segments) ++ "/".
Proof.
  intros Hs. pose proof (join_split path) as Hj. rewrite Hs in Hj.
  case_bool_decide as Hl; [right|by left]. apply last_Some in Hl as [l ->].
  rewrite removelast_last. by rewrite <- Hj, <- join_path_app_slash.
Qed.

Lemma repository_prefix_ok url_parse r2 repository prefix :
  repository_prefix url_parse repository (r2_account_id r2) (r2_bucket r2) = Ok prefix →
  ∃ segments, names_path url_parse r2 repository segments ∧ prefix = join_path segments ++ "/".
Proof.
  unfold repository_prefix. intros Hp. inv_res.
  destruct (str_split "/" _) as [|bucket rest] eqn:Hsplit; [done|].
  pose proof (split_path _ _ _ Hsplit) as Hpath. revert Hpath H3.
  generalize (if bool_decide (last rest = Some EmptyString) then removelast rest else rest).
  intros segments Hpath Hp. inv_res.
  match goal with Hb : String.eqb bucket _ = true |- _ => apply String.eqb_eq in Hb as -> end.
  exists segments. split; [|done]. split; [by destruct segments|]. split.
  { by apply existsb_negb_false. }
  eexists _, _, _. split; [by apply strip_prefix_Some|]. split; [done|].
  split; [by apply String.eqb_eq|]. split; [by eapply bool_decide_eq_true_1|]. split; [|exact Hpath].
  destruct (strip_prefix "/" (url_path _)) as [path|] eqn:Hs; [right; by apply strip_prefix_Some|by left].
Qed.

(** The data of a server that the services gave a repository of this storage when it
    was made, and kept in its updates. *)
Inductive given_to (r2 : R2Config) (name : string) : DataSpec → Prop :=
  | given_new desired spec :
      desired_data desired = DDS.R2Restic →
      DesiredServerSpec_resolve desired None
        (ServerService_r2_repository (Some (r2_repository_base r2)) name) = Ok spec →
      given_to r2 name (spec_data spec)
  | given_update data desired repository spec :
      given_to r2 name data →
      DesiredServerSpec_resolve desired (Some data) repository = Ok spec →
      given_to r2 name (spec_data spec).

Lemma given_to_data r2 name data :
  given_to r2 name data →
  data = {| backend := DB.R2Restic; repository := server_repository r2 name |}.
Proof.
  induction 1 as [desired spec Hd Hr|data desired repo spec _ -> Hr]; unfold DesiredServerSpec_resolve in Hr.
  - rewrite Hd in Hr. inv_res. by injection H as <-.
  - destruct (desired_data desired); [done|]. inv_res. by injection H as <-.
Qed.

(** Well-formed credentials. *)
Definition credential_ok (value : string) : Prop :=
  str_is_blank value = false ∧ str_contains_nul value = false ∧
  str_char_count value ≤ MAX_CREDENTIAL_CHARS.

Lemma required_credential_ok field value v :
  required_credential field value = Ok v → value = Some v ∧ credential_ok v.
Proof. unfold required_credential. intros Hr. inv_res. bz. done. Qed.

Lemma credentials_of_ok from status retry_after body c :
  credentials_of from status retry_after body = Ok c →
  status_is_success status = true ∧
  credential_ok (access_key_id c) ∧ credential_ok (secret_access_key c) ∧ credential_ok (session_token c).
Proof.
  unfold credentials_of. intros Hc. inv_res.
  repeat match goal with H : required_credential _ _ = Ok _ |- _ =>
    apply required_credential_ok in H as [_ ?] end. done.
Qed.

(** The errors that come before the environment is put together. *)
Definition not_reserved (e : R2TemporaryCredentialError) : Prop :=
  match e with R2E.ReservedRuntimeKey _ => False | _ => True end.
Definition issued (r : result R2TemporaryCredentialError R2TemporaryCredentials) : Prop :=
  match r with
  | Ok c => credential_ok (access_key_id c) ∧ credential_ok (secret_access_key c) ∧
      credential_ok (session_token c)
  | Err e => not_reserved e
  end.

Lemma validate_prefix_errors prefix e : validate_prefix prefix = Err e → not_reserved e.
Proof. unfold validate_prefix. intros He. by inv_err. Qed.
Lemma repository_prefix_errors url_parse repository account bucket e :
  repository_prefix url_parse repository account bucket = Err e → not_reserved e.
Proof.
  unfold repository_prefix. intros He. inv_err; try done. case_match; inv_err; try done.
  by eapply validate_prefix_errors.
Qed.
Lemma credentials_of_errors from status retry_after body e :
  credentials_of from status retry_after body = Err e → not_reserved e.
Proof. unfold credentials_of, required_credential. intros He. by inv_err. Qed.

Lemma issue_traced from r2 prefix ttl past :
  gtraced (λ _, asks_for r2 prefix ttl) (λ _, issued) past (issue from r2 prefix ttl).
Proof.
  unfold issue. repeat (gfollow_step; cbv beta); try done; cbn.
  - destruct (credentials_of _ _ _ _) as [cr|e] eqn:Hc; cbn.
    + by apply credentials_of_ok in Hc as [_ Hc].
    + by eapply credentials_of_errors.
  - by eapply validate_prefix_errors.
Qed.

(** ** What is given to the agent *)

Definition issued_environment (a s t : string) : gmap string string :=
  <["AWS_SESSION_TOKEN" := t]> (<["AWS_SECRET_ACCESS_KEY" := s]>
    (<["AWS_ACCESS_KEY_ID" := a]> {["AWS_DEFAULT_REGION" := "auto"]})).

Lemma find_lookup (key : string) (values : list (string * string)) :
  snd <$> List.find (λ '(k, _), String.eqb key k) values =
    (list_to_map values : gmap string string) !! key.
Proof.
  induction values as [|[k v] values IH]; [done|]. cbn. destruct (String.eqb_spec key k) as [<-|Hk].
  - by rewrite lookup_insert_eq.
  - by rewrite lookup_insert_ne.
Qed.

Lemma issued_environment_lookup a s t key value :
  issued_environment a s t !! key = Some value →
  In (key, value) [("AWS_ACCESS_KEY_ID", a); ("AWS_SECRET_ACCESS_KEY", s); ("AWS_SESSION_TOKEN", t);
                   ("AWS_DEFAULT_REGION", "auto")].
Proof.
  unfold issued_environment. intros Hl.
  repeat (apply lookup_insert_Some in Hl as [[<- <-]|[_ Hl]]; [cbn; tauto|]).
  apply lookup_singleton_Some in Hl as [<- <-]. cbn; tauto.
Qed.

(** The agent's check, on the entries in any order. *)
Lemma issued_environment_valid a s t values :
  credential_ok a → credential_ok s → credential_ok t →
  values ≡ₚ map_to_list (issued_environment a s t) →
  validate_runtime_environment values true = Ok tt.
Proof.
  intros Ha Hs Ht Hv. unfold validate_runtime_environment.
  assert (length values = 4%nat) as ->.
  { rewrite Hv. change (length (map_to_list ?m)) with (size m). reflexivity. }
  assert (for_each (λ '(key, value),
    err_if (negb (existsb (String.eqb key) ["AWS_ACCESS_KEY_ID"; "AWS_SECRET_ACCESS_KEY";
                                             "AWS_SESSION_TOKEN"; "AWS_DEFAULT_REGION"])
            || str_contains_nul value
            || (NodeTransport.MAX_RUNTIME_ENVIRONMENT_VALUE_CHARS <? str_char_count value))
      TE.InvalidRuntimeEnvironment) values = Ok tt) as Hf.
  { apply for_each_ok. rewrite Hv. apply Forall_forall. intros [key value].
    rewrite elem_of_map_to_list. intros Hl%issued_environment_lookup.
    assert (∀ v, credential_ok v → str_contains_nul v = false ∧
      (NodeTransport.MAX_RUNTIME_ENVIRONMENT_VALUE_CHARS <? str_char_count v) = false) as Hok.
    { intros v (_ & Hnul & Hcount). split; [done|]. by apply Z.ltb_ge. }
    destruct Hl as [[= <- <-]|[[= <- <-]|[[= <- <-]|[[= <- <-]|[]]]]]; try done.
    - by destruct (Hok a Ha) as [-> ->].
    - by destruct (Hok s Hs) as [-> ->].
    - by destruct (Hok t Ht) as [-> ->]. }
  rewrite Hf. cbn -[List.find existsb]. unfold REQUIRED_REMOTE_RUNTIME_ENVIRONMENT_KEYS. cbn [existsb].
  rewrite !find_lookup.
  assert (list_to_map values = issued_environment a s t) as ->.
  { rewrite <- (list_to_map_to_list (issued_environment a s t)). apply list_to_map_proper; [|done].
    rewrite Hv. apply NoDup_fst_map_to_list. }
  destruct Ha as [Ha _], Hs as [Hs _], Ht as [Ht _].
  change (issued_environment a s t !! "AWS_ACCESS_KEY_ID") with (Some a).
  change (issued_environment a s t !! "AWS_SECRET_ACCESS_KEY") with (Some s).
  change (issued_environment a s t !! "AWS_SESSION_TOKEN") with (Some t).
  change (issued_environment a s t !! "AWS_DEFAULT_REGION") with (Some "auto").
  cbn [from_option]. by rewrite Ha, Hs, Ht.
Qed.

Section accepted.
Context (url_parse : string → option Url) (envelope_from_slice : bytes → result string CloudflareEnvelope).
Context (env : environment_vars) (files : string → result io_error string) (c : Config) (r2 : R2Config).
Hypothesis accepted : from_env url_parse env files = Ok c.
Hypothesis configured : cfg_r2 c = Some r2.

#[local] Abbreviation issue_for :=
  (runtime_environment_for_repository url_parse envelope_from_slice r2).

Lemma accepted_r2 :
  r2_runtime_environment r2 = {["AWS_DEFAULT_REGION" := "auto"]} ∧
  str_len (r2_account_id r2) = 32 ∧ bytes_all is_ascii_hexdigit (r2_account_id r2) = true ∧
  validate_r2_bucket_name (r2_bucket r2) = Ok tt.
Proof.
  destruct (config_r2 _ _ (from_env_ok _ _ _ _ accepted) r2 configured)
    as (a & _ & _ & _ & _ & ? & ? & ? & ?). done.
Qed.

(** The credentials that were asked for. *)
Lemma asked_request repository evs r endpoint token request x :
  trace (issue_for repository) evs r → GEvent (PostCredentials endpoint token request) x ∈ evs →
  ∃ prefix, repository_prefix url_parse repository (r2_account_id r2) (r2_bucket r2) = Ok prefix ∧
    token = r2_api_token r2 ∧
    request = credential_request r2 prefix (r2_temporary_credential_ttl r2).
Proof.
  intros Ht Hin. unfold runtime_environment_for_repository in Ht.
  destruct (repository_prefix url_parse repository (r2_account_id r2) (r2_bucket r2)) as [prefix|e] eqn:Hp.
  2:{ exfalso. cbn in Ht. apply trace_inv in Ht as [[-> _]|[-> _]]; by apply elem_of_nil in Hin. }
  exists prefix. split; [done|].
  apply list_elem_of_split in Hin as (e1 & e2 & ->).
  change (asks_for r2 prefix (r2_temporary_credential_ttl r2) _ (PostCredentials endpoint token request)).
  eapply (trace_gtraced (λ _, asks_for r2 prefix (r2_temporary_credential_ttl r2))
    (λ _ _, True) _ _ _ [] Ht); [|done].
  cbn [prog_bind try_bind]. eapply (gtraced_try _ (λ _ _, True)); [|done].
  eapply gtraced_post; [apply issue_traced|]. by intros past [cr|e].
Qed.

Lemma granted_prefix prefix ttl key :
  granted (credential_request r2 prefix ttl) key ↔ starts_with prefix key = true.
Proof. unfold granted. cbn. setoid_rewrite list_elem_of_singleton. naive_solver. Qed.

(** C11. Credentials are only ever asked for with the configured token, for the
    configured lifetime and bucket, and for the objects below the path that the
    repository names in that bucket, which is never the whole bucket. When the
    repository is the one that the services gave to a server asked for with the
    backend [r2_restic], these are exactly the objects of that server, and none of
    any other server, whatever their names are. *)
Theorem credentials_are_isolated repository evs r :
  UrlLaws url_parse → trace (issue_for repository) evs r →
  ∀ endpoint token request x, GEvent (PostCredentials endpoint token request) x ∈ evs →
    token = r2_api_token r2 ∧ ask_bucket request = r2_bucket r2 ∧
    ask_ttl_seconds request = as_secs (r2_temporary_credential_ttl r2) ∧
    (∃ segments, names_path url_parse r2 repository segments ∧
      ∀ key, granted request key ↔ starts_with (join_path segments ++ "/") key = true) ∧
    ∀ name, is_dns_label name → given_to r2 name {| backend := DB.R2Restic; repository := repository |} →
      (∀ key, granted request key ↔ stored_for name key) ∧
      ∀ name' key, is_dns_label name' → stored_for name' key → granted request key → name' = name.
Proof.
  intros Hurl Ht endpoint token request x Hin.
  destruct accepted_r2 as (_ & Hlen & Hhex & Hbucket).
  destruct (asked_request _ _ _ _ _ _ _ Ht Hin) as (prefix & Hp & -> & ->).
  split_and!; [done..| |].
  - destruct (repository_prefix_ok _ _ _ _ Hp) as (segments & Hs & ->). exists segments.
    split; [done|]. intros key. apply granted_prefix.
  - intros name Hn Hg. apply given_to_data in Hg. injection Hg as ->.
    assert (prefix = server_prefix name) as ->.
    { destruct (decide (to_ascii_lowercase (r2_account_id r2) = r2_account_id r2)) as [Hlower|Hupper].
      - rewrite server_repository_prefix in Hp by done. by injection Hp.
      - by rewrite upper_case_account_refused in Hp. }
    split; [intros key; apply granted_prefix|]. intros name' key Hn' Hk Hg%granted_prefix.
    by apply (stored_for_one _ _ _ Hn' Hn Hk Hg).
Qed.

(** A repository of the backend [local_restic] is the client's own text, and nothing
    compares it with the storage: when it is the directory of all servers in the
    bucket, the credentials that an agent gets for it open the repository of every
    server. *)
Theorem local_repository_covers_every_server desired spec evs r :
  UrlLaws url_parse → to_ascii_lowercase (r2_account_id r2) = r2_account_id r2 →
  desired_data desired =
    DDS.LocalRestic ("s3:https://" ++ r2_host (r2_account_id r2) ++ "/" ++ r2_bucket r2 ++ "/servers") →
  DesiredServerSpec_resolve desired None None = Ok spec →
  trace (issue_for (repository (spec_data spec))) evs r →
  ∀ endpoint token request x, GEvent (PostCredentials endpoint token request) x ∈ evs →
    ∀ name key, stored_for name key → granted request key.
Proof.
  intros Hurl Hlower Hd Hspec Ht endpoint token request x Hin name key Hk.
  destruct accepted_r2 as (_ & Hlen & Hhex & Hbucket).
  assert (repository (spec_data spec) = "s3:" ++ "https://" ++ r2_host (r2_account_id r2) ++ "/" ++
    join_path [r2_bucket r2; "servers"]) as Hrepo.
  { unfold DesiredServerSpec_resolve in Hspec. rewrite Hd in Hspec. inv_res. done. }
  destruct (asked_request _ _ _ _ _ _ _ Ht Hin) as (prefix & Hp & -> & ->). apply granted_prefix.
  rewrite Hrepo, address_prefix in Hp by (done || by repeat constructor). injection Hp as <-.
  apply starts_with_spec in Hk as [rest ->]. apply starts_with_spec. exists (name ++ "/restic/" ++ rest).
  unfold server_prefix. by rewrite <- !string_app_assoc.
Qed.

(** C33. What the control plane gives to an agent as its environment, whatever the
    storage service answered, is accepted by the agent's own check in any order of
    its entries: the credentials never clash with the configured settings, none of
    the required keys is missing or blank, and every value is within the agent's
    limits. *)
Theorem issued_environment_is_accepted repository evs r :
  trace (issue_for repository) evs (Some r) →
  match r with
  | Ok environment => ∀ values, values ≡ₚ map_to_list environment →
      validate_runtime_environment values true = Ok tt
  | Err e => ∀ key, e ≠ R2E.ReservedRuntimeKey key
  end.
Proof.
  intros Ht. destruct accepted_r2 as (Henv & _).
  pose (accepted_by_agent r := match r with
    | Ok environment => ∀ values, values ≡ₚ map_to_list environment →
        validate_runtime_environment values true = Ok tt
    | Err e => ∀ key, e ≠ R2E.ReservedRuntimeKey key
    end). change (accepted_by_agent r).
  assert (∀ e, not_reserved e → accepted_by_agent (Err e)) as Herr by by intros [] Hnot k.
  refine (proj2 (trace_gtraced (λ _ _ _, True) (λ _ r, accepted_by_agent r) _ _ _ [] Ht _) _ eq_refl).
  unfold runtime_environment_for_repository.
  destruct (repository_prefix url_parse repository (r2_account_id r2) (r2_bucket r2)) as [prefix|e] eqn:Hp.
  2:{ apply Herr. by eapply repository_prefix_errors. }
  eapply (gtraced_try _ (λ _ c, issued (Ok c))).
  - eapply gtraced_weaken; [..|apply issue_traced]; [done|]. intros past [cr|e]; [done|]. cbn. apply Herr.
  - intros past cr (Ha & Hs & Hk). rewrite Henv.
    change (accepted_by_agent (Ok (issued_environment (access_key_id cr) (secret_access_key cr)
      (session_token cr)))).
    intros values Hv. exact (issued_environment_valid _ _ _ values Ha Hs Hk Hv).
Qed.
End accepted.

(** The environment an agent accepts cannot redirect or reconfigure the commands it
    runs: restic's commands get the repository of the request whatever the
    registration said, nothing but the four credentials beside it, and Podman's
    commands get nothing at all. *)
Theorem accepted_environment_is_only_credentials values required command key value :
  validate_runtime_environment values required = Ok tt →
  command_environment (list_to_map values) command !! key = Some value →
  match command with
  | ResticCatConfig repository | ResticInit repository | ResticRestore repository _ _
  | ResticBackup repository _ _ =>
      (key = "RESTIC_REPOSITORY" ∧ value = repository) ∨
      (key ∈ NodeTransport.REQUIRED_REMOTE_RUNTIME_ENVIRONMENT_KEYS ∧ (key, value) ∈ values ∧
       str_contains_nul value = false)
  | _ => False
  end.
Proof.
  unfold validate_runtime_environment. intros Hv.
  assert (∀ key value, (list_to_map values : gmap string string) !! key = Some value →
    key ∈ NodeTransport.REQUIRED_REMOTE_RUNTIME_ENVIRONMENT_KEYS ∧ (key, value) ∈ values ∧
    str_contains_nul value = false) as Hentries.
  { intros k v Hl%elem_of_list_to_map_2.
    apply bind_ok in Hv as ([] & _ & Hv). apply bind_ok in Hv as ([] & Hcheck & _).
    apply for_each_ok in Hcheck. rewrite Forall_forall in Hcheck. specialize (Hcheck _ Hl). cbn beta iota in Hcheck.
    apply err_if_ok, orb_false_iff in Hcheck as [[Hk Hn]%orb_false_iff _].
    apply negb_false_iff, existsb_exists in Hk as (k' & Hk' & ->%String.eqb_eq).
    split_and!; [by apply list_elem_of_In|done|done]. }
  destruct command; cbn; try done; (intros [[<- <-]|[_ Hl]]%lookup_insert_Some; [by left|right; eauto]).
Qed.

(** An account id with a letter in upper case, which the configuration accepts, gets no
    credentials at all: the URL's host comes back in lower case and never equals the
    expected one, so that every server's repository is refused before anything is
    asked of the storage. *)
Theorem upper_case_account_gets_no_credentials url_parse envelope_from_slice env files c r2 name evs r :
  from_env url_parse env files = Ok c → cfg_r2 c = Some r2 → UrlLaws url_parse →
  to_ascii_lowercase (r2_account_id r2) ≠ r2_account_id r2 → is_dns_label name →
  trace (runtime_environment_for_repository url_parse envelope_from_slice r2
    (server_repository r2 name)) evs (Some r) →
  evs = [] ∧ r = Err (R2E.UnsupportedRepository (server_repository r2 name)).
Proof.
  intros Hc Hr2 Hurl Hupper Hn. destruct (accepted_r2 _ _ _ _ _ Hc Hr2) as (_ & Hlen & Hhex & Hbucket).
  unfold runtime_environment_for_repository. rewrite upper_case_account_refused by done.
  intros [[? ?]|[-> [= ->]]]%trace_inv; done.
Qed.

(** ** Examples *)

Section witnesses.
(** A parser for the storage's addresses. *)
Definition storage_url (value : string) : option Url :=
  rest ← strip_prefix "https://" value;
  let host := take_until (byte_is "/") rest in
  path ← strip_prefix host rest;
  Some {| url_scheme := "https"; url_host := Some (to_ascii_lowercase host); url_port := None;
          url_path := path; url_username := EmptyString; url_password := None;
          url_query := None; url_fragment := None |}.

Lemma storage_url_laws : UrlLaws storage_url.
Proof.
  intros account segments _ Hhex _ _. unfold storage_url. rewrite strip_prefix_app.
  cbn [mbind option_bind]. change ("/" ++ join_path segments) with (String "/" (join_path segments)).
  rewrite take_until_lacks, strip_prefix_app; [done|].
  unfold r2_host. apply lacks_app. split; [|done].
  eapply bytes_all_impl; [|exact Hhex]. intros c. by destruct c as [[] [] [] [] [] [] [] []].
Qed.

Definition example_envelope : bytes → result string CloudflareEnvelope := λ _, Ok {|
  envelope_result := Some {| result_access_key_id := Some "key"; result_secret_access_key := Some "secret";
                             result_session_token := Some "session" |};
  envelope_errors := []; envelope_success := true |}.
Definition example_answer : http_answer := {|
  answer_status := 200; answer_retry_after := None; answer_body := Ok [] |}.

(** An accepted configuration of the storage. *)
Definition example_config : option (Config * R2Config) :=
  match from_env storage_url example_env example_files with
  | Ok c => r2 ← cfg_r2 c; Some (c, r2)
  | Err _ => None
  end.
Lemma example_config_some : is_some example_config = true.
Proof. by vm_compute. Qed.

Lemma example_config_spec c r2 :
  example_config = Some (c, r2) →
  from_env storage_url example_env example_files = Ok c ∧ cfg_r2 c = Some r2 ∧
  to_ascii_lowercase (r2_account_id r2) = r2_account_id r2.
Proof.
  intros He. assert (from_option (λ '(_, r2),
    String.eqb (to_ascii_lowercase (r2_account_id r2)) (r2_account_id r2)) false example_config = true)
    as Hl by by vm_compute.
  rewrite He in Hl. cbn in Hl. apply String.eqb_eq in Hl. unfold example_config in He.
  destruct (from_env storage_url example_env example_files) as [c'|] eqn:Hc; [|discriminate He].
  destruct (cfg_r2 c') as [r|] eqn:Hr; cbn [mbind option_bind] in He; [|discriminate He].
  injection He as <- <-. split; [reflexivity|]. split; [exact Hr|exact Hl].
Qed.

Lemma survival_is_label : is_dns_label "survival".
Proof. apply ServerName_new_ok. reflexivity. Qed.

(** Asking for the credentials of the server [survival]. *)
Definition example_request (r2 : R2Config) : CreateTemporaryCredentialRequest :=
  credential_request r2 (server_prefix "survival") (r2_temporary_credential_ttl r2).
Definition example_post (r2 : R2Config) : gevent r2_op :=
  GEvent (PostCredentials (r2_api_base_url r2 ++ "/accounts/" ++ r2_account_id r2
    ++ "/r2/temp-access-credentials") (r2_api_token r2) (example_request r2)) (Ok example_answer).

Lemma example_trace c r2 :
  example_config = Some (c, r2) →
  trace (runtime_environment_for_repository storage_url example_envelope r2
    (server_repository r2 "survival")) [example_post r2]
    (Some (Ok (issued_environment "key" "secret" "session"))).
Proof.
  intros He. apply example_config_spec in He as (Hc & Hr & Hl).
  destruct (accepted_r2 _ _ _ _ _ Hc Hr) as (Henv & Hlen & Hhex & Hb).
  pose proof survival_is_label as Hn. pose proof storage_url_laws.
  unfold runtime_environment_for_repository, issue.
  rewrite server_repository_prefix by done. unfold try_bind. cbn [prog_bind].
  rewrite server_prefix_valid by done. rewrite Henv.
  apply (trace_op (PostCredentials _ _ _) _ (Ok example_answer)). apply trace_ret.
Qed.

(** The server as its client asked for it. *)
Definition desired_survival : DesiredServerSpec := {|
  desired_compute := CS.Akamai "jp-osa" "g6-dedicated-4" "linode/debian12" 7;
  desired_process := {| container_image := "itzg/minecraft-server"; server_type := "VANILLA";
    version := "1.21"; host_port := 25565; stop_timeout_seconds := 60; accept_eula := true;
    environment := [] |};
  desired_data := DDS.R2Restic |}.

Lemma example_given c r2 :
  example_config = Some (c, r2) →
  given_to r2 "survival" {| backend := DB.R2Restic; repository := server_repository r2 "survival" |}.
Proof.
  intros He. assert (from_option (λ '(_, r2), match DesiredServerSpec_resolve desired_survival None
    (ServerService_r2_repository (Some (r2_repository_base r2)) "survival") with
    | Ok _ => true | Err _ => false end) false example_config = true) as Hr by by vm_compute.
  rewrite He in Hr. cbn [from_option] in Hr.
  destruct (DesiredServerSpec_resolve _ _ _) as [spec|] eqn:Hspec; [|discriminate Hr].
  pose proof (given_new r2 "survival" desired_survival spec eq_refl Hspec) as Hg.
  by rewrite (given_to_data _ _ _ Hg) in Hg.
Qed.

Lemma credentials_are_isolated_witness :
  ∃ c r2, example_config = Some (c, r2) ∧
    (∀ key, granted (example_request r2) key ↔ stored_for "survival" key).
Proof.
  destruct example_config as [[c r2]|] eqn:He; [|pose proof example_config_some as Hs; rewrite He in Hs; discriminate Hs].
  exists c, r2. split; [done|]. pose proof (example_trace c r2 He) as Ht.
  pose proof (example_given c r2 He) as Hg. apply example_config_spec in He as (Hc & Hr & Hl).
  eapply (credentials_are_isolated storage_url example_envelope example_env example_files c r2 Hc Hr
    (server_repository r2 "survival") _ _ storage_url_laws Ht);
    [by left|exact survival_is_label|exact Hg].
Defined.

Lemma issued_environment_is_accepted_witness :
  validate_runtime_environment (map_to_list (issued_environment "key" "secret" "session")) true = Ok tt.
Proof.
  destruct example_config as [[c r2]|] eqn:He; [|pose proof example_config_some as Hs; rewrite He in Hs; discriminate Hs].
  pose proof (example_trace c r2 He) as Ht. apply example_config_spec in He as (Hc & Hr & Hl).
  by apply (issued_environment_is_accepted storage_url example_envelope example_env example_files c r2 Hc Hr
    _ _ _ Ht).
Defined.
End witnesses.
