(* ===== verification/RpcClient.v ===== *)
(** The client of the control plane's socket
    (crates/mcserver-control-plane/src/client.rs), and the client and the control plane
    together: what a call over the socket returns is what the method returned, and the
    method ran exactly once for it. *)
From S2P Require Import Prelude Text Programs JsonRpc Framing Server Instances Database.
From S2P Require Import Repositories Codecs Effects MessageCodecs Application.
From S2P Require Import ClientProtocol ClientRpc UnixSocket ClientProperties SocketProperties.
#[local] Open Scope string_scope.
#[local] Open Scope Z_scope.
#[local] Open Scope prog_scope.

Module RCE.
(** [RpcClientError]. *)
Inductive RpcClientError :=
| Io (source : io_error)
| Serialization (source : string)
| Timeout (what : string)
| Disconnected
| FrameTooLarge (actual maximum : Z)
| InvalidResponse (message : string)
| Remote (code : Z) (message : string) (data : option json).
End RCE.
Abbreviation RpcClientError := RCE.RpcClientError.

Inductive rpc_op : Type → Type :=
(* [None] when the timeout comes first *)
| ConnectControlPlane : rpc_op (option (result io_error unit))
| SendBytes (text : bytes) : rpc_op (result io_error unit)
| FlushSent : rpc_op (result io_error unit)
(* what arrives, or [None] when the timeout comes before a line is read *)
| ReceiveStream : rpc_op (option (list fill)).
Abbreviation rpc_prog := (gprog rpc_op).

(** ** Reading the answer *)

(** [read_until(b'\n')] on [reader.take(limit)]. *)
Fixpoint read_until_newline (reader : list fill) (limit : Z) (line : bytes) : result io_error bytes :=
  if limit <=? 0 then Ok line
  else match reader with
  | [] | Chunk [] :: _ => Ok line
  | FillError error :: _ => Err error
  | Chunk available :: reader =>
      let available := take (Z.to_nat limit) available in
      match position_newline available with
      | Some n => Ok (line ++ take (S n) available)%list
      | None =>
          read_until_newline reader (limit - Z.of_nat (length available)) (line ++ available)%list
      end
  end.

(** The loop that pops line ends. *)
Fixpoint pop_line_ends (reversed : bytes) : bytes :=
  match reversed with
  | c :: rest =>
      if Ascii.eqb c NEWLINE || Ascii.eqb c CARRIAGE_RETURN then pop_line_ends rest else reversed
  | [] => []
  end.
Definition trim_line_ends (line : bytes) : bytes := rev (pop_line_ends (rev line)).

(** [Value::as_i64]. *)
Definition json_as_i64 (v : json) : option Z :=
  match v with
  | JNumber (JInt n) => if (- i64_max - 1 <=? n) && (n <=? i64_max) then Some n else None
  | _ => None
  end.

Definition RPC_ID : json := JNumber (JInt 1).

Definition decode_rpc_response (response : json) : result RpcClientError json :=
  _ ← err_if (negb (bool_decide (json_get "jsonrpc" response ≫= json_as_str = Some VERSION)))
        (RCE.InvalidResponse "JSON-RPC version is missing or unsupported");
  _ ← err_if (negb (bool_decide (json_get "id" response = Some RPC_ID)))
        (RCE.InvalidResponse "JSON-RPC response id does not match the request");
  match json_get "error" response with
  | Some error =>
      Err (RCE.Remote (default 0 (json_get "code" error ≫= json_as_i64))
        (default "unknown JSON-RPC error" (json_get "message" error ≫= json_as_str))
        (json_get "data" error))
  | None => ok_or (RCE.InvalidResponse "response has no result") (json_get "result" response)
  end.

Section rpc_client.
Context `{JsonText}.
Variable max_frame_bytes : Z.

Definition read_rpc_response (reader : list fill) : result RpcClientError json :=
  response ← map_err RCE.Io
    (read_until_newline reader (usize_saturating_add max_frame_bytes 1) []);
  let length := Z.of_nat (length response) in
  _ ← err_if (length =? 0) RCE.Disconnected;
  _ ← err_if (max_frame_bytes <? length) (RCE.FrameTooLarge length max_frame_bytes);
  _ ← err_if (negb (from_option (λ c, Ascii.eqb c NEWLINE) false (last response)))
        (RCE.InvalidResponse "response is not newline-terminated");
  response ← map_err RCE.Serialization (from_slice (trim_line_ends response));
  decode_rpc_response response.

Definition call_value (method : string) (params : json) : rpc_prog (result RpcClientError json) :=
  let? encoded := Ret (to_vec (request_object method params RPC_ID)) via RCE.Serialization in
  let actual := usize_saturating_add (Z.of_nat (length encoded)) 1 in
  if max_frame_bytes <? actual then Ret (Err (RCE.FrameTooLarge actual max_frame_bytes))
  else
    let! connected := perform ConnectControlPlane in
    match connected with
    | None => Ret (Err (RCE.Timeout "connecting to control-plane"))
    | Some (Err error) => Ret (Err (RCE.Io error))
    | Some (Ok _) =>
        let? _ := perform (SendBytes encoded) via RCE.Io in
        let? _ := perform (SendBytes [NEWLINE]) via RCE.Io in
        let? _ := perform FlushSent via RCE.Io in
        let! received := perform ReceiveStream in
        match received with
        | None => Ret (Err (RCE.Timeout "waiting for control-plane response"))
        | Some reader => Ret (read_rpc_response reader)
        end
    end.

(** [call], with the parameters and the result of a type. *)
Definition rpc_call {P R} `{Serialize P} `{Deserialize R} (method : string) (params : P) :
    rpc_prog (result RpcClientError R) :=
  let? params := Ret (to_value params) via RCE.Serialization in
  let? result := call_value method params via id in
  Ret (map_err RCE.Serialization (from_value result)).
End rpc_client.

(** Documented behaviour of the derived [Deserialize] and [Serialize]: fields by their
    names, skipped when [None]. *)
Class RpcLaws `{Deserialize Request} `{Serialize Response} : Prop := {
  rpc_request_decodes method params id :
    from_value (request_object method params id) =
      Ok {| req_jsonrpc := VERSION; req_method := method; req_params := params;
            req_id := RI.Present id |};
  rpc_response_fields response v :
    to_value response = Ok v →
    json_get "jsonrpc" v = Some (JString (resp_jsonrpc response)) ∧
    json_get "id" v = Some (resp_id response) ∧ json_get "result" v = resp_result response ∧
    match resp_error response with
    | None => json_get "error" v = None
    | Some e => ∃ w, json_get "error" v = Some w ∧
        json_get "code" w = Some (JNumber (JInt (err_code e))) ∧
        json_get "message" w = Some (JString (err_message e)) ∧ json_get "data" w = err_data e
    end;
}.

(** ** The client's side *)

Lemma prefix_line (q text : bytes) :
  (q ++ [NEWLINE])%list `prefix_of` (text ++ [NEWLINE])%list → NEWLINE ∉ text →
  q = text.
Proof.
  intros [rest Hq] Hn. destruct rest as [|c rest] using rev_ind.
  - rewrite app_nil_r in Hq. by apply app_inj_tail in Hq as [-> _].
  - rewrite app_assoc in Hq. apply app_inj_tail in Hq as [-> _]. destruct Hn. set_solver.
Qed.

Lemma read_until_prefix reader limit line l :
  read_until_newline reader limit line = Ok l →
  ∃ p, l = (line ++ p)%list ∧ p `prefix_of` stream_bytes reader.
Proof.
  revert limit line. induction reader as [|[available|e] reader IH]; intros limit line; cbn;
    (destruct (Z.leb_spec limit 0);
      [intros [= <-]; exists []; rewrite app_nil_r; split; [done|apply prefix_nil]|]);
    [intros [= <-]; exists []; by rewrite app_nil_r| |done].
  destruct available as [|c available]; [intros [= <-]; exists []; by rewrite app_nil_r|].
  generalize (c :: available). intros chunk. destruct (position_newline _) as [n|].
  - intros [= <-]. exists (take (S n) (take (Z.to_nat limit) chunk)). split; [done|].
    rewrite take_take. apply prefix_app_r, prefix_take.
  - destruct (decide (length chunk ≤ Z.to_nat limit)%nat).
    + rewrite take_ge by done. intros (p & -> & Hp)%IH. exists (chunk ++ p)%list.
      split; [by rewrite app_assoc|]. by apply prefix_app.
    + rewrite length_take_le by lia. replace (limit - Z.of_nat (Z.to_nat limit)) with 0 by lia.
      destruct reader; intros [= <-]; (eexists; split; [done|]); apply prefix_app_r, prefix_take.
Qed.

Lemma trim_line_ends_of text :
  NEWLINE ∉ text → CARRIAGE_RETURN ∉ text → trim_line_ends (text ++ [NEWLINE])%list = text.
Proof.
  intros Hn Hc. unfold trim_line_ends. rewrite rev_unit. cbn.
  destruct (rev text) as [|d rest] eqn:Hr.
  - apply (f_equal (@rev _)) in Hr. by rewrite rev_involutive in Hr.
  - assert (d ∈ text) as Hd by (apply elem_of_rev; rewrite Hr; by left).
    cbn. destruct (Ascii.eqb_spec d NEWLINE) as [->|]; [done|].
    destruct (Ascii.eqb_spec d CARRIAGE_RETURN) as [->|]; [done|].
    change (rev (d :: rest) = text). by rewrite <- Hr, rev_involutive.
Qed.

(** An answer that is a whole line is the one that was written. *)
Lemma read_rpc_response_of `{JsonTextLaws} maximum reader value text :
  to_vec value = Ok text → stream_bytes reader `prefix_of` (text ++ [NEWLINE])%list →
  match read_rpc_response maximum reader with
  | Ok v => decode_rpc_response value = Ok v
  | Err (RCE.Remote code message data) =>
      decode_rpc_response value = Err (RCE.Remote code message data)
  | Err _ => True
  end.
Proof.
  intros Ht Hr. pose proof (json_text_one_line _ _ Ht) as (Hne & Hn & Hc).
  unfold read_rpc_response.
  destruct (read_until_newline reader _ []) as [l|e] eqn:Hl; cbn -[trim_line_ends]; [|done].
  apply read_until_prefix in Hl as (p & -> & Hp). cbn -[trim_line_ends].
  destruct (_ =? 0); cbn -[trim_line_ends]; [done|]. destruct (_ <? _); cbn -[trim_line_ends]; [done|].
  destruct (last p) as [c|] eqn:Hlast; cbn -[trim_line_ends]; [|done].
  destruct (Ascii.eqb_spec c NEWLINE) as [->|]; cbn -[trim_line_ends]; [|done].
  apply last_Some in Hlast as [q ->].
  assert (q = text) as ->.
  { apply prefix_line; [by etrans|done]. }
  rewrite trim_line_ends_of by done. rewrite (json_text_round_trip _ _ Ht). cbn -[trim_line_ends].
  by destruct (decode_rpc_response value) as [v|[]].
Qed.

(** What a response with the call's id is to the client. *)
Lemma decode_response `{RpcLaws} response v :
  to_value response = Ok v → resp_jsonrpc response = VERSION → resp_id response = RPC_ID →
  decode_rpc_response v =
    match resp_error response with
    | Some e => Err (RCE.Remote (default 0 (json_as_i64 (JNumber (JInt (err_code e)))))
        (err_message e) (err_data e))
    | None => ok_or (RCE.InvalidResponse "response has no result") (resp_result response)
    end.
Proof.
  intros Hv Hjson Hid. apply rpc_response_fields in Hv as (Hj & Hi & Hr & He).
  unfold decode_rpc_response. rewrite Hj, Hi, Hjson, Hid. cbn.
  rewrite !bool_decide_eq_true_2 by done. cbn. rewrite Hr.
  destruct (resp_error response) as [e|]; [|by rewrite He].
  destruct He as (w & -> & Hcode & Hmessage & Hdata). rewrite Hcode, Hmessage, Hdata. done.
Qed.

(** ** The wire *)

(** What the server's connection did for the services, and what it wrote. *)
Definition performed_event (e : gevent client_op) : option (gevent op) :=
  match e with
  | GEvent o x =>
      match o in client_op X return X → option (gevent op) with
      | Serve o => λ x, Some (GEvent o x)
      | _ => λ _, None
      end x
  end.
Definition performed (evs : list (gevent client_op)) : list (gevent op) := omap performed_event evs.
Definition written_event (e : gevent client_op) : bytes :=
  match e with
  | GEvent o _ => match o with ClientWrite text => text | _ => [] end
  end.
Definition written_bytes (evs : list (gevent client_op)) : bytes := evs ≫= written_event.

(** What the client wrote. *)
Definition sent_event (e : gevent rpc_op) : bytes :=
  match e with
  | GEvent o _ => match o with SendBytes text => text | _ => [] end
  end.
Definition sent_bytes (evs : list (gevent rpc_op)) : bytes := evs ≫= sent_event.

(** What the client was given to read. *)
Definition received_event (e : gevent rpc_op) : option (list fill) :=
  match e with
  | GEvent o x =>
      match o in rpc_op X return X → option (list fill) with
      | ReceiveStream => λ received, received
      | _ => λ _, None
      end x
  end.
Definition received_streams (evs : list (gevent rpc_op)) : list (list fill) := omap received_event evs.

Lemma performed_serve evs : performed (map (event_map serve_op) evs) = evs.
Proof. induction evs as [|[X o x] evs IH]; [done|]. unfold performed in *. cbn. by rewrite IH. Qed.
Lemma written_serve evs : written_bytes (map (event_map serve_op) evs) = [].
Proof. induction evs as [|[X o x] evs IH]; done. Qed.

Lemma performed_app a b : performed (a ++ b) = (performed a ++ performed b)%list.
Proof. apply omap_app. Qed.
Lemma written_app a b : written_bytes (a ++ b) = (written_bytes a ++ written_bytes b)%list.
Proof. apply bind_app. Qed.

(** Answering a request with the result of [d], shown by [g]. *)
Lemma respond_line_writes `{JsonText} {A} (d : prog A) (g : A → json) evs r :
  trace (respond_line (prog_bind d (λ a, Ret (Some (g a))))) evs r →
  written_bytes evs = [] ∨
  ∃ a text, trace d (performed evs) (Some a) ∧ to_vec (g a) = Ok text ∧
    written_bytes evs = (text ++ [NEWLINE])%list.
Proof.
  unfold respond_line. intros [[Ht _]|(e1 & e2 & response & -> & Ht & Hrest)]%trace_bind_inv;
    apply trace_map_inv in Ht as (evs' & -> & Ht); [left; apply written_serve|].
  rewrite written_app, performed_app, written_serve, performed_serve.
  apply trace_bind_inv in Ht as [[_ Hn]|(e3 & e4 & a & -> & Hd & Ha)]; [done|].
  apply trace_inv in Ha as [[_ ?]|[-> [= ->]]]; [done|]. rewrite app_nil_r. cbn [app].
  unfold write_json_line, try_bind in Hrest.
  destruct (to_vec (g a)) as [text|e] eqn:Htext; cbn [prog_bind] in Hrest.
  - apply trace_inv in Hrest as [[-> _]|(x & evs & -> & Hend)]; [by left|]. right.
    assert (performed evs = [] ∧ written_bytes evs = []) as [Hp Hw].
    { destruct x; [|by apply trace_inv in Hend as [[-> _]|[-> _]]].
      apply trace_inv in Hend as [[-> _]|(c & evs' & -> & Hend)]; [done|].
      by apply trace_inv in Hend as [[-> _]|[-> _]]. }
    exists a, text. change (performed (_ :: evs)) with (performed evs).
    change (written_bytes (_ :: evs)) with ((text ++ [NEWLINE]) ++ written_bytes evs)%list.
    by rewrite Hp, Hw, !app_nil_r.
  - apply trace_inv in Hrest as [[-> _]|[-> _]]; by left.
Qed.

(** Nothing is left to do. *)
Lemma serve_nothing `{JsonText} answer ending evs r :
  trace (serve_messages answer [] ending) evs r → performed evs = [] ∧ written_bytes evs = [].
Proof.
  intros Ht. apply trace_inv in Ht as [[-> _]|([|] & evs' & -> & Ht)]; [done|..];
    by apply trace_inv in Ht as [[-> _]|[-> _]].
Qed.

Section calls.
Context `{Codec} `{JsonTextLaws} `{RpcLaws}.
Context `{Deserialize CreateServerParams} `{Deserialize ApplyServerParams}.
Context `{Deserialize GetServerParams} `{Deserialize ListServersParams}.
Context `{Deserialize SetServerDesiredStateParams} `{Deserialize ArchiveServerParams}.
Context `{Deserialize GetServerInstanceParams} `{Deserialize ListServerInstancesParams}.
Context `{Serialize PingResult} `{Serialize ServerResource} `{Serialize ListServersResult}.
Context `{Serialize ServerStatusResource} `{Serialize ServerInstanceResource}.
Context `{Serialize ListServerInstancesResult}.
Context (package_version : string).
Context (describe_validation : ValidationError → string).
Context (describe_application : ApplicationError → string).
Context (r2_base : option string).

#[local] Abbreviation handle :=
  (handle_json package_version describe_validation describe_application r2_base).
#[local] Abbreviation error_object := (rpc_error_object describe_validation describe_application).

(** The response to a call whose method returned [a]. *)
Definition call_response (a : result RpcDispatchError json) : Response :=
  match a with
  | Ok v => Response_success RPC_ID v
  | Err e => Response_error RPC_ID (error_object e)
  end.

Lemma request_answered method params :
  method ≠ EmptyString → params_are_structured params = true →
  handle_value package_version describe_validation describe_application r2_base
    (request_object method params RPC_ID) =
  prog_bind (rpc_dispatch package_version r2_base method params)
    (λ a, Ret (Some match a with
      | Ok v => response_value (Response_success RPC_ID v)
      | Err e => response_value (Response_error RPC_ID (error_object e))
      end)).
Proof.
  intros Hm Hp. change (handle_value ?a ?b ?c ?d (request_object method params RPC_ID)) with
    (handle_single a b c d (request_object method params RPC_ID)).
  rewrite (asks_single _ _ _ _ _ method params RPC_ID).
  - done.
  - split_and!; [apply rpc_request_decodes|done..].
Qed.

(** The server's connection writes nothing, or the response of the method it ran. *)
Lemma server_writes method params encoded reader maximum evs outcome :
  method ≠ EmptyString → params_are_structured params = true →
  to_vec (request_object method params RPC_ID) = Ok encoded →
  stream_bytes reader = (encoded ++ [NEWLINE])%list →
  Z.of_nat (length (encoded ++ [NEWLINE])) ≤ maximum < u64_max →
  trace (handle_client handle maximum 2 reader) evs outcome →
  written_bytes evs = [] ∨
  ∃ a text, trace (rpc_dispatch package_version r2_base method params) (performed evs) (Some a) ∧
    to_vec (response_value (call_response a)) = Ok text ∧
    written_bytes evs = (text ++ [NEWLINE])%list.
Proof.
  intros Hm Hp He Hs Hl Ht.
  eapply trace_equiv in Ht.
  2:{ eapply (client_serves handle (handle_value package_version describe_validation
        describe_application r2_base)) with (values := [request_object method params RPC_ID]).
      - intros text v Hv. unfold handle_json. by rewrite Hv.
      - cbn [write_values]. unfold write_value. rewrite He. done.
      - constructor; [|done]. unfold write_value. rewrite He. intros line [= <-]. lia.
      - lia.
      - by rewrite app_nil_r.
      - done. }
  apply trace_inv in Ht as [[-> _]|(cancelled & evs' & -> & Ht)]; [by left|].
  change (written_bytes (_ :: evs')) with (written_bytes evs').
  change (performed (_ :: evs')) with (performed evs').
  destruct cancelled; [by apply trace_inv in Ht as [[-> _]|[-> _]]; left|]. cbn [prog_bind] in Ht.
  apply trace_bind_inv in Ht as [[Ht _]|(e1 & e2 & ended & -> & Ht & Hrest)].
  - rewrite request_answered in Ht by done. apply respond_line_writes in Ht.
    destruct Ht as [?|(a & text & ? & ? & ?)]; [by left|]. right. exists a, text. by destruct a.
  - rewrite request_answered in Ht by done. apply respond_line_writes in Ht.
    assert (performed e2 = [] ∧ written_bytes e2 = []) as [Hp2 Hw2].
    { destruct ended; [by apply trace_inv in Hrest as [[-> _]|[-> _]]|]. by apply serve_nothing in Hrest. }
    rewrite performed_app, written_app, Hp2, Hw2, !app_nil_r.
    destruct Ht as [?|(a & text & ? & ? & ?)]; [by left|]. right. exists a, text. by destruct a.
Qed.

(** A call that returned a value or the server's error has sent its request and read
    an answer. *)
Definition was_answered (r : result RpcClientError json) : Prop :=
  match r with Ok _ | Err (RCE.Remote _ _ _) => True | _ => False end.

Lemma client_reads maximum method params evs r :
  trace (call_value maximum method params) evs (Some r) → was_answered r →
  ∃ encoded reader, to_vec (request_object method params RPC_ID) = Ok encoded ∧
    sent_bytes evs = (encoded ++ [NEWLINE])%list ∧ received_streams evs = [reader] ∧
    r = read_rpc_response maximum reader.
Proof.
  unfold call_value, try_bind. destruct (to_vec _) as [encoded|e] eqn:He; cbn [prog_bind].
  2:{ intros [[_ ?]|[_ [= ->]]]%trace_inv; done. }
  destruct (_ <? _); [by intros [[_ ?]|[_ [= ->]]]%trace_inv|].
  intros [[_ ?]|(c & evs1 & -> & Ht)]%trace_inv Hr; [done|].
  destruct c as [[u|e]|]; [|by apply trace_inv in Ht as [[_ ?]|[_ [= ->]]]..].
  apply trace_inv in Ht as [[_ ?]|(x2 & evs2 & -> & Ht)]; [done|].
  destruct x2; [|by apply trace_inv in Ht as [[_ ?]|[_ [= ->]]]].
  apply trace_inv in Ht as [[_ ?]|(x3 & evs3 & -> & Ht)]; [done|].
  destruct x3; [|by apply trace_inv in Ht as [[_ ?]|[_ [= ->]]]].
  apply trace_inv in Ht as [[_ ?]|(x4 & evs4 & -> & Ht)]; [done|].
  destruct x4; [|by apply trace_inv in Ht as [[_ ?]|[_ [= ->]]]].
  apply trace_inv in Ht as [[_ ?]|([reader|] & evs5 & -> & Ht)]; [done| |];
    apply trace_inv in Ht as [[_ ?]|[-> [= ->]]]; try done.
  exists encoded, reader. by split_and!.
Qed.

Lemma nothing_read maximum reader :
  stream_bytes reader = [] → ¬ was_answered (read_rpc_response maximum reader).
Proof.
  intros Hs. unfold read_rpc_response.
  destruct (read_until_newline reader _ []) as [l|e] eqn:Hl; [|by intros []].
  apply read_until_prefix in Hl as (p & -> & Hp). rewrite Hs in Hp.
  apply prefix_nil_inv in Hp as ->. by intros [].
Qed.

(** What the client makes of the method's result. *)
Definition seen_by_client (a : result RpcDispatchError json) : result RpcClientError json :=
  match a with
  | Ok v => Ok v
  | Err e => let error := error_object e in
      Err (RCE.Remote (err_code error) (err_message error) (err_data error))
  end.

Lemma error_code_i64 e :
  json_as_i64 (JNumber (JInt (err_code (error_object e)))) = Some (err_code (error_object e)).
Proof.
  pose proof (rpc_error_codes describe_validation describe_application e) as He.
  revert He. generalize (err_code (error_object e)). intros code He.
  repeat (apply elem_of_cons in He as [->|He]; [done|]). by apply elem_of_nil in He.
Qed.

(** A response that could not be encoded has another id than the call. *)
Lemma call_response_seen a :
  was_answered (decode_rpc_response (response_value (call_response a))) →
  decode_rpc_response (response_value (call_response a)) = seen_by_client a.
Proof.
  unfold response_value. destruct (to_value (call_response a)) as [v|e] eqn:Hv; [|by intros []].
  intros _. rewrite (decode_response _ _ Hv) by by destruct a.
  destruct a as [w|e]; [done|]. cbn -[json_as_i64]. by rewrite error_code_i64.
Qed.

(** C20. A call of the client over the socket is the call of the method: when it returns
    a value, the server ran the method for it, once and to its end, and the method
    returned that value; when it reports an error of the server, the method failed
    with that code, message and data. Whatever is lost on the way, and in whatever
    chunks the bytes arrive, is an error of its own. *)
Theorem client_call_is_method_call client_maximum maximum method params reader cevs sevs outcome r :
  method ≠ EmptyString → params_are_structured params = true →
  trace (call_value client_maximum method params) cevs (Some r) →
  trace (handle_client handle maximum 2 reader) sevs outcome →
  stream_bytes reader = sent_bytes cevs →
  Forall (λ received, stream_bytes received `prefix_of` written_bytes sevs) (received_streams cevs) →
  Z.of_nat (length (sent_bytes cevs)) ≤ maximum < u64_max →
  match r with
  | Ok v =>
      trace (rpc_dispatch package_version r2_base method params) (performed sevs) (Some (Ok v))
  | Err (RCE.Remote code message data) => ∃ e,
      trace (rpc_dispatch package_version r2_base method params) (performed sevs) (Some (Err e)) ∧
      error_object e = {| err_code := code; err_message := message; err_data := data |}
  | Err _ => True
  end.
Proof.
  intros Hm Hp Hc Hs Hsent Hreceived Hl.
  assert (was_answered r → ∃ a, trace (rpc_dispatch package_version r2_base method params)
    (performed sevs) (Some a) ∧ r = seen_by_client a) as Hseen.
  { intros Ha. destruct (client_reads _ _ _ _ _ Hc Ha) as (encoded & received & He & Hb & Hin & ->).
    rewrite Hb in Hsent, Hl. rewrite Hin, Forall_singleton in Hreceived.
    destruct (server_writes _ _ _ _ _ _ _ Hm Hp He Hsent Hl Hs) as [Hw|(a & text & Hd & Ht & Hw)];
      rewrite Hw in Hreceived.
    - apply prefix_nil_inv in Hreceived. by destruct (nothing_read client_maximum _ Hreceived Ha).
    - exists a. split; [done|].
      pose proof (read_rpc_response_of client_maximum received _ _ Ht Hreceived) as Hr.
      rewrite <- (call_response_seen a).
      { by destruct (read_rpc_response client_maximum received) as [v|[]]. }
      by destruct (read_rpc_response client_maximum received) as [v|[]]; try done; rewrite Hr. }
  destruct r as [v|[]]; try done; destruct (Hseen I) as (a & Hd & Hr);
    destruct a as [w|e]; try done; unfold seen_by_client in Hr; simplify_eq; [done|].
  exists e. split; [done|]. by destruct (error_object e).
Qed.
End calls.

(** ** Examples *)

Section witnesses.
#[local] Existing Instances bits_codec bits_json_text bits_json_text_laws.
#[local] Existing Instances request_from_json response_to_json.
#[local] Instance: Serialize PingResult := λ r,
  Ok (JObject [("status", JString (ping_status r)); ("version", JString (ping_version r))]).
#[local] Instance other_deserialize A : Deserialize A | 100 := λ _, Err "unexpected message".
#[local] Instance other_serialize A : Serialize A | 100 := λ _, Err "unexpected message".

#[local] Instance json_rpc_laws : RpcLaws.
Proof.
  split; [done|]. intros [version result error id] v [= <-].
  destruct error as [[code message [data|]]|], result; cbn; split_and!; try done; eexists; done.
Qed.

Definition ping_reader : list fill :=
  [Chunk (match to_vec (request_object SYSTEM_PING JNull RPC_ID) with Ok text => text | Err _ => [] end);
   Chunk [NEWLINE]].
Definition ping_server : client_prog (option (result UnixSocketError unit)) :=
  handle_client (handle_json "0.1.0" (λ _, "invalid") (λ _, "failed") None) 100000 2 ping_reader.
Definition ping_world (X : Type) (o : client_op X) : option X :=
  match o with
  | Serve _ => None
  | ClientCancelled => Some false
  | ClientWrite _ => Some (Ok tt)
  end.
Definition ping_response : bytes := written_bytes (replay ping_world ping_server).1.

Definition ping_client_world (X : Type) (o : rpc_op X) : option X :=
  match o with
  | ConnectControlPlane => Some (Some (Ok tt))
  | SendBytes _ | FlushSent => Some (Ok tt)
  | ReceiveStream => Some (Some [Chunk (take 3 ping_response); Chunk (drop 3 ping_response)])
  end.
Definition ping_client := replay ping_client_world (call_value 100000 SYSTEM_PING JNull).

Lemma client_call_is_method_call_witness :
  trace (rpc_dispatch "0.1.0" None SYSTEM_PING JNull) []
    (Some (Ok (JObject [("status", JString "ok"); ("version", JString "0.1.0")]))).
Proof.
  assert (ping_client.2 =
    Some (Ok (JObject [("status", JString "ok"); ("version", JString "0.1.0")]))) as Hr by by vm_compute.
  assert (performed (replay ping_world ping_server).1 = []) as Hp by by vm_compute.
  pose proof (replay_trace ping_client_world (call_value 100000 SYSTEM_PING JNull)) as Hc.
  fold ping_client in Hc. rewrite Hr in Hc. rewrite <- Hp.
  refine (client_call_is_method_call "0.1.0" (λ _, "invalid") (λ _, "failed") None 100000 100000
    SYSTEM_PING JNull ping_reader _ _ _ _ _ _ Hc (replay_trace ping_world ping_server) _ _ _).
  - done.
  - done.
  - by vm_compute.
  - assert (received_streams ping_client.1 =
      [[Chunk (take 3 ping_response); Chunk (drop 3 ping_response)]]) as -> by by vm_compute.
    rewrite Forall_singleton. exists []. by vm_compute.
  - split; [|reflexivity]. apply Z.leb_le. vm_compute. reflexivity.
Defined.
End witnesses.
