(* ===== verification/CommandLine.v ===== *)
(** The command line client
    (crates/mcserver-control-plane/src/bin/mcserverctl.rs): its arguments, server
    definitions, and the calls that a command makes. *)
From S2P Require Import Prelude Text Net Programs JsonRpc Framing ClientProtocol RpcClient.
#[local] Open Scope string_scope.
#[local] Open Scope Z_scope.
#[local] Open Scope prog_scope.

Definition DEFAULT_SOCKET_PATH : string := "/run/mcserver/control-plane.sock".
Definition MAX_DEFINITION_BYTES : Z := 1024 * 1024.

(** [DefinitionOptions]. *)
Record DefinitionOptions := {
  definition_file : string;
  definition_start : bool;
}.

Module CTL.
(** [Command]. *)
Inductive Command :=
| Ping
| ServerList (include_archived : bool)
| ServerGet (server_name : string)
| ServerStatus (server_name : string)
| ServerInstances (server_name : string)
| ServerStart (server_name : string)
| ServerStop (server_name : string)
| ServerArchive (server_name : string)
| ServerCreate (options : DefinitionOptions)
| ServerApply (options : DefinitionOptions) (expected_generation : option Z).
End CTL.

Record Invocation := {
  invocation_socket_path : string;
  invocation_command : CTL.Command;
}.

Record ServerDefinition := {
  def_schema_version : Z;
  def_name : string;
  def_compute : client.ComputeSpec;
  def_process : client.ProcessSpec;
  def_data : client.DesiredDataSpec;
}.

Module CLE.
(** [CliError]; the sources of parse errors are left out. *)
Inductive CliError :=
| Usage
| MissingFlagValue (flag : string)
| MissingFlagValueOwned (flag : string)
| MissingRequiredFlag (flag : string)
| UnknownFlag (flag : string)
| InvalidInteger (flag value : string)
| ZeroValue (flag : string)
| CreateExpectedGeneration
| DefinitionIo (path : string) (source : io_error)
| DefinitionEncoding
| DefinitionToml (source : string)
| DefinitionTooLarge (actual maximum : Z)
| UnsupportedDefinitionSchema (version : Z)
| InvalidServerResponse
| Client (source : RpcClientError).
End CLE.
Abbreviation CliError := CLE.CliError.

(** ** Arguments *)

(** The loop of [parse_apply], with its three variables. *)
Fixpoint parse_flags (arguments : list string) (file : option string) (start : bool)
    (expected_generation : option Z) : result CliError (option string * bool * option Z) :=
  match arguments with
  | [] => Ok (file, start, expected_generation)
  | flag :: arguments =>
      if String.eqb flag "--start" then parse_flags arguments file true expected_generation
      else if String.eqb flag "--file" || String.eqb flag "--expected-generation" then
        match arguments with
        | [] => Err (CLE.MissingFlagValueOwned flag)
        | value :: arguments =>
            if String.eqb flag "--file" then parse_flags arguments (Some value) start expected_generation
            else
              match parse_u64 value with
              | None => Err (CLE.InvalidInteger "--expected-generation" value)
              | Some generation =>
                  if generation =? 0 then Err (CLE.ZeroValue "--expected-generation")
                  else parse_flags arguments file start (Some generation)
              end
        end
      else Err (CLE.UnknownFlag flag)
  end.

Definition DefinitionOptions_parse_apply (arguments : list string) :
    result CliError (DefinitionOptions * option Z) :=
  '(file, start, expected_generation) ← parse_flags arguments None false None;
  file ← ok_or (CLE.MissingRequiredFlag "--file") file;
  Ok ({| definition_file := file; definition_start := start |}, expected_generation).

Definition DefinitionOptions_parse (arguments : list string) : result CliError DefinitionOptions :=
  '(options, expected_generation) ← DefinitionOptions_parse_apply arguments;
  _ ← err_if (is_some expected_generation) CLE.CreateExpectedGeneration;
  Ok options.

(** The commands that only name a server. *)
Definition named_command (action name : string) : option CTL.Command :=
  if String.eqb action "get" then Some (CTL.ServerGet name)
  else if String.eqb action "status" then Some (CTL.ServerStatus name)
  else if String.eqb action "instances" then Some (CTL.ServerInstances name)
  else if String.eqb action "start" then Some (CTL.ServerStart name)
  else if String.eqb action "stop" then Some (CTL.ServerStop name)
  else if String.eqb action "archive" then Some (CTL.ServerArchive name)
  else None.

Definition parse_definition_command (action : string) (rest : list string) : result CliError CTL.Command :=
  if String.eqb action "create" then
    options ← DefinitionOptions_parse rest;
    Ok (CTL.ServerCreate options)
  else if String.eqb action "apply" then
    '(options, expected_generation) ← DefinitionOptions_parse_apply rest;
    Ok (CTL.ServerApply options expected_generation)
  else Err CLE.Usage.

Definition parse_command (arguments : list string) : result CliError CTL.Command :=
  match arguments with
  | [command] => if String.eqb command "ping" then Ok CTL.Ping else Err CLE.Usage
  | resource :: action :: rest =>
      if negb (String.eqb resource "server") then Err CLE.Usage
      else match rest with
      | [] => if String.eqb action "list" then Ok (CTL.ServerList false)
              else parse_definition_command action rest
      | [argument] =>
          if String.eqb action "list" && String.eqb argument "--include-archived"
          then Ok (CTL.ServerList true)
          else match named_command action argument with
          | Some command => Ok command
          | None => parse_definition_command action rest
          end
      | _ => parse_definition_command action rest
      end
  | [] => Err CLE.Usage
  end.

(** The loop of [Invocation::parse]: the socket's path and the other arguments. *)
Fixpoint parse_socket (arguments : list string) (socket_path : string) :
    result CliError (string * list string) :=
  match arguments with
  | [] => Ok (socket_path, [])
  | argument :: rest =>
      if String.eqb argument "--socket" then
        match rest with
        | [] => Err (CLE.MissingFlagValue "--socket")
        | path :: rest => parse_socket rest path
        end
      else if String.eqb argument "--help" || String.eqb argument "-h" then Err CLE.Usage
      else Ok (socket_path, arguments)
  end.

(** [Invocation::parse], with the variable [MCSERVER_CONTROL_PLANE_SOCKET]. *)
Definition Invocation_parse (socket_variable : option string) (arguments : list string) :
    result CliError Invocation :=
  '(socket_path, positional) ← parse_socket arguments (default DEFAULT_SOCKET_PATH socket_variable);
  command ← parse_command positional;
  Ok {| invocation_socket_path := socket_path; invocation_command := command |}.

(** ** Commands *)

(** A call of [UnixRpcClient::call_value] ([call_value] of RpcClient), and reading a
    definition. *)
Inductive cli_op : Type → Type :=
| CallValue (method : string) (params : json) : cli_op (result RpcClientError json)
| ReadDefinition (path : string) : cli_op (result io_error string).
Abbreviation cli_prog := (gprog cli_op).

(** [Value::as_u64]. *)
Definition json_as_u64 (v : json) : option Z :=
  match v with
  | JNumber (JInt n) => if (0 <=? n) && (n <=? u64_max) then Some n else None
  | _ => None
  end.

Definition cli_call (method : string) (params : json) : cli_prog (result CliError json) :=
  let? result := perform (CallValue method params) via CLE.Client in
  Ret (Ok result).

Definition call_server_name (method server_name : string) : cli_prog (result CliError json) :=
  cli_call method (JObject [("server_name", JString server_name)]).

(** The generation of a server that was returned. *)
Definition response_generation (server : json) : result CliError Z :=
  ok_or CLE.InvalidServerResponse (json_get "generation" server ≫= json_as_u64).

Definition set_desired_state_from_resource (server_name : string) (server : json) (desired_state : string) :
    cli_prog (result CliError json) :=
  let? generation := Ret (response_generation server) via id in
  cli_call SERVER_SET_DESIRED_STATE
    (JObject [("desired_state", JString desired_state);
              ("expected_generation", JNumber (JInt generation));
              ("server_name", JString server_name)]).

Definition cli_set_desired_state (server_name desired_state : string) : cli_prog (result CliError json) :=
  let? server := call_server_name SERVER_GET server_name via id in
  set_desired_state_from_resource server_name server desired_state.

Definition cli_archive (server_name : string) : cli_prog (result CliError json) :=
  let? server := call_server_name SERVER_GET server_name via id in
  let? generation := Ret (response_generation server) via id in
  cli_call SERVER_ARCHIVE
    (JObject [("expected_generation", JNumber (JInt generation)); ("server_name", JString server_name)]).

Section commands.
(** [toml::from_str] of a definition, and the values that [json!] makes of its parts. *)
Variable definition_from_toml : string → result string ServerDefinition.
Variable compute_value : client.ComputeSpec → json.
Variable process_value : client.ProcessSpec → json.
Variable data_value : client.DesiredDataSpec → json.

Definition ServerDefinition_load (path : string) : cli_prog (result CliError ServerDefinition) :=
  let? content := perform (ReadDefinition path) via CLE.DefinitionIo path in
  if MAX_DEFINITION_BYTES <? str_len content
  then Ret (Err (CLE.DefinitionTooLarge (str_len content) MAX_DEFINITION_BYTES))
  else if negb (utf8_valid content) then Ret (Err CLE.DefinitionEncoding)
  else
    let? definition := Ret (definition_from_toml content) via CLE.DefinitionToml in
    if negb (def_schema_version definition =? 1)
    then Ret (Err (CLE.UnsupportedDefinitionSchema (def_schema_version definition)))
    else Ret (Ok definition).

(** The parameters; the keys of a map are in order. *)
Definition definition_params (definition : ServerDefinition) (expected_generation : option Z) : json :=
  JObject ((match expected_generation with
            | Some generation => [("expected_generation", JNumber (JInt generation))]
            | None => []
            end) ++
           [("name", JString (def_name definition));
            ("spec", JObject [("compute", compute_value (def_compute definition));
                              ("data", data_value (def_data definition));
                              ("process", process_value (def_process definition))])])%list.

Definition apply_definition (method : string) (options : DefinitionOptions) (expected_generation : option Z) :
    cli_prog (result CliError json) :=
  let? definition := ServerDefinition_load (definition_file options) via id in
  let? server := cli_call method (definition_params definition expected_generation) via id in
  if negb (definition_start options) then Ret (Ok server)
  else
    let? name := Ret (ok_or CLE.InvalidServerResponse (json_get "name" server ≫= json_as_str)) via id in
    set_desired_state_from_resource name server "running".

Definition execute (command : CTL.Command) : cli_prog (result CliError json) :=
  match command with
  | CTL.Ping => cli_call SYSTEM_PING JNull
  | CTL.ServerList include_archived =>
      cli_call SERVER_LIST (JObject [("include_archived", JBool include_archived)])
  | CTL.ServerGet name => call_server_name SERVER_GET name
  | CTL.ServerStatus name => call_server_name SERVER_STATUS name
  | CTL.ServerInstances name => call_server_name SERVER_INSTANCE_LIST name
  | CTL.ServerStart name => cli_set_desired_state name "running"
  | CTL.ServerStop name => cli_set_desired_state name "stopped"
  | CTL.ServerArchive name => cli_archive name
  | CTL.ServerCreate options => apply_definition SERVER_CREATE options None
  | CTL.ServerApply options expected_generation => apply_definition SERVER_APPLY options expected_generation
  end.
End commands.
