(* ===== verification/CommandLineProperties.v ===== *)
(** The command line client accepts exactly the command lines of its usage, and its
    changes are fenced by the generation that it read. *)
From S2P Require Import Prelude Text Net Programs JsonRpc Framing Server Instances Database.
From S2P Require Import Repositories Invariant ServerFacts RepositoryFacts Persistence Codecs.
From S2P Require Import PersistenceProperties Effects Semantics PassFacts World Application.
From S2P Require Import ApplicationFacts.
From S2P Require Import ApplicationProperties ClientProtocol ClientRpc ClientProperties.
From S2P Require Import MessageCodecs RpcClient CommandLine.
#[local] Open Scope string_scope.
#[local] Open Scope Z_scope.

(** ** The grammar of USAGE *)

Inductive flag := FlagStart | FlagFile (file : string) | FlagGeneration (text : string) (generation : Z).

Definition flag_text (f : flag) : list string :=
  match f with
  | FlagStart => ["--start"]
  | FlagFile file => ["--file"; file]
  | FlagGeneration text _ => ["--expected-generation"; text]
  end.
Definition flag_ok (f : flag) : Prop :=
  match f with
  | FlagGeneration text generation => parse_u64 text = Some generation ∧ generation ≠ 0
  | _ => True
  end.
Definition flag_start (f : flag) : bool := match f with FlagStart => true | _ => false end.
Definition flag_file (f : flag) : option string := match f with FlagFile file => Some file | _ => None end.
Definition flag_generation (f : flag) : option Z :=
  match f with FlagGeneration _ generation => Some generation | _ => None end.

(** What flags ask for: the last file and generation, and whether to start. *)
Definition flag_texts (flags : list flag) : list string := flags ≫= flag_text.
Definition chosen_file (flags : list flag) : option string := last (omap flag_file flags).
Definition chosen_generation (flags : list flag) : option Z := last (omap flag_generation flags).
Definition chosen_options (file : string) (flags : list flag) : DefinitionOptions :=
  {| definition_file := file; definition_start := existsb flag_start flags |}.

Inductive usage : list string → CTL.Command → Prop :=
| usage_ping : usage ["ping"] CTL.Ping
| usage_list : usage ["server"; "list"] (CTL.ServerList false)
| usage_list_archived : usage ["server"; "list"; "--include-archived"] (CTL.ServerList true)
| usage_get name : usage ["server"; "get"; name] (CTL.ServerGet name)
| usage_status name : usage ["server"; "status"; name] (CTL.ServerStatus name)
| usage_instances name : usage ["server"; "instances"; name] (CTL.ServerInstances name)
| usage_start name : usage ["server"; "start"; name] (CTL.ServerStart name)
| usage_stop name : usage ["server"; "stop"; name] (CTL.ServerStop name)
| usage_archive name : usage ["server"; "archive"; name] (CTL.ServerArchive name)
| usage_create flags file :
    Forall flag_ok flags → chosen_file flags = Some file → chosen_generation flags = None →
    usage ("server" :: "create" :: flag_texts flags) (CTL.ServerCreate (chosen_options file flags))
| usage_apply flags file :
    Forall flag_ok flags → chosen_file flags = Some file →
    usage ("server" :: "apply" :: flag_texts flags)
      (CTL.ServerApply (chosen_options file flags) (chosen_generation flags)).

(** [last] of a list that goes on, after what was chosen before. *)
Definition or_else {A} (chosen before : option A) : option A :=
  match chosen with Some a => Some a | None => before end.
Lemma last_or_else {A} (a : A) l before : or_else (last (a :: l)) before = or_else (last l) (Some a).
Proof. unfold or_else. rewrite last_cons. by destruct (last l). Qed.

Lemma parse_flags_sound n arguments file start generation r :
  (length arguments < n)%nat → parse_flags arguments file start generation = Ok r →
  ∃ flags, arguments = flag_texts flags ∧ Forall flag_ok flags ∧
    r = (or_else (chosen_file flags) file, start || existsb flag_start flags,
         or_else (chosen_generation flags) generation).
Proof.
  revert arguments file start generation. induction n as [|n IH]; [lia|].
  intros [|flag arguments] file start generation Hl; cbn.
  { intros [= <-]. exists []. by rewrite orb_false_r. }
  cbn in Hl. destruct (String.eqb_spec flag "--start") as [->|].
  { intros (flags & -> & Hf & ->)%IH; [|lia]. exists (FlagStart :: flags).
    split_and!; [done|by constructor|]. cbn. by rewrite orb_true_r. }
  destruct (String.eqb_spec flag "--file") as [->|]; cbn.
  { destruct arguments as [|value arguments]; [done|]. cbn in Hl.
    intros (flags & -> & Hf & ->)%IH; [|lia]. exists (FlagFile value :: flags).
    split_and!; [done|by constructor|]. unfold chosen_file. cbn [omap list_omap flag_file existsb].
    by rewrite last_or_else. }
  destruct (String.eqb_spec flag "--expected-generation") as [->|]; [|done].
  destruct arguments as [|value arguments]; [done|]. cbn in Hl.
  destruct (parse_u64 value) as [g|] eqn:Hg; [|done]. destruct (Z.eqb_spec g 0); [done|].
  intros (flags & -> & Hf & ->)%IH; [|lia]. exists (FlagGeneration value g :: flags).
  split_and!; [done|by constructor|]. unfold chosen_generation.
  cbn [omap list_omap flag_generation existsb]. by rewrite last_or_else.
Qed.
Lemma parse_flags_complete flags file start generation :
  Forall flag_ok flags → parse_flags (flag_texts flags) file start generation =
    Ok (or_else (chosen_file flags) file, start || existsb flag_start flags,
        or_else (chosen_generation flags) generation).
Proof.
  intros Hf. revert file start generation. induction Hf as [|f flags Hok Hf IH]; intros file start generation.
  { cbn. by rewrite orb_false_r. }
  destruct f as [|value|value g]; cbn [flag_texts mbind list_bind flag_text app parse_flags].
  - cbn. fold (flag_texts flags). rewrite IH. by rewrite orb_true_r.
  - cbn. fold (flag_texts flags). rewrite IH. unfold chosen_file.
    cbn [omap list_omap flag_file]. by rewrite last_or_else.
  - destruct Hok as [Hg Hz]. cbn. rewrite Hg, (proj2 (Z.eqb_neq _ _) Hz).
    fold (flag_texts flags). rewrite IH. unfold chosen_generation.
    cbn [omap list_omap flag_generation]. by rewrite last_or_else.
Qed.

Lemma or_else_none {A} (o : option A) : or_else o None = o.
Proof. by destruct o. Qed.
Lemma parse_apply_spec arguments options generation :
  DefinitionOptions_parse_apply arguments = Ok (options, generation) ↔
  ∃ flags file, arguments = flag_texts flags ∧ Forall flag_ok flags ∧ chosen_file flags = Some file ∧
    options = chosen_options file flags ∧ generation = chosen_generation flags.
Proof.
  unfold DefinitionOptions_parse_apply. split.
  - intros ([[f s] g] & Hp & Hr)%bind_ok.
    apply (parse_flags_sound (S (length arguments))) in Hp as (flags & -> & Hf & [= -> -> ->]); [|lia].
    rewrite !or_else_none in Hr. exists flags.
    destruct (chosen_file flags) as [file|] eqn:Ef; cbn in Hr; [|done]. simplify_eq. by exists file.
  - intros (flags & file & -> & Hf & Hc & -> & ->). rewrite (parse_flags_complete flags) by done.
    rewrite !or_else_none. cbn. by rewrite Hc.
Qed.
Lemma parse_create_spec arguments options :
  DefinitionOptions_parse arguments = Ok options ↔
  ∃ flags file, arguments = flag_texts flags ∧ Forall flag_ok flags ∧ chosen_file flags = Some file ∧
    options = chosen_options file flags ∧ chosen_generation flags = None.
Proof.
  unfold DefinitionOptions_parse. split.
  - intros ([o g] & (flags & file & -> & Hf & Hc & -> & ->)%parse_apply_spec & Hr)%bind_ok.
    exists flags, file. destruct (chosen_generation flags); cbn in Hr; by simplify_eq.
  - intros (flags & file & -> & Hf & Hc & -> & Hg).
    assert (DefinitionOptions_parse_apply (flag_texts flags) = Ok (chosen_options file flags, None)) as ->.
    { apply parse_apply_spec. exists flags, file. by rewrite Hg. }
    done.
Qed.

Lemma definition_command_spec action rest c :
  parse_definition_command action rest = Ok c →
  usage ("server" :: action :: rest) c.
Proof.
  unfold parse_definition_command.
  destruct (String.eqb_spec action "create") as [->|];
    [|destruct (String.eqb_spec action "apply") as [->|]; [|done]].
  - intros (options & (flags & file & -> & ? & ? & -> & ?)%parse_create_spec & [= <-])%bind_ok.
    by constructor.
  - intros ([options g] & (flags & file & -> & ? & ? & -> & ->)%parse_apply_spec & [= <-])%bind_ok.
    by constructor.
Qed.
Lemma named_command_spec action name c : named_command action name = Some c → usage ["server"; action; name] c.
Proof.
  unfold named_command.
  repeat match goal with
  | |- (if String.eqb action ?t then _ else _) = _ → _ =>
      destruct (String.eqb_spec action t) as [->|]; [intros [= <-]; by constructor|]
  end.
  done.
Qed.

Lemma parse_command_sound arguments c : parse_command arguments = Ok c → usage arguments c.
Proof.
  unfold parse_command. destruct arguments as [|command [|action rest]]; [done|..].
  { destruct (String.eqb_spec command "ping") as [->|]; [|done]. intros [= <-]. constructor. }
  destruct (String.eqb_spec command "server") as [->|]; cbn [negb]; [|done].
  destruct rest as [|name [|other rest]]; [| |apply definition_command_spec].
  - destruct (String.eqb_spec action "list") as [->|]; [|apply definition_command_spec].
    intros [= <-]. constructor.
  - destruct (String.eqb action "list" && String.eqb name "--include-archived") eqn:El.
    { apply andb_true_iff in El as [->%String.eqb_eq ->%String.eqb_eq]. intros [= <-]. constructor. }
    destruct (named_command action name) as [c'|] eqn:En; [|apply definition_command_spec].
    intros [= <-]. by apply named_command_spec.
Qed.

Lemma parse_command_complete arguments c : usage arguments c → parse_command arguments = Ok c.
Proof.
  assert (∀ action rest, String.eqb action "list" = false →
    (∀ name, named_command action name = None) →
    parse_command ("server" :: action :: rest) = parse_definition_command action rest) as Hd.
  { intros action rest Hl Hn. unfold parse_command. cbn [negb String.eqb]. rewrite Hl. cbn [andb].
    destruct rest as [|name [|other rest]]; try done. cbn. by rewrite Hn. }
  destruct 1 as [| | | | | | | | |flags file Hf Hc Hg|flags file Hf Hc]; try reflexivity.
  - rewrite Hd by done. unfold parse_definition_command. cbn [String.eqb].
    assert (DefinitionOptions_parse (flag_texts flags) = Ok (chosen_options file flags)) as Hp.
    { apply parse_create_spec. by exists flags, file. }
    change (parse_definition_command "create" (flag_texts flags)) with
      (options ← DefinitionOptions_parse (flag_texts flags); Ok (CTL.ServerCreate options)).
    by rewrite Hp.
  - rewrite Hd by done.
    assert (DefinitionOptions_parse_apply (flag_texts flags) =
      Ok (chosen_options file flags, chosen_generation flags)) as Hp.
    { apply parse_apply_spec. by exists flags, file. }
    change (parse_definition_command "apply" (flag_texts flags)) with
      ('(options, g) ← DefinitionOptions_parse_apply (flag_texts flags); Ok (CTL.ServerApply options g)).
    by rewrite Hp.
Qed.

(** The options for the socket that come first; the last one counts. *)
Definition socket_texts (sockets : list string) : list string := sockets ≫= λ path, ["--socket"; path].

Lemma parse_socket_sound n arguments path r :
  (length arguments < n)%nat → parse_socket arguments path = Ok r →
  ∃ sockets, arguments = (socket_texts sockets ++ r.2)%list ∧ r.1 = default path (last sockets).
Proof.
  revert arguments path. induction n as [|n IH]; [lia|]. intros [|argument rest] path Hl; cbn.
  { intros [= <-]. by exists []. }
  cbn in Hl. destruct (String.eqb_spec argument "--socket") as [->|].
  - destruct rest as [|value rest]; [done|]. cbn in Hl. intros (sockets & -> & Hr)%IH; [|lia].
    exists (value :: sockets). split; [done|]. rewrite Hr, last_cons. by destruct (last sockets).
  - destruct (String.eqb argument "--help" || String.eqb argument "-h"); [done|].
    intros [= <-]. by exists [].
Qed.
Lemma parse_socket_complete sockets positional path c :
  usage positional c →
  parse_socket (socket_texts sockets ++ positional) path = Ok (default path (last sockets), positional).
Proof.
  intros Hu. revert path. induction sockets as [|value sockets IH]; intros path.
  - by destruct Hu.
  - cbn. fold (socket_texts sockets). rewrite IH, last_cons. by destruct (last sockets).
Qed.

(** C34. The client accepts exactly the command lines of its usage: options for the
    socket, of which the last counts before the variable and the default, and then one
    of the commands, with the flags of create and apply in any order, the last of a
    kind counting, and a generation for apply only, positive and within 64 bits. *)
Theorem command_line_follows_usage variable arguments invocation :
  Invocation_parse variable arguments = Ok invocation ↔
  ∃ sockets positional, arguments = (socket_texts sockets ++ positional)%list ∧
    usage positional (invocation_command invocation) ∧
    invocation_socket_path invocation = default (default DEFAULT_SOCKET_PATH variable) (last sockets).
Proof.
  unfold Invocation_parse. split.
  - intros ([path positional] & Hs & (c & Hc & [= <-])%bind_ok)%bind_ok.
    apply (parse_socket_sound (S (length arguments))) in Hs as (sockets & -> & Hp); [|lia].
    exists sockets, positional. split_and!; [done|by apply parse_command_sound|done].
  - intros (sockets & positional & -> & Hu & Hp).
    rewrite (parse_socket_complete _ _ _ _ Hu). cbn [mbind result_bind].
    rewrite (parse_command_complete _ _ Hu). cbn. destruct invocation. cbn in *. by subst.
Qed.

(** ** Commands and the control plane *)

(** What the derived serde implementations make of the messages of a command. *)
Class CommandLaws `{Serialize ServerResource} `{Deserialize GetServerParams}
    `{Deserialize SetServerDesiredStateParams} `{Deserialize ArchiveServerParams} : Prop := {
  command_server_fields (r : ServerResource) v : to_value r = Ok v →
    json_get "generation" v = Some (JNumber (JInt (res_generation r))) ∧
    json_get "name" v = Some (JString (res_name r));
  command_get_params name :
    from_value (JObject [("server_name", JString name)]) = Ok {| get_server_name := name |};
  command_set_params name state text generation :
    (text, state) ∈ [("running", client.Running); ("stopped", client.Stopped)] →
    0 ≤ generation ≤ u64_max →
    from_value (JObject [("desired_state", JString text);
      ("expected_generation", JNumber (JInt generation)); ("server_name", JString name)]) =
    Ok {| set_server_name := name; set_desired_state_ := state;
          set_expected_generation := Some generation |};
  command_archive_params name generation :
    0 ≤ generation ≤ u64_max →
    from_value (JObject [("expected_generation", JNumber (JInt generation));
      ("server_name", JString name)]) =
    Ok {| archive_server_name := name; archive_expected_generation := Some generation |};
}.

Section commands.
Context `{CodecLaws} `{CommandLaws}.
Context `{Deserialize CreateServerParams} `{Deserialize ApplyServerParams}.
Context `{Deserialize ListServersParams}.
Context `{Deserialize GetServerInstanceParams} `{Deserialize ListServerInstancesParams}.
Context `{Serialize PingResult} `{Serialize ListServersResult}.
Context `{Serialize ServerStatusResource} `{Serialize ServerInstanceResource}.
Context `{Serialize ListServerInstancesResult}.
Context (package_version : string).
Context (describe_validation : ValidationError → string).
Context (describe_application : ApplicationError → string).
Context (r2_base : option string).
Context (definition_from_toml : string → result string ServerDefinition).
Context (compute_value : client.ComputeSpec → json) (process_value : client.ProcessSpec → json).
Context (data_value : client.DesiredDataSpec → json).

#[local] Abbreviation dispatch := (rpc_dispatch package_version r2_base).
#[local] Abbreviation run_command :=
  (execute definition_from_toml compute_value process_value data_value).

(** A call is the method's, with other changes before and during it, or is lost. *)
Definition cli_answer {X} (db : Database) (o : cli_op X) : X → Database → Prop :=
  match o in cli_op X return X → Database → Prop with
  | CallValue method params => λ r db',
      (∃ evs a, exec db_step db (dispatch method params) evs db' a ∧
         r = seen_by_client describe_validation describe_application a) ∨
      (¬ was_answered r ∧ rtc db_step db db')
  | ReadDefinition _ => λ _ db', db' = db
  end.
Inductive cli_exec {A} : Database → cli_prog A → Database → A → Prop :=
| cli_exec_ret db a : cli_exec db (Ret a) db a
| cli_exec_op {X} (o : cli_op X) k x db db1 db2 db' a :
    rtc db_step db db1 → cli_answer db1 o x db2 → cli_exec db2 (k x) db' a →
    cli_exec db (Op o k) db' a.

Lemma cli_exec_inv {A} db (p : cli_prog A) db' a :
  cli_exec db p db' a →
  match p with
  | Ret b => db' = db ∧ a = b
  | Op o k => ∃ x db1 db2, rtc db_step db db1 ∧ cli_answer db1 o x db2 ∧ cli_exec db2 (k x) db' a
  end.
Proof. destruct 1; eauto 10. Qed.

(** A call that returned a value is a method that did. *)
Lemma cli_call_ok method params db db' v :
  cli_exec db (cli_call method params) db' (Ok v) →
  ∃ db1 evs, rtc db_step db db1 ∧ exec db_step db1 (dispatch method params) evs db' (Ok v).
Proof.
  intros (x & db1 & db2 & Hst & Ha & He)%cli_exec_inv.
  destruct x as [w|e]; apply cli_exec_inv in He as [-> He]; simplify_eq.
  destruct Ha as [(evs & a & He & Hs)|[Hn _]]; [|by destruct Hn].
  destruct a; simplify_eq/=. eauto.
Qed.
Lemma cli_bind_ok {A B} (m : cli_prog (result CliError A)) (f : A → cli_prog (result CliError B)) db db' b :
  cli_exec db (try_bind id m f) db' (Ok b) →
  ∃ db1 a, cli_exec db m db1 (Ok a) ∧ cli_exec db1 (f a) db' (Ok b).
Proof.
  revert db. induction m as [[a|e]|X o k IH]; intros db He; cbn in He.
  - exists db, a. split; [constructor|done].
  - by apply cli_exec_inv in He as [_ He].
  - apply cli_exec_inv in He as (x & db1 & db2 & Hst & Ha & He).
    destruct (IH _ _ He) as (dbm & a & Hm & Hf). exists dbm, a. split; [by econstructor|done].
Qed.

(** ** Reading the server *)

(** A server that the control plane returned. *)
Definition returned (db db' : Database) (name : string) (v : json) (s : Server) : Prop :=
  to_value (protocol_server s) = Ok v ∧ srv_name s = name ∧ served db db' s.

Lemma get_outcome name db evs db' v :
  reachable db →
  exec db_step db (dispatch SERVER_GET (JObject [("server_name", JString name)])) evs db' (Ok v) →
  reachable db' ∧ rtc db_step db db' ∧ ∃ s, returned db db' name v s.
Proof.
  intros Hr He.
  change (dispatch SERVER_GET (JObject [("server_name", JString name)])) with
    (try_bind id (Ret (rpc_parse_params (A := GetServerParams) (JObject [("server_name", JString name)])))
      (λ p, rpc_respond protocol_server (ServerService_get_by_name (get_server_name p)))) in He.
  unfold rpc_parse_params in He. rewrite command_get_params in He. cbn [map_err try_bind prog_bind] in He.
  apply exec_try_inv in He as [(e & _ & ?)|(e1 & e2 & db1 & s & He & Hret & ->)]; [done|].
  apply exec_inv in Hret as (_ & -> & Hv).
  apply exec_value_inv in He as [(e' & _ & ? & _)|(n & Hname & He)]; [done|].
  apply ServerName_new_value in Hname as ->.
  apply exec_read_inv in He as (db2 & x & evs3 & Hok2 & _ & Hst & _ & He); [|done|done|by apply reachable_ok].
  destruct He as [(e' & _ & ? & _)|([s2|] & _ & Hread & He)]; [done| |];
    apply exec_inv in He as (_ & -> & He); cbn in He; [|done]. injection He as ->.
  destruct (get_by_name_read _ _ _ _ Hok2 Hread) as (_ & Hn & Hin).
  split; [by eapply reachable_later|]. split; [done|]. exists s2. split_and!; [|done|by apply served_read].
  destruct (to_value (protocol_server s2)); simplify_eq/=; done.
Qed.

Lemma apply_returns params db evs db' v :
  reachable db → exec db_step db (dispatch SERVER_APPLY params) evs db' (Ok v) →
  reachable db' ∧ ∃ s, returned db db' (srv_name s) v s.
Proof.
  intros Hr He.
  change (dispatch SERVER_APPLY params) with
    (try_bind id (Ret (rpc_parse_params (A := ApplyServerParams) params))
      (λ p, rpc_respond protocol_server (ServerService_apply r2_base (apply_name p)
        (domain_desired_spec (apply_spec p)) (apply_expected_generation p)))) in He.
  apply exec_value_inv in He as [(e' & _ & ? & _)|(p & _ & He)]; [done|].
  apply exec_try_inv in He as [(e & _ & ?)|(e1 & e2 & db1 & s & He & Hret & ->)]; [done|].
  apply exec_inv in Hret as (_ & -> & Hv). apply apply_outcome in He as [Hr' Ho]; [|done].
  split; [done|]. exists s. destruct Ho as (_ & _ & _ & _ & _ & _ & _ & Hs & _). split_and!; [|done..].
  destruct (to_value (protocol_server s)); simplify_eq/=; done.
Qed.

(** ** Changing it *)

(** The server of a command that makes a change, when it names it. *)
Definition command_server (c : CTL.Command) : option string :=
  match c with
  | CTL.ServerStart name | CTL.ServerStop name | CTL.ServerArchive name => Some name
  | _ => None
  end.
(** What a command that changes a server leaves it as. *)
Definition command_wants (c : CTL.Command) (s : Server) : Prop :=
  match c with
  | CTL.ServerStart _ => srv_desired_state s = DS.Running ∧ srv_archived_at s = None
  | CTL.ServerStop _ => srv_desired_state s = DS.Stopped ∧ srv_archived_at s = None
  | CTL.ServerArchive _ => is_Some (srv_archived_at s)
  | CTL.ServerApply options _ =>
      definition_start options = true → srv_desired_state s = DS.Running ∧ srv_archived_at s = None
  | _ => True
  end.
(** The commands that read a server and then change it, and the one that also starts
    what it applied. *)
Definition fenced_command (c : CTL.Command) : bool :=
  match c with
  | CTL.ServerStart _ | CTL.ServerStop _ | CTL.ServerArchive _ => true
  | CTL.ServerApply options _ => definition_start options
  | _ => false
  end.

Lemma generation_read s v g :
  to_value (protocol_server s) = Ok v → response_generation v = Ok g →
  srv_generation s = g ∧ 0 ≤ g ≤ u64_max.
Proof.
  intros [Hg _]%command_server_fields. unfold response_generation. rewrite Hg. cbn.
  destruct ((0 <=? srv_generation s) && (srv_generation s <=? u64_max)) eqn:E; [|done].
  intros [= <-]. apply andb_true_iff in E as [?%Z.leb_le ?%Z.leb_le]. done.
Qed.

(** A change that expects the generation of [before]. *)
Lemma fenced_change c db evs db' v params before :
  reachable db → change_decodes c params → change_expected c = Some (srv_generation before) →
  exec db_step db (dispatch (change_method c) params) evs db' (Ok v) →
  reachable db' ∧ ∃ after, to_value (protocol_server after) = Ok v ∧ change_made c after ∧
    served db db' after ∧
    (srv_generation after = srv_generation before ∨ srv_generation after = srv_generation before + 1).
Proof.
  intros Hr Hd He Hx. rewrite (dispatch_change _ _ _ _ Hd) in Hx.
  apply exec_try_inv in Hx as [(e & _ & ?)|(e1 & e2 & db1 & s & Hx & Hret & ->)]; [done|].
  apply exec_inv in Hret as (_ & -> & Hv). apply change_service_outcome in Hx as [Hr' Ho]; [|done].
  split; [done|]. destruct (Ho s eq_refl) as (Hmade & Hs & _ & Hg). exists s.
  split_and!; [|done..|by apply Hg]. destruct (to_value (protocol_server s)); simplify_eq/=; done.
Qed.

(** The second call of a command, on the server that the first returned. *)
Lemma set_from_resource db name v0 text state db' v before :
  reachable db → (text, state) ∈ [("running", client.Running); ("stopped", client.Stopped)] →
  to_value (protocol_server before) = Ok v0 →
  cli_exec db (set_desired_state_from_resource name v0 text) db' (Ok v) →
  reachable db' ∧ ∃ after, returned db db' name v after ∧ srv_archived_at after = None ∧
    state_asked state (srv_desired_state after) ∧
    (srv_generation after = srv_generation before ∨ srv_generation after = srv_generation before + 1).
Proof.
  intros Hr Hstate Hv0 (db1 & g & He & Hx)%cli_bind_ok. apply cli_exec_inv in He as [-> Hg].
  destruct (generation_read _ _ _ Hv0 (eq_sym Hg)) as [Hgen Hrange].
  apply cli_call_ok in Hx as (db2 & evs & Hst & Hx).
  apply (fenced_change (ChangeState {| set_server_name := name; set_desired_state_ := state;
    set_expected_generation := Some g |}) _ _ _ _ _ before) in Hx.
  - destruct Hx as (Hr' & after & Hv & (Hn & Ha & Hd) & Hs & Hgen'). split; [done|]. exists after.
    split_and!; [|done..]. split_and!; [done..|]. eapply served_app; [exact Hst|reflexivity|done].
  - by eapply reachable_later.
  - by apply command_set_params.
  - cbn. by rewrite Hgen.
Qed.

Lemma get_call name db db' v0 :
  reachable db → cli_exec db (call_server_name SERVER_GET name) db' (Ok v0) →
  reachable db' ∧ ∃ before, returned db db' name v0 before.
Proof.
  intros Hr (db1 & evs & Hst & Hx)%cli_call_ok.
  apply get_outcome in Hx as (Hr' & _ & before & Hv & Hn & Hs); [|by eapply reachable_later].
  split; [done|]. exists before. split_and!; [done..|]. eapply served_app; [exact Hst|reflexivity|done].
Qed.

Lemma load_steps path db db' r :
  cli_exec db (ServerDefinition_load definition_from_toml path) db' r → rtc db_step db db'.
Proof.
  intros (x & db1 & db2 & Hst & Ha & He)%cli_exec_inv. cbn in Ha. subst db2.
  assert (db' = db1) as ->; [|done]. destruct x as [content|e]; cbn [prog_bind] in He.
  - destruct (_ <? _); [by apply cli_exec_inv in He as [-> _]|].
    destruct (negb _); [by apply cli_exec_inv in He as [-> _]|].
    destruct (definition_from_toml content); cbn in He; [|by apply cli_exec_inv in He as [-> _]].
    destruct (negb _); by apply cli_exec_inv in He as [-> _].
  - by apply cli_exec_inv in He as [-> _].
Qed.

End commands.

(** ** Examples *)

Section witnesses.
#[local] Existing Instances bits_codec bits_codec_laws.
#[local] Instance: Serialize ServerResource := λ r,
  Ok (JObject [("generation", JNumber (JInt (res_generation r))); ("name", JString (res_name r))]).
#[local] Instance: Deserialize GetServerParams := λ v,
  match json_string_field "server_name" v with
  | Some name => Ok {| get_server_name := name |}
  | None => Err "missing field"
  end.
#[local] Instance: Deserialize SetServerDesiredStateParams := λ v,
  match json_string_field "server_name" v, json_string_field "desired_state" v with
  | Some name, Some state =>
      Ok {| set_server_name := name;
            set_desired_state_ := if String.eqb state "running" then client.Running else client.Stopped;
            set_expected_generation := json_get "expected_generation" v ≫= json_as_u64 |}
  | _, _ => Err "missing field"
  end.
#[local] Instance: Deserialize ArchiveServerParams := λ v,
  match json_string_field "server_name" v with
  | Some name => Ok {| archive_server_name := name;
      archive_expected_generation := json_get "expected_generation" v ≫= json_as_u64 |}
  | None => Err "missing field"
  end.
#[local] Instance other_deserialize A : Deserialize A | 100 := λ _, Err "unexpected message".
#[local] Instance other_serialize A : Serialize A | 100 := λ _, Err "unexpected message".

Lemma as_u64_range g : 0 ≤ g ≤ u64_max → json_as_u64 (JNumber (JInt g)) = Some g.
Proof. intros [Hl Hu]. cbn. by rewrite (proj2 (Z.leb_le _ _) Hl), (proj2 (Z.leb_le _ _) Hu). Qed.
#[local] Instance example_command_laws : CommandLaws.
Proof.
  split.
  - intros r v [= <-]. done.
  - done.
  - intros name state text g Ht Hg.
    assert (from_value (A := SetServerDesiredStateParams)
      (JObject [("desired_state", JString text); ("expected_generation", JNumber (JInt g));
        ("server_name", JString name)]) =
      Ok {| set_server_name := name;
            set_desired_state_ := if String.eqb text "running" then client.Running else client.Stopped;
            set_expected_generation := json_as_u64 (JNumber (JInt g)) |}) as -> by reflexivity.
    rewrite as_u64_range by done. repeat (apply elem_of_cons in Ht as [[= -> ->]|Ht]; [done|]).
    by apply elem_of_nil in Ht.
  - intros name g Hg.
    assert (from_value (A := ArchiveServerParams)
      (JObject [("expected_generation", JNumber (JInt g)); ("server_name", JString name)]) =
      Ok {| archive_server_name := name;
            archive_expected_generation := json_as_u64 (JNumber (JInt g)) |}) as -> by reflexivity.
    by rewrite as_u64_range.
Qed.

Definition example_dispatch := (rpc_dispatch "0.1.0" None).
Definition example_get :=
  simulate (example_dispatch SERVER_GET (JObject [("server_name", JString "survival")])) initial_world
    example_stopped_db.
Definition example_set (generation : Z) :=
  simulate (example_dispatch SERVER_SET_DESIRED_STATE
    (JObject [("desired_state", JString "stopped"); ("expected_generation", JNumber (JInt generation));
              ("server_name", JString "survival")])) example_get.1.1.2 example_get.1.2.

Definition example_execute : CTL.Command → cli_prog (result CliError json) :=
  execute (λ _, Err "none") (λ _, JNull) (λ _, JNull) (λ _, JNull).
Definition response_of (r : result RpcDispatchError json) : json := match r with Ok v => v | Err _ => JNull end.
Definition example_generation : Z :=
  match response_generation (response_of example_get.2) with Ok g => g | Err _ => 0 end.

End witnesses.
