(* ===== verification/Bootstrap.v ===== *)
(** What a cloud machine is started with
    (crates/mcserver-control-plane/src/infrastructure/akamai_bootstrap.rs): the
    script that installs the node agent, and the settings it writes for it. Values reach
    the shell as they are, and the agent accepts the settings. *)
From S2P Require Import Prelude Text Net NetFacts Environment Config Programs Framing Server.
From S2P Require Import Instances Database Repositories Codecs Effects NodeConfig.
From S2P Require Import ConfigProperties.
From Stdlib Require Import Ascii.
#[local] Open Scope string_scope.
#[local] Open Scope Z_scope.
#[local] Open Scope prog_scope.

Definition MAX_AUTHORIZED_KEYS_BYTES : Z := 64 * 1024.
Definition MAX_CA_BYTES : Z := 1024 * 1024.
Definition REMOTE_STATE_DIRECTORY : string := "/var/lib/mcserver/node-agent".
Definition CONTAINER_STORAGE_DIRECTORY : string := "/var/lib/containers".
Definition CONTAINER_RUNTIME_DIRECTORY : string := "/run/containers".
Definition REMOTE_BINARY_PATH : string := "/usr/local/bin/mcserver-node-agent".
Definition REMOTE_CA_PATH : string := "/etc/mcserver/control-plane-ca.pem".
Definition REMOTE_ENV_PATH : string := "/etc/mcserver/node-agent.env".
Definition REMOTE_UNIT_PATH : string := "/etc/systemd/system/mcserver-node-agent.service".

Module BE.
(** [BootstrapError]. *)
Inductive BootstrapError :=
| Io (source : io_error)
| FileTooLarge (path : string) (maximum : Z)
| InvalidAuthorizedKeysEncoding
| NoAuthorizedKeys
| AuthorizedKeyContainsNul
| CaContainsNul
| MissingEnrollmentToken
| Serialization (source : string).
End BE.
Abbreviation BootstrapError := BE.BootstrapError.

Record BootstrapManifest := {
  manifest_schema_version : Z;
  manifest_compute_instance_id : string;
  manifest_server_instance_id : string;
  manifest_enrollment_token : string;
  manifest_control_plane_address : string;
  manifest_tls_server_name : string;
  manifest_provider_scope : string;
}.

Inductive bootstrap_op : Type → Type :=
(* the length that the metadata says, and the content *)
| FileLength (path : string) : bootstrap_op (result io_error Z)
| ReadWholeFile (path : string) : bootstrap_op (result io_error string).
Abbreviation bootstrap_prog := (gprog bootstrap_op).

(** ** Reading the files *)

Definition read_bounded (path : string) (maximum : Z) : bootstrap_prog (result BootstrapError string) :=
  let? length := perform (FileLength path) via BE.Io in
  if maximum <? length then Ret (Err (BE.FileTooLarge path maximum))
  else
    let? content := perform (ReadWholeFile path) via BE.Io in
    Ret (Ok content).

(** The keys of the text. *)
Definition authorized_keys_of (text : string) : result BootstrapError (list string) :=
  _ ← err_if (negb (utf8_valid text)) BE.InvalidAuthorizedKeysEncoding;
  let keys := List.filter (λ line, negb (str_is_empty line)
    && negb (from_option (byte_is "#") false (str_first_byte line))) (map str_trim (str_lines text)) in
  _ ← err_if (match keys with [] => true | _ => false end) BE.NoAuthorizedKeys;
  _ ← err_if (existsb str_contains_nul keys) BE.AuthorizedKeyContainsNul;
  Ok keys.
Definition read_authorized_keys (path : string) :
    bootstrap_prog (result BootstrapError (list string)) :=
  let? text := read_bounded path MAX_AUTHORIZED_KEYS_BYTES via id in
  Ret (authorized_keys_of text).

(** ** The script *)

(** A value in single quotes, for a shell. *)
Fixpoint escape_quotes (value : string) : string :=
  match value with
  | EmptyString => EmptyString
  | String c value =>
      if byte_is "'" c then "'\''" ++ escape_quotes value else String c (escape_quotes value)
  end.
Definition shell_value (value : string) : string := "'" ++ escape_quotes value ++ "'".

Definition systemd_unit : string := "[Unit]
Description=Minecraft Server Management node agent
Wants=network-online.target
After=network-online.target

[Service]
Type=simple
EnvironmentFile=/etc/mcserver/node-agent.env
ExecStart=/usr/local/bin/mcserver-node-agent
Restart=on-failure
RestartSec=5s
UMask=0077
NoNewPrivileges=true
PrivateTmp=true
ProtectHome=true
# Keep installed binaries and boot files read-only without restricting Podman state.
ProtectSystem=true
ProtectKernelTunables=false
ProtectKernelModules=false
RestrictSUIDSGID=false
Delegate=yes
TasksMax=infinity
KillMode=mixed

[Install]
WantedBy=multi-user.target
".

Section bootstrap.
Context `{Codec}.

(** [STANDARD.encode] of the crate [base64] and [serde_json::to_vec] of the manifest. *)
Variable base64_encode : string → string.
Variable manifest_to_vec : BootstrapManifest → result string string.

Variable remote : RemoteAgentConfig.
Variable provider_scope : string.

(** The settings between the marks of the here-document. *)
Definition agent_environment (compute : ComputeInstance) (enrollment_token : string) : string :=
  "MCSERVER_NODE_AGENT_CONTROL_PLANE_ADDRESS=" ++ shell_value (ra_public_address remote) ++ "
MCSERVER_NODE_AGENT_TLS_CA_CERTIFICATE=" ++ REMOTE_CA_PATH ++ "
MCSERVER_NODE_AGENT_TLS_SERVER_NAME=" ++ shell_value (ra_tls_server_name remote) ++ "
MCSERVER_NODE_AGENT_COMPUTE_INSTANCE_ID=" ++ uuid_to_string (ci_id compute) ++ "
MCSERVER_NODE_AGENT_CONNECTION_TOKEN=" ++ shell_value enrollment_token ++ "
MCSERVER_NODE_AGENT_STATE_DIRECTORY=" ++ REMOTE_STATE_DIRECTORY ++ "
MCSERVER_NODE_AGENT_LOCAL_SCOPE=" ++ shell_value provider_scope ++ "
MCSERVER_NODE_AGENT_DATA_ACCESS_MODE=host
MCSERVER_NODE_AGENT_MAX_FRAME_BYTES=" ++ u64_to_string (ra_max_frame_bytes remote) ++ "
MCSERVER_NODE_AGENT_COMMAND_TIMEOUT_SECONDS="
    ++ u64_to_string (as_secs (ra_node_operation_timeout remote)) ++ "
".

Definition bootstrap_script (manifest_base64 ca_base64 unit_base64 : string) (compute : ComputeInstance)
    (enrollment_token : string) : string :=
  "#!/bin/sh
set -eu
umask 077
# mcserver-bootstrap: " ++ manifest_base64 ++ "

install_packages() {
  if command -v dnf >/dev/null 2>&1; then
    dnf -y install ca-certificates curl openssl podman restic
  elif command -v apt-get >/dev/null 2>&1; then
    export DEBIAN_FRONTEND=noninteractive
    apt-get update
    apt-get install -y ca-certificates curl openssl podman restic
  else
    echo 'unsupported distribution: dnf or apt-get is required' >&2
    exit 1
  fi
}

install_packages
install -d -m 0700 /etc/mcserver " ++ REMOTE_STATE_DIRECTORY ++ " " ++ CONTAINER_STORAGE_DIRECTORY ++ "
install -d -m 0755 " ++ CONTAINER_RUNTIME_DIRECTORY ++ "
printf '%s' '" ++ ca_base64 ++ "' | base64 -d > " ++ REMOTE_CA_PATH ++ "
cat > " ++ REMOTE_ENV_PATH ++ " <<'MCSERVER_AGENT_ENV'
" ++ agent_environment compute enrollment_token ++ "MCSERVER_AGENT_ENV
chmod 0600 " ++ REMOTE_CA_PATH ++ " " ++ REMOTE_ENV_PATH ++ "

curl --fail --location --proto '=https' --tlsv1.2 \
  --output " ++ REMOTE_BINARY_PATH ++ ".tmp " ++ shell_value (ra_node_agent_download_url remote) ++ "
printf '%s  %s\n' '" ++ ra_node_agent_sha256 remote ++ "' '" ++ REMOTE_BINARY_PATH
    ++ ".tmp' | sha256sum --check --strict
install -m 0755 " ++ REMOTE_BINARY_PATH ++ ".tmp " ++ REMOTE_BINARY_PATH ++ "
rm -f " ++ REMOTE_BINARY_PATH ++ ".tmp
printf '%s' '" ++ unit_base64 ++ "' | base64 -d > " ++ REMOTE_UNIT_PATH ++ "
chmod 0644 " ++ REMOTE_UNIT_PATH ++ "
systemctl daemon-reload
systemctl enable --now mcserver-node-agent.service
".

Definition build_bootstrap (authorized_keys_file : string) (instance : ServerInstance)
    (compute : ComputeInstance) : bootstrap_prog (result BootstrapError Bootstrap) :=
  let? authorized_keys := read_authorized_keys authorized_keys_file via id in
  let? ca := read_bounded (ra_tls_ca_certificate remote) MAX_CA_BYTES via id in
  if str_contains_nul ca then Ret (Err BE.CaContainsNul)
  else
    let? enrollment_token := Ret (ok_or BE.MissingEnrollmentToken (ci_enrollment_token compute))
      via id in
    let manifest := {|
      manifest_schema_version := 2;
      manifest_compute_instance_id := uuid_to_string (ci_id compute);
      manifest_server_instance_id := uuid_to_string (si_id instance);
      manifest_enrollment_token := enrollment_token;
      manifest_control_plane_address := ra_public_address remote;
      manifest_tls_server_name := ra_tls_server_name remote;
      manifest_provider_scope := provider_scope |} in
    let? manifest := Ret (manifest_to_vec manifest) via BE.Serialization in
    let script := bootstrap_script (base64_encode manifest) (base64_encode ca)
      (base64_encode systemd_unit) compute enrollment_token in
    Ret (Ok {| authorized_keys := authorized_keys; user_data_base64 := base64_encode script |}).
End bootstrap.

(** ** Words of a shell *)

(** The bytes that a shell does not take as they are outside of quotes. *)
Definition sh_special (c : ascii) : bool :=
  existsb (λ n, byte_is (ascii_of_nat n) c) [9; 10; 32; 34]%nat || byte_among "|&;<>()$`*?[#~=%" c.

(** The value of one word (POSIX.1-2017, Shell Command Language, 2.2): everything
    between single quotes is literal, and outside of them a backslash makes the next
    byte literal. [None] when the text is not one such word. *)
Fixpoint sh_word (quoted : bool) (s : string) : option string :=
  match s with
  | EmptyString => if quoted then None else Some EmptyString
  | String c s =>
      if byte_is "'" c then sh_word (negb quoted) s
      else if quoted then String c <$> sh_word true s
      else if byte_is "\" c then
        match s with
        | EmptyString => None
        | String d s => String d <$> sh_word false s
        end
      else if sh_special c then None
      else String c <$> sh_word false s
  end.

Lemma escape_quotes_word value rest v :
  sh_word false rest = Some v → sh_word true (escape_quotes value ++ "'" ++ rest) = Some (value ++ v).
Proof.
  intros Hr. induction value as [|c value IH]; [done|]. cbn [escape_quotes].
  destruct (byte_is_spec "'" c) as [<-|Hc].
  - change (("'\''" ++ escape_quotes value) ++ "'" ++ rest) with
      (String "'" (String "\" (String "'" (String "'" (escape_quotes value ++ "'" ++ rest))))).
    cbn [sh_word byte_is Ascii.eqb Bool.eqb negb]. rewrite IH. done.
  - rewrite string_app_cons. cbn [sh_word]. destruct (byte_is_spec "'" c); [done|]. rewrite IH. done.
Qed.

(** Whatever a value is, quotes and line breaks included, the shell that runs the
    script takes it as exactly that value, as one word. *)
Theorem shell_values_are_literal value : sh_word false (shell_value value) = Some value.
Proof.
  unfold shell_value. change ("'" ++ escape_quotes value ++ "'") with
    (String "'" (escape_quotes value ++ "'" ++ EmptyString)).
  cbn [sh_word byte_is Ascii.eqb Bool.eqb negb].
  rewrite (escape_quotes_word value EmptyString EmptyString) by done. by rewrite string_app_nil_r.
Qed.

(** ** The agent's settings *)

(** A line of an environment file, as systemd reads it (systemd.exec(5)): a name and a
    value, which can be in single quotes. Only lines are given a meaning in which
    nothing is escaped. *)
Definition unescaped (c : ascii) : bool := negb (byte_is "'" c || byte_is "\" c).
Definition setting_value (value : string) : option string :=
  match strip_prefix "'" value with
  | Some rest =>
      match rsplit_once "'" rest with
      | Some (inner, EmptyString) => if bytes_all unescaped inner then Some inner else None
      | _ => None
      end
  | None => if bytes_all plain_byte value then Some value else None
  end.
Definition setting (line : string) : option (string * string) :=
  '(name, value) ← split_once "=" line;
  value ← setting_value value;
  Some (name, value).
Definition environment_file (text : string) : option (list (string * string)) :=
  mapM setting (str_lines text).

Lemma escape_quotes_id value : bytes_all unescaped value = true → escape_quotes value = value.
Proof.
  induction value as [|c value IH]; [done|]. unfold bytes_all in *.
  cbn [escape_quotes String.list_ascii_of_string forallb].
  intros [Hc Hv]%andb_true_iff. unfold unescaped in Hc. destruct (byte_is "'" c); [done|].
  by rewrite IH.
Qed.
Lemma plain_unescaped value : bytes_all plain_byte value = true → bytes_all unescaped value = true.
Proof. apply bytes_all_impl. intros c. by destruct c as [[] [] [] [] [] [] [] []]. Qed.

Lemma rsplit_once_last c s : rsplit_once c (s ++ String c EmptyString) = Some (s, EmptyString).
Proof.
  induction s as [|d s IH].
  - change (EmptyString ++ String c EmptyString) with (String c EmptyString).
    cbn [rsplit_once]. by rewrite byte_is_refl.
  - rewrite string_app_cons. cbn [rsplit_once]. by rewrite IH.
Qed.
Lemma quoted_value value :
  bytes_all unescaped value = true → setting_value (shell_value value) = Some value.
Proof.
  intros Hv. unfold setting_value, shell_value. rewrite strip_prefix_app, escape_quotes_id by done.
  change "'" with (String "'" EmptyString) at 1. by rewrite rsplit_once_last, Hv.
Qed.
Lemma plain_value value : bytes_all plain_byte value = true → setting_value value = Some value.
Proof.
  intros Hv. unfold setting_value. destruct (strip_prefix "'" value) as [rest|] eqn:E; [|by rewrite Hv].
  apply strip_prefix_Some in E as ->. discriminate Hv.
Qed.

Lemma split_once_name name value :
  lacks "=" name → split_once "=" (name ++ String "=" value) = Some (name, value).
Proof.
  induction name as [|c name IH].
  - intros _. change (EmptyString ++ String "=" value) with (String "=" value). by destruct value.
  - rewrite lacks_cons, string_app_cons. intros [Hc Hn]. cbn [split_once strip_prefix].
    destruct (byte_is_spec "=" c); [done|]. by rewrite IH.
Qed.
Lemma setting_of name text value :
  lacks "=" name → setting_value text = Some value → setting (name ++ String "=" text) = Some (name, value).
Proof. intros Hn Hv. unfold setting. rewrite split_once_name by done. cbn. by rewrite Hv. Qed.

(** Lines one after another. *)
Fixpoint unlines (lines : list string) : string :=
  match lines with
  | [] => EmptyString
  | line :: lines => line ++ String (ascii_of_nat 10) (unlines lines)
  end.
Definition one_line (line : string) : Prop :=
  lacks (ascii_of_nat 10) line ∧ lacks (ascii_of_nat 13) line.

Lemma strip_carriage_return_id line :
  lacks (ascii_of_nat 13) line → strip_carriage_return line = line.
Proof.
  intros Hc. unfold strip_carriage_return.
  destruct (String.list_ascii_of_string line) as [|c cs] eqn:E; [done|].
  destruct (last (c :: cs)) as [d|] eqn:Hl; cbn [from_option]; [|done].
  destruct (byte_is_spec (ascii_of_nat 13) d) as [<-|]; [|done]. exfalso.
  unfold lacks, bytes_all in Hc. rewrite E, forallb_forall in Hc.
  specialize (Hc (ascii_of_nat 13)). rewrite byte_is_refl in Hc.
  apply last_Some in Hl as [l Hl]. rewrite Hl in Hc. discriminate Hc. apply in_or_app. right. by left.
Qed.

Lemma str_split_cons c s : ∃ piece pieces, str_split c s = piece :: pieces.
Proof.
  unfold str_split. generalize (@nil ascii). induction (String.list_ascii_of_string s) as [|d l IH];
    intros piece; cbn [split_on]; [eauto|]. case_match; eauto.
Qed.

Lemma str_lines_unlines lines : Forall one_line lines → str_lines (unlines lines) = lines.
Proof.
  unfold str_lines. induction 1 as [|line lines [Hn Hc] Hl IH]; [done|]. cbn [unlines].
  rewrite str_split_app by done.
  destruct (str_split_cons (ascii_of_nat 10) (unlines lines)) as (piece & pieces & Hp).
  rewrite Hp in *. cbn [ended_lines]. rewrite strip_carriage_return_id by done. by f_equal.
Qed.

(** ** The here-document *)

(** The lines of a here-document (POSIX.1-2017, Shell Command Language, 2.7.4), with a
    quoted mark: as they are, up to the line that is the mark. *)
Fixpoint here_document (mark : string) (lines : list string) : option (list string) :=
  match lines with
  | [] => None
  | line :: lines => if String.eqb line mark then Some [] else cons line <$> here_document mark lines
  end.

Lemma here_document_unlines mark lines rest :
  Forall one_line lines → mark ∉ lines → lacks (ascii_of_nat 10) mark →
  here_document mark (str_split (ascii_of_nat 10)
    (unlines lines ++ mark ++ String (ascii_of_nat 10) rest)) = Some lines.
Proof.
  intros Hl Hnot Hmark. induction Hl as [|line lines [Hn _] Hl IH]; cbn [unlines].
  - change (EmptyString ++ ?s) with s. rewrite str_split_app by done. cbn. by rewrite String.eqb_refl.
  - rewrite <- string_app_assoc, string_app_cons, str_split_app by done. cbn.
    destruct (String.eqb_spec line mark) as [->|]; [set_solver|]. rewrite IH by set_solver. done.
Qed.

(** Text that ends in another. *)
Lemma ends_after (p s x : string) : (∃ before, s = before ++ x) → ∃ before, p ++ s = before ++ x.
Proof. intros [before ->]. exists (p ++ before). apply string_app_assoc. Qed.

Lemma plain_one_line line : bytes_all plain_byte line = true → one_line line.
Proof. intros Hl. split; by apply plain_bytes_lack. Qed.
Lemma one_line_app a b : one_line a → one_line b → one_line (a ++ b).
Proof. intros [] []. split; by apply lacks_app. Qed.
Lemma quoted_one_line value : bytes_all plain_byte value = true → one_line (shell_value value).
Proof.
  intros Hv. unfold shell_value. rewrite escape_quotes_id by by apply plain_unescaped.
  repeat apply one_line_app; [done|by apply plain_one_line|done].
Qed.

(** Settings that are written line by line. *)
Definition setting_written (s : string * string) (text : string) : Prop :=
  lacks "=" s.1 ∧ one_line s.1 ∧ one_line text ∧ setting_value text = Some s.2.
Lemma Forall_zip_with_written settings texts :
  Forall2 setting_written settings texts →
  Forall one_line (zip_with (λ '(name, _) text, name ++ String "=" text) settings texts).
Proof.
  intros Hs. induction Hs as [|[name value] text settings texts (_ & Hn & Ht & _) Hs IH]; constructor; [|done].
  apply one_line_app; [done|]. destruct Ht. by split; apply lacks_cons.
Qed.
Lemma written_settings_read settings texts :
  Forall2 setting_written settings texts →
  environment_file (unlines (zip_with (λ '(name, _) text, name ++ String "=" text) settings texts))
    = Some settings.
Proof.
  intros Hs. unfold environment_file. rewrite str_lines_unlines.
  - induction Hs as [|[name value] text settings texts (Hn & _ & _ & Hv) Hs IH]; [done|].
    cbn [zip_with]. change (mapM setting (?a :: ?l)) with (y ← setting a; k ← mapM setting l; mret (y :: k)).
    cbn [fst snd] in *. rewrite (setting_of _ _ _ Hn Hv), IH. done.
  - by apply Forall_zip_with_written.
Qed.

(** A text of plain bytes is not blank. *)
Lemma plain_not_blank value :
  bytes_all plain_byte value = true → value ≠ EmptyString → str_is_blank value = false.
Proof.
  destruct value as [|c value]; [done|]. unfold bytes_all. cbn [String.list_ascii_of_string forallb].
  intros [Hc _]%andb_true_iff _. unfold str_is_blank.
  rewrite str_chars_cons, ascii_utf8_extra; [|by destruct c as [[] [] [] [] [] [] [] []]].
  cbn [take_bytes forallb]. apply andb_false_iff. left. by destruct c as [[] [] [] [] [] [] [] []].
Qed.
Lemma plain_text_ok value maximum :
  bytes_all plain_byte value = true → value ≠ EmptyString → str_len value ≤ maximum →
  text_ok value maximum.
Proof.
  intros Hv Hne Hl. split_and!; [by apply plain_not_blank|by apply lacks_nul, plain_bytes_lack|].
  by rewrite ascii_char_count by by apply plain_bytes_ascii.
Qed.
Lemma text_ok_validates name value maximum :
  text_ok value maximum → node_validate_text name value maximum = Ok tt.
Proof.
  intros (Hb & Hn & Hc). unfold node_validate_text. rewrite Hb, Hn. cbn.
  by destruct (Z.ltb_spec maximum (str_char_count value)); [lia|].
Qed.

Section settings.
Context `{CodecLaws}.
Context (remote : RemoteAgentConfig) (provider_scope : string) (compute : ComputeInstance) (token : string).

Definition agent_settings : list (string * string) := [
  ("MCSERVER_NODE_AGENT_CONTROL_PLANE_ADDRESS", ra_public_address remote);
  ("MCSERVER_NODE_AGENT_TLS_CA_CERTIFICATE", REMOTE_CA_PATH);
  ("MCSERVER_NODE_AGENT_TLS_SERVER_NAME", ra_tls_server_name remote);
  ("MCSERVER_NODE_AGENT_COMPUTE_INSTANCE_ID", uuid_to_string (ci_id compute));
  ("MCSERVER_NODE_AGENT_CONNECTION_TOKEN", token);
  ("MCSERVER_NODE_AGENT_STATE_DIRECTORY", REMOTE_STATE_DIRECTORY);
  ("MCSERVER_NODE_AGENT_LOCAL_SCOPE", provider_scope);
  ("MCSERVER_NODE_AGENT_DATA_ACCESS_MODE", "host");
  ("MCSERVER_NODE_AGENT_MAX_FRAME_BYTES", u64_to_string (ra_max_frame_bytes remote));
  ("MCSERVER_NODE_AGENT_COMMAND_TIMEOUT_SECONDS",
    u64_to_string (as_secs (ra_node_operation_timeout remote)))].

(** How each of them is written. *)
Definition setting_texts : list string := [
  shell_value (ra_public_address remote); REMOTE_CA_PATH; shell_value (ra_tls_server_name remote);
  uuid_to_string (ci_id compute); shell_value token; REMOTE_STATE_DIRECTORY;
  shell_value provider_scope; "host"; u64_to_string (ra_max_frame_bytes remote);
  u64_to_string (as_secs (ra_node_operation_timeout remote))].

Definition setting_lines : list string :=
  zip_with (λ '(name, _) text, name ++ String "=" text) agent_settings setting_texts.

Lemma agent_environment_lines : agent_environment remote provider_scope compute token = unlines setting_lines.
Proof.
  unfold agent_environment. cbn [zip_with agent_settings setting_texts unlines].
  rewrite <- ?string_app_assoc. reflexivity.
Qed.

Hypothesis address_plain : bytes_all plain_byte (ra_public_address remote) = true.
Hypothesis server_name_plain : bytes_all plain_byte (ra_tls_server_name remote) = true.
Hypothesis uuid_plain : bytes_all plain_byte (uuid_to_string (ci_id compute)) = true.
Hypothesis token_plain : bytes_all plain_byte token = true.
Hypothesis scope_plain : bytes_all plain_byte provider_scope = true.
Hypothesis frame_range : 0 ≤ ra_max_frame_bytes remote ≤ u64_max.
Hypothesis timeout_range : 0 ≤ as_secs (ra_node_operation_timeout remote) ≤ u64_max.

Lemma u64_text_plain n : 0 ≤ n ≤ u64_max → bytes_all plain_byte (u64_to_string n) = true.
Proof. intros Hn. eapply parse_u64_plain. by apply u64_text_round_trip. Qed.

Lemma settings_written : Forall2 setting_written agent_settings setting_texts.
Proof.
  assert (∀ name value, lacks "=" name → one_line name → bytes_all plain_byte value = true →
    setting_written (name, value) (shell_value value)) as Hquoted.
  { intros name value ? ? Hv. split_and!; [done|done|by apply quoted_one_line|].
    by apply quoted_value, plain_unescaped. }
  assert (∀ name value, lacks "=" name → one_line name → bytes_all plain_byte value = true →
    setting_written (name, value) value) as Hplain.
  { intros name value ? ? Hv. split_and!; [done|done|by apply plain_one_line|by apply plain_value]. }
  unfold agent_settings, setting_texts.
  repeat apply List.Forall2_cons;
    [apply Hquoted|apply Hplain|apply Hquoted|apply Hplain|apply Hquoted|apply Hplain|apply Hquoted
    |apply Hplain|apply Hplain|apply Hplain|apply List.Forall2_nil];
    first [assumption|apply u64_text_plain; assumption|reflexivity|split; reflexivity].
Qed.

Lemma settings_read : environment_file (unlines setting_lines) = Some agent_settings.
Proof. apply written_settings_read, settings_written. Qed.

(** What the shell writes to the file of the settings. *)
Definition SETTINGS_MARK : string := "MCSERVER_AGENT_ENV".
Definition SETTINGS_COMMAND : string := "cat > /etc/mcserver/node-agent.env <<'MCSERVER_AGENT_ENV'
".

Lemma script_writes_settings manifest ca unit_ :
  ∃ before rest,
    bootstrap_script remote provider_scope manifest ca unit_ compute token =
      before ++ SETTINGS_COMMAND ++ rest ∧
    here_document SETTINGS_MARK (str_split (ascii_of_nat 10) rest) = Some setting_lines.
Proof.
  assert (∃ after before, bootstrap_script remote provider_scope manifest ca unit_ compute token =
    before ++ SETTINGS_COMMAND ++ agent_environment remote provider_scope compute token ++
      SETTINGS_MARK ++ String (ascii_of_nat 10) after) as (after & before & Hscript).
  { eexists. unfold bootstrap_script.
    do 12 apply ends_after. eexists (String (ascii_of_nat 10) EmptyString). reflexivity. }
  eexists before, _. split; [exact Hscript|]. rewrite agent_environment_lines.
  apply here_document_unlines; [| |done].
  - eapply Forall_zip_with_written, settings_written.
  - intros Hin. apply list_elem_of_lookup in Hin as [i Hi]. unfold setting_lines in Hi.
    apply lookup_zip_with_Some in Hi as ([name value] & text & Heq & _ & _).
    assert (lacks "=" SETTINGS_MARK) as Hno by done. rewrite Heq, lacks_app, lacks_cons in Hno.
    by destruct Hno as [_ [? _]].
Qed.

(** ** The agent's configuration *)

Abbreviation agent_env := (with_vars agent_settings (λ _, None)).

Lemma agent_env_var name value :
  List.find (λ '(k, _), String.eqb name k) agent_settings = Some (name, value) →
  bytes_all plain_byte value = true → env_var agent_env name = Ok value.
Proof.
  intros Hf Hv. unfold env_var, with_vars. rewrite Hf.
  by rewrite ascii_utf8_valid by by apply plain_bytes_ascii.
Qed.
Lemma agent_env_unset name :
  List.find (λ '(k, _), String.eqb name k) agent_settings = None →
  env_var agent_env name = Err NotPresent ∧ env_var_os agent_env name = None.
Proof. intros Hf. unfold env_var, env_var_os, with_vars. by rewrite Hf. Qed.

Lemma agent_integer name n default :
  List.find (λ '(k, _), String.eqb name k) agent_settings = Some (name, u64_to_string n) →
  0 ≤ n ≤ u64_max → node_env_integer agent_env name default = Ok n.
Proof.
  intros Hf Hn. unfold node_env_integer. rewrite (agent_env_var name (u64_to_string n) Hf).
  - by rewrite u64_text_round_trip.
  - by apply u64_text_plain.
Qed.
Lemma agent_required name value :
  List.find (λ '(k, _), String.eqb name k) agent_settings = Some (name, value) →
  bytes_all plain_byte value = true → node_required agent_env name = Ok value.
Proof. intros Hf Hv. unfold node_required, node_optional. by rewrite (agent_env_var name value Hf Hv). Qed.
Lemma agent_default_integer name default :
  List.find (λ '(k, _), String.eqb name k) agent_settings = None →
  node_env_integer agent_env name default = Ok default.
Proof. intros Hf. unfold node_env_integer. by destruct (agent_env_unset name Hf) as [-> _]. Qed.

Hypothesis address_ok : text_ok (ra_public_address remote) MAX_ADDRESS_CHARS.
Hypothesis server_name_ok : text_ok (ra_tls_server_name remote) Environment.MAX_SERVER_NAME_CHARS.
Hypothesis server_name_dns : dns_name_ok (ra_tls_server_name remote) = true.
Hypothesis token_ok : text_ok token NODE_MAX_CONNECTION_TOKEN_CHARS.
Hypothesis scope_ok : text_ok provider_scope NODE_MAX_LOCAL_SCOPE_CHARS.
Hypothesis scope_bytes : bytes_all is_scope_byte provider_scope = true.
Hypothesis frame_positive : ra_max_frame_bytes remote ≠ 0.
Hypothesis timeout_positive : as_secs (ra_node_operation_timeout remote) ≠ 0.

Lemma agent_tls : tls_config agent_env = Ok (Some {|
  ca_certificate := REMOTE_CA_PATH; tls_server_name := ra_tls_server_name remote |}).
Proof.
  unfold tls_config, node_optional.
  rewrite (agent_env_var "MCSERVER_NODE_AGENT_TLS_CA_CERTIFICATE" REMOTE_CA_PATH eq_refl eq_refl).
  rewrite (agent_env_var "MCSERVER_NODE_AGENT_TLS_SERVER_NAME" _ eq_refl server_name_plain).
  cbn [mbind result_bind]. rewrite text_ok_validates by done. unfold node_validate_dns_name.
  by rewrite server_name_dns.
Qed.

Lemma agent_configured effective_uid :
  ∃ n, node_from_env agent_env effective_uid = Ok n ∧
    nc_control_plane_address n = ra_public_address remote ∧
    nc_tls n = Some {| ca_certificate := REMOTE_CA_PATH; tls_server_name := ra_tls_server_name remote |} ∧
    nc_compute_instance_id n = ci_id compute ∧ nc_connection_token n = token ∧
    nc_local_scope n = provider_scope ∧ nc_data_access_mode n = DAM.Host ∧
    nc_max_frame_bytes n = ra_max_frame_bytes remote ∧
    nc_command_timeout n = from_secs (as_secs (ra_node_operation_timeout remote)).
Proof.
  unfold node_from_env.
  rewrite (agent_required "MCSERVER_NODE_AGENT_CONTROL_PLANE_ADDRESS" _ eq_refl address_plain).
  cbn [mbind result_bind]. rewrite text_ok_validates by exact address_ok.
  rewrite agent_tls. cbn [mbind result_bind check_plain_address].
  rewrite (agent_required "MCSERVER_NODE_AGENT_COMPUTE_INSTANCE_ID" _ eq_refl uuid_plain).
  cbn [mbind result_bind]. rewrite uuid_round_trip. cbn [mbind result_bind map_err].
  rewrite (agent_required "MCSERVER_NODE_AGENT_CONNECTION_TOKEN" _ eq_refl token_plain).
  cbn [mbind result_bind]. rewrite text_ok_validates by exact token_ok.
  rewrite (agent_required "MCSERVER_NODE_AGENT_STATE_DIRECTORY" REMOTE_STATE_DIRECTORY eq_refl eq_refl).
  cbn [mbind result_bind]. unfold optional_non_blank, node_optional.
  rewrite (agent_env_var "MCSERVER_NODE_AGENT_LOCAL_SCOPE" _ eq_refl scope_plain).
  cbn [mbind result_bind from_option id]. rewrite text_ok_validates by exact scope_ok.
  cbn [mbind result_bind]. rewrite scope_bytes. cbn [negb err_if mbind result_bind].
  unfold data_access_mode, node_optional.
  rewrite (agent_env_var "MCSERVER_NODE_AGENT_DATA_ACCESS_MODE" "host" eq_refl eq_refl).
  change (parse_data_access_mode (from_option id DEFAULT_DATA_ACCESS_MODE (Some "host"))) with
    (Ok (E := NodeConfigError) (Some DAM.Host)).
  cbn [mbind result_bind]. unfold node_parse_positive_usize, node_parse_positive_duration.
  rewrite (agent_integer "MCSERVER_NODE_AGENT_MAX_FRAME_BYTES" _ _ eq_refl frame_range).
  rewrite (agent_integer "MCSERVER_NODE_AGENT_COMMAND_TIMEOUT_SECONDS" _ _ eq_refl timeout_range).
  rewrite !agent_default_integer by reflexivity. cbn [mbind result_bind].
  rewrite (proj2 (Z.eqb_neq _ _) frame_positive), (proj2 (Z.eqb_neq _ _) timeout_positive).
  eexists. split; [reflexivity|]. by split_and!.
Qed.
End settings.

Section machines.
Context `{CodecLaws} (url_parse : string → option Url).
Context (env : environment_vars) (files : string → result io_error string) (c : Config).

Lemma budget_seconds node call :
  response_budget node call → (∃ v, 1 ≤ v ≤ u64_max ∧ call = from_secs v) →
  1 ≤ as_secs node ≤ u64_max ∧
  (from_secs 6 ≤ call → from_secs (as_secs node) + from_secs 5 = call) ∧
  (call < from_secs 6 → from_secs (as_secs node) = from_secs 1).
Proof.
  unfold response_budget, from_secs, as_secs, NANOS_PER_SEC. intros (Hrange & Hlong & Hshort) (v & Hv & ->).
  assert (node = 1 * 1000000000 ∨ node = (v - 5) * 1000000000) as [-> | ->] by lia;
    rewrite Z.div_mul by lia; lia.
Qed.

(** What a bootstrap is made of. *)
Lemma build_bootstrap_ok base64_encode manifest_to_vec remote provider_scope file instance compute evs b :
  trace (build_bootstrap base64_encode manifest_to_vec remote provider_scope file instance compute) evs
    (Some (Ok b)) →
  ∃ token manifest ca, ci_enrollment_token compute = Some token ∧
    user_data_base64 b = base64_encode (bootstrap_script remote provider_scope manifest ca
      (base64_encode systemd_unit) compute token).
Proof.
  unfold build_bootstrap. intros Ht.
  apply trace_try_ok in Ht as (? & ? & keys & -> & _ & Ht).
  apply trace_try_ok in Ht as (? & ? & ca & -> & _ & Ht).
  destruct (str_contains_nul ca); [by apply trace_ret_inv in Ht as [_ ?]|].
  apply trace_try_ok in Ht as (? & ? & token & -> & [_ Htoken]%trace_ret_inv & Ht).
  apply trace_try_ok in Ht as (? & ? & manifest & -> & _ & Ht).
  apply trace_ret_inv in Ht as [_ [= ->]].
  exists token, (base64_encode manifest), (base64_encode ca). split; [|done].
  by destruct (ci_enrollment_token compute); simplify_eq/=.
Qed.

(** C32. A machine that is started with an accepted configuration comes up: the script
    that it is given has a command that writes settings to the file the agent's
    service reads, these are read back as they were meant, and the agent's own checks
    accept them, with TLS to the configured name, the enrollment token of its compute
    instance (64 hexadecimal digits, as the control plane makes them), the control
    plane's frame limit, and a command timeout 5 s shorter than the control plane's
    own (of one second when that is less than 6 s). *)
Theorem machine_settings_are_accepted base64_encode manifest_to_vec remote akamai file instance compute
    effective_uid evs b :
  from_env url_parse env files = Ok c → cfg_remote_agent c = Some remote → cfg_akamai c = Some akamai →
  bytes_all plain_byte (uuid_to_string (ci_id compute)) = true →
  (∀ token, ci_enrollment_token compute = Some token →
     str_len token = 64 ∧ bytes_all is_ascii_hexdigit token = true) →
  trace (build_bootstrap base64_encode manifest_to_vec remote (scope akamai) file instance compute) evs
    (Some (Ok b)) →
  ∃ token before rest document settings n,
    ci_enrollment_token compute = Some token ∧
    user_data_base64 b = base64_encode (before ++ "cat > /etc/mcserver/node-agent.env <<'MCSERVER_AGENT_ENV'
" ++ rest) ∧
    here_document "MCSERVER_AGENT_ENV" (str_split (ascii_of_nat 10) rest) = Some document ∧
    environment_file (unlines document) = Some settings ∧
    node_from_env (with_vars settings (λ _, None)) effective_uid = Ok n ∧
    nc_control_plane_address n = ra_public_address remote ∧
    nc_tls n = Some {| ca_certificate := REMOTE_CA_PATH; tls_server_name := ra_tls_server_name remote |} ∧
    nc_compute_instance_id n = ci_id compute ∧ nc_connection_token n = token ∧
    nc_local_scope n = scope akamai ∧ nc_data_access_mode n = DAM.Host ∧
    nc_max_frame_bytes n = cfg_max_frame_bytes c ∧
    (from_secs 6 ≤ cfg_agent_command_timeout c →
       nc_command_timeout n + from_secs 5 = cfg_agent_command_timeout c) ∧
    (cfg_agent_command_timeout c < from_secs 6 → nc_command_timeout n = from_secs 1).
Proof.
  intros Hc Hremote Hakamai Huuid Htokens (token & manifest & ca & Htoken & Hb)%build_bootstrap_ok.
  destruct (Htokens _ Htoken) as [Hlen Hhex]. pose proof (from_env_ok _ _ _ _ Hc) as Hok.
  destruct (config_remote _ _ Hok _ Hremote) as (Haddress & Hplain & Hname & Hframe & _ & Htime & Hdns & _).
  destruct (config_akamai _ _ Hok _ Hakamai) as (r & _ & Hscope & Hbytes & _).
  pose proof (config_frames _ _ Hok) as Hframes. pose proof (config_command_timeout _ _ Hok) as Hbound.
  assert (bytes_all plain_byte token = true) as Htp.
  { eapply bytes_all_impl; [|exact Hhex]. intros x. by destruct x as [[] [] [] [] [] [] [] []]. }
  assert (bytes_all plain_byte (scope akamai) = true) as Hsp.
  { eapply bytes_all_impl; [|exact Hbytes]. intros x. by destruct x as [[] [] [] [] [] [] [] []]. }
  destruct (budget_seconds _ _ Htime Hbound) as (Hsecs & Hlong & Hshort).
  rewrite <- Hframe in Hframes |- *.
  destruct (agent_configured remote (scope akamai) compute token) with (effective_uid := effective_uid)
    as (n & Hn & ? & ? & ? & ? & ? & ? & ? & Htimeout); try done; try lia.
  - by apply dns_name_plain.
  - apply plain_text_ok; [done|by intros ->|]. rewrite Hlen. by vm_compute.
  - destruct Hscope as (? & ? & Hcount). split_and!; [done..|]. etrans; [exact Hcount|by vm_compute].
  - destruct (script_writes_settings remote (scope akamai) compute token)
      with (manifest := manifest) (ca := ca) (unit_ := base64_encode systemd_unit)
      as (before & rest & Hscript & Hdocument); try done; try lia; [by apply dns_name_plain|].
    rewrite Hscript in Hb.
    exists token, before, rest, (setting_lines remote (scope akamai) compute token),
      (agent_settings remote (scope akamai) compute token), n.
    rewrite Htimeout. split_and!; try done.
    apply settings_read; try done; try lia. by apply dns_name_plain.
Qed.
End machines.

(** ** Examples *)

Section witnesses.
#[local] Existing Instances bits_codec bits_codec_laws.

Definition machine_token : string := "0123456789abcdef0123456789abcdef0123456789abcdef0123456789abcdef".
Definition machine_compute : ComputeInstance := {|
  ci_id := 13%N; ci_server_instance_id := 12%N; ci_provider := CP.Akamai;
  ci_provider_instance_id := None; ci_public_ipv4 := None; ci_process_id := None;
  ci_connection_token := "t"; ci_enrollment_token := Some machine_token; ci_agent_connected_at := None;
  ci_shutdown_requested_at := None; ci_terminated_at := None; ci_terminal_result := None;
  ci_failure_message := None; ci_created_at := 1; ci_updated_at := 1 |}.

(** The parts of an accepted configuration. *)
Definition machine_config : option (Config * RemoteAgentConfig * AkamaiConfig) :=
  match from_env example_urls example_env example_files with
  | Ok c => r ← cfg_remote_agent c; a ← cfg_akamai c; Some (c, r, a)
  | Err _ => None
  end.

(** The files are there, and the texts are written as they are. *)
Definition machine_files (X : Type) (o : bootstrap_op X) : option X :=
  match o with
  | FileLength _ => Some (Ok 32)
  | ReadWholeFile _ => Some (Ok "ssh-ed25519 AAAA operator")
  end.
Definition machine_spec : ServerSpec := {|
  spec_compute := CS.Akamai "jp-osa" "g6-dedicated-4" "linode/debian12" 7;
  spec_process := {| container_image := "itzg/minecraft-server"; server_type := "VANILLA";
    version := "1.21"; host_port := 25565; stop_timeout_seconds := 60; accept_eula := true;
    environment := [] |};
  spec_data := {| backend := DB.R2Restic; repository := "s3:repository" |} |}.
Definition machine_instance : ServerInstance := {|
  si_id := 12%N; si_server_id := 11%N; si_server_generation := 1; si_resolved_spec := machine_spec;
  si_fencing_token := 1; si_source_snapshot_id := None; si_data_prepared_at := None;
  si_process_running := false; si_process_observed_at := None; si_result_snapshot_id := None;
  si_last_error := None; si_stop_requested_at := None; si_terminated_at := None;
  si_terminal_result := None; si_created_at := 1; si_updated_at := 1 |}.
Definition machine_bootstrap (r : RemoteAgentConfig) (a : AkamaiConfig) :
    bootstrap_prog (result BootstrapError Bootstrap) :=
  build_bootstrap id (λ _, Ok "manifest") r (scope a) "/etc/mcserver/keys" machine_instance machine_compute.

Lemma machine_settings_are_accepted_witness :
  ∃ c r a b settings n, machine_config = Some (c, r, a) ∧
    (replay machine_files (machine_bootstrap r a)).2 = Some (Ok b) ∧
    node_from_env (with_vars settings (λ _, None)) (Ok 0) = Ok n ∧ nc_connection_token n = machine_token.
Proof.
  assert (match machine_config with
          | Some (_, r, a) => match (replay machine_files (machine_bootstrap r a)).2 with
                              | Some (Ok _) => true | _ => false end
          | None => false end = true) as Hs by by vm_compute.
  destruct machine_config as [[[c r] a]|] eqn:He; [|discriminate Hs].
  unfold machine_config in He.
  destruct (from_env example_urls example_env example_files) as [c'|] eqn:Hc; [|discriminate He].
  destruct (cfg_remote_agent c') as [r'|] eqn:Hr; cbn [mbind option_bind] in He; [|discriminate He].
  destruct (cfg_akamai c') as [a'|] eqn:Ha; cbn [mbind option_bind] in He; [|discriminate He].
  injection He as <- <- <-.
  pose proof (replay_trace machine_files (machine_bootstrap r' a')) as Ht.
  destruct (replay machine_files (machine_bootstrap r' a')) as [evs [[b|]|]] eqn:Hrun; [|discriminate Hs..].
  cbn [fst snd] in Ht.
  destruct (machine_settings_are_accepted example_urls example_env example_files c' id (λ _, Ok "manifest")
    r' a' "/etc/mcserver/keys" machine_instance machine_compute (Ok 0) evs b Hc Hr Ha)
    as (token & before & rest & document & settings & n & Htoken & _ & _ & _ & Hn & _ & _ & _ & Hnt & _);
    [reflexivity| |exact Ht|].
  { intros token [= <-]. split; reflexivity. }
  injection Htoken as <-.
  exists c', r', a', b, settings, n. split; [reflexivity|].
  split; [rewrite Hrun; reflexivity|]. split; [exact Hn|exact Hnt].
Defined.
End witnesses.
