(* ===== verification/CertificateAuthority.v ===== *)
(** The certificates of remote agents
    (crates/mcserver-control-plane/src/infrastructure/agent_certificate_authority.rs):
    commands of openssl, and the files they work on. A signed certificate went through
    all of them, and the control plane never records a longer life than it has. *)
From S2P Require Import Prelude Text Net NetFacts Environment Config Programs Framing Server.
From S2P Require Import Instances Database Codecs NodeConfig NodeAgent AgentServer.
From S2P Require Import ConfigProperties Bootstrap.
From Stdlib Require Import Ascii.
#[local] Open Scope string_scope.
#[local] Open Scope Z_scope.
#[local] Open Scope prog_scope.

Definition MAX_CSR_BYTES : Z := 32 * 1024.
Definition MAX_CERTIFICATE_BYTES : Z := 64 * 1024.
Definition SERVER_CERTIFICATE_MINIMUM_REMAINING_SECONDS : Z := 24 * 60 * 60.

Module ACT.
(** [AgentCertificateError]. *)
Inductive AgentCertificateError :=
| Io (source : io_error)
| CommandTimeout (description : string)
| CommandFailed (description : string) (status : option Z) (stderr : string)
| InvalidCsr
| CsrTooLarge
| CertificateTooLarge
| FileTooLarge (path : string) (maximum : Z)
| Utf8
| KeyMismatch (description : string)
| TimestampOutOfRange.
End ACT.
Abbreviation AgentCertificateError := ACT.AgentCertificateError.

Inductive ca_op : Type → Type :=
(* a command of openssl; [None] when it did not end in COMMAND_TIMEOUT *)
| CaOpenssl (arguments : list string) : ca_op (option (result io_error Output))
| CaCreateDirectory (path : string) : ca_op (result io_error unit)
| CaRestrict (path : string) (mode : Z) : ca_op (result io_error unit)
| CaRemoveDirectory (path : string) : ca_op (result io_error unit)
| CaWriteFile (path content : string) : ca_op (result io_error unit)
| CaFileLength (path : string) : ca_op (result io_error Z)
| CaReadFile (path : string) : ca_op (result io_error string)
| CaNewUuid : ca_op Uuid.
Abbreviation ca_prog := (gprog ca_op).

(** ** Files *)

Definition ca_private_directory (path : string) : ca_prog (result io_error unit) :=
  let? _ := perform (CaCreateDirectory path) via id in
  perform (CaRestrict path 448).

Definition write_private (path content : string) : ca_prog (result io_error unit) :=
  let? _ := perform (CaWriteFile path content) via id in
  perform (CaRestrict path 384).

Definition ca_read_bounded (path : string) (maximum : Z) : ca_prog (result AgentCertificateError string) :=
  let? length := perform (CaFileLength path) via ACT.Io in
  if maximum <? length then Ret (Err (ACT.FileTooLarge path maximum))
  else
    let? content := perform (CaReadFile path) via ACT.Io in
    Ret (Ok content).

(** ** Requests *)

Definition validate_csr (value : string) : result AgentCertificateError unit :=
  _ ← err_if (MAX_CSR_BYTES <? str_len value) ACT.CsrTooLarge;
  err_if (str_contains_nul value || negb (str_contains "-----BEGIN CERTIFICATE REQUEST-----" value)
          || negb (str_contains "-----END CERTIFICATE REQUEST-----" value)) ACT.InvalidCsr.

(** [u64::div_ceil]. *)
Definition div_ceil (a b : Z) : Z := (a + b - 1) / b.

Section authority.
Context `{Codec}.

(** [Uuid::simple], [String::from_utf8_lossy]. *)
Variable uuid_simple : Uuid → string.
Variable from_utf8_lossy : bytes → string.
(** The configuration the authority is made of. *)
Variable config : RemoteAgentConfig.

Definition ca_run (arguments : list string) (description : string) :
    ca_prog (result AgentCertificateError Output) :=
  let! output := perform (CaOpenssl arguments) in
  match output with
  | None => Ret (Err (ACT.CommandTimeout description))
  | Some (Err error) => Ret (Err (ACT.Io error))
  | Some (Ok output) =>
      if succeeded output then Ret (Ok output)
      else Ret (Err (ACT.CommandFailed description (out_status output)
        (bounded_diagnostic from_utf8_lossy (out_stderr output))))
  end.

Definition ca_run_stdout (arguments : list string) (description : string) :
    ca_prog (result AgentCertificateError bytes) :=
  let? output := ca_run arguments description via id in
  Ret (Ok (out_stdout output)).

Definition verify_key_pair (certificate private_key description : string) :
    ca_prog (result AgentCertificateError unit) :=
  let? certificate_public_key :=
    ca_run_stdout ["x509"; "-in"; certificate; "-pubkey"; "-noout"] description via id in
  let? private_public_key := ca_run_stdout ["pkey"; "-in"; private_key; "-pubout"] description via id in
  if negb (bool_decide (certificate_public_key = private_public_key))
  then Ret (Err (ACT.KeyMismatch description))
  else Ret (Ok tt).

Definition ca_preflight : ca_prog (result AgentCertificateError unit) :=
  let? _ := verify_key_pair (ra_tls_certificate config) (ra_tls_private_key config)
    "remote TLS server certificate" via id in
  let? _ := verify_key_pair (ra_client_ca_certificate config) (ra_client_ca_private_key config)
    "agent client CA certificate" via id in
  let? _ := ca_run ["x509"; "-checkend"; u64_to_string SERVER_CERTIFICATE_MINIMUM_REMAINING_SECONDS;
      "-noout"; "-in"; ra_tls_certificate config]
    "check remote TLS server certificate lifetime" via id in
  let? _ := ca_run ["x509"; "-checkhost"; ra_tls_server_name config; "-noout"; "-in";
      ra_tls_certificate config] "check remote TLS server certificate name" via id in
  let? _ := ca_run ["x509"; "-checkend"; u64_to_string (as_secs (ra_certificate_validity config));
      "-noout"; "-in"; ra_client_ca_certificate config]
    "check agent client CA certificate lifetime" via id in
  let? _ := ca_run ["verify"; "-CAfile"; ra_client_ca_certificate config;
      ra_client_ca_certificate config] "verify agent client CA certificate" via id in
  Ret (Ok tt).

(** ** Signing *)

Definition agent_identity (compute_instance_id : ComputeInstanceId) : string :=
  "spiffe://" ++ ra_trust_domain config ++ "/mcserver/compute/" ++ uuid_to_string compute_instance_id.

Definition certificate_extensions (compute_instance_id : ComputeInstanceId) : string :=
  "[agent_cert]
basicConstraints=critical,CA:FALSE
keyUsage=critical,digitalSignature
extendedKeyUsage=critical,clientAuth
subjectAltName=URI:" ++ agent_identity compute_instance_id ++ "
subjectKeyIdentifier=hash
authorityKeyIdentifier=keyid,issuer
".

Definition validity_days : Z := Z.max (div_ceil (as_secs (ra_certificate_validity config)) (24 * 60 * 60)) 1.

Definition sign_arguments (compute_instance_id : ComputeInstanceId)
    (csr_path extension_path leaf_path : string) : list string :=
  ["x509"; "-req"; "-in"; csr_path; "-CA"; ra_client_ca_certificate config;
   "-CAkey"; ra_client_ca_private_key config;
   "-set_serial"; "0x" ++ uuid_simple compute_instance_id; "-days"; u64_to_string validity_days;
   "-sha256"; "-copy_extensions"; "none"; "-subj"; "/CN=" ++ uuid_to_string compute_instance_id;
   "-extfile"; extension_path; "-extensions"; "agent_cert"; "-out"; leaf_path].

(** The certificate, from the contents of the files. *)
Definition signed_certificate (leaf_pem ca_pem leaf_der : string) (issued_at : Z) :
    result AgentCertificateError SignedCertificate :=
  _ ← err_if (negb (utf8_valid leaf_pem)) ACT.Utf8;
  let chain := if from_option (byte_is NEWLINE) false (str_last_byte leaf_pem) then leaf_pem
               else leaf_pem ++ String NEWLINE EmptyString in
  _ ← err_if (negb (utf8_valid ca_pem)) ACT.Utf8;
  let chain := chain ++ ca_pem in
  _ ← err_if (MAX_CERTIFICATE_BYTES <? str_len chain) ACT.CertificateTooLarge;
  validity_ms ← ok_or ACT.TimestampOutOfRange (i64_try_from (as_millis (ra_certificate_validity config)));
  let expires_at := issued_at + validity_ms in
  _ ← err_if (i64_max <? expires_at) ACT.TimestampOutOfRange;
  expires_at ← map_err (λ _, ACT.TimestampOutOfRange) (UnixTimestampMillis_from_millis expires_at);
  Ok {| signed_certificate_chain_pem := chain; signed_leaf_der := leaf_der;
        signed_expires_at := expires_at |}.

Definition sign_in_directory (compute_instance_id : ComputeInstanceId) (csr : string) (issued_at : Z)
    (directory : string) : ca_prog (result AgentCertificateError SignedCertificate) :=
  let csr_path := path_join directory "request.pem" in
  let extension_path := path_join directory "extensions.cnf" in
  let leaf_path := path_join directory "certificate.pem" in
  let der_path := path_join directory "certificate.der" in
  let? _ := write_private csr_path csr via ACT.Io in
  let? _ := write_private extension_path (certificate_extensions compute_instance_id) via ACT.Io in
  let? _ := ca_run ["req"; "-in"; csr_path; "-noout"; "-verify"]
    "verify agent certificate signing request" via id in
  let? _ := ca_run (sign_arguments compute_instance_id csr_path extension_path leaf_path)
    "sign agent client certificate" via id in
  let? _ := ca_run ["verify"; "-purpose"; "sslclient"; "-CAfile"; ra_client_ca_certificate config;
      leaf_path] "verify signed agent client certificate" via id in
  let? _ := ca_run ["x509"; "-in"; leaf_path; "-outform"; "DER"; "-out"; der_path]
    "encode agent client certificate" via id in
  let? leaf_pem := ca_read_bounded leaf_path MAX_CERTIFICATE_BYTES via id in
  let? ca_pem := ca_read_bounded (ra_client_ca_certificate config) MAX_CERTIFICATE_BYTES via id in
  let? leaf_der := ca_read_bounded der_path MAX_CERTIFICATE_BYTES via id in
  Ret (signed_certificate leaf_pem ca_pem leaf_der issued_at).

(** [sign]; the directory of the request is to be removed whatever came of it, and a
    failure of that is only logged. *)
Definition sign (compute_instance_id : ComputeInstanceId) (csr : string) (issued_at : Z) :
    ca_prog (result AgentCertificateError SignedCertificate) :=
  let? _ := Ret (validate_csr csr) via id in
  let? _ := ca_private_directory (ra_certificate_work_directory config) via ACT.Io in
  let! nonce := perform CaNewUuid in
  let request_directory := path_join (ra_certificate_work_directory config)
    (uuid_to_string compute_instance_id ++ "-" ++ uuid_to_string nonce) in
  let? _ := ca_private_directory request_directory via ACT.Io in
  let! result := sign_in_directory compute_instance_id csr issued_at request_directory in
  let! _ := perform (CaRemoveDirectory request_directory) in
  Ret result.
End authority.

Section authority.
Context `{Codec} (uuid_simple : Uuid → string) (from_utf8_lossy : bytes → string).
Context (config : RemoteAgentConfig).

#[local] Abbreviation ca_sign := (sign uuid_simple from_utf8_lossy config).

(** ** The steps *)

Lemma ca_run_ok arguments description evs output :
  trace (ca_run from_utf8_lossy arguments description) evs (Some (Ok output)) →
  evs = [GEvent (CaOpenssl arguments) (Some (Ok output))] ∧ succeeded output = true.
Proof.
  unfold ca_run. intros [[_ ?]|(e1 & e2 & x & -> & Ho & Ht)]%trace_bind_inv; [done|].
  apply trace_perform in Ho as ->.
  destruct x as [[o|e]|]; [destruct (succeeded o) eqn:Hs|..]; apply trace_ret_inv in Ht as [-> Heq];
    simplify_eq. done.
Qed.
Lemma ca_read_bounded_ok path maximum evs content :
  trace (ca_read_bounded path maximum) evs (Some (Ok content)) →
  ∃ n, n ≤ maximum ∧ evs = [GEvent (CaFileLength path) (Ok n); GEvent (CaReadFile path) (Ok content)].
Proof.
  unfold ca_read_bounded. intros (e1 & e2 & n & -> & Hl & Ht)%trace_try_ok.
  apply trace_perform in Hl as ->. destruct (Z.ltb_spec maximum n).
  { by apply trace_ret_inv in Ht as [_ ?]. }
  apply trace_try_ok in Ht as (e3 & e4 & c & -> & Hr & Ht). apply trace_perform in Hr as ->.
  apply trace_ret_inv in Ht as [-> [= <-]]. eauto.
Qed.
Lemma write_private_ok path content evs u :
  trace (write_private path content) evs (Some (Ok u)) →
  evs = [GEvent (CaWriteFile path content) (Ok tt); GEvent (CaRestrict path 384) (Ok tt)].
Proof.
  unfold write_private. intros (e1 & e2 & [] & -> & Hw%trace_perform & Hr%trace_perform)%trace_try_ok.
  destruct u. by subst.
Qed.
Lemma private_directory_ok path evs u :
  trace (ca_private_directory path) evs (Some (Ok u)) →
  evs = [GEvent (CaCreateDirectory path) (Ok tt); GEvent (CaRestrict path 448) (Ok tt)].
Proof.
  unfold ca_private_directory. intros (e1 & e2 & [] & -> & Hw%trace_perform & Hr%trace_perform)%trace_try_ok.
  destruct u. by subst.
Qed.

(** ** What was done for a certificate *)

Record signing := {
  s_nonce : Uuid;
  s_checked : Output;
  s_signed : Output;
  s_verified : Output;
  s_encoded : Output;
  s_lengths : Z * Z * Z;
  s_leaf : string;
  s_ca : string;
  s_der : string;
}.

Definition request_directory (id : ComputeInstanceId) (s : signing) : string :=
  path_join (ra_certificate_work_directory config) (uuid_to_string id ++ "-" ++ uuid_to_string (s_nonce s)).

Definition signing_events (id : ComputeInstanceId) (csr : string) (s : signing) : list (gevent ca_op) :=
  let directory := request_directory id s in
  let csr_path := path_join directory "request.pem" in
  let extension_path := path_join directory "extensions.cnf" in
  let leaf_path := path_join directory "certificate.pem" in
  let der_path := path_join directory "certificate.der" in
  [GEvent (CaWriteFile csr_path csr) (Ok tt); GEvent (CaRestrict csr_path 384) (Ok tt);
   GEvent (CaWriteFile extension_path (certificate_extensions config id)) (Ok tt);
   GEvent (CaRestrict extension_path 384) (Ok tt);
   GEvent (CaOpenssl ["req"; "-in"; csr_path; "-noout"; "-verify"]) (Some (Ok (s_checked s)));
   GEvent (CaOpenssl (sign_arguments uuid_simple config id csr_path extension_path leaf_path))
     (Some (Ok (s_signed s)));
   GEvent (CaOpenssl ["verify"; "-purpose"; "sslclient"; "-CAfile"; ra_client_ca_certificate config;
     leaf_path]) (Some (Ok (s_verified s)));
   GEvent (CaOpenssl ["x509"; "-in"; leaf_path; "-outform"; "DER"; "-out"; der_path])
     (Some (Ok (s_encoded s)));
   GEvent (CaFileLength leaf_path) (Ok (s_lengths s).1.1); GEvent (CaReadFile leaf_path) (Ok (s_leaf s));
   GEvent (CaFileLength (ra_client_ca_certificate config)) (Ok (s_lengths s).1.2);
   GEvent (CaReadFile (ra_client_ca_certificate config)) (Ok (s_ca s));
   GEvent (CaFileLength der_path) (Ok (s_lengths s).2); GEvent (CaReadFile der_path) (Ok (s_der s))].

(** Every command succeeded, and no file was longer than 64 KiB when it was read. *)
Definition signing_ok (s : signing) : Prop :=
  (succeeded (s_checked s) = true ∧ succeeded (s_signed s) = true ∧ succeeded (s_verified s) = true ∧
   succeeded (s_encoded s) = true) ∧
  (s_lengths s).1.1 ≤ 65536 ∧ (s_lengths s).1.2 ≤ 65536 ∧ (s_lengths s).2 ≤ 65536.

(** A signing request as openssl gets it. *)
Definition csr_plausible (csr : string) : Prop :=
  str_len csr ≤ 32768 ∧ str_contains_nul csr = false ∧
  str_contains "-----BEGIN CERTIFICATE REQUEST-----" csr = true ∧
  str_contains "-----END CERTIFICATE REQUEST-----" csr = true.

Lemma validate_csr_ok csr : validate_csr csr = Ok tt → csr_plausible csr.
Proof. unfold validate_csr. intros Hv. inv_res. bz. done. Qed.

Lemma sign_in_directory_ok id csr issued_at nonce evs certificate :
  let directory := path_join (ra_certificate_work_directory config)
    (uuid_to_string id ++ "-" ++ uuid_to_string nonce) in
  trace (sign_in_directory uuid_simple from_utf8_lossy config id csr issued_at directory) evs
    (Some (Ok certificate)) →
  ∃ s, s_nonce s = nonce ∧ evs = signing_events id csr s ∧ signing_ok s ∧
    signed_certificate config (s_leaf s) (s_ca s) (s_der s) issued_at = Ok certificate.
Proof.
  intros directory Ht. unfold sign_in_directory in Ht.
  apply trace_try_ok in Ht as (? & ? & ? & -> & ->%write_private_ok & Ht).
  apply trace_try_ok in Ht as (? & ? & ? & -> & ->%write_private_ok & Ht).
  apply trace_try_ok in Ht as (? & ? & o1 & -> & [-> H1]%ca_run_ok & Ht).
  apply trace_try_ok in Ht as (? & ? & o2 & -> & [-> H2]%ca_run_ok & Ht).
  apply trace_try_ok in Ht as (? & ? & o3 & -> & [-> H3]%ca_run_ok & Ht).
  apply trace_try_ok in Ht as (? & ? & o4 & -> & [-> H4]%ca_run_ok & Ht).
  apply trace_try_ok in Ht as (? & ? & leaf & -> & (n1 & Hn1 & ->)%ca_read_bounded_ok & Ht).
  apply trace_try_ok in Ht as (? & ? & ca & -> & (n2 & Hn2 & ->)%ca_read_bounded_ok & Ht).
  apply trace_try_ok in Ht as (? & ? & der & -> & (n3 & Hn3 & ->)%ca_read_bounded_ok & Ht).
  apply trace_ret_inv in Ht as [-> Hc].
  exists {| s_nonce := nonce; s_checked := o1; s_signed := o2; s_verified := o3; s_encoded := o4;
            s_lengths := (n1, n2, n3); s_leaf := leaf; s_ca := ca; s_der := der |}. done.
Qed.

Definition opening_events (id : ComputeInstanceId) (s : signing) : list (gevent ca_op) :=
  let work := ra_certificate_work_directory config in
  [GEvent (CaCreateDirectory work) (Ok tt); GEvent (CaRestrict work 448) (Ok tt);
   GEvent CaNewUuid (s_nonce s);
   GEvent (CaCreateDirectory (request_directory id s)) (Ok tt);
   GEvent (CaRestrict (request_directory id s) 448) (Ok tt)].

Lemma sign_ok id csr issued_at evs certificate :
  trace (ca_sign id csr issued_at) evs (Some (Ok certificate)) →
  csr_plausible csr ∧ ∃ s removed,
    evs = (opening_events id s ++ signing_events id csr s ++
           [GEvent (CaRemoveDirectory (request_directory id s)) removed])%list ∧ signing_ok s ∧
    signed_certificate config (s_leaf s) (s_ca s) (s_der s) issued_at = Ok certificate.
Proof.
  intros Ht. unfold sign in Ht.
  apply trace_try_ok in Ht as (? & ? & [] & -> & [-> Hcsr]%trace_ret_inv & Ht).
  split; [apply validate_csr_ok; congruence|].
  apply trace_try_ok in Ht as (? & ? & ? & -> & ->%private_directory_ok & Ht).
  apply trace_bind_inv in Ht as [[_ ?]|(? & ? & nonce & -> & ->%trace_perform & Ht)]; [done|].
  apply trace_try_ok in Ht as (? & ? & ? & -> & ->%private_directory_ok & Ht).
  apply trace_bind_inv in Ht as [[_ ?]|(? & ? & r & -> & Hs & Ht)]; [done|].
  apply trace_bind_inv in Ht as [[_ ?]|(? & ? & removed & -> & ->%trace_perform & Ht)]; [done|].
  apply trace_ret_inv in Ht as [-> <-].
  apply sign_in_directory_ok in Hs as (s & <- & -> & Hok & Hc). by exists s, removed.
Qed.

(** ** The certificate *)

(** The leaf ends its line before the certificate of the authority begins. *)
Definition chain_of (leaf ca : string) : string :=
  if from_option (byte_is NEWLINE) false (str_last_byte leaf) then leaf ++ ca
  else leaf ++ String NEWLINE ca.

Lemma signed_certificate_ok leaf ca der issued_at certificate :
  signed_certificate config leaf ca der issued_at = Ok certificate →
  certificate = {| signed_certificate_chain_pem := chain_of leaf ca; signed_leaf_der := der;
                   signed_expires_at := issued_at + as_millis (ra_certificate_validity config) |} ∧
  str_len (chain_of leaf ca) ≤ MAX_CERTIFICATE_BYTES.
Proof.
  unfold signed_certificate, UnixTimestampMillis_from_millis, i64_try_from. intros Hc. inv_res.
  unfold chain_of. repeat case_match; simplify_eq; bz; split; try done.
  all: rewrite <- string_app_assoc in *; done.
Qed.

(** The days of the certificate are no fewer than its validity. *)
Lemma validity_days_enough n :
  1 ≤ n → ra_certificate_validity config = from_secs n →
  as_millis (ra_certificate_validity config) ≤ validity_days config * (24 * 60 * 60 * 1000)
    < as_millis (ra_certificate_validity config) + 24 * 60 * 60 * 1000.
Proof.
  intros Hn Hv. unfold validity_days, div_ceil, as_secs, as_millis. rewrite Hv.
  unfold from_secs, NANOS_PER_SEC. rewrite Z.div_mul by lia.
  replace (n * 1000000000) with (n * 1000 * 1000000) by lia. rewrite Z.div_mul by lia.
  set (m := n + _ - 1). pose proof (Z.div_mod m (24 * 60 * 60)) as Hd.
  pose proof (Z.mod_pos_bound m (24 * 60 * 60)) as Hm. lia.
Qed.

Lemma extensions_lines id :
  bytes_all plain_byte (ra_trust_domain config) = true → bytes_all plain_byte (uuid_to_string id) = true →
  str_lines (certificate_extensions config id) =
    ["[agent_cert]"; "basicConstraints=critical,CA:FALSE"; "keyUsage=critical,digitalSignature";
     "extendedKeyUsage=critical,clientAuth"; "subjectAltName=URI:" ++ agent_identity config id;
     "subjectKeyIdentifier=hash"; "authorityKeyIdentifier=keyid,issuer"].
Proof.
  intros Hd Hu. etrans; [|apply str_lines_unlines].
  - reflexivity.
  - rewrite !Forall_cons. split_and!; try done.
    unfold agent_identity. repeat apply one_line_app; first [by apply plain_one_line|done].
Qed.
End authority.

Section certificates.
Context `{CodecLaws} (url_parse : string → option Url).
Context (uuid_simple : Uuid → string) (from_utf8_lossy : bytes → string).
Context (env : environment_vars) (files : string → result io_error string) (c : Config).

End certificates.

(** ** Examples *)

Section witnesses.
#[local] Existing Instances bits_codec bits_codec_laws.

Definition example_csr : string := "-----BEGIN CERTIFICATE REQUEST-----
AA==
-----END CERTIFICATE REQUEST-----
".
Definition is_ok_some {E A} (r : option (result E A)) : bool :=
  match r with Some (Ok _) => true | _ => false end.
(** Every command succeeds, and the files hold what it wrote. *)
Definition example_authority (X : Type) (o : ca_op X) : option X :=
  match o with
  | CaOpenssl _ => Some (Some (Ok {| out_status := Some 0; out_stdout := []; out_stderr := [] |}))
  | CaCreateDirectory _ | CaRestrict _ _ | CaRemoveDirectory _ | CaWriteFile _ _ => Some (Ok tt)
  | CaFileLength _ => Some (Ok 11)
  | CaReadFile _ => Some (Ok "certificate")
  | CaNewUuid => Some 7%N
  end.

End witnesses.
