(* ===== verification/ControlPlane.v ===== *)
(** The process of the control plane (crates/mcserver-control-plane/src/main.rs): its
    command line, the checks and clean-up before it serves, the services it supervises
    and its shutdown. *)
From S2P Require Import Prelude Text Net Programs Framing Server Instances Database Repositories.
From S2P Require Import ComputeRepository Environment Config Effects NodeAgent AgentServer R2Credentials.
From S2P Require Import LocalCompute LocalHost AkamaiCompute ClientProtocol ClientRpc UnixSocket.
From S2P Require Import CertificateAuthority.
#[local] Open Scope string_scope.
#[local] Open Scope Z_scope.
#[local] Open Scope prog_scope.

Module CMD.
(** [Command]. *)
Inductive Command := Run | Preflight | Version | Help.
End CMD.

(** [CommandError] has the arguments. *)
Definition Command_parse (arguments : list string) : result (list string) CMD.Command :=
  match arguments with
  | [] => Ok CMD.Run
  | [argument] =>
      if String.eqb argument "run" then Ok CMD.Run
      else if String.eqb argument "--preflight" || String.eqb argument "preflight" then Ok CMD.Preflight
      else if String.eqb argument "--version" || String.eqb argument "-V" then Ok CMD.Version
      else if String.eqb argument "--help" || String.eqb argument "-h" then Ok CMD.Help
      else Err arguments
  | _ => Err arguments
  end.

(** ** Services *)

Module SN.
(** [ServiceName]. *)
Inductive ServiceName := ClientSocket | AgentServer | RemoteAgentServer | Reconciler | Unknown.
End SN.
Abbreviation ServiceName := SN.ServiceName.

Definition ServiceName_display (name : ServiceName) : string :=
  match name with
  | SN.ClientSocket => "client JSON-RPC socket"
  | SN.AgentServer => "local node-agent JSON-RPC listener"
  | SN.RemoteAgentServer => "remote TLS node-agent listener"
  | SN.Reconciler => "reconciler"
  | SN.Unknown => "service supervisor"
  end.

Module RFE.
(** [ReconcileFatalError]. *)
Inductive ReconcileFatalError := ChannelClosed.
End RFE.
Abbreviation ReconcileFatalError := RFE.ReconcileFatalError.

(** [tokio::task::JoinError]. *)
Inductive join_error := JoinCancelled | JoinPanicked (message : string).
Definition join_error_is_cancelled (e : join_error) : bool :=
  match e with JoinCancelled => true | JoinPanicked _ => false end.

Module CPE.
(** [ControlPlaneError]. *)
Inductive ControlPlaneError :=
| Repository (source : RepositoryError)
| Compute (source : ComputeError)
| Certificate (source : AgentCertificateError)
| R2TemporaryCredential (source : R2TemporaryCredentialError)
| InvalidConfiguration (message : string)
| Socket (source : UnixSocketError)
| AgentServer (source : AgentServerError)
| Reconcile (source : ReconcileFatalError)
| Signal (source : io_error)
| TaskJoin (source : join_error)
| UnexpectedServiceExit (name : ServiceName)
| ShutdownTimeout (timeout : Z).
End CPE.
Abbreviation ControlPlaneError := CPE.ControlPlaneError.

Module CPM.
(** What [main] fails with: [CommandError], [ConfigError] or [ControlPlaneError]. *)
Inductive MainError :=
| InvalidCommandLine (arguments : list string)
| Configuration (source : ConfigError)
| ControlPlane (source : ControlPlaneError).
End CPM.

Module SE.
(** [ServiceExit]. *)
Inductive ServiceExit :=
| ClientSocket (r : result UnixSocketError unit)
| AgentServer (r : result AgentServerError unit)
| RemoteAgentServer (r : result AgentServerError unit)
| Reconciler (r : result ReconcileFatalError unit).
End SE.
Abbreviation ServiceExit := SE.ServiceExit.

Definition into_error (exit : ServiceExit) (unexpected : bool) : option ControlPlaneError :=
  let ended name := if unexpected then Some (CPE.UnexpectedServiceExit name) else None in
  match exit with
  | SE.ClientSocket (Ok _) => ended SN.ClientSocket
  | SE.AgentServer (Ok _) => ended SN.AgentServer
  | SE.RemoteAgentServer (Ok _) => ended SN.RemoteAgentServer
  | SE.Reconciler (Ok _) => ended SN.Reconciler
  | SE.ClientSocket (Err error) => Some (CPE.Socket error)
  | SE.AgentServer (Err error) | SE.RemoteAgentServer (Err error) => Some (CPE.AgentServer error)
  | SE.Reconciler (Err error) => Some (CPE.Reconcile error)
  end.

Definition unexpected_service_result (completed : option (result join_error ServiceExit)) :
    ControlPlaneError :=
  match completed with
  | Some (Ok exit) => default (CPE.UnexpectedServiceExit SN.Unknown) (into_error exit true)
  | Some (Err error) => CPE.TaskJoin error
  | None => CPE.UnexpectedServiceExit SN.Unknown
  end.

(** ** Operations *)

Inductive shutdown_signal := Interrupt | Terminate.
(** [ShutdownSignal::as_str]. *)
Definition ShutdownSignal_as_str (signal : shutdown_signal) : string :=
  match signal with Interrupt => "SIGINT" | Terminate => "SIGTERM" end.

(** The first branch of the [select!] that is ready. *)
Inductive first_event :=
| FirstSignal (signal : shutdown_signal)
| FirstCompleted (completed : option (result join_error ServiceExit)).

(** [SqliteConnectOptions]: a URL and what is set on top of it. *)
Inductive SqliteJournalMode := Wal.
Inductive SqliteSynchronous := Normal.
Record SqliteConnectOptions := {
  db_url : string;
  db_create_if_missing : bool;
  db_foreign_keys : bool;
  db_journal_mode : SqliteJournalMode;
  db_synchronous : SqliteSynchronous;
  db_busy_timeout : Z;
}.

Inductive main_op : Type → Type :=
(* [SqliteConnectOptions::from_str], then [connect_with] of a pool *)
| OpenDatabase (options : SqliteConnectOptions) (max_connections : Z) : main_op (result sqlx_error unit)
| RunMigrations : main_op (result string unit)
| CloseDatabase : main_op unit
(* the managers *)
| Certificates {X} (o : ca_op X) : main_op X
| NewCredentialClient : main_op (result string unit)
| Credentials {X} (o : r2_op X) : main_op X
| OnHost {X} (o : host_op X) : main_op X
| NewAkamaiClient : main_op (result AkamaiComputeError unit)
| Managed {X} (o : op X) : main_op X
(* the listeners *)
| BindAgents (address : SocketAddr) : main_op (result AgentServerError unit)
| BindRemoteAgents (remote : RemoteAgentConfig) : main_op (result AgentServerError unit)
| BindClients (path : string) (mode : Z) : main_op (result UnixSocketError unit)
| RegisterSignals : main_op (result io_error unit)
(* the set of tasks *)
| SpawnService (name : ServiceName) : main_op unit
| FirstReady : main_op first_event
| CancelServices : main_op unit
(* the next task that ends, or [None] when the shutdown's time is up before *)
| JoinInTime : main_op (option (result join_error ServiceExit))
| AbortServices : main_op unit
| JoinAborted : main_op (result join_error ServiceExit)
| PrintLine (line : string) : main_op unit
| InitLogging : main_op unit.
Abbreviation main_prog := (gprog main_op).

Definition on_certificates (X : Type) (o : ca_op X) : main_op X := Certificates o.
Definition on_credentials (X : Type) (o : r2_op X) : main_op X := Credentials o.
Definition on_host (X : Type) (o : host_op X) : main_op X := OnHost o.
Definition on_managed (X : Type) (o : op X) : main_op X := Managed o.

(** ** The database *)

(** The options of [connect_database]. *)
Definition database_options (database_url : string) : SqliteConnectOptions := {|
  db_url := database_url;
  db_create_if_missing := true;
  db_foreign_keys := true;
  db_journal_mode := Wal;
  db_synchronous := Normal;
  db_busy_timeout := from_secs 5 |}.

Definition connect_database (database_url : string) : main_prog (result RepositoryError unit) :=
  let? _ := perform (OpenDatabase (database_options database_url) 5) via RE.Database in
  let? _ := perform RunMigrations via (λ _, RE.Migration) in
  Ret (Ok tt).

(** ** Supervision *)

(** What a completed service is to [drain_services]. *)
Definition drained_error (completed : result join_error ServiceExit) : option ControlPlaneError :=
  match completed with
  | Ok exit => into_error exit false
  | Err error => if join_error_is_cancelled error then None else Some (CPE.TaskJoin error)
  end.

(** [drain_services] with [remaining] tasks in the set, under the timeout; [None] when it
    comes first, with the tasks that remain. *)
Fixpoint drain_services (remaining : nat) (first_error : option ControlPlaneError) :
    main_prog (nat * option (result ControlPlaneError unit)) :=
  match remaining with
  | O => Ret (O, Some match first_error with Some error => Err error | None => Ok tt end)
  | S remaining =>
      let! completed := perform JoinInTime in
      match completed with
      | None => Ret (S remaining, None)
      | Some completed =>
          drain_services remaining
            (match first_error with Some error => Some error | None => drained_error completed end)
      end
  end.

(** [while services.join_next().await.is_some() {}]. *)
Fixpoint join_aborted (remaining : nat) : main_prog unit :=
  match remaining with
  | O => Ret tt
  | S remaining =>
      let! _ := perform JoinAborted in
      join_aborted remaining
  end.

(** The rest of [run] once [services] tasks are spawned. *)
Definition supervise (services : nat) (shutdown_timeout : Z) : main_prog (result ControlPlaneError unit) :=
  let! first := perform FirstReady in
  let first_error :=
    match first with
    | FirstSignal _ => None
    | FirstCompleted completed => Some (unexpected_service_result completed)
    end in
  (* the task that was joined is no longer in the set *)
  let remaining := match first with FirstCompleted (Some _) => pred services | _ => services end in
  let! _ := perform CancelServices in
  let! drained := drain_services remaining None in
  let! shutdown_error :=
    match drained.2 with
    | Some result => Ret (match result with Ok _ => None | Err error => Some error end)
    | None =>
        let! _ := perform AbortServices in
        let! _ := join_aborted (drained.1) in
        Ret (Some (CPE.ShutdownTimeout shutdown_timeout))
    end in
  let! _ := perform CloseDatabase in
  Ret match first_error, shutdown_error with
      | Some error, _ | None, Some error => Err error
      | None, None => Ok tt
      end.

(** ** Start *)

Section control_plane.
Context `{Codec}.
(** [String::from_utf8_lossy], the JSON that is read and written, and how an address is
    shown. *)
Variable from_utf8_lossy : bytes → string.
Variable envelope_from_slice : bytes → result string CloudflareEnvelope.
Variable runtime_state_to_json : LocalRuntimeState → result string string.
Variable runtime_state_from_json : string → result string LocalRuntimeState.
Variable socket_addr_to_string : SocketAddr → string.

Definition local_manager (config : Config) : LocalComputeManager := {|
  lm_node_agent_binary := cfg_node_agent_binary config;
  lm_node_agent_root := cfg_node_agent_root config;
  lm_podman_binary := cfg_podman_binary config;
  lm_local_scope := cfg_local_scope config;
  lm_control_plane_address := socket_addr_to_string (cfg_agent_listen_address config);
  lm_command_timeout := cfg_agent_command_timeout config;
  lm_max_frame_bytes := cfg_max_frame_bytes config;
  lm_control_timeout := cfg_local_control_timeout config;
  lm_process_stop_timeout := cfg_local_process_stop_timeout config |}.

(** The certificate authority's check, when there is one. *)
Definition check_certificates (config : Config) : main_prog (result ControlPlaneError unit) :=
  match cfg_remote_agent config with
  | None => Ret (Ok tt)
  | Some remote =>
      let? _ := prog_map on_certificates (ca_preflight from_utf8_lossy remote) via CPE.Certificate in
      Ret (Ok tt)
  end.

(** The credential manager and its check, when there is one. *)
Definition check_credentials (config : Config) : main_prog (result ControlPlaneError unit) :=
  match cfg_r2 config with
  | None => Ret (Ok tt)
  | Some r2 =>
      let? _ := perform NewCredentialClient via (λ e, CPE.R2TemporaryCredential (R2E.Http e)) in
      let? _ := prog_map on_credentials (r2_preflight envelope_from_slice r2)
        via CPE.R2TemporaryCredential in
      Ret (Ok tt)
  end.

Definition akamai_error (error : AkamaiComputeError) : ControlPlaneError := CPE.Compute (CE.Akamai error).

(** The Akamai manager and its check, when there is one: the machines it manages. *)
Definition check_akamai (config : Config) : main_prog (result ControlPlaneError (option (AkamaiConfig * Z))) :=
  match cfg_akamai config, cfg_remote_agent config with
  | Some akamai, Some remote =>
      let? _ := perform NewAkamaiClient via akamai_error in
      let? managed := prog_map on_managed (AkamaiCompute.preflight akamai) via akamai_error in
      Ret (Ok (Some (akamai, managed)))
  | None, _ => Ret (Ok None)
  | Some _, None =>
      Ret (Err (CPE.InvalidConfiguration "Akamai provider requires remote TLS agent configuration"))
  end.

Definition reap_local (config : Config) : main_prog (result ControlPlaneError unit) :=
  if cfg_reap_orphans_on_start config then
    let? ownership := perform (Managed (Repo ComputeInstanceRepository_list_active_local_ownership))
      via CPE.Repository in
    let? _ := prog_map on_host (reap_orphans from_utf8_lossy runtime_state_to_json
        runtime_state_from_json (local_manager config) ownership)
      via (λ error, CPE.Compute (CE.Local error)) in
    Ret (Ok tt)
  else Ret (Ok tt).

Definition start_akamai (config : Config) : main_prog (result ControlPlaneError unit) :=
  let? checked := check_akamai config via id in
  match checked with
  | Some (akamai, _) =>
      if akamai_reap_orphans_on_start akamai then
        let? active := perform (Managed (Repo ComputeInstanceRepository_list_active_akamai))
          via CPE.Repository in
        let? _ := prog_map on_managed (AkamaiComputeManager_reap_orphans akamai active) via akamai_error in
        Ret (Ok tt)
      else Ret (Ok tt)
  | None => Ret (Ok tt)
  end.

(** The remote listener: whether there is one. *)
Definition bind_remote (config : Config) : main_prog (result ControlPlaneError bool) :=
  match cfg_remote_agent config, cfg_r2 config with
  | Some remote, Some _ =>
      let? _ := perform (BindRemoteAgents remote) via CPE.AgentServer in
      Ret (Ok true)
  | None, None => Ret (Ok false)
  | Some _, None =>
      Ret (Err (CPE.InvalidConfiguration "remote Akamai agent listener requires R2 temporary credentials"))
  | None, Some _ =>
      Ret (Err (CPE.InvalidConfiguration "R2 temporary credentials require the remote Akamai agent listener"))
  end.

Definition service_names (remote : bool) : list ServiceName :=
  ([SN.ClientSocket; SN.AgentServer] ++ (if remote then [SN.RemoteAgentServer] else []) ++ [SN.Reconciler])%list.

Fixpoint spawn_services (names : list ServiceName) : main_prog unit :=
  match names with
  | [] => Ret tt
  | name :: names =>
      let! _ := perform (SpawnService name) in
      spawn_services names
  end.

(** [run] until its services are spawned: which. *)
Definition start (config : Config) : main_prog (result ControlPlaneError (list ServiceName)) :=
  let? _ := connect_database (cfg_database_url config) via CPE.Repository in
  let? _ := check_certificates config via id in
  let? _ := check_credentials config via id in
  let? _ := reap_local config via id in
  let? _ := start_akamai config via id in
  let? _ := perform (BindAgents (cfg_agent_listen_address config)) via CPE.AgentServer in
  let? remote := bind_remote config via id in
  let? _ := perform (BindClients (cfg_socket_path config) (cfg_socket_mode config)) via CPE.Socket in
  let? _ := perform RegisterSignals via CPE.Signal in
  let! _ := spawn_services (service_names remote) in
  Ret (Ok (service_names remote)).

Definition run (config : Config) : main_prog (result ControlPlaneError unit) :=
  let? services := start config via id in
  supervise (length services) (cfg_shutdown_timeout config).

Definition preflight (config : Config) : main_prog (result ControlPlaneError unit) :=
  let? _ := connect_database (cfg_database_url config) via CPE.Repository in
  let? _ := check_certificates config via id in
  let? _ := check_credentials config via id in
  let? managed := check_akamai config via id in
  let! _ := perform CloseDatabase in
  let! _ := perform (PrintLine
    match managed with
    | Some (_, count) =>
        "preflight ok: database, remote agent PKI, R2 temporary credentials, and Akamai provider; managed_instances="
        ++ u64_to_string count
    | None =>
        if is_some (cfg_remote_agent config) then "preflight ok: database and remote agent PKI"
        else "preflight ok: database and local compute configuration"
    end) in
  Ret (Ok tt).

(** ** The process *)

(** [Url::parse] and the version of the package. *)
Variable url_parse : string → option Url.
Variable package_version : string.

Definition control_plane_newline : string := String (Ascii.ascii_of_nat 10) EmptyString.
Definition control_plane_version : string := "mcserver-control-plane " ++ package_version.
(** [print_help]. *)
Definition control_plane_help : string :=
  control_plane_version ++ control_plane_newline ++ control_plane_newline ++ "USAGE:" ++
  control_plane_newline ++ "    mcserver-control-plane [run | --preflight | --version]".

(** The rest of [main] once the command is one that needs the configuration. *)
Definition configured (env : environment_vars) (files : string → result io_error string)
    (action : Config → main_prog (result ControlPlaneError unit)) : main_prog (result CPM.MainError unit) :=
  let! _ := perform InitLogging in
  let? config := Ret (from_env url_parse env files) via CPM.Configuration in
  let? _ := action config via CPM.ControlPlane in
  Ret (Ok tt).

Definition main (env : environment_vars) (files : string → result io_error string)
    (arguments : list string) : main_prog (result CPM.MainError unit) :=
  match Command_parse arguments with
  | Err arguments => Ret (Err (CPM.InvalidCommandLine arguments))
  | Ok CMD.Version => let! _ := perform (PrintLine control_plane_version) in Ret (Ok tt)
  | Ok CMD.Help => let! _ := perform (PrintLine control_plane_help) in Ret (Ok tt)
  | Ok CMD.Run => configured env files run
  | Ok CMD.Preflight => configured env files preflight
  end.
End control_plane.
