(* ===== verification/ControlPlaneProperties.v ===== *)
(** What the process of the control plane does before it serves and when it ends. *)
From S2P Require Import Prelude Text Net NetFacts Programs Framing Server Instances Database Codecs.
From S2P Require Import Environment Config ConfigProperties Effects NodeAgent AgentServer R2Credentials.
From S2P Require Import LocalCompute LocalHost AkamaiCompute ClientProtocol ClientRpc UnixSocket.
From S2P Require Import CertificateAuthority ControlPlane.
#[local] Open Scope string_scope.
#[local] Open Scope Z_scope.

(** ** The end *)

(** Whether the first event took a task out of the set. *)
Definition first_joined (first : first_event) : nat :=
  match first with FirstCompleted (Some _) => 1 | _ => 0 end.

(** What the end of a service during the shutdown reports, when it is a failure. *)
Inductive failed : result join_error ServiceExit → ControlPlaneError → Prop :=
| failed_socket e : failed (Ok (SE.ClientSocket (Err e))) (CPE.Socket e)
| failed_agents e : failed (Ok (SE.AgentServer (Err e))) (CPE.AgentServer e)
| failed_remote_agents e : failed (Ok (SE.RemoteAgentServer (Err e))) (CPE.AgentServer e)
| failed_worker e : failed (Ok (SE.Reconciler (Err e))) (CPE.Reconcile e)
| failed_task message : failed (Err (JoinPanicked message)) (CPE.TaskJoin (JoinPanicked message)).
Definition unharmed (c : result join_error ServiceExit) : Prop := ∀ e, ¬ failed c e.

(** What the end of a service before any shutdown reports, which always is a failure. *)
Inductive ended_early : option (result join_error ServiceExit) → ControlPlaneError → Prop :=
| early_failure c e : failed c e → ended_early (Some c) e
| early_cancelled : ended_early (Some (Err JoinCancelled)) (CPE.TaskJoin JoinCancelled)
| early_socket :
    ended_early (Some (Ok (SE.ClientSocket (Ok tt)))) (CPE.UnexpectedServiceExit SN.ClientSocket)
| early_agents :
    ended_early (Some (Ok (SE.AgentServer (Ok tt)))) (CPE.UnexpectedServiceExit SN.AgentServer)
| early_remote_agents :
    ended_early (Some (Ok (SE.RemoteAgentServer (Ok tt))))
      (CPE.UnexpectedServiceExit SN.RemoteAgentServer)
| early_worker :
    ended_early (Some (Ok (SE.Reconciler (Ok tt)))) (CPE.UnexpectedServiceExit SN.Reconciler)
| early_nothing : ended_early None (CPE.UnexpectedServiceExit SN.Unknown).

(** The result of the process. *)
Inductive process_result (timeout : Z) :
    first_event → list (result join_error ServiceExit) → bool → result ControlPlaneError unit → Prop :=
| result_success signal completions :
    Forall unharmed completions → process_result timeout (FirstSignal signal) completions true (Ok tt)
| result_failure signal before c after e :
    Forall unharmed before → failed c e →
    process_result timeout (FirstSignal signal) (before ++ c :: after)%list true (Err e)
| result_late signal completions :
    process_result timeout (FirstSignal signal) completions false (Err (CPE.ShutdownTimeout timeout))
| result_early completed completions in_time e :
    ended_early completed e → process_result timeout (FirstCompleted completed) completions in_time (Err e).

Lemma drained_failed c e : drained_error c = Some e ↔ failed c e.
Proof.
  split.
  - destruct c as [[[[]|]|[[]|]|[[]|]|[[]|]]|[]]; intros [= <-]; constructor.
  - by destruct 1.
Qed.
Lemma drained_unharmed c : drained_error c = None ↔ unharmed c.
Proof.
  split; [by intros Hc e He%drained_failed; rewrite He in Hc|]. intros Hu.
  destruct (drained_error c) as [e|] eqn:He; [|done]. apply drained_failed in He. by destruct (Hu e).
Qed.
Lemma unexpected_early completed : ended_early completed (unexpected_service_result completed).
Proof. destruct completed as [[[[[]|]|[[]|]|[[]|]|[[]|]]|[]]|]; first [by apply early_failure; constructor|by constructor]. Qed.

(** The first error of a drained set. *)
Lemma drained_result timeout signal completions :
  process_result timeout (FirstSignal signal) completions true
    match head (omap drained_error completions) with Some error => Err error | None => Ok tt end.
Proof.
  assert (∀ before, Forall unharmed before →
    process_result timeout (FirstSignal signal) (before ++ completions)%list true
      match head (omap drained_error completions) with Some error => Err error | None => Ok tt end)
    as H; [|by apply (H [])].
  induction completions as [|c completions IH]; intros before Hb; cbn.
  { rewrite app_nil_r. by constructor. }
  destruct (drained_error c) as [e|] eqn:Hc; cbn.
  - constructor; [done|by apply drained_failed].
  - specialize (IH (before ++ [c])%list). rewrite <- app_assoc in IH. apply IH.
    apply Forall_app. split; [done|]. constructor; [by apply drained_unharmed|constructor].
Qed.

Definition joined (c : result join_error ServiceExit) : gevent main_op := GEvent JoinInTime (Some c).
Definition aborted (c : result join_error ServiceExit) : gevent main_op := GEvent JoinAborted c.

Definition or_first (first second : option ControlPlaneError) : option ControlPlaneError :=
  match first with Some error => Some error | None => second end.

Lemma drain_trace n error evs out :
  trace (drain_services n error) evs (Some out) →
  ∃ completions,
    (length completions = n ∧ evs = map joined completions ∧
     out = (O, Some match or_first error (head (omap drained_error completions)) with
                    | Some e => Err e | None => Ok tt end)) ∨
    (∃ m, n = (length completions + S m)%nat ∧
       evs = (map joined completions ++ [GEvent JoinInTime None])%list ∧ out = (S m, None)).
Proof.
  revert error evs. induction n as [|n IH]; intros error evs; cbn [drain_services].
  - intros [-> ->]%trace_ret_inv. exists []. left. cbn. by destruct error.
  - intros [[_ ?]|(e1 & e2 & [c|] & -> & ->%trace_perform & Ht)]%trace_bind_inv; [done|..].
    + apply IH in Ht as (completions & [(Hl & -> & ->)|(m & -> & -> & ->)]).
      * exists (c :: completions). left. split_and!; [by rewrite <- Hl|done|].
        cbn. destruct error as [e|]; [done|]. cbn. by destruct (drained_error c).
      * exists (c :: completions). right. by exists m.
    + apply trace_ret_inv in Ht as [-> ->]. exists []. right. by exists n.
Qed.

Lemma join_aborted_trace n evs u :
  trace (join_aborted n) evs (Some u) → ∃ results, length results = n ∧ evs = map aborted results.
Proof.
  revert evs. induction n as [|n IH]; intros evs; cbn [join_aborted].
  - intros [-> _]%trace_ret_inv. by exists [].
  - intros [[_ ?]|(e1 & e2 & c & -> & ->%trace_perform & Ht)]%trace_bind_inv; [done|].
    apply IH in Ht as (results & Hl & ->). exists (c :: results). cbn. by rewrite Hl.
Qed.

Lemma supervise_trace services timeout evs r :
  (0 < services)%nat → trace (supervise services timeout) evs (Some r) →
  ∃ first completions results (in_time : bool),
    evs = (GEvent FirstReady first :: GEvent CancelServices tt :: map joined completions ++
           (if in_time then [] else GEvent JoinInTime None :: GEvent AbortServices tt ::
              map aborted results) ++ [GEvent CloseDatabase tt])%list ∧
    (first_joined first + length completions + length results = services)%nat ∧
    (in_time = true ↔ results = []) ∧
    process_result timeout first completions in_time r.
Proof.
  intros Hn Ht. unfold supervise in Ht.
  apply trace_bind_inv in Ht as [[_ ?]|(? & ? & first & -> & ->%trace_perform & Ht)]; [done|].
  apply trace_bind_inv in Ht as [[_ ?]|(? & ? & [] & -> & ->%trace_perform & Ht)]; [done|].
  set (remaining := match first with FirstCompleted (Some _) => pred services | _ => services end) in Ht.
  assert (first_joined first + remaining = services)%nat as Hrem.
  { subst remaining. destruct first as [|[]]; cbn; lia. }
  apply trace_bind_inv in Ht as [[_ ?]|(? & ? & drained & -> & Hd & Ht)]; [done|].
  apply drain_trace in Hd as (completions & [(Hl & -> & ->)|(m & Hl & -> & ->)]); cbn [fst snd] in Ht.
  - apply trace_bind_inv in Ht as [[_ ?]|(? & ? & error & -> & [-> ->]%trace_ret_inv & Ht)]; [done|].
    apply trace_bind_inv in Ht as [[_ ?]|(? & ? & [] & -> & ->%trace_perform & Ht)]; [done|].
    apply trace_ret_inv in Ht as [-> ->].
    exists first, completions, [], true. split_and!; [done|cbn; lia|done|].
    destruct first as [signal|completed]; [|constructor; apply unexpected_early].
    pose proof (drained_result timeout signal completions) as Hr.
    by destruct (head (omap drained_error completions)).
  - apply trace_bind_inv in Ht as [[_ ?]|(? & ? & error & -> & Ha & Ht)]; [done|].
    apply trace_bind_inv in Ha as [[_ ?]|(? & ? & [] & -> & ->%trace_perform & Ha)]; [done|].
    apply trace_bind_inv in Ha as [[_ ?]|(? & ? & [] & -> & Hj & Ha)]; [done|].
    apply join_aborted_trace in Hj as (results & Hr & ->). apply trace_ret_inv in Ha as [-> ->].
    apply trace_bind_inv in Ht as [[_ ?]|(? & ? & [] & -> & ->%trace_perform & Ht)]; [done|].
    apply trace_ret_inv in Ht as [-> ->].
    exists first, completions, results, false. split_and!.
    + rewrite !app_nil_r. cbn. f_equal. f_equal. by rewrite <- !app_assoc.
    + lia.
    + split; [done|]. intros ->. cbn in Hr. done.
    + destruct first; constructor. apply unexpected_early.
Qed.

(** C27. The process ends in order: once a signal came or a service ended, all services
    are told to end, every one of them is awaited or, when the time is up, aborted and
    then awaited, and only then is the database closed, so that none still uses it. The
    process succeeds only after a signal and when every service ended in time and
    without an error; otherwise it reports the service that ended first, the first
    error of the shutdown, or that the time was up. *)
Theorem shutdown_is_orderly services timeout evs r :
  (0 < services)%nat → trace (supervise services timeout) evs (Some r) →
  ∃ first completions results (in_time : bool),
    evs = (GEvent FirstReady first :: GEvent CancelServices tt :: map joined completions ++
           (if in_time then [] else GEvent JoinInTime None :: GEvent AbortServices tt ::
              map aborted results) ++ [GEvent CloseDatabase tt])%list ∧
    (first_joined first + length completions + length results = services)%nat ∧
    (in_time = true ↔ results = []) ∧
    process_result timeout first completions in_time r.
Proof. apply supervise_trace. Qed.

(** ** The start *)

Definition no_service (X : Type) (o : main_op X) : Prop :=
  match o with SpawnService _ => False | _ => True end.
Definition is_spawn (e : gevent main_op) : Prop := ¬ event_does no_service e.

(** A trace that has spawned a service is past what never does. *)
Lemma spawn_after {E F A B} (conv : E → F) (m : main_prog (result E A)) (f : A → main_prog (result F B)) evs r :
  galways no_service (λ _, True) m → Exists is_spawn evs → trace (try_bind conv m f) evs r →
  ∃ e1 e2 a, evs = (e1 ++ e2)%list ∧ trace m e1 (Some (Ok a)) ∧ Exists is_spawn e2 ∧ trace (f a) e2 r.
Proof.
  intros Hm Hs. assert (∀ e1 s, trace m e1 s → ¬ Exists is_spawn e1) as Hno.
  { intros e1 s Ht Hx. pose proof (trace_galways _ _ _ _ _ Ht Hm) as Hf.
    apply Exists_exists in Hx as (e & He & Hx). rewrite Forall_forall in Hf. by apply Hx, Hf. }
  intros [[Ht _]|(e1 & e2 & [a|e] & -> & Ht & Hf)]%trace_bind_inv; [by destruct (Hno _ _ Ht)|..].
  - exists e1, e2, a. split_and!; try done. apply Exists_app in Hs as [Hs|Hs]; [|done].
    by destruct (Hno _ _ Ht).
  - apply trace_inv in Hf as [[-> _]|[-> _]]; rewrite app_nil_r in Hs; by destruct (Hno _ _ Ht).
Qed.

Section start.
Context `{Codec} (from_utf8_lossy : bytes → string).
Context (envelope_from_slice : bytes → result string CloudflareEnvelope).
Context (runtime_state_to_json : LocalRuntimeState → result string string).
Context (runtime_state_from_json : string → result string LocalRuntimeState).
Context (socket_addr_to_string : SocketAddr → string) (config : Config).

#[local] Abbreviation run_process := (ControlPlane.run from_utf8_lossy envelope_from_slice runtime_state_to_json
  runtime_state_from_json socket_addr_to_string config).
#[local] Abbreviation check_process := (ControlPlane.preflight from_utf8_lossy envelope_from_slice config).
#[local] Abbreviation certificates := (check_certificates from_utf8_lossy config).
#[local] Abbreviation credentials := (check_credentials envelope_from_slice config).
#[local] Abbreviation reaped := (reap_local from_utf8_lossy runtime_state_to_json runtime_state_from_json
  socket_addr_to_string config).

Ltac never_spawns :=
  repeat (galways_step || (apply galways_map; [by intros|by intros])); try exact I; try done.

Lemma perform_never {X} (o : main_op X) : no_service X o → galways no_service (λ _, True) (perform o).
Proof. by split. Qed.
Lemma database_never url : galways no_service (λ _, True) (connect_database url).
Proof. unfold connect_database. never_spawns. Qed.
Lemma certificates_never : galways no_service (λ _, True) certificates.
Proof. unfold check_certificates. never_spawns. Qed.
Lemma credentials_never : galways no_service (λ _, True) credentials.
Proof. unfold check_credentials. never_spawns. Qed.
Lemma reaped_never : galways no_service (λ _, True) reaped.
Proof. unfold reap_local. never_spawns. Qed.
Lemma akamai_never : galways no_service (λ _, True) (start_akamai config).
Proof. unfold start_akamai, check_akamai. never_spawns. Qed.
Lemma remote_never : galways no_service (λ _, True) (bind_remote config).
Proof. unfold bind_remote. never_spawns. Qed.

Lemma supervise_never n timeout : galways no_service (λ _, True) (supervise n timeout).
Proof.
  assert (∀ n e, galways no_service (λ _, True) (drain_services n e)) as Hd.
  { clear n. induction n as [|n IH]; intros e; cbn [drain_services]; [done|]. split; [done|].
    intros [c|]; [apply IH|done]. }
  assert (∀ n, galways no_service (λ _, True) (join_aborted n)) as Hj.
  { clear n. induction n as [|n IH]; cbn [join_aborted]; [done|]. split; [done|]. intros c. apply IH. }
  unfold supervise. never_spawns; auto.
Qed.

Lemma spawned_services names evs r :
  trace (spawn_services names) evs r →
  Forall (λ e, ∃ name, e = GEvent (SpawnService name) tt ∧ name ∈ names) evs.
Proof.
  revert evs. induction names as [|name names IH]; intros evs Ht; cbn [spawn_services] in Ht.
  - apply trace_inv in Ht as [[-> _]|[-> _]]; constructor.
  - apply trace_inv in Ht as [[-> _]|([] & evs' & -> & Ht)]; [constructor|]. constructor.
    + exists name. split; [done|apply list_elem_of_here].
    + eapply Forall_impl; [exact (IH _ Ht)|]. intros e (n & -> & Hn). exists n.
      split; [done|by apply list_elem_of_further].
Qed.

(** The database is open and its schema is the one of this release. *)
Definition database_opened (url : string) : list (gevent main_op) :=
  [GEvent (OpenDatabase (database_options url) 5) (Ok tt); GEvent RunMigrations (Ok tt)].
Lemma connect_database_ok url evs u :
  trace (connect_database url) evs (Some (Ok u)) → evs = database_opened url.
Proof.
  unfold connect_database.
  intros (? & ? & [] & -> & ->%trace_perform & Ht)%trace_try_ok.
  apply trace_try_ok in Ht as (? & ? & [] & -> & ->%trace_perform & [-> _]%trace_ret_inv). done.
Qed.

(** Where a service has been spawned, the start has gone through. *)
Lemma spawned_after_checks evs r :
  trace run_process evs r → Exists is_spawn evs →
  ∃ e1 e2 e3 e4 e5 (remote : bool) rest,
    evs = (database_opened (cfg_database_url config) ++ e1 ++ e2 ++ e3 ++ e4 ++
           GEvent (BindAgents (cfg_agent_listen_address config)) (Ok tt) :: e5 ++
           GEvent (BindClients (cfg_socket_path config) (cfg_socket_mode config)) (Ok tt) ::
           GEvent RegisterSignals (Ok tt) :: rest)%list ∧
    trace certificates e1 (Some (Ok tt)) ∧ trace credentials e2 (Some (Ok tt)) ∧
    trace reaped e3 (Some (Ok tt)) ∧ trace (start_akamai config) e4 (Some (Ok tt)) ∧
    trace (bind_remote config) e5 (Some (Ok remote)) ∧
    Forall (λ e, is_spawn e → ∃ name, e = GEvent (SpawnService name) tt ∧ name ∈ service_names remote) rest.
Proof.
  intros Ht Hs. unfold ControlPlane.run in Ht.
  assert (∃ e0 e6 s, evs = (e0 ++ e6)%list ∧ Exists is_spawn e0 ∧ ¬ Exists is_spawn e6 ∧
    trace (start from_utf8_lossy envelope_from_slice runtime_state_to_json runtime_state_from_json
      socket_addr_to_string config) e0 s) as (e0 & e6 & s & -> & Hs0 & Hs6 & Hstart).
  { apply trace_bind_inv in Ht as [[Ht _]|(e0 & e6 & out & -> & Ht & Hrest)].
    - exists evs, [], None. rewrite app_nil_r. split_and!; try done. by intros ?%Exists_nil.
    - exists e0, e6, (Some out). assert (¬ Exists is_spawn e6) as Hn.
      { assert (Forall (event_does no_service) e6) as Hf.
        { destruct out as [services|e].
          - eapply trace_galways; [exact Hrest|apply supervise_never].
          - apply trace_inv in Hrest as [[-> _]|[-> _]]; constructor. }
        intros (e & He & Hx)%Exists_exists. rewrite Forall_forall in Hf. by apply Hx, Hf. }
      split_and!; try done. by apply Exists_app in Hs as [?|?]. }
  unfold start in Hstart.
  apply spawn_after in Hstart as (? & ? & [] & -> & ->%connect_database_ok & Hs1 & Hstart); [|apply database_never|done].
  apply spawn_after in Hstart as (e1 & ? & [] & -> & He1 & Hs2 & Hstart); [|apply certificates_never|done].
  apply spawn_after in Hstart as (e2 & ? & [] & -> & He2 & Hs3 & Hstart); [|apply credentials_never|done].
  apply spawn_after in Hstart as (e3 & ? & [] & -> & He3 & Hs4 & Hstart); [|apply reaped_never|done].
  apply spawn_after in Hstart as (e4 & ? & [] & -> & He4 & Hs5 & Hstart); [|apply akamai_never|done].
  apply spawn_after in Hstart as (? & ? & [] & -> & ->%trace_perform & Hs7 & Hstart); [|by apply perform_never|done].
  apply spawn_after in Hstart as (e5 & ? & remote & -> & He5 & Hs8 & Hstart); [|apply remote_never|done].
  apply spawn_after in Hstart as (? & ? & [] & -> & ->%trace_perform & Hs9 & Hstart); [|by apply perform_never|done].
  apply spawn_after in Hstart as (? & rest & [] & -> & ->%trace_perform & Hs10 & Hstart); [|by apply perform_never|done].
  exists e1, e2, e3, e4, e5, remote, (rest ++ e6)%list. split_and!; try done.
  { repeat (cbn [app]; rewrite <- app_assoc). cbn [app]. by rewrite <- ?app_assoc. }
  apply Forall_app. split.
  - assert (∃ s', trace (spawn_services (service_names remote)) rest s') as [s' Hspawn].
    { apply trace_bind_inv in Hstart as [[Ht' _]|(a1 & a2 & [] & -> & Ht' & Hr)]; [by eexists|].
      apply trace_inv in Hr as [[-> _]|[-> _]]; rewrite app_nil_r; by eexists. }
    eapply Forall_impl; [by eapply spawned_services|]. done.
  - apply Forall_forall. intros e He Hx. destruct Hs6. apply Exists_exists. by exists e.
Qed.

(** Nothing is served before it is safe: a service is spawned only after the
    database was opened, the certificates and the credentials were checked, what an
    earlier run left on this host and at the provider was reaped, both listeners and
    the socket were bound and the signals registered, each of them successfully and in
    this order; and the services are the socket, the listeners that the configuration
    asks for and the worker. *)
Theorem services_start_after_checks evs r :
  trace run_process evs r → Exists is_spawn evs →
  ∃ e1 e2 e3 e4 e5 (remote : bool) rest,
    evs = (database_opened (cfg_database_url config) ++ e1 ++ e2 ++ e3 ++ e4 ++
           GEvent (BindAgents (cfg_agent_listen_address config)) (Ok tt) :: e5 ++
           GEvent (BindClients (cfg_socket_path config) (cfg_socket_mode config)) (Ok tt) ::
           GEvent RegisterSignals (Ok tt) :: rest)%list ∧
    trace certificates e1 (Some (Ok tt)) ∧ trace credentials e2 (Some (Ok tt)) ∧
    trace reaped e3 (Some (Ok tt)) ∧ trace (start_akamai config) e4 (Some (Ok tt)) ∧
    trace (bind_remote config) e5 (Some (Ok remote)) ∧
    Forall (λ e, is_spawn e → ∃ name, e = GEvent (SpawnService name) tt ∧ name ∈ service_names remote) rest.
Proof. apply spawned_after_checks. Qed.

(** ** Configurations *)

Definition inconsistent {A} (r : result ControlPlaneError A) : Prop :=
  match r with Err (CPE.InvalidConfiguration _) => True | _ => False end.

(** No service's end looks like an inconsistent configuration. *)
Lemma supervise_consistent services timeout evs r :
  (0 < services)%nat → trace (supervise services timeout) evs (Some r) → ¬ inconsistent r.
Proof.
  intros Hn (first & completions & results & in_time & _ & _ & _ & Hr)%supervise_trace; [|done].
  assert (∀ c e, failed c e → ¬ inconsistent (A := unit) (Err e)) as Hfailed by (intros c e []; by intros []).
  destruct Hr as [| |? ? |completed ? ? e He]; [by intros []|by eapply Hfailed|by intros []|].
  destruct He; [by eapply Hfailed|by intros []..].
Qed.

Context (url_parse : string → option Url) (env : environment_vars).
Context (files : string → result io_error string).

(** A configuration that is accepted although it has no use: agents of remote machines,
    and no provider of such machines. *)
Definition remote_without_provider : Prop := is_Some (cfg_remote_agent config) ∧ cfg_akamai config = None.

Hypothesis accepted : config_ok url_parse config.

Lemma bind_remote_accepted evs r :
  trace (bind_remote config) evs (Some r) → inconsistent r ↔ remote_without_provider.
Proof.
  unfold bind_remote, remote_without_provider.
  pose proof (config_both _ _ accepted) as Hboth. pose proof (config_akamai _ _ accepted) as Hakamai.
  destruct (cfg_remote_agent config) as [remote|], (cfg_r2 config) as [r2|]; intros Ht.
  - destruct (proj2 Hboth (ex_intro _ r2 eq_refl)) as [a Ha].
    assert (¬ inconsistent r) as Hn; [|split; [done|intros [_ ?]; congruence]].
    apply trace_try_inv in Ht as [(e & _ & ->)|(e1 & e2 & u & _ & _ & Ht)]; [by intros []|].
    apply trace_ret_inv in Ht as [_ ->]. by intros [].
  - apply trace_ret_inv in Ht as [_ ->]. split; [|done]. intros _. split; [by eexists|].
    destruct (cfg_akamai config) as [a|]; [|done]. by destruct (proj1 Hboth (ex_intro _ a eq_refl)).
  - destruct (proj2 Hboth (ex_intro _ r2 eq_refl)) as [a Ha].
    destruct (Hakamai _ Ha) as (? & ? & _). done.
  - apply trace_ret_inv in Ht as [_ ->]. split; [by intros []|by intros [[] _]].
Qed.

(** The checks before do not find a configuration inconsistent. *)
Definition consistent_error {A} (p : main_prog (result ControlPlaneError A)) : Prop :=
  ∀ evs r, trace p evs (Some r) → ¬ inconsistent r.
Lemma consistent_ret {A} (a : A) : consistent_error (Ret (Ok a)).
Proof. intros evs r [_ ->]%trace_ret_inv. by intros []. Qed.
Lemma consistent_try {E A B} (conv : E → ControlPlaneError) (m : main_prog (result E A)) (f : A → main_prog (result ControlPlaneError B)) :
  (∀ evs e, trace m evs (Some (Err e)) → ¬ inconsistent (A := B) (Err (conv e))) →
  (∀ a, consistent_error (f a)) → consistent_error (try_bind conv m f).
Proof.
  intros Hm Hf evs r [(e & Ht & ->)|(e1 & e2 & a & _ & _ & Ht)]%trace_try_inv; [by eapply Hm|by eapply Hf].
Qed.
Ltac consistent := repeat first
  [ apply consistent_ret
  | apply consistent_try; [by intros ? ? ? []|intros ?]
  | match goal with |- consistent_error (if ?b then _ else _) => destruct b end ].

Lemma certificates_consistent : consistent_error certificates.
Proof. unfold check_certificates. destruct (cfg_remote_agent config); consistent. Qed.
Lemma credentials_consistent : consistent_error credentials.
Proof. unfold check_credentials. destruct (cfg_r2 config); consistent. Qed.
Lemma reaped_consistent : consistent_error reaped.
Proof. unfold reap_local. consistent. Qed.
Lemma check_akamai_consistent : consistent_error (check_akamai config).
Proof.
  unfold check_akamai. pose proof (config_akamai _ _ accepted) as Hakamai.
  destruct (cfg_akamai config) as [a|]; [|consistent].
  destruct (Hakamai _ eq_refl) as (remote & -> & _). consistent.
Qed.
Lemma consistent_id {A B} (m : main_prog (result ControlPlaneError A)) (f : A → main_prog (result ControlPlaneError B)) :
  consistent_error m → (∀ a, consistent_error (f a)) → consistent_error (try_bind id m f).
Proof.
  intros Hm Hf. apply consistent_try; [|done]. intros evs e Ht%Hm. by destruct e; intros [].
Qed.
Lemma start_akamai_consistent : consistent_error (start_akamai config).
Proof.
  unfold start_akamai. apply consistent_id; [apply check_akamai_consistent|].
  intros [[a managed]|]; [|consistent]. consistent.
Qed.

(** The start of a process that is refused was stopped at the remote listener. *)
Lemma refused_start evs r :
  trace run_process evs (Some r) → inconsistent r → remote_without_provider.
Proof.
  intros Ht Hr. unfold ControlPlane.run in Ht.
  apply trace_try_inv in Ht as [(e & Ht & ->)|(e1 & e2 & services & _ & Hstart & Ht)].
  2:{ apply supervise_consistent in Ht; [done|]. unfold start in Hstart.
      repeat (apply trace_try_ok in Hstart as (? & ? & ? & -> & _ & Hstart)).
      apply trace_bind_inv in Hstart as [[_ ?]|(? & ? & ? & -> & _ & Hstart)]; [done|].
      apply trace_ret_inv in Hstart as [_ [= ->]]. cbn. lia. }
  assert (inconsistent (A := list ServiceName) (Err e)) as He by by destruct e. clear Hr. unfold start in Ht.
  apply trace_try_inv in Ht as [(e0 & _ & [= ->])|(? & ? & ? & _ & _ & Ht)]; [by destruct He|].
  apply trace_try_inv in Ht as [(e0 & Hx & [= ->])|(? & ? & ? & _ & _ & Ht)];
    [by apply certificates_consistent in Hx|].
  apply trace_try_inv in Ht as [(e0 & Hx & [= ->])|(? & ? & ? & _ & _ & Ht)];
    [by apply credentials_consistent in Hx|].
  apply trace_try_inv in Ht as [(e0 & Hx & [= ->])|(? & ? & ? & _ & _ & Ht)];
    [by apply reaped_consistent in Hx|].
  apply trace_try_inv in Ht as [(e0 & Hx & [= ->])|(? & ? & ? & _ & _ & Ht)];
    [by apply start_akamai_consistent in Hx|].
  apply trace_try_inv in Ht as [(e0 & _ & [= ->])|(? & ? & ? & _ & _ & Ht)]; [by destruct He|].
  apply trace_try_inv in Ht as [(e0 & Hx & [= ->])|(? & ? & ? & _ & _ & Ht)].
  { apply bind_remote_accepted in Hx. by apply Hx. }
  apply trace_try_inv in Ht as [(e0 & _ & [= ->])|(? & ? & ? & _ & _ & Ht)]; [by destruct He|].
  apply trace_try_inv in Ht as [(e0 & _ & [= ->])|(? & ? & ? & _ & _ & Ht)]; [by destruct He|].
  apply trace_bind_inv in Ht as [[_ ?]|(? & ? & ? & _ & _ & Ht)]; [done|].
  by apply trace_ret_inv in Ht as [_ ?].
Qed.
End start.

Section configurations.
Context `{Codec} (from_utf8_lossy : bytes → string).
Context (envelope_from_slice : bytes → result string CloudflareEnvelope).
Context (runtime_state_to_json : LocalRuntimeState → result string string).
Context (runtime_state_from_json : string → result string LocalRuntimeState).
Context (socket_addr_to_string : SocketAddr → string).
Context (url_parse : string → option Url) (env : environment_vars).
Context (files : string → result io_error string) (config : Config).

#[local] Abbreviation run_process := (ControlPlane.run from_utf8_lossy envelope_from_slice runtime_state_to_json
  runtime_state_from_json socket_addr_to_string config).
#[local] Abbreviation check_process := (ControlPlane.preflight from_utf8_lossy envelope_from_slice config).

Lemma started_binds evs services :
  trace (start from_utf8_lossy envelope_from_slice runtime_state_to_json runtime_state_from_json
    socket_addr_to_string config) evs (Some (Ok services)) →
  ∃ e remote, trace (bind_remote config) e (Some (Ok remote)).
Proof.
  unfold start. intros Ht. do 6 (apply trace_try_ok in Ht as (? & ? & ? & -> & _ & Ht)).
  apply trace_try_ok in Ht as (e & ? & remote & -> & Hb & _). eauto.
Qed.

(** Of the configurations that are accepted, the process refuses as inconsistent only
    those with a listener for remote agents and no provider of remote machines. These it
    never serves; the preflight, which is to find such errors before, never refuses
    an accepted configuration as inconsistent, and so it passes them. *)
Theorem only_unusable_configurations_are_refused :
  from_env url_parse env files = Ok config →
  (∀ evs r, trace run_process evs (Some r) → inconsistent r → remote_without_provider config) ∧
  (remote_without_provider config → ∀ evs r, trace run_process evs r →
     ¬ Exists is_spawn evs ∧ r ≠ Some (Ok tt)) ∧
  (∀ evs r, trace check_process evs (Some r) → ¬ inconsistent r).
Proof.
  intros Hc%from_env_ok. split_and!.
  - intros evs r. by apply (refused_start _ _ _ _ _ config url_parse).
  - intros Hr. assert (∀ e remote, ¬ trace (bind_remote config) e (Some (Ok remote))) as Hno.
    { intros e remote Ht%(bind_remote_accepted config url_parse Hc). by apply Ht in Hr. }
    intros evs r Ht. split.
    + intros Hs. destruct (spawned_after_checks _ _ _ _ _ _ _ _ Ht Hs)
        as (? & ? & ? & ? & e5 & remote & ? & _ & _ & _ & _ & _ & Hb & _). by destruct (Hno _ _ Hb).
    + intros ->. apply trace_try_ok in Ht as (? & ? & services & -> & Hs & _).
      apply started_binds in Hs as (e & remote & Hb). by destruct (Hno _ _ Hb).
  - unfold ControlPlane.preflight. apply consistent_try; [by intros ? ? ? []|intros _].
    apply consistent_id; [apply certificates_consistent|intros _].
    apply consistent_id; [apply credentials_consistent|intros _].
    apply consistent_id; [by apply (check_akamai_consistent config url_parse)|intros managed].
    intros evs r Ht. do 2 (apply trace_bind_inv in Ht as [[_ ?]|(? & ? & ? & _ & _ & Ht)]; [done|]).
    apply trace_ret_inv in Ht as [_ ->]. by intros [].
Qed.
End configurations.

(** ** Examples *)

(** ** Looking *)

(** What leaves machines, services and files as they are, but for the database's schema:
    of openssl the commands that only print or check. *)
Definition provider_looks (X : Type) (o : op X) : Prop :=
  match o with
  | ApiListInstances _ | ApiGetInstance _ | ApiGetImage _ | ApiGetRegion _ | ApiGetType _
  | ApiGetFirewall _ | ApiListInstanceFirewalls _ => True
  | _ => False
  end.
Definition openssl_looks (X : Type) (o : ca_op X) : Prop :=
  match o with
  | CaOpenssl (command :: option :: _) =>
      (command, option) ∈ [("x509", "-in"); ("pkey", "-in"); ("x509", "-checkend");
                           ("x509", "-checkhost"); ("verify", "-CAfile")]
  | _ => False
  end.
Definition main_looks (X : Type) (o : main_op X) : Prop :=
  match o with
  | OpenDatabase _ _ | RunMigrations | CloseDatabase | NewCredentialClient | NewAkamaiClient
  | PrintLine _ | InitLogging | Credentials _ => True
  | Certificates o => openssl_looks _ o
  | Managed o => provider_looks _ o
  | _ => False
  end.

Lemma for_each_looks {A} (body : A → prog (result AkamaiComputeError unit)) l :
  (∀ a, galways provider_looks (λ _, True) (body a)) →
  galways provider_looks (λ _, True) (prog_for_each body l).
Proof.
  intros Hb. induction l as [|a l IH]; [done|]. cbn. apply (galways_bind _ (λ _, True)); [apply Hb|].
  by intros [].
Qed.
Lemma api_call_looks {A} (o : op (result AkamaiComputeError (api_response A))) :
  provider_looks _ o → galways provider_looks (λ _, True) (api_call o).
Proof. intros Ho. unfold api_call. repeat galways_step. Qed.

Lemma provider_preflight_looks akamai : galways provider_looks (λ _, True) (AkamaiCompute.preflight akamai).
Proof.
  unfold AkamaiCompute.preflight, verify_bootstrap_compatibility, verify_instance_type, verify_firewall,
    list_managed_instances.
  repeat first [galways_step | apply for_each_looks; intros ? | by apply api_call_looks].
Qed.
Lemma openssl_preflight_looks from_utf8_lossy remote :
  galways openssl_looks (λ _, True) (ca_preflight from_utf8_lossy remote).
Proof.
  unfold ca_preflight, verify_key_pair, ca_run_stdout, ca_run. repeat galways_step; set_solver.
Qed.
Lemma preflight_looks from_utf8_lossy envelope_from_slice config :
  galways main_looks (λ _, True) (ControlPlane.preflight from_utf8_lossy envelope_from_slice config).
Proof.
  unfold ControlPlane.preflight, connect_database, check_certificates, check_credentials, check_akamai.
  repeat first
    [ galways_step
    | apply (galways_map_to main_looks _ on_certificates), openssl_preflight_looks
    | apply (galways_map_to main_looks _ on_managed), provider_preflight_looks
    | by apply galways_map ].
Qed.

(** The command line decides what a start may do: only [run] may change anything outside
    the database, the preflight looks at certificates, credentials and provider without
    changing or serving anything, and help and version print one line. *)
Theorem only_run_acts `{Codec} from_utf8_lossy envelope to_json from_json to_string url_parse version env
    files arguments :
  Command_parse arguments ≠ Ok CMD.Run →
  galways main_looks (λ _, True) (main from_utf8_lossy envelope to_json from_json to_string url_parse version
    env files arguments).
Proof.
  intros Hrun. unfold main, configured.
  destruct (Command_parse arguments) as [[]|]; [done|..]; repeat galways_step; try apply preflight_looks.
Qed.

Section witnesses.
#[local] Existing Instances bits_codec bits_codec_laws.

(** An agent listener, and no provider. *)
Definition unusable_env : environment_vars := λ name,
  if String.prefix "MCSERVER_CONTROL_PLANE_" name then example_env name else None.
Definition unusable_config : option (Config * RemoteAgentConfig) :=
  match from_env example_urls unusable_env example_files with
  | Ok c => r ← cfg_remote_agent c; Some (c, r)
  | Err _ => None
  end.
Definition example_command : Output := {| out_status := Some 0; out_stdout := []; out_stderr := [] |}.
(** Everything that is asked succeeds, and a signal ends it. *)
Definition example_answers (X : Type) (o : main_op X) : option X :=
  match o in main_op X return option X with
  | OpenDatabase _ _ => Some (Ok tt)
  | RunMigrations => Some (Ok tt)
  | Certificates o =>
      match o in ca_op X return option X with
      | CaOpenssl _ => Some (Some (Ok example_command))
      | _ => None
      end
  | OnHost o =>
      match o in host_op X return option X with
      | HostOutput _ _ _ => Some (Some (Ok example_command))
      | HostReadDirectory _ => Some (Err IoNotFound)
      | _ => None
      end
  | Managed o =>
      match o in op X return option X with
      | Repo m => Some (m empty_database).1
      | _ => None
      end
  | BindAgents _ | BindRemoteAgents _ => Some (Ok tt)
  | BindClients _ _ => Some (Ok tt)
  | RegisterSignals => Some (Ok tt)
  | FirstReady => Some (FirstSignal Terminate)
  | JoinInTime => Some (Some (Ok (SE.Reconciler (Ok tt))))
  | JoinAborted => Some (Err JoinCancelled)
  | CloseDatabase | CancelServices | AbortServices => Some tt
  | SpawnService _ => Some tt
  | PrintLine _ => Some tt
  | _ => None
  end.
Definition example_run (c : Config) : main_prog (result ControlPlaneError unit) :=
  ControlPlane.run (λ _, EmptyString) (λ _, Err "none") (λ _, Err "none") (λ _, Err "none")
    (λ _, "127.0.0.1:39001") c.
Definition example_check (c : Config) : main_prog (result ControlPlaneError unit) :=
  ControlPlane.preflight (λ _, EmptyString) (λ _, Err "none") c.

Definition refused (r : option (result ControlPlaneError unit)) : bool :=
  match r with Some (Err (CPE.InvalidConfiguration _)) => true | _ => false end.
Definition succeeds (r : option (result ControlPlaneError unit)) : bool :=
  match r with Some (Ok tt) => true | _ => false end.
Definition with_unusable (f : Config → bool) : bool :=
  match unusable_config with Some (c, _) => f c | None => false end.

Lemma only_unusable_configurations_are_refused_witness :
  ∃ c r, unusable_config = Some (c, r) ∧ remote_without_provider c ∧
    succeeds (replay example_answers (example_check c)).2 = true ∧
    refused (replay example_answers (example_run c)).2 = true.
Proof.
  assert (with_unusable (λ c, succeeds (replay example_answers (example_check c)).2
    && refused (replay example_answers (example_run c)).2) = true) as Hb by by vm_compute.
  unfold with_unusable in Hb. destruct unusable_config as [[c r]|] eqn:Hu; [|discriminate Hb].
  apply andb_true_iff in Hb as [Hcheck Hrun]. exists c, r. split; [reflexivity|].
  split; [|split; [exact Hcheck|exact Hrun]].
  unfold unusable_config in Hu.
  destruct (from_env example_urls unusable_env example_files) as [c'|] eqn:Hc; [|discriminate Hu].
  destruct (cfg_remote_agent c') as [r'|]; cbn [mbind option_bind] in Hu; [|discriminate Hu].
  injection Hu as -> ->.
  destruct (only_unusable_configurations_are_refused (λ _, EmptyString) (λ _, Err "none") (λ _, Err "none")
    (λ _, Err "none") (λ _, "127.0.0.1:39001") example_urls unusable_env example_files c Hc) as (Honly & _ & _).
  pose proof (replay_trace example_answers (example_run c)) as Ht.
  destruct (replay example_answers (example_run c)).2 as [[u|e]|]; try discriminate Hrun.
  apply (Honly _ _ Ht). by destruct e.
Defined.

Lemma shutdown_is_orderly_witness :
  (replay example_answers (supervise 3 (from_secs 30))).2 = Some (Ok tt) ∧
  ∃ signal completions, length completions = 3%nat ∧
    (replay example_answers (supervise 3 (from_secs 30))).1 =
      (GEvent FirstReady (FirstSignal signal) :: GEvent CancelServices tt :: map joined completions ++
       [GEvent CloseDatabase tt])%list.
Proof.
  split; [reflexivity|].
  destruct (shutdown_is_orderly 3 (from_secs 30) _ (Ok tt) ltac:(lia)
    (replay_trace example_answers (supervise 3 (from_secs 30))))
    as (first & completions & results & in_time & Hevs & Hn & Ht & Hr).
  inversion Hr as [signal all Hall| | |]; subst. rewrite (proj1 Ht eq_refl) in Hn. exists signal, completions.
  split; [cbn in Hn; lia|exact Hevs].
Defined.

Definition spawn_event (e : gevent main_op) : bool :=
  match e with GEvent o _ => match o with SpawnService _ => true | _ => false end end.
Lemma spawn_events evs : existsb spawn_event evs = true → Exists is_spawn evs.
Proof.
  intros (e & He & Hs)%existsb_exists. apply Exists_exists. exists e. split; [by apply list_elem_of_In|].
  destruct e as [X o x]. destruct o; try discriminate Hs. by intros Hf.
Qed.

Definition default_config : option Config :=
  match from_env example_urls (λ _, None) example_files with Ok c => Some c | Err _ => None end.

Lemma services_start_after_checks_witness :
  ∃ c evs e, default_config = Some c ∧ trace (example_run c) evs (Some (Ok tt)) ∧
    trace (reap_local (λ _, EmptyString) (λ _, Err "none") (λ _, Err "none") (λ _, "127.0.0.1:39001") c)
      e (Some (Ok tt)) ∧ e `sublist_of` evs.
Proof.
  assert (match default_config with
    | Some c => succeeds (replay example_answers (example_run c)).2
        && existsb spawn_event (replay example_answers (example_run c)).1
    | None => false end = true) as Hb by by vm_compute.
  destruct default_config as [c|] eqn:Hc; [|discriminate Hb]. apply andb_true_iff in Hb as [Hr Hs].
  pose proof (replay_trace example_answers (example_run c)) as Ht.
  destruct (replay example_answers (example_run c)) as [evs result]. cbn [fst snd] in *.
  assert (result = Some (Ok tt)) as -> by (destruct result as [[[]|]|]; by try discriminate Hr).
  destruct (services_start_after_checks (λ _, EmptyString) (λ _, Err "none") (λ _, Err "none")
    (λ _, Err "none") (λ _, "127.0.0.1:39001") c evs (Some (Ok tt)) Ht (spawn_events _ Hs))
    as (e1 & e2 & e3 & e4 & e5 & remote & rest & Hevs & _ & _ & He3 & _).
  exists c, evs, e3. split; [reflexivity|]. split; [exact Ht|]. split; [exact He3|].
  rewrite Hevs. apply sublist_inserts_l, sublist_inserts_l, sublist_inserts_l, sublist_inserts_r. reflexivity.
Defined.
End witnesses.
